(* ===== verification/_CoqProject ===== *)
-Q . S2P
Prelude.v
Errors.v
Model.v
Metastore.v
JobFsm.v
WorkerManager.v
TaskRunner.v
TaskCommitter.v
Dispatch.v
Worker.v
Cluster.v
Master.v
JobManager.v
ResourcePath.v
Resource.v
Containers.v
Notifier.v
Keys.v
MetaKV.v
DMConfig.v
DMStore.v
DMManagers.v
DMJobMaster.v
MessagePair.v
P2P.v
BaseWorker.v
BaseJobMaster.v
Rpc.v
ServerMaster.v
Discovery.v
Configs.v
ExecutorServer.v
Registry.v
CvsTask.v
CvsJob.v
DMWorkers.v
OrmClient.v
FakeWorker.v
FakeMaster.v
DemoServer.v
