(* ===== verification/Prelude.v ===== *)
(** * Verification of the microcosm dataflow engine

    microcosm runs dataflow jobs on a cluster. A server master holds the job
    manager, the executor manager, the scheduler and the resource manager. A job
    is run by a job master, itself a worker that executors run, and a job master
    creates workers. Masters and workers keep in touch by heartbeats; masters
    keep their metadata in a SQL database, so that another server master can take
    over. This library models the parts that decide what happens to jobs, workers,
    tasks and resources, and proves what they promise to one another.

    ** Conventions

    Go code is translated function by function, under its own name. Code that
    mutates state or fails is a function in the monad [GoM] of this file: it
    passes the state, and ends in a value ([Done]), an error ([Fail]) or a panic
    ([Panic]); an error keeps the mutations made before it. A method that holds a
    lock throughout is one atomic step; code that releases the lock, and
    goroutines, are several steps, which interleave. Objects that several owners
    mutate (worker entries, worker statuses, task containers) live in a heap and
    are held by address. The iteration order of a Go map, the clock, random
    identifiers and the answers of remote calls are arguments; theorems quantify
    over them. Machine integers are [Z] with their wrap-around written out where
    the code computes with them. Logging, tracing and metrics are left out.

    Code outside the repository is a parameter. The statements sent through GORM
    are classes ([Gorm], [GormRes]) whose laws state their documentation, each
    with an in-memory instance; the gRPC transport of a dispatch is a function
    that may lose requests and replies; what a task or a business master does in
    its callbacks is an argument.

    ** Files

    - [Prelude]: results, the monad with its triples and loop rule, iteration
      orders, machine integers.
    - [Errors]: [pkg/errors], the normalised errors, wrapping and comparison by
      root cause, the translation to protobuf codes.
    - [Model]: [lib/model], [model], [lib/config], [lib/common.go], the records,
      constants, topics and time-outs the components share.
    - [Metastore]: [pkg/orm/client.go] (jobs, epochs), [lib/metadata]. Epochs
      strictly increase over any sequence of calls; a stored job is loaded back
      unless it had been deleted.
    - [JobFsm]: [servermaster/job_fsm.go], the three maps of the job state machine
      and their operations. They refine the documented state diagram: a job is in
      one map and moves along its arrows; the failover loop dispatches every
      recovered job exactly once.
    - [WorkerManager]: [lib/master], worker entries, event queue, background check
      and recovery. No operation panics on a reachable state; the offline event of
      an entry is delivered at most once and events in order; the background check
      and the end of a recovery are characterised exactly.
    - [TaskRunner], [TaskCommitter], [Dispatch]: [executor/worker],
      [executor/server.go], [client/task_dispatcher.go]. The runner is a step
      relation over interleaved goroutines with its safety invariant; the
      committer commits a request at most once within its time to live; and the
      dispatcher composed with the executor over a lossy network accepts a task at
      most once, after its worker timer was started, never after an abort. The
      committer is proved against the interface [TaskAdder], which the runner
      implements.
    - [Worker]: [lib/worker.go], [lib/statusutil], [pkg/errctx],
      [lib/message_router.go], [pkg/clock]. The exit sequence advances only and
      waits for the master; a worker cut off from its master stops before the
      master gives it up.
    - [Cluster]: [servermaster/executor_manager.go], [servermaster/resource],
      [servermaster/scheduler]. Executors and capacities stay in step; the liveness
      check removes exactly the dead; a scheduled task fits and satisfies its
      placement constraints. The scheduler is proved against the interface
      [CapacityProvider].
    - [Master]: [lib/master.go], [pkg/quota]. Start-up takes over the metadata
      under a new epoch; the outcomes of worker creation and the use of its quota.
    - [JobManager]: [servermaster/jobmanager.go], over [Master], [JobFsm] and
      [Metastore]. Whatever requests, ticks and worker events come, the jobs move
      along the steps of the state machine; a submission takes effect entirely or
      not at all; the tick after a failover settles every job; recovery takes over
      exactly the unfinished jobs.
    - [ResourcePath], [Resource]: [pkg/externalresource] and the resource table of
      [pkg/orm/client.go]. Resource paths are normalised; closing a worker removes
      exactly its temporary files; a persisted resource is found again; a task is
      placed on the executor that has its resources.
    - [Containers], [Notifier], [MessagePair]: [pkg/containers], [pkg/notifier],
      [pkg/dm]. The queues are equivalent to a list; the goroutine of the notifier,
      its callers and its receivers are interleaved steps, and a receiver gets the
      events in order and without gaps; a response reaches the request it answers.
    - [Keys], [MetaKV]: [pkg/adapter], [pkg/meta]. Encoded keys are decoded back and
      do not collide; the client of a tenant is a store of its own over a shared
      etcd; the keys under a prefix are a range.
    - [DMConfig], [DMStore], [DMManagers], [DMJobMaster]: [jobmaster/dm]. A job
      configuration is split into its tasks; the persistent state of a job refines
      one cell, although states are shared pointers; a tick of the worker manager
      matches the workers to the job; online workers can be reached; closing ends.
    - [P2P], [BaseWorker], [BaseJobMaster]: [pkg/p2p], the rest of [lib/worker.go],
      [lib/base_jobmaster.go], over [Worker] and [Master]. Whatever polls, pongs,
      ticks and requests come, a worker follows the exit protocol of [Worker], and
      the exit handshake with the ping handler of [Master] completes; a job master
      initialises its business logic once and records its end in the metastore.
    - [Rpc], [ServerMaster], [Discovery]: [pkg/rpcutil], [client],
      [servermaster/server.go] and its campaign, members and failover,
      [servermaster/cluster], [pkg/srvdiscovery], [pkg/serverutils]. Over any order
      of terms and requests, a request that passes the hook meets the job manager
      of the current term; a server leads only after it won a campaign; the peers
      of the message router follow the nodes registered in etcd.
    - [Configs]: [executor/config.go], [servermaster/config.go], [pkg/etcdutils]. A
      flag overrides the file and every duration is the value of its text; a member
      that joined a cluster restarts into it, and a join that failed half-way is not
      repeated.
    - [ExecutorServer], [Registry]: [executor/server.go], [executor/init.go],
      [lib/registry], [pkg/deps], [pkg/context]. Composed with [ServerMaster] and
      [Cluster] over a common clock, an executor stops before the server master gives
      it up; a registration adds one executor; a heartbeat brings the clients up to
      date; the making of a task discharges the assumptions of [Dispatch]; a factory
      decodes what the base master encoded.
    - [CvsTask], [CvsJob]: [executor/cvsTask], [jobmaster/cvsJob], a worker with two
      goroutines and a bounded channel between them, on [BaseWorker], and its job
      master, on [BaseJobMaster]. In every interleaving, the lines are copied in
      order, the reported location does not run ahead of the lines handed over, a
      finished task copied its file, and a task that cannot go on reports it; the job
      master accounts for every file and hands a location to the next worker of a
      file that loses no line.
    - [DemoServer]: [cmd/demoserver], the server of the CVS example, with a mutex and
      databases behind an interface, and its mock. Composed with [CvsTask], a finished
      task whose lines were stored made a copy that the server finds equal; the check
      of a directory is exact; the files of the mock are read to their end.
    - [DMWorkers]: [dm], the workers of a data migration, on [BaseWorker], composed
      with [WorkerManager] and [DMJobMaster]. A unit runs once at a time, a dump that
      reports its end has persisted its storage, and the job master reads every report.
    - [OrmClient]: the rest of [pkg/orm/client.go], the worker client of
      [lib/metadata], the accessor of [pkg/externalresource/resourcemeta]. Over tables
      behind an interface, the client of a master is a map of its own and the accessor
      a map of the resources; a client that cannot be opened leaks no connection.
    - [FakeWorker], [FakeMaster]: [lib/fake], a worker that counts ticks and the
      changes of a key, and its job master. Every change is counted once, across broken
      watches and replacements; a job whose first tick finds its workers ends when
      every index is finished; replacements and failovers resume from what was saved.

    Some theorems state behaviour the code does not intend: a status of a worker
    that is never persisted after initialisation, a second cancellation of the
    task runner that leaves its mutex locked, a worker that never times out while
    its master has not answered, a full quota that ends the job manager's tick, a
    task of exactly the remaining capacity that is refused, resources with nested
    names that are lost and names that reach outside of their directory, a flush of
    the notifier that returns early, a range of keys that leaves its name space, a
    job store that reads a state that failed to decode, a data migration job master
    that waits for finished workers, a job master that stops without the exit
    handshake, handlers that stay registered after a failed clean-up, a discovery
    whose old watcher keeps running and whose reset loses peers, a recovered CVS
    job master that panics when a worker of before ends, an executor that is removed
    while it waits in a heartbeat call or while the leader starts, one that accepts
    tasks before it has its metastore clients, one that an answer without members
    cuts off, a data migration that does not survive the failover of its job master
    while a worker lives, workers that panic when they are closed after a failed start,
    a resource that is created twice at the same time and reported as new twice, a
    fake job that creates every worker twice, a copy that is finished without its
    lines, and a demonstration server that is blocked by the check of a directory
    that is not there.

    ** Bounds and fuel

    Five loops have fuel. The retry loop of the dispatcher answers [None] when the
    fuel is used up; with a deadline, and a clock that advances by the retry
    interval at each attempt, the number of attempts before the deadline plus one
    is enough, whatever the network does ([dispatch_terminates]). The loop that
    waits for the workers of a data migration job at its end answers [None] as
    well; one round is enough when the workers can be reached ([close_ends]). The
    fuel of the event loop of [WorkerManager.Tick] is the number of rounds that fit
    before its context expires, after which the code itself fails. The parser of
    durations has the length of its text as fuel, and every term takes a character
    ([parse_terms_fuel]). The loop of the mock server that reads a file answers [None]
    when the fuel is used up; one round per record is enough for the files it
    generates ([mock_reads_generated]). All other loops range over lists and maps. Theorems over runs hold for
    sequences of any length.

    ** What is not modelled

    etcd, gRPC, SQL, HTTP, metrics, TOML files and the command line tools are
    input and output around the modelled components: their answers are arguments.
    The message transport of [pkg/p2p] is modelled by its effect, a call of the
    handler. The units of the data migration libraries and Pebble, which are not part
    of the repository, are parameters. The mocks of the tests, the example of
    [jobmaster/example], generated code, and packages that nothing imports (the
    goroutine pool, the typed view of the metastore) are not modelled. *)


From stdpp Require Export base tactics option list gmap strings fin_maps fin_map_dom sets relations.
From Stdlib Require Export ZArith Lia.

(** ** The hint database of the development *)

Create HintDb go_db.

(** ** Machine integers

    Go's [int], [int64] (64 bit on every supported platform) and [int32] are
    [Z] with the two's complement wrap-around written out. *)

Definition wrapS (w z : Z) : Z := (z + 2 ^ (w - 1)) mod 2 ^ w - 2 ^ (w - 1).
Definition int64 (z : Z) : Z := wrapS 64 z.
Definition int32 (z : Z) : Z := wrapS 32 z.
Definition in_int64 (z : Z) : Prop := (- 2 ^ 63 ≤ z < 2 ^ 63)%Z.

(** ** Results of Go code

    A call ends with a value, with a non-nil [error], or in a run-time panic
    ([log.L().Panic], a nil dereference, a close of a closed channel). *)

Inductive res (E A : Type) : Type :=
| Done (a : A)
| Fail (e : E)
| Panic.
Arguments Done {E A} a.
Arguments Fail {E A} e.
Arguments Panic {E A}.

Definition panicked {E A} (r : res E A) : bool := match r with Panic => true | _ => false end.

(** Stateful fallible code: explicit state passing. As in Go, an error return
    keeps the mutations made before it. *)
Definition GoM (E S A : Type) : Type := S → res E A * S.

#[global] Instance GoM_ret E S : MRet (GoM E S) := λ A a s, (Done a, s).
#[global] Instance GoM_bind E S : MBind (GoM E S) := λ A B f m s,
  match m s with
  | (Done a, s') => f a s'
  | (Fail e, s') => (Fail e, s')
  | (Panic, s') => (Panic, s')
  end.

Definition get {E S} : GoM E S S := λ s, (Done s, s).
Definition put {E S} (s : S) : GoM E S unit := λ _, (Done tt, s).
Definition modify {E S} (f : S → S) : GoM E S unit := λ s, (Done tt, f s).
Definition throw {E S A} (e : E) : GoM E S A := λ s, (Fail e, s).
Definition panic {E S A} : GoM E S A := λ s, (Panic, s).

(** A computed result, [log.L().Panic] when a value is absent, and an error that is only
    logged. *)
Definition lift_res {E S A} (r : res E A) : GoM E S A := λ s, (r, s).
Definition or_panic {E S A} (o : option A) : GoM E S A := match o with Some a => mret a | None => panic end.
Definition or_log {E S} (f : GoM E S unit) : GoM E S unit := λ s, match f s with (Fail _, s') => (Done tt, s') | out => out end.

(** [for _, x := range l { body }] where [body] may return early. *)
Fixpoint forM_ {E S A} (f : A → GoM E S unit) (l : list A) : GoM E S unit :=
  match l with
  | [] => mret tt
  | x :: l' => f x ≫= λ _, forM_ f l'
  end.

(** A partial-correctness and panic-aware triple: the postcondition sees the
    result, whatever it is. *)
Definition triple {E S A} (P : S → Prop) (m : GoM E S A) (Q : res E A → S → Prop) : Prop :=
  ∀ s, P s → Q (m s).1 (m s).2.

(** ** Iteration over Go maps

    The iteration order of a Go map is unspecified; code that ranges over a map
    takes the order as an argument, and theorems hold for every order that is
    an enumeration of the keys. *)
Definition iter_order {K V} `{Countable K} (m : gmap K V) (ks : list K) : Prop :=
  ks ≡ₚ (map_to_list m).*1.

(** ** A codec

    Instances of the encoders of data that are outside of the repository: a value is
    written as the binary digits of its number in an enumeration of its type. *)

Fixpoint digits (p : positive) : string :=
  match p with xH => "" | xO p => String Ascii.zero (digits p) | xI p => String Ascii.one (digits p) end.
Fixpoint undigits (s : string) : positive :=
  match s with EmptyString => xH | String c s => if decide (c = Ascii.zero) then xO (undigits s) else xI (undigits s) end.

Definition to_digits {A} `{Countable A} (x : A) : string := digits (encode x).
Definition of_digits {A} `{Countable A} (s : string) : option A := decode (undigits s).

Lemma of_to_digits {A} `{Countable A} (x : A) : of_digits (to_digits x) = Some x.
Proof.
  unfold of_digits, to_digits. assert (∀ p, undigits (digits p) = p) as ->; [|apply countable.decode_encode].
  intros p. induction p as [p IH|p IH|]; simpl; by rewrite ?IH.
Qed.

(** ** Lemmas on machine integers *)

Lemma wrapS_id w z : (0 < w)%Z → (- 2 ^ (w - 1) ≤ z < 2 ^ (w - 1))%Z → wrapS w z = z.
Proof.
  intros Hw Hz. unfold wrapS.
  assert (2 ^ w = 2 * 2 ^ (w - 1))%Z as E.
  { rewrite <- Z.pow_succ_r by lia. f_equal; lia. }
  rewrite Z.mod_small; lia.
Qed.

Lemma int64_id z : in_int64 z → int64 z = z.
Proof. intros H. apply wrapS_id; [lia|]. exact H. Qed.

Lemma int64_add a b : int64 (int64 a + b) = int64 (a + b).
Proof.
  unfold int64, wrapS. f_equal.
  replace ((a + 2 ^ (64 - 1)) mod 2 ^ 64 - 2 ^ (64 - 1) + b + 2 ^ (64 - 1))%Z with ((a + 2 ^ (64 - 1)) mod 2 ^ 64 + b)%Z by lia.
  rewrite Zplus_mod_idemp_l. f_equal. lia.
Qed.

Lemma int64_range z : in_int64 (int64 z).
Proof.
  unfold in_int64, int64, wrapS.
  assert (0 ≤ (z + 2 ^ (64 - 1)) mod 2 ^ 64 < 2 ^ 64)%Z by (apply Z.mod_pos_bound; lia).
  lia.
Qed.

(** *** Filters that keep all, or nothing *)

Lemma filter_Forall {A} (P : A → Prop) `{!∀ x, Decision (P x)} l : Forall P l → filter P l = l.
Proof. induction 1 as [|x l Hx _ IH]; [done|]. by rewrite filter_cons_True, IH. Qed.

Lemma filter_Forall_not {A} (P : A → Prop) `{!∀ x, Decision (P x)} l : Forall (λ x, ¬ P x) l → filter P l = [].
Proof. induction 1 as [|x l Hx _ IH]; [done|]. by rewrite filter_cons_False. Qed.

(** ** Lemmas on the monad *)

Section monad.
Context {E S : Type}.

Lemma bind_Done {A B} (m : GoM E S A) (f : A → GoM E S B) s a s' :
  m s = (Done a, s') → (m ≫= f) s = f a s'.
Proof. intros H. unfold mbind, GoM_bind. by rewrite H. Qed.

Lemma bind_inv_Done {A B} (m : GoM E S A) (f : A → GoM E S B) s b s' :
  (m ≫= f) s = (Done b, s') → ∃ a s1, m s = (Done a, s1) ∧ f a s1 = (Done b, s').
Proof. unfold mbind, GoM_bind. destruct (m s) as [[a|e|] s1]; naive_solver. Qed.

Lemma triple_bind {A B} P (m : GoM E S A) (f : A → GoM E S B) (R : A → S → Prop) (Q : res E B → S → Prop) :
  triple P m (λ r s, match r with Done a => R a s | Fail e => Q (Fail e) s | Panic => Q Panic s end) →
  (∀ a, triple (R a) (f a) Q) →
  triple P (m ≫= f) Q.
Proof.
  intros Hm Hf s Hs. specialize (Hm s Hs). unfold mbind, GoM_bind.
  destruct (m s) as [[a|e|] s1]; simpl in *; [by apply Hf| done | done].
Qed.

(** The loop rule: an invariant kept by every iteration that completes, and a
    postcondition for the iterations that leave the loop. *)
Lemma triple_forM {A} (I : S → Prop) (Q : res E unit → S → Prop) (f : A → GoM E S unit) l :
  (∀ x, x ∈ l → triple I (f x) (λ r s, match r with Done _ => I s | Fail e => Q (Fail e) s | Panic => Q Panic s end)) →
  (∀ s, I s → Q (Done tt) s) →
  triple I (forM_ f l) Q.
Proof.
  intros Hf Hend. induction l as [|x l IH]; simpl.
  - intros s Hs. by apply Hend.
  - eapply (triple_bind _ _ _ (λ _, I)); [apply Hf; set_solver|].
    intros []. apply IH. intros y Hy. apply Hf. set_solver.
Qed.

Lemma forM_app {A} (f : A → GoM E S unit) l1 l2 s :
  forM_ f (l1 ++ l2) s = (forM_ f l1 ≫= λ _, forM_ f l2) s.
Proof.
  revert s. induction l1 as [|x l1 IH]; intros s; [done|].
  simpl. unfold mbind, GoM_bind. destruct (f x s) as [[[]|e|] s1]; [|done|done].
  rewrite IH. done.
Qed.

End monad.

(** ** Lemmas on map iteration *)

Section iteration.
Context {K V : Type} `{Countable K}.
Implicit Types m : gmap K V.

Lemma iter_order_NoDup m ks : iter_order m ks → NoDup ks.
Proof. intros Hks. unfold iter_order in Hks. rewrite Hks. apply NoDup_fst_map_to_list. Qed.

Lemma iter_order_elem m ks k : iter_order m ks → k ∈ ks ↔ is_Some (m !! k).
Proof.
  intros Hks. unfold iter_order in Hks. rewrite Hks, list_elem_of_fmap. split.
  - intros [[k' v] [-> Hin]]. apply elem_of_map_to_list in Hin. by exists v.
  - intros [v Hv]. exists (k, v). split; [done|]. by apply elem_of_map_to_list.
Qed.

Lemma iter_order_keys m : iter_order m (map_to_list m).*1.
Proof. unfold iter_order. done. Qed.

Lemma iter_order_eq m ks : ks = (map_to_list m).*1 → iter_order m ks.
Proof. intros ->. apply iter_order_keys. Qed.

End iteration.

(** A loop over distinct keys whose body, when it completes, changes the entry of its
    key only: entry by entry. *)
Lemma forM_pointwise {E S K V} `{Countable K} (entries : S → gmap K V) (I : S → Prop) (R : K → option V → option V → Prop)
    (f : K → GoM E S unit) ks s s' :
  NoDup ks → I s →
  (∀ k s s1, k ∈ ks → I s → f k s = (Done tt, s1) →
     I s1 ∧ (∀ k', k' ≠ k → entries s1 !! k' = entries s !! k') ∧ R k (entries s !! k) (entries s1 !! k)) →
  forM_ f ks s = (Done tt, s') →
  I s' ∧ (∀ k, k ∈ ks → R k (entries s !! k) (entries s' !! k)) ∧ (∀ k, k ∉ ks → entries s' !! k = entries s !! k).
Proof.
  revert s. induction ks as [|k ks IH]; intros s Hnd HI Hf Hrun; [injection Hrun as <-; set_solver|].
  apply NoDup_cons in Hnd as [Hk Hnd]. simpl in Hrun. apply bind_inv_Done in Hrun as ([] & s1 & H1 & Hrun).
  destruct (Hf k s s1) as (HI1 & Hfr & HR); [left|done..|].
  destruct (IH s1 Hnd HI1) as (HI2 & Hin & Hout); [intros k' s2 s3 Hk'; apply Hf; by right|done|].
  split_and!; [done| |].
  - intros k' [->|Hk']%elem_of_cons; [by rewrite Hout|]. rewrite <- (Hfr k'); [by apply Hin|]. by intros ->.
  - intros k' [? ?]%not_elem_of_cons. by rewrite Hout, Hfr.
Qed.

#[export] Hint Resolve iter_order_keys iter_order_NoDup : go_db.
