(* ===== verification/Errors.v ===== *)
(** * Errors of the engine ([pkg/errors])

    The normalised errors of [errors.go] with their RFC codes, the translation
    to protobuf error codes of [helper.go], and the error value the rest of the
    development returns. A Go [error] made from a normalised error is its code
    with its first argument; errors of other packages are [ErrForeign]. *)

From S2P Require Import Prelude.

Inductive errcode : Type :=
| ErrUnknownExecutorID
| ErrTombstoneExecutor
| ErrSubJobFailed
| ErrClusterResourceNotEnough
| ErrBuildJobFailed
| ErrExecutorDupRegister
| ErrGrpcBuildConn
| ErrDecodeEtcdKeyFail
| ErrDecodeEtcdValueFail
| ErrInvalidMetaStoreKey
| ErrInvalidMetaStoreKeyTp
| ErrEtcdAPIError
| ErrNoRPCClient
| ErrMasterConfigParseFlagSet
| ErrMasterConfigInvalidFlag
| ErrMasterDecodeConfigFile
| ErrMasterConfigUnknownItem
| ErrMasterGenEmbedEtcdConfigFail
| ErrMasterJoinEmbedEtcdFail
| ErrMasterStartEmbedEtcdFail
| ErrMasterParseURLFail
| ErrMasterScheduleMissTask
| ErrMasterNewServer
| ErrMasterCampaignLeader
| ErrMasterSessionDone
| ErrMasterRPCNotForward
| ErrLeaderCtxCanceled
| ErrMessageClientNotFoundForWorker
| ErrMasterNotFound
| ErrDuplicateWorkerID
| ErrMasterClosed
| ErrMasterConcurrencyExceeded
| ErrMasterInvalidMeta
| ErrInvalidServerMasterID
| ErrInvalidMasterMessage
| ErrSendingMessageToTombstone
| ErrMasterNotInitialized
| ErrWorkerTypeNotFound
| ErrWorkerNotFound
| ErrWorkerOffline
| ErrWorkerTimedOut
| ErrWorkerSuicide
| ErrWorkerNoMeta
| ErrWorkerUpdateStatusTryAgain
| ErrInvalidJobType
| ErrWorkerFinish
| ErrWorkerStop
| ErrTooManyStatusUpdates
| ErrWorkerHalfExit
| ErrMasterEtcdCreateSessionFail
| ErrMasterEtcdElectionCampaignFail
| ErrMasterNoLeader
| ErrEtcdLeaderChanged
| ErrDiscoveryDuplicateWatch
| ErrMasterEtcdEpochFail
| ErrExecutorConfigParseFlagSet
| ErrExecutorConfigInvalidFlag
| ErrExecutorDecodeConfigFile
| ErrExecutorConfigUnknownItem
| ErrHeartbeat
| ErrTaskNotFound
| ErrExecutorUnknownOperator
| ErrExecutorSessionDone
| ErrRuntimeIncomingQueueFull
| ErrRuntimeReachedCapacity
| ErrRuntimeIsClosed
| ErrRuntimeInitQueuingTimeOut
| ErrRuntimeDuplicateTaskID
| ErrRuntimeClosed
| ErrExecutorEtcdConnFail
| ErrExecutorNotFoundForMessage
| ErrMasterTooManyPendingEvents
| ErrExecutorPreDispatchFailed
| ErrExecutorConfirmDispatchFailed
| ErrPlannerDAGDepthExceeded
| ErrMetaNewClientFail
| ErrMetaOpFail
| ErrMetaOptionInvalid
| ErrMetaOptionConflict
| ErrMetaEmptyKey
| ErrMetaRevisionUnmatch
| ErrMetaNestedTxn
| ErrMetaCommittedTxn
| ErrMetaStoreIDDuplicate
| ErrMetaStoreUnfounded
| ErrMetaEntryNotFound
| ErrMetaParamsInvalid
| ErrMetaEntryAlreadyExists
| ErrDatasetEntryNotFound
| ErrUnexpectedResourcePath
| ErrDuplicateResourceID
| ErrIllegalResourcePath
| ErrResourceDoesNotExist
| ErrResourceManagerNotReady
| ErrReadLocalFileDirectoryFailed
| ErrCreateLocalFileDirectoryFailed
| ErrCleaningLocalTempFiles
| ErrRemovingLocalResource
| ErrFailToCreateExternalStorage.

#[global] Instance errcode_eq_dec : EqDecision errcode.
Proof. solve_decision. Defined.

(** The RFC code text each normalised error is registered with. *)
Definition rfcCode (c : errcode) : string :=
  match c with
  | ErrUnknownExecutorID => "DFLOW:ErrUnknownExecutorID"
  | ErrTombstoneExecutor => "DFLOW:ErrTombstoneExecutor"
  | ErrSubJobFailed => "DFLOW:ErrSubJobFailed"
  | ErrClusterResourceNotEnough => "DFLOW:ErrClusterResourceNotEnough"
  | ErrBuildJobFailed => "DFLOW:ErrBuildJobFailed"
  | ErrExecutorDupRegister => "DFLOW:ErrExecutorDupRegister"
  | ErrGrpcBuildConn => "DFLOW:ErrGrpcBuildConn"
  | ErrDecodeEtcdKeyFail => "DFLOW:ErrDecodeEtcdKeyFail"
  | ErrDecodeEtcdValueFail => "DFLOW:ErrDecodeEtcdValueFail"
  | ErrInvalidMetaStoreKey => "DFLOW:ErrInvalidMetaStoreKey"
  | ErrInvalidMetaStoreKeyTp => "DFLOW:ErrInvalidMetaStoreKeyTp"
  | ErrEtcdAPIError => "DFLOW:ErrEtcdAPIError"
  | ErrNoRPCClient => "DFLOW:ErrNoRPCClient"
  | ErrMasterConfigParseFlagSet => "DFLOW:ErrMasterConfigParseFlagSet"
  | ErrMasterConfigInvalidFlag => "DFLOW:ErrMasterConfigInvalidFlag"
  | ErrMasterDecodeConfigFile => "DFLOW:ErrMasterDecodeConfigFile"
  | ErrMasterConfigUnknownItem => "DFLOW:ErrMasterConfigUnknownItem"
  | ErrMasterGenEmbedEtcdConfigFail => "DFLOW:ErrMasterGenEmbedEtcdConfigFail"
  | ErrMasterJoinEmbedEtcdFail => "DFLOW:ErrMasterJoinEmbedEtcdFail"
  | ErrMasterStartEmbedEtcdFail => "DFLOW:ErrMasterStartEmbedEtcdFail"
  | ErrMasterParseURLFail => "DFLOW:ErrMasterParseURLFail"
  | ErrMasterScheduleMissTask => "DFLOW:ErrMasterScheduleMissTask"
  | ErrMasterNewServer => "DFLOW:ErrMasterNewServer"
  | ErrMasterCampaignLeader => "DFLOW:ErrMasterCampaignLeader"
  | ErrMasterSessionDone => "DFLOW:ErrMasterSessionDone"
  | ErrMasterRPCNotForward => "DFLOW:ErrMasterRPCNotForward"
  | ErrLeaderCtxCanceled => "DFLOW:ErrLeaderCtxCanceled"
  | ErrMessageClientNotFoundForWorker => "DFLOW:ErrMessageClientNotFoundForWorker"
  | ErrMasterNotFound => "DFLOW:ErrMasterNotFound"
  | ErrDuplicateWorkerID => "DFLOW:ErrDuplicateWorkerID"
  | ErrMasterClosed => "DFLOW:ErrMasterClosed"
  | ErrMasterConcurrencyExceeded => "DFLOW:ErrMasterConcurrencyExceeded"
  | ErrMasterInvalidMeta => "DFLOW:ErrMasterInvalidMeta"
  | ErrInvalidServerMasterID => "DFLOW:ErrInvalidServerMasterID"
  | ErrInvalidMasterMessage => "DFLOW:ErrInvalidMasterMessage"
  | ErrSendingMessageToTombstone => "DFLOW:ErrSendingMessageToTombstone"
  | ErrMasterNotInitialized => "DFLOW:ErrMasterNotInitialized"
  | ErrWorkerTypeNotFound => "DFLOW:ErrWorkerTypeNotFound"
  | ErrWorkerNotFound => "DFLOW:ErrWorkerNotFound"
  | ErrWorkerOffline => "DFLOW:ErrWorkerOffline"
  | ErrWorkerTimedOut => "DFLOW:ErrWorkerTimedOut"
  | ErrWorkerSuicide => "DFLOW:ErrWorkerSuicide"
  | ErrWorkerNoMeta => "DFLOW:ErrWorkerNoMeta"
  | ErrWorkerUpdateStatusTryAgain => "DFLOW:ErrWorkerUpdateStatusTryAgain"
  | ErrInvalidJobType => "DFLOW:ErrInvalidJobType"
  | ErrWorkerFinish => "DFLOW:ErrWorkerFinish"
  | ErrWorkerStop => "DFLOW:ErrWorkerStop"
  | ErrTooManyStatusUpdates => "DFLOW:ErrTooManyStatusUpdates"
  | ErrWorkerHalfExit => "DFLOW:ErrWorkerHalfExit"
  | ErrMasterEtcdCreateSessionFail => "DFLOW:ErrMasterEtcdCreateSessionFail"
  | ErrMasterEtcdElectionCampaignFail => "DFLOW:ErrMasterEtcdElectionCampaignFail"
  | ErrMasterNoLeader => "DFLOW:ErrMasterNoLeader"
  | ErrEtcdLeaderChanged => "DFLOW:ErrEtcdLeaderChanged"
  | ErrDiscoveryDuplicateWatch => "DFLOW:ErrDiscoveryDuplicateWatch"
  | ErrMasterEtcdEpochFail => "DFLOW:ErrMasterEtcdEpochFail"
  | ErrExecutorConfigParseFlagSet => "DFLOW:ErrExecutorConfigParseFlagSet"
  | ErrExecutorConfigInvalidFlag => "DFLOW:ErrExecutorConfigInvalidFlag"
  | ErrExecutorDecodeConfigFile => "DFLOW:ErrExecutorDecodeConfigFile"
  | ErrExecutorConfigUnknownItem => "DFLOW:ErrExecutorConfigUnknownItem"
  | ErrHeartbeat => "DFLOW:ErrHeartbeat"
  | ErrTaskNotFound => "DFLOW:ErrTaskNotFound"
  | ErrExecutorUnknownOperator => "DFLOW:ErrOperatorUnknown"
  | ErrExecutorSessionDone => "DFLOW:ErrExecutorSessionDone"
  | ErrRuntimeIncomingQueueFull => "DFLOW:ErrRuntimeIncomingQueueFull"
  | ErrRuntimeReachedCapacity => "DFLOW:ErrRuntimeReachedCapacity"
  | ErrRuntimeIsClosed => "DFLOW:ErrRuntimeIsClosed"
  | ErrRuntimeInitQueuingTimeOut => "DFLOW:ErrRuntimeInitQueuingTimeOut"
  | ErrRuntimeDuplicateTaskID => "DFLOW:ErrRuntimeDuplicateTaskID %s"
  | ErrRuntimeClosed => "DFLOW:ErrRuntimeClosed"
  | ErrExecutorEtcdConnFail => "DFLOW:ErrExecutorEtcdConnFail"
  | ErrExecutorNotFoundForMessage => "DFLOW:ErrExecutorNotFoundForMessage"
  | ErrMasterTooManyPendingEvents => "DFLOW:ErrMasterTooManyPendingEvents"
  | ErrExecutorPreDispatchFailed => "DFLOW:ErrExecutorPreDispatchFailed"
  | ErrExecutorConfirmDispatchFailed => "DFLOW:ErrExecutorConfirmDispatchFailed"
  | ErrPlannerDAGDepthExceeded => "DFLOW:ErrPlannerDAGDepthExceeded"
  | ErrMetaNewClientFail => "DFLOW:ErrMetaNewClientFail"
  | ErrMetaOpFail => "DFLOW:ErrMetaOpFail"
  | ErrMetaOptionInvalid => "DFLOW:ErrMetaOptionInvalid"
  | ErrMetaOptionConflict => "DFLOW:ErrMetaOptionConflict"
  | ErrMetaEmptyKey => "DFLOW:ErrMetaEmptyKey"
  | ErrMetaRevisionUnmatch => "DFLOW:ErrMetaRevisionUnmatch"
  | ErrMetaNestedTxn => "DFLOW:ErrMetaNestedTxn"
  | ErrMetaCommittedTxn => "DFLOW:ErrMetaCommittedTxn"
  | ErrMetaStoreIDDuplicate => "DFLOW:ErrMetaStoreIDDuplicate"
  | ErrMetaStoreUnfounded => "DFLOW:ErrMetaStoreUnfounded"
  | ErrMetaEntryNotFound => "DFLOW:ErrMetaEntryNotFound"
  | ErrMetaParamsInvalid => "DFLOW:ErrMetaParamsInvalid"
  | ErrMetaEntryAlreadyExists => "DFLOW:ErrMetaEntryAlreadyExists"
  | ErrDatasetEntryNotFound => "DFLOW:ErrDatasetEntryNotFound"
  | ErrUnexpectedResourcePath => "DFLOW:ErrUnexpectedResourcePath"
  | ErrDuplicateResourceID => "DFLOW:ErrDuplicateResourceID"
  | ErrIllegalResourcePath => "DFLOW:ErrIllegalResourcePath"
  | ErrResourceDoesNotExist => "DFLOW:ErrResourceDoesNotExist"
  | ErrResourceManagerNotReady => "DLFOW:ErrResourceManagerNotReady"
  | ErrReadLocalFileDirectoryFailed => "DFLOW:ErrReadLocalFileDirectoryFailed"
  | ErrCreateLocalFileDirectoryFailed => "DFLOW:ErrCreateLocalFileDirectoryFailed"
  | ErrCleaningLocalTempFiles => "DFLOW:ErrCleaningLocalTempFiles"
  | ErrRemovingLocalResource => "DFLOW:ErrRemovingLocalResource"
  | ErrFailToCreateExternalStorage => "DFLOW:ErrFailToCreateExternalStorage"
  end.

Definition all_errcodes : list errcode :=
  [ ErrUnknownExecutorID;
    ErrTombstoneExecutor;
    ErrSubJobFailed;
    ErrClusterResourceNotEnough;
    ErrBuildJobFailed;
    ErrExecutorDupRegister;
    ErrGrpcBuildConn;
    ErrDecodeEtcdKeyFail;
    ErrDecodeEtcdValueFail;
    ErrInvalidMetaStoreKey;
    ErrInvalidMetaStoreKeyTp;
    ErrEtcdAPIError;
    ErrNoRPCClient;
    ErrMasterConfigParseFlagSet;
    ErrMasterConfigInvalidFlag;
    ErrMasterDecodeConfigFile;
    ErrMasterConfigUnknownItem;
    ErrMasterGenEmbedEtcdConfigFail;
    ErrMasterJoinEmbedEtcdFail;
    ErrMasterStartEmbedEtcdFail;
    ErrMasterParseURLFail;
    ErrMasterScheduleMissTask;
    ErrMasterNewServer;
    ErrMasterCampaignLeader;
    ErrMasterSessionDone;
    ErrMasterRPCNotForward;
    ErrLeaderCtxCanceled;
    ErrMessageClientNotFoundForWorker;
    ErrMasterNotFound;
    ErrDuplicateWorkerID;
    ErrMasterClosed;
    ErrMasterConcurrencyExceeded;
    ErrMasterInvalidMeta;
    ErrInvalidServerMasterID;
    ErrInvalidMasterMessage;
    ErrSendingMessageToTombstone;
    ErrMasterNotInitialized;
    ErrWorkerTypeNotFound;
    ErrWorkerNotFound;
    ErrWorkerOffline;
    ErrWorkerTimedOut;
    ErrWorkerSuicide;
    ErrWorkerNoMeta;
    ErrWorkerUpdateStatusTryAgain;
    ErrInvalidJobType;
    ErrWorkerFinish;
    ErrWorkerStop;
    ErrTooManyStatusUpdates;
    ErrWorkerHalfExit;
    ErrMasterEtcdCreateSessionFail;
    ErrMasterEtcdElectionCampaignFail;
    ErrMasterNoLeader;
    ErrEtcdLeaderChanged;
    ErrDiscoveryDuplicateWatch;
    ErrMasterEtcdEpochFail;
    ErrExecutorConfigParseFlagSet;
    ErrExecutorConfigInvalidFlag;
    ErrExecutorDecodeConfigFile;
    ErrExecutorConfigUnknownItem;
    ErrHeartbeat;
    ErrTaskNotFound;
    ErrExecutorUnknownOperator;
    ErrExecutorSessionDone;
    ErrRuntimeIncomingQueueFull;
    ErrRuntimeReachedCapacity;
    ErrRuntimeIsClosed;
    ErrRuntimeInitQueuingTimeOut;
    ErrRuntimeDuplicateTaskID;
    ErrRuntimeClosed;
    ErrExecutorEtcdConnFail;
    ErrExecutorNotFoundForMessage;
    ErrMasterTooManyPendingEvents;
    ErrExecutorPreDispatchFailed;
    ErrExecutorConfirmDispatchFailed;
    ErrPlannerDAGDepthExceeded;
    ErrMetaNewClientFail;
    ErrMetaOpFail;
    ErrMetaOptionInvalid;
    ErrMetaOptionConflict;
    ErrMetaEmptyKey;
    ErrMetaRevisionUnmatch;
    ErrMetaNestedTxn;
    ErrMetaCommittedTxn;
    ErrMetaStoreIDDuplicate;
    ErrMetaStoreUnfounded;
    ErrMetaEntryNotFound;
    ErrMetaParamsInvalid;
    ErrMetaEntryAlreadyExists;
    ErrDatasetEntryNotFound;
    ErrUnexpectedResourcePath;
    ErrDuplicateResourceID;
    ErrIllegalResourcePath;
    ErrResourceDoesNotExist;
    ErrResourceManagerNotReady;
    ErrReadLocalFileDirectoryFailed;
    ErrCreateLocalFileDirectoryFailed;
    ErrCleaningLocalTempFiles;
    ErrRemovingLocalResource;
    ErrFailToCreateExternalStorage ].

(** A non-nil Go [error]: made from a normalised error, made from one by
    wrapping a cause, or of another package. *)
Inductive goerr : Type :=
| GoErr (code : errcode) (arg : string)
| GoWrap (code : errcode) (cause : goerr)
| ErrForeign (msg : string).

#[global] Instance goerr_eq_dec : EqDecision goerr.
Proof. solve_decision. Defined.

(** [errors.Cause]: the root of a chain of wrapped errors. *)
Fixpoint err_Cause (e : goerr) : goerr :=
  match e with GoWrap _ cause => err_Cause cause | _ => e end.

(** [ErrX.Equal(err)]: pingcap/errors compares the id of [ErrX], its RFC code,
    with that of the root cause of [err]; a nil error and an error of another
    package are never equal. That the root counts, and not the wrapper, is what
    [pkg/externalresource/manager/service_test.go] checks with a wrapped
    [ErrDuplicateResourceID]. *)
Definition err_Equal (c : errcode) (err : option goerr) : bool :=
  match err with
  | Some e => match err_Cause e with GoErr c' _ => bool_decide (rfcCode c = rfcCode c') | _ => false end
  | None => false
  end.

(** [err.Error()]: the code in brackets, then the message. *)
Fixpoint goerr_msg (e : goerr) : string :=
  match e with
  | GoErr c a => "[" +:+ rfcCode c +:+ "]" +:+ a
  | GoWrap c cause => "[" +:+ rfcCode c +:+ "]: " +:+ goerr_msg cause
  | ErrForeign m => m
  end.

Abbreviation Go S A := (GoM goerr S A).

(** ** Protobuf error codes *)

Inductive ErrorCode : Type :=
| ErrorCode_None
| ErrorCode_MasterNotLeader
| ErrorCode_UnknownExecutor
| ErrorCode_NotEnoughResource
| ErrorCode_SubJobSubmitFailed
| ErrorCode_TombstoneExecutor
| ErrorCode_SubJobBuildFailed
| ErrorCode_BuildGrpcConnFailed
| ErrorCode_InvalidMetaStoreType
| ErrorCode_MasterNotReady
| ErrorCode_UnKnownJob
| ErrorCode_MetaStoreNotExists
| ErrorCode_MetaStoreSerializeFail
| ErrorCode_UnexpectedJobStatus
| ErrorCode_UnknownError.

#[global] Instance ErrorCode_eq_dec : EqDecision ErrorCode.
Proof. solve_decision. Defined.

(** [ToPBError]: the switch on the RFC code of the error. The message text is
    not modelled. *)
Definition ToPBError (err : option goerr) : option ErrorCode :=
  match err with
  | None => None
  | Some (ErrForeign _) => Some ErrorCode_UnknownError
  | Some (GoErr c _) | Some (GoWrap c _) =>
      let rfc := rfcCode c in
      Some (if bool_decide (rfc = rfcCode ErrUnknownExecutorID) then ErrorCode_UnknownExecutor
            else if bool_decide (rfc = rfcCode ErrTombstoneExecutor) then ErrorCode_TombstoneExecutor
            else if bool_decide (rfc = rfcCode ErrSubJobFailed) then ErrorCode_SubJobSubmitFailed
            else if bool_decide (rfc = rfcCode ErrClusterResourceNotEnough) then ErrorCode_NotEnoughResource
            else if bool_decide (rfc = rfcCode ErrBuildJobFailed) then ErrorCode_SubJobBuildFailed
            else if bool_decide (rfc = rfcCode ErrGrpcBuildConn) then ErrorCode_BuildGrpcConnFailed
            else ErrorCode_UnknownError)
  end.

(** ** Lemmas *)

Lemma all_errcodes_complete c : c ∈ all_errcodes.
Proof. destruct c; vm_compute; repeat (first [left | right]). Qed.

Lemma rfcCodes_NoDup : NoDup (rfcCode <$> all_errcodes).
Proof. apply (bool_decide_unpack _). vm_compute. exact I. Qed.

Lemma fmap_NoDup_inj {A B} (f : A → B) l x y :
  NoDup (f <$> l) → x ∈ l → y ∈ l → f x = f y → x = y.
Proof.
  induction l as [|z l IH]; [set_solver|]. rewrite fmap_cons, NoDup_cons.
  intros [Hz Hl] Hx Hy Hf.
  apply elem_of_cons in Hx as [->|Hx], Hy as [->|Hy]; [done| | |by apply IH].
  - exfalso. apply Hz. rewrite Hf. by apply list_elem_of_fmap_2.
  - exfalso. apply Hz. rewrite <- Hf. by apply list_elem_of_fmap_2.
Qed.

Lemma rfcCode_inj c c' : rfcCode c = rfcCode c' → c = c'.
Proof.
  apply fmap_NoDup_inj with all_errcodes; eauto using rfcCodes_NoDup, all_errcodes_complete.
Qed.

Lemma err_Equal_GoErr c c' a : err_Equal c (Some (GoErr c' a)) = bool_decide (c = c').
Proof.
  simpl. apply bool_decide_ext. split; [apply rfcCode_inj|congruence].
Qed.
