(* ===== verification/Model.v ===== *)
(** * Data model shared by the components ([model], [lib/model], [lib/config])

    Identifiers are strings. A status code is an integer in Go and its zero
    value does occur (a worker status is created with code 0 before the worker
    is initialised), so codes are [Z] with the source's constants. Time is [Z]
    in nanoseconds; [time.Time{}] is the first instant of year 1. *)

From S2P Require Import Prelude Errors.

Abbreviation MasterID := string.
Abbreviation WorkerID := string.
Abbreviation ExecutorID := string.
Abbreviation NodeID := string.
Abbreviation ResourceID := string.
Abbreviation Epoch := Z.
Abbreviation Time := Z.
Abbreviation Duration := Z.
Abbreviation RescUnit := Z.
Abbreviation WorkerType := Z.

Definition Second : Duration := 1000000000%Z.
Definition Millisecond : Duration := 1000000%Z.
Definition zeroTime : Time := (- 62135596800 * Second)%Z.

(** [t.Before(u)], [t.After(u)], [t.Add(d)] on instants. *)
Definition Before (t u : Time) : bool := bool_decide (t < u)%Z.
Definition After (t u : Time) : bool := bool_decide (u < t)%Z.

(** ** [lib/common.go]: worker types *)

Definition JobManagerTp : WorkerType := 1%Z.
Definition CvsJobMaster : WorkerType := 2%Z.
Definition FakeJobMaster : WorkerType := 3%Z.
Definition DMJobMaster : WorkerType := 4%Z.
Definition CdcJobMaster : WorkerType := 5%Z.
Definition CvsTask : WorkerType := 6%Z.
Definition FakeTask : WorkerType := 7%Z.
Definition DmTask : WorkerType := 8%Z.
Definition CdcTask : WorkerType := 9%Z.
Definition WorkerDMDump : WorkerType := 10%Z.
Definition WorkerDMLoad : WorkerType := 11%Z.
Definition WorkerDMSync : WorkerType := 12%Z.

(** ** [lib/model/status.go]: worker status *)

Definition WorkerStatusNormal : Z := 1%Z.
Definition WorkerStatusCreated : Z := 2%Z.
Definition WorkerStatusInit : Z := 3%Z.
Definition WorkerStatusError : Z := 4%Z.
Definition WorkerStatusFinished : Z := 5%Z.
Definition WorkerStatusStopped : Z := 6%Z.

Record WorkerStatus := mkWorkerStatus {
  ws_ProjectID : string;
  ws_JobID : string;
  ws_ID : WorkerID;
  ws_Type : Z;
  ws_Code : Z;
  ws_ErrorMessage : string;
  ws_ExtBytes : string;
}.

#[global] Instance WorkerStatus_eq_dec : EqDecision WorkerStatus.
Proof. solve_decision. Defined.

Definition HasSignificantChange (s other : WorkerStatus) : bool :=
  negb (bool_decide (ws_Code s = ws_Code other)) ||
  negb (bool_decide (ws_ErrorMessage s = ws_ErrorMessage other)).

Definition InTerminateState (s : WorkerStatus) : bool :=
  bool_decide (ws_Code s = WorkerStatusFinished) ||
  bool_decide (ws_Code s = WorkerStatusStopped) ||
  bool_decide (ws_Code s = WorkerStatusError).

(** ** [lib/model/master.go]: job master metadata *)

Definition MasterStatusUninit : Z := 1%Z.
Definition MasterStatusInit : Z := 2%Z.
Definition MasterStatusFinished : Z := 3%Z.
Definition MasterStatusStopped : Z := 4%Z.

Record MasterMeta := mkMasterMeta {
  mm_ProjectID : string;
  mm_ID : MasterID;
  mm_Tp : WorkerType;
  mm_StatusCode : Z;
  mm_NodeID : NodeID;
  mm_Addr : string;
  mm_Epoch : Epoch;
  mm_Config : string;
}.

#[global] Instance MasterMeta_eq_dec : EqDecision MasterMeta.
Proof. solve_decision. Defined.

Definition mm_set_ID (m : MasterMeta) (id : MasterID) : MasterMeta :=
  {| mm_ProjectID := mm_ProjectID m; mm_ID := id; mm_Tp := mm_Tp m;
     mm_StatusCode := mm_StatusCode m; mm_NodeID := mm_NodeID m; mm_Addr := mm_Addr m;
     mm_Epoch := mm_Epoch m; mm_Config := mm_Config m |}.

Definition mm_set_StatusCode (m : MasterMeta) (code : Z) : MasterMeta :=
  {| mm_ProjectID := mm_ProjectID m; mm_ID := mm_ID m; mm_Tp := mm_Tp m;
     mm_StatusCode := code; mm_NodeID := mm_NodeID m; mm_Addr := mm_Addr m;
     mm_Epoch := mm_Epoch m; mm_Config := mm_Config m |}.

(** [refreshMetadata] writes the epoch, the address and the node together. *)
Definition mm_set_owner (m : MasterMeta) (epoch : Epoch) (addr : string) (node : NodeID) : MasterMeta :=
  {| mm_ProjectID := mm_ProjectID m; mm_ID := mm_ID m; mm_Tp := mm_Tp m;
     mm_StatusCode := mm_StatusCode m; mm_NodeID := node; mm_Addr := addr;
     mm_Epoch := epoch; mm_Config := mm_Config m |}.

(** ** [lib/model/messages.go] *)

Record HeartbeatPingMessage := mkPing {
  ping_SendTime : Z;
  ping_FromWorkerID : WorkerID;
  ping_Epoch : Epoch;
  ping_IsFinished : bool;
}.

Record HeartbeatPongMessage := mkPong {
  pong_SendTime : Z;
  pong_ReplyTime : Time;
  pong_ToWorkerID : WorkerID;
  pong_Epoch : Epoch;
  pong_IsFinished : bool;
}.

Record StatusChangeRequest := mkStatusChangeRequest {
  scr_SendTime : Z;
  scr_FromMasterID : MasterID;
  scr_Epoch : Epoch;
  scr_ExpectState : Z;
}.

(** [lib/statusutil/message.go] *)
Record WorkerStatusMessage := mkWorkerStatusMessage {
  wsm_Worker : WorkerID;
  wsm_MasterEpoch : Epoch;
  wsm_Status : option WorkerStatus;
}.

Definition HeartbeatPingTopic (masterID : MasterID) : string :=
  "heartbeat-ping-" +:+ masterID.
Definition HeartbeatPongTopic (masterID : MasterID) (workerID : WorkerID) : string :=
  "heartbeat-pong-" +:+ masterID +:+ "-" +:+ workerID.
Definition WorkerStatusChangeRequestTopic (masterID : MasterID) (workerID : WorkerID) : string :=
  "worker-status-change-req-" +:+ masterID +:+ "-" +:+ workerID.
Definition WorkerStatusTopic (masterID : MasterID) : string :=
  "worker-status-" +:+ masterID.

(** ** [lib/config/timeouts.go] *)

Record TimeoutConfig := mkTimeoutConfig {
  WorkerTimeoutDuration : Duration;
  WorkerTimeoutGracefulDuration : Duration;
  WorkerHeartbeatInterval : Duration;
  WorkerReportStatusInterval : Duration;
  MasterHeartbeatCheckLoopInterval : Duration;
}.

Definition Adjust (config : TimeoutConfig) : TimeoutConfig :=
  let min := int64 (2 * WorkerHeartbeatInterval config + Second * 3) in
  if bool_decide (WorkerTimeoutDuration config < min)%Z then
    {| WorkerTimeoutDuration := min;
       WorkerTimeoutGracefulDuration := WorkerTimeoutGracefulDuration config;
       WorkerHeartbeatInterval := WorkerHeartbeatInterval config;
       WorkerReportStatusInterval := WorkerReportStatusInterval config;
       MasterHeartbeatCheckLoopInterval := MasterHeartbeatCheckLoopInterval config |}
  else config.

Definition DefaultTimeoutConfig : TimeoutConfig :=
  Adjust {| WorkerTimeoutDuration := Second * 15;
            WorkerTimeoutGracefulDuration := Second * 5;
            WorkerHeartbeatInterval := Second * 3;
            WorkerReportStatusInterval := Second * 3;
            MasterHeartbeatCheckLoopInterval := Second * 1 |}%Z.

(** ** [model/cluster.go] *)

Record NodeInfo := mkNodeInfo {
  ni_Type : Z;
  ni_ID : ExecutorID;
  ni_Addr : string;
  ni_Capability : Z;
}.

Definition NodeTypeServerMaster : Z := 1%Z.
Definition NodeTypeExecutor : Z := 2%Z.

(** [ExecutorStatus] is an [int32] that heartbeats carry verbatim. *)
Definition Initing : Z := 0%Z.
Definition Running : Z := 1%Z.
Definition Disconnected : Z := 2%Z.
Definition Tombstone : Z := 3%Z.

Definition ExecutorStatus_String (s : Z) : string :=
  if bool_decide (s = Initing) then "initializing"
  else if bool_decide (s = Running) then "running"
  else if bool_decide (s = Disconnected) then "disconnected"
  else if bool_decide (s = Tombstone) then "tombstone"
  else "unknown".

(** ** Lemmas *)

Lemma HasSignificantChange_irrefl s : HasSignificantChange s s = false.
Proof. unfold HasSignificantChange. by rewrite !bool_decide_eq_true_2. Qed.

Lemma Adjust_idemp c : Adjust (Adjust c) = Adjust c.
Proof.
  unfold Adjust at 2 3. case_bool_decide as H1; [|unfold Adjust; by rewrite bool_decide_eq_false_2].
  unfold Adjust; simpl. rewrite bool_decide_eq_false_2; [done|lia].
Qed.

Lemma Adjust_min c :
  in_int64 (2 * WorkerHeartbeatInterval c + Second * 3) →
  (2 * WorkerHeartbeatInterval (Adjust c) + 3 * Second ≤ WorkerTimeoutDuration (Adjust c))%Z.
Proof.
  intros H. unfold Adjust. rewrite int64_id by done.
  case_bool_decide; simpl; lia.
Qed.
