(* ===== verification/Metastore.v ===== *)
(** * The framework metastore ([pkg/orm], [lib/metadata])

    The job table and the epoch counter, and the clients built on them. GORM and
    the SQL server are not part of the repository: the statements the client
    issues are the operations of the class [Gorm], and what their documentation
    says of them is the class [GormLaws]. A statement that answers with an error
    may have been executed or not. [RefDB] is an in-memory instance. *)

From Stdlib Require Import Sorted.
From S2P Require Import Prelude Errors Model.

(** ** Rows *)

(** A row of the job table; [Deleted] of type [gorm.DeletedAt] makes deletion
    soft. The unique index on [id] covers deleted rows too. *)
Record jobRow := mkJobRow { jr_meta : MasterMeta; jr_deleted : bool }.

Definition MasterUpdateColumns : list string :=
  ["updated_at"; "project_id"; "id"; "type"; "status"; "node_id"; "address"; "epoch"; "config"].

(** The keys of [MasterMetaKVData.Map()]. *)
Definition MasterMeta_Map : list string :=
  ["project_id"; "id"; "type"; "status"; "node_id"; "address"; "epoch"; "config"].

(** Assignment of the named columns from another row. *)
Definition assign_columns (cols : list string) (new old : jobRow) : jobRow :=
  let pick {A} (c : string) (f : jobRow → A) : A := if bool_decide (c ∈ cols) then f new else f old in
  {| jr_meta := {| mm_ProjectID := pick "project_id" (λ r, mm_ProjectID (jr_meta r));
                   mm_ID := pick "id" (λ r, mm_ID (jr_meta r));
                   mm_Tp := pick "type" (λ r, mm_Tp (jr_meta r));
                   mm_StatusCode := pick "status" (λ r, mm_StatusCode (jr_meta r));
                   mm_NodeID := pick "node_id" (λ r, mm_NodeID (jr_meta r));
                   mm_Addr := pick "address" (λ r, mm_Addr (jr_meta r));
                   mm_Epoch := pick "epoch" (λ r, mm_Epoch (jr_meta r));
                   mm_Config := pick "config" (λ r, mm_Config (jr_meta r)) |};
     jr_deleted := pick "deleted" jr_deleted |}.

(** ** The statements *)

Class Gorm (DB : Type) := {
  jobs : DB → gmap MasterID jobRow;
  epochs : DB → option Z;
  (** [db.Clauses(OnConflict{Columns: id, DoUpdates: cols}).Create(row)] *)
  create_on_conflict : list string → MasterMeta → GoM string DB unit;
  (** [db.Model(...).Where("id = ?", row.ID).Updates(cols of row)] *)
  updates_where_id : list string → MasterMeta → GoM string DB unit;
  (** [db.Where("id = ?", id).Delete(...)], with the number of rows affected *)
  delete_where_id : MasterID → GoM string DB Z;
  (** [db.Where("id = ?", id).First(...)]; [None] is [gorm.ErrRecordNotFound] *)
  first_where_id : MasterID → GoM string DB (option MasterMeta);
  (** [db.Where(cond).Find(...)] *)
  find_where : (MasterMeta → bool) → GoM string DB (list MasterMeta);
  (** the epoch row: [INSERT ... ON DUPLICATE KEY] doing nothing, [epoch = epoch + n], [First] *)
  create_epoch_if_absent : Z → GoM string DB unit;
  update_epoch_by : Z → GoM string DB unit;
  first_epoch : GoM string DB (option Z);
  (** [db.Transaction(fn)] *)
  transaction : ∀ A, GoM string DB A → GoM string DB A;
}.
Arguments transaction {DB _ A} _.

Definition live_metas (rows : gmap MasterID jobRow) : list MasterMeta :=
  omap (λ kv : MasterID * jobRow, if jr_deleted kv.2 then None else Some (jr_meta kv.2)) (map_to_list rows).

Definition live (rows : gmap MasterID jobRow) (id : MasterID) : option MasterMeta :=
  match rows !! id with Some r => if jr_deleted r then None else Some (jr_meta r) | None => None end.

(** The effect of the writing statements on the job table. *)
Definition rows_created (cols : list string) (m : MasterMeta) (rows : gmap MasterID jobRow) : gmap MasterID jobRow :=
  <[mm_ID m := match rows !! mm_ID m with
               | None => mkJobRow m false
               | Some old => assign_columns cols (mkJobRow m false) old
               end]> rows.

Definition rows_updated (cols : list string) (m : MasterMeta) (rows : gmap MasterID jobRow) : gmap MasterID jobRow :=
  match rows !! mm_ID m with
  | Some old => if jr_deleted old then rows else <[mm_ID m := assign_columns cols (mkJobRow m false) old]> rows
  | None => rows
  end.

Definition rows_deleted (id : MasterID) (rows : gmap MasterID jobRow) : gmap MasterID jobRow :=
  match rows !! id with
  | Some r => <[id := mkJobRow (jr_meta r) true]> rows
  | None => rows
  end.

(** The outcome of a statement that turns the tables into [rows] and [ep]. *)
Definition wrote {DB A} `{!Gorm DB} (out : res string A) (db db' : DB) (rows : gmap MasterID jobRow) (ep : option Z) : Prop :=
  match out with
  | Done _ => jobs db' = rows ∧ epochs db' = ep
  | Fail _ => jobs db' = jobs db ∧ epochs db' = epochs db ∨ jobs db' = rows ∧ epochs db' = ep
  | Panic => False
  end.

Definition unchanged {DB} `{!Gorm DB} (db db' : DB) : Prop := jobs db' = jobs db ∧ epochs db' = epochs db.

Class GormLaws (DB : Type) `{!Gorm DB} : Prop := {
  create_law cols m db :
    wrote (create_on_conflict cols m db).1 db (create_on_conflict cols m db).2 (rows_created cols m (jobs db)) (epochs db);
  updates_law cols m db :
    wrote (updates_where_id cols m db).1 db (updates_where_id cols m db).2 (rows_updated cols m (jobs db)) (epochs db);
  delete_law id db :
    wrote (delete_where_id id db).1 db (delete_where_id id db).2 (rows_deleted id (jobs db)) (epochs db);
  delete_count_law id db n db' :
    delete_where_id id db = (Done n, db') → n = (match live (jobs db) id with Some _ => 1 | None => 0 end)%Z;
  first_law id db :
    unchanged db (first_where_id id db).2 ∧
    match (first_where_id id db).1 with Done r => r = live (jobs db) id | Fail _ => True | Panic => False end;
  find_law cond db :
    unchanged db (find_where cond db).2 ∧
    match (find_where cond db).1 with
    | Done l => l ≡ₚ filter (λ m, cond m = true) (live_metas (jobs db))
    | Fail _ => True | Panic => False
    end;
  create_epoch_law n db :
    wrote (create_epoch_if_absent n db).1 db (create_epoch_if_absent n db).2 (jobs db)
      (match epochs db with Some e => Some e | None => Some n end);
  (** a counter that does not fit the column is an error *)
  update_epoch_law n db :
    wrote (update_epoch_by n db).1 db (update_epoch_by n db).2 (jobs db) ((λ e, e + n)%Z <$> epochs db);
  first_epoch_law db :
    unchanged db (first_epoch db).2 ∧
    match (first_epoch db).1 with Done r => r = epochs db | Fail _ => True | Panic => False end;
  (** the effects of a failed transaction are undone; one that committed answers
      as its body did *)
  transaction_law A (f : GoM string DB A) db :
    match (transaction f db).1 with
    | Done a => ∃ db1, f db = (Done a, db1) ∧ unchanged db1 (transaction f db).2
    | Fail _ => unchanged db (transaction f db).2 ∨ ∃ a db1, f db = (Done a, db1) ∧ unchanged db1 (transaction f db).2
    | Panic => (f db).1 = Panic
    end;
}.

(** ** [pkg/orm/model/logic_epoch.go] *)

Definition defaultMinEpoch : Z := 1.

Section client.
Context {DB : Type} `{!Gorm DB}.

Definition InitializeEpoch : GoM string DB unit := create_epoch_if_absent defaultMinEpoch.

Definition GenEpoch_tx : GoM string DB Z :=
  _ ← update_epoch_by 1;
  logicEp ← first_epoch;
  match logicEp with
  | Some e => mret e
  | None => throw "record not found"
  end.

Definition GenEpoch : Go DB Epoch := λ db,
  match transaction GenEpoch_tx db with
  | (Done epoch, db') => (Done epoch, db')
  | (Fail err, db') => (Fail (ErrForeign err), db')
  | (Panic, db') => (Panic, db')
  end.

(** ** [pkg/orm/client.go]: the job operations *)

Definition wrapOp {A} (code : errcode) (m : GoM string DB A) : Go DB A := λ db,
  match m db with
  | (Done a, db') => (Done a, db')
  | (Fail err, db') => (Fail (GoWrap code (ErrForeign err)), db')
  | (Panic, db') => (Panic, db')
  end.

Definition UpsertJob (job : option MasterMeta) : Go DB unit :=
  match job with
  | None => throw (GoErr ErrMetaParamsInvalid "input master meta is nil")
  | Some job => wrapOp ErrMetaOpFail (create_on_conflict MasterUpdateColumns job)
  end.

Definition UpdateJob (job : option MasterMeta) : Go DB unit :=
  match job with
  | None => throw (GoErr ErrMetaParamsInvalid "input master meta is nil")
  | Some job => wrapOp ErrMetaOpFail (updates_where_id MasterMeta_Map job)
  end.

Definition DeleteJob (jobID : MasterID) : Go DB Z := wrapOp ErrMetaOpFail (delete_where_id jobID).

Definition GetJobByID (jobID : MasterID) : Go DB MasterMeta :=
  r ← wrapOp ErrMetaOpFail (first_where_id jobID);
  match r with
  | Some job => mret job
  | None => throw (GoWrap ErrMetaEntryNotFound (ErrForeign "record not found"))
  end.

Definition QueryJobs : Go DB (list MasterMeta) := wrapOp ErrMetaOpFail (find_where (λ _, true)).
Definition QueryJobsByProjectID (projectID : string) : Go DB (list MasterMeta) :=
  wrapOp ErrMetaOpFail (find_where (λ m, bool_decide (mm_ProjectID m = projectID))).
Definition QueryJobsByStatus (jobID : MasterID) (status : Z) : Go DB (list MasterMeta) :=
  wrapOp ErrMetaOpFail (find_where (λ m, bool_decide (mm_ID m = jobID) && bool_decide (mm_StatusCode m = status))).

(** [strings.Contains(err.Error(), "ErrMetaEntryNotFound")] *)
Definition IsNotFoundError (err : option goerr) : bool :=
  match err with
  | None => false
  | Some e => match String.index 0 "ErrMetaEntryNotFound" (goerr_msg e) with Some _ => true | None => false end
  end.

(** ** [lib/metadata/metadata.go]: the master metadata client *)

Definition newMasterMeta (masterID : MasterID) : MasterMeta := mkMasterMeta "" masterID 0 MasterStatusUninit "" "" 0 "".

Definition Load (masterID : MasterID) : Go DB MasterMeta := λ db,
  match GetJobByID masterID db with
  | (Fail e, db') => if IsNotFoundError (Some e) then (Done (newMasterMeta masterID), db') else (Fail e, db')
  | out => out
  end.

Definition Store (data : MasterMeta) : Go DB unit := UpsertJob (Some data).
Definition Update (data : MasterMeta) : Go DB unit := UpdateJob (Some data).
Definition Delete (masterID : MasterID) : Go DB unit := _ ← DeleteJob masterID; mret tt.
Definition LoadAllMasters : Go DB (list MasterMeta) := QueryJobs.

Definition StoreMasterMeta (meta : MasterMeta) : Go DB unit := _ ← Load (mm_ID meta); Store meta.
Definition DeleteMasterMeta (masterID : MasterID) : Go DB unit := Delete masterID.

End client.

(** ** An in-memory instance *)

Record RefDB := mkRefDB { ref_jobs : gmap MasterID jobRow; ref_epoch : option Z }.

#[global] Instance RefDB_gorm : Gorm RefDB := {|
  jobs := ref_jobs;
  epochs := ref_epoch;
  create_on_conflict cols m db := (Done tt, mkRefDB (rows_created cols m (ref_jobs db)) (ref_epoch db));
  updates_where_id cols m db := (Done tt, mkRefDB (rows_updated cols m (ref_jobs db)) (ref_epoch db));
  delete_where_id id db :=
    (Done (match live (ref_jobs db) id with Some _ => 1 | None => 0 end)%Z, mkRefDB (rows_deleted id (ref_jobs db)) (ref_epoch db));
  first_where_id id db := (Done (live (ref_jobs db) id), db);
  find_where cond db := (Done (filter (λ m, cond m = true) (live_metas (ref_jobs db))), db);
  create_epoch_if_absent n db :=
    (Done tt, mkRefDB (ref_jobs db) (match ref_epoch db with Some e => Some e | None => Some n end));
  update_epoch_by n db := (Done tt, mkRefDB (ref_jobs db) ((λ e, e + n)%Z <$> ref_epoch db));
  first_epoch db := (Done (ref_epoch db), db);
  transaction A f db := match f db with (Done a, db') => (Done a, db') | (out, _) => (out, db) end;
|}.

#[global] Instance RefDB_laws : GormLaws RefDB.
Proof.
  constructor; try (intros; by split).
  - intros id db n db' Hd. by simplify_eq/=.
  - intros cond db. split; [by split|]. apply Permutation_refl.
  - intros A f db. simpl. destruct (f db) as [[a|e|] db1]; simpl; [by exists db1|by left|done].
Qed.


(** ** Specification *)

(** Calls of the client, and the epochs a sequence of them hands out. *)
Inductive store_op : Type :=
| OpUpsert (m : option MasterMeta)
| OpUpdate (m : option MasterMeta)
| OpDelete (id : MasterID)
| OpGet (id : MasterID)
| OpQuery
| OpGenEpoch.

Definition run_store_op {DB} `{!Gorm DB} (op : store_op) (db : DB) : list Epoch * DB :=
  match op with
  | OpUpsert m => ([], (UpsertJob m db).2)
  | OpUpdate m => ([], (UpdateJob m db).2)
  | OpDelete id => ([], (DeleteJob id db).2)
  | OpGet id => ([], (GetJobByID id db).2)
  | OpQuery => ([], (QueryJobs db).2)
  | OpGenEpoch => (match (GenEpoch db).1 with Done e => [e] | _ => [] end, (GenEpoch db).2)
  end.

Fixpoint run_store {DB} `{!Gorm DB} (ops : list store_op) (db : DB) : list Epoch * DB :=
  match ops with
  | [] => ([], db)
  | op :: ops' =>
      let '(l, db1) := run_store_op op db in
      let '(l', db2) := run_store ops' db1 in (l ++ l', db2)
  end.

(** ** Lemmas *)

Lemma live_insert rows id r id' :
  live (<[id := r]> rows) id' =
  if decide (id = id') then (if jr_deleted r then None else Some (jr_meta r)) else live rows id'.
Proof. unfold live. rewrite lookup_insert. by case_decide. Qed.

Lemma assign_update_columns m old :
  assign_columns MasterUpdateColumns (mkJobRow m false) old = mkJobRow m (jr_deleted old).
Proof. unfold assign_columns. by destruct m. Qed.

Lemma assign_map_columns m old :
  assign_columns MasterMeta_Map (mkJobRow m false) old = mkJobRow m (jr_deleted old).
Proof. unfold assign_columns. by destruct m. Qed.

Lemma rows_created_eq m rows :
  rows_created MasterUpdateColumns m rows =
  <[mm_ID m := mkJobRow m (match rows !! mm_ID m with Some old => jr_deleted old | None => false end)]> rows.
Proof. unfold rows_created. case_match; by rewrite ?assign_update_columns. Qed.

Lemma rows_updated_eq m rows :
  rows_updated MasterMeta_Map m rows =
  match live rows (mm_ID m) with Some _ => <[mm_ID m := mkJobRow m false]> rows | None => rows end.
Proof.
  unfold rows_updated, live. destruct (rows !! mm_ID m) as [old|]; [|done].
  rewrite assign_map_columns. by destruct (jr_deleted old).
Qed.

Lemma live_rows_updated m rows id :
  live (rows_updated MasterMeta_Map m rows) id =
  if decide (id = mm_ID m) then (match live rows id with Some _ => Some m | None => None end) else live rows id.
Proof.
  rewrite rows_updated_eq. case_decide as Hid; subst.
  - destruct (live rows (mm_ID m)) eqn:Hl; [|done]. rewrite live_insert. by rewrite decide_True.
  - destruct (live rows (mm_ID m)); [|done]. rewrite live_insert. by rewrite decide_False.
Qed.

Lemma live_rows_deleted id rows id' :
  live (rows_deleted id rows) id' = if decide (id' = id) then None else live rows id'.
Proof.
  unfold rows_deleted. case_decide as Hid; subst.
  - destruct (rows !! id) eqn:Hr; [|by unfold live; rewrite Hr]. rewrite live_insert. by rewrite decide_True.
  - destruct (rows !! id); [|done]. rewrite live_insert. by rewrite decide_False.
Qed.

Lemma not_found_text a : IsNotFoundError (Some (GoWrap ErrMetaEntryNotFound (ErrForeign a))) = true.
Proof. vm_compute. done. Qed.

Lemma elem_of_live_metas rows m : m ∈ live_metas rows ↔ ∃ id, live rows id = Some m.
Proof.
  unfold live_metas. rewrite list_elem_of_omap. split.
  - intros ([id r] & Hin & Hm). apply elem_of_map_to_list in Hin. exists id. unfold live. rewrite Hin.
    simpl in Hm. by destruct (jr_deleted r).
  - intros [id Hl]. unfold live in Hl. destruct (rows !! id) as [r|] eqn:Hr; [|done].
    exists (id, r). split; [by apply elem_of_map_to_list|done].
Qed.

Section laws.
Context {DB : Type} `{!Gorm DB, !GormLaws DB}.
Implicit Types db : DB.

Lemma wrapOp_wrote {A} code (m : GoM string DB A) db rows ep :
  wrote (m db).1 db (m db).2 rows ep →
  (wrapOp code m db).2 = (m db).2 ∧
  match (wrapOp code m db).1 with
  | Done a => (m db).1 = Done a ∧ jobs (m db).2 = rows ∧ epochs (m db).2 = ep
  | Fail _ => unchanged db (m db).2 ∨ jobs (m db).2 = rows ∧ epochs (m db).2 = ep
  | Panic => False
  end.
Proof. unfold wrapOp, wrote, unchanged. destruct (m db) as [[a|e|] db1]; naive_solver. Qed.

(** The lookup of a row fails, by an error of the database. *)
Definition first_fails (id : MasterID) db : Prop := ∃ a db', first_where_id id db = (Fail a, db').

(** What each client call does to the tables. *)
Lemma UpsertJob_spec m db :
  let rows := rows_created MasterUpdateColumns m (jobs db) in
  match UpsertJob (Some m) db with
  | (Done _, db') => jobs db' = rows ∧ epochs db' = epochs db
  | (Fail _, db') => unchanged db db' ∨ jobs db' = rows ∧ epochs db' = epochs db
  | (Panic, _) => False
  end.
Proof.
  simpl. pose proof (wrapOp_wrote ErrMetaOpFail _ _ _ _ (create_law MasterUpdateColumns m db)) as [Hs Hr].
  rewrite <- Hs in Hr. destruct (wrapOp _ _ db) as [[a|e|] db']; simpl in *; naive_solver.
Qed.

Lemma UpdateJob_spec m db :
  let rows := rows_updated MasterMeta_Map m (jobs db) in
  match UpdateJob (Some m) db with
  | (Done _, db') => jobs db' = rows ∧ epochs db' = epochs db
  | (Fail _, db') => unchanged db db' ∨ jobs db' = rows ∧ epochs db' = epochs db
  | (Panic, _) => False
  end.
Proof.
  simpl. pose proof (wrapOp_wrote ErrMetaOpFail _ _ _ _ (updates_law MasterMeta_Map m db)) as [Hs Hr].
  rewrite <- Hs in Hr. destruct (wrapOp _ _ db) as [[a|e|] db']; simpl in *; naive_solver.
Qed.

Lemma DeleteJob_spec id db :
  let rows := rows_deleted id (jobs db) in
  match DeleteJob id db with
  | (Done n, db') => jobs db' = rows ∧ epochs db' = epochs db
  | (Fail _, db') => unchanged db db' ∨ jobs db' = rows ∧ epochs db' = epochs db
  | (Panic, _) => False
  end.
Proof.
  unfold DeleteJob. pose proof (wrapOp_wrote ErrMetaOpFail _ _ _ _ (delete_law id db)) as [Hs Hr].
  rewrite <- Hs in Hr. destruct (wrapOp _ _ db) as [[a|e|] db']; simpl in *; naive_solver.
Qed.

Lemma GetJobByID_spec id db :
  match GetJobByID id db with
  | (Done m, db') => live (jobs db) id = Some m ∧ unchanged db db'
  | (Fail e, db') =>
      unchanged db db' ∧ (live (jobs db) id = None ∧ IsNotFoundError (Some e) = true ∨ first_fails id db)
  | (Panic, _) => False
  end.
Proof.
  unfold GetJobByID, wrapOp, mbind, GoM_bind. pose proof (first_law id db) as [Hu Hf].
  destruct (first_where_id id db) as [[[m|]|e|] db1] eqn:Hrun; simpl in *; try done.
  - split; [done|]. left. split; [done|]. exact (not_found_text "record not found").
  - split; [done|]. right. by eexists _, _.
Qed.

Lemma QueryJobs_spec db :
  match QueryJobs db with
  | (Done l, db') => l ≡ₚ live_metas (jobs db) ∧ unchanged db db'
  | (Fail _, db') => unchanged db db'
  | (Panic, _) => False
  end.
Proof.
  unfold QueryJobs, wrapOp. pose proof (find_law (λ _, true) db) as [Hu Hf].
  destruct (find_where (λ _, true) db) as [[l|e|] db1]; simpl in *; try done.
  split; [|done]. rewrite Hf, filter_Forall; [done|]. by apply Forall_true.
Qed.

Lemma GenEpoch_spec db :
  match GenEpoch db with
  | (Done e, db') => jobs db' = jobs db ∧ epochs db' = Some e ∧ epochs db = Some (e - 1)%Z
  | (Fail _, db') => jobs db' = jobs db ∧ (epochs db' = epochs db ∨ epochs db' = (λ e, e + 1)%Z <$> epochs db)
  | (Panic, _) => False
  end.
Proof.
  assert (∀ e db1, GenEpoch_tx db = (Done e, db1) →
    jobs db1 = jobs db ∧ epochs db1 = Some e ∧ epochs db = Some (e - 1)%Z) as Hbody.
  { intros e db1. unfold GenEpoch_tx, mbind, GoM_bind. pose proof (update_epoch_law 1 db) as Hw.
    destruct (update_epoch_by 1 db) as [[[]|?|] db2]; simpl in *; [|done..].
    pose proof (first_epoch_law db2) as [[Hj He] Hf].
    destruct (first_epoch db2) as [[[e'|]|?|] db3]; simpl in *; [|done..]. intros [= -> ->].
    destruct Hw as [Hj2 He2]. rewrite Hj, He, Hj2, <- Hf. split_and!; [done..|].
    rewrite He2 in Hf. destruct (epochs db) as [e0|]; simplify_eq/=. f_equal. lia. }
  assert ((GenEpoch_tx db).1 ≠ Panic) as Hnp.
  { unfold GenEpoch_tx, mbind, GoM_bind. pose proof (update_epoch_law 1 db) as Hw.
    destruct (update_epoch_by 1 db) as [[[]|?|] db2]; simpl in *; [|done..].
    pose proof (first_epoch_law db2) as [_ Hf]. by destruct (first_epoch db2) as [[[e'|]|?|] db3]. }
  unfold GenEpoch. pose proof (transaction_law _ GenEpoch_tx db) as Ht.
  destruct (transaction GenEpoch_tx db) as [[e|e|] db']; simpl in *; [| |done].
  - destruct Ht as (db1 & Hb & [Hj He]). apply Hbody in Hb. rewrite Hj, He. naive_solver.
  - destruct Ht as [[Hj He]|(a & db1 & Hb & [Hj He])]; [by auto|].
    apply Hbody in Hb as (Hj1 & He1 & He0). rewrite Hj, He, Hj1, He1, He0. split; [done|]. right. simpl. f_equal. lia.
Qed.

Lemma Load_spec id db :
  match Load id db with
  | (Done m, db') =>
      unchanged db db' ∧
      (live (jobs db) id = Some m ∨ m = newMasterMeta id ∧ (live (jobs db) id = None ∨ first_fails id db))
  | (Fail _, db') => unchanged db db'
  | (Panic, _) => False
  end.
Proof.
  unfold Load. pose proof (GetJobByID_spec id db) as Hg.
  destruct (GetJobByID id db) as [[m|e|] db']; [by split; [|left]; apply Hg| |done].
  destruct Hg as [Hu [[Hl ->]|Hf]]; [by auto|].
  destruct (IsNotFoundError _); by auto.
Qed.

(** One call moves the epoch counter forward past the epochs it hands out. *)
Lemma run_store_op_epoch op db e0 :
  epochs db = Some e0 →
  ∃ e1, epochs (run_store_op op db).2 = Some e1 ∧ (e0 ≤ e1)%Z ∧
    ((run_store_op op db).1 = [] ∨ (run_store_op op db).1 = [e1] ∧ e1 = (e0 + 1)%Z).
Proof.
  intros He. destruct op as [[m|]|[m|]|id|id| |]; simpl; try by (eexists; eauto using Z.le_refl).
  - pose proof (UpsertJob_spec m db) as H. simpl in H. unfold unchanged in H.
    destruct (wrapOp _ _ db) as [[a|e|] db']; simpl in *; exists e0; (split; [naive_solver congruence|by split; [lia|left]]).
  - pose proof (UpdateJob_spec m db) as H. simpl in H. unfold unchanged in H.
    destruct (wrapOp _ _ db) as [[a|e|] db']; simpl in *; exists e0; (split; [naive_solver congruence|by split; [lia|left]]).
  - pose proof (DeleteJob_spec id db) as H. simpl in H. unfold unchanged in H.
    destruct (DeleteJob id db) as [[a|e|] db']; simpl in *; exists e0; (split; [naive_solver congruence|by split; [lia|left]]).
  - pose proof (GetJobByID_spec id db) as H. unfold unchanged in H.
    destruct (GetJobByID id db) as [[a|e|] db']; simpl in *; exists e0; (split; [naive_solver congruence|by split; [lia|left]]).
  - pose proof (QueryJobs_spec db) as H. unfold unchanged in H.
    destruct (QueryJobs db) as [[a|e|] db']; simpl in *; exists e0; (split; [naive_solver congruence|by split; [lia|left]]).
  - pose proof (GenEpoch_spec db) as H. destruct (GenEpoch db) as [[a|e|] db']; simpl in *; [| |done].
    + destruct H as (_ & -> & H0). rewrite He in H0. simplify_eq. eexists. split; [done|]. split; [lia|]. right. split; [done|]. lia.
    + rewrite He in H. simpl in H. destruct H as [_ [->| ->]]; eexists; (split; [done|]); split; [lia|by left|lia|by left].
Qed.

(** Along any sequence of metastore calls, some of which may fail with or
    without an effect, the epochs handed out are strictly increasing and above
    the counter's initial value: no two masters share an epoch. *)
Theorem epochs_strictly_increase ops db e0 :
  epochs db = Some e0 →
  StronglySorted Z.lt (run_store ops db).1 ∧ Forall (Z.lt e0) (run_store ops db).1.
Proof.
  revert db e0. induction ops as [|op ops IH]; intros db e0 He; simpl; [by repeat constructor|].
  destruct (run_store_op_epoch op db e0 He) as (e1 & He1 & Hle & Hl).
  destruct (run_store_op op db) as [l db1]. simpl in *. specialize (IH db1 e1 He1) as [Hs Hf].
  destruct (run_store ops db1) as [l' db2]. simpl in *.
  destruct Hl as [->|[-> ->]]; simpl.
  - split; [done|]. eapply Forall_impl; [exact Hf|]. intros; lia.
  - split; [by constructor|]. constructor; [lia|]. eapply Forall_impl; [exact Hf|]. intros; simpl in *; lia.
Qed.

(** Storing the metadata of a job writes exactly its row, which keeps its
    deletion mark; a later load returns the metadata that was stored, unless the
    job had been deleted: then the row stays deleted and, with no error of the
    database, the load returns blank metadata. *)
Theorem store_then_load m db db1 :
  StoreMasterMeta m db = (Done tt, db1) →
  let deleted := match jobs db !! mm_ID m with Some r => jr_deleted r | None => false end in
  jobs db1 = <[mm_ID m := mkJobRow m deleted]> (jobs db) ∧
  ∀ m' db2, Load (mm_ID m) db1 = (Done m', db2) → ¬ first_fails (mm_ID m) db1 →
    m' = if deleted then newMasterMeta (mm_ID m) else m.
Proof.
  intros Hst deleted. unfold StoreMasterMeta in Hst. apply bind_inv_Done in Hst as (m0 & db0 & Hload & Hst).
  pose proof (Load_spec (mm_ID m) db) as Hl. rewrite Hload in Hl. destruct Hl as [[Hj He] _].
  pose proof (UpsertJob_spec m db0) as Hu. unfold Store in Hst. rewrite Hst in Hu. destruct Hu as [Hj1 _].
  rewrite rows_created_eq, Hj in Hj1. split; [done|].
  intros m' db2 Hload2 Hnf. pose proof (Load_spec (mm_ID m) db1) as Hl. rewrite Hload2 in Hl.
  rewrite Hj1, live_insert, decide_True in Hl by done. fold deleted in Hl. simpl in Hl.
  destruct Hl as [_ Hl]. destruct deleted; naive_solver.
Qed.

End laws.

Module Witness.

Definition db0 : RefDB := mkRefDB ∅ (Some 1%Z).
Definition job (id : MasterID) : MasterMeta := mkMasterMeta "" id FakeJobMaster MasterStatusUninit "" "" 0 "cfg".

Lemma epochs_strictly_increase_witness :
  StronglySorted Z.lt (run_store [OpGenEpoch; OpUpsert (Some (job "j")); OpGenEpoch] db0).1 ∧
  Forall (Z.lt 1) (run_store [OpGenEpoch; OpUpsert (Some (job "j")); OpGenEpoch] db0).1.
Proof. apply (epochs_strictly_increase _ db0 1). reflexivity. Defined.

Lemma store_then_load_witness :
  jobs (StoreMasterMeta (job "j") db0).2 = <["j" := mkJobRow (job "j") false]> ∅ ∧
  ∀ m' db2, Load "j" (StoreMasterMeta (job "j") db0).2 = (Done m', db2) →
    ¬ first_fails "j" (StoreMasterMeta (job "j") db0).2 → m' = job "j".
Proof. exact (store_then_load (job "j") db0 _ eq_refl). Defined.

End Witness.
