(* ===== verification/JobFsm.v ===== *)
(** * The job state machine ([servermaster/job_fsm.go])

    [JobFsm] keeps every live job master in exactly one of three maps: pending,
    wait-ack and online. Every method runs under [jobsMu], so each is one atomic
    step. Handles are the two implementations of [lib/master/worker_handle.go];
    what a handle reads from the worker manager goes through the class
    [HandleEnv]. *)

From S2P Require Import Prelude Errors Model.

(** ** Worker handles *)

Inductive WorkerHandle : Type :=
| runningHandle (workerID : WorkerID) (executorID : ExecutorID)
| tombstoneHandle (workerID : WorkerID).

#[global] Instance WorkerHandle_eq_dec : EqDecision WorkerHandle.
Proof. solve_decision. Defined.

Definition handle_ID (h : WorkerHandle) : WorkerID :=
  match h with runningHandle w _ => w | tombstoneHandle w => w end.

(** [GetTombstone() != nil] and [Unwrap() != nil]. *)
Definition GetTombstone (h : WorkerHandle) : option WorkerHandle :=
  match h with runningHandle _ _ => None | tombstoneHandle _ => Some h end.
Definition Unwrap (h : WorkerHandle) : option WorkerHandle :=
  match h with runningHandle _ _ => Some h | tombstoneHandle _ => None end.

(** [pb.WorkerInfo]; the status bytes are the JSON of the status they encode. *)
Record WorkerInfo := mkWorkerInfo {
  wi_Id : WorkerID;
  wi_ExecutorId : ExecutorID;
  wi_Status : option WorkerStatus;
}.

(** What a handle obtains from the manager it points to. *)
Class HandleEnv (M : Type) := {
  handle_ToPB : M → WorkerHandle → res goerr (option WorkerInfo);
}.

(** ** State *)

Record jobHolder := mkJobHolder {
  jh_WorkerHandle : option WorkerHandle;
  jh_Meta : MasterMeta;
  jh_addFromFailover : bool;
}.

Record JobFsm := mkJobFsm {
  pendingJobs : gmap MasterID MasterMeta;
  waitAckJobs : gmap MasterID jobHolder;
  onlineJobs : gmap MasterID jobHolder;
}.

Definition NewJobFsm : JobFsm :=
  {| pendingJobs := ∅; waitAckJobs := ∅; onlineJobs := ∅ |}.

(** ** Queries *)

Inductive JobStatus : Type :=
| JobStatus_init
| JobStatus_pending
| JobStatus_online
| JobStatus_dispatched
| JobStatus_finished
| JobStatus_stopped.

Record QueryJobResponse := mkQueryJobResponse {
  qj_Tp : Z;
  qj_Config : string;
  qj_Status : JobStatus;
  qj_Err : option ErrorCode;
  qj_JobMasterInfo : option WorkerInfo;
}.

Definition QueryOnlineJob (fsm : JobFsm) (jobID : MasterID) : option jobHolder :=
  onlineJobs fsm !! jobID.

Definition checkPendingJob (fsm : JobFsm) (jobID : MasterID) : option QueryJobResponse :=
  match pendingJobs fsm !! jobID with
  | None => None
  | Some meta =>
      Some {| qj_Tp := mm_Tp meta; qj_Config := mm_Config meta; qj_Status := JobStatus_pending;
              qj_Err := None; qj_JobMasterInfo := None |}
  end.

Definition checkWaitAckJob (fsm : JobFsm) (jobID : MasterID) : option QueryJobResponse :=
  match waitAckJobs fsm !! jobID with
  | None => None
  | Some job =>
      let meta := jh_Meta job in
      Some {| qj_Tp := mm_Tp meta; qj_Config := mm_Config meta; qj_Status := JobStatus_dispatched;
              qj_Err := None; qj_JobMasterInfo := None |}
  end.

Definition checkOnlineJob {M} `{!HandleEnv M} (man : M) (fsm : JobFsm) (jobID : MasterID) :
    res goerr (option QueryJobResponse) :=
  match onlineJobs fsm !! jobID with
  | None => Done None
  | Some job =>
      let resp err info :=
        {| qj_Tp := mm_Tp (jh_Meta job); qj_Config := mm_Config (jh_Meta job);
           qj_Status := JobStatus_online; qj_Err := err; qj_JobMasterInfo := info |} in
      match jh_WorkerHandle job with
      | None => Panic
      | Some h =>
          match handle_ToPB man h with
          | Panic => Panic
          | Fail _ => Done (Some (resp (Some ErrorCode_UnknownError) None))
          | Done (Some jobInfo) => Done (Some (resp None (Some jobInfo)))
          | Done None => Done None
          end
      end
  end.

Definition QueryJob {M} `{!HandleEnv M} (man : M) (fsm : JobFsm) (jobID : MasterID) :
    res goerr (option QueryJobResponse) :=
  match checkPendingJob fsm jobID with
  | Some resp => Done (Some resp)
  | None =>
      match checkWaitAckJob fsm jobID with
      | Some resp => Done (Some resp)
      | None => checkOnlineJob man fsm jobID
      end
  end.

Definition JobCount (fsm : JobFsm) (status : JobStatus) : nat :=
  match status with
  | JobStatus_pending => size (pendingJobs fsm)
  | JobStatus_dispatched => size (waitAckJobs fsm)
  | JobStatus_online => size (onlineJobs fsm)
  | _ => 0
  end.

(** ** Transitions *)

Definition JobDispatched (job : MasterMeta) (addFromFailover : bool) (fsm : JobFsm) : JobFsm :=
  {| pendingJobs := pendingJobs fsm;
     waitAckJobs := <[mm_ID job := {| jh_WorkerHandle := None; jh_Meta := job;
                                      jh_addFromFailover := addFromFailover |}]> (waitAckJobs fsm);
     onlineJobs := onlineJobs fsm |}.

(** The callback dispatches a job: it changes the world [W] outside the state
    machine (the lock is held, so it cannot touch the maps) and returns the id
    of the created worker. *)
Definition dispatchJobFn (W : Type) : Type := MasterMeta → Go W string.

Definition IterPendingJobs_body {W} (fn : dispatchJobFn W) (oldJobID : MasterID) : Go (JobFsm * W) unit :=
  λ '(fsm, w),
    match pendingJobs fsm !! oldJobID with
    | None => (Done tt, (fsm, w))
    | Some job =>
        match fn job w with
        | (Done id, w') =>
            (Done tt,
              ({| pendingJobs := delete oldJobID (pendingJobs fsm);
                  waitAckJobs := <[id := {| jh_WorkerHandle := None; jh_Meta := mm_set_ID job id;
                                            jh_addFromFailover := false |}]> (waitAckJobs fsm);
                  onlineJobs := onlineJobs fsm |}, w'))
        | (Fail e, w') => (Fail e, (fsm, w'))
        | (Panic, w') => (Panic, (fsm, w'))
        end
    end.

(** [order] is the order in which the Go map is ranged over. *)
Definition IterPendingJobs {W} (fn : dispatchJobFn W) (order : list MasterID) : Go (JobFsm * W) unit :=
  forM_ (IterPendingJobs_body fn) order.

Definition IterWaitAckJobs_body {W} (fn : dispatchJobFn W) (id : MasterID) : Go (JobFsm * W) unit :=
  λ '(fsm, w),
    match waitAckJobs fsm !! id with
    | None => (Done tt, (fsm, w))
    | Some job =>
        if negb (jh_addFromFailover job) then (Done tt, (fsm, w))
        else
          match fn (jh_Meta job) w with
          | (Done _, w') =>
              (Done tt,
                ({| pendingJobs := pendingJobs fsm;
                    waitAckJobs := <[id := {| jh_WorkerHandle := jh_WorkerHandle job;
                                              jh_Meta := jh_Meta job;
                                              jh_addFromFailover := false |}]> (waitAckJobs fsm);
                    onlineJobs := onlineJobs fsm |}, w'))
          | (Fail e, w') => (Fail e, (fsm, w'))
          | (Panic, w') => (Panic, (fsm, w'))
          end
    end.

Definition IterWaitAckJobs {W} (fn : dispatchJobFn W) (order : list MasterID) : Go (JobFsm * W) unit :=
  forM_ (IterWaitAckJobs_body fn) order.

Definition JobOnline (worker : WorkerHandle) : Go JobFsm unit := λ fsm,
  match waitAckJobs fsm !! handle_ID worker with
  | None => (Fail (GoErr ErrWorkerNotFound (handle_ID worker)), fsm)
  | Some job =>
      (Done tt,
        {| pendingJobs := pendingJobs fsm;
           waitAckJobs := delete (handle_ID worker) (waitAckJobs fsm);
           onlineJobs := <[handle_ID worker := {| jh_WorkerHandle := Some worker;
                                                  jh_Meta := jh_Meta job;
                                                  jh_addFromFailover := false |}]> (onlineJobs fsm) |})
  end.

Definition JobOffline (worker : WorkerHandle) (needFailover : bool) (fsm : JobFsm) : JobFsm :=
  let id := handle_ID worker in
  let park (job : jobHolder) (fsm' : JobFsm) :=
    if needFailover then
      {| pendingJobs := <[id := jh_Meta job]> (pendingJobs fsm');
         waitAckJobs := waitAckJobs fsm'; onlineJobs := onlineJobs fsm' |}
    else fsm' in
  match onlineJobs fsm !! id with
  | Some job =>
      park job {| pendingJobs := pendingJobs fsm; waitAckJobs := waitAckJobs fsm;
                  onlineJobs := delete id (onlineJobs fsm) |}
  | None =>
      match waitAckJobs fsm !! id with
      | None => fsm
      | Some job =>
          park job {| pendingJobs := pendingJobs fsm; waitAckJobs := delete id (waitAckJobs fsm);
                      onlineJobs := onlineJobs fsm |}
      end
  end.

Definition JobDispatchFailed (worker : WorkerHandle) : Go JobFsm unit := λ fsm,
  match waitAckJobs fsm !! handle_ID worker with
  | None => (Fail (GoErr ErrWorkerNotFound (handle_ID worker)), fsm)
  | Some job =>
      (Done tt,
        {| pendingJobs := <[handle_ID worker := jh_Meta job]> (pendingJobs fsm);
           waitAckJobs := delete (handle_ID worker) (waitAckJobs fsm);
           onlineJobs := onlineJobs fsm |})
  end.

(** ** Specification: the diagram of the source's comment *)

(** [Absent] is a job the state machine does not hold: not yet submitted, or
    finished. *)
Inductive JobState : Type := Absent | Pending | WaitAck | Online.

#[global] Instance JobState_eq_dec : EqDecision JobState.
Proof. solve_decision. Defined.

Definition fsm_state (fsm : JobFsm) (id : MasterID) : JobState :=
  match pendingJobs fsm !! id, waitAckJobs fsm !! id, onlineJobs fsm !! id with
  | Some _, _, _ => Pending
  | None, Some _, _ => WaitAck
  | None, None, Some _ => Online
  | None, None, None => Absent
  end.

(** The metadata kept for a job. *)
Definition fsm_meta (fsm : JobFsm) (id : MasterID) : option MasterMeta :=
  match pendingJobs fsm !! id with
  | Some m => Some m
  | None =>
      match waitAckJobs fsm !! id with
      | Some h => Some (jh_Meta h)
      | None => jh_Meta <$> onlineJobs fsm !! id
      end
  end.

Inductive diagram : JobState → JobState → Prop :=
| d_submit : diagram Absent WaitAck
| d_worker_online : diagram WaitAck Online
| d_online_failover : diagram Online Pending
| d_online_finish : diagram Online Absent
| d_waitack_failover : diagram WaitAck Pending
| d_waitack_finish : diagram WaitAck Absent
| d_recreate : diagram Pending WaitAck.

(** A job is in one map only, under its own id, and an online job has a handle
    whose id is the job's. *)
Definition slot_wf (id : MasterID) (p : option MasterMeta) (w o : option jobHolder) : Prop :=
  match p, w, o with
  | None, None, None => True
  | Some m, None, None => mm_ID m = id
  | None, Some h, None => mm_ID (jh_Meta h) = id
  | None, None, Some h =>
      mm_ID (jh_Meta h) = id ∧ ∃ wh, jh_WorkerHandle h = Some wh ∧ handle_ID wh = id
  | _, _, _ => False
  end.

Definition fsm_wf (fsm : JobFsm) : Prop :=
  ∀ id, slot_wf id (pendingJobs fsm !! id) (waitAckJobs fsm !! id) (onlineJobs fsm !! id).

(** [CreateWorker] for a job master returns the id stored in its metadata. *)
Definition returns_own_id {W} (fn : dispatchJobFn W) : Prop :=
  ∀ job w id w', fn job w = (Done id, w') → id = mm_ID job.

(** The steps the job manager takes on the state machine. A submitted or
    recovered job is new to it. *)
Inductive fsm_step : JobFsm → JobFsm → Prop :=
| st_dispatched job b fsm :
    fsm_state fsm (mm_ID job) = Absent → fsm_step fsm (JobDispatched job b fsm)
| st_iter_pending W (fn : dispatchJobFn W) order fsm w :
    returns_own_id fn → fsm_step fsm (IterPendingJobs fn order (fsm, w)).2.1
| st_iter_waitack W (fn : dispatchJobFn W) order fsm w :
    fsm_step fsm (IterWaitAckJobs fn order (fsm, w)).2.1
| st_online h fsm : fsm_step fsm (JobOnline h fsm).2
| st_offline h b fsm : fsm_step fsm (JobOffline h b fsm)
| st_dispatch_failed h fsm : fsm_step fsm (JobDispatchFailed h fsm).2.

Definition fsm_reachable (fsm : JobFsm) : Prop := rtc fsm_step NewJobFsm fsm.

(** A step is allowed when every job stays where it is or moves along one arrow
    of the diagram, and a job that stays held keeps its metadata. *)
Definition follows_diagram (fsm fsm' : JobFsm) : Prop :=
  ∀ id,
    (fsm_state fsm' id = fsm_state fsm id ∨ diagram (fsm_state fsm id) (fsm_state fsm' id)) ∧
    (fsm_state fsm id ≠ Absent → fsm_state fsm' id ≠ Absent → fsm_meta fsm' id = fsm_meta fsm id).

(** The jobs the state machine holds. *)
Definition tracked (fsm : JobFsm) : gset MasterID :=
  dom (pendingJobs fsm) ∪ dom (waitAckJobs fsm) ∪ dom (onlineJobs fsm).

(** What the re-dispatch loop may do to the state machine: leave a job alone or
    move it, with its metadata, from pending to wait-ack. *)
Definition redispatched (fsm fsm' : JobFsm) : Prop :=
  ∀ id,
    (pendingJobs fsm' !! id = pendingJobs fsm !! id ∧
     waitAckJobs fsm' !! id = waitAckJobs fsm !! id ∧
     onlineJobs fsm' !! id = onlineJobs fsm !! id) ∨
    ∃ m, pendingJobs fsm !! id = Some m ∧ pendingJobs fsm' !! id = None ∧
         waitAckJobs fsm' !! id = Some (mkJobHolder None m false) ∧
         onlineJobs fsm' !! id = onlineJobs fsm !! id.

(** The state after the jobs of [ids] have been re-dispatched. *)
Definition moved (fsm : JobFsm) (ids : list MasterID) : JobFsm :=
  {| pendingJobs := filter (λ kv, kv.1 ∉ ids) (pendingJobs fsm);
     waitAckJobs := (λ m, mkJobHolder None m false) <$> filter (λ kv, kv.1 ∈ ids) (pendingJobs fsm);
     onlineJobs := onlineJobs fsm |}.

(** The wait-ack map after the re-dispatch of [ids]. *)
Definition redispatch_result (fsm : JobFsm) (ids : list MasterID) : JobFsm :=
  {| pendingJobs := pendingJobs (moved fsm ids);
     waitAckJobs := waitAckJobs (moved fsm ids) ∪ waitAckJobs fsm;
     onlineJobs := onlineJobs fsm |}.

(** A dispatch callback whose world also records the jobs it was called for. *)
Definition logged {W} (fn : dispatchJobFn W) : dispatchJobFn (list MasterMeta * W) :=
  λ job '(log, w), let '(r, w') := fn job w in (r, (log ++ [job], w')).

(** The jobs recovered at failover whose master has not been dispatched yet, in
    the order of [ids]. *)
Definition failover_todo (fsm : JobFsm) (ids : list MasterID) : list MasterMeta :=
  omap (λ id, match waitAckJobs fsm !! id with
              | Some h => if jh_addFromFailover h then Some (jh_Meta h) else None
              | None => None
              end) ids.

(** The state after the failover jobs of [ids] have been dispatched. *)
Definition failover_done (fsm : JobFsm) (ids : list MasterID) : JobFsm :=
  {| pendingJobs := pendingJobs fsm;
     waitAckJobs := map_imap (λ id h,
       Some (if decide (id ∈ ids) then mkJobHolder (jh_WorkerHandle h) (jh_Meta h) false else h)) (waitAckJobs fsm);
     onlineJobs := onlineJobs fsm |}.

(** How a failover loop over [order], started after the jobs of [ids], may end:
    the jobs of a prefix are dispatched once each and marked; the loop ends
    early only at a job whose dispatch failed, which keeps its mark. *)
Definition failover_outcome {W} (fn : dispatchJobFn W) (fsm : JobFsm) (ids order : list MasterID)
    (log : list MasterMeta) (out : res goerr unit * (JobFsm * (list MasterMeta * W))) : Prop :=
  ∃ l1 l2, order = l1 ++ l2 ∧ out.2.1 = failover_done fsm (ids ++ l1) ∧
    (out.1 = Done tt ∧ l2 = [] ∧ out.2.2.1 = log ++ failover_todo fsm l1 ∨
     out.1 ≠ Done tt ∧ ∃ k h w0 l3, l2 = k :: l3 ∧ waitAckJobs fsm !! k = Some h ∧
       jh_addFromFailover h = true ∧ (∀ id, (fn (jh_Meta h) w0).1 ≠ Done id) ∧
       out.2.2.1 = log ++ failover_todo fsm l1 ++ [jh_Meta h]).

(** What a query is expected to answer, read off the abstract state. *)
Definition query_status (st : JobState) : option JobStatus :=
  match st with
  | Absent => None
  | Pending => Some JobStatus_pending
  | WaitAck => Some JobStatus_dispatched
  | Online => Some JobStatus_online
  end.

(** ** Lemmas *)

Lemma NewJobFsm_wf : fsm_wf NewJobFsm.
Proof. intros id. unfold NewJobFsm, slot_wf; simpl. by rewrite !lookup_empty. Qed.

Lemma mm_set_ID_id m : mm_set_ID m (mm_ID m) = m.
Proof. by destruct m. Qed.

(** Case split on whether [id] is the key of the update, then on the slot. *)
Ltac slot_cases id k :=
  destruct (decide (k = id)) as [<-|?];
  [rewrite ?lookup_insert_eq, ?lookup_delete_eq
  |rewrite ?lookup_insert_ne, ?lookup_delete_ne by done].

Ltac slot_crush :=
  unfold fsm_state, fsm_meta, slot_wf in *; simpl in *; simplify_eq/=;
  repeat (case_match; simplify_eq/=); destruct_and?; try done;
  repeat split; intros; simplify_eq/=; try done;
  first [by eauto | by left | by right; constructor].

Lemma follows_diagram_refl fsm : follows_diagram fsm fsm.
Proof. intros id. split; [by left|done]. Qed.
#[local] Hint Resolve follows_diagram_refl : go_db.

Lemma JobDispatched_step job b fsm :
  fsm_wf fsm → fsm_state fsm (mm_ID job) = Absent →
  fsm_wf (JobDispatched job b fsm) ∧ follows_diagram fsm (JobDispatched job b fsm).
Proof.
  intros Hwf Habs. split.
  - intros id. specialize (Hwf id). unfold JobDispatched; simpl.
    slot_cases id (mm_ID job); slot_crush.
  - intros id. specialize (Hwf id). unfold JobDispatched, fsm_state, fsm_meta in *; simpl.
    slot_cases id (mm_ID job); slot_crush.
Qed.

Lemma JobOnline_step h fsm :
  fsm_wf fsm → fsm_wf (JobOnline h fsm).2 ∧ follows_diagram fsm (JobOnline h fsm).2.
Proof.
  intros Hwf. pose proof (Hwf (handle_ID h)) as Hh. unfold JobOnline.
  destruct (waitAckJobs fsm !! handle_ID h) as [job|] eqn:Hw; simpl; [|by auto with go_db].
  split; intros id; specialize (Hwf id); unfold fsm_state, fsm_meta; simpl;
    slot_cases id (handle_ID h); rewrite ?Hw in *; slot_crush.
Qed.

Lemma JobOffline_step h b fsm :
  fsm_wf fsm → fsm_wf (JobOffline h b fsm) ∧ follows_diagram fsm (JobOffline h b fsm).
Proof.
  intros Hwf. pose proof (Hwf (handle_ID h)) as Hh. unfold JobOffline.
  destruct (onlineJobs fsm !! handle_ID h) as [job|] eqn:Ho.
  { destruct b; split; intros id; specialize (Hwf id); unfold fsm_state, fsm_meta; simpl;
      slot_cases id (handle_ID h); rewrite ?Ho in *; slot_crush. }
  destruct (waitAckJobs fsm !! handle_ID h) as [job|] eqn:Hw; [|by auto with go_db].
  destruct b; split; intros id; specialize (Hwf id); unfold fsm_state, fsm_meta; simpl;
    slot_cases id (handle_ID h); rewrite ?Ho, ?Hw in *; slot_crush.
Qed.

Lemma JobDispatchFailed_step h fsm :
  fsm_wf fsm → fsm_wf (JobDispatchFailed h fsm).2 ∧ follows_diagram fsm (JobDispatchFailed h fsm).2.
Proof.
  intros Hwf. pose proof (Hwf (handle_ID h)) as Hh. unfold JobDispatchFailed.
  destruct (waitAckJobs fsm !! handle_ID h) as [job|] eqn:Hw; simpl; [|by auto with go_db].
  split; intros id; specialize (Hwf id); unfold fsm_state, fsm_meta; simpl;
    slot_cases id (handle_ID h); rewrite ?Hw in *; slot_crush.
Qed.

Lemma redispatched_step fsm fsm' : fsm_wf fsm → redispatched fsm fsm' → fsm_wf fsm' ∧ follows_diagram fsm fsm'.
Proof.
  intros Hwf Hr. split; intros id; specialize (Hwf id);
    destruct (Hr id) as [(Hp & Hw & Ho)|(m & Hp & Hp' & Hw' & Ho)];
    unfold fsm_state, fsm_meta; rewrite ?Hp', ?Hp, ?Hw', ?Hw, ?Ho; rewrite ?Hp in *; slot_crush.
Qed.

Lemma redispatched_tracked fsm fsm' : redispatched fsm fsm' → tracked fsm' = tracked fsm.
Proof.
  intros Hr. unfold tracked. apply set_eq. intros id. rewrite !elem_of_union, !elem_of_dom.
  destruct (Hr id) as [(-> & -> & ->)|(m & -> & -> & -> & ->)]; [done|].
  rewrite !is_Some_alt. tauto.
Qed.

Lemma IterPendingJobs_redispatched {W} (fn : dispatchJobFn W) order fsm w :
  fsm_wf fsm → returns_own_id fn → redispatched fsm (IterPendingJobs fn order (fsm, w)).2.1.
Proof.
  intros Hwf Hfn.
  pose (I := λ st : JobFsm * W, redispatched fsm st.1).
  assert (triple I (forM_ (IterPendingJobs_body fn) order) (λ _ st, I st)) as Ht.
  { apply triple_forM; [|done]. intros k _ [f w0] Hr; unfold I in *; simpl in *.
    destruct (pendingJobs f !! k) as [job|] eqn:Hk; [|done].
    destruct (fn job w0) as [[id|e|] w1] eqn:Hd; [|done|done]. apply Hfn in Hd as ->.
    destruct (redispatched_step _ _ Hwf Hr) as [Hwf' _]. pose proof (Hwf' k) as Hslot.
    rewrite Hk in Hslot. unfold slot_wf in Hslot. repeat case_match; try done. subst k.
    rewrite mm_set_ID_id. simpl. intros id; simpl. destruct (Hr id) as [(Hp & Hw & Ho)|Hm].
    - slot_cases id (mm_ID job); [|by left]. right; exists job. rewrite <- Hp. auto.
    - right. destruct Hm as (m & ? & ? & ? & ?). exists m. slot_cases id (mm_ID job); [congruence|auto]. }
  apply (Ht (fsm, w)). intros id. by left.
Qed.

Lemma IterWaitAckJobs_slots {W} (fn : dispatchJobFn W) order fsm w :
  let fsm' := (IterWaitAckJobs fn order (fsm, w)).2.1 in
  pendingJobs fsm' = pendingJobs fsm ∧ onlineJobs fsm' = onlineJobs fsm ∧
  ∀ id, waitAckJobs fsm' !! id = waitAckJobs fsm !! id ∨
        ∃ h, waitAckJobs fsm !! id = Some h ∧ jh_addFromFailover h = true ∧
             waitAckJobs fsm' !! id = Some (mkJobHolder (jh_WorkerHandle h) (jh_Meta h) false).
Proof.
  pose (I := λ st : JobFsm * W, pendingJobs st.1 = pendingJobs fsm ∧ onlineJobs st.1 = onlineJobs fsm ∧
    ∀ id, waitAckJobs st.1 !! id = waitAckJobs fsm !! id ∨
      ∃ h, waitAckJobs fsm !! id = Some h ∧ jh_addFromFailover h = true ∧
           waitAckJobs st.1 !! id = Some (mkJobHolder (jh_WorkerHandle h) (jh_Meta h) false)).
  assert (triple I (forM_ (IterWaitAckJobs_body fn) order) (λ _ st, I st)) as Ht.
  { apply triple_forM; [|done]. intros k _ [f w0] (Hp & Ho & Hw); unfold I; simpl in *.
    destruct (waitAckJobs f !! k) as [job|] eqn:Hk; [|done].
    destruct (jh_addFromFailover job) eqn:Hb; [|done]. simpl.
    destruct (fn (jh_Meta job) w0) as [[?|e|] w1] eqn:Hd; [|done|done]. simpl.
    split; [done|]. split; [done|]. intros id. slot_cases id k; [|apply Hw].
    right. destruct (Hw k) as [Hsame|(h & ? & ? & Hh)]; [|by rewrite Hk in Hh; simplify_eq/=].
    exists job. rewrite <- Hsame. auto. }
  apply (Ht (fsm, w)). repeat split; [done..|]. by left.
Qed.

Lemma IterWaitAckJobs_step {W} (fn : dispatchJobFn W) order fsm w :
  fsm_wf fsm →
  let fsm' := (IterWaitAckJobs fn order (fsm, w)).2.1 in fsm_wf fsm' ∧ follows_diagram fsm fsm'.
Proof.
  intros Hwf. destruct (IterWaitAckJobs_slots fn order fsm w) as (Hp & Ho & Hw). simpl in *.
  split; intros id; specialize (Hwf id); unfold fsm_state, fsm_meta; rewrite ?Hp, ?Ho;
    (destruct (Hw id) as [->|(h & Hh & _ & ->)]; [|rewrite Hh in *]); slot_crush.
Qed.

Lemma fsm_step_follows fsm fsm' : fsm_wf fsm → fsm_step fsm fsm' → fsm_wf fsm' ∧ follows_diagram fsm fsm'.
Proof.
  intros Hwf Hstep. destruct Hstep.
  - by apply JobDispatched_step.
  - apply redispatched_step; [done|]. by apply IterPendingJobs_redispatched.
  - by apply IterWaitAckJobs_step.
  - by apply JobOnline_step.
  - by apply JobOffline_step.
  - by apply JobDispatchFailed_step.
Qed.

Lemma fsm_reachable_wf fsm : fsm_reachable fsm → fsm_wf fsm.
Proof.
  intros Hr. unfold fsm_reachable in Hr. pose proof NewJobFsm_wf as Hwf.
  induction Hr as [x|x y z Hxy _ IH]; [done|]. apply IH. by eapply fsm_step_follows.
Qed.

Lemma moved_lookup_pending fsm ids id :
  pendingJobs (moved fsm ids) !! id = if decide (id ∈ ids) then None else pendingJobs fsm !! id.
Proof.
  simpl. rewrite map_lookup_filter. destruct (pendingJobs fsm !! id) as [m|]; simpl; [|by case_decide].
  case_decide; simpl; [by rewrite option_guard_False by auto|by rewrite option_guard_True].
Qed.

Lemma moved_lookup_waitack fsm ids id :
  waitAckJobs (moved fsm ids) !! id =
  if decide (id ∈ ids) then (λ m, mkJobHolder None m false) <$> pendingJobs fsm !! id else None.
Proof.
  simpl. rewrite lookup_fmap, map_lookup_filter. destruct (pendingJobs fsm !! id) as [m|]; simpl; [|by case_decide].
  case_decide; simpl; [by rewrite option_guard_True|by rewrite option_guard_False].
Qed.

Lemma redispatch_pending fsm ids id :
  pendingJobs (redispatch_result fsm ids) !! id = if decide (id ∈ ids) then None else pendingJobs fsm !! id.
Proof. apply moved_lookup_pending. Qed.

Lemma redispatch_waitack fsm ids id :
  waitAckJobs (redispatch_result fsm ids) !! id =
  (if decide (id ∈ ids) then (λ m, mkJobHolder None m false) <$> pendingJobs fsm !! id else None) ∪
  waitAckJobs fsm !! id.
Proof. unfold redispatch_result. simpl waitAckJobs at 1. by rewrite lookup_union, <- moved_lookup_waitack. Qed.

Lemma JobFsm_ext f g :
  (∀ id, pendingJobs f !! id = pendingJobs g !! id) → (∀ id, waitAckJobs f !! id = waitAckJobs g !! id) →
  onlineJobs f = onlineJobs g → f = g.
Proof.
  destruct f, g; simpl. intros Hp Hw ->. f_equal; by apply map_eq.
Qed.

Lemma redispatch_result_nil fsm : redispatch_result fsm [] = fsm.
Proof.
  apply JobFsm_ext; [intros id..|done].
  - rewrite redispatch_pending. by rewrite decide_False by set_solver.
  - rewrite redispatch_waitack, decide_False by set_solver. by rewrite (left_id_L None (∪)).
Qed.

(** One iteration of the loop. *)
Lemma IterPendingJobs_body_eq {W} (fn : dispatchJobFn W) fsm ids k job w :
  fsm_wf fsm → returns_own_id fn → k ∉ ids → pendingJobs fsm !! k = Some job →
  IterPendingJobs_body fn k (redispatch_result fsm ids, w) =
    match fn job w with
    | (Done _, w') => (Done tt, (redispatch_result fsm (ids ++ [k]), w'))
    | (Fail e, w') => (Fail e, (redispatch_result fsm ids, w'))
    | (Panic, w') => (Panic, (redispatch_result fsm ids, w'))
    end.
Proof.
  intros Hwf Hfn Hk Hjob. unfold IterPendingJobs_body.
  rewrite redispatch_pending, decide_False, Hjob by done.
  destruct (fn job w) as [[id|e|] w'] eqn:Hd; [|done|done]. apply Hfn in Hd as ->. rewrite mm_set_ID_id.
  assert (mm_ID job = k) as <-.
  { specialize (Hwf k). rewrite Hjob in Hwf. unfold slot_wf in Hwf. by repeat case_match. }
  do 2 f_equal. apply JobFsm_ext; [intros id; cbn [pendingJobs waitAckJobs]..|done].
  - rewrite lookup_delete, !redispatch_pending. repeat case_decide; set_solver.
  - rewrite lookup_insert, !redispatch_waitack. repeat case_decide; subst; try set_solver.
    rewrite Hjob; simpl. by rewrite union_Some_l.
Qed.

Lemma IterPendingJobs_run {W} (fn : dispatchJobFn W) fsm order ids w :
  fsm_wf fsm → returns_own_id fn → NoDup (ids ++ order) → (∀ k, k ∈ order → is_Some (pendingJobs fsm !! k)) →
  ∃ l1 l2 r w', order = l1 ++ l2 ∧
    IterPendingJobs fn order (redispatch_result fsm ids, w) = (r, (redispatch_result fsm (ids ++ l1), w')) ∧
    (r = Done tt ∧ l2 = [] ∨
     r ≠ Done tt ∧ ∃ k job w0 l3, l2 = k :: l3 ∧ pendingJobs fsm !! k = Some job ∧ ∀ id, (fn job w0).1 ≠ Done id).
Proof.
  intros Hwf Hfn. revert ids w. induction order as [|k order IH]; intros ids w Hnd Hpend.
  { exists [], [], (Done tt), w. rewrite (app_nil_r ids). split_and!; [done..|by left]. }
  destruct (Hpend k) as [job Hjob]; [set_solver|].
  assert (k ∉ ids) as Hk by (rewrite NoDup_app in Hnd; set_solver).
  pose proof (IterPendingJobs_body_eq fn fsm ids k job w Hwf Hfn Hk Hjob) as Hbody.
  unfold IterPendingJobs in *; simpl. unfold mbind, GoM_bind.
  destruct (fn job w) as [r w'] eqn:Hd. rewrite Hbody. destruct r as [id|e|].
  - destruct (IH (ids ++ [k]) w') as (l1 & l2 & r & w2 & -> & Hrun & Hr).
    { by rewrite <- app_assoc. } { set_solver. }
    exists (k :: l1), l2, r, w2. by rewrite Hrun, <- app_assoc.
  - exists [], (k :: order), (Fail e), w'. rewrite (app_nil_r ids). split_and!; [done..|].
    right. split; [done|]. exists k, job, w, order. by rewrite Hd.
  - exists [], (k :: order), Panic, w'. rewrite (app_nil_r ids). split_and!; [done..|].
    right. split; [done|]. exists k, job, w, order. by rewrite Hd.
Qed.

Lemma failover_done_waitack fsm ids id :
  waitAckJobs (failover_done fsm ids) !! id =
  (λ h, if decide (id ∈ ids) then mkJobHolder (jh_WorkerHandle h) (jh_Meta h) false else h) <$> waitAckJobs fsm !! id.
Proof. simpl. rewrite map_lookup_imap. by destruct (waitAckJobs fsm !! id). Qed.

Lemma failover_done_nil fsm : failover_done fsm [] = fsm.
Proof.
  apply JobFsm_ext; [done| |done]. intros id. rewrite failover_done_waitack.
  by destruct (waitAckJobs fsm !! id).
Qed.

Lemma failover_done_skip fsm ids k :
  (∀ h, waitAckJobs fsm !! k = Some h → jh_addFromFailover h = false) →
  failover_done fsm (ids ++ [k]) = failover_done fsm ids.
Proof.
  intros Hk. apply JobFsm_ext; [done| |done]. intros id. rewrite !failover_done_waitack.
  destruct (waitAckJobs fsm !! id) as [h|] eqn:Hid; [|done]. simpl. f_equal.
  destruct (decide (id = k)) as [->|]; [|repeat case_decide; set_solver].
  apply Hk in Hid. destruct h; simpl in *; subst. by repeat case_decide.
Qed.

Lemma failover_done_snoc fsm ids k h :
  waitAckJobs fsm !! k = Some h →
  {| pendingJobs := pendingJobs fsm;
     waitAckJobs := <[k := mkJobHolder (jh_WorkerHandle h) (jh_Meta h) false]> (waitAckJobs (failover_done fsm ids));
     onlineJobs := onlineJobs fsm |} = failover_done fsm (ids ++ [k]).
Proof.
  intros Hk. apply JobFsm_ext; [done| |done]. intros id. cbn [waitAckJobs].
  rewrite lookup_insert, !failover_done_waitack. case_decide as Hid; subst.
  - rewrite Hk; simpl. by rewrite decide_True by set_solver.
  - destruct (waitAckJobs fsm !! id); simpl; [|done]. repeat case_decide; set_solver.
Qed.

(** One iteration of the failover loop. *)
Lemma IterWaitAckJobs_body_eq {W} (fn : dispatchJobFn W) fsm ids k log w :
  k ∉ ids →
  IterWaitAckJobs_body (logged fn) k (failover_done fsm ids, (log, w)) =
    match waitAckJobs fsm !! k with
    | Some h =>
        if jh_addFromFailover h then
          match fn (jh_Meta h) w with
          | (Done _, w') => (Done tt, (failover_done fsm (ids ++ [k]), (log ++ [jh_Meta h], w')))
          | (Fail e, w') => (Fail e, (failover_done fsm ids, (log ++ [jh_Meta h], w')))
          | (Panic, w') => (Panic, (failover_done fsm ids, (log ++ [jh_Meta h], w')))
          end
        else (Done tt, (failover_done fsm (ids ++ [k]), (log, w)))
    | None => (Done tt, (failover_done fsm (ids ++ [k]), (log, w)))
    end.
Proof.
  intros Hk. unfold IterWaitAckJobs_body. rewrite failover_done_waitack.
  destruct (waitAckJobs fsm !! k) as [h|] eqn:Hw; simpl; [|by rewrite failover_done_skip by naive_solver].
  rewrite decide_False by done.
  destruct (jh_addFromFailover h) eqn:Hb; simpl; [|by rewrite failover_done_skip by naive_solver].
  destruct (fn (jh_Meta h) w) as [[?|?|] w']; [|done|done].
  do 2 f_equal. by rewrite <- (failover_done_snoc _ _ _ h).
Qed.

Lemma failover_todo_app fsm l1 l2 : failover_todo fsm (l1 ++ l2) = failover_todo fsm l1 ++ failover_todo fsm l2.
Proof. apply omap_app. Qed.

Lemma failover_todo_one fsm k :
  failover_todo fsm [k] =
  match waitAckJobs fsm !! k with Some h => if jh_addFromFailover h then [jh_Meta h] else [] | None => [] end.
Proof.
  unfold failover_todo; simpl. destruct (waitAckJobs fsm !! k) as [h|]; [|done]. by destruct (jh_addFromFailover h).
Qed.

Lemma failover_outcome_step {W} (fn : dispatchJobFn W) fsm ids k order log log' out :
  failover_todo fsm [k] = log' → failover_outcome fn fsm (ids ++ [k]) order (log ++ log') out →
  failover_outcome fn fsm ids (k :: order) log out.
Proof.
  intros Htodo (l1 & l2 & -> & Hf & Hl). exists (k :: l1), l2.
  rewrite <- app_assoc in Hf. split_and!; [done..|].
  change (k :: l1) with ([k] ++ l1). rewrite failover_todo_app, Htodo.
  destruct Hl as [(? & ? & Hl)|(? & k' & h & w0 & l3 & ? & ? & ? & ? & Hl)]; [left|right].
  - by rewrite Hl, <- !app_assoc.
  - split; [done|]. exists k', h, w0, l3. by rewrite Hl, <- !app_assoc.
Qed.

Lemma IterWaitAckJobs_run {W} (fn : dispatchJobFn W) fsm order ids log w :
  NoDup (ids ++ order) →
  failover_outcome fn fsm ids order log (IterWaitAckJobs (logged fn) order (failover_done fsm ids, (log, w))).
Proof.
  revert ids log w. induction order as [|k order IH]; intros ids log w Hnd.
  { exists [], []. rewrite (app_nil_r ids). split_and!; [done..|]. left. by rewrite app_nil_r. }
  assert (k ∉ ids) as Hk by (rewrite NoDup_app in Hnd; set_solver).
  assert (NoDup ((ids ++ [k]) ++ order)) as Hnd' by (by rewrite <- app_assoc).
  pose proof (IterWaitAckJobs_body_eq fn fsm ids k log w Hk) as Hbody.
  pose proof (failover_todo_one fsm k) as Htodo.
  unfold IterWaitAckJobs in *. simpl forM_. unfold mbind, GoM_bind. rewrite Hbody.
  destruct (waitAckJobs fsm !! k) as [h|] eqn:Hw;
    [|eapply failover_outcome_step; [exact Htodo|rewrite app_nil_r; by apply IH]].
  destruct (jh_addFromFailover h) eqn:Hb;
    [|eapply failover_outcome_step; [exact Htodo|rewrite app_nil_r; by apply IH]].
  destruct (fn (jh_Meta h) w) as [[?|e|] w'] eqn:Hd;
    [by eapply failover_outcome_step; [exact Htodo|apply IH]|..].
  all: exists [], (k :: order); rewrite (app_nil_r ids); split_and!; [done..|]; right; split; [done|].
  all: exists k, h, w, order; by rewrite Hd.
Qed.

(** ** Properties *)

(** C10: every step taken from a reachable state keeps each job in exactly one of
    the three maps, under its own id, and moves each job along one arrow of the
    state diagram documented in the source, or not at all, without changing its
    metadata. *)
Theorem job_fsm_refines_diagram fsm fsm' :
  fsm_reachable fsm → fsm_step fsm fsm' → fsm_wf fsm' ∧ follows_diagram fsm fsm'.
Proof. intros Hr. apply fsm_step_follows. by apply fsm_reachable_wf. Qed.

(** Re-dispatching the pending jobs, in any iteration order, moves exactly a
    prefix of them to wait-ack; no job is lost; the loop stops early only at a
    job whose dispatch failed, and when it succeeds nothing is pending. *)
Theorem iter_pending_redispatches {W} (fn : dispatchJobFn W) fsm order w :
  fsm_reachable fsm → returns_own_id fn → iter_order (pendingJobs fsm) order →
  ∃ l1 l2 r w', order = l1 ++ l2 ∧
    IterPendingJobs fn order (fsm, w) = (r, (redispatch_result fsm l1, w')) ∧
    tracked (redispatch_result fsm l1) = tracked fsm ∧
    (r = Done tt ∧ l2 = [] ∧ pendingJobs (redispatch_result fsm l1) = ∅ ∨
     r ≠ Done tt ∧ ∃ k job w0 l3, l2 = k :: l3 ∧ pendingJobs fsm !! k = Some job ∧
       ∀ id, (fn job w0).1 ≠ Done id).
Proof.
  intros Hr%fsm_reachable_wf Hfn Ho.
  destruct (IterPendingJobs_run fn fsm order [] w) as (l1 & l2 & r & w' & -> & Hrun & Hout); [done..| | |].
  { by eapply iter_order_NoDup. } { intros k. by apply iter_order_elem. }
  rewrite redispatch_result_nil in Hrun. exists l1, l2, r, w'. split_and!; [done|done| |].
  - pose proof (IterPendingJobs_redispatched fn (l1 ++ l2) fsm w Hr Hfn) as Hm.
    rewrite Hrun in Hm. by apply redispatched_tracked.
  - destruct Hout as [[? ->]|]; [left|by right]. split_and!; [done..|].
    apply map_eq. intros id. rewrite redispatch_pending, lookup_empty.
    case_decide as Hin; [done|]. rewrite app_nil_r in Ho.
    rewrite <- not_elem_of_dom. contradict Hin. apply (iter_order_elem _ _ id Ho). by apply elem_of_dom.
Qed.

(** After a failover every recovered job is dispatched at most once: the
    loop calls the dispatcher exactly for the recovered jobs not dispatched
    yet, once each, unmarks those it dispatched and keeps the mark of the
    others. *)
Theorem iter_waitack_exactly_once {W} (fn : dispatchJobFn W) fsm order w :
  iter_order (waitAckJobs fsm) order →
  failover_outcome fn fsm [] order [] (IterWaitAckJobs (logged fn) order (fsm, ([], w))).
Proof.
  intros Ho. pose proof (IterWaitAckJobs_run fn fsm order [] [] w) as Hrun.
  rewrite failover_done_nil in Hrun. apply Hrun. by eapply iter_order_NoDup.
Qed.

(** The three counters of [JobCount] add up to the number of jobs held. *)
Theorem job_count_total fsm :
  fsm_reachable fsm →
  JobCount fsm JobStatus_pending + JobCount fsm JobStatus_dispatched + JobCount fsm JobStatus_online =
  size (tracked fsm).
Proof.
  intros Hr%fsm_reachable_wf. simpl. unfold tracked.
  rewrite size_union, size_union, !size_dom; [done|..]; intros id; specialize (Hr id);
    rewrite ?elem_of_union, !elem_of_dom; unfold slot_wf in Hr; intros;
    destruct_or?; repeat case_match; try done; by destruct_and?; repeat match goal with H : is_Some None |- _ => destruct H; done end.
Qed.

(** With no stale handle kept, [QueryJob] does not panic and answers with the status of the job's state
    and the configuration kept for it. A job that is not held, or whose online
    worker is a tombstone, gets no answer. *)
Theorem query_job_agrees {M} `{!HandleEnv M} (man : M) fsm id :
  fsm_reachable fsm →
  (∀ job h, onlineJobs fsm !! id = Some job → jh_WorkerHandle job = Some h → handle_ToPB man h ≠ Panic) →
  ∃ o, QueryJob man fsm id = Done o ∧
    match o with
    | None => fsm_state fsm id = Absent ∨
              fsm_state fsm id = Online ∧ ∃ h, handle_ID h = id ∧ handle_ToPB man h = Done None
    | Some resp => query_status (fsm_state fsm id) = Some (qj_Status resp) ∧
                   ∃ m, fsm_meta fsm id = Some m ∧ mm_ID m = id ∧ qj_Config resp = mm_Config m ∧ qj_Tp resp = mm_Tp m
    end.
Proof.
  intros Hr%fsm_reachable_wf Hnp. specialize (Hr id).
  unfold QueryJob, checkPendingJob, checkWaitAckJob, checkOnlineJob, fsm_state, fsm_meta, slot_wf in *.
  destruct (pendingJobs fsm !! id) as [m|], (waitAckJobs fsm !! id) as [h|], (onlineJobs fsm !! id) as [o|];
    try done; try (eexists; split; [done|]; simpl; by eauto 10).
  destruct Hr as (Hid & wh & Heq & Hwh). specialize (Hnp o wh eq_refl Heq). rewrite Heq.
  destruct (handle_ToPB man wh) as [[info|]|e|] eqn:Htp; try done; (eexists; split; [done|]; simpl; eauto 10).
Qed.

Module Witness.

Definition job1 : MasterMeta := mkMasterMeta "p" "job1" FakeJobMaster MasterStatusUninit "" "" 0 "cfg".
Definition fsm1 : JobFsm := JobDispatched job1 true NewJobFsm.
Definition fsm2 : JobFsm := JobOffline (tombstoneHandle "job1") true fsm1.
Definition dispatch_ok : dispatchJobFn nat := λ job n, (Done (mm_ID job), S n).

#[global] Instance unit_env : HandleEnv unit := {| handle_ToPB := λ _ _, Done None |}.

Lemma fsm1_reachable : fsm_reachable fsm1.
Proof. eapply rtc_l; [|apply rtc_refl]. by apply st_dispatched. Defined.

Lemma fsm2_reachable : fsm_reachable fsm2.
Proof. eapply rtc_r; [apply fsm1_reachable|]. apply (st_offline _ true). Defined.

Lemma dispatch_ok_own_id : returns_own_id dispatch_ok.
Proof. intros job w id w' [= <- _]. reflexivity. Defined.

Lemma job_fsm_refines_diagram_witness : fsm_wf fsm2 ∧ follows_diagram fsm1 fsm2.
Proof. apply job_fsm_refines_diagram; [apply fsm1_reachable|apply (st_offline _ true)]. Defined.

Lemma iter_waitack_exactly_once_witness :
  iter_order (waitAckJobs fsm1) ["job1"] ∧
  failover_outcome dispatch_ok fsm1 [] ["job1"] [] (IterWaitAckJobs (logged dispatch_ok) ["job1"] (fsm1, ([], 0))).
Proof.
  assert (iter_order (waitAckJobs fsm1) ["job1"]) as Ho by (by apply iter_order_eq). split; [exact Ho|].
  apply iter_waitack_exactly_once. exact Ho.
Defined.

End Witness.
