(* ===== verification/WorkerManager.v ===== *)
(** * The worker manager of a master ([lib/master])

    [worker_entry.go], [events.go], [worker_manager.go], [worker_handle.go].
    Entries are objects shared by the map of the manager and by the hooks of
    queued events, so they live in a heap and the map and the hooks hold
    pointers. Every method runs under the manager's lock and is one atomic step;
    [InitAfterRecover] releases the lock twice and is made of the steps between.
    The clock and the iteration order of a map are arguments. *)

From S2P Require Import Prelude Errors Model JobFsm.

(** ** Worker entries *)

Inductive workerEntryState : Type :=
| workerEntryWait
| workerEntryCreated
| workerEntryNormal
| workerEntryOffline
| workerEntryTombstone.

#[global] Instance workerEntryState_eq_dec : EqDecision workerEntryState.
Proof. solve_decision. Defined.

Record workerEntry := mkWorkerEntry {
  we_id : WorkerID;
  we_executorID : ExecutorID;
  we_expireAt : Time;
  we_state : workerEntryState;
  we_receivedFinish : bool;
  we_status : option WorkerStatus;
}.

Definition newWorkerEntry (id : WorkerID) (executorID : ExecutorID) (expireAt : Time)
    (state : workerEntryState) (initWorkerStatus : option WorkerStatus) : workerEntry :=
  {| we_id := id; we_executorID := executorID; we_expireAt := expireAt; we_state := state;
     we_receivedFinish := false; we_status := initWorkerStatus |}.

Definition newWaitingWorkerEntry (id : WorkerID) (lastStatus : option WorkerStatus) : workerEntry :=
  newWorkerEntry id "" zeroTime workerEntryWait lastStatus.

Definition IsFinished (e : workerEntry) : bool := we_receivedFinish e.

Definition SetFinished (e : workerEntry) : workerEntry :=
  {| we_id := we_id e; we_executorID := we_executorID e; we_expireAt := we_expireAt e;
     we_state := we_state e; we_receivedFinish := true; we_status := we_status e |}.

Definition SetExpireTime (e : workerEntry) (expireAt : Time) : workerEntry :=
  {| we_id := we_id e; we_executorID := we_executorID e; we_expireAt := expireAt;
     we_state := we_state e; we_receivedFinish := we_receivedFinish e; we_status := we_status e |}.

Definition UpdateStatus (e : workerEntry) (status : option WorkerStatus) : workerEntry :=
  {| we_id := we_id e; we_executorID := we_executorID e; we_expireAt := we_expireAt e;
     we_state := we_state e; we_receivedFinish := we_receivedFinish e; we_status := status |}.

Definition set_state (e : workerEntry) (st : workerEntryState) : workerEntry :=
  {| we_id := we_id e; we_executorID := we_executorID e; we_expireAt := we_expireAt e;
     we_state := st; we_receivedFinish := we_receivedFinish e; we_status := we_status e |}.

Definition IsTombstone (e : workerEntry) : bool := bool_decide (we_state e = workerEntryTombstone).

(** The transitions of an entry; [None] is the panic of an illegal one. *)
Definition MarkAsTombstone (e : workerEntry) : option workerEntry :=
  if bool_decide (we_state e = workerEntryWait) || bool_decide (we_state e = workerEntryOffline) || IsFinished e
  then Some (set_state e workerEntryTombstone)
  else None.

Definition MarkAsOnline (e : workerEntry) (executor : ExecutorID) (expireAt : Time) : option workerEntry :=
  if bool_decide (we_state e = workerEntryCreated) || bool_decide (we_state e = workerEntryWait)
  then Some {| we_id := we_id e; we_executorID := executor; we_expireAt := expireAt;
               we_state := workerEntryNormal; we_receivedFinish := we_receivedFinish e;
               we_status := we_status e |}
  else None.

Definition MarkAsOffline (e : workerEntry) : option workerEntry :=
  if bool_decide (we_state e = workerEntryCreated) || bool_decide (we_state e = workerEntryNormal)
  then Some (set_state e workerEntryOffline)
  else None.

(** ** Events *)

Inductive masterEventType : Type :=
| workerOnlineEvent
| workerOfflineEvent
| workerStatusUpdatedEvent
| workerDispatchFailedEvent.

Abbreviation entry_ptr := nat.

(** The closures the manager puts in [beforeHook]. *)
Inductive beforeHookType : Type :=
| hook_nil
| hook_delete (workerID : WorkerID)
| hook_update (entry : entry_ptr) (status : option WorkerStatus)
| hook_tombstone (entry : entry_ptr).

Record masterEvent := mkMasterEvent {
  ev_Tp : masterEventType;
  ev_Handle : WorkerHandle;
  ev_WorkerID : WorkerID;
  ev_Err : option goerr;
  ev_beforeHook : beforeHookType;
}.

(** ** The manager *)

Inductive workerManagerState : Type :=
| workerManagerReady
| workerManagerLoadingMeta
| workerManagerWaitingHeartbeat.

#[global] Instance workerManagerState_eq_dec : EqDecision workerManagerState.
Proof. solve_decision. Defined.

Record WorkerManager := mkWorkerManager {
  wm_heap : list workerEntry;
  workerEntries : gmap WorkerID entry_ptr;
  wm_state : workerManagerState;
  wm_masterID : MasterID;
  wm_epoch : Epoch;
  eventQueue : list masterEvent;
  wm_err : option goerr;
  allWorkersReady : bool;
  wm_timeouts : TimeoutConfig;
}.

Definition eventQueueCap : nat := 1024.

Definition NewWorkerManager (masterID : MasterID) (epoch : Epoch) (isInit : bool)
    (timeoutConfig : TimeoutConfig) : WorkerManager :=
  {| wm_heap := []; workerEntries := ∅;
     wm_state := if isInit then workerManagerReady else workerManagerLoadingMeta;
     wm_masterID := masterID; wm_epoch := epoch; eventQueue := []; wm_err := None;
     allWorkersReady := false; wm_timeouts := timeoutConfig |}.

Definition set_heap (h : list workerEntry) (m : WorkerManager) : WorkerManager :=
  {| wm_heap := h; workerEntries := workerEntries m; wm_state := wm_state m; wm_masterID := wm_masterID m;
     wm_epoch := wm_epoch m; eventQueue := eventQueue m; wm_err := wm_err m;
     allWorkersReady := allWorkersReady m; wm_timeouts := wm_timeouts m |}.
Definition set_entries (es : gmap WorkerID entry_ptr) (m : WorkerManager) : WorkerManager :=
  {| wm_heap := wm_heap m; workerEntries := es; wm_state := wm_state m; wm_masterID := wm_masterID m;
     wm_epoch := wm_epoch m; eventQueue := eventQueue m; wm_err := wm_err m;
     allWorkersReady := allWorkersReady m; wm_timeouts := wm_timeouts m |}.
Definition set_wm_state (st : workerManagerState) (m : WorkerManager) : WorkerManager :=
  {| wm_heap := wm_heap m; workerEntries := workerEntries m; wm_state := st; wm_masterID := wm_masterID m;
     wm_epoch := wm_epoch m; eventQueue := eventQueue m; wm_err := wm_err m;
     allWorkersReady := allWorkersReady m; wm_timeouts := wm_timeouts m |}.
Definition set_queue (q : list masterEvent) (m : WorkerManager) : WorkerManager :=
  {| wm_heap := wm_heap m; workerEntries := workerEntries m; wm_state := wm_state m; wm_masterID := wm_masterID m;
     wm_epoch := wm_epoch m; eventQueue := q; wm_err := wm_err m;
     allWorkersReady := allWorkersReady m; wm_timeouts := wm_timeouts m |}.
Definition set_ready_closed (m : WorkerManager) : WorkerManager :=
  {| wm_heap := wm_heap m; workerEntries := workerEntries m; wm_state := wm_state m; wm_masterID := wm_masterID m;
     wm_epoch := wm_epoch m; eventQueue := eventQueue m; wm_err := wm_err m;
     allWorkersReady := true; wm_timeouts := wm_timeouts m |}.

(** [m.errCenter.OnError]: the first error wins. *)
Definition OnError (e : goerr) (m : WorkerManager) : WorkerManager :=
  {| wm_heap := wm_heap m; workerEntries := workerEntries m; wm_state := wm_state m; wm_masterID := wm_masterID m;
     wm_epoch := wm_epoch m; eventQueue := eventQueue m;
     wm_err := match wm_err m with Some e0 => Some e0 | None => Some e end;
     allWorkersReady := allWorkersReady m; wm_timeouts := wm_timeouts m |}.

(** Dereference of an entry pointer, and the write through it. *)
Definition load_entry (p : entry_ptr) : Go WorkerManager workerEntry := λ m,
  match wm_heap m !! p with Some e => (Done e, m) | None => (Panic, m) end.
Definition store_entry (p : entry_ptr) (e : option workerEntry) : Go WorkerManager unit := λ m,
  match e with Some e' => (Done tt, set_heap (<[p := e']> (wm_heap m)) m) | None => (Panic, m) end.

Definition nextExpireTime (now : Time) (m : WorkerManager) : Time :=
  (now + int64 (WorkerTimeoutDuration (wm_timeouts m) + WorkerTimeoutGracefulDuration (wm_timeouts m)))%Z.

Definition checkMasterEpochMatch (msgEpoch : Epoch) : Go WorkerManager bool := λ m,
  if bool_decide (wm_epoch m < msgEpoch)%Z then (Panic, m)
  else (Done (negb (bool_decide (msgEpoch < wm_epoch m)%Z)), m).

(** A send to the buffered channel: with the buffer full and no receiver within
    a second, an error. *)
Definition enqueueEvent (event : masterEvent) : Go WorkerManager unit := λ m,
  if bool_decide (length (eventQueue m) < eventQueueCap) then
    (Done tt, set_queue (eventQueue m ++ [event]) m)
  else (Fail (GoErr ErrMasterTooManyPendingEvents ""), m).

(** [if err != nil { m.errCenter.OnError(err) }] around a call. *)
Definition reporting (f : Go WorkerManager unit) : Go WorkerManager unit := λ m,
  match f m with (Fail e, m') => (Done tt, OnError e m') | out => out end.

Definition entry_state_is (m : WorkerManager) (st : workerEntryState) (p : entry_ptr) : bool :=
  match wm_heap m !! p with Some e => bool_decide (we_state e = st) | None => false end.

(** No entry of the map is still waiting for its first heartbeat. *)
Definition allReady (m : WorkerManager) : bool :=
  forallb (λ kv, negb (entry_state_is m workerEntryWait kv.2)) (map_to_list (workerEntries m)).

Definition close_allWorkersReady : Go WorkerManager unit := λ m,
  if allWorkersReady m then (Panic, m) else (Done tt, set_ready_closed m).

Definition HandleHeartbeat (now : Time) (msg : HeartbeatPingMessage) (fromNode : NodeID) : Go WorkerManager unit :=
  m ← get;
  if bool_decide (wm_state m = workerManagerLoadingMeta) then mret tt else
  ok ← checkMasterEpochMatch (ping_Epoch msg);
  if negb ok then mret tt else
  match workerEntries m !! ping_FromWorkerID msg with
  | None => mret tt
  | Some p =>
      e0 ← load_entry p;
      let e1 := if ping_IsFinished msg then SetFinished e0 else e0 in
      let e := SetExpireTime e1 (nextExpireTime now m) in
      _ ← store_entry p (Some e);
      if bool_decide (wm_state m = workerManagerWaitingHeartbeat) then
        if negb (bool_decide (we_state e = workerEntryWait)) then mret tt else
        _ ← store_entry p (MarkAsOnline e fromNode (nextExpireTime now m));
        m' ← get;
        if allReady m' then close_allWorkersReady else mret tt
      else
        if negb (bool_decide (we_state e = workerEntryCreated)) then mret tt else
        _ ← store_entry p (MarkAsOnline e fromNode (nextExpireTime now m));
        reporting (enqueueEvent {| ev_Tp := workerOnlineEvent;
                                   ev_Handle := runningHandle (ping_FromWorkerID msg) fromNode;
                                   ev_WorkerID := ping_FromWorkerID msg; ev_Err := None;
                                   ev_beforeHook := hook_nil |})
  end.

Definition createdStatus : WorkerStatus := mkWorkerStatus "" "" "" 0 WorkerStatusCreated "" "".

Definition BeforeStartingWorker (now : Time) (workerID : WorkerID) (executorID : ExecutorID) : Go WorkerManager unit := λ m,
  match workerEntries m !! workerID with
  | Some _ => (Panic, m)
  | None =>
      (Done tt, set_entries (<[workerID := length (wm_heap m)]> (workerEntries m))
                  (set_heap (wm_heap m ++ [newWorkerEntry workerID executorID (nextExpireTime now m)
                                             workerEntryCreated (Some createdStatus)]) m))
  end.

Definition AbortCreatingWorker (workerID : WorkerID) (errIn : option goerr) : Go WorkerManager unit :=
  reporting (enqueueEvent {| ev_Tp := workerDispatchFailedEvent; ev_Handle := tombstoneHandle workerID;
                             ev_WorkerID := workerID; ev_Err := errIn;
                             ev_beforeHook := hook_delete workerID |}).

Definition OnWorkerStatusUpdateMessage (msg : WorkerStatusMessage) : Go WorkerManager unit :=
  ok ← checkMasterEpochMatch (wsm_MasterEpoch msg);
  if negb ok then mret tt else
  m ← get;
  match workerEntries m !! wsm_Worker msg with
  | None => mret tt
  | Some p =>
      entry ← load_entry p;
      reporting (enqueueEvent {| ev_Tp := workerStatusUpdatedEvent;
                                 ev_Handle := runningHandle (wsm_Worker msg) (we_executorID entry);
                                 ev_WorkerID := wsm_Worker msg; ev_Err := None;
                                 ev_beforeHook := hook_update p (wsm_Status msg) |})
  end.

Definition GetWorkers (m : WorkerManager) : gmap WorkerID WorkerHandle :=
  map_imap (λ workerID p,
    match wm_heap m !! p with
    | Some entry => Some (if IsTombstone entry then tombstoneHandle workerID
                          else runningHandle workerID (we_executorID entry))
    | None => None
    end) (workerEntries m).

Definition IsInitialized (m : WorkerManager) : bool := bool_decide (wm_state m = workerManagerReady).

(** ** The background checker *)

Definition offlineError (workerID : WorkerID) (entry : workerEntry) : option goerr :=
  match we_status entry with
  | None => None
  | Some status =>
      if bool_decide (ws_Code status = WorkerStatusFinished) then Some (GoErr ErrWorkerFinish "")
      else if bool_decide (ws_Code status = WorkerStatusStopped) then Some (GoErr ErrWorkerStop "")
      else Some (GoErr ErrWorkerOffline workerID)
  end.

Definition shouldGoOffline (now : Time) (entry : workerEntry) : bool :=
  Before (we_expireAt entry) now || IsFinished entry.

Definition offlineEvent (workerID : WorkerID) (p : entry_ptr) (entry : workerEntry) : masterEvent :=
  {| ev_Tp := workerOfflineEvent; ev_Handle := tombstoneHandle workerID; ev_WorkerID := workerID;
     ev_Err := offlineError workerID entry; ev_beforeHook := hook_tombstone p |}.

Definition checkWorkerEntry (now : Time) (workerID : WorkerID) : Go WorkerManager unit :=
  m ← get;
  match workerEntries m !! workerID with
  | None => mret tt
  | Some p =>
      entry ← load_entry p;
      if bool_decide (we_state entry = workerEntryOffline) || bool_decide (we_state entry = workerEntryTombstone)
      then mret tt
      else if negb (shouldGoOffline now entry) then mret tt
      else
        _ ← store_entry p (MarkAsOffline entry);
        enqueueEvent (offlineEvent workerID p entry)
  end.

Definition checkWorkerEntriesOnce (now : Time) (order : list WorkerID) : Go WorkerManager unit :=
  m ← get;
  if negb (bool_decide (wm_state m = workerManagerReady)) then mret tt
  else forM_ (checkWorkerEntry now) order.

(** One tick of [runBackgroundChecker]; its error ends the goroutine and is
    reported. *)
Definition backgroundCheck (now : Time) (order : list WorkerID) : Go WorkerManager unit :=
  reporting (checkWorkerEntriesOnce now order).

(** ** Recovery *)

(** [LoadAllWorkers] indexes the rows by their id; a later row wins. *)
Definition LoadAllWorkers (resp : list WorkerStatus) : gmap WorkerID WorkerStatus :=
  foldl (λ acc s, <[ws_ID s := s]> acc) ∅ resp.

Definition loadPersisted (allPersistedWorkers : gmap WorkerID WorkerStatus) (workerID : WorkerID)
    (m : WorkerManager) : WorkerManager :=
  match allPersistedWorkers !! workerID with
  | None => m
  | Some status =>
      if bool_decide (ws_Code status = WorkerStatusFinished) then m
      else set_entries (<[workerID := length (wm_heap m)]> (workerEntries m))
             (set_heap (wm_heap m ++ [newWaitingWorkerEntry workerID (Some status)]) m)
  end.

(** The part up to the wait: [true] when there are heartbeats to wait for.
    [loaded] is what the metastore answered. *)
Definition InitAfterRecover_load (loaded : res goerr (list WorkerStatus)) (order : list WorkerID) : Go WorkerManager bool := λ m,
  if negb (bool_decide (wm_state m = workerManagerLoadingMeta)) then (Panic, m) else
  match loaded with
  | Panic => (Panic, m)
  | Fail e => (Fail e, OnError e m)
  | Done resp =>
      let m' := foldl (λ acc id, loadPersisted (LoadAllWorkers resp) id acc) m order in
      if bool_decide (size (workerEntries m') = 0) then (Done false, set_wm_state workerManagerReady m')
      else (Done true, set_wm_state workerManagerWaitingHeartbeat m')
  end.

Definition InitAfterRecover_mark (workerID : WorkerID) : Go WorkerManager unit :=
  m ← get;
  match workerEntries m !! workerID with
  | None => mret tt
  | Some p =>
      entry ← load_entry p;
      if bool_decide (we_state entry = workerEntryWait) || IsFinished entry
      then store_entry p (MarkAsTombstone entry)
      else mret tt
  end.

(** The part after the wait. *)
Definition InitAfterRecover_finish (order : list WorkerID) : Go WorkerManager unit :=
  _ ← forM_ InitAfterRecover_mark order;
  modify (set_wm_state workerManagerReady).

(** The whole method. [wait] is what the other goroutines do to the manager
    until the select fires, and whether it was the context that fired; the
    second order enumerates the map the wait left. *)
Definition InitAfterRecover (loaded : res goerr (list WorkerStatus)) (order : list WorkerID)
    (wait : Go WorkerManager unit) (order2 : WorkerManager → list WorkerID) : Go WorkerManager unit :=
  waiting ← InitAfterRecover_load loaded order;
  if negb waiting then mret tt else λ m,
  match wait m with
  | (Fail e, m') => (Fail e, OnError e m')
  | (Panic, m') => (Panic, m')
  | (Done _, m') => InitAfterRecover_finish (order2 m') m'
  end.

(** ** Event delivery *)

(** [event.beforeHook()]: [false] cancels the event. *)
Definition runHook (h : beforeHookType) : Go WorkerManager bool :=
  match h with
  | hook_nil => mret true
  | hook_delete workerID =>
      _ ← modify (λ m, set_entries (delete workerID (workerEntries m)) m);
      mret true
  | hook_update p status =>
      entry ← load_entry p;
      if IsTombstone entry then mret false
      else _ ← store_entry p (Some (UpdateStatus entry status)); mret true
  | hook_tombstone p =>
      entry ← load_entry p;
      _ ← store_entry p (MarkAsTombstone entry);
      mret true
  end.

(** One round of [Tick]'s loop up to the callback: the event to deliver, or
    [None] when the queue is empty or the hook cancelled the event. *)
Definition nextEvent : Go WorkerManager (option masterEvent) := λ m,
  match eventQueue m with
  | [] => (Done None, m)
  | event :: q =>
      (ok ← runHook (ev_beforeHook event); mret (if ok : bool then Some event else None)) (set_queue q m)
  end.

(** The callbacks of the master, which may use the manager. *)
Record Callbacks (W : Type) := mkCallbacks {
  onWorkerOnlined : WorkerHandle → Go (WorkerManager * W) unit;
  onWorkerOfflined : WorkerHandle → option goerr → Go (WorkerManager * W) unit;
  onWorkerStatusUpdated : WorkerHandle → Go (WorkerManager * W) unit;
  onWorkerDispatched : WorkerHandle → option goerr → Go (WorkerManager * W) unit;
}.
Arguments onWorkerOnlined {W}.
Arguments onWorkerOfflined {W}.
Arguments onWorkerStatusUpdated {W}.
Arguments onWorkerDispatched {W}.

Definition callback {W} (cb : Callbacks W) (event : masterEvent) : Go (WorkerManager * W) unit :=
  match ev_Tp event with
  | workerOnlineEvent => onWorkerOnlined cb (ev_Handle event)
  | workerOfflineEvent => onWorkerOfflined cb (ev_Handle event) (ev_Err event)
  | workerStatusUpdatedEvent => onWorkerStatusUpdated cb (ev_Handle event)
  | workerDispatchFailedEvent => onWorkerDispatched cb (ev_Handle event) (ev_Err event)
  end.

(** The loop of [Tick]; [fuel] is the number of rounds that fit before the
    context expires. *)
Fixpoint Tick_loop {W} (cb : Callbacks W) (fuel : nat) : Go (WorkerManager * W) unit := λ '(m, w),
  match fuel with
  | 0 => (Fail (ErrForeign "context deadline exceeded"), (m, w))
  | S fuel' =>
      match eventQueue m with
      | [] => (Done tt, (m, w))
      | event :: _ =>
          match nextEvent m with
          | (Panic, m') => (Panic, (m', w))
          | (Fail e, m') => (Fail e, (m', w))
          | (Done None, m') => Tick_loop cb fuel' (m', w)
          | (Done (Some ev), m') =>
              match callback cb ev (m', w) with
              | (Done _, st) => Tick_loop cb fuel' st
              | out => out
              end
          end
      end
  end.

Definition Tick {W} (cb : Callbacks W) (fuel : nat) : Go (WorkerManager * W) unit := λ '(m, w),
  match wm_err m with
  | Some e => (Fail e, (m, w))
  | None => Tick_loop cb fuel (m, w)
  end.

(** ** Handles *)

Definition removeTombstoneEntry (id : WorkerID) : Go WorkerManager unit := λ m,
  match workerEntries m !! id with
  | None => (Done tt, m)
  | Some p =>
      match wm_heap m !! p with
      | Some entry =>
          if IsTombstone entry then (Done tt, set_entries (delete id (workerEntries m)) m) else (Panic, m)
      | None => (Panic, m)
      end
  end.

(** [removed] is the answer of [WorkerMetadataClient.Remove]. *)
Definition CleanTombstone (removed : res goerr bool) (id : WorkerID) : Go WorkerManager unit := λ m,
  match removed with
  | Panic => (Panic, m)
  | Fail e => (Fail e, m)
  | Done false => (Done tt, m)
  | Done true => removeTombstoneEntry id m
  end.

Definition handle_Status (m : WorkerManager) (h : WorkerHandle) : res goerr (option WorkerStatus) :=
  match workerEntries m !! handle_ID h with
  | None => Panic
  | Some p => match wm_heap m !! p with Some entry => Done (we_status entry) | None => Panic end
  end.

Definition ToPB (m : WorkerManager) (h : WorkerHandle) : res goerr (option WorkerInfo) :=
  match h with
  | tombstoneHandle _ => Done None
  | runningHandle w ex =>
      match handle_Status m h with
      | Done st => Done (Some {| wi_Id := w; wi_ExecutorId := ex; wi_Status := st |})
      | Fail e => Fail e
      | Panic => Panic
      end
  end.

#[global] Instance WorkerManager_env : HandleEnv WorkerManager := {| handle_ToPB := ToPB |}.

(** ** Specification *)

Definition tomb_ptr (ev : masterEvent) : option entry_ptr :=
  match ev_beforeHook ev with hook_tombstone p => Some p | _ => None end.
Definition tomb_ptrs (q : list masterEvent) : list entry_ptr := omap tomb_ptr q.

Definition hook_valid (h : list workerEntry) (ev : masterEvent) : Prop :=
  match ev_beforeHook ev with hook_update p _ => is_Some (h !! p) | _ => True end.

(** The invariant of the manager. Pointers are valid and filed under the id of
    their entry; no entry waits for a heartbeat once the manager is ready or has
    signalled that all workers are; the hooks that will turn an entry into a
    tombstone are queued once each, for entries that are offline; and an entry
    that is offline has its event queued, unless the manager has failed. *)
Record wm_inv (m : WorkerManager) : Prop := {
  inv_ptr : ∀ id p, workerEntries m !! id = Some p → ∃ e, wm_heap m !! p = Some e ∧ we_id e = id;
  inv_wait : wm_state m = workerManagerReady ∨ allWorkersReady m = true →
    ∀ id p e, workerEntries m !! id = Some p → wm_heap m !! p = Some e → we_state e ≠ workerEntryWait;
  inv_closed : allWorkersReady m = true → wm_state m ≠ workerManagerLoadingMeta;
  inv_hook : ∀ p, p ∈ tomb_ptrs (eventQueue m) → ∃ e, wm_heap m !! p = Some e ∧ we_state e = workerEntryOffline;
  inv_once : NoDup (tomb_ptrs (eventQueue m));
  inv_offline : ∀ p e, wm_heap m !! p = Some e → we_state e = workerEntryOffline →
    wm_state m = workerManagerReady ∧ (p ∈ tomb_ptrs (eventQueue m) ∨ is_Some (wm_err m));
  inv_update : Forall (hook_valid (wm_heap m)) (eventQueue m);
}.

(** The operations the rest of the system performs on a manager. *)
Inductive wm_op : Type :=
| op_heartbeat (now : Time) (msg : HeartbeatPingMessage) (fromNode : NodeID)
| op_status (msg : WorkerStatusMessage)
| op_before_starting (now : Time) (id : WorkerID) (ex : ExecutorID)
| op_abort (id : WorkerID) (err : option goerr)
| op_check (now : Time) (order : list WorkerID)
| op_load (loaded : res goerr (list WorkerStatus)) (order : list WorkerID)
| op_finish (order : list WorkerID)
| op_deliver
| op_clean (removed : res goerr bool) (id : WorkerID).

Definition run_op (op : wm_op) : Go WorkerManager unit :=
  match op with
  | op_heartbeat now msg node => HandleHeartbeat now msg node
  | op_status msg => OnWorkerStatusUpdateMessage msg
  | op_before_starting now id ex => BeforeStartingWorker now id ex
  | op_abort id err => AbortCreatingWorker id err
  | op_check now order => backgroundCheck now order
  | op_load loaded order => _ ← InitAfterRecover_load loaded order; mret tt
  | op_finish order => InitAfterRecover_finish order
  | op_deliver => _ ← nextEvent; mret tt
  | op_clean removed id => CleanTombstone removed id
  end.

(** What the callers owe: messages carry no epoch later than the master's,
    worker ids are fresh, [InitAfterRecover] is called once and enumerates the
    map, and only tombstones are cleaned. *)
Definition op_pre (op : wm_op) (m : WorkerManager) : Prop :=
  match op with
  | op_heartbeat _ msg _ => (ping_Epoch msg ≤ wm_epoch m)%Z
  | op_status msg => (wsm_MasterEpoch msg ≤ wm_epoch m)%Z
  | op_before_starting _ id _ => workerEntries m !! id = None
  | op_load loaded order => wm_state m = workerManagerLoadingMeta ∧ loaded ≠ Panic
  | op_finish order => wm_state m = workerManagerWaitingHeartbeat ∧ iter_order (workerEntries m) order
  | op_clean removed id =>
      removed ≠ Panic ∧ ∀ h, GetWorkers m !! id = Some h → GetTombstone h = Some h
  | _ => True
  end.

Inductive wm_step (m : WorkerManager) : WorkerManager → Prop :=
| wm_step_op op : op_pre op m → wm_step m (run_op op m).2.

Definition wm_reachable (m : WorkerManager) : Prop :=
  ∃ masterID epoch isInit timeouts, rtc wm_step (NewWorkerManager masterID epoch isInit timeouts) m.

(** The events delivered along a run. *)
Definition delivered (op : wm_op) (m : WorkerManager) : list masterEvent :=
  match op with
  | op_deliver => match nextEvent m with (Done (Some ev), _) => [ev] | _ => [] end
  | _ => []
  end.

Inductive wm_trace (m : WorkerManager) : list masterEvent → WorkerManager → Prop :=
| tr_nil : wm_trace m [] m
| tr_step op log m' :
    op_pre op m → wm_trace (run_op op m).2 log m' → wm_trace m (delivered op m ++ log) m'.

(** The entry of a worker after [InitAfterRecover]. *)
Definition after_recover (e : workerEntry) : workerEntry :=
  if bool_decide (we_state e = workerEntryWait) || IsFinished e then set_state e workerEntryTombstone else e.

(** The entry of a worker after a round of the background checker. *)
Definition goes_offline (now : Time) (e : workerEntry) : bool :=
  bool_decide (we_state e ≠ workerEntryOffline ∧ we_state e ≠ workerEntryTombstone) &&
  (bool_decide (we_expireAt e < now)%Z || we_receivedFinish e).
Definition after_check (now : Time) (e : workerEntry) : workerEntry :=
  if goes_offline now e then set_state e workerEntryOffline else e.

(** The entries that are tombstones stay tombstones. *)
Definition keeps_tombstones (h h' : list workerEntry) : Prop :=
  ∀ p e, h !! p = Some e → we_state e = workerEntryTombstone →
    ∃ e', h' !! p = Some e' ∧ we_state e' = workerEntryTombstone.

(** The operation did not panic and left the invariant. *)
Definition safe {A} (out : res goerr A * WorkerManager) : Prop := out.1 ≠ Panic ∧ wm_inv out.2.

Definition ptrs_ok (m : WorkerManager) : Prop :=
  ∀ id p, workerEntries m !! id = Some p → ∃ e, wm_heap m !! p = Some e ∧ we_id e = id.

(** The entries after [f] has been applied to those of the workers of [ids]. *)
Definition heap_after (m : WorkerManager) (f : workerEntry → workerEntry) (ids : list WorkerID)
    (h' : list workerEntry) : Prop :=
  ∀ p, h' !! p = (λ e, if decide (we_id e ∈ ids ∧ workerEntries m !! we_id e = Some p) then f e else e) <$> wm_heap m !! p.

(** The offline events a round of the background checker queues, in order. *)
Definition check_events (now : Time) (m : WorkerManager) (ids : list WorkerID) : list masterEvent :=
  omap (λ id,
    p ← workerEntries m !! id; e ← wm_heap m !! p;
    if goes_offline now e then Some (offlineEvent id p e) else None) ids.

(** Callbacks that record what they are called with. *)
Definition call_log : Type := list (masterEventType * WorkerHandle * option goerr).
Definition recording : Callbacks call_log :=
  {| onWorkerOnlined := λ h '(m, l), (Done tt, (m, l ++ [(workerOnlineEvent, h, None)]));
     onWorkerOfflined := λ h err '(m, l), (Done tt, (m, l ++ [(workerOfflineEvent, h, err)]));
     onWorkerStatusUpdated := λ h '(m, l), (Done tt, (m, l ++ [(workerStatusUpdatedEvent, h, None)]));
     onWorkerDispatched := λ h err '(m, l), (Done tt, (m, l ++ [(workerDispatchFailedEvent, h, err)])) |}.
Definition call_of (ev : masterEvent) : masterEventType * WorkerHandle * option goerr :=
  (ev_Tp ev, ev_Handle ev,
   match ev_Tp ev with workerOfflineEvent | workerDispatchFailedEvent => ev_Err ev | _ => None end).

(** Events a tombstone may cancel. *)
Definition cancellable (ev : masterEvent) : bool :=
  match ev_beforeHook ev with hook_update _ _ => true | _ => false end.

(** ** Lemmas *)

Ltac wm_unfold := unfold mret, mbind, GoM_ret, GoM_bind, get, modify, load_entry, store_entry in *.

Lemma tomb_ptrs_snoc q ev :
  tomb_ptrs (q ++ [ev]) = tomb_ptrs q ++ match tomb_ptr ev with Some p => [p] | None => [] end.
Proof. unfold tomb_ptrs. rewrite omap_app. simpl. by destruct (tomb_ptr ev). Qed.

Lemma tomb_ptrs_cons q ev :
  tomb_ptrs (ev :: q) = match tomb_ptr ev with Some p => p :: tomb_ptrs q | None => tomb_ptrs q end.
Proof. unfold tomb_ptrs. simpl. by destruct (tomb_ptr ev). Qed.

Lemma heap_lookup_insert (h : list workerEntry) p e e' q :
  h !! p = Some e → <[p := e']> h !! q = if decide (q = p) then Some e' else h !! q.
Proof.
  intros Hp%lookup_lt_Some. rewrite list_lookup_insert. repeat case_decide; naive_solver.
Qed.

Lemma hook_valid_mono h h' ev :
  (∀ p, is_Some (h !! p) → is_Some (h' !! p)) → hook_valid h ev → hook_valid h' ev.
Proof. unfold hook_valid. destruct (ev_beforeHook ev); auto. Qed.

(** A write through an entry pointer that keeps the id, does not make the entry
    wait and does not change whether it is offline. *)
Lemma inv_store m p e e' :
  wm_inv m → wm_heap m !! p = Some e → we_id e' = we_id e →
  (we_state e' = workerEntryWait → we_state e = workerEntryWait) →
  (we_state e = workerEntryOffline ↔ we_state e' = workerEntryOffline) →
  wm_inv (set_heap (<[p := e']> (wm_heap m)) m).
Proof.
  intros [Hptr Hwait Hcl Hhook Honce Hoff Hupd] Hp Hid Hw Ho.
  split; simpl; try done; try setoid_rewrite (heap_lookup_insert _ p e e' _ Hp).
  - intros id q Hq. destruct (Hptr id q Hq) as (e0 & He0 & ?). case_decide; subst; [|eauto].
    exists e'. split; [done|]. congruence.
  - intros Hs id q e0 Hq He0. specialize (Hwait Hs id q). case_decide; simplify_eq; naive_solver.
  - intros q Hq. destruct (Hhook q Hq) as (e0 & He0 & ?). case_decide; simplify_eq; [|eauto]. naive_solver.
  - intros q e0 He0 Hst. case_decide; simplify_eq; naive_solver.
  - eapply Forall_impl; [exact Hupd|]. intros ev. apply hook_valid_mono. intros q.
    rewrite (heap_lookup_insert _ p e e' _ Hp). by case_decide.
Qed.

Lemma inv_enqueue m ev :
  wm_inv m → tomb_ptr ev = None → hook_valid (wm_heap m) ev → wm_inv (set_queue (eventQueue m ++ [ev]) m).
Proof.
  intros [Hptr Hwait Hcl Hhook Honce Hoff Hupd] Ht Hv.
  split; simpl; try done; rewrite ?tomb_ptrs_snoc, ?Ht, ?app_nil_r; try done.
  apply Forall_app; auto.
Qed.

Lemma inv_OnError m e : wm_inv m → wm_inv (OnError e m).
Proof.
  intros [Hptr Hwait Hcl Hhook Honce Hoff Hupd]. split; simpl; try done.
  intros p e0 Hp Hs. destruct (Hoff p e0 Hp Hs) as [? [?|[? ->]]]; eauto.
Qed.

(** An entry goes offline and its event is queued, or the queue is full. *)
Lemma inv_go_offline m p e ev :
  wm_inv m → wm_state m = workerManagerReady → wm_heap m !! p = Some e → we_state e ≠ workerEntryOffline →
  tomb_ptr ev = Some p →
  let m' := set_heap (<[p := set_state e workerEntryOffline]> (wm_heap m)) m in
  wm_inv (set_queue (eventQueue m ++ [ev]) m') ∧ (is_Some (wm_err m') → wm_inv m').
Proof.
  intros [Hptr Hwait Hcl Hhook Honce Hoff Hupd] Hr Hp He Ht m'.
  assert (p ∉ tomb_ptrs (eventQueue m)) as Hnin.
  { intros Hin. destruct (Hhook p Hin) as (? & ? & ?). congruence. }
  assert (Hupd' : Forall (hook_valid (wm_heap m')) (eventQueue m)).
  { eapply Forall_impl; [exact Hupd|]. intros ev0. apply hook_valid_mono. intros q. unfold m'; simpl.
    rewrite (heap_lookup_insert _ p e _ _ Hp). by case_decide. }
  subst m'. split; [|intros Herr]; split; simpl in *; try done; rewrite ?tomb_ptrs_snoc, ?Ht;
    try setoid_rewrite (heap_lookup_insert _ p e _ _ Hp).
  - intros id q Hq. destruct (Hptr id q Hq) as (e0 & He0 & ?). case_decide; subst; simplify_eq; eauto.
  - intros Hs id q e0 Hq He0. specialize (Hwait Hs id q). case_decide; simplify_eq; naive_solver.
  - intros q. rewrite elem_of_app, list_elem_of_singleton. intros [Hq| ->]; case_decide; simplify_eq; eauto.
  - rewrite NoDup_app. split; [done|]. split; [set_solver|]. apply NoDup_singleton.
  - intros q e0 He0 Hst. split; [done|].
    case_decide; simplify_eq; [left; set_solver|]. destruct (Hoff q e0 He0 Hst) as [_ [?|?]]; [left; set_solver|by right].
  - apply Forall_app. split; [done|]. apply Forall_singleton. unfold hook_valid, tomb_ptr in *. by destruct (ev_beforeHook ev).
  - intros id q Hq. destruct (Hptr id q Hq) as (e0 & He0 & ?). case_decide; subst; simplify_eq; eauto.
  - intros Hs id q e0 Hq He0. specialize (Hwait Hs id q). case_decide; simplify_eq; naive_solver.
  - intros q Hq. case_decide; simplify_eq; eauto.
  - intros q e0 He0 Hst. auto.
Qed.

(** A new entry filed under its id. *)
Lemma inv_new_entry m e :
  wm_inv m → we_state e ≠ workerEntryOffline →
  (we_state e = workerEntryWait → wm_state m = workerManagerLoadingMeta) →
  wm_inv (set_entries (<[we_id e := length (wm_heap m)]> (workerEntries m)) (set_heap (wm_heap m ++ [e]) m)).
Proof.
  intros [Hptr Hwait Hcl Hhook Honce Hoff Hupd] Ho Hw.
  assert (∀ p e0, wm_heap m !! p = Some e0 → (wm_heap m ++ [e]) !! p = Some e0) as Hmono.
  { intros p e0 Hp. by apply lookup_app_l_Some. }
  assert (∀ p e0, (wm_heap m ++ [e]) !! p = Some e0 →
    wm_heap m !! p = Some e0 ∨ p = length (wm_heap m) ∧ e0 = e) as Hinv.
  { intros p e0. rewrite lookup_app_Some. intros [?|[Hge Hs]]; [by left|right].
    apply list_lookup_singleton_Some in Hs as [? ?]. split; [lia|done]. }
  split; simpl; try done.
  - intros id p. rewrite lookup_insert. case_decide; intros ?; simplify_eq.
    + exists e. split; [|done]. by rewrite lookup_app_r, Nat.sub_diag.
    + destruct (Hptr id p) as (e0 & ? & ?); eauto.
  - intros Hs id p e0. rewrite lookup_insert. case_decide; intros ? He0; simplify_eq.
    + destruct (Hinv _ _ He0) as [Hlt%lookup_lt_Some|[_ ->]]; [lia|]. intros Hwt. specialize (Hw Hwt).
      destruct Hs as [Hs|Hs]; [congruence|]. by apply (Hcl Hs).
    + destruct (Hinv _ _ He0) as [?|[-> ->]]; [by eapply Hwait|].
      destruct (Hptr id (length (wm_heap m))) as (? & ?%lookup_lt_Some & ?); [done|]. lia.
  - intros p Hp. destruct (Hhook p Hp) as (e0 & ? & ?). eauto.
  - intros p e0 He0 Hs. destruct (Hinv _ _ He0) as [?|[_ ->]]; [eauto|done].
  - eapply Forall_impl; [exact Hupd|]. intros ev. apply hook_valid_mono. intros q [e0 ?]. eauto.
Qed.

Lemma inv_delete m id : wm_inv m → wm_inv (set_entries (delete id (workerEntries m)) m).
Proof.
  intros [Hptr Hwait Hcl Hhook Honce Hoff Hupd]. split; simpl; try done.
  - intros k p Hk%lookup_delete_Some. naive_solver.
  - intros Hs k p e Hk%lookup_delete_Some. naive_solver.
Qed.

Lemma safe_intro {A} (r : res goerr A) m : r ≠ Panic → wm_inv m → safe (r, m).
Proof. done. Qed.

Lemma epoch_match_safe e m : (e ≤ wm_epoch m)%Z → ∃ b, checkMasterEpochMatch e m = (Done b, m).
Proof. intros He. unfold checkMasterEpochMatch. rewrite bool_decide_eq_false_2 by lia. eauto. Qed.

Lemma reporting_enqueue_safe m ev :
  wm_inv m → tomb_ptr ev = None → hook_valid (wm_heap m) ev → safe (reporting (enqueueEvent ev) m).
Proof.
  intros Hinv Ht Hv. unfold reporting, enqueueEvent. case_bool_decide; apply safe_intro; try done.
  - by apply inv_enqueue.
  - by apply inv_OnError.
Qed.

Lemma allReady_spec m :
  allReady m = true ↔ ∀ id p, workerEntries m !! id = Some p → entry_state_is m workerEntryWait p = false.
Proof.
  unfold allReady. rewrite forallb_forall. split.
  - intros H id p Hp. specialize (H (id, p)). rewrite <- list_elem_of_In, elem_of_map_to_list in H.
    apply negb_true_iff. by apply H.
  - intros H [id p]. rewrite <- list_elem_of_In, elem_of_map_to_list. intros Hp. simpl. by rewrite (H id p).
Qed.

Lemma HandleHeartbeat_safe now msg node m :
  wm_inv m → (ping_Epoch msg ≤ wm_epoch m)%Z → safe (HandleHeartbeat now msg node m).
Proof.
  intros Hinv He. unfold HandleHeartbeat. wm_unfold. case_bool_decide as Hload; [done|].
  destruct (epoch_match_safe (ping_Epoch msg) m He) as [[] ->]; [|done]. cbn [negb].
  destruct (workerEntries m !! ping_FromWorkerID msg) as [p|] eqn:Hp; [|done].
  destruct (inv_ptr _ Hinv _ _ Hp) as (e0 & He0 & Hid). rewrite He0.
  set (e := SetExpireTime _ _). assert (we_state e = we_state e0) as Hst by (by unfold e; destruct (ping_IsFinished msg)).
  assert (we_id e = we_id e0) as Hide by (by unfold e; destruct (ping_IsFinished msg)). clearbody e.
  set (m1 := set_heap _ m).
  assert (wm_inv m1) as Hinv1 by (apply (inv_store _ _ e0); auto; rewrite Hst; done).
  assert (wm_heap m1 !! p = Some e) as Hp1.
  { unfold m1; simpl. rewrite (heap_lookup_insert _ p e0) by done. by rewrite decide_True. }
  destruct (decide (wm_state m = workerManagerWaitingHeartbeat)) as [Hwait|Hwait].
  - rewrite bool_decide_eq_true_2 by done. case_bool_decide as Hw; [simpl|done].
    unfold MarkAsOnline. rewrite Hw, orb_true_r.
    set (e' := mkWorkerEntry _ _ _ _ _ _). set (m2 := set_heap _ m1).
    assert (wm_inv m2) as Hinv2 by (apply (inv_store m1 p e); try done; by rewrite Hw).
    destruct (allReady m2) eqn:Hall; [|done]. unfold close_allWorkersReady.
    destruct (allWorkersReady m2) eqn:Hcl.
    { exfalso. eapply (inv_wait _ Hinv); [right; exact Hcl|exact Hp|exact He0|]. congruence. }
    apply safe_intro; [done|]. rewrite allReady_spec in Hall. destruct Hinv2 as [Hptr Hwt Hc Hhook Honce Hoff Hupd].
    split; simpl in *; try done.
    intros _ id q e2 Hq He2. specialize (Hall id q Hq). unfold entry_state_is in Hall. simpl in Hall.
    rewrite He2 in Hall. by case_bool_decide.
  - rewrite bool_decide_eq_false_2 by done. case_bool_decide as Hc; [simpl|done].
    unfold MarkAsOnline. rewrite Hc; simpl. apply reporting_enqueue_safe; [|done|done].
    apply (inv_store m1 p e); try done; by rewrite Hc.
Qed.

Lemma OnWorkerStatusUpdateMessage_safe msg m :
  wm_inv m → (wsm_MasterEpoch msg ≤ wm_epoch m)%Z → safe (OnWorkerStatusUpdateMessage msg m).
Proof.
  intros Hinv He. unfold OnWorkerStatusUpdateMessage. wm_unfold.
  destruct (epoch_match_safe (wsm_MasterEpoch msg) m He) as [[] ->]; [|done]. simpl.
  destruct (workerEntries m !! wsm_Worker msg) as [p|] eqn:Hp; [|done].
  destruct (inv_ptr _ Hinv _ _ Hp) as (e0 & He0 & Hid). rewrite He0.
  apply reporting_enqueue_safe; [done|done|]. unfold hook_valid; simpl. by rewrite He0.
Qed.

Lemma BeforeStartingWorker_safe now id ex m :
  wm_inv m → workerEntries m !! id = None → safe (BeforeStartingWorker now id ex m).
Proof.
  intros Hinv Hid. unfold BeforeStartingWorker. rewrite Hid. apply safe_intro; [done|].
  by apply (inv_new_entry m (newWorkerEntry id ex (nextExpireTime now m) workerEntryCreated (Some createdStatus))).
Qed.

Lemma AbortCreatingWorker_safe id err m : wm_inv m → safe (AbortCreatingWorker id err m).
Proof. intros Hinv. by apply reporting_enqueue_safe. Qed.

Lemma checkWorkerEntry_inv now id :
  triple (λ m, wm_inv m ∧ wm_state m = workerManagerReady) (checkWorkerEntry now id)
    (λ r m, match r with
            | Done _ => wm_inv m ∧ wm_state m = workerManagerReady
            | Fail e => wm_inv (OnError e m)
            | Panic => False
            end).
Proof.
  intros m [Hinv Hr]. unfold checkWorkerEntry. wm_unfold.
  destruct (workerEntries m !! id) as [p|] eqn:Hp; [|done].
  destruct (inv_ptr _ Hinv _ _ Hp) as (e & He & Hid). rewrite He.
  destruct (bool_decide (we_state e = workerEntryOffline)) eqn:Ho; [done|].
  destruct (bool_decide (we_state e = workerEntryTombstone)) eqn:Ht; [done|]. simpl.
  destruct (shouldGoOffline now e); [simpl|done].
  apply bool_decide_eq_false in Ho, Ht.
  assert (we_state e ≠ workerEntryWait) as Hw by (eapply (inv_wait _ Hinv); eauto).
  assert (MarkAsOffline e = Some (set_state e workerEntryOffline)) as ->.
  { unfold MarkAsOffline. by destruct (we_state e). }
  unfold enqueueEvent; simpl. case_bool_decide; simpl.
  - split; [|done]. by eapply (inv_go_offline m p e (offlineEvent id p e)).
  - assert (wm_inv (OnError (GoErr ErrMasterTooManyPendingEvents "") m)) as Hinv' by (by apply inv_OnError).
    eapply (inv_go_offline _ p e (offlineEvent id p e)) in Hinv' as [_ Hinv']; [|done..].
    apply Hinv'. simpl. by destruct (wm_err m).
Qed.

Lemma backgroundCheck_safe now order m : wm_inv m → safe (backgroundCheck now order m).
Proof.
  intros Hinv. unfold backgroundCheck, checkWorkerEntriesOnce, reporting. unfold mbind, GoM_bind, get.
  destruct (decide (wm_state m = workerManagerReady)) as [Hr|Hr];
    [rewrite bool_decide_eq_true_2 by done|by rewrite bool_decide_eq_false_2]; simpl.
  pose proof (triple_forM (λ m, wm_inv m ∧ wm_state m = workerManagerReady)
    (λ r m, match r with Done _ => wm_inv m | Fail e => wm_inv (OnError e m) | Panic => False end)
    (checkWorkerEntry now) order) as Ht.
  specialize (Ht (λ x _, checkWorkerEntry_inv now x)).
  assert (∀ s, wm_inv s ∧ wm_state s = workerManagerReady → wm_inv s) as Hend by naive_solver.
  specialize (Ht Hend m (conj Hinv Hr)).
  destruct (forM_ (checkWorkerEntry now) order m) as [[?|e|] m']; simpl in *; by apply safe_intro.
Qed.

Lemma inv_no_offline m p e :
  wm_inv m → wm_state m ≠ workerManagerReady → wm_heap m !! p = Some e → we_state e ≠ workerEntryOffline.
Proof. intros Hinv Hr Hp Ho. by destruct (inv_offline _ Hinv p e Hp Ho). Qed.

Lemma loadPersisted_inv all order m :
  wm_inv m → wm_state m = workerManagerLoadingMeta →
  let m' := foldl (λ acc id, loadPersisted all id acc) m order in
  wm_inv m' ∧ wm_state m' = workerManagerLoadingMeta.
Proof.
  revert m. induction order as [|id order IH]; intros m Hinv Hl; simpl; [done|]. apply IH.
  - unfold loadPersisted. destruct (all !! id) as [s|]; [|done]. case_bool_decide; [done|].
    by apply (inv_new_entry m (newWaitingWorkerEntry id (Some s))).
  - unfold loadPersisted. destruct (all !! id) as [s|]; [|done]. by case_bool_decide.
Qed.

Lemma InitAfterRecover_load_safe loaded order m :
  wm_inv m → wm_state m = workerManagerLoadingMeta → loaded ≠ Panic →
  safe (InitAfterRecover_load loaded order m).
Proof.
  intros Hinv Hl Hnp. unfold InitAfterRecover_load. rewrite bool_decide_eq_true_2 by done. simpl.
  destruct loaded as [resp|e|]; [|by apply safe_intro, inv_OnError|done].
  destruct (loadPersisted_inv (LoadAllWorkers resp) order m Hinv Hl) as [Hinv' Hl']. simpl in *.
  set (m' := foldl _ _ _) in *. clearbody m'.
  pose proof (inv_no_offline m') as Hno. rewrite Hl' in Hno.
  destruct Hinv' as [Hptr Hwt Hc Hhook Honce Hoff Hupd].
  case_bool_decide as Hsz; apply safe_intro; [done| |done|]; split; simpl; try done.
  - apply map_size_empty_inv in Hsz. intros _ id p e. by rewrite Hsz, lookup_empty.
  - intros p e Hp Ho. destruct (Hoff p e Hp Ho). congruence.
  - intros [?|Ha]; [done|]. by destruct (Hc Ha).
  - intros p e Hp Ho. destruct (Hoff p e Hp Ho). congruence.
Qed.

Lemma ptrs_ok_store m p e e' :
  ptrs_ok m → wm_heap m !! p = Some e → we_id e' = we_id e → ptrs_ok (set_heap (<[p := e']> (wm_heap m)) m).
Proof.
  intros Hok Hp Hid id q Hq. simpl in *. rewrite (heap_lookup_insert _ p e) by done.
  destruct (Hok id q Hq) as (e0 & ? & ?). case_decide; simplify_eq; eauto.
Qed.

Lemma mark_eq e : (if bool_decide (we_state e = workerEntryWait) || IsFinished e then MarkAsTombstone e else Some e) =
  Some (after_recover e).
Proof.
  unfold after_recover, MarkAsTombstone. destruct (bool_decide (we_state e = workerEntryWait)); [done|].
  destruct (IsFinished e); simpl; [|done]. by rewrite orb_true_r.
Qed.

Lemma heap_after_nil m f : heap_after m f [] (wm_heap m).
Proof.
  intros p. destruct (wm_heap m !! p) as [e|]; [|done]. cbn [fmap option_fmap option_map]. by case_decide; [set_solver|].
Qed.

Lemma heap_after_skip m f id ids h' :
  ptrs_ok m → (∀ p e, workerEntries m !! id = Some p → wm_heap m !! p = Some e → f e = e) →
  heap_after m f ids h' → heap_after m f (id :: ids) h'.
Proof.
  intros Hok Hf Hh p. rewrite (Hh p). destruct (wm_heap m !! p) as [e|] eqn:Hp; cbn [fmap option_fmap option_map]; [|done]. f_equal.
  repeat case_decide; try done; [set_solver|]. destruct_and?. rewrite elem_of_cons in *.
  symmetry. apply (Hf p); [|done]. naive_solver.
Qed.

Lemma heap_after_cons m f id p e ids h' m1 :
  (∀ e, we_id (f e) = we_id e) → (∀ e, f (f e) = f e) → ptrs_ok m →
  workerEntries m !! id = Some p → wm_heap m !! p = Some e →
  wm_heap m1 = <[p := f e]> (wm_heap m) → workerEntries m1 = workerEntries m →
  heap_after m1 f ids h' → heap_after m f (id :: ids) h'.
Proof.
  intros Hid Hidem Hok Hp He Hm1 Hent Hh q. rewrite (Hh q), Hm1, Hent.
  rewrite (heap_lookup_insert _ p e) by done. destruct (decide (q = p)) as [->|Hq].
  - rewrite He. cbn [fmap option_fmap option_map]. f_equal. destruct (Hok id p Hp) as (? & ? & <-). simplify_eq. rewrite Hid.
    repeat case_decide; [by rewrite Hidem|set_solver|done|set_solver].
  - destruct (wm_heap m !! q) as [e1|] eqn:Heq; cbn [fmap option_fmap option_map]; [|done]. f_equal.
    repeat case_decide; try done; [set_solver|]. destruct_and?. rewrite elem_of_cons in *.
    destruct_or?; simplify_eq; naive_solver.
Qed.

Lemma after_recover_id e : we_id (after_recover e) = we_id e.
Proof. unfold after_recover. by case_match. Qed.

Lemma after_recover_idem e : after_recover (after_recover e) = after_recover e.
Proof.
  unfold after_recover at 2 3. destruct (bool_decide _ || _) eqn:H0; unfold after_recover; [|by rewrite H0].
  by case_match.
Qed.

Lemma mark_loop order m :
  ptrs_ok m → ∃ h', forM_ InitAfterRecover_mark order m = (Done tt, set_heap h' m) ∧ heap_after m after_recover order h'.
Proof.
  revert m. induction order as [|id order IH]; intros m Hok; simpl.
  { exists (wm_heap m). split; [by destruct m|]. apply heap_after_nil. }
  unfold mbind, GoM_bind. unfold InitAfterRecover_mark at 1. wm_unfold.
  destruct (workerEntries m !! id) as [p|] eqn:Hp.
  2:{ destruct (IH m Hok) as (h' & -> & Hh). exists h'. split; [done|]. apply heap_after_skip; [done|congruence|done]. }
  destruct (Hok id p Hp) as (e & He & Hide). rewrite He. pose proof (mark_eq e) as Hmark.
  destruct (bool_decide (we_state e = workerEntryWait) || IsFinished e) eqn:Hc.
  - rewrite Hmark. set (m1 := set_heap _ m).
    assert (ptrs_ok m1) as Hok1.
    { apply (ptrs_ok_store m p e); [done..|]. apply after_recover_id. }
    destruct (IH m1 Hok1) as (h' & Hrun & Hh). exists h'. split; [exact Hrun|].
    apply (heap_after_cons m after_recover id p e order h' m1); try done.
    + apply after_recover_id.
    + apply after_recover_idem.
  - simplify_eq. destruct (IH m Hok) as (h' & -> & Hh). exists h'. split; [done|].
    apply heap_after_skip; [done| |done]. intros q e1 ? ?. unfold after_recover. simplify_eq. by rewrite Hc.
Qed.

Lemma InitAfterRecover_finish_run order m :
  ptrs_ok m → ∃ h', InitAfterRecover_finish order m = (Done tt, set_wm_state workerManagerReady (set_heap h' m)) ∧
    heap_after m after_recover order h'.
Proof.
  intros Hok. destruct (mark_loop order m Hok) as (h' & Hrun & Hh). exists h'. split; [|done].
  unfold InitAfterRecover_finish. by rewrite (bind_Done _ _ _ _ _ Hrun).
Qed.

Lemma heap_after_lookup m f ids h' p e' :
  heap_after m f ids h' → h' !! p = Some e' →
  ∃ e, wm_heap m !! p = Some e ∧ (e' = e ∨ e' = f e) ∧
       (we_id e ∈ ids → workerEntries m !! we_id e = Some p → e' = f e).
Proof.
  intros Hh Hp. rewrite (Hh p) in Hp. destruct (wm_heap m !! p) as [e|]; [|done].
  apply (inj Some) in Hp. exists e. split; [done|]. subst e'. case_decide; naive_solver.
Qed.

Lemma after_recover_not_wait e : we_state (after_recover e) ≠ workerEntryWait.
Proof.
  unfold after_recover. destruct (bool_decide_reflect (we_state e = workerEntryWait)); simpl; [done|].
  by destruct (IsFinished e).
Qed.

Lemma after_recover_offline e : we_state (after_recover e) = workerEntryOffline → we_state e = workerEntryOffline.
Proof. unfold after_recover. by case_match. Qed.

Lemma InitAfterRecover_finish_safe order m :
  wm_inv m → wm_state m = workerManagerWaitingHeartbeat → iter_order (workerEntries m) order →
  safe (InitAfterRecover_finish order m).
Proof.
  intros Hinv Hw Hord. pose proof (inv_ptr _ Hinv) as Hok.
  destruct (InitAfterRecover_finish_run order m Hok) as (h' & -> & Hh). apply safe_intro; [done|].
  assert (∀ p e, wm_heap m !! p = Some e → we_state e ≠ workerEntryOffline) as Hno.
  { intros p e. apply inv_no_offline; [done|congruence]. }
  destruct Hinv as [Hptr Hwt Hc Hhook Honce Hoff Hupd].
  assert (∀ p, p ∉ tomb_ptrs (eventQueue m)) as Hnone.
  { intros p Hp. destruct (Hhook p Hp) as (? & ? & ?). by eapply Hno. }
  split; simpl; try done.
  - intros id p Hp. destruct (Hptr id p Hp) as (e & He & Hid). rewrite (Hh p), He.
    eexists; split; [done|]. case_decide; [by rewrite after_recover_id|done].
  - intros _ id p e' Hp He'. destruct (heap_after_lookup _ _ _ _ _ _ Hh He') as (e & He & _ & Hf).
    destruct (Hptr id p Hp) as (? & ? & <-). simplify_eq. rewrite Hf; [apply after_recover_not_wait| |done].
    apply (iter_order_elem _ _ _ Hord). by eexists.
  - intros p Hp. by destruct (Hnone p).
  - intros p e' He' Ho. exfalso. destruct (heap_after_lookup _ _ _ _ _ _ Hh He') as (e & He & [->| ->] & _).
    + by apply (Hno p e). + apply after_recover_offline in Ho. by apply (Hno p e).
  - eapply Forall_impl; [exact Hupd|]. intros ev. apply hook_valid_mono. intros p [e He]. rewrite (Hh p), He. by eexists.
Qed.

Lemma inv_dequeue m ev q :
  wm_inv m → eventQueue m = ev :: q → tomb_ptr ev = None → wm_inv (set_queue q m).
Proof.
  intros [Hptr Hwt Hc Hhook Honce Hoff Hupd] Hq Ht. rewrite Hq in *. rewrite tomb_ptrs_cons, Ht in *.
  split; simpl; try done. by apply Forall_cons in Hupd as [_ ?].
Qed.

Lemma inv_deliver_tombstone m ev q p :
  wm_inv m → eventQueue m = ev :: q → tomb_ptr ev = Some p →
  ∃ e, wm_heap m !! p = Some e ∧ MarkAsTombstone e = Some (set_state e workerEntryTombstone) ∧
    wm_inv (set_heap (<[p := set_state e workerEntryTombstone]> (wm_heap m)) (set_queue q m)).
Proof.
  intros [Hptr Hwt Hc Hhook Honce Hoff Hupd] Hq Ht. rewrite Hq in *. rewrite tomb_ptrs_cons, Ht in *.
  destruct (Hhook p) as (e & He & Ho); [set_solver|]. exists e. split; [done|].
  split; [unfold MarkAsTombstone; by rewrite Ho|]. apply NoDup_cons in Honce as [Hnin Honce].
  split; simpl; try done; try setoid_rewrite (heap_lookup_insert _ p e _ _ He).
  - intros id r Hr. destruct (Hptr id r Hr) as (e0 & ? & ?). case_decide; simplify_eq; eauto.
  - intros Hs id r e0 Hr He0. specialize (Hwt Hs id r). case_decide; simplify_eq; naive_solver.
  - intros r Hr. destruct (Hhook r) as (e0 & ? & ?); [set_solver|]. case_decide; simplify_eq; eauto. done.
  - intros r e0 He0 Hst. case_decide; simplify_eq. destruct (Hoff r e0 He0 Hst) as [? [Hin|?]]; [|auto].
    split; [done|]. left. set_solver.
  - apply Forall_cons in Hupd as [_ Hupd]. eapply Forall_impl; [exact Hupd|]. intros ev0. apply hook_valid_mono.
    intros r. rewrite (heap_lookup_insert _ p e _ _ He). by case_decide.
Qed.

Lemma nextEvent_safe m : wm_inv m → safe (nextEvent m).
Proof.
  intros Hinv. unfold nextEvent. destruct (eventQueue m) as [|ev q] eqn:Hq; [done|].
  pose proof (inv_dequeue m ev q Hinv Hq) as Hdq. unfold tomb_ptr in Hdq.
  destruct (ev_beforeHook ev) as [|id|p st|p] eqn:Hh; simpl; wm_unfold.
  - by apply safe_intro, Hdq.
  - apply safe_intro; [done|]. by apply (inv_delete (set_queue q m)), Hdq.
  - specialize (Hdq eq_refl).
    pose proof (inv_update _ Hinv) as Hupd. rewrite Hq in Hupd. apply Forall_cons in Hupd as [Hv _].
    unfold hook_valid in Hv. rewrite Hh in Hv. destruct Hv as [e He]. simpl. rewrite He.
    destruct (IsTombstone e) eqn:Ht; apply safe_intro; [done|done|done|].
    by apply (inv_store (set_queue q m) p e).
  - destruct (inv_deliver_tombstone m ev q p Hinv Hq) as (e & He & Hm & Hinv'); [by unfold tomb_ptr; rewrite Hh|].
    simpl. rewrite He, Hm. by apply safe_intro.
Qed.

Lemma CleanTombstone_safe removed id m :
  wm_inv m → removed ≠ Panic → (∀ h, GetWorkers m !! id = Some h → GetTombstone h = Some h) →
  safe (CleanTombstone removed id m).
Proof.
  intros Hinv Hr Ht. unfold CleanTombstone, removeTombstoneEntry. destruct removed as [[]|e|]; try done.
  destruct (workerEntries m !! id) as [p|] eqn:Hp; [|done].
  destruct (inv_ptr _ Hinv _ _ Hp) as (e & He & _). rewrite He.
  destruct (IsTombstone e) eqn:Hts; [apply safe_intro; [done|]; by apply inv_delete|].
  unfold GetWorkers in Ht. rewrite map_lookup_imap, Hp in Ht. simpl in Ht. rewrite He, Hts in Ht.
  by specialize (Ht _ eq_refl).
Qed.

Lemma safe_bind_ret {A} (f : Go WorkerManager A) m :
  safe (f m) → safe ((f ≫= λ _, mret ()) m).
Proof. unfold safe, mbind, GoM_bind. destruct (f m) as [[?|?|] ?]; simpl; naive_solver. Qed.

Lemma run_op_safe op m : wm_inv m → op_pre op m → safe (run_op op m).
Proof.
  intros Hinv Hpre. destruct op; simpl in *; destruct_and?.
  - by apply HandleHeartbeat_safe.
  - by apply OnWorkerStatusUpdateMessage_safe.
  - by apply BeforeStartingWorker_safe.
  - by apply AbortCreatingWorker_safe.
  - by apply backgroundCheck_safe.
  - apply safe_bind_ret. by apply InitAfterRecover_load_safe.
  - by apply InitAfterRecover_finish_safe.
  - apply safe_bind_ret. by apply nextEvent_safe.
  - by apply CleanTombstone_safe.
Qed.

Lemma NewWorkerManager_inv id ep b t : wm_inv (NewWorkerManager id ep b t).
Proof. split; simpl; try done; try (intros; set_solver). constructor. Qed.

Lemma wm_reachable_inv m : wm_reachable m → wm_inv m.
Proof.
  intros (id & ep & b & t & Hr). pose proof (NewWorkerManager_inv id ep b t) as Hinv.
  induction Hr as [x|x y z [op Hpre] _ IH]; [done|]. apply IH. by apply run_op_safe.
Qed.

Lemma keeps_refl h : keeps_tombstones h h.
Proof. intros p e. eauto. Qed.

Lemma keeps_trans h1 h2 h3 : keeps_tombstones h1 h2 → keeps_tombstones h2 h3 → keeps_tombstones h1 h3.
Proof. intros H1 H2 p e Hp Ht. destruct (H1 p e Hp Ht) as (e' & ? & ?). eauto. Qed.

Lemma keeps_app h l : keeps_tombstones h (h ++ l).
Proof. intros p e Hp Ht. exists e. split; [by apply lookup_app_l_Some|done]. Qed.

Lemma keeps_insert h p e e' :
  h !! p = Some e → (we_state e = workerEntryTombstone → we_state e' = workerEntryTombstone) →
  keeps_tombstones h (<[p := e']> h).
Proof.
  intros Hp He q e0 Hq Ht. rewrite (heap_lookup_insert _ p e) by done. case_decide; simplify_eq; eauto.
Qed.
#[local] Hint Resolve keeps_refl keeps_app : go_db.

Lemma keeps_heap_after m f ids h' :
  (∀ e, we_state e = workerEntryTombstone → we_state (f e) = workerEntryTombstone) →
  heap_after m f ids h' → keeps_tombstones (wm_heap m) h'.
Proof.
  intros Hf Hh p e Hp Ht. rewrite (Hh p), Hp. eexists; split; [done|]. case_decide; auto.
Qed.

Lemma reporting_enqueue_heap ev m : wm_heap (reporting (enqueueEvent ev) m).2 = wm_heap m.
Proof. unfold reporting, enqueueEvent. by case_bool_decide. Qed.

Lemma foldl_load_heap all order m :
  keeps_tombstones (wm_heap m) (wm_heap (foldl (λ acc id, loadPersisted all id acc) m order)).
Proof.
  revert m. induction order as [|id order IH]; intros m; simpl; [apply keeps_refl|].
  eapply keeps_trans; [|apply IH]. unfold loadPersisted. repeat case_match; simpl; auto with go_db.
Qed.

Lemma checkWorkerEntry_heap now id m : keeps_tombstones (wm_heap m) (wm_heap (checkWorkerEntry now id m).2).
Proof.
  unfold checkWorkerEntry. wm_unfold. destruct (workerEntries m !! id) as [p|]; [|apply keeps_refl].
  destruct (wm_heap m !! p) as [e|] eqn:He; [|apply keeps_refl].
  destruct (_ || _) eqn:Ho; [apply keeps_refl|]. destruct (negb _); [apply keeps_refl|].
  unfold MarkAsOffline. destruct (bool_decide (we_state e = workerEntryCreated) || _); [|apply keeps_refl].
  unfold enqueueEvent. destruct (bool_decide (length _ < _)); simpl; (eapply keeps_insert; [done|]);
    intros Ht; rewrite Ht in Ho; done.
Qed.

Lemma checkWorkerEntries_heap now order m :
  keeps_tombstones (wm_heap m) (wm_heap (forM_ (checkWorkerEntry now) order m).2).
Proof.
  assert (triple (λ s, keeps_tombstones (wm_heap m) (wm_heap s)) (forM_ (checkWorkerEntry now) order)
    (λ _ s, keeps_tombstones (wm_heap m) (wm_heap s))) as Ht.
  { apply triple_forM; [|done]. intros id _ s Hs.
    pose proof (keeps_trans _ _ _ Hs (checkWorkerEntry_heap now id s)). by case_match. }
  apply Ht, keeps_refl.
Qed.

Lemma HandleHeartbeat_heap now msg node m : keeps_tombstones (wm_heap m) (wm_heap (HandleHeartbeat now msg node m).2).
Proof.
  unfold HandleHeartbeat. wm_unfold. case_bool_decide; [apply keeps_refl|].
  unfold checkMasterEpochMatch. case_bool_decide; [apply keeps_refl|]. destruct (negb _); [apply keeps_refl|].
  destruct (workerEntries m !! ping_FromWorkerID msg) as [p|]; [|apply keeps_refl].
  destruct (wm_heap m !! p) as [e0|] eqn:He; [|apply keeps_refl].
  set (e := SetExpireTime _ _). assert (we_state e = we_state e0) as Hst by (by unfold e; destruct (ping_IsFinished msg)).
  clearbody e. assert (keeps_tombstones (wm_heap m) (<[p := e]> (wm_heap m))) as Hk1.
  { eapply keeps_insert; [done|congruence]. }
  assert (∀ e', we_state e ≠ workerEntryTombstone →
    keeps_tombstones (wm_heap m) (<[p := e']> (<[p := e]> (wm_heap m)))) as Hk2.
  { intros e' Hne. eapply keeps_trans; [exact Hk1|]. apply (keeps_insert _ _ e); [|congruence].
    rewrite (heap_lookup_insert _ p e0) by done. by rewrite decide_True. }
  unfold MarkAsOnline. repeat case_bool_decide; simpl; try done; try congruence.
  all: try (rewrite reporting_enqueue_heap; apply Hk2; congruence).
  all: unfold close_allWorkersReady; repeat case_match; simpl; apply Hk2; congruence.
Qed.

Lemma nextEvent_heap m : keeps_tombstones (wm_heap m) (wm_heap (nextEvent m).2).
Proof.
  unfold nextEvent. destruct (eventQueue m) as [|ev q]; [apply keeps_refl|].
  destruct (ev_beforeHook ev) as [|id|p st|p]; simpl; wm_unfold; simpl; try apply keeps_refl.
  all: destruct (wm_heap m !! p) as [e|] eqn:He; simpl; [|apply keeps_refl].
  - destruct (IsTombstone e) eqn:Ht; [apply keeps_refl|]. simpl. by apply (keeps_insert _ _ e).
  - unfold MarkAsTombstone. destruct (_ || _); simpl; [|apply keeps_refl]. by apply (keeps_insert _ _ e).
Qed.

Lemma run_op_keeps op m : wm_inv m → keeps_tombstones (wm_heap m) (wm_heap (run_op op m).2).
Proof.
  intros Hinv. destruct op; simpl.
  - apply HandleHeartbeat_heap.
  - unfold OnWorkerStatusUpdateMessage, checkMasterEpochMatch. wm_unfold. repeat case_match; simplify_eq/=;
      try apply keeps_refl. rewrite reporting_enqueue_heap. apply keeps_refl.
  - unfold BeforeStartingWorker. case_match; simpl; auto with go_db.
  - unfold AbortCreatingWorker. rewrite reporting_enqueue_heap. apply keeps_refl.
  - unfold backgroundCheck, checkWorkerEntriesOnce, reporting. unfold mbind, GoM_bind, get.
    case_bool_decide; simpl; [|apply keeps_refl]. pose proof (checkWorkerEntries_heap now order m).
    by destruct (forM_ _ _ m) as [[?|?|] ?].
  - unfold InitAfterRecover_load. wm_unfold. pose proof (foldl_load_heap) as Hf.
    repeat case_match; simplify_eq/=; try apply keeps_refl; apply Hf.
  - destruct (InitAfterRecover_finish_run order m) as (h' & -> & Hh); [exact (inv_ptr _ Hinv)|]. simpl.
    eapply keeps_heap_after; [|exact Hh]. intros e He. unfold after_recover. by case_match.
  - pose proof (nextEvent_heap m). unfold mbind, GoM_bind. by destruct (nextEvent m) as [[?|?|] ?].
  - unfold CleanTombstone, removeTombstoneEntry. repeat case_match; apply keeps_refl.
Qed.

(** Delivering an offline event turns its entry, offline until then, into a
    tombstone. *)
Lemma delivered_tombstone op m p :
  wm_inv m → p ∈ tomb_ptrs (delivered op m) →
  tomb_ptrs (delivered op m) = [p] ∧
  (∃ e, wm_heap m !! p = Some e ∧ we_state e = workerEntryOffline) ∧
  (∃ e, wm_heap (run_op op m).2 !! p = Some e ∧ we_state e = workerEntryTombstone).
Proof.
  intros Hinv. destruct op; simpl; try set_solver. unfold nextEvent.
  destruct (eventQueue m) as [|ev q] eqn:Hq; [set_solver|].
  destruct (ev_beforeHook ev) as [|id|p' st|p'] eqn:Hh; simpl; wm_unfold; simpl.
  1-2: unfold tomb_ptrs, tomb_ptr; simpl; rewrite Hh; set_solver.
  { destruct (wm_heap m !! p') as [e|]; simpl; [|set_solver]. destruct (IsTombstone e); simpl; [set_solver|].
    unfold tomb_ptrs, tomb_ptr; simpl; rewrite Hh; set_solver. }
  assert (tomb_ptr ev = Some p') as Ht by (by unfold tomb_ptr; rewrite Hh).
  destruct (inv_deliver_tombstone m ev q p' Hinv Hq Ht) as (e & He & Hm & _). rewrite He, Hm. simpl.
  rewrite Ht, elem_of_cons. intros [->|?]; [|set_solver].
  split; [done|]. split.
  - apply (inv_hook _ Hinv). rewrite Hq, tomb_ptrs_cons, Ht. set_solver.
  - rewrite Hq, Hh. simpl. wm_unfold. simpl. rewrite He, Hm. simpl.
    rewrite (heap_lookup_insert _ _ e) by done. rewrite decide_True by done. eauto.
Qed.

Lemma tomb_ptrs_app l1 l2 : tomb_ptrs (l1 ++ l2) = tomb_ptrs l1 ++ tomb_ptrs l2.
Proof. apply omap_app. Qed.

Lemma wm_trace_once m log m' :
  wm_inv m → wm_trace m log m' →
  NoDup (tomb_ptrs log) ∧
  ∀ p e, p ∈ tomb_ptrs log → wm_heap m !! p = Some e → we_state e ≠ workerEntryTombstone.
Proof.
  intros Hinv Ht. induction Ht as [m|m op log m' Hpre Ht IH]; [split; [constructor|set_solver]|].
  destruct (run_op_safe op m Hinv Hpre) as [_ Hinv']. destruct (IH Hinv') as [Hnd Hnt].
  rewrite tomb_ptrs_app. assert (∀ p, p ∈ tomb_ptrs (delivered op m) → p ∉ tomb_ptrs log) as Hdisj.
  { intros p Hp Hp'. destruct (delivered_tombstone op m p Hinv Hp) as (_ & _ & e & He & Hs). by apply (Hnt p e). }
  split.
  - apply NoDup_app. split_and!; [|done|done].
    destruct (tomb_ptrs (delivered op m)) as [|p l] eqn:Hd; [constructor|].
    destruct (delivered_tombstone op m p Hinv) as (Hd' & _); [rewrite Hd; set_solver|].
    rewrite Hd' in Hd. simplify_eq. apply NoDup_singleton.
  - intros p e. rewrite elem_of_app. intros [Hp|Hp] He.
    + destruct (delivered_tombstone op m p Hinv Hp) as (_ & (e0 & ? & ?) & _). congruence.
    + intros Hs. destruct (run_op_keeps op m Hinv p e He Hs) as (e' & ? & ?). by apply (Hnt p e').
Qed.

Lemma after_check_id now e : we_id (after_check now e) = we_id e.
Proof. unfold after_check. by case_match. Qed.

Lemma after_check_idem now e : after_check now (after_check now e) = after_check now e.
Proof.
  unfold after_check at 2 3. destruct (goes_offline now e) eqn:Hg; unfold after_check; [done|by rewrite Hg].
Qed.

Lemma check_events_cons now m id ids :
  check_events now m (id :: ids) = check_events now m [id] ++ check_events now m ids.
Proof. unfold check_events. by rewrite <- omap_app. Qed.

Lemma check_events_one now m id :
  check_events now m [id] =
  match workerEntries m !! id with
  | Some p => match wm_heap m !! p with
              | Some e => if goes_offline now e then [offlineEvent id p e] else []
              | None => []
              end
  | None => []
  end.
Proof.
  unfold check_events; simpl. destruct (workerEntries m !! id) as [p|]; simpl; [|done].
  destruct (wm_heap m !! p) as [e|]; simpl; [|done]. by destruct (goes_offline now e).
Qed.

Lemma check_events_ext now m m1 ids :
  (∀ id, id ∈ ids → workerEntries m1 !! id = workerEntries m !! id) →
  (∀ id p, id ∈ ids → workerEntries m !! id = Some p → wm_heap m1 !! p = wm_heap m !! p) →
  check_events now m1 ids = check_events now m ids.
Proof.
  intros He Hh. induction ids as [|id ids IH]; [done|].
  rewrite (check_events_cons now m1), (check_events_cons now m), IH by set_solver. f_equal.
  rewrite !check_events_one, He by set_solver.
  destruct (workerEntries m !! id) as [p|] eqn:Hp; [|done]. by rewrite (Hh id p) by set_solver.
Qed.

Lemma goes_offline_eq now e :
  goes_offline now e =
  negb (bool_decide (we_state e = workerEntryOffline) || bool_decide (we_state e = workerEntryTombstone)) &&
  shouldGoOffline now e.
Proof. unfold goes_offline, shouldGoOffline, Before, IsFinished. by destruct (we_state e). Qed.

(** One iteration of the checker. *)
Lemma checkWorkerEntry_eq now id p e m :
  workerEntries m !! id = Some p → wm_heap m !! p = Some e → we_state e ≠ workerEntryWait →
  length (eventQueue m) < eventQueueCap →
  checkWorkerEntry now id m =
    if goes_offline now e
    then (Done tt, set_queue (eventQueue m ++ [offlineEvent id p e]) (set_heap (<[p := after_check now e]> (wm_heap m)) m))
    else (Done tt, m).
Proof.
  intros Hp He Hw Hq. unfold checkWorkerEntry, after_check. rewrite goes_offline_eq. wm_unfold. rewrite Hp, He.
  destruct (bool_decide (we_state e = workerEntryOffline)) eqn:Ho; [done|].
  destruct (bool_decide (we_state e = workerEntryTombstone)) eqn:Ht; [done|]. simpl.
  destruct (shouldGoOffline now e); [simpl|done]. apply bool_decide_eq_false in Ho, Ht.
  unfold MarkAsOffline. assert (bool_decide (we_state e = workerEntryCreated) || bool_decide (we_state e = workerEntryNormal) = true) as ->.
  { by destruct (we_state e). }
  unfold enqueueEvent. simpl. by rewrite bool_decide_eq_true_2.
Qed.

Lemma check_loop now order m :
  ptrs_ok m → NoDup order →
  (∀ id p e, workerEntries m !! id = Some p → wm_heap m !! p = Some e → we_state e ≠ workerEntryWait) →
  length (eventQueue m) + length order ≤ eventQueueCap →
  ∃ h', forM_ (checkWorkerEntry now) order m =
      (Done tt, set_queue (eventQueue m ++ check_events now m order) (set_heap h' m)) ∧
    heap_after m (after_check now) order h'.
Proof.
  revert m. induction order as [|id order IH]; intros m Hok Hnd Hw Hlen; cbn [forM_].
  { exists (wm_heap m). split; [|apply heap_after_nil]. unfold check_events. simpl. rewrite app_nil_r. by destruct m. }
  apply NoDup_cons in Hnd as [Hid Hnd]. simpl in Hlen. rewrite check_events_cons.
  destruct (workerEntries m !! id) as [p|] eqn:Hp.
  2:{ destruct (IH m) as (h' & Hrun & Hh); try done; [lia|]. exists h'. split.
      - unfold mbind, GoM_bind, checkWorkerEntry at 1. wm_unfold. rewrite Hp, Hrun.
        by rewrite check_events_one, Hp.
      - apply heap_after_skip; [done|congruence|done]. }
  destruct (Hok id p Hp) as (e & He & Hide).
  pose proof (checkWorkerEntry_eq now id p e m Hp He (Hw _ _ _ Hp He)) as Hstep.
  destruct (goes_offline now e) eqn:Hg.
  - set (m1 := set_queue _ _) in Hstep. destruct (IH m1) as (h' & Hrun & Hh); try done.
    + apply (ptrs_ok_store m p e); [done..|apply after_check_id].
    + intros id' p' e'. simpl. rewrite (heap_lookup_insert _ p e) by done. intros Hp' He'.
      case_decide; simplify_eq; [unfold after_check; by rewrite Hg|by eapply Hw].
    + simpl. rewrite length_app. simpl. lia.
    + exists h'. split.
      * unfold mbind, GoM_bind. rewrite Hstep by lia. rewrite Hrun.
        rewrite (check_events_ext now m m1); [|done|].
        { rewrite check_events_one, Hp, He, Hg. simpl. by rewrite <- app_assoc. }
        intros id' p' Hin Hp'. simpl. rewrite (heap_lookup_insert _ p e) by done. case_decide; [|done].
        subst. destruct (Hok id' p Hp') as (? & ? & ?). by simplify_eq.
      * by apply (heap_after_cons m (after_check now) id p e order h' m1);
          auto using after_check_id, after_check_idem.
  - destruct (IH m) as (h' & Hrun & Hh); try done; [lia|]. exists h'. split.
    + unfold mbind, GoM_bind. rewrite Hstep by lia. rewrite Hrun.
      by rewrite check_events_one, Hp, He, Hg.
    + apply heap_after_skip; [done| |done]. intros q e1 ? ?. simplify_eq. unfold after_check. by rewrite Hg.
Qed.

(** The event at the head of the queue is taken and delivered, unless its hook
    cancels it. *)
Lemma nextEvent_spec m ev q :
  wm_inv m → eventQueue m = ev :: q →
  ∃ o m', nextEvent m = (Done o, m') ∧ eventQueue m' = q ∧ (o = Some ev ∨ o = None ∧ cancellable ev = true).
Proof.
  intros Hinv Hq. pose proof (inv_update _ Hinv) as Hupd. rewrite Hq in Hupd. apply Forall_cons in Hupd as [Hv _].
  pose proof (inv_deliver_tombstone m ev q) as Hdel.
  unfold nextEvent, cancellable, hook_valid, tomb_ptr in *. rewrite Hq.
  destruct (ev_beforeHook ev) as [|id|p st|p]; simpl; wm_unfold; simpl.
  - eexists (Some ev), _. split_and!; [done..|by left].
  - eexists (Some ev), _. split_and!; [done..|by left].
  - destruct Hv as [e ->]. destruct (IsTombstone e); simpl.
    + eexists None, _. split_and!; [done..|by right].
    + eexists (Some ev), _. split_and!; [done..|by left].
  - destruct (Hdel p Hinv Hq eq_refl) as (e & -> & -> & _). simpl.
    eexists (Some ev), _. split_and!; [done..|by left].
Qed.

(** A round of [Tick] with the recording callbacks. *)
Lemma Tick_loop_recording fuel m l :
  wm_inv m → length (eventQueue m) < fuel →
  ∃ log m', Tick_loop recording fuel (m, l) = (Done tt, (m', l ++ map call_of log)) ∧
    wm_trace m log m' ∧ eventQueue m' = [] ∧
    log `sublist_of` eventQueue m ∧ filter (λ ev, cancellable ev = false) log = filter (λ ev, cancellable ev = false) (eventQueue m).
Proof.
  revert m l. induction fuel as [|fuel IH]; intros m l Hinv Hlen; [lia|]. cbn [Tick_loop].
  destruct (eventQueue m) as [|ev q] eqn:Hq.
  { exists [], m. rewrite app_nil_r. split_and!; try done. constructor. }
  pose proof (run_op_safe op_deliver m Hinv I) as [Hnp Hinv'].
  pose proof (tr_step m op_deliver) as Htr. simpl in Hnp, Hinv', Htr.
  destruct (nextEvent_spec m ev q Hinv Hq) as (o & m' & Hn & Hq' & Ho).
  unfold mbind, GoM_bind in Hinv', Htr. rewrite Hn in *. simpl in Hinv', Htr.
  destruct Ho as [->|[-> Hc]].
  - assert (callback recording ev (m', l) = (Done tt, (m', l ++ [call_of ev]))) as ->.
    { unfold callback, call_of. by destruct (ev_Tp ev). }
    destruct (IH m' (l ++ [call_of ev])) as (log & m2 & Hrun & Hlog & He & Hsub & Hf); [done|simpl in Hlen; rewrite Hq'; lia|].
    rewrite <- app_assoc in Hrun. exists (ev :: log), m2. rewrite Hq' in *. split_and!; [exact Hrun| |done| |].
    + by apply Htr. + by constructor. + rewrite !filter_cons. by rewrite Hf.
  - destruct (IH m' l) as (log & m2 & Hrun & Hlog & He & Hsub & Hf); [done|simpl in Hlen; rewrite Hq'; lia|].
    exists log, m2. rewrite Hq' in *. split_and!; [exact Hrun| |done| |].
    + by apply Htr. + by constructor. + rewrite filter_cons, decide_False by congruence. done.
Qed.

(** ** Properties *)

(** C1: no operation on a reachable manager panics as long as the callers keep
    their side (fresh worker ids, no later epochs, one recovery, tombstones
    only cleaned): illegal entry transitions and a double close of the ready
    channel are impossible; and the invariant is kept. *)
Theorem worker_manager_never_panics m op :
  wm_reachable m → op_pre op m → (run_op op m).1 ≠ Panic ∧ wm_inv (run_op op m).2.
Proof. intros Hr%wm_reachable_inv Hpre. by apply run_op_safe. Qed.

(** C16: along any run, the offline event of a worker entry is delivered to the
    master at most once. *)
Theorem offline_delivered_once m log m' :
  wm_reachable m → wm_trace m log m' → NoDup (tomb_ptrs log).
Proof. intros Hr%wm_reachable_inv Ht. by eapply wm_trace_once. Qed.

(** C24: with room in the event queue, a round of the background checker of a
    ready manager marks offline exactly the live entries that have timed out or
    announced their end, and queues one offline event for each, in order, with
    the error its status calls for. *)
Theorem background_check_exact m now order :
  wm_reachable m → wm_state m = workerManagerReady → iter_order (workerEntries m) order →
  length (eventQueue m) + length order ≤ eventQueueCap →
  ∃ h', backgroundCheck now order m =
      (Done tt, set_queue (eventQueue m ++ check_events now m order) (set_heap h' m)) ∧
    heap_after m (after_check now) order h'.
Proof.
  intros Hr%wm_reachable_inv Hst Ho Hlen.
  destruct (check_loop now order m) as (h' & Hrun & Hh); [exact (inv_ptr _ Hr)|by eapply iter_order_NoDup| |done|].
  { apply (inv_wait _ Hr). by left. }
  exists h'. split; [|done]. unfold backgroundCheck, reporting, checkWorkerEntriesOnce. unfold mbind, GoM_bind, get.
  rewrite bool_decide_eq_true_2 by done. simpl. by rewrite Hrun.
Qed.

(** C23: the end of a recovery always succeeds: it turns exactly the workers that
    sent no heartbeat, or announced their end, into tombstones, keeps the
    others, and leaves the manager ready. *)
Theorem recovery_decides_every_worker m order :
  wm_reachable m → wm_state m = workerManagerWaitingHeartbeat → iter_order (workerEntries m) order →
  ∃ h', InitAfterRecover_finish order m = (Done tt, set_wm_state workerManagerReady (set_heap h' m)) ∧
    ∀ id p e, workerEntries m !! id = Some p → wm_heap m !! p = Some e → h' !! p = Some (after_recover e).
Proof.
  intros Hr%wm_reachable_inv Hst Ho. destruct (InitAfterRecover_finish_run order m) as (h' & Hrun & Hh).
  { exact (inv_ptr _ Hr). }
  exists h'. split; [done|]. intros id p e Hp He. rewrite (Hh p), He.
  destruct (inv_ptr _ Hr id p Hp) as (? & ? & ?). simplify_eq. cbn [fmap option_fmap option_map].
  rewrite decide_True; [done|]. split; [|done]. apply (iter_order_elem _ _ _ Ho). by eexists.
Qed.

(** One [Tick] empties the queue and calls the callbacks in the order in
    which the events were queued; only status updates of tombstones are
    dropped. *)
Theorem tick_delivers_in_order m fuel :
  wm_reachable m → wm_err m = None → length (eventQueue m) < fuel →
  ∃ log m', Tick recording fuel (m, []) = (Done tt, (m', map call_of log)) ∧
    wm_trace m log m' ∧ eventQueue m' = [] ∧ log `sublist_of` eventQueue m ∧
    filter (λ ev, cancellable ev = false) log = filter (λ ev, cancellable ev = false) (eventQueue m).
Proof.
  intros Hr%wm_reachable_inv Herr Hlen. unfold Tick. rewrite Herr.
  destruct (Tick_loop_recording fuel m [] Hr Hlen) as (log & m' & H & ?). by exists log, m'.
Qed.

Module Witness.

Definition m0 : WorkerManager := NewWorkerManager "master" 1 true DefaultTimeoutConfig.
Definition start_w1 : wm_op := op_before_starting 0 "w1" "ex1".
Definition m1 : WorkerManager := (run_op start_w1 m0).2.
Definition ping_w1 : wm_op := op_heartbeat 5 (mkPing 5 "w1" 1 false) "ex1".
Definition m2 : WorkerManager := (run_op ping_w1 m1).2.
Definition check_w1 : wm_op := op_check (100 * Second) ["w1"].
Definition m3 : WorkerManager := (run_op check_w1 m2).2.
Definition r0 : WorkerManager := NewWorkerManager "master" 2 false DefaultTimeoutConfig.
Definition load_w1 : wm_op := op_load (Done [mkWorkerStatus "p" "master" "w1" 0 WorkerStatusNormal "" ""]) ["w1"].
Definition r1 : WorkerManager := (run_op load_w1 r0).2.

Lemma step_reachable m op : wm_reachable m → op_pre op m → wm_reachable (run_op op m).2.
Proof.
  intros (id & ep & b & t & Hr) Hpre. exists id, ep, b, t. eapply rtc_r; [exact Hr|]. by constructor.
Defined.

Lemma m2_reachable : wm_reachable m2.
Proof.
  apply step_reachable; [apply step_reachable|].
  - exists "master", 1%Z, true, DefaultTimeoutConfig. apply rtc_refl.
  - reflexivity.
  - vm_compute. discriminate.
Defined.

Lemma m3_reachable : wm_reachable m3.
Proof. apply step_reachable; [apply m2_reachable|exact I]. Defined.

Lemma r1_reachable : wm_reachable r1.
Proof.
  apply step_reachable; [exists "master", 2%Z, false, DefaultTimeoutConfig; apply rtc_refl|].
  split; [reflexivity|discriminate].
Defined.

Lemma worker_manager_never_panics_witness :
  (run_op op_deliver m3).1 ≠ Panic ∧ wm_inv (run_op op_deliver m3).2.
Proof. apply worker_manager_never_panics; [apply m3_reachable|exact I]. Defined.

Lemma offline_delivered_once_witness :
  NoDup (tomb_ptrs (delivered op_deliver m3 ++ delivered op_deliver (run_op op_deliver m3).2 ++ [])).
Proof.
  eapply offline_delivered_once; [apply m3_reachable|].
  apply tr_step; [exact I|]. apply tr_step; [exact I|]. apply tr_nil.
Defined.

Lemma background_check_exact_witness :
  ∃ h', backgroundCheck (100 * Second) ["w1"] m2 =
      (Done tt, set_queue (eventQueue m2 ++ check_events (100 * Second) m2 ["w1"]) (set_heap h' m2)) ∧
    heap_after m2 (after_check (100 * Second)) ["w1"] h'.
Proof.
  apply background_check_exact.
  - apply m2_reachable.
  - reflexivity.
  - by apply iter_order_eq.
  - apply Nat.leb_le. vm_compute. reflexivity.
Defined.

Lemma recovery_decides_every_worker_witness :
  ∃ h', InitAfterRecover_finish ["w1"] r1 = (Done tt, set_wm_state workerManagerReady (set_heap h' r1)) ∧
    ∀ id p e, workerEntries r1 !! id = Some p → wm_heap r1 !! p = Some e → h' !! p = Some (after_recover e).
Proof.
  apply recovery_decides_every_worker.
  - apply r1_reachable.
  - reflexivity.
  - by apply iter_order_eq.
Defined.

Lemma tick_delivers_in_order_witness :
  ∃ log m', Tick recording 3 (m3, []) = (Done tt, (m', map call_of log)) ∧
    wm_trace m3 log m' ∧ eventQueue m' = [] ∧ log `sublist_of` eventQueue m3 ∧
    filter (λ ev, cancellable ev = false) log = filter (λ ev, cancellable ev = false) (eventQueue m3).
Proof.
  apply tick_delivers_in_order.
  - apply m3_reachable.
  - reflexivity.
  - apply Nat.ltb_lt. vm_compute. reflexivity.
Defined.

End Witness.
