(* ===== verification/TaskRunner.v ===== *)
(** * The task runner of an executor ([executor/worker/task_runner.go],
    [executor/worker/internal/runnables.go])

    The runner takes tasks from a bounded queue and starts one goroutine per
    task. A goroutine initialises the task while it holds one unit of the
    initialisation quota, polls it until it ends, closes it, removes it from the
    task table and decrements the task count. Each of these is one step of the
    model, so the steps of different goroutines interleave. What a task's own
    [Init], [Poll] and [Close] return is an argument of the steps. *)

From S2P Require Import Prelude Errors Model.

Abbreviation RunnableID := string.

(** ** Runnables *)

Record Runnable := mkRunnable {
  rn_ID : RunnableID;
  rn_Workload : option RescUnit;
}.

Inductive RunnableStatus : Type := TaskSubmitted | TaskRunning | TaskClosing.

#[global] Instance RunnableStatus_eq_dec : EqDecision RunnableStatus.
Proof. solve_decision. Defined.

Record RunnableContainer := mkRunnableContainer {
  rc_Runnable : Runnable;
  rc_status : RunnableStatus;
  rc_SubmitTime : Time;
}.

Definition rc_ID (c : RunnableContainer) : RunnableID := rn_ID (rc_Runnable c).

Definition WrapRunnable (runnable : Runnable) (submitTime : Time) : RunnableContainer :=
  {| rc_Runnable := runnable; rc_status := TaskSubmitted; rc_SubmitTime := submitTime |}.

Definition swap_status (c : RunnableContainer) (st : RunnableStatus) : RunnableContainer :=
  {| rc_Runnable := rc_Runnable c; rc_status := st; rc_SubmitTime := rc_SubmitTime c |}.

(** The status is swapped before it is checked; the flag tells whether the
    check passed. *)
Definition OnInitialized (c : RunnableContainer) : bool * RunnableContainer :=
  (bool_decide (rc_status c = TaskSubmitted), swap_status c TaskRunning).

Definition OnStopped (c : RunnableContainer) : bool * RunnableContainer :=
  (bool_decide (rc_status c = TaskRunning) || bool_decide (rc_status c = TaskSubmitted),
   swap_status c TaskClosing).

(** ** State *)

(** Where the goroutine of a task is: in [runInit], in [EventLoop], about to run
    the deferred close, or past it with only the counter left to decrement. *)
Inductive phase : Type := Initing | Looping | Closing | Exiting.

#[global] Instance phase_eq_dec : EqDecision phase.
Proof. solve_decision. Defined.

Record taskEntry := mkTaskEntry {
  te_container : RunnableContainer;
  te_phase : phase;
  te_cancelled : bool;
}.

Abbreviation gid := nat.

Record TaskRunner := mkTaskRunner {
  inQueue : list RunnableContainer;
  inQueueSize : nat;
  semaSize : Z;
  semaCur : Z;
  tasks : gmap RunnableID gid;
  goroutines : gmap gid taskEntry;
  nextGid : gid;
  cancelMuLocked : bool;
  canceled : bool;
  taskCount : Z;
}.

Definition NewTaskRunner (size : nat) (initConcurrency : Z) : TaskRunner :=
  {| inQueue := []; inQueueSize := size; semaSize := initConcurrency; semaCur := 0%Z; tasks := ∅;
     goroutines := ∅; nextGid := 0; cancelMuLocked := false; canceled := false; taskCount := 0%Z |}.

Definition set_inQueue (q : list RunnableContainer) (r : TaskRunner) : TaskRunner :=
  {| inQueue := q; inQueueSize := inQueueSize r; semaSize := semaSize r; semaCur := semaCur r; tasks := tasks r;
     goroutines := goroutines r; nextGid := nextGid r; cancelMuLocked := cancelMuLocked r;
     canceled := canceled r; taskCount := taskCount r |}.
Definition set_sema (c : Z) (r : TaskRunner) : TaskRunner :=
  {| inQueue := inQueue r; inQueueSize := inQueueSize r; semaSize := semaSize r; semaCur := c; tasks := tasks r;
     goroutines := goroutines r; nextGid := nextGid r; cancelMuLocked := cancelMuLocked r;
     canceled := canceled r; taskCount := taskCount r |}.
Definition set_goroutines (gs : gmap gid taskEntry) (r : TaskRunner) : TaskRunner :=
  {| inQueue := inQueue r; inQueueSize := inQueueSize r; semaSize := semaSize r; semaCur := semaCur r; tasks := tasks r;
     goroutines := gs; nextGid := nextGid r; cancelMuLocked := cancelMuLocked r;
     canceled := canceled r; taskCount := taskCount r |}.

(** ** Adding tasks *)

Definition addWrappedTask (task : RunnableContainer) : Go TaskRunner unit := λ r,
  if bool_decide (length (inQueue r) < inQueueSize r)
  then (Done tt, set_inQueue (inQueue r ++ [task]) r)
  else (Fail (GoErr ErrRuntimeIncomingQueueFull ""), r).

Definition AddTask (now : Time) (task : Runnable) : Go TaskRunner unit :=
  addWrappedTask (WrapRunnable task now).

(** [semaphore.Weighted] with weight one: [Acquire] that cannot succeed before
    its deadline fails, [Release] of more than is held panics. *)
Definition Acquire : Go TaskRunner unit := λ r,
  if bool_decide (1 ≤ semaSize r - semaCur r)%Z then (Done tt, set_sema (semaCur r + 1) r)
  else (Fail (GoWrap ErrRuntimeInitQueuingTimeOut (ErrForeign "context deadline exceeded")), r).

Definition Release : Go TaskRunner unit := λ r,
  if bool_decide (semaCur r - 1 < 0)%Z then (Panic, r) else (Done tt, set_sema (semaCur r - 1) r).

(** [defer func() { if ret != nil { r.initQuotaSema.Release(...) } }()]. *)
Definition releasing_on_error (f : Go TaskRunner unit) : Go TaskRunner unit := λ r,
  match f r with
  | (Fail e, r') =>
      match Release r' with (Done _, r'') => (Fail e, r'') | out => out end
  | out => out
  end.

Definition launch (task : RunnableContainer) : Go TaskRunner unit := λ r,
  if canceled r then (Fail (GoErr ErrRuntimeClosed ""), r) else
  match tasks r !! rc_ID task with
  | Some _ => (Fail (GoErr ErrRuntimeDuplicateTaskID (rc_ID task)), r)
  | None =>
      (Done tt,
        {| inQueue := inQueue r; inQueueSize := inQueueSize r; semaSize := semaSize r; semaCur := semaCur r;
           tasks := <[rc_ID task := nextGid r]> (tasks r);
           goroutines := <[nextGid r := mkTaskEntry task Initing false]> (goroutines r);
           nextGid := S (nextGid r); cancelMuLocked := cancelMuLocked r; canceled := canceled r;
           taskCount := (taskCount r + 1)%Z |})
  end.

(** [cancelMu] is read-locked around [launch]; it must be free. *)
Definition onNewTask (task : RunnableContainer) : Go TaskRunner unit :=
  _ ← Acquire;
  releasing_on_error (launch task).

(** One round of [Run]: the error of a task that cannot be launched is logged. *)
Definition Run_step (r : TaskRunner) : option (res goerr unit * TaskRunner) :=
  match inQueue r with
  | [] => None
  | task :: q =>
      if cancelMuLocked r then None else
      Some (match onNewTask task (set_inQueue q r) with
            | (Fail _, r') => (Done tt, r')
            | out => out
            end)
  end.

(** ** The goroutine of a task *)

Definition set_entry (g : gid) (t : taskEntry) (r : TaskRunner) : TaskRunner :=
  set_goroutines (<[g := t]> (goroutines r)) r.

(** [runInit]: [initErr] is the error or the panic of [t.Init], if any. The
    quota is released on every path. *)
Definition initStep (g : gid) (initErr : option string) : Go TaskRunner unit := λ r,
  match goroutines r !! g with
  | Some t =>
      match te_phase t with
      | Initing =>
          let t' :=
            match initErr with
            | Some _ => mkTaskEntry (te_container t) Closing (te_cancelled t)
            | None =>
                match OnInitialized (te_container t) with
                | (true, c) => mkTaskEntry c Looping (te_cancelled t)
                | (false, c) => mkTaskEntry c Closing (te_cancelled t)
                end
            end in
          Release (set_entry g t' r)
      | _ => (Done tt, r)
      end
  | None => (Done tt, r)
  end.

(** [EventLoop] returns: its context is cancelled or [Poll] failed. *)
Definition loopEnd (g : gid) : Go TaskRunner unit := λ r,
  match goroutines r !! g with
  | Some t =>
      match te_phase t with
      | Looping => (Done tt, set_entry g (mkTaskEntry (te_container t) Closing (te_cancelled t)) r)
      | _ => (Done tt, r)
      end
  | None => (Done tt, r)
  end.

(** The deferred close. *)
Definition closeStep (g : gid) : Go TaskRunner unit := λ r,
  match goroutines r !! g with
  | Some t =>
      match te_phase t with
      | Closing =>
          match OnStopped (te_container t) with
          | (false, _) => (Panic, r)
          | (true, c) =>
              match tasks r !! rc_ID c with
              | None => (Panic, r)
              | Some _ =>
                  (Done tt,
                    {| inQueue := inQueue r; inQueueSize := inQueueSize r; semaSize := semaSize r; semaCur := semaCur r;
                       tasks := delete (rc_ID c) (tasks r);
                       goroutines := <[g := mkTaskEntry c Exiting (te_cancelled t)]> (goroutines r);
                       nextGid := nextGid r; cancelMuLocked := cancelMuLocked r; canceled := canceled r;
                       taskCount := taskCount r |})
              end
          end
      | _ => (Done tt, r)
      end
  | None => (Done tt, r)
  end.

(** [r.taskCount.Dec()], [r.wg.Done()]. *)
Definition exitStep (g : gid) : Go TaskRunner unit := λ r,
  match goroutines r !! g with
  | Some t =>
      match te_phase t with
      | Exiting =>
          (Done tt,
            {| inQueue := inQueue r; inQueueSize := inQueueSize r; semaSize := semaSize r; semaCur := semaCur r;
               tasks := tasks r; goroutines := delete g (goroutines r); nextGid := nextGid r;
               cancelMuLocked := cancelMuLocked r; canceled := canceled r; taskCount := (taskCount r - 1)%Z |})
      | _ => (Done tt, r)
      end
  | None => (Done tt, r)
  end.

(** ** Cancellation *)

Definition cancel_entry (ts : gmap RunnableID gid) (g : gid) (t : taskEntry) : taskEntry :=
  if bool_decide (ts !! rc_ID (te_container t) = Some g)
  then mkTaskEntry (te_container t) (te_phase t) true else t.

(** [None] is a call that blocks on the mutex for ever. On an already cancelled
    runner the source returns without unlocking. *)
Definition cancelAll (r : TaskRunner) : option TaskRunner :=
  if cancelMuLocked r then None
  else if canceled r then
    Some {| inQueue := inQueue r; inQueueSize := inQueueSize r; semaSize := semaSize r; semaCur := semaCur r; tasks := tasks r;
            goroutines := goroutines r; nextGid := nextGid r; cancelMuLocked := true;
            canceled := canceled r; taskCount := taskCount r |}
  else
    Some {| inQueue := inQueue r; inQueueSize := inQueueSize r; semaSize := semaSize r; semaCur := semaCur r; tasks := tasks r;
            goroutines := map_imap (λ g t, Some (cancel_entry (tasks r) g t)) (goroutines r);
            nextGid := nextGid r; cancelMuLocked := false; canceled := true; taskCount := taskCount r |}.

(** ** Workload *)

(** The sum, at the width of [RescUnit], over the running tasks that report a
    workload, in the order [order] of the table. *)
Definition task_workload (r : TaskRunner) (id : RunnableID) : RescUnit :=
  match tasks r !! id with
  | None => 0
  | Some g =>
      match goroutines r !! g with
      | None => 0
      | Some t =>
          if bool_decide (rc_status (te_container t) = TaskRunning)
          then default 0%Z (rn_Workload (rc_Runnable (te_container t))) else 0
      end
  end%Z.

Definition Workload (order : list RunnableID) (r : TaskRunner) : RescUnit :=
  foldl (λ ret id, int64 (ret + task_workload r id)) 0%Z order.

Definition TaskCount (r : TaskRunner) : Z := taskCount r.

(** ** Specification *)

(** The goroutines that hold a unit of the initialisation quota. *)
Definition initing (gs : gmap gid taskEntry) : gmap gid taskEntry :=
  filter (λ kv, te_phase kv.2 = Initing) gs.

Definition status_matches (t : taskEntry) : Prop :=
  match te_phase t with
  | Initing => rc_status (te_container t) = TaskSubmitted
  | Looping => rc_status (te_container t) = TaskRunning
  | Closing => rc_status (te_container t) ≠ TaskClosing
  | Exiting => rc_status (te_container t) = TaskClosing
  end.

(** The quota in use is the number of tasks being initialised; the table maps a
    task id to the one goroutine that has not closed that task yet; the count is
    the number of goroutines. *)
Record tr_inv (r : TaskRunner) : Prop := {
  ti_sema : semaCur r = Z.of_nat (size (initing (goroutines r)));
  ti_size : (0 ≤ semaSize r → semaCur r ≤ semaSize r)%Z;
  ti_tasks : ∀ id g, tasks r !! id = Some g ↔
    ∃ t, goroutines r !! g = Some t ∧ rc_ID (te_container t) = id ∧ te_phase t ≠ Exiting;
  ti_status : ∀ g t, goroutines r !! g = Some t → status_matches t;
  ti_count : taskCount r = Z.of_nat (size (goroutines r));
  ti_fresh : ∀ g t, goroutines r !! g = Some t → g < nextGid r;
  ti_queue : length (inQueue r) ≤ inQueueSize r;
  ti_new : Forall (λ c, rc_status c = TaskSubmitted) (inQueue r);
}.

Inductive tr_step (r : TaskRunner) : res goerr unit → TaskRunner → Prop :=
| ts_add now task : tr_step r (AddTask now task r).1 (AddTask now task r).2
| ts_run out : Run_step r = Some out → tr_step r out.1 out.2
| ts_init g err : tr_step r (initStep g err r).1 (initStep g err r).2
| ts_loop_end g : tr_step r (loopEnd g r).1 (loopEnd g r).2
| ts_close g : tr_step r (closeStep g r).1 (closeStep g r).2
| ts_exit g : tr_step r (exitStep g r).1 (exitStep g r).2
| ts_cancel r' : cancelAll r = Some r' → tr_step r (Done tt) r'.

Definition tr_next (r r' : TaskRunner) : Prop := ∃ out, tr_step r out r'.
Definition tr_reachable (r : TaskRunner) : Prop := ∃ n k, (0 ≤ k)%Z ∧ rtc tr_next (NewTaskRunner n k) r.

(** ** Lemmas *)

Lemma initing_insert_new gs g t :
  gs !! g = None → te_phase t = Initing → size (initing (<[g := t]> gs)) = S (size (initing gs)).
Proof.
  intros Hg Ht. unfold initing. rewrite map_filter_insert_True by done.
  apply map_size_insert_None. rewrite map_lookup_filter, Hg. done.
Qed.

Lemma initing_insert_leave gs g t t' :
  gs !! g = Some t → te_phase t = Initing → te_phase t' ≠ Initing →
  size (initing gs) = S (size (initing (<[g := t']> gs))).
Proof.
  intros Hg Ht Ht'. unfold initing. rewrite map_filter_insert_False by done.
  rewrite map_filter_delete. assert (initing gs !! g = Some t) as Hin.
  { unfold initing. rewrite map_lookup_filter, Hg. simpl. by rewrite option_guard_True. }
  unfold initing in Hin. rewrite map_size_delete_Some by eauto.
  assert (size (filter (λ kv, te_phase kv.2 = Initing) gs) ≠ 0); [|lia].
  intros H0%map_size_empty_inv. by rewrite H0 in Hin.
Qed.

Lemma initing_delete gs g t :
  gs !! g = Some t → te_phase t ≠ Initing → initing (delete g gs) = initing gs.
Proof.
  intros Hg Ht. unfold initing. rewrite map_filter_delete. apply delete_id.
  rewrite map_lookup_filter, Hg. simpl. by rewrite option_guard_False.
Qed.

Lemma initing_insert_other gs g t t' :
  gs !! g = Some t → te_phase t ≠ Initing → te_phase t' ≠ Initing → initing (<[g := t']> gs) = initing gs.
Proof.
  intros Hg Ht Ht'. unfold initing at 1. rewrite map_filter_insert_False by done. by apply (initing_delete _ _ t).
Qed.

Lemma NewTaskRunner_inv n k : (0 ≤ k)%Z → tr_inv (NewTaskRunner n k).
Proof.
  intros Hk. split; simpl; try done; try lia.
  intros id g. split; [by rewrite lookup_empty|]. intros (t & Ht & _). by rewrite lookup_empty in Ht.
Qed.

(** A goroutine's entry changes while it keeps its task and has not closed it. *)
Lemma tasks_insert r g t t' :
  (∀ id k, tasks r !! id = Some k ↔ ∃ t, goroutines r !! k = Some t ∧ rc_ID (te_container t) = id ∧ te_phase t ≠ Exiting) →
  goroutines r !! g = Some t → rc_ID (te_container t') = rc_ID (te_container t) →
  te_phase t ≠ Exiting → te_phase t' ≠ Exiting →
  ∀ id k, tasks r !! id = Some k ↔
    ∃ t0, <[g := t']> (goroutines r) !! k = Some t0 ∧ rc_ID (te_container t0) = id ∧ te_phase t0 ≠ Exiting.
Proof.
  intros Ht Hg Hid Hp Hp' id k. rewrite Ht. destruct (decide (g = k)) as [<-|Hne].
  - rewrite lookup_insert_eq, Hg. naive_solver.
  - by rewrite lookup_insert_ne.
Qed.

Lemma addWrappedTask_inv c r :
  tr_inv r → rc_status c = TaskSubmitted → (addWrappedTask c r).1 ≠ Panic ∧ tr_inv (addWrappedTask c r).2.
Proof.
  intros [Hs Hsz Ht Hst Hc Hf Hq Hn] Hsub. unfold addWrappedTask. case_bool_decide; simpl; split; try done.
  split; simpl; try done; [rewrite length_app; simpl; lia|]. apply Forall_app. by rewrite Forall_singleton.
Qed.

Lemma launch_inv task r :
  tr_inv r → rc_status task = TaskSubmitted → (1 ≤ semaSize r - semaCur r)%Z →
  let out := releasing_on_error (launch task) (set_sema (semaCur r + 1) r) in
  out.1 ≠ Panic ∧ tr_inv out.2.
Proof.
  intros Hinv Hsub Hroom. assert (0 ≤ semaCur r)%Z as Hpos by (rewrite (ti_sema _ Hinv); lia).
  assert (∀ e, match Release (set_sema (semaCur r + 1) r) with
     | (Done _, r'') => (@Fail goerr unit e, r'') | out => out end = (Fail e, r)) as Hrel.
  { intros e. unfold Release; simpl. rewrite bool_decide_eq_false_2 by lia. f_equal. unfold set_sema. destruct r; simpl in *. f_equal. lia. }
  unfold releasing_on_error, launch. simpl. destruct (canceled r); [by rewrite Hrel|].
  destruct (tasks r !! rc_ID task) as [g|] eqn:Hid; [by rewrite Hrel|]. simpl. split; [done|].
  destruct Hinv as [Hs Hsz Ht Hst Hc Hf Hq Hn].
  assert (goroutines r !! nextGid r = None) as Hnew.
  { destruct (goroutines r !! nextGid r) as [t|] eqn:Hg; [|done]. apply Hf in Hg. lia. }
  split; simpl; try done.
  - rewrite initing_insert_new by done. lia.
  - lia.
  - intros id g. destruct (decide (g = nextGid r)) as [->|Hne].
    + rewrite lookup_insert_eq. split.
      * rewrite lookup_insert. case_decide; intros ?; simplify_eq; [eauto|].
        apply Ht in H0 as (t & Hg & _). congruence.
      * intros (t & ? & <- & ?). simplify_eq. by rewrite lookup_insert_eq.
    + rewrite (lookup_insert_ne (goroutines r)) by done. rewrite <- Ht. destruct (decide (id = rc_ID task)) as [->|Hne'].
      * rewrite lookup_insert_eq, Hid. naive_solver.
      * by rewrite lookup_insert_ne.
  - intros g t. rewrite lookup_insert. case_decide; intros ?; simplify_eq; [done|by eapply Hst].
  - rewrite map_size_insert_None by done. lia.
  - intros g t. rewrite lookup_insert. case_decide; intros Hg; simplify_eq; [lia|]. apply Hf in Hg. lia.
Qed.

Lemma Run_step_inv r out : tr_inv r → Run_step r = Some out → out.1 ≠ Panic ∧ tr_inv out.2.
Proof.
  intros Hinv. unfold Run_step. destruct (inQueue r) as [|task q] eqn:Hq; [done|].
  destruct (cancelMuLocked r); [done|]. intros [= <-].
  assert (tr_inv (set_inQueue q r) ∧ rc_status task = TaskSubmitted) as [Hinv' Hsub].
  { destruct Hinv as [Hs Hsz Ht Hst Hc Hf Hql Hn]. rewrite Hq in *. apply Forall_cons in Hn as [??].
    split; [|done]. split; simpl in *; try done. lia. }
  unfold onNewTask, mbind, GoM_bind, Acquire. case_bool_decide as Hroom; simpl; [|done].
  pose proof (launch_inv task (set_inQueue q r) Hinv' Hsub Hroom) as Hl. simpl in Hl.
  destruct (releasing_on_error _ _) as [[?|?|] r']; simpl in *; naive_solver.
Qed.

Lemma initStep_inv g err r : tr_inv r → (initStep g err r).1 ≠ Panic ∧ tr_inv (initStep g err r).2.
Proof.
  intros Hinv. unfold initStep. destruct (goroutines r !! g) as [t|] eqn:Hg; [|done].
  destruct (te_phase t) eqn:Hp; [|done..].
  set (t' := match err with Some _ => _ | None => _ end).
  assert (rc_ID (te_container t') = rc_ID (te_container t) ∧ te_phase t' ≠ Exiting ∧ te_phase t' ≠ Initing ∧
          status_matches t') as (Hid & Hne & Hni & Hsm).
  { pose proof (ti_status _ Hinv g t Hg) as Hs. unfold status_matches in *. rewrite Hp in Hs. unfold t', OnInitialized.
    destruct err; simpl; [by rewrite Hs|]. by rewrite bool_decide_eq_true_2. }
  clearbody t'. destruct Hinv as [Hs Hsz Ht Hst Hc Hf Hq Hn].
  pose proof (initing_insert_leave _ g t t' Hg Hp Hni) as Hleave.
  unfold Release; simpl. rewrite bool_decide_eq_false_2 by lia. simpl. split; [done|].
  split; simpl; try done; try lia.
  - apply (tasks_insert r g t t'); try done. congruence.
  - intros k t0. rewrite lookup_insert. case_decide; intros ?; simplify_eq; [done|by eapply Hst].
  - by rewrite map_size_insert_Some by eauto.
  - intros k t0. rewrite lookup_insert. case_decide; intros ?; simplify_eq; by eapply Hf.
Qed.

Lemma loopEnd_inv g r : tr_inv r → (loopEnd g r).1 ≠ Panic ∧ tr_inv (loopEnd g r).2.
Proof.
  intros Hinv. unfold loopEnd. destruct (goroutines r !! g) as [t|] eqn:Hg; [|done].
  destruct (te_phase t) eqn:Hp; [done| |done|done]. simpl. split; [done|].
  pose proof (ti_status _ Hinv g t Hg) as Hsm. unfold status_matches in Hsm. rewrite Hp in Hsm.
  destruct Hinv as [Hs Hsz Ht Hst Hc Hf Hq Hn]. split; simpl; try done.
  - by rewrite (initing_insert_other _ g t) by (simpl; congruence).
  - apply (tasks_insert r g t); try done. congruence.
  - intros k t0. rewrite lookup_insert. case_decide; intros ?; simplify_eq; [|by eapply Hst].
    unfold status_matches; simpl. congruence.
  - by rewrite map_size_insert_Some by eauto.
  - intros k t0. rewrite lookup_insert. case_decide; intros ?; simplify_eq; by eapply Hf.
Qed.

Lemma closeStep_inv g r : tr_inv r → (closeStep g r).1 ≠ Panic ∧ tr_inv (closeStep g r).2.
Proof.
  intros Hinv. unfold closeStep. destruct (goroutines r !! g) as [t|] eqn:Hg; [|done].
  destruct (te_phase t) eqn:Hp; [done|done| |done].
  pose proof (ti_status _ Hinv g t Hg) as Hsm. unfold status_matches in Hsm. rewrite Hp in Hsm.
  destruct Hinv as [Hs Hsz Ht Hst Hc Hf Hq Hn].
  assert (tasks r !! rc_ID (te_container t) = Some g) as Htg.
  { apply Ht. exists t. by rewrite Hp. }
  unfold OnStopped. assert (bool_decide (rc_status (te_container t) = TaskRunning) ||
    bool_decide (rc_status (te_container t) = TaskSubmitted) = true) as -> by (by destruct (rc_status (te_container t))).
  change (rc_ID (swap_status (te_container t) TaskClosing)) with (rc_ID (te_container t)). rewrite Htg. simpl. split; [done|].
  split; simpl; try done.
  - by rewrite (initing_insert_other _ g t) by (simpl; congruence).
  - intros id k. destruct (decide (k = g)) as [->|Hne].
    + rewrite lookup_insert_eq. split; [|by intros (t0 & ? & ? & ?); simplify_eq].
      rewrite lookup_delete. case_decide as Hid; [done|]. intros (t0 & ? & ? & ?)%Ht. simplify_eq.
    + rewrite lookup_insert_ne by done. rewrite <- Ht. rewrite lookup_delete. case_decide as Hid; [|done].
      subst id. rewrite Htg. naive_solver.
  - intros k t0. rewrite lookup_insert. case_decide; intros ?; simplify_eq; [done|by eapply Hst].
  - by rewrite map_size_insert_Some by eauto.
  - intros k t0. rewrite lookup_insert. case_decide; intros ?; simplify_eq; by eapply Hf.
Qed.

Lemma exitStep_inv g r : tr_inv r → (exitStep g r).1 ≠ Panic ∧ tr_inv (exitStep g r).2.
Proof.
  intros Hinv. unfold exitStep. destruct (goroutines r !! g) as [t|] eqn:Hg; [|done].
  destruct (te_phase t) eqn:Hp; [done..|]. simpl. split; [done|].
  destruct Hinv as [Hs Hsz Ht Hst Hc Hf Hq Hn]. split; simpl; try done.
  - by rewrite (initing_delete _ g t) by (simpl; congruence).
  - intros id k. rewrite Ht. destruct (decide (k = g)) as [->|Hne]; [|by rewrite lookup_delete_ne].
    rewrite lookup_delete_eq, Hg. naive_solver.
  - intros k t0. rewrite lookup_delete. case_decide; [done|]. apply Hst.
  - rewrite map_size_delete_Some by eauto. assert (size (goroutines r) ≠ 0); [|lia].
    intros H0%map_size_empty_inv. by rewrite H0 in Hg.
  - intros k t0. rewrite lookup_delete. case_decide; [done|]. apply Hf.
Qed.

Lemma cancel_entry_fields ts g t :
  te_container (cancel_entry ts g t) = te_container t ∧ te_phase (cancel_entry ts g t) = te_phase t.
Proof. unfold cancel_entry. by case_bool_decide. Qed.

Lemma cancel_lookup ts (gs : gmap gid taskEntry) g :
  map_imap (λ g t, Some (cancel_entry ts g t)) gs !! g = cancel_entry ts g <$> gs !! g.
Proof. rewrite map_lookup_imap. by destruct (gs !! g). Qed.

Lemma map_imap_Some_size {K V} `{Countable K} (f : K → V → V) (m : gmap K V) :
  size (map_imap (λ k v, Some (f k v)) m) = size m.
Proof.
  rewrite <- !size_dom. f_equal. apply set_eq. intros k. rewrite !elem_of_dom, map_lookup_imap.
  destruct (m !! k); simpl; split; intros [? ?]; try done; eauto.
Qed.

Lemma initing_cancel ts gs :
  size (initing (map_imap (λ g t, Some (cancel_entry ts g t)) gs)) = size (initing gs).
Proof.
  rewrite <- !size_dom. f_equal. apply set_eq. intros g. rewrite !elem_of_dom. unfold initing.
  rewrite !map_lookup_filter, cancel_lookup. destruct (gs !! g) as [t|]; simpl; [|done].
  destruct (cancel_entry_fields ts g t) as [_ Hp]. destruct (decide (te_phase t = Initing)) as [Hi|Hi].
  - rewrite !option_guard_True by (simpl; congruence). split; eauto.
  - rewrite !option_guard_False by (simpl; congruence). done.
Qed.

Lemma cancelAll_inv r r' : tr_inv r → cancelAll r = Some r' → tr_inv r'.
Proof.
  intros [Hs Hsz Ht Hst Hc Hf Hq Hn]. unfold cancelAll. destruct (cancelMuLocked r); [done|].
  destruct (canceled r); intros [= <-]; split; simpl; try done.
  - by rewrite initing_cancel.
  - intros id g. rewrite Ht, cancel_lookup. destruct (goroutines r !! g) as [t|]; simpl; [|naive_solver].
    destruct (cancel_entry_fields (tasks r) g t) as [Hco Hp]. split.
    + intros (? & ? & ? & ?). simplify_eq. eexists; split; [done|]. by rewrite Hco, Hp.
    + intros (? & ? & Hid & Hne). simplify_eq. rewrite Hco, Hp in *. eauto.
  - intros g t'. rewrite cancel_lookup. destruct (goroutines r !! g) as [t|] eqn:Hg; [|done]. intros [= <-].
    destruct (cancel_entry_fields (tasks r) g t) as [Hco Hp]. unfold status_matches. rewrite Hco, Hp. by apply (Hst g).
  - by rewrite map_imap_Some_size.
  - intros g t'. rewrite cancel_lookup. destruct (goroutines r !! g) as [t|] eqn:Hg; [|done]. intros _. by eapply Hf.
Qed.

Lemma tr_step_inv r out r' : tr_inv r → tr_step r out r' → out ≠ Panic ∧ tr_inv r'.
Proof.
  intros Hinv Hstep. destruct Hstep as [now task|out Hrun|g err|g|g|g|r' Hc].
  - by apply addWrappedTask_inv.
  - by eapply Run_step_inv.
  - by apply initStep_inv.
  - by apply loopEnd_inv.
  - by apply closeStep_inv.
  - by apply exitStep_inv.
  - split; [done|]. by eapply cancelAll_inv.
Qed.

Lemma tr_reachable_inv r : tr_reachable r → tr_inv r.
Proof.
  intros (n & k & Hk & Hr). pose proof (NewTaskRunner_inv n k Hk) as Hinv.
  induction Hr as [x|x y z [out Hxy] _ IH]; [done|]. apply IH. by eapply tr_step_inv.
Qed.

Lemma int64_int64_add a b : int64 (int64 a + b) = int64 (a + b).
Proof.
  unfold int64, wrapS. f_equal. replace ((a + 2 ^ (64 - 1)) mod 2 ^ 64 - 2 ^ (64 - 1) + b + 2 ^ (64 - 1))%Z
    with ((a + 2 ^ (64 - 1)) mod 2 ^ 64 + b)%Z by lia.
  rewrite Zplus_mod_idemp_l. f_equal. lia.
Qed.

Lemma foldl_int64 {A} (f : A → Z) l z :
  foldl (λ ret x, int64 (ret + f x)) (int64 z) l = int64 (z + foldr (λ x acc, f x + acc) 0 l)%Z.
Proof.
  revert z. induction l as [|x l IH]; intros z; simpl; [by rewrite Z.add_0_r|].
  rewrite int64_int64_add, IH. f_equal. lia.
Qed.

(** ** Properties *)

(** C26: whatever the interleaving of task goroutines, [Run] and cancellation,
    no step of the runner panics: the quota is never over-released, statuses are
    never out of order and a task to be closed is always in the table. The
    quota in use stays the number of tasks being initialised, at most one open
    goroutine exists per task id, and the count is the number of goroutines. *)
Theorem task_runner_safe r out r' : tr_reachable r → tr_step r out r' → out ≠ Panic ∧ tr_inv r'.
Proof. intros Hr%tr_reachable_inv. by apply tr_step_inv. Qed.

(** When every goroutine has exited, nothing leaks: the whole quota is free
    again, the table is empty and the task count is zero. *)
Theorem task_runner_quiescent r :
  tr_reachable r → goroutines r = ∅ → semaCur r = 0%Z ∧ tasks r = ∅ ∧ TaskCount r = 0%Z.
Proof.
  intros [Hs Hsz Ht Hst Hc Hf Hq Hn]%tr_reachable_inv Hg. unfold TaskCount. rewrite Hs, Hc, Hg.
  split_and!; [done| |done]. apply map_eq. intros id. rewrite lookup_empty.
  destruct (tasks r !! id) as [g|] eqn:Hid; [|done]. apply Ht in Hid as (t & Hgt & _). by rewrite Hg in Hgt.
Qed.

(** [Workload] is the sum, modulo the width of the machine integer, of the
    workloads of the running tasks, in whatever order the table is ranged
    over. *)
Theorem workload_is_sum r order :
  iter_order (tasks r) order →
  Workload order r = int64 (foldr (λ id acc, task_workload r id + acc) 0 (map_to_list (tasks r)).*1)%Z.
Proof.
  intros Ho. unfold Workload. change 0%Z with (int64 0) at 1. rewrite foldl_int64, Z.add_0_l. f_equal.
  apply (foldr_permutation eq); [solve_proper|intros; simpl; lia|exact Ho].
Qed.

(** A second [cancelAll] returns with the mutex still locked, after which
    neither another [cancelAll] nor the launch of a task ever returns. *)
Theorem second_cancel_deadlocks r r1 r2 :
  cancelAll r = Some r1 → cancelAll r1 = Some r2 → cancelAll r2 = None ∧ Run_step r2 = None.
Proof.
  unfold cancelAll at 1 2. destruct (cancelMuLocked r); [done|].
  destruct (canceled r) eqn:Hc; intros [= <-]; simpl; [done|]. intros [= <-]. split; [done|].
  unfold Run_step; simpl. by destruct (inQueue r).
Qed.

Module Witness.

Definition r0 : TaskRunner := NewTaskRunner 4 2.
Definition t1 : Runnable := mkRunnable "task1" (Some 7%Z).
Definition r1 : TaskRunner := (AddTask 10 t1 r0).2.
Definition r2 : TaskRunner := (default (Done tt, r1) (Run_step r1)).2.
Definition r3 : TaskRunner := (initStep 0 None r2).2.

Lemma r2_reachable : tr_reachable r2.
Proof.
  exists 4, 2%Z. split; [lia|]. apply (rtc_l _ _ r1); [exists (Done tt); apply (ts_add r0 10 t1)|].
  eapply rtc_l; [|apply rtc_refl]. exists (Done tt). by apply (ts_run r1 (Done tt, r2)).
Defined.

Lemma r0_reachable : tr_reachable r0.
Proof. exists 4, 2%Z. split; [lia|apply rtc_refl]. Defined.

Lemma task_runner_safe_witness : (initStep 0 None r2).1 ≠ Panic ∧ tr_inv r3.
Proof. apply (task_runner_safe r2); [apply r2_reachable|apply ts_init]. Defined.

Definition c1 : TaskRunner := default r0 (cancelAll r0).
Definition c2 : TaskRunner := default r0 (cancelAll c1).

Lemma second_cancel_deadlocks_witness : cancelAll c2 = None ∧ Run_step c2 = None.
Proof. by apply (second_cancel_deadlocks r0 c1 c2). Defined.

End Witness.
