(* ===== verification/TaskCommitter.v ===== *)
(** * Two-phase task submission on the executor
    ([executor/worker/task_committer.go])

    A request is prepared, then confirmed within its time to live. The committer
    hands confirmed tasks to whatever implements [WrappedTaskAdder]; the task
    runner does. Requests are never mutated, so the two maps hold values. *)

From S2P Require Import Prelude Errors Model TaskRunner.

(** The interface [WrappedTaskAdder]: a task is queued or refused with an error,
    nothing else. *)
Class TaskAdder (R : Type) := {
  adder_add : RunnableContainer → Go R unit;
  adder_no_panic : ∀ c r, (adder_add c r).1 ≠ Panic;
  adder_refuses : ∀ c r e r', adder_add c r = (Fail e, r') → r' = r;
}.

Abbreviation requestID := string.

Record requestEntry := mkRequestEntry {
  re_RequestID : requestID;
  re_ExpireAt : Time;
  re_task : RunnableContainer;
}.

Definition TaskID (r : requestEntry) : RunnableID := rc_ID (re_task r).

Record TaskCommitter := mkTaskCommitter {
  pendingRequests : gmap requestID requestEntry;
  requestsByTaskID : gmap RunnableID requestEntry;
  requestTTL : Duration;
}.

Definition NewTaskCommitter (ttl : Duration) : TaskCommitter :=
  {| pendingRequests := ∅; requestsByTaskID := ∅; requestTTL := ttl |}.

Definition removeRequestByID (id : requestID) : Go TaskCommitter unit := λ c,
  match pendingRequests c !! id with
  | None => (Panic, c)
  | Some request =>
      match requestsByTaskID c !! TaskID request with
      | None => (Panic, c)
      | Some _ =>
          (Done tt, {| pendingRequests := delete id (pendingRequests c);
                       requestsByTaskID := delete (TaskID request) (requestsByTaskID c);
                       requestTTL := requestTTL c |})
      end
  end.

Definition newRequest (now : Time) (c : TaskCommitter) (rID : requestID) (task : Runnable) : requestEntry :=
  {| re_RequestID := rID; re_ExpireAt := (now + requestTTL c)%Z; re_task := WrapRunnable task now |}.

Definition PreDispatchTask (now : Time) (rID : requestID) (task : Runnable) : Go TaskCommitter bool :=
  c ← get;
  match pendingRequests c !! rID with
  | Some _ => mret false
  | None =>
      _ ← match requestsByTaskID c !! rn_ID task with
          | Some request => removeRequestByID (re_RequestID request)
          | None => mret tt
          end;
      c' ← get;
      let request := newRequest now c' rID task in
      _ ← put {| pendingRequests := <[rID := request]> (pendingRequests c');
                 requestsByTaskID := <[rn_ID task := request]> (requestsByTaskID c');
                 requestTTL := requestTTL c' |};
      mret true
  end.

Definition ConfirmDispatchTask {R} `{!TaskAdder R} (rID : requestID) (taskID : RunnableID) :
    Go (TaskCommitter * R) bool := λ '(c, r),
  match pendingRequests c !! rID with
  | None => (Done false, (c, r))
  | Some request =>
      match removeRequestByID rID c with
      | (Done _, c') =>
          match adder_add (re_task request) r with
          | (Done _, r') => (Done true, (c', r'))
          | (Fail e, r') => (Fail e, (c', r'))
          | (Panic, r') => (Panic, (c', r'))
          end
      | (Fail e, c') => (Fail e, (c', r))
      | (Panic, c') => (Panic, (c', r))
      end
  end.

Definition expired (now : Time) (r : requestEntry) : bool := After now (re_ExpireAt r).

Definition checkTTL_body (now : Time) (rID : requestID) : Go TaskCommitter unit :=
  c ← get;
  match pendingRequests c !! rID with
  | None => mret tt
  | Some request => if expired now request then removeRequestByID rID else mret tt
  end.

Definition checkTTLOnce (now : Time) (order : list requestID) : Go TaskCommitter unit :=
  forM_ (checkTTL_body now) order.

(** The runner as an adder. *)
#[global] Program Instance TaskRunner_adder : TaskAdder TaskRunner := {| adder_add := addWrappedTask |}.
Next Obligation. intros c r. unfold addWrappedTask. by case_bool_decide. Qed.
Next Obligation. intros c r e r'. unfold addWrappedTask. case_bool_decide; by intros [=]. Qed.

(** ** Specification *)

(** The two maps index the same set of requests: by request id and by task id. *)
Record tc_inv (c : TaskCommitter) : Prop := {
  tc_pending : ∀ rid r, pendingRequests c !! rid = Some r →
    re_RequestID r = rid ∧ requestsByTaskID c !! TaskID r = Some r;
  tc_byTask : ∀ tid r, requestsByTaskID c !! tid = Some r →
    TaskID r = tid ∧ pendingRequests c !! re_RequestID r = Some r;
}.

Inductive tc_step {R} `{!TaskAdder R} (s : TaskCommitter * R) : bool → TaskCommitter * R → Prop :=
| tc_pre now rid task :
    tc_step s (panicked (PreDispatchTask now rid task s.1).1) ((PreDispatchTask now rid task s.1).2, s.2)
| tc_confirm rid tid :
    tc_step s (panicked (ConfirmDispatchTask rid tid s).1) (ConfirmDispatchTask rid tid s).2
| tc_ttl now order :
    iter_order (pendingRequests s.1) order →
    tc_step s (panicked (checkTTLOnce now order s.1).1) ((checkTTLOnce now order s.1).2, s.2).

Definition tc_next {R} `{!TaskAdder R} (s s' : TaskCommitter * R) : Prop := ∃ b, tc_step s b s'.
Definition tc_reachable {R} `{!TaskAdder R} (s : TaskCommitter * R) : Prop :=
  ∃ ttl r, rtc tc_next (NewTaskCommitter ttl, r) s.

(** The committer with only the requests [keep] tells. *)
Definition tc_filter (keep : requestEntry → bool) (c : TaskCommitter) : TaskCommitter :=
  {| pendingRequests := filter (λ kv, keep kv.2 = true) (pendingRequests c);
     requestsByTaskID := filter (λ kv, keep kv.2 = true) (requestsByTaskID c);
     requestTTL := requestTTL c |}.

(** The requests the checker keeps after ranging over [ids]. *)
Definition ttl_keep (now : Time) (ids : list requestID) (r : requestEntry) : bool :=
  negb (expired now r && bool_decide (re_RequestID r ∈ ids)).

(** ** Lemmas *)

Lemma TaskCommitter_ext c d :
  (∀ k, pendingRequests c !! k = pendingRequests d !! k) →
  (∀ k, requestsByTaskID c !! k = requestsByTaskID d !! k) → requestTTL c = requestTTL d → c = d.
Proof. destruct c, d; simpl. intros H1 H2 ->. f_equal; by apply map_eq. Qed.

(** Removing a pending request removes it from both maps. *)
Lemma removeRequestByID_eq c id r :
  tc_inv c → pendingRequests c !! id = Some r →
  ∃ c', removeRequestByID id c = (Done tt, c') ∧ tc_inv c' ∧
    pendingRequests c' = delete id (pendingRequests c) ∧
    requestsByTaskID c' = delete (TaskID r) (requestsByTaskID c) ∧ requestTTL c' = requestTTL c.
Proof.
  intros Hinv Hid. destruct (tc_pending _ Hinv _ _ Hid) as [Hrid Htid].
  unfold removeRequestByID. rewrite Hid, Htid. eexists. split_and!; [done| |done..].
  destruct Hinv as [Hp Hb]. split; simpl.
  - intros k r' Hk%lookup_delete_Some. destruct Hk as [Hne Hk]. destruct (Hp k r' Hk) as [<- Ht]. split; [done|].
    rewrite lookup_delete_ne; [done|]. intros Heq. rewrite Heq in Htid. congruence.
  - intros k r' Hk%lookup_delete_Some. destruct Hk as [Hne Hk]. destruct (Hb k r' Hk) as [<- Ht]. split; [done|].
    rewrite lookup_delete_ne; [done|]. intros Heq. rewrite Heq, Ht in Hid. congruence.
Qed.

Lemma PreDispatchTask_eq now rid task c :
  tc_inv c → pendingRequests c !! rid = None →
  ∃ c', PreDispatchTask now rid task c = (Done true, c') ∧ tc_inv c' ∧ requestTTL c' = requestTTL c ∧
    pendingRequests c' !! rid = Some (newRequest now c rid task) ∧
    (∀ k, k ≠ rid → pendingRequests c' !! k =
       match pendingRequests c !! k with
       | Some r => if decide (TaskID r = rn_ID task) then None else Some r
       | None => None
       end).
Proof.
  intros Hinv Hrid. unfold PreDispatchTask. unfold mbind, GoM_bind, get, put, mret, GoM_ret. rewrite Hrid.
  assert (∃ c1, match requestsByTaskID c !! rn_ID task with
      | Some request => removeRequestByID (re_RequestID request) | None => λ s, (Done (), s) end c = (Done tt, c1) ∧
      tc_inv c1 ∧ requestTTL c1 = requestTTL c ∧ requestsByTaskID c1 !! rn_ID task = None ∧
      (∀ k, pendingRequests c1 !! k = match pendingRequests c !! k with
       | Some r => if decide (TaskID r = rn_ID task) then None else Some r | None => None end))
    as (c1 & -> & Hinv1 & Httl & Hfree & Hrest).
  { destruct (requestsByTaskID c !! rn_ID task) as [r|] eqn:Hr.
    - destruct (tc_byTask _ Hinv _ _ Hr) as [Ht Hpr].
      destruct (removeRequestByID_eq c _ r Hinv Hpr) as (c1 & Hrun & Hinv1 & Hp & Hb & Httl).
      exists c1. rewrite Hrun, Hb, Ht, lookup_delete_eq. split_and!; [done..|]. intros k. rewrite Hp, lookup_delete.
      case_decide as Hk; subst.
      + rewrite Hpr. by rewrite decide_True.
      + destruct (pendingRequests c !! k) as [r'|] eqn:Hk'; [|done]. rewrite decide_False; [done|].
        intros Heq. destruct (tc_pending _ Hinv _ _ Hk') as [<- Hb']. rewrite Heq, Hr in Hb'. congruence.
    - exists c. split_and!; [done..|]. intros k. destruct (pendingRequests c !! k) as [r'|] eqn:Hk'; [|done].
      rewrite decide_False; [done|]. intros Heq. destruct (tc_pending _ Hinv _ _ Hk') as [_ Hb']. congruence. }
  eexists. split_and!; [done| |done| |].
  - destruct Hinv1 as [Hp Hb]. split; simpl.
    + intros k r. rewrite lookup_insert. case_decide; intros Hk; simplify_eq.
      * split; [done|]. change (TaskID (newRequest now c1 k task)) with (rn_ID task). by rewrite lookup_insert_eq.
      * destruct (Hp k r Hk) as [<- Ht]. split; [done|]. rewrite lookup_insert_ne; [done|].
        intros Heq. rewrite <- Heq, Hfree in Ht. done.
    + intros k r. rewrite lookup_insert. case_decide; intros Hk; simplify_eq.
      * split; [done|]. simpl. by rewrite lookup_insert_eq.
      * destruct (Hb k r Hk) as [<- Hpr]. split; [done|]. rewrite lookup_insert_ne; [done|].
        intros Heq. by rewrite <- Heq, (Hrest rid), Hrid in Hpr.
  - simpl. rewrite lookup_insert_eq. unfold newRequest. by rewrite Httl.
  - intros k Hk. simpl. rewrite lookup_insert_ne by done. apply Hrest.
Qed.

Lemma PreDispatchTask_duplicate now rid task c r :
  pendingRequests c !! rid = Some r → PreDispatchTask now rid task c = (Done false, c).
Proof. intros Hr. unfold PreDispatchTask. unfold mbind, GoM_bind, get, mret, GoM_ret. by rewrite Hr. Qed.

Lemma ConfirmDispatchTask_eq {R} `{!TaskAdder R} rid tid c (r : R) req :
  tc_inv c → pendingRequests c !! rid = Some req →
  ∃ c', tc_inv c' ∧ requestTTL c' = requestTTL c ∧ pendingRequests c' = delete rid (pendingRequests c) ∧
    match adder_add (re_task req) r with
    | (Done _, r') => ConfirmDispatchTask rid tid (c, r) = (Done true, (c', r'))
    | (Fail e, r') => ConfirmDispatchTask rid tid (c, r) = (Fail e, (c', r'))
    | (Panic, r') => False
    end.
Proof.
  intros Hinv Hreq. destruct (removeRequestByID_eq c rid req Hinv Hreq) as (c' & Hrun & Hinv' & Hp & Hb & Httl).
  exists c'. split_and!; [done..|]. unfold ConfirmDispatchTask. rewrite Hreq, Hrun.
  pose proof (adder_no_panic (re_task req) r) as Hnp. by destruct (adder_add (re_task req) r) as [[?|?|] ?].
Qed.

Lemma tc_filter_lookup keep c k :
  pendingRequests (tc_filter keep c) !! k = (r ← pendingRequests c !! k; if keep r then Some r else None).
Proof.
  simpl. rewrite map_lookup_filter. destruct (pendingRequests c !! k) as [r|]; simpl; [|done].
  destruct (keep r) eqn:Hk; [by rewrite option_guard_True|]. by rewrite option_guard_False by (simpl; congruence).
Qed.

Lemma tc_filter_lookup_task keep c k :
  requestsByTaskID (tc_filter keep c) !! k = (r ← requestsByTaskID c !! k; if keep r then Some r else None).
Proof.
  simpl. rewrite map_lookup_filter. destruct (requestsByTaskID c !! k) as [r|]; simpl; [|done].
  destruct (keep r) eqn:Hk; [by rewrite option_guard_True|]. by rewrite option_guard_False by (simpl; congruence).
Qed.

Lemma tc_filter_ext keep keep' c :
  tc_inv c → (∀ k r, pendingRequests c !! k = Some r → keep r = keep' r) → tc_filter keep c = tc_filter keep' c.
Proof.
  intros Hinv Hk. apply TaskCommitter_ext; [intros k..|done].
  - rewrite !tc_filter_lookup. destruct (pendingRequests c !! k) as [r|] eqn:Hr; simpl; [|done]. by rewrite (Hk k r Hr).
  - rewrite !tc_filter_lookup_task. destruct (requestsByTaskID c !! k) as [r|] eqn:Hr; simpl; [|done].
    destruct (tc_byTask _ Hinv _ _ Hr) as [_ Hp]. by rewrite (Hk _ r Hp).
Qed.

Lemma tc_filter_true c : tc_filter (λ _, true) c = c.
Proof.
  apply TaskCommitter_ext; [intros k..|done].
  - rewrite tc_filter_lookup. by destruct (pendingRequests c !! k).
  - rewrite tc_filter_lookup_task. by destruct (requestsByTaskID c !! k).
Qed.

Lemma tc_filter_filter keep keep' c : tc_filter keep (tc_filter keep' c) = tc_filter (λ r, keep' r && keep r) c.
Proof.
  apply TaskCommitter_ext; [intros k..|done]; rewrite ?tc_filter_lookup, ?tc_filter_lookup_task.
  - destruct (pendingRequests c !! k) as [r|]; simpl; [|done]. by destruct (keep' r).
  - destruct (requestsByTaskID c !! k) as [r|]; simpl; [|done]. by destruct (keep' r).
Qed.

(** Removing a request keeps exactly the others. *)
Lemma removeRequestByID_filter c id r :
  tc_inv c → pendingRequests c !! id = Some r →
  removeRequestByID id c = (Done tt, tc_filter (λ r, negb (bool_decide (re_RequestID r = id))) c).
Proof.
  intros Hinv Hid. destruct (removeRequestByID_eq c id r Hinv Hid) as (c' & -> & _ & Hp & Hb & Httl). f_equal.
  apply TaskCommitter_ext; [intros k..|done].
  - rewrite Hp, lookup_delete, tc_filter_lookup. destruct (pendingRequests c !! k) as [r'|] eqn:Hr; simpl; [|by case_decide].
    destruct (tc_pending _ Hinv _ _ Hr) as [Hk _]. case_decide; case_bool_decide; simpl; congruence.
  - rewrite Hb, lookup_delete, tc_filter_lookup_task. destruct (requestsByTaskID c !! k) as [r'|] eqn:Hr; simpl; [|by case_decide].
    destruct (tc_byTask _ Hinv _ _ Hr) as [Hk Hp']. destruct (tc_pending _ Hinv _ _ Hid) as [Hk2 Hb2].
    case_decide; case_bool_decide; simpl; congruence.
Qed.

Lemma tc_filter_inv keep c : tc_inv c → tc_inv (tc_filter keep c).
Proof.
  intros [Hp Hb]. split; intros k r.
  - rewrite tc_filter_lookup, tc_filter_lookup_task. destruct (pendingRequests c !! k) as [r'|] eqn:Hk; [simpl|done].
    destruct (keep r') eqn:Hkeep; intros [= ->]. destruct (Hp k r Hk) as [? ->]. simpl. by rewrite Hkeep.
  - rewrite tc_filter_lookup, tc_filter_lookup_task. destruct (requestsByTaskID c !! k) as [r'|] eqn:Hk; [simpl|done].
    destruct (keep r') eqn:Hkeep; intros [= ->]. destruct (Hb k r Hk) as [? ->]. simpl. by rewrite Hkeep.
Qed.

(** One iteration of the checker. *)
Lemma checkTTL_body_eq now ids k c :
  tc_inv c →
  checkTTL_body now k (tc_filter (ttl_keep now ids) c) = (Done tt, tc_filter (ttl_keep now (ids ++ [k])) c).
Proof.
  intros Hinv. pose proof (tc_filter_inv (ttl_keep now ids) c Hinv) as Hinv'.
  assert (∀ r, ttl_keep now (ids ++ [k]) r = ttl_keep now ids r && negb (expired now r && bool_decide (re_RequestID r = k))) as Hsplit.
  { intros r. unfold ttl_keep. destruct (expired now r); simpl; [|done].
    repeat case_bool_decide; simpl; set_solver. }
  unfold checkTTL_body. unfold mbind, GoM_bind, get, mret, GoM_ret. rewrite tc_filter_lookup.
  destruct (pendingRequests c !! k) as [req|] eqn:Hk; simpl.
  2:{ f_equal. apply tc_filter_ext; [done|]. intros id r Hr. rewrite Hsplit.
      destruct (tc_pending _ Hinv _ _ Hr) as [Hid _]. rewrite (bool_decide_eq_false_2 (_ = k)) by congruence.
      by rewrite andb_false_r, andb_true_r. }
  destruct (tc_pending _ Hinv _ _ Hk) as [Hrid _].
  assert (∀ id r, pendingRequests c !! id = Some r → re_RequestID r = k → r = req) as Huniq.
  { intros id r Hr Heq. destruct (tc_pending _ Hinv _ _ Hr) as [<- _]. congruence. }
  destruct (ttl_keep now ids req) eqn:Hkeep; simpl; [destruct (expired now req) eqn:Hexp|].
  - erewrite removeRequestByID_filter; [|done|by rewrite tc_filter_lookup, Hk; simpl; rewrite Hkeep].
    f_equal. rewrite tc_filter_filter. apply tc_filter_ext; [done|]. intros id r Hr. rewrite Hsplit. f_equal.
    case_bool_decide as Heq; [|by rewrite andb_false_r]. rewrite (Huniq id r Hr Heq). by rewrite Hexp.
  - f_equal. apply tc_filter_ext; [done|]. intros id r Hr. rewrite Hsplit.
    case_bool_decide as Heq; [|by rewrite andb_false_r, andb_true_r]. rewrite (Huniq id r Hr Heq). by rewrite Hexp, andb_true_r.
  - f_equal. apply tc_filter_ext; [done|]. intros id r Hr. rewrite Hsplit.
    case_bool_decide as Heq; [|by rewrite andb_false_r, andb_true_r]. rewrite (Huniq id r Hr Heq). by rewrite Hkeep.
Qed.

Lemma checkTTLOnce_run now order ids c :
  tc_inv c →
  checkTTLOnce now order (tc_filter (ttl_keep now ids) c) = (Done tt, tc_filter (ttl_keep now (ids ++ order)) c).
Proof.
  intros Hinv. revert ids. unfold checkTTLOnce. induction order as [|k order IH]; intros ids; simpl.
  { by rewrite app_nil_r. }
  rewrite (bind_Done _ _ _ _ _ (checkTTL_body_eq now ids k c Hinv)), IH. by rewrite <- app_assoc.
Qed.

Lemma checkTTLOnce_eq now order c :
  tc_inv c → iter_order (pendingRequests c) order →
  checkTTLOnce now order c = (Done tt, tc_filter (λ r, negb (expired now r)) c).
Proof.
  intros Hinv Ho. pose proof (checkTTLOnce_run now order [] c Hinv) as Hrun. simpl in Hrun.
  rewrite (tc_filter_ext (ttl_keep now []) (λ _, true)) in Hrun; [|done|].
  - rewrite tc_filter_true in Hrun. rewrite Hrun. f_equal. apply tc_filter_ext; [done|]. intros k r Hr.
    unfold ttl_keep. rewrite bool_decide_eq_true_2; [by rewrite andb_true_r|].
    destruct (tc_pending _ Hinv _ _ Hr) as [-> _]. apply (iter_order_elem _ _ _ Ho). by eexists.
  - intros k r _. unfold ttl_keep. rewrite bool_decide_eq_false_2 by set_solver. by rewrite andb_false_r.
Qed.

Lemma tc_step_inv {R} `{!TaskAdder R} (s s' : TaskCommitter * R) b :
  tc_inv s.1 → tc_step s b s' → b = false ∧ tc_inv s'.1.
Proof.
  intros Hinv Hs. destruct s as [c r]. destruct Hs as [now rid task|rid tid|now order Ho]; simpl in *.
  - destruct (pendingRequests c !! rid) as [req|] eqn:Hr.
    + by rewrite (PreDispatchTask_duplicate now rid task c req Hr).
    + by destruct (PreDispatchTask_eq now rid task c Hinv Hr) as (c' & -> & ? & _).
  - destruct (pendingRequests c !! rid) as [req|] eqn:Hr; [|done].
    destruct (ConfirmDispatchTask_eq rid tid c r req Hinv Hr) as (c' & Hinv' & _ & _ & Hrun).
    unfold ConfirmDispatchTask in Hrun. rewrite Hr in Hrun.
    destruct (adder_add (re_task req) r) as [[?|?|] r']; [by rewrite Hrun..|done].
  - rewrite (checkTTLOnce_eq now order c) by done. split; [done|]. by apply tc_filter_inv.
Qed.

Lemma NewTaskCommitter_inv ttl : tc_inv (NewTaskCommitter ttl).
Proof. by split. Qed.

Lemma tc_reachable_inv {R} `{!TaskAdder R} (s : TaskCommitter * R) : tc_reachable s → tc_inv s.1.
Proof.
  intros (ttl & r & Hr). assert (tc_inv (NewTaskCommitter ttl, r).1) as Hinv by apply NewTaskCommitter_inv.
  induction Hr as [x|x y z [b Hxy] _ IH]; [done|]. apply IH. by eapply tc_step_inv.
Qed.

(** ** Properties *)

(** No step of the committer panics, and the two maps always index the same
    requests, one at most for each task. *)
Theorem committer_never_panics {R} `{!TaskAdder R} (s s' : TaskCommitter * R) b :
  tc_reachable s → tc_step s b s' → b = false ∧ tc_inv s'.1.
Proof. intros Hr%tc_reachable_inv. by apply tc_step_inv. Qed.


(** The checker removes exactly the requests whose time to live has passed,
    in whatever order the map is ranged over. *)
Theorem ttl_check_exact c now order :
  tc_inv c → iter_order (pendingRequests c) order →
  checkTTLOnce now order c = (Done tt, tc_filter (λ r, bool_decide (now ≤ re_ExpireAt r)%Z) c).
Proof.
  intros Hinv Ho. rewrite checkTTLOnce_eq by done. f_equal. apply tc_filter_ext; [done|]. intros k r _.
  unfold expired, After. case_bool_decide; case_bool_decide; simpl; try done; lia.
Qed.

Module Witness.

Definition t1 : Runnable := mkRunnable "w1" None.
Definition c0 : TaskCommitter := NewTaskCommitter 10.
Definition c1 : TaskCommitter := (PreDispatchTask 5 "r1" t1 c0).2.
Definition runner : TaskRunner := NewTaskRunner 4 2.

Lemma c1_reachable : tc_reachable (c1, runner).
Proof.
  exists 10%Z, runner. eapply rtc_l; [|apply rtc_refl]. exists false. apply (tc_pre (c0, runner) 5 "r1" t1).
Defined.

Lemma committer_never_panics_witness :
  panicked (PreDispatchTask 7 "r2" t1 c1).1 = false ∧ tc_inv (PreDispatchTask 7 "r2" t1 c1).2.
Proof. apply (committer_never_panics (c1, runner) _ _ c1_reachable (tc_pre (c1, runner) 7 "r2" t1)). Defined.

Lemma c1_inv : tc_inv c1.
Proof. apply (tc_reachable_inv (c1, runner)), c1_reachable. Defined.


Lemma ttl_check_exact_witness :
  checkTTLOnce 20 ["r1"] c1 = (Done tt, tc_filter (λ r, bool_decide (20 ≤ re_ExpireAt r)%Z) c1).
Proof. apply ttl_check_exact; [apply c1_inv|by apply iter_order_eq]. Defined.

End Witness.
