(* ===== verification/Dispatch.v ===== *)
(** * Two-phase task dispatch, client and server
    ([client/task_dispatcher.go], [executor/server.go])

    The dispatcher runs on the master's side and calls the executor's handlers
    through [Send]. It is written against any [Send]; the second part of the
    file composes it with the executor's handlers and a network that may lose a
    request or a reply, and proves what the two-phase protocol promises. *)

From S2P Require Import Prelude Errors Model TaskRunner TaskCommitter.

(** ** gRPC status codes *)

(** The codes the code distinguishes. The documentation of gRPC guarantees that
    the framework itself never produces the first three. *)
Inductive codes : Type := Aborted | AlreadyExists | NotFound | OtherCode (n : Z).

(** An error from [Send]: one with a gRPC status, or any other. *)
Inductive rpcErr : Type := RpcStatus (c : codes) (msg : string) | RpcForeign (msg : string).

Definition rpc_msg (e : rpcErr) : string := match e with RpcStatus _ m => m | RpcForeign m => m end.

(** ** Requests *)

Record PreDispatchTaskRequest := mkPreDispatch {
  pd_TaskTypeId : Z;
  pd_TaskConfig : string;
  pd_MasterId : string;
  pd_WorkerId : string;
  pd_RequestId : requestID;
}.

Record ConfirmDispatchTaskRequest := mkConfirmDispatch {
  cd_WorkerId : string;
  cd_RequestId : requestID;
}.

Inductive ExecutorRequest : Type :=
| CmdPreDispatchTask (req : PreDispatchTaskRequest)
| CmdConfirmDispatchTask (req : ConfirmDispatchTaskRequest).

Record DispatchTaskArgs := mkDispatchTaskArgs {
  da_WorkerID : string;
  da_MasterID : string;
  da_WorkerType : Z;
  da_WorkerConfig : string;
}.

(** ** The dispatcher *)

(** What the dispatcher sees of its context at its [i]-th attempt: whether it is
    done at the head of the loop, the time of the deadline check, and whether it
    is done while waiting. *)
Record Ctx := mkCtx {
  ctx_done : nat → bool;
  ctx_deadline : option Time;
  ctx_clock : nat → Time;
  ctx_done_waiting : nat → bool;
}.

Definition preDispatchTaskRetryInterval : Duration := Second.

(** [time.Now().Add(d.retryInterval).After(deadline)], when there is one. *)
Definition wouldExceed (ctx : Ctx) (i : nat) : bool :=
  match ctx_deadline ctx with
  | Some deadline => After (ctx_clock ctx i + preDispatchTaskRetryInterval)%Z deadline
  | None => false
  end.

Section dispatcher.
Context {W : Type}.
Variable Send : ExecutorRequest → GoM rpcErr W unit.
Variable uuid : nat → requestID.

(** [Done rid], [Fail (shouldRetry, err)], or the panic on [AlreadyExists]. *)
Definition preDispatchTaskOnce (i : nat) (args : DispatchTaskArgs) : GoM (bool * rpcErr) W requestID := λ w,
  match Send (CmdPreDispatchTask {| pd_TaskTypeId := da_WorkerType args; pd_TaskConfig := da_WorkerConfig args;
                                    pd_MasterId := da_MasterID args; pd_WorkerId := da_WorkerID args;
                                    pd_RequestId := uuid i |}) w with
  | (Done _, w') => (Done (uuid i), w')
  | (Panic, w') => (Panic, w')
  | (Fail e, w') =>
      match e with
      | RpcForeign _ => (Fail (false, e), w')
      | RpcStatus Aborted _ => (Fail (false, e), w')
      | RpcStatus AlreadyExists _ => (Panic, w')
      | RpcStatus _ _ => (Fail (true, e), w')
      end
  end.

(** The retry loop; [None] when it is still running after [fuel] attempts. *)
Fixpoint preDispatchTaskWithRetry (fuel i : nat) (ctx : Ctx) (args : DispatchTaskArgs) (w : W) :
    option (res string requestID * W) :=
  match fuel with
  | 0 => None
  | S fuel' =>
      if ctx_done ctx i then Some (Fail "context done", w) else
      match preDispatchTaskOnce i args w with
      | (Done rid, w') => Some (Done rid, w')
      | (Panic, w') => Some (Panic, w')
      | (Fail (shouldRetry, err), w') =>
          if negb shouldRetry then Some (Fail (rpc_msg err), w') else
          if wouldExceed ctx i then Some (Fail "would exceed deadline if waiting", w')
          else if ctx_done_waiting ctx i then Some (Fail "context done", w')
          else preDispatchTaskWithRetry fuel' (S i) ctx args w'
      end
  end.

(** [Fail (guaranteedFailure, err)]. *)
Definition confirmDispatchTask (rid : requestID) (workerID : string) : GoM (bool * rpcErr) W unit := λ w,
  match Send (CmdConfirmDispatchTask {| cd_WorkerId := workerID; cd_RequestId := rid |}) w with
  | (Done _, w') => (Done tt, w')
  | (Panic, w') => (Panic, w')
  | (Fail e, w') =>
      match e with
      | RpcStatus Aborted _ | RpcStatus NotFound _ => (Fail (true, e), w')
      | _ => (Fail (false, e), w')
      end
  end.

(** The two callbacks return nothing; only their panic matters. *)
Definition DispatchTask (fuel : nat) (ctx : Ctx) (args : DispatchTaskArgs)
    (startWorkerTimer : Go W unit) (abortWorker : goerr → Go W unit) (w : W) : option (res goerr unit * W) :=
  match preDispatchTaskWithRetry fuel 0 ctx args w with
  | None => None
  | Some (Panic, w1) => Some (Panic, w1)
  | Some (Fail err, w1) => Some (Fail (GoWrap ErrExecutorPreDispatchFailed (ErrForeign err)), w1)
  | Some (Done rid, w1) =>
      Some (match startWorkerTimer w1 with
            | (Panic, w2) => (Panic, w2)
            | (_, w2) =>
                match confirmDispatchTask rid (da_WorkerID args) w2 with
                | (Done _, w3) => (Done tt, w3)
                | (Panic, w3) => (Panic, w3)
                | (Fail (guaranteedFailure, err), w3) =>
                    if guaranteedFailure : bool then
                      let errOut := GoWrap ErrExecutorConfirmDispatchFailed (ErrForeign (rpc_msg err)) in
                      match abortWorker errOut w3 with
                      | (Panic, w4) => (Panic, w4)
                      | (_, w4) => (Fail errOut, w4)
                      end
                    else (Done tt, w3)
                end
            end)
  end.

End dispatcher.

(** ** The executor's handlers *)

Section server.
Context {R : Type} `{!TaskAdder R}.

(** [makeTask]: the worker registry builds the task. *)
Variable makeTask : string → string → Z → string → res goerr Runnable.

Definition Server_PreDispatchTask (now : Time) (req : PreDispatchTaskRequest) :
    GoM rpcErr (TaskCommitter * R) unit := λ '(c, r),
  match makeTask (pd_WorkerId req) (pd_MasterId req) (pd_TaskTypeId req) (pd_TaskConfig req) with
  | Panic => (Panic, (c, r))
  | Fail e => (Fail (RpcStatus Aborted (goerr_msg e)), (c, r))
  | Done task =>
      match PreDispatchTask now (pd_RequestId req) task c with
      | (Done true, c') => (Done tt, (c', r))
      | (Done false, c') => (Fail (RpcStatus AlreadyExists "Duplicate request ID"), (c', r))
      | (Fail e, c') => (Fail (RpcStatus Aborted (goerr_msg e)), (c', r))
      | (Panic, c') => (Panic, (c', r))
      end
  end.

Definition Server_ConfirmDispatchTask (req : ConfirmDispatchTaskRequest) :
    GoM rpcErr (TaskCommitter * R) unit := λ s,
  match ConfirmDispatchTask (cd_RequestId req) (cd_WorkerId req) s with
  | (Fail e, s') => (Fail (RpcStatus Aborted (goerr_msg e)), s')
  | (Done false, s') => (Fail (RpcStatus NotFound "RequestID not found"), s')
  | (Done true, s') => (Done tt, s')
  | (Panic, s') => (Panic, s')
  end.

(** ** Composition over a faulty network *)

Inductive fault : Type := deliver | lose_request | lose_reply.

(** What happens at one call: the executor's clock, whether its TTL checker runs
    before the call arrives, and the fate of the messages. *)
Record call_env := mkCallEnv { env_now : Time; env_ttl : bool; env_fault : fault; env_code : Z }.

(** What an observer sees, in order. *)
Inductive dispatch_event : Type :=
| Started
| Accepted (task : RunnableContainer)
| AbortedWith (e : goerr).

Record World := mkWorld {
  w_committer : TaskCommitter;
  w_runner : R;
  w_calls : nat;
  w_trace : list dispatch_event;
}.

Variable env : nat → call_env.

(** The handler; a task the runner accepted is noted in the trace. *)
Definition serve (now : Time) (req : ExecutorRequest) : GoM rpcErr World unit := λ w,
  match req with
  | CmdPreDispatchTask p =>
      let '(out, (c, r)) := Server_PreDispatchTask now p (w_committer w, w_runner w) in
      (out, mkWorld c r (w_calls w) (w_trace w))
  | CmdConfirmDispatchTask q =>
      let '(out, (c, r)) := Server_ConfirmDispatchTask q (w_committer w, w_runner w) in
      (out, mkWorld c r (w_calls w)
              (w_trace w ++ match out, pendingRequests (w_committer w) !! cd_RequestId q with
                            | Done _, Some request => [Accepted (re_task request)]
                            | _, _ => []
                            end))
  end.

Definition ttl_check (now : Time) (c : TaskCommitter) : TaskCommitter :=
  (checkTTLOnce now (map_to_list (pendingRequests c)).*1 c).2.

Definition Send (req : ExecutorRequest) : GoM rpcErr World unit := λ w,
  let e := env (w_calls w) in
  let c := if env_ttl e then ttl_check (env_now e) (w_committer w) else w_committer w in
  let w1 := mkWorld c (w_runner w) (S (w_calls w)) (w_trace w) in
  match env_fault e with
  | lose_request => (Fail (RpcStatus (OtherCode (env_code e)) "unavailable"), w1)
  | deliver => serve (env_now e) req w1
  | lose_reply => (Fail (RpcStatus (OtherCode (env_code e)) "unavailable"), (serve (env_now e) req w1).2)
  end.

Definition observe (ev : dispatch_event) (w : World) : World :=
  mkWorld (w_committer w) (w_runner w) (w_calls w) (w_trace w ++ [ev]).
Definition startWorkerTimer : Go World unit := modify (observe Started).
Definition abortWorker (e : goerr) : Go World unit := modify (observe (AbortedWith e)).

Definition dispatch (uuid : nat → requestID) (fuel : nat) (ctx : Ctx) (args : DispatchTaskArgs) (w : World) :
    option (res goerr unit * World) :=
  DispatchTask Send uuid fuel ctx args startWorkerTimer abortWorker w.

End server.
Arguments World : clear implicits.

(** ** Specification *)

(** The ways a dispatch may end, with what was observed and what the executor's
    runner became. *)
Inductive dispatch_outcome {R} `{!TaskAdder R} (workerID : string) (r : R) :
    res goerr unit → list dispatch_event → R → Prop :=
| do_not_prepared e : dispatch_outcome workerID r (Fail e) [] r
| do_undetermined : dispatch_outcome workerID r (Done tt) [Started] r
| do_accepted t r' :
    rc_ID t = workerID → adder_add t r = (Done tt, r') →
    dispatch_outcome workerID r (Done tt) [Started; Accepted t] r'
| do_aborted e : dispatch_outcome workerID r (Fail e) [Started; AbortedWith e] r.

Section proofs.
Context {R : Type} `{!TaskAdder R}.
Context (makeTask : string → string → Z → string → res goerr Runnable) (env : nat → call_env).
Context (uuid : nat → requestID) (args : DispatchTaskArgs).

(** The registry builds a task that carries the worker's id. *)
Hypothesis makeTask_id : ∀ w m t cfg, makeTask w m t cfg ≠ Panic.
Hypothesis makeTask_task : ∀ w m t cfg task, makeTask w m t cfg = Done task → rn_ID task = w.
(** Request ids are unique. *)
Hypothesis uuid_inj : ∀ i j, uuid i = uuid j → i = j.

Implicit Types w : World R.

Definition prepared (i : nat) w : Prop :=
  tc_inv (w_committer w) ∧ ∀ j, i ≤ j → pendingRequests (w_committer w) !! uuid j = None.

Lemma ttl_check_eq now c : tc_inv c → ttl_check now c = tc_filter (λ r, negb (expired now r)) c.
Proof.
  intros Hinv. unfold ttl_check. rewrite (checkTTLOnce_eq now) by auto with go_db. done.
Qed.

(** The committer when a call arrives. *)
Lemma arrive_eq w :
  tc_inv (w_committer w) →
  let e := env (w_calls w) in
  ∃ c, (if env_ttl e then ttl_check (env_now e) (w_committer w) else w_committer w) = c ∧ tc_inv c ∧
    ∀ k r, pendingRequests c !! k = Some r → pendingRequests (w_committer w) !! k = Some r.
Proof.
  intros Hinv e. eexists; split; [done|]. destruct (env_ttl e); [|done].
  rewrite ttl_check_eq by done. split; [by apply tc_filter_inv|]. intros k r. rewrite tc_filter_lookup.
  destruct (pendingRequests (w_committer w) !! k) as [r'|]; simpl; [|done]. by case_match.
Qed.

Lemma serve_pre_eq now i w :
  prepared i w →
  let req := mkPreDispatch (da_WorkerType args) (da_WorkerConfig args) (da_MasterID args) (da_WorkerID args) (uuid i) in
  ∃ out w', serve makeTask now (CmdPreDispatchTask req) w = (out, w') ∧
    prepared (S i) w' ∧ w_runner w' = w_runner w ∧ w_trace w' = w_trace w ∧ w_calls w' = w_calls w ∧
    (out = Done tt ∧ (∃ req0, pendingRequests (w_committer w') !! uuid i = Some req0 ∧ TaskID req0 = da_WorkerID args) ∨
     ∃ m, out = Fail (RpcStatus Aborted m)).
Proof.
  intros [Hinv Hfresh] req. unfold serve, Server_PreDispatchTask. simpl.
  pose proof (makeTask_id (da_WorkerID args) (da_MasterID args) (da_WorkerType args) (da_WorkerConfig args)) as Hnp.
  destruct (makeTask _ _ _ _) as [task|e|] eqn:Hmk; [|..|done].
  - apply makeTask_task in Hmk.
    destruct (PreDispatchTask_eq now (uuid i) task (w_committer w) Hinv) as (c' & -> & Hinv' & _ & Hnew & Hold); [by apply Hfresh|].
    eexists _, _. split; [done|]. simpl. split_and!; [|done..|].
    + split; [done|]. intros j Hj. simpl. rewrite Hold; [by rewrite Hfresh by lia|]. intros ->%uuid_inj. lia.
    + left. split; [done|]. eexists. split; [exact Hnew|]. done.
  - eexists _, _. split; [done|]. simpl. split_and!; [|done..|eauto]. split; [done|]. intros j Hj. apply Hfresh. lia.
Qed.

Lemma preDispatchTaskOnce_eq i w :
  prepared i w →
  ∃ out w', preDispatchTaskOnce (Send makeTask env) uuid i args w = (out, w') ∧
    prepared (S i) w' ∧ w_runner w' = w_runner w ∧ w_trace w' = w_trace w ∧ out ≠ Panic ∧
    (∀ rid, out = Done rid → rid = uuid i ∧
       ∃ req0, pendingRequests (w_committer w') !! rid = Some req0 ∧ TaskID req0 = da_WorkerID args).
Proof.
  intros [Hinv Hfresh]. unfold preDispatchTaskOnce, Send.
  destruct (arrive_eq w Hinv) as (c & -> & Hinvc & Hsub).
  set (w1 := mkWorld c (w_runner w) (S (w_calls w)) (w_trace w)).
  assert (prepared i w1) as Hp1.
  { split; [done|]. intros j Hj. simpl. destruct (pendingRequests c !! uuid j) as [r|] eqn:Hr; [|done].
    apply Hsub in Hr. by rewrite Hfresh in Hr by lia. }
  destruct (serve_pre_eq (env_now (env (w_calls w))) i w1 Hp1) as (out & w' & Hs & Hp' & Hr & Ht & _ & Hout).
  destruct (env_fault (env (w_calls w))).
  - rewrite Hs. destruct Hout as [[-> Hreq]|[m ->]].
    + eexists _, _. split; [done|]. split_and!; [done..|]. intros rid [= <-]. auto.
    + eexists _, _. split; [done|]. by split_and!.
  - eexists _, _. split; [done|]. split_and!; try done. destruct Hp1 as [? Hf]. split; [done|]. intros j Hj. apply Hf. lia.
  - rewrite Hs. simpl. eexists _, _. split; [done|]. by split_and!.
Qed.

Lemma preDispatch_eq fuel i ctx w out w' :
  prepared i w → preDispatchTaskWithRetry (Send makeTask env) uuid fuel i ctx args w = Some (out, w') →
  tc_inv (w_committer w') ∧ w_runner w' = w_runner w ∧ w_trace w' = w_trace w ∧ out ≠ Panic ∧
  (∀ rid, out = Done rid → ∃ req0, pendingRequests (w_committer w') !! rid = Some req0 ∧ TaskID req0 = da_WorkerID args).
Proof.
  revert i w. induction fuel as [|fuel IH]; intros i w Hp; [done|]. cbn [preDispatchTaskWithRetry].
  destruct (ctx_done ctx i). { intros [= <- <-]. split_and!; try done. apply Hp. }
  destruct (preDispatchTaskOnce_eq i w Hp) as (o & w1 & -> & Hp1 & Hr & Ht & Hnp & Hd).
  destruct o as [rid|[[] err]|]; [| | |done]; simpl.
  - intros [= <- <-]. split_and!; try done; [apply Hp1|]. intros rid' [= <-]. by apply Hd.
  - destruct (wouldExceed ctx i); [intros [= <- <-]; split_and!; try done; apply Hp1|].
    destruct (ctx_done_waiting ctx i); [intros [= <- <-]; split_and!; try done; apply Hp1|].
    intros Hrun. destruct (IH (S i) w1 Hp1 Hrun) as (? & Hr' & Ht' & ?). by rewrite <- Hr, <- Ht, <- Hr', <- Ht'.
  - intros [= <- <-]. split_and!; try done. apply Hp1.
Qed.

(** The second phase after the timer was started. *)
Lemma confirm_outcome rid w :
  tc_inv (w_committer w) →
  (∀ req0, pendingRequests (w_committer w) !! rid = Some req0 → TaskID req0 = da_WorkerID args) →
  ∃ tr r', (confirmDispatchTask (Send makeTask env) rid (da_WorkerID args) w).2 =
      mkWorld (w_committer (confirmDispatchTask (Send makeTask env) rid (da_WorkerID args) w).2) r'
        (S (w_calls w)) (w_trace w ++ tr) ∧
    match (confirmDispatchTask (Send makeTask env) rid (da_WorkerID args) w).1 with
    | Done _ => ∃ t, tr = [Accepted t] ∧ rc_ID t = da_WorkerID args ∧ adder_add t (w_runner w) = (Done tt, r')
    | Fail (false, _) =>
        tr = [] ∧ r' = w_runner w ∨
        ∃ t, tr = [Accepted t] ∧ rc_ID t = da_WorkerID args ∧ adder_add t (w_runner w) = (Done tt, r')
    | Fail (true, _) => tr = [] ∧ r' = w_runner w
    | Panic => False
    end.
Proof.
  intros Hinv Hid. unfold confirmDispatchTask, Send.
  destruct (arrive_eq w Hinv) as (c & -> & Hinvc & Hsub).
  assert (∃ out c' tr r', serve makeTask (env_now (env (w_calls w)))
      (CmdConfirmDispatchTask (mkConfirmDispatch (da_WorkerID args) rid))
      (mkWorld c (w_runner w) (S (w_calls w)) (w_trace w)) =
      (out, mkWorld c' r' (S (w_calls w)) (w_trace w ++ tr)) ∧
      (out = Done tt ∧ (∃ t, tr = [Accepted t] ∧ rc_ID t = da_WorkerID args ∧ adder_add t (w_runner w) = (Done tt, r')) ∨
       (∃ m, out = Fail (RpcStatus Aborted m) ∨ out = Fail (RpcStatus NotFound m)) ∧ tr = [] ∧ r' = w_runner w))
    as (out & c' & tr & r' & Hs & Hout).
  { unfold serve, Server_ConfirmDispatchTask; cbn [cd_RequestId cd_WorkerId w_committer w_runner w_calls w_trace].
    destruct (pendingRequests c !! rid) as [req|] eqn:Hreq.
    - destruct (ConfirmDispatchTask_eq rid (da_WorkerID args) c (w_runner w) req Hinvc Hreq) as (c' & _ & _ & _ & Hrun).
      pose proof (adder_refuses (re_task req) (w_runner w)) as Href.
      destruct (adder_add (re_task req) (w_runner w)) as [[[]|e|] r'] eqn:Hadd; [| |done]; rewrite Hrun.
      + eexists _, c', _, r'. split; [done|]. left. split; [done|]. exists (re_task req). split_and!; [done| |done].
        by apply Hid, Hsub.
      + eexists _, c', [], r'. rewrite app_nil_r. split; [done|]. right. split; [eauto|]. split; [done|]. by eapply Href.
    - unfold ConfirmDispatchTask. rewrite Hreq. eexists _, c, [], (w_runner w). rewrite app_nil_r. split; [done|]. right. eauto. }
  destruct (env_fault (env (w_calls w))).
  - rewrite Hs. destruct Hout as [[-> Hacc]|([m [->| ->]] & -> & ->)]; eexists _, _; (split; [done|]); simpl; eauto.
  - simpl. eexists [], (w_runner w). rewrite app_nil_r. split; [done|]. by left.
  - rewrite Hs. simpl. eexists _, _. split; [done|]. destruct Hout as [[_ Hacc]|(_ & -> & ->)]; eauto.
Qed.

(** C3: over a network that may lose requests and replies, with the TTL checker
    running at any point, a dispatch never panics, and ends in one of four ways:
    it failed in the first phase, with no callback called and nothing run; it is
    undetermined, reported as success, the timer started and nothing run; the
    executor accepted the task, after the timer was started, and no abort; or it
    was aborted after the timer was started, with the error returned, and the
    executor did not run the task. In particular a task is accepted at most once
    and an aborted one never. *)
Theorem two_phase_dispatch fuel ctx w out w' :
  tc_inv (w_committer w) → (∀ j, pendingRequests (w_committer w) !! uuid j = None) →
  dispatch makeTask env uuid fuel ctx args w = Some (out, w') →
  ∃ tr, w_trace w' = w_trace w ++ tr ∧ dispatch_outcome (da_WorkerID args) (w_runner w) out tr (w_runner w').
Proof.
  intros Hinv Hfresh. unfold dispatch, DispatchTask.
  destruct (preDispatchTaskWithRetry _ _ _ _ _ _ _) as [[o w1]|] eqn:Hpre; [|done].
  apply preDispatch_eq in Hpre as (Hinv1 & Hr1 & Ht1 & Hnp & Hreq); [|by split; [|intros j _; apply Hfresh]].
  destruct o as [rid|err|]; [| |done].
  2:{ intros [= <- <-]. exists []. rewrite app_nil_r, Ht1, Hr1. split; [done|constructor]. }
  destruct (confirm_outcome rid (observe Started w1)) as (tr & r' & Hw2 & Hout); [done| |].
  { destruct (Hreq rid eq_refl) as (req0 & Hp & Hid). simpl. intros ? ?. by simplify_eq. }
  unfold startWorkerTimer, abortWorker, modify. cbn beta iota.
  simpl in Hw2, Hout. rewrite Hr1 in Hout. rewrite Ht1, <- app_assoc in Hw2.
  destruct (confirmDispatchTask _ rid _ _) as [[[]|[[] err]|] w2]; simpl in *; [| | |done]; intros [= <- <-].
  all: pose proof (f_equal w_trace Hw2) as Htr; pose proof (f_equal w_runner Hw2) as Hrr; clear Hw2; simpl in *;
    rewrite Htr, Hrr.
  - destruct Hout as (t & -> & ? & ?). eexists. split; [done|]. by constructor.
  - destruct Hout as (-> & ->). eexists. rewrite <- app_assoc. split; [done|]. constructor.
  - eexists. split; [done|]. destruct Hout as [(-> & ->)|(t & -> & ? & ?)]; by constructor.
Qed.

(** C38: with a deadline and a clock that advances by the retry interval at each
    attempt, the retry loop ends: the fuel that reaches the deadline is enough. *)
Theorem dispatch_terminates ctx w deadline :
  ctx_deadline ctx = Some deadline →
  (∀ i : nat, ctx_clock ctx 0 + Z.of_nat i * preDispatchTaskRetryInterval ≤ ctx_clock ctx i)%Z →
  is_Some (dispatch makeTask env uuid
             (S (Z.to_nat ((deadline - ctx_clock ctx 0) / preDispatchTaskRetryInterval))) ctx args w).
Proof.
  intros Hd Hclk. set (n := Z.to_nat _).
  assert (wouldExceed ctx n = true) as Hex.
  { unfold wouldExceed, After. rewrite Hd. apply bool_decide_eq_true_2. specialize (Hclk n).
    unfold preDispatchTaskRetryInterval, Second in *.
    pose proof (Z.mul_succ_div_gt (deadline - ctx_clock ctx 0) 1000000000). lia. }
  assert (∀ fuel i w, i ≤ n < i + fuel → is_Some (preDispatchTaskWithRetry (Send makeTask env) uuid fuel i ctx args w)) as Hloop.
  { induction fuel as [|fuel IH]; intros i w0 Hi; [lia|]. cbn [preDispatchTaskWithRetry].
    destruct (ctx_done ctx i); [by eexists|].
    destruct (preDispatchTaskOnce _ _ _ _ _) as [[rid|[[] err]|] w1]; simpl; try by eexists.
    destruct (wouldExceed ctx i) eqn:Hi'; [by eexists|]. destruct (ctx_done_waiting ctx i); [by eexists|].
    apply IH. destruct (decide (i = n)) as [->|]; [congruence|lia]. }
  destruct (Hloop (S n) 0 w) as [[o w1] Hrun]; [lia|]. unfold dispatch, DispatchTask. rewrite Hrun.
  destruct o; by eexists.
Qed.

End proofs.

(** When the first phase fails, the dispatcher returns the error without
    having called either callback. *)
Theorem pre_dispatch_failure_is_silent {W} (Send : ExecutorRequest → GoM rpcErr W unit) uuid fuel ctx args
    (start : Go W unit) (abort : goerr → Go W unit) w err w1 :
  preDispatchTaskWithRetry Send uuid fuel 0 ctx args w = Some (Fail err, w1) →
  ∀ start' abort',
    DispatchTask Send uuid fuel ctx args start abort w = Some (Fail (GoWrap ErrExecutorPreDispatchFailed (ErrForeign err)), w1) ∧
    DispatchTask Send uuid fuel ctx args start' abort' w = Some (Fail (GoWrap ErrExecutorPreDispatchFailed (ErrForeign err)), w1).
Proof. intros Hpre start' abort'. unfold DispatchTask. by rewrite Hpre. Qed.

Module Witness.

Definition mk (w m : string) (t : Z) (cfg : string) : res goerr Runnable := Done (mkRunnable w None).
Fixpoint uuids (i : nat) : requestID := match i with 0 => "r" | S i' => String (Ascii.ascii_of_nat 114) (uuids i') end.
Definition a1 : DispatchTaskArgs := mkDispatchTaskArgs "w1" "m1" 1 "".
Definition bg : Ctx := mkCtx (λ _, false) (Some (3 * Second)%Z) (λ i, (Z.of_nat i * Second)%Z) (λ _, false).
Definition flaky (n : nat) : call_env := mkCallEnv 5 true (if bool_decide (n = 0) then lose_reply else deliver) 14.
Definition w0 : World TaskRunner := mkWorld (NewTaskCommitter 10) (NewTaskRunner 4 2) 0 [].
Definition w0_end : res goerr unit * World TaskRunner := default (Panic, w0) (dispatch mk flaky uuids 4 bg a1 w0).

Lemma uuids_length i : String.length (uuids i) = S i.
Proof. induction i as [|i IH]; [done|]. cbn. f_equal. exact IH. Qed.

Lemma uuids_inj i j : uuids i = uuids j → i = j.
Proof. intros H. apply (f_equal String.length) in H. rewrite !uuids_length in H. lia. Qed.

Lemma two_phase_dispatch_witness :
  ∃ tr, w_trace w0_end.2 = w_trace w0 ++ tr ∧
        dispatch_outcome "w1" (w_runner w0) w0_end.1 tr (w_runner w0_end.2).
Proof.
  apply (two_phase_dispatch mk flaky uuids a1) with (fuel := 4) (ctx := bg).
  - discriminate.
  - intros w m t cfg task [= <-]. reflexivity.
  - apply uuids_inj.
  - apply NewTaskCommitter_inv.
  - intros j. reflexivity.
  - vm_compute. reflexivity.
Defined.

Lemma dispatch_terminates_witness :
  is_Some (dispatch mk flaky uuids (S (Z.to_nat ((3 * Second - 0) / preDispatchTaskRetryInterval))) bg a1 w0).
Proof.
  apply (dispatch_terminates mk flaky uuids a1 bg w0 (3 * Second)).
  - reflexivity.
  - intros i. simpl. unfold preDispatchTaskRetryInterval. lia.
Defined.

End Witness.
