(* ===== verification/Worker.v ===== *)
(** * The worker side of the master-worker protocol ([lib/worker.go],
    [lib/statusutil/writer.go], [pkg/errctx/center.go], [lib/message_router.go])

    The client that tracks the master, the exit sequence, the status writer and
    the message router of a worker. The worker mutates one status object and
    hands its address to the writer, which remembers it, so statuses live in a
    store and both hold addresses. Clocks are arguments: [now] is the wall clock,
    [mono] the monotonic one. *)

From S2P Require Import Prelude Errors Model WorkerManager.

(** ** [pkg/errctx]: the error center *)

Record ErrCenter := mkErrCenter { errVal : option goerr; doneCh_closed : bool }.

Definition NewErrCenter : ErrCenter := {| errVal := None; doneCh_closed := false |}.

(** [None] is the panic of closing a closed channel. *)
Definition ErrCenter_OnError (err : option goerr) (c : ErrCenter) : option ErrCenter :=
  match err with
  | None => Some c
  | Some e =>
      match errVal c with
      | Some _ => Some c
      | None => if doneCh_closed c then None else Some {| errVal := Some e; doneCh_closed := true |}
      end
  end.

Definition CheckError (c : ErrCenter) : option goerr := errVal c.

(** [errCtx.Err], with the parent context's error. *)
Definition errCtx_Err (c : ErrCenter) (parent : option goerr) : option goerr :=
  match CheckError c with Some e => Some e | None => parent end.

(** ** [masterClient] *)

Abbreviation MonotonicTime := Z.

Record masterClient := mkMasterClient {
  mc_masterID : MasterID;
  mc_masterNode : NodeID;
  mc_masterEpoch : Epoch;
  mc_workerID : WorkerID;
  mc_lastMasterAckedPingTime : MonotonicTime;
  mc_masterSideClosed : bool;
  mc_timeoutConfig : TimeoutConfig;
}.

Definition newMasterClient (masterID : MasterID) (workerID : WorkerID) (initTime : MonotonicTime) : masterClient :=
  {| mc_masterID := masterID; mc_masterNode := ""; mc_masterEpoch := 0; mc_workerID := workerID;
     mc_lastMasterAckedPingTime := initTime; mc_masterSideClosed := false;
     mc_timeoutConfig := DefaultTimeoutConfig |}.

Definition set_master (m : masterClient) (node : NodeID) (epoch : Epoch) : masterClient :=
  {| mc_masterID := mc_masterID m; mc_masterNode := node; mc_masterEpoch := epoch; mc_workerID := mc_workerID m;
     mc_lastMasterAckedPingTime := mc_lastMasterAckedPingTime m; mc_masterSideClosed := mc_masterSideClosed m;
     mc_timeoutConfig := mc_timeoutConfig m |}.

(** [loaded] is the master's metadata as loaded from the metastore. *)
Definition InitMasterInfoFromMeta (loaded : res goerr MasterMeta) : Go masterClient unit := λ m,
  match loaded with
  | Fail e => (Fail e, m)
  | Panic => (Panic, m)
  | Done masterMeta => (Done tt, set_master m (mm_NodeID masterMeta) (mm_Epoch masterMeta))
  end.

(** [onMasterFailOver] is called, outside the lock, when the epoch grew. *)
Definition RefreshMasterInfo (loaded : res goerr MasterMeta) (onMasterFailOver : res goerr unit) : Go masterClient unit := λ m,
  match loaded with
  | Fail e => (Fail e, m)
  | Panic => (Panic, m)
  | Done masterMeta =>
      if bool_decide (mc_masterEpoch m < mm_Epoch masterMeta)%Z then
        let m' := set_master m (mm_NodeID masterMeta) (mm_Epoch masterMeta) in
        (onMasterFailOver, m')
      else (Done tt, set_master m (mm_NodeID masterMeta) (mc_masterEpoch m))
  end.

Definition masterClient_HandleHeartbeat (sender : NodeID) (msg : HeartbeatPongMessage) (m : masterClient) : masterClient :=
  if bool_decide (pong_Epoch msg < mc_masterEpoch m)%Z then m else
  let m1 := if bool_decide (mc_masterEpoch m < pong_Epoch msg)%Z then set_master m sender (pong_Epoch msg) else m in
  {| mc_masterID := mc_masterID m1; mc_masterNode := mc_masterNode m1; mc_masterEpoch := mc_masterEpoch m1;
     mc_workerID := mc_workerID m1; mc_lastMasterAckedPingTime := pong_SendTime msg;
     mc_masterSideClosed := if pong_IsFinished msg then true else mc_masterSideClosed m1;
     mc_timeoutConfig := mc_timeoutConfig m1 |}.

(** [Done true]: carry on; [Done false]: the worker must stop. *)
Definition CheckMasterTimeout (mono : MonotonicTime) (loaded : res goerr MasterMeta)
    (onMasterFailOver : res goerr unit) : Go masterClient bool := λ m,
  let sinceLastAcked := int64 (mono - mc_lastMasterAckedPingTime m) in
  let twice := int64 (2 * WorkerHeartbeatInterval (mc_timeoutConfig m)) in
  if bool_decide (sinceLastAcked ≤ twice)%Z then (Done true, m)
  else if bool_decide (twice < sinceLastAcked)%Z &&
          bool_decide (sinceLastAcked < WorkerTimeoutDuration (mc_timeoutConfig m))%Z then
    match RefreshMasterInfo loaded onMasterFailOver m with
    | (Done _, m') => (Done true, m')
    | (Fail e, m') => (Fail e, m')
    | (Panic, m') => (Panic, m')
    end
  else (Done false, m).

Definition heartbeatMsg (mono : MonotonicTime) (isFinished : bool) (m : masterClient) : HeartbeatPingMessage :=
  {| ping_SendTime := mono; ping_FromWorkerID := mc_workerID m; ping_Epoch := mc_masterEpoch m;
     ping_IsFinished := isFinished |}.

(** [sent] is the answer of the message sender. *)
Definition SendHeartBeat (mono : MonotonicTime) (isFinished : bool) (sent : res goerr bool) (m : masterClient) :
    res goerr unit * (NodeID * string * HeartbeatPingMessage) :=
  (match sent with Done _ => Done tt | Fail e => Fail e | Panic => Panic end,
   (mc_masterNode m, HeartbeatPingTopic (mc_masterID m), heartbeatMsg mono isFinished m)).

(** [clock.ToMono]: the time since 1970. *)
Definition ToMono (t : Time) : MonotonicTime := t.

(** The last acked ping time a worker starts with: its submit time, when the
    runtime gave one. *)
Definition initTime (mono : MonotonicTime) (submitTime : option Time) : MonotonicTime :=
  match submitTime with Some t => ToMono t | None => mono end.

(** ** The exit controller *)

Inductive workerExitFsmState : Type := workerNormal | workerHalfExit | workerExited.

#[global] Instance workerExitFsmState_eq_dec : EqDecision workerExitFsmState.
Proof. solve_decision. Defined.

Definition workerExitWaitForMasterTimeout : Duration := (Second * 15)%Z.

Record workerExitController := mkExitController {
  ec_fsm : workerExitFsmState;
  ec_halfExitTime : Time;
  ec_errCenter : ErrCenter;
  ec_masterClient : masterClient;
}.

Definition newWorkerExitController (m : masterClient) (c : ErrCenter) : workerExitController :=
  {| ec_fsm := workerNormal; ec_halfExitTime := zeroTime; ec_errCenter := c; ec_masterClient := m |}.

Definition set_fsm (st : workerExitFsmState) (t : Time) (c : workerExitController) : workerExitController :=
  {| ec_fsm := st; ec_halfExitTime := t; ec_errCenter := ec_errCenter c; ec_masterClient := ec_masterClient c |}.

Definition halfExitErr : goerr := GoErr ErrWorkerHalfExit "".

Definition PollExit (now : Time) : Go workerExitController unit := λ c,
  match CheckError (ec_errCenter c) with
  | None => (Done tt, c)
  | Some err =>
      match ec_fsm c with
      | workerNormal => (Fail halfExitErr, set_fsm workerHalfExit now c)
      | workerHalfExit =>
          if mc_masterSideClosed (ec_masterClient c) then (Fail err, set_fsm workerExited (ec_halfExitTime c) c)
          else if bool_decide (workerExitWaitForMasterTimeout < now - ec_halfExitTime c)%Z then (Fail err, c)
          else (Fail halfExitErr, c)
      | workerExited => (Fail err, c)
      end
  end.

Definition ForceExit (errIn : goerr) (c : workerExitController) : option workerExitController :=
  match ErrCenter_OnError (Some errIn) (ec_errCenter c) with
  | Some ec => Some {| ec_fsm := workerExited; ec_halfExitTime := ec_halfExitTime c; ec_errCenter := ec;
                       ec_masterClient := ec_masterClient c |}
  | None => None
  end.

Definition IsExiting (c : workerExitController) : bool := bool_decide (ec_fsm c = workerHalfExit).

(** [Poll]: the rest of [doPoll] and the implementation's [Tick] as their
    results. An error of [Tick] is reported to the center. *)
Definition Poll (now : Time) (doPoll_rest tick : res goerr unit) : Go workerExitController unit := λ c,
  match PollExit now c with
  | (Panic, c') => (Panic, c')
  | (Fail e, c') => if err_Equal ErrWorkerHalfExit (Some e) then (Done tt, c') else (Fail e, c')
  | (Done _, c') =>
      match doPoll_rest with
      | Panic => (Panic, c')
      | Fail e => if err_Equal ErrWorkerHalfExit (Some e) then (Done tt, c') else (Fail e, c')
      | Done _ =>
          match tick with
          | Panic => (Panic, c')
          | Done _ => (Done tt, c')
          | Fail e =>
              match ErrCenter_OnError (Some e) (ec_errCenter c') with
              | Some ec => (Done tt, {| ec_fsm := ec_fsm c'; ec_halfExitTime := ec_halfExitTime c';
                                        ec_errCenter := ec; ec_masterClient := ec_masterClient c' |})
              | None => (Panic, c')
              end
          end
      end
  end.

(** One tick of [runWatchDog]: the worker kills itself when the master is lost. *)
Definition watchDog (mono : MonotonicTime) (loaded : res goerr MasterMeta) (onMasterFailOver : res goerr unit) :
    Go workerExitController unit := λ c,
  match CheckMasterTimeout mono loaded onMasterFailOver (ec_masterClient c) with
  | (Panic, m) => (Panic, c)
  | (Fail e, m) =>
      (Fail e, {| ec_fsm := ec_fsm c; ec_halfExitTime := ec_halfExitTime c; ec_errCenter := ec_errCenter c; ec_masterClient := m |})
  | (Done true, m) =>
      (Done tt, {| ec_fsm := ec_fsm c; ec_halfExitTime := ec_halfExitTime c; ec_errCenter := ec_errCenter c; ec_masterClient := m |})
  | (Done false, m) =>
      let errOut := GoErr ErrWorkerSuicide (mc_masterID m) in
      match ForceExit errOut {| ec_fsm := ec_fsm c; ec_halfExitTime := ec_halfExitTime c;
                                ec_errCenter := ec_errCenter c; ec_masterClient := m |} with
      | Some c' => (Fail errOut, c')
      | None => (Panic, c)
      end
  end.

(** ** The status writer *)

Abbreviation status_ptr := nat.

(** The worker's statuses: the store of status objects, the worker's object, the
    writer's [lastStatus], the rows of the metastore, the messages sent. *)
Record StatusState := mkStatusState {
  ss_store : list WorkerStatus;
  ss_workerStatus : status_ptr;
  ss_lastStatus : option status_ptr;
  ss_rows : gmap (MasterID * WorkerID) WorkerStatus;
  ss_sent : list WorkerStatusMessage;
}.

(** What the environment answers to the persist with retries and to the send
    with retries. *)
Record io_result := mkIo { io_persist : res goerr unit; io_send : res goerr unit; io_epoch : Epoch }.

(** [UPDATE ... WHERE job_id = ? AND id = ?]: no row, no effect. *)
Definition UpdateWorker (s : WorkerStatus) (rows : gmap (MasterID * WorkerID) WorkerStatus) :=
  match rows !! (ws_JobID s, ws_ID s) with
  | Some _ => <[(ws_JobID s, ws_ID s) := s]> rows
  | None => rows
  end.
Definition UpsertWorker (s : WorkerStatus) (rows : gmap (MasterID * WorkerID) WorkerStatus) :=
  <[(ws_JobID s, ws_ID s) := s]> rows.

Definition needs_persist (st : StatusState) (newStatus : WorkerStatus) : bool :=
  match ss_lastStatus st with
  | None => true
  | Some p => match ss_store st !! p with Some last => HasSignificantChange newStatus last | None => true end
  end.

Definition Writer_UpdateStatus (io : io_result) (p : status_ptr) : Go StatusState unit := λ st,
  match ss_store st !! p with
  | None => (Panic, st)
  | Some newStatus =>
      let persisted :=
        if needs_persist st newStatus then
          match io_persist io with
          | Done _ => (Done tt, UpdateWorker newStatus (ss_rows st))
          | out => (out, ss_rows st)
          end
        else (Done tt, ss_rows st) in
      match persisted with
      | (Done _, rows) =>
          let msg := {| wsm_Worker := ws_ID newStatus; wsm_MasterEpoch := io_epoch io; wsm_Status := Some newStatus |} in
          (io_send io, {| ss_store := ss_store st; ss_workerStatus := ss_workerStatus st; ss_lastStatus := Some p;
                          ss_rows := rows;
                          ss_sent := match io_send io with Done _ => ss_sent st ++ [msg] | _ => ss_sent st end |})
      | (out, _) => (out, st)
      end
  end.

(** [w.workerStatus.Code = ...] and the like: the object is changed in place. *)
Definition mutate_status (f : WorkerStatus → WorkerStatus) (st : StatusState) : StatusState :=
  {| ss_store := alter f (ss_workerStatus st) (ss_store st); ss_workerStatus := ss_workerStatus st;
     ss_lastStatus := ss_lastStatus st; ss_rows := ss_rows st; ss_sent := ss_sent st |}.

Definition with_code (code : Z) (s : WorkerStatus) : WorkerStatus :=
  mkWorkerStatus (ws_ProjectID s) (ws_JobID s) (ws_ID s) (ws_Type s) code (ws_ErrorMessage s) (ws_ExtBytes s).
Definition with_report (code : Z) (msg ext : string) (s : WorkerStatus) : WorkerStatus :=
  mkWorkerStatus (ws_ProjectID s) (ws_JobID s) (ws_ID s) (ws_Type s) code msg ext.

Definition NewBaseWorker_status (masterID : MasterID) (workerID : WorkerID) (rows : gmap (MasterID * WorkerID) WorkerStatus) : StatusState :=
  {| ss_store := [mkWorkerStatus "" masterID workerID 0 0 "" ""]; ss_workerStatus := 0; ss_lastStatus := None;
     ss_rows := rows; ss_sent := [] |}.

Definition doPostInit (upsert : res goerr unit) (io : io_result) : Go StatusState unit := λ st,
  match upsert with
  | Fail e => (Fail e, st)
  | Panic => (Panic, st)
  | Done _ =>
      match ss_store st !! ss_workerStatus st with
      | None => (Panic, st)
      | Some s =>
          let st1 := {| ss_store := ss_store st; ss_workerStatus := ss_workerStatus st; ss_lastStatus := ss_lastStatus st;
                        ss_rows := UpsertWorker s (ss_rows st); ss_sent := ss_sent st |} in
          Writer_UpdateStatus io (ss_workerStatus st) (mutate_status (with_code WorkerStatusInit) st1)
      end
  end.

Definition Worker_UpdateStatus (io : io_result) (code : Z) (msg ext : string) : Go StatusState unit := λ st,
  Writer_UpdateStatus io (ss_workerStatus st) (mutate_status (with_report code msg ext) st).

(** [err] set forces the error code. *)
Definition Exit (io : io_result) (code : Z) (msg ext : string) (err : option goerr) : Go StatusState unit := λ st,
  let code' := match err with Some _ => WorkerStatusError | None => code end in
  match Writer_UpdateStatus io (ss_workerStatus st) (mutate_status (with_report code' msg ext) st) with
  | (Done _, st') => (Fail (GoErr ErrWorkerFinish ""), st')
  | out => out
  end.

(** ** The message router *)

Record MessageRouter (M : Type) := mkMessageRouter { mr_buffer : list M; mr_size : nat; mr_errCh : option goerr }.
Arguments mkMessageRouter {M}.
Arguments mr_buffer {M}.
Arguments mr_size {M}.
Arguments mr_errCh {M}.

(** The oldest message makes room for the new one. *)
Definition AppendMessage {M} (msg : M) (r : MessageRouter M) : MessageRouter M :=
  {| mr_buffer := if bool_decide (length (mr_buffer r) < mr_size r) then mr_buffer r ++ [msg]
                  else drop 1 (mr_buffer r) ++ [msg];
     mr_size := mr_size r; mr_errCh := mr_errCh r |}.

(** One message is routed; an error of the handler goes to [errCh] when it has
    room. *)
Definition MessageRouter_Tick {M} (routeFn : M → option goerr) (r : MessageRouter M) : option M * MessageRouter M :=
  match mr_buffer r with
  | [] => (None, r)
  | msg :: b =>
      (Some msg, {| mr_buffer := b; mr_size := mr_size r;
                    mr_errCh := match mr_errCh r with Some e => Some e | None => routeFn msg end |})
  end.

(** ** Specification *)

Inductive exit_step (c : workerExitController) : res goerr unit → workerExitController → Prop :=
| es_poll now rest tick :
    rest ≠ Panic → tick ≠ Panic → exit_step c (Poll now rest tick c).1 (Poll now rest tick c).2
| es_watchdog mono loaded fo :
    loaded ≠ Panic → fo ≠ Panic → exit_step c (watchDog mono loaded fo c).1 (watchDog mono loaded fo c).2
| es_pong sender msg :
    exit_step c (Done tt) {| ec_fsm := ec_fsm c; ec_halfExitTime := ec_halfExitTime c; ec_errCenter := ec_errCenter c;
                             ec_masterClient := masterClient_HandleHeartbeat sender msg (ec_masterClient c) |}
| es_error e ec :
    ErrCenter_OnError (Some e) (ec_errCenter c) = Some ec →
    exit_step c (Done tt) {| ec_fsm := ec_fsm c; ec_halfExitTime := ec_halfExitTime c; ec_errCenter := ec;
                             ec_masterClient := ec_masterClient c |}.

Definition exit_reachable (c : workerExitController) : Prop :=
  ∃ m, rtc (λ c c', ∃ out, exit_step c out c') (newWorkerExitController m NewErrCenter) c.

(** The done channel is closed exactly when an error was recorded, and a worker
    only leaves the normal state because of one. *)
Record exit_inv (c : workerExitController) : Prop := {
  ei_done : doneCh_closed (ec_errCenter c) = true ↔ is_Some (errVal (ec_errCenter c));
  ei_left : ec_fsm c ≠ workerNormal → is_Some (errVal (ec_errCenter c));
}.

Definition fsm_rank (st : workerExitFsmState) : nat :=
  match st with workerNormal => 0 | workerHalfExit => 1 | workerExited => 2 end.

(** What one step of the exit sequence keeps: the state only advances and the
    first error stays. *)
Definition exit_progress (c c' : workerExitController) : Prop :=
  exit_inv c' ∧ fsm_rank (ec_fsm c) ≤ fsm_rank (ec_fsm c') ∧
  (∀ e, errVal (ec_errCenter c) = Some e → errVal (ec_errCenter c') = Some e).

(** A worker reports its statuses one after another. *)
Inductive status_call : Type :=
| call_update (io : io_result) (code : Z) (msg ext : string)
| call_exit (io : io_result) (code : Z) (msg ext : string) (err : option goerr).

Definition run_call (c : status_call) : Go StatusState unit :=
  match c with
  | call_update io code msg ext => Worker_UpdateStatus io code msg ext
  | call_exit io code msg ext err => Exit io code msg ext err
  end.

Definition run_calls (cs : list status_call) (st : StatusState) : StatusState :=
  foldl (λ s c, (run_call c s).2) st cs.

(** The writer's last status is the worker's own object. *)
Definition aliased (st : StatusState) : Prop :=
  ss_lastStatus st = Some (ss_workerStatus st) ∧ is_Some (ss_store st !! ss_workerStatus st).

(** What a status call reports. *)
Definition call_report (c : status_call) : Z * string * string :=
  match c with
  | call_update _ code msg ext => (code, msg, ext)
  | call_exit _ code msg ext err => (match err with Some _ => WorkerStatusError | None => code end, msg, ext)
  end.
Definition call_io (c : status_call) : io_result :=
  match c with call_update io _ _ _ => io | call_exit io _ _ _ _ => io end.

(** ** Lemmas *)

Lemma ErrCenter_first_wins e c c' :
  ErrCenter_OnError (Some e) c = Some c' → is_Some (errVal c') ∧ (∀ e0, errVal c = Some e0 → errVal c' = Some e0) ∧
  ((doneCh_closed c = true ↔ is_Some (errVal c)) → (doneCh_closed c' = true ↔ is_Some (errVal c'))).
Proof.
  unfold ErrCenter_OnError. destruct (errVal c) eqn:He.
  - intros [= <-]. rewrite He. by eauto.
  - destruct (doneCh_closed c) eqn:Hd; [done|]. intros [= <-]; simpl. split_and!; [by eexists|done|by eauto].
Qed.

Lemma ErrCenter_no_panic e c :
  (doneCh_closed c = true ↔ is_Some (errVal c)) → is_Some (ErrCenter_OnError (Some e) c).
Proof.
  intros Hd. unfold ErrCenter_OnError. destruct (errVal c); [by eexists|]. destruct (doneCh_closed c); [|by eexists].
  destruct Hd as [[? ?] _]; done.
Qed.

Lemma set_master_epoch m n e : mc_masterEpoch (set_master m n e) = e.
Proof. done. Qed.

Lemma RefreshMasterInfo_epoch l fo m : (mc_masterEpoch m ≤ mc_masterEpoch (RefreshMasterInfo l fo m).2)%Z.
Proof. unfold RefreshMasterInfo. destruct l; simpl; try lia. case_bool_decide; simpl; lia. Qed.

Lemma HandleHeartbeat_epoch sender msg m : (mc_masterEpoch m ≤ mc_masterEpoch (masterClient_HandleHeartbeat sender msg m))%Z.
Proof. unfold masterClient_HandleHeartbeat. repeat case_bool_decide; simpl; lia. Qed.

Lemma CheckMasterTimeout_epoch mono l fo m : (mc_masterEpoch m ≤ mc_masterEpoch (CheckMasterTimeout mono l fo m).2)%Z.
Proof.
  unfold CheckMasterTimeout. case_bool_decide; [simpl; lia|]. destruct (_ && _); [|simpl; lia].
  pose proof (RefreshMasterInfo_epoch l fo m). by destruct (RefreshMasterInfo l fo m) as [[?|?|] ?].
Qed.

Lemma CheckMasterTimeout_no_panic mono l fo m : l ≠ Panic → fo ≠ Panic → (CheckMasterTimeout mono l fo m).1 ≠ Panic.
Proof.
  intros Hl Hf. unfold CheckMasterTimeout, RefreshMasterInfo.
  repeat (case_match; simplify_eq/=; try done).
Qed.

Lemma exit_progress_refl c : exit_inv c → exit_progress c c.
Proof. done. Qed.

Lemma PollExit_progress now c : exit_inv c → (PollExit now c).1 ≠ Panic ∧ exit_progress c (PollExit now c).2.
Proof.
  intros [Hd Hl]. unfold PollExit, CheckError. destruct (errVal (ec_errCenter c)) as [e|] eqn:He.
  - destruct (ec_fsm c) eqn:Hf; repeat case_match; (split; [done|]); (split; [split; simpl; rewrite ?He; eauto|]); simpl; rewrite ?Hf; auto with lia.
  - split; [done|]. simpl. split; [split; by rewrite He|]. by rewrite He.
Qed.

Lemma on_error_progress e ec c :
  exit_inv c → ErrCenter_OnError (Some e) (ec_errCenter c) = Some ec →
  exit_progress c {| ec_fsm := ec_fsm c; ec_halfExitTime := ec_halfExitTime c; ec_errCenter := ec; ec_masterClient := ec_masterClient c |}.
Proof.
  intros [Hd Hl] Hon. destruct (ErrCenter_first_wins _ _ _ Hon) as (Hs & Hw & Hdone).
  split; [split; simpl; auto|]. simpl. auto.
Qed.

Lemma Poll_progress now rest tick c :
  exit_inv c → rest ≠ Panic → tick ≠ Panic → (Poll now rest tick c).1 ≠ Panic ∧ exit_progress c (Poll now rest tick c).2.
Proof.
  intros Hinv Hr Ht. unfold Poll. destruct (PollExit_progress now c Hinv) as [Hnp Hp].
  destruct (PollExit now c) as [[[]|e|] c'] eqn:Hpoll; simpl in Hnp, Hp; [|by case_match|done].
  destruct rest as [[]|e|]; [|by case_match|done]. destruct tick as [[]|e|]; [done| |done].
  destruct Hp as (Hinv' & Hrank & Hfirst). destruct (ErrCenter_no_panic e (ec_errCenter c')) as [ec Hec]; [apply Hinv'|].
  rewrite Hec. split; [done|]. destruct (on_error_progress e ec c' Hinv' Hec) as (? & ? & Hf'). simpl in *. split_and!; auto with lia.
Qed.

Lemma watchDog_progress mono l fo c :
  exit_inv c → l ≠ Panic → fo ≠ Panic → (watchDog mono l fo c).1 ≠ Panic ∧ exit_progress c (watchDog mono l fo c).2.
Proof.
  intros [Hd Hl] Hln Hfn. unfold watchDog. pose proof (CheckMasterTimeout_no_panic mono l fo (ec_masterClient c) Hln Hfn) as Hnp.
  destruct (CheckMasterTimeout mono l fo (ec_masterClient c)) as [[[]|e|] m]; simpl in *; [| | |done].
  - split; [done|]. split; [by split|auto].
  - unfold ForceExit; cbn [ec_errCenter]. destruct (ErrCenter_no_panic (GoErr ErrWorkerSuicide (mc_masterID m)) _ Hd) as [ec Hec].
    rewrite Hec. destruct (ErrCenter_first_wins _ _ _ Hec) as (Hs & Hw & Hdone). simpl. split; [done|].
    split; [split; simpl; auto|]. simpl. split; [destruct (ec_fsm c); simpl; lia|done].
  - split; [done|]. split; [by split|auto].
Qed.

Lemma exit_step_progress c out c' : exit_inv c → exit_step c out c' → out ≠ Panic ∧ exit_progress c c'.
Proof.
  intros Hinv Hs. destruct Hs as [now rest tick|mono l fo|sender msg|e ec Hec].
  - by apply Poll_progress.
  - by apply watchDog_progress.
  - destruct Hinv as [Hd Hl]. split; [done|]. split; [by split|auto].
  - split; [done|]. by eapply on_error_progress.
Qed.

Lemma exit_reachable_inv c : exit_reachable c → exit_inv c.
Proof.
  intros (m & Hr). assert (exit_inv (newWorkerExitController m NewErrCenter)) as Hinv.
  { split; simpl; [|done]. split; [done|by intros [? ?]]. }
  induction Hr as [x|x y z [out Hxy] _ IH]; [done|]. apply IH. by apply (exit_step_progress _ _ _ Hinv Hxy).
Qed.

Lemma Writer_aliased io f st :
  aliased st →
  let out := Writer_UpdateStatus io (ss_workerStatus st) (mutate_status f st) in
  aliased out.2 ∧ ss_rows out.2 = ss_rows st ∧ out.1 = io_send io ∧
  ss_workerStatus out.2 = ss_workerStatus st ∧ ss_store out.2 = alter f (ss_workerStatus st) (ss_store st) ∧
  ∃ s, ss_store st !! ss_workerStatus st = Some s ∧
    ss_sent out.2 = match io_send io with
                    | Done _ => ss_sent st ++ [mkWorkerStatusMessage (ws_ID (f s)) (io_epoch io) (Some (f s))]
                    | _ => ss_sent st
                    end.
Proof.
  intros [Hl [s Hs]]. unfold Writer_UpdateStatus, needs_persist. simpl. rewrite Hl.
  rewrite list_lookup_alter_eq, Hs. simpl. rewrite HasSignificantChange_irrefl. simpl.
  split_and!; try done; [split; [done|]; simpl; by rewrite list_lookup_alter_eq, Hs|]. by eexists.
Qed.

Lemma run_call_aliased c st : aliased st → aliased (run_call c st).2 ∧ ss_rows (run_call c st).2 = ss_rows st.
Proof.
  intros Ha. destruct c as [io code msg ext|io code msg ext err]; simpl.
  - by destruct (Writer_aliased io (with_report code msg ext) st Ha) as (? & ? & _).
  - unfold Exit. set (code' := match err with Some _ => _ | None => _ end).
    destruct (Writer_aliased io (with_report code' msg ext) st Ha) as (? & ? & _).
    by destruct (Writer_UpdateStatus _ _ _) as [[?|?|] ?].
Qed.

Lemma run_calls_aliased cs st : aliased st → aliased (run_calls cs st) ∧ ss_rows (run_calls cs st) = ss_rows st.
Proof.
  revert st. induction cs as [|c cs IH]; intros st Ha; [done|]. simpl.
  destruct (run_call_aliased c st Ha) as [Ha' Hr]. destruct (IH _ Ha') as [? Hr']. split; [done|].
  unfold run_calls in *. congruence.
Qed.

Lemma doPostInit_eq masterID workerID rows io st :
  doPostInit (Done tt) io (NewBaseWorker_status masterID workerID rows) = (Done tt, st) →
  aliased st ∧ ss_rows st !! (masterID, workerID) = Some (mkWorkerStatus "" masterID workerID 0 WorkerStatusInit "" "").
Proof.
  unfold doPostInit, NewBaseWorker_status, Writer_UpdateStatus, mutate_status; simpl.
  destruct (io_persist io) as [[]|e|]; simpl; [|done|done]. destruct (io_send io) as [[]|e|]; [|done|done].
  intros [= <-]. split; [split; [done|by eexists]|]. simpl. unfold UpdateWorker, UpsertWorker; simpl.
  rewrite lookup_insert_eq. by rewrite lookup_insert_eq.
Qed.

(** The buffer after a list of messages, for a router with room. *)
Lemma AppendMessage_fold {M} (ms : list M) r :
  0 < mr_size r → length (mr_buffer r) ≤ mr_size r →
  mr_buffer (foldl (λ acc m, AppendMessage m acc) r ms) =
  drop (length (mr_buffer r ++ ms) - mr_size r) (mr_buffer r ++ ms) ∧
  mr_size (foldl (λ acc m, AppendMessage m acc) r ms) = mr_size r.
Proof.
  revert r. induction ms as [|m ms IH]; intros r Hs Hlen; simpl.
  { rewrite app_nil_r. by replace (length (mr_buffer r) - mr_size r) with 0 by lia. }
  destruct (IH (AppendMessage m r)) as [Hb Hsz]; simpl; [done| |].
  { case_bool_decide; rewrite length_app; simpl; [lia|]. rewrite length_drop. lia. }
  simpl in Hb, Hsz. split; [|done]. rewrite Hb. rewrite !length_app in *. simpl length.
  case_bool_decide as Hroom.
  - rewrite <- (app_assoc (mr_buffer r)); simpl. f_equal. rewrite !length_app; simpl. lia.
  - assert (length (mr_buffer r) = mr_size r) as Heq by lia.
    destruct (mr_buffer r) as [|x b] eqn:Hbuf; [simpl in *; lia|]. simpl drop at 2. simpl in Heq.
    rewrite !length_app. simpl length. rewrite <- app_assoc. simpl.
    replace (S (length b + S (length ms)) - mr_size r) with (S (length b + 1 + length ms - mr_size r)) by lia. done.
Qed.

Lemma default_twice_heartbeat : int64 (2 * WorkerHeartbeatInterval DefaultTimeoutConfig) = (6 * Second)%Z.
Proof. vm_compute. reflexivity. Qed.

(** ** Properties *)

(** The exit sequence of a worker never panics, only moves forward (normal,
    half exit, exited), and reports the first error; whatever interleaving of
    polls, watchdog ticks, pongs and background errors. *)
Theorem worker_exit_monotone c out c' :
  exit_reachable c → exit_step c out c' → out ≠ Panic ∧ exit_progress c c'.
Proof. intros Hr%exit_reachable_inv. by apply exit_step_progress. Qed.

(** A worker with an error to report does not stop before its master has
    acknowledged the end, unless it waited longer than the timeout or was
    forced to exit; and then it stops with that error. *)
Theorem worker_exit_waits_for_master now rest tick c e c' :
  exit_reachable c → errVal (ec_errCenter c) = Some e →
  Poll now rest tick c = (Fail e, c') →
  ec_fsm c = workerExited ∨
  ec_fsm c = workerHalfExit ∧
    (mc_masterSideClosed (ec_masterClient c) = true ∨ (workerExitWaitForMasterTimeout < now - ec_halfExitTime c)%Z).
Proof.
  intros _ He. unfold Poll, PollExit, CheckError. rewrite He.
  assert (err_Equal ErrWorkerHalfExit (Some halfExitErr) = true) as Hhe by (unfold halfExitErr; by rewrite err_Equal_GoErr, bool_decide_eq_true_2).
  destruct (ec_fsm c); [by rewrite Hhe| |auto].
  destruct (mc_masterSideClosed (ec_masterClient c)); [by auto|].
  case_bool_decide; [by auto|]. by rewrite Hhe.
Qed.

(** C25: a lease. If the master handled a ping sent at [s], at [t >= s], then by
    the time its checker may declare the worker timed out, every watchdog tick
    of the worker in the last heartbeat interval has found the master lost, so
    the worker has stopped: no worker outlives its registration. *)
Theorem worker_stops_before_master_gives_up (cfg : TimeoutConfig) m e s t now mono l fo :
  mc_timeoutConfig m = cfg → mc_lastMasterAckedPingTime m = s → (s ≤ t)%Z →
  we_expireAt e = (t + int64 (WorkerTimeoutDuration cfg + WorkerTimeoutGracefulDuration cfg))%Z →
  in_int64 (WorkerTimeoutDuration cfg + WorkerTimeoutGracefulDuration cfg) →
  in_int64 (2 * WorkerHeartbeatInterval cfg + Second * 3) → in_int64 (2 * WorkerHeartbeatInterval cfg) →
  in_int64 (mono - s) →
  (0 ≤ WorkerHeartbeatInterval cfg ≤ WorkerTimeoutGracefulDuration cfg)%Z →
  cfg = Adjust cfg →
  IsFinished e = false → shouldGoOffline now e = true → (now - WorkerHeartbeatInterval cfg ≤ mono)%Z →
  CheckMasterTimeout mono l fo m = (Done false, m).
Proof.
  intros Hcfg Hs Hst Hexp Hin Hin3 Hin2 Hins Hg Hadj Hfin Hoff Hmono.
  rewrite int64_id in Hexp by done.
  unfold shouldGoOffline in Hoff. rewrite Hfin, orb_false_r in Hoff. apply bool_decide_eq_true in Hoff.
  pose proof (Adjust_min cfg Hin3) as Hmin. rewrite <- Hadj in Hmin. unfold Second in *.
  unfold CheckMasterTimeout. rewrite Hcfg, Hs, !int64_id by done.
  rewrite bool_decide_eq_false_2 by lia.
  rewrite (bool_decide_eq_false_2 (_ < WorkerTimeoutDuration cfg)%Z) by lia. by rewrite andb_false_r.
Qed.

(** A submit time read from the wall clock is used as a monotonic time. As
    long as the monotonic clock is behind it, a worker that has never been
    acknowledged is never found timed out. *)
Theorem unacked_worker_never_times_out masterID workerID mono0 submit mono l fo :
  in_int64 (mono - submit) → (mono ≤ submit)%Z →
  CheckMasterTimeout mono l fo (newMasterClient masterID workerID (initTime mono0 (Some submit))) =
  (Done true, newMasterClient masterID workerID (initTime mono0 (Some submit))).
Proof.
  intros Hin Hle. unfold CheckMasterTimeout.
  cbn [newMasterClient mc_lastMasterAckedPingTime mc_timeoutConfig initTime]. unfold ToMono.
  rewrite default_twice_heartbeat, int64_id by done. rewrite bool_decide_eq_true_2; [done|]. unfold Second. lia.
Qed.

(** Every status call of a worker that ends without an error of the sender
    sends the master exactly one message, with the code, message and bytes
    reported. *)
Theorem status_call_sends_report masterID workerID rows io st cs c :
  doPostInit (Done tt) io (NewBaseWorker_status masterID workerID rows) = (Done tt, st) →
  io_send (call_io c) = Done tt →
  ∃ m s, ss_sent (run_call c (run_calls cs st)).2 = ss_sent (run_calls cs st) ++ [m] ∧
    wsm_Status m = Some s ∧ (ws_Code s, ws_ErrorMessage s, ws_ExtBytes s) = call_report c.
Proof.
  intros [Ha _]%doPostInit_eq Hsend. destruct (run_calls_aliased cs st Ha) as [Ha' _].
  destruct c as [io' code msg ext|io' code msg ext err]; simpl in *.
  - destruct (Writer_aliased io' (with_report code msg ext) _ Ha') as (_ & _ & _ & _ & _ & s & _ & Hsent).
    rewrite Hsend in Hsent. unfold Worker_UpdateStatus. rewrite Hsent. by eexists _, _.
  - unfold Exit. set (code' := match err with Some _ => _ | None => _ end).
    destruct (Writer_aliased io' (with_report code' msg ext) _ Ha') as (_ & _ & Hout & _ & _ & s & _ & Hsent).
    rewrite Hsend in Hsent, Hout. destruct (Writer_UpdateStatus _ _ _) as [r st2]; simpl in *. subst r. simpl. rewrite Hsent. by eexists _, _.
Qed.

(** After its initialisation a worker never persists a status change again,
    successful calls included: the writer compares the worker's object with
    itself. The row keeps the initial status whatever the worker reports. *)
Theorem status_changes_never_persisted masterID workerID rows io st cs :
  doPostInit (Done tt) io (NewBaseWorker_status masterID workerID rows) = (Done tt, st) →
  ss_rows (run_calls cs st) = ss_rows st ∧
  ss_rows (run_calls cs st) !! (masterID, workerID) = Some (mkWorkerStatus "" masterID workerID 0 WorkerStatusInit "" "").
Proof.
  intros [Ha Hrow]%doPostInit_eq. destruct (run_calls_aliased cs st Ha) as [_ ->]. done.
Qed.

(** The message router keeps the most recent messages, in order, up to its
    buffer size. *)
Theorem router_keeps_latest {M} (ms : list M) n :
  0 < n →
  mr_buffer (foldl (λ acc m, AppendMessage m acc) (mkMessageRouter [] n None) ms) = drop (length ms - n) ms.
Proof. intros Hn. by destruct (AppendMessage_fold ms (mkMessageRouter [] n None)) as [-> _]; [|simpl; lia|]. Qed.

Module Witness.

Definition mc0 : masterClient := newMasterClient "m" "w" 0.
Definition c0 : workerExitController := newWorkerExitController mc0 NewErrCenter.
Definition e0 : goerr := ErrForeign "task failed".
Definition c1 : workerExitController := (Poll 1 (Done tt) (Fail e0) c0).2.
Definition c2 : workerExitController := (Poll 2 (Done tt) (Done tt) c1).2.

Lemma c2_reachable : exit_reachable c2.
Proof.
  exists mc0. eapply rtc_l; [exists (Done tt); by apply (es_poll c0 1 (Done tt) (Fail e0))|].
  eapply rtc_l; [exists (Done tt); by apply (es_poll c1 2 (Done tt) (Done tt))|]. apply rtc_refl.
Defined.

Lemma worker_exit_monotone_witness :
  (Poll 2 (Done tt) (Done tt) c2).1 ≠ Panic ∧ exit_progress c2 (Poll 2 (Done tt) (Done tt) c2).2.
Proof. apply worker_exit_monotone; [apply c2_reachable|by apply es_poll]. Defined.

Lemma worker_exit_waits_for_master_witness :
  ec_fsm c2 = workerExited ∨
  ec_fsm c2 = workerHalfExit ∧
    (mc_masterSideClosed (ec_masterClient c2) = true ∨ (workerExitWaitForMasterTimeout < 20 * Second - ec_halfExitTime c2)%Z).
Proof.
  eapply (worker_exit_waits_for_master (20 * Second) (Done tt) (Done tt) c2 e0 c2).
  - apply c2_reachable.
  - reflexivity.
  - vm_compute. reflexivity.
Defined.

Definition late : workerEntry := newWorkerEntry "w" "ex" (1 + 20 * Second) workerEntryNormal None.

Lemma worker_stops_before_master_gives_up_witness :
  CheckMasterTimeout (19 * Second + 2) (Done (mkMasterMeta "" "m" 0 0 "" "" 0 "")) (Done tt) mc0 = (Done false, mc0).
Proof.
  apply (worker_stops_before_master_gives_up DefaultTimeoutConfig mc0 late 0 1 (22 * Second)).
  - reflexivity.
  - reflexivity.
  - discriminate.
  - vm_compute. reflexivity.
  - vm_compute. split; [discriminate|reflexivity].
  - vm_compute. split; [discriminate|reflexivity].
  - vm_compute. split; [discriminate|reflexivity].
  - vm_compute. split; [discriminate|reflexivity].
  - vm_compute. split; discriminate.
  - vm_compute. reflexivity.
  - reflexivity.
  - vm_compute. reflexivity.
  - vm_compute. discriminate.
Defined.

Lemma unacked_worker_never_times_out_witness :
  CheckMasterTimeout (1000 * Second) (Done (mkMasterMeta "" "m" 0 0 "" "" 0 "")) (Done tt)
    (newMasterClient "m" "w" (initTime 0 (Some (1600000000 * Second)%Z))) =
  (Done true, newMasterClient "m" "w" (initTime 0 (Some (1600000000 * Second)%Z))).
Proof.
  apply unacked_worker_never_times_out; vm_compute; [split; [discriminate|reflexivity]|discriminate].
Defined.

Definition ok_io : io_result := mkIo (Done tt) (Done tt) 1.
Definition st0 : StatusState := (doPostInit (Done tt) ok_io (NewBaseWorker_status "m" "w" ∅)).2.
Definition finish : status_call := call_exit ok_io WorkerStatusFinished "" "" None.

Lemma status_changes_never_persisted_witness :
  ss_rows (run_calls [finish] st0) = ss_rows st0 ∧
  ss_rows (run_calls [finish] st0) !! ("m", "w") = Some (mkWorkerStatus "" "m" "w" 0 WorkerStatusInit "" "").
Proof. by apply (status_changes_never_persisted "m" "w" ∅ ok_io). Defined.

End Witness.
