(* ===== verification/Cluster.v ===== *)
(** * Executors, capacities and scheduling
    ([servermaster/executor_manager.go], [servermaster/resource],
    [servermaster/scheduler])

    The executor manager keeps the executors alive by heartbeats and keeps the
    capacity manager in step. The scheduler is written against the interface
    [CapacityProvider], which the capacity manager implements, and against the
    placement constraint of the resource manager, a parameter. *)

From S2P Require Import Prelude Errors Model.

(** ** Capacities *)

Record ExecutorResource := mkExecutorResource {
  er_ID : ExecutorID;
  er_Status : Z;
  er_Capacity : RescUnit;
  er_Reserved : RescUnit;
  er_Used : RescUnit;
  er_Addr : string;
}.

Record ExecutorResourceStatus := mkResourceStatus {
  rs_Capacity : RescUnit;
  rs_Reserved : RescUnit;
  rs_Used : RescUnit;
}.

Definition Remaining (s : ExecutorResourceStatus) : RescUnit :=
  if bool_decide (rs_Reserved s < rs_Used s)%Z then int64 (rs_Capacity s - rs_Used s)
  else int64 (rs_Capacity s - rs_Reserved s).

(** The interface the scheduler uses. *)
Class CapacityProvider (P : Type) := {
  CapacitiesForAllExecutors : P → gmap ExecutorID ExecutorResourceStatus;
  CapacityForExecutor : P → ExecutorID → option ExecutorResourceStatus;
  capacity_agree : ∀ p id, CapacityForExecutor p id = CapacitiesForAllExecutors p !! id;
}.

Abbreviation CapRescMgr := (gmap ExecutorID ExecutorResource).

Definition Register (id : ExecutorID) (addr : string) (capacity : RescUnit) (m : CapRescMgr) : CapRescMgr :=
  <[id := {| er_ID := id; er_Status := 0; er_Capacity := capacity; er_Reserved := 0; er_Used := 0; er_Addr := addr |}]> m.

Definition Unregister (id : ExecutorID) (m : CapRescMgr) : CapRescMgr := delete id m.

Definition Update (id : ExecutorID) (used reserved : RescUnit) (status : Z) : Go CapRescMgr unit := λ m,
  match m !! id with
  | None => (Fail (GoErr ErrUnknownExecutorID id), m)
  | Some exec =>
      (Done tt, <[id := {| er_ID := er_ID exec; er_Status := status; er_Capacity := er_Capacity exec;
                           er_Reserved := reserved; er_Used := used; er_Addr := er_Addr exec |}]> m)
  end.

Definition resource_status (resc : ExecutorResource) : ExecutorResourceStatus :=
  {| rs_Capacity := er_Capacity resc; rs_Reserved := er_Reserved resc; rs_Used := er_Used resc |}.

Definition CapRescMgr_CapacitiesForAllExecutors (m : CapRescMgr) : gmap ExecutorID ExecutorResourceStatus :=
  resource_status <$> m.
Definition CapRescMgr_CapacityForExecutor (m : CapRescMgr) (executor : ExecutorID) : option ExecutorResourceStatus :=
  match m !! executor with
  | None => None
  | Some resc => Some (resource_status resc)
  end.

#[global] Program Instance CapRescMgr_provider : CapacityProvider CapRescMgr :=
  {| CapacitiesForAllExecutors := CapRescMgr_CapacitiesForAllExecutors;
     CapacityForExecutor := CapRescMgr_CapacityForExecutor |}.
Next Obligation.
  intros p id. unfold CapRescMgr_CapacitiesForAllExecutors, CapRescMgr_CapacityForExecutor.
  rewrite lookup_fmap. by destruct (p !! id).
Qed.

(** ** The executor manager *)

Record Executor := mkExecutor {
  ex_NodeInfo : NodeInfo;
  ex_Status : Z;
  ex_lastUpdateTime : Time;
  ex_heartbeatTTL : Duration;
}.

Record ExecutorManagerImpl := mkExecutorManager {
  em_executors : gmap ExecutorID Executor;
  em_initHeartbeatTTL : Duration;
  em_rescMgr : CapRescMgr;
}.

Definition NewExecutorManagerImpl (ttl : Duration) : ExecutorManagerImpl :=
  {| em_executors := ∅; em_initHeartbeatTTL := ttl; em_rescMgr := ∅ |}.

Definition removeExecutorImpl (id : ExecutorID) : Go ExecutorManagerImpl unit := λ e,
  match em_executors e !! id with
  | None => (Fail (GoErr ErrUnknownExecutorID id), e)
  | Some _ =>
      (Done tt, {| em_executors := delete id (em_executors e); em_initHeartbeatTTL := em_initHeartbeatTTL e;
                   em_rescMgr := Unregister id (em_rescMgr e) |})
  end.

Record HeartbeatRequest := mkHeartbeatRequest {
  hb_ExecutorId : ExecutorID;
  hb_ResourceUsage : Z;
  hb_Status : Z;
  hb_Ttl : Z;
}.

(** The response carries an error code, or none. *)
Definition HandleHeartbeat (now : Time) (req : HeartbeatRequest) : Go ExecutorManagerImpl (option goerr) := λ e,
  match em_executors e !! hb_ExecutorId req with
  | None => (Done (Some (GoErr ErrUnknownExecutorID (hb_ExecutorId req))), e)
  | Some exec =>
      if bool_decide (ex_Status exec = Tombstone)
      then (Done (Some (GoErr ErrTombstoneExecutor (hb_ExecutorId req))), e)
      else
        let exec' := {| ex_NodeInfo := ex_NodeInfo exec; ex_Status := int32 (hb_Status req);
                        ex_lastUpdateTime := now; ex_heartbeatTTL := int64 (hb_Ttl req * Millisecond) |} in
        let usage := hb_ResourceUsage req in
        match Update (ni_ID (ex_NodeInfo exec)) usage usage (ex_Status exec') (em_rescMgr e) with
        | (Done _, resc) =>
            (Done None, {| em_executors := <[hb_ExecutorId req := exec']> (em_executors e);
                           em_initHeartbeatTTL := em_initHeartbeatTTL e; em_rescMgr := resc |})
        | (Fail err, resc) =>
            (Fail err, {| em_executors := <[hb_ExecutorId req := exec']> (em_executors e);
                          em_initHeartbeatTTL := em_initHeartbeatTTL e; em_rescMgr := resc |})
        | (Panic, resc) => (Panic, e)
        end
  end.

Definition RegisterExec (now : Time) (info : NodeInfo) (e : ExecutorManagerImpl) : ExecutorManagerImpl :=
  {| em_executors := <[ni_ID info := {| ex_NodeInfo := info; ex_Status := Initing; ex_lastUpdateTime := now;
                                        ex_heartbeatTTL := em_initHeartbeatTTL e |}]> (em_executors e);
     em_initHeartbeatTTL := em_initHeartbeatTTL e;
     em_rescMgr := Register (ni_ID info) (ni_Addr info) (ni_Capability info) (em_rescMgr e) |}.

(** [newID] is what the id allocator returned. *)
Definition AllocateNewExec (now : Time) (newID : ExecutorID) (address : string) (capability : Z) :
    Go ExecutorManagerImpl NodeInfo := λ e,
  let info := {| ni_Type := 0; ni_ID := newID; ni_Addr := address; ni_Capability := capability |} in
  match em_executors e !! newID with
  | Some _ => (Fail (GoErr ErrExecutorDupRegister ""), e)
  | None => (Done info, RegisterExec now info e)
  end.

Definition HasExecutor (e : ExecutorManagerImpl) (id : ExecutorID) : bool :=
  bool_decide (is_Some (em_executors e !! id)).
Definition GetAddr (e : ExecutorManagerImpl) (id : ExecutorID) : option string :=
  (ni_Addr ∘ ex_NodeInfo) <$> em_executors e !! id.
Definition ExecutorCount (e : ExecutorManagerImpl) (status : Z) : nat :=
  size (filter (λ kv, ex_Status kv.2 = status) (em_executors e)).

(** [Executor.checkAlive]; an executor found dead is marked. *)
Definition is_dead (now : Time) (x : Executor) : bool :=
  bool_decide (ex_Status x = Tombstone) || Before (ex_lastUpdateTime x + ex_heartbeatTTL x) now.
Definition mark_dead (x : Executor) : Executor :=
  {| ex_NodeInfo := ex_NodeInfo x; ex_Status := Tombstone; ex_lastUpdateTime := ex_lastUpdateTime x;
     ex_heartbeatTTL := ex_heartbeatTTL x |}.
Definition Executor_checkAlive (now : Time) (x : Executor) : bool * Executor :=
  if is_dead now x then (false, mark_dead x) else (true, x).

(** The first dead executor in the iteration order is removed, and the round
    ends. *)
Fixpoint checkAliveImpl (now : Time) (order : list ExecutorID) : Go ExecutorManagerImpl unit := λ e,
  match order with
  | [] => (Done tt, e)
  | id :: order' =>
      match em_executors e !! id with
      | None => checkAliveImpl now order' e
      | Some exec =>
          match Executor_checkAlive now exec with
          | (true, _) => checkAliveImpl now order' e
          | (false, exec') =>
              removeExecutorImpl id
                {| em_executors := <[id := exec']> (em_executors e); em_initHeartbeatTTL := em_initHeartbeatTTL e;
                   em_rescMgr := em_rescMgr e |}
          end
      end
  end.

(** ** The scheduler *)

Inductive sched_err : Type :=
| ResourceNotFoundError (ProblemResource : ResourceID) (Inner : goerr)
| ResourceConflictError (resourceA : ResourceID) (executorA : ExecutorID) (resourceB : ResourceID) (executorB : ExecutorID)
| SchedErr (e : goerr).

Record SchedulerRequest := mkSchedulerRequest {
  sr_Cost : RescUnit;
  sr_ExternalResources : list ResourceID;
}.

Section scheduler.
Context {P : Type} `{!CapacityProvider P}.
Variable provider : P.
(** [GetPlacementConstraint]: [Done None] is no constraint. *)
Variable GetPlacementConstraint : ResourceID → res goerr (option ExecutorID).

(** [executorList] is the shuffled list of the executors. *)
Fixpoint first_fit (executorCaps : gmap ExecutorID ExecutorResourceStatus) (executorList : list ExecutorID)
    (cost : RescUnit) : option ExecutorID :=
  match executorList with
  | [] => None
  | executorID :: rest =>
      match executorCaps !! executorID with
      | Some st => if bool_decide (cost < Remaining st)%Z then Some executorID else first_fit executorCaps rest cost
      | None => first_fit executorCaps rest cost
      end
  end.

Definition ScheduleByCost (executorList : list ExecutorID) (cost : RescUnit) : option ExecutorID :=
  first_fit (CapacitiesForAllExecutors provider) executorList cost.

Definition scheduleByCostOnly (executorList : list ExecutorID) (request : SchedulerRequest) : res sched_err ExecutorID :=
  match ScheduleByCost executorList (sr_Cost request) with
  | Some target => Done target
  | None => Fail (SchedErr (GoErr ErrClusterResourceNotEnough ""))
  end.

Definition checkCostAllows (request : SchedulerRequest) (target : ExecutorID) : bool :=
  match CapacityForExecutor provider target with
  | None => false
  | Some st => bool_decide (sr_Cost request ≤ Remaining st)%Z
  end.

(** The loop of [getConstraint], with its two variables. *)
Fixpoint getConstraint_loop (resources : list ResourceID) (lastResourceID : ResourceID) (ret : ExecutorID) :
    res sched_err ExecutorID :=
  match resources with
  | [] => Done ret
  | resourceID :: rest =>
      match GetPlacementConstraint resourceID with
      | Panic => Panic
      | Fail err =>
          if err_Equal ErrResourceDoesNotExist (Some err) then Fail (ResourceNotFoundError resourceID err)
          else Fail (SchedErr err)
      | Done None => getConstraint_loop rest lastResourceID ret
      | Done (Some executorID) =>
          if negb (bool_decide (ret = "")) && negb (bool_decide (ret = executorID))
          then Fail (ResourceConflictError resourceID executorID lastResourceID ret)
          else getConstraint_loop rest resourceID executorID
      end
  end.

Definition getConstraint (resources : list ResourceID) : res sched_err ExecutorID :=
  getConstraint_loop resources "" "".

Definition ScheduleTask (executorList : list ExecutorID) (request : SchedulerRequest) : res sched_err ExecutorID :=
  match sr_ExternalResources request with
  | [] => scheduleByCostOnly executorList request
  | resources =>
      match getConstraint resources with
      | Panic => Panic
      | Fail err => Fail err
      | Done constraint =>
          if bool_decide (constraint = "") then scheduleByCostOnly executorList request
          else if negb (checkCostAllows request constraint)
          then Fail (SchedErr (GoErr ErrClusterResourceNotEnough ""))
          else Done constraint
      end
  end.

End scheduler.

Inductive grpc_code : Type := FailedPrecondition | NotFoundCode | ResourceExhausted.

(** [None]: the error is returned as it is. *)
Definition SchedulerErrorToGRPCError (e : sched_err) : option grpc_code :=
  match e with
  | ResourceConflictError _ _ _ _ => Some FailedPrecondition
  | ResourceNotFoundError _ _ => Some NotFoundCode
  | SchedErr err => if err_Equal ErrClusterResourceNotEnough (Some err) then Some ResourceExhausted else None
  end.

(** ** Specification *)

(** The two managers know the same executors, each under its own id. *)
Definition em_inv (e : ExecutorManagerImpl) : Prop :=
  dom (em_executors e) = dom (em_rescMgr e) ∧
  ∀ id x, em_executors e !! id = Some x → ni_ID (ex_NodeInfo x) = id.

Inductive em_step (e : ExecutorManagerImpl) : ExecutorManagerImpl → Prop :=
| em_heartbeat now req : em_step e (HandleHeartbeat now req e).2
| em_register now info : em_step e (RegisterExec now info e)
| em_allocate now id addr cap : em_step e (AllocateNewExec now id addr cap e).2
| em_check now order : em_step e (checkAliveImpl now order e).2.

Definition em_reachable (e : ExecutorManagerImpl) : Prop := ∃ ttl, rtc em_step (NewExecutorManagerImpl ttl) e.

(** The executors dead at [now]. *)
Definition dead_executors (now : Time) (e : ExecutorManagerImpl) : gmap ExecutorID Executor :=
  filter (λ kv, is_dead now kv.2 = true) (em_executors e).

(** [n] rounds of the checker, each with its own iteration order. *)
Fixpoint check_rounds (now : Time) (orders : list (ExecutorManagerImpl → list ExecutorID)) (e : ExecutorManagerImpl) : ExecutorManagerImpl :=
  match orders with
  | [] => e
  | o :: orders' => check_rounds now orders' (checkAliveImpl now (o e) e).2
  end.

(** ** Lemmas *)

Lemma removeExecutorImpl_inv id e : em_inv e → em_inv (removeExecutorImpl id e).2.
Proof.
  intros [Hdom Hid]. unfold removeExecutorImpl. destruct (em_executors e !! id); [|done]. split; simpl.
  - unfold Unregister. rewrite !dom_delete_L. by rewrite Hdom.
  - intros k x Hk%lookup_delete_Some. naive_solver.
Qed.

Lemma HandleHeartbeat_inv now req e : em_inv e → em_inv (HandleHeartbeat now req e).2 ∧ ∃ r, (HandleHeartbeat now req e).1 = Done r.
Proof.
  intros Hinv. pose proof Hinv as [Hdom Hid]. unfold HandleHeartbeat. destruct (em_executors e !! hb_ExecutorId req) as [x|] eqn:Hx; [|by eauto].
  case_bool_decide; [by eauto|]. unfold Update. rewrite (Hid _ _ Hx).
  assert (hb_ExecutorId req ∈ dom (em_executors e)) as Hin by (apply elem_of_dom; eauto).
  rewrite Hdom in Hin. apply elem_of_dom in Hin as [r Hr].
  rewrite Hr. simpl. split; [|eauto]. split; simpl.
  - rewrite !dom_insert_L, Hdom. done.
  - intros k y. rewrite lookup_insert. case_decide; intros ?; simplify_eq/=; eauto.
Qed.

Lemma RegisterExec_inv now info e : em_inv e → em_inv (RegisterExec now info e).
Proof.
  intros [Hdom Hid]. split; simpl; [unfold Register; by rewrite !dom_insert_L, Hdom|].
  intros k x. rewrite lookup_insert. case_decide; intros ?; simplify_eq/=; [done|by apply Hid].
Qed.

Lemma insert_dead_inv id x x' e :
  em_inv e → em_executors e !! id = Some x → ex_NodeInfo x' = ex_NodeInfo x →
  em_inv {| em_executors := <[id := x']> (em_executors e); em_initHeartbeatTTL := em_initHeartbeatTTL e;
            em_rescMgr := em_rescMgr e |}.
Proof.
  intros [Hdom Hid] Hx Hinfo. split; simpl.
  - rewrite dom_insert_lookup_L; [done|by eexists].
  - intros k y. rewrite lookup_insert. case_decide; intros ?; simplify_eq/=; [rewrite Hinfo|]; by apply Hid.
Qed.

Lemma delete_insert_dead id x (m : gmap ExecutorID Executor) : delete id (<[id := x]> m) = delete id m.
Proof. apply delete_insert_eq. Qed.

(** What a round of the checker does. *)
Lemma checkAliveImpl_eq now order e :
  (checkAliveImpl now order e = (Done tt, e) ∧ ∀ id x, id ∈ order → em_executors e !! id = Some x → is_dead now x = false) ∨
  ∃ id x, id ∈ order ∧ em_executors e !! id = Some x ∧ is_dead now x = true ∧
    checkAliveImpl now order e =
      (Done tt, {| em_executors := delete id (em_executors e); em_initHeartbeatTTL := em_initHeartbeatTTL e;
                   em_rescMgr := Unregister id (em_rescMgr e) |}).
Proof.
  induction order as [|id order IH]; simpl; [left; split; [done|set_solver]|].
  destruct (em_executors e !! id) as [x|] eqn:Hx; unfold Executor_checkAlive.
  - destruct (is_dead now x) eqn:Hd.
    + right. exists id, x. split_and!; [set_solver|done|done|]. unfold removeExecutorImpl; simpl.
      rewrite lookup_insert_eq. by rewrite delete_insert_dead.
    + destruct IH as [[Hrun Hall]|(k & y & ? & ? & ? & Hrun)].
      * left. split; [done|]. intros k y. rewrite elem_of_cons. intros [->|?] ?; [congruence|by eapply Hall].
      * right. exists k, y. split_and!; [set_solver|done..].
  - destruct IH as [[Hrun Hall]|(k & y & ? & ? & ? & Hrun)].
    + left. split; [done|]. intros k y. rewrite elem_of_cons. intros [->|?] ?; [congruence|by eapply Hall].
    + right. exists k, y. split_and!; [set_solver|done..].
Qed.

Lemma em_step_inv e e' : em_inv e → em_step e e' → em_inv e'.
Proof.
  intros Hinv Hs. destruct Hs as [now req|now info|now id addr cap|now order].
  - by apply HandleHeartbeat_inv.
  - by apply RegisterExec_inv.
  - unfold AllocateNewExec. case_match; [done|]. by apply RegisterExec_inv.
  - destruct (checkAliveImpl_eq now order e) as [[-> _]|(id & x & _ & Hx & _ & ->)]; [done|].
    pose proof (removeExecutorImpl_inv id e Hinv) as Hr. unfold removeExecutorImpl in Hr. by rewrite Hx in Hr.
Qed.

Lemma em_reachable_inv e : em_reachable e → em_inv e.
Proof.
  intros (ttl & Hr). assert (em_inv (NewExecutorManagerImpl ttl)) as Hinv by (split; [simpl; by rewrite !dom_empty_L|done]).
  induction Hr as [x|x y z Hxy _ IH]; [done|]. apply IH. by eapply em_step_inv.
Qed.

Lemma dead_lookup now e id : dead_executors now e !! id = (x ← em_executors e !! id; if is_dead now x then Some x else None).
Proof.
  unfold dead_executors. rewrite map_lookup_filter. destruct (em_executors e !! id) as [x|]; simpl; [|done].
  destruct (is_dead now x) eqn:Hd; [by rewrite option_guard_True|]. by rewrite option_guard_False by (simpl; congruence).
Qed.

(** The executors that are left after removing a set of dead ones. *)
Lemma check_round now order e :
  iter_order (em_executors e) order →
  dead_executors now e = ∅ ∧ (checkAliveImpl now order e).2 = e ∨
  ∃ id, is_Some (dead_executors now e !! id) ∧
    em_executors (checkAliveImpl now order e).2 = delete id (em_executors e) ∧
    dead_executors now (checkAliveImpl now order e).2 = delete id (dead_executors now e).
Proof.
  intros Ho. destruct (checkAliveImpl_eq now order e) as [[-> Hall]|(id & x & Hin & Hx & Hd & ->)].
  - left. split; [|done]. apply map_eq. intros id. rewrite dead_lookup, lookup_empty.
    destruct (em_executors e !! id) as [x|] eqn:Hx; simpl; [|done]. rewrite (Hall id x); [done| |done].
    apply (iter_order_elem _ _ _ Ho). by eexists.
  - right. exists id. rewrite dead_lookup, Hx. simpl. rewrite Hd. split_and!; [by eexists|done|].
    apply map_eq. intros k. rewrite lookup_delete, !dead_lookup. simpl. rewrite lookup_delete. by case_decide.
Qed.

Lemma first_fit_Some caps l cost id :
  first_fit caps l cost = Some id → id ∈ l ∧ ∃ st, caps !! id = Some st ∧ (cost < Remaining st)%Z.
Proof.
  induction l as [|x l IH]; simpl; [done|]. destruct (caps !! x) as [st|] eqn:Hx.
  - case_bool_decide; [intros [= <-]; split; [set_solver|eauto]|]. intros [? ?]%IH. split; [set_solver|done].
  - intros [? ?]%IH. split; [set_solver|done].
Qed.

Lemma first_fit_None caps l cost :
  first_fit caps l cost = None → ∀ id st, id ∈ l → caps !! id = Some st → (Remaining st ≤ cost)%Z.
Proof.
  induction l as [|x l IH]; simpl; [set_solver|]. destruct (caps !! x) as [st|] eqn:Hx.
  - case_bool_decide; [done|]. intros H0 id st' [->|?]%elem_of_cons ?; [|by eapply IH]. simplify_eq. lia.
  - intros H0 id st' [->|?]%elem_of_cons ?; [congruence|by eapply IH].
Qed.

(** The loop: every constrained resource agrees with the result. *)
Lemma getConstraint_loop_Done gpc resources last ret id :
  getConstraint_loop gpc resources last ret = Done id →
  (ret ≠ "" → id = ret) ∧
  ∀ r, r ∈ resources → ∃ o, gpc r = Done o ∧ ∀ x, o = Some x → x ≠ "" → id = x.
Proof.
  revert last ret. induction resources as [|r resources IH]; intros last ret; simpl.
  { intros [= <-]. split; [done|set_solver]. }
  destruct (gpc r) as [[x|]|err|] eqn:Hr; [|..|by case_match|done].
  - destruct (bool_decide (ret = "")) eqn:He; simpl.
    + intros [Hid Hall]%IH. apply bool_decide_eq_true in He. split; [done|]. intros k [->|?]%elem_of_cons; [|by apply Hall].
      exists (Some x). split; [done|]. intros ? [= <-]. apply Hid.
    + destruct (bool_decide (ret = x)) eqn:Hx; simpl; [|done]. apply bool_decide_eq_true in Hx. subst x.
      intros [Hid Hall]%IH. split; [done|]. intros k [->|?]%elem_of_cons; [|by apply Hall].
      exists (Some ret). split; [done|]. intros ? [= <-]. apply Hid.
  - intros [Hid Hall]%IH. split; [done|]. intros k [->|?]%elem_of_cons; [|by apply Hall]. by exists None.
Qed.

(** ** Properties *)


(** As many rounds of the liveness check as there are dead executors remove
    exactly those and keep every live one, whatever the iteration orders. *)
Theorem liveness_check_removes_the_dead now orders e :
  (∀ e o, o ∈ orders → iter_order (em_executors e) (o e)) →
  size (dead_executors now e) ≤ length orders →
  em_executors (check_rounds now orders e) = filter (λ kv, is_dead now kv.2 = false) (em_executors e).
Proof.
  revert e. induction orders as [|o orders IH]; intros e Ho Hlen; simpl in *.
  - assert (dead_executors now e = ∅) as Hd by (apply map_size_empty_inv; lia).
    symmetry. apply map_filter_id. intros id x Hx. simpl.
    assert (dead_executors now e !! id = None) as Hn by (by rewrite Hd, lookup_empty).
    rewrite dead_lookup, Hx in Hn. simpl in Hn. by destruct (is_dead now x).
  - destruct (check_round now (o e) e) as [[Hd ->]|(id & [x Hx] & Hdel & Hdead)]; [apply Ho; set_solver| |].
    + apply IH; [set_solver|]. rewrite Hd, map_size_empty. lia.
    + rewrite IH; [|set_solver|].
      * rewrite Hdel, map_filter_delete. apply delete_id. rewrite map_lookup_filter. rewrite dead_lookup in Hx.
        destruct (em_executors e !! id) as [y|]; simpl in *; [|done]. destruct (is_dead now y) eqn:Hy; [|done].
        by rewrite option_guard_False by (simpl; congruence).
      * rewrite Hdead, map_size_delete_Some by eauto. lia.
Qed.

Lemma ScheduleTask_Done {P} `{!CapacityProvider P} (p : P) gpc l request id :
  ScheduleTask p gpc l request = Done id →
  (∃ st, CapacityForExecutor p id = Some st ∧ (sr_Cost request ≤ Remaining st)%Z) ∧
  ∀ r, r ∈ sr_ExternalResources request → ∃ o, gpc r = Done o ∧ ∀ x, o = Some x → x ≠ "" → id = x.
Proof.
  assert (scheduleByCostOnly p l request = Done id →
    ∃ st, CapacityForExecutor p id = Some st ∧ (sr_Cost request ≤ Remaining st)%Z) as Hcost.
  { unfold scheduleByCostOnly, ScheduleByCost. destruct (first_fit _ _ _) eqn:Hf; [|done]. intros [= <-].
    apply first_fit_Some in Hf as (_ & st & Hst & ?). exists st. rewrite capacity_agree. split; [done|lia]. }
  unfold ScheduleTask. destruct (sr_ExternalResources request) as [|r rs] eqn:Hr; [intros ?; split; [auto|set_solver]|].
  destruct (getConstraint gpc (r :: rs)) as [c|err|] eqn:Hc; [|done|done].
  apply getConstraint_loop_Done in Hc as [_ Hall].
  case_bool_decide as Hempty.
  - subst c. intros Hs. split; [by auto|]. intros k Hk. destruct (Hall k Hk) as (o & Ho & Hx). exists o. split; [done|].
    intros x -> Hne. by destruct (Hx x eq_refl Hne).
  - unfold checkCostAllows. destruct (CapacityForExecutor p c) as [st|] eqn:Hst; [|done].
    case_bool_decide; [|done]. intros [= <-]. split; [eauto|done].
Qed.

(** C30: a scheduled task fits: the chosen executor is known, has the capacity,
    and is the one every placement constraint of the task asks for. *)
Theorem schedule_sound {P} `{!CapacityProvider P} (p : P) gpc l request id :
  ScheduleTask p gpc l request = Done id →
  (∃ st, CapacityForExecutor p id = Some st ∧ (sr_Cost request ≤ Remaining st)%Z) ∧
  ∀ r, r ∈ sr_ExternalResources request → ∃ o, gpc r = Done o ∧ ∀ x, o = Some x → x ≠ "" → id = x.
Proof. apply ScheduleTask_Done. Qed.

(** Scheduling by cost fails only when no executor has more capacity left
    than the task costs, whatever the shuffle. *)
Theorem schedule_by_cost_complete {P} `{!CapacityProvider P} (p : P) l request :
  iter_order (CapacitiesForAllExecutors p) l →
  (∃ id, scheduleByCostOnly p l request = Done id) ↔
  ∃ id st, CapacitiesForAllExecutors p !! id = Some st ∧ (sr_Cost request < Remaining st)%Z.
Proof.
  intros Ho. unfold scheduleByCostOnly, ScheduleByCost.
  destruct (first_fit _ l (sr_Cost request)) as [id|] eqn:Hf.
  - split; [|by eauto]. intros _. apply first_fit_Some in Hf as (_ & st & ? & ?). eauto.
  - split; [by intros [? ?]|]. intros (id & st & Hst & Hlt). exfalso.
    apply (first_fit_None _ _ _ Hf id st) in Hst; [lia|]. apply (iter_order_elem _ _ _ Ho). by eexists.
Qed.

(** An executor with exactly the capacity a task costs is refused to a task
    without placement constraint and granted to one with it. *)
Theorem exact_fit_depends_on_constraint st id r cost :
  Remaining st = cost → id ≠ "" →
  let p : gmap ExecutorID ExecutorResource := {[id := mkExecutorResource id 0 (rs_Capacity st) (rs_Reserved st) (rs_Used st) ""]} in
  ScheduleTask p (λ _, Done (Some id)) [id] (mkSchedulerRequest cost []) = Fail (SchedErr (GoErr ErrClusterResourceNotEnough "")) ∧
  ScheduleTask p (λ _, Done (Some id)) [id] (mkSchedulerRequest cost [r]) = Done id.
Proof.
  intros Hrem Hid p.
  assert (resource_status (mkExecutorResource id 0 (rs_Capacity st) (rs_Reserved st) (rs_Used st) "") = st) as Hrs.
  { by destruct st. }
  split.
  - unfold ScheduleTask, scheduleByCostOnly, ScheduleByCost. simpl. unfold p, CapRescMgr_CapacitiesForAllExecutors.
    rewrite map_fmap_singleton, lookup_singleton_eq, Hrs, Hrem. rewrite bool_decide_eq_false_2 by lia. done.
  - unfold ScheduleTask, getConstraint. simpl. rewrite bool_decide_eq_false_2 by done.
    unfold checkCostAllows; simpl. unfold p, CapRescMgr_CapacityForExecutor. rewrite lookup_singleton_eq. simpl. rewrite Hrs, Hrem.
    by rewrite bool_decide_eq_true_2 by lia.
Qed.

Module Witness.

Definition e0 : ExecutorManagerImpl := NewExecutorManagerImpl 10.
Definition e1 : ExecutorManagerImpl := (AllocateNewExec 0 "ex1" "addr1" 100 e0).2.
Definition e2 : ExecutorManagerImpl := (AllocateNewExec 50 "ex2" "addr2" 100 e1).2.
Definition any_order (e : ExecutorManagerImpl) : list ExecutorID := (map_to_list (em_executors e)).*1.

Lemma e1_reachable : em_reachable e1.
Proof. exists 10%Z. eapply rtc_l; [apply (em_allocate e0 0 "ex1" "addr1" 100)|apply rtc_refl]. Defined.


Lemma liveness_check_removes_the_dead_witness :
  em_executors (check_rounds 55 [any_order] e2) = filter (λ kv, is_dead 55 kv.2 = false) (em_executors e2).
Proof.
  apply liveness_check_removes_the_dead.
  - intros e o Ho. apply list_elem_of_singleton in Ho as ->. apply iter_order_keys.
  - vm_compute. lia.
Defined.

Definition gpc (r : ResourceID) : res goerr (option ExecutorID) :=
  if bool_decide (r = "/local/a") then Done (Some "ex1") else Done None.

Lemma schedule_sound_witness :
  (∃ st, CapacityForExecutor (em_rescMgr e2) "ex1" = Some st ∧ (5 ≤ Remaining st)%Z) ∧
  ∀ r, r ∈ ["/local/a"; "/s3/b"] → ∃ o, gpc r = Done o ∧ ∀ x, o = Some x → x ≠ "" → "ex1" = x.
Proof.
  apply (schedule_sound (em_rescMgr e2) gpc ["ex2"; "ex1"] (mkSchedulerRequest 5 ["/local/a"; "/s3/b"]) "ex1").
  vm_compute. reflexivity.
Defined.

Lemma exact_fit_depends_on_constraint_witness :
  let p : gmap ExecutorID ExecutorResource := {["ex" := mkExecutorResource "ex" 0 10 2 1 ""]} in
  ScheduleTask p (λ _, Done (Some "ex")) ["ex"] (mkSchedulerRequest 8 []) = Fail (SchedErr (GoErr ErrClusterResourceNotEnough "")) ∧
  ScheduleTask p (λ _, Done (Some "ex")) ["ex"] (mkSchedulerRequest 8 ["/local/a"]) = Done "ex".
Proof. apply (exact_fit_depends_on_constraint (mkResourceStatus 10 2 1) "ex" "/local/a" 8); done. Defined.

End Witness.
