(* ===== verification/Master.v ===== *)
(** * The base of every master ([lib/master.go], [pkg/quota])

    Start-up and recovery of a master, its polling, the heartbeat handler and the
    creation of workers. The state is the base master, the metastore and the
    state of the business logic ([MasterImpl]), whose methods are the operations
    of a record. [CreateWorker] hands its work to a goroutine: the goroutines
    under way are a list, and the body of one is a function of the worker
    manager, the only state it shares with the master, and of the executor. *)

From S2P Require Import Prelude Errors Model Metastore JobFsm WorkerManager TaskCommitter Dispatch Worker.

(** ** [pkg/quota]: a weighted semaphore *)

Record ConcurrencyQuota := mkQuota { quota_total : nat; quota_used : nat }.

Definition NewConcurrencyQuota (total : nat) : ConcurrencyQuota := mkQuota total 0.

Definition TryConsume (q : ConcurrencyQuota) : bool * ConcurrencyQuota :=
  if bool_decide (quota_used q < quota_total q) then (true, mkQuota (quota_total q) (S (quota_used q)))
  else (false, q).

(** [Acquire] blocks while the quota is used up, until its context is done. A
    release during the wait is a release before the call. *)
Definition Consume : Go ConcurrencyQuota unit := λ q,
  match TryConsume q with
  | (true, q') => (Done tt, q')
  | (false, q') => (Fail (ErrForeign "context deadline exceeded"), q')
  end.

(** The semaphore panics when more is released than held. *)
Definition Release : Go ConcurrencyQuota unit := λ q,
  match quota_used q with
  | 0 => (Panic, q)
  | S n => (Done tt, mkQuota (quota_total q) n)
  end.

(** ** State *)

Definition maxCreateWorkerConcurrency : nat := 100.

(** A goroutine of [CreateWorker]: what it captured. *)
Record createTask := mkCreateTask {
  ct_workerID : WorkerID;
  ct_workerType : WorkerType;
  ct_configBytes : string;
  ct_cost : RescUnit;
  ct_resources : list ResourceID;
}.

Record DefaultBaseMaster := mkBaseMaster {
  bm_id : MasterID;
  bm_nodeID : NodeID;
  bm_advertiseAddr : string;
  bm_timeoutConfig : TimeoutConfig;
  bm_masterMeta : MasterMeta;
  bm_currentEpoch : Epoch;
  bm_workerManager : option WorkerManager;
  bm_errCenter : ErrCenter;
  bm_closed : bool;
  bm_createWorkerQuota : ConcurrencyQuota;
  bm_creating : list createTask;
}.

(** [masterMeta] is the unmarshalled metadata of the environment, or the zero
    value. *)
Definition NewBaseMaster (id : MasterID) (nodeID : NodeID) (addr : string) (masterMeta : MasterMeta) : DefaultBaseMaster :=
  {| bm_id := id; bm_nodeID := nodeID; bm_advertiseAddr := addr; bm_timeoutConfig := DefaultTimeoutConfig;
     bm_masterMeta := masterMeta; bm_currentEpoch := 0; bm_workerManager := None; bm_errCenter := NewErrCenter;
     bm_closed := false; bm_createWorkerQuota := NewConcurrencyQuota maxCreateWorkerConcurrency; bm_creating := [] |}.

Definition set_meta (meta : MasterMeta) (b : DefaultBaseMaster) : DefaultBaseMaster :=
  mkBaseMaster (bm_id b) (bm_nodeID b) (bm_advertiseAddr b) (bm_timeoutConfig b) meta (bm_currentEpoch b)
    (bm_workerManager b) (bm_errCenter b) (bm_closed b) (bm_createWorkerQuota b) (bm_creating b).
Definition set_epoch (epoch : Epoch) (b : DefaultBaseMaster) : DefaultBaseMaster :=
  mkBaseMaster (bm_id b) (bm_nodeID b) (bm_advertiseAddr b) (bm_timeoutConfig b) (bm_masterMeta b) epoch
    (bm_workerManager b) (bm_errCenter b) (bm_closed b) (bm_createWorkerQuota b) (bm_creating b).
Definition set_wm (m : WorkerManager) (b : DefaultBaseMaster) : DefaultBaseMaster :=
  mkBaseMaster (bm_id b) (bm_nodeID b) (bm_advertiseAddr b) (bm_timeoutConfig b) (bm_masterMeta b) (bm_currentEpoch b)
    (Some m) (bm_errCenter b) (bm_closed b) (bm_createWorkerQuota b) (bm_creating b).
Definition set_closed (b : DefaultBaseMaster) : DefaultBaseMaster :=
  mkBaseMaster (bm_id b) (bm_nodeID b) (bm_advertiseAddr b) (bm_timeoutConfig b) (bm_masterMeta b) (bm_currentEpoch b)
    (bm_workerManager b) (bm_errCenter b) true (bm_createWorkerQuota b) (bm_creating b).
Definition set_creating (q : ConcurrencyQuota) (l : list createTask) (b : DefaultBaseMaster) : DefaultBaseMaster :=
  mkBaseMaster (bm_id b) (bm_nodeID b) (bm_advertiseAddr b) (bm_timeoutConfig b) (bm_masterMeta b) (bm_currentEpoch b)
    (bm_workerManager b) (bm_errCenter b) (bm_closed b) q l.

(** The master with its metastore and the state of its business logic. *)
Record MasterSt (DB I : Type) := mkMasterSt { ms_base : DefaultBaseMaster; ms_db : DB; ms_impl : I }.
Arguments mkMasterSt {DB I}.
Arguments ms_base {DB I}.
Arguments ms_db {DB I}.
Arguments ms_impl {DB I}.

Record MasterImpl (DB I : Type) := mkMasterImpl {
  InitImpl : Go (MasterSt DB I) unit;
  Impl_Tick : Go (MasterSt DB I) unit;
  OnMasterRecovered : Go (MasterSt DB I) unit;
  OnWorkerDispatched : WorkerHandle → option goerr → Go (MasterSt DB I) unit;
  OnWorkerOnline : WorkerHandle → Go (MasterSt DB I) unit;
  OnWorkerOffline : WorkerHandle → option goerr → Go (MasterSt DB I) unit;
  OnWorkerStatusUpdated : WorkerHandle → option WorkerStatus → Go (MasterSt DB I) unit;
  CloseImpl : Go (MasterSt DB I) unit;
}.
Arguments InitImpl {DB I}.
Arguments Impl_Tick {DB I}.
Arguments OnMasterRecovered {DB I}.
Arguments OnWorkerDispatched {DB I}.
Arguments OnWorkerOnline {DB I}.
Arguments OnWorkerOffline {DB I}.
Arguments OnWorkerStatusUpdated {DB I}.
Arguments CloseImpl {DB I}.

(** ** Calls on parts of the state *)

Section lift.
Context {DB I : Type}.

Definition on_base {A} (f : Go DefaultBaseMaster A) : Go (MasterSt DB I) A := λ s,
  let '(r, b) := f (ms_base s) in (r, mkMasterSt b (ms_db s) (ms_impl s)).
Definition on_db {A} (f : Go DB A) : Go (MasterSt DB I) A := λ s,
  let '(r, db) := f (ms_db s) in (r, mkMasterSt (ms_base s) db (ms_impl s)).
Definition on_impl {A} (f : Go I A) : Go (MasterSt DB I) A := λ s,
  let '(r, i) := f (ms_impl s) in (r, mkMasterSt (ms_base s) (ms_db s) i).

End lift.

(** A call of the worker manager; before [Init] the pointer is nil. *)
Definition on_wm {A} (f : Go WorkerManager A) : Go DefaultBaseMaster A := λ b,
  match bm_workerManager b with
  | None => (Panic, b)
  | Some m => let '(r, m') := f m in (r, set_wm m' b)
  end.

(** What start-up sees of its surroundings: the registration of the two message
    handlers, the persisted workers with the order of the map they are put in, what
    happens to the manager while it waits for heartbeats, and the order of the final
    loop. *)
Record InitEnv (I : Type) := mkInitEnv {
  ie_registered : Go I unit;
  ie_workers : res goerr (list WorkerStatus);
  ie_order : list WorkerID;
  ie_wait : Go WorkerManager unit;
  ie_order2 : WorkerManager → list WorkerID;
}.
Arguments mkInitEnv {I}.
Arguments ie_registered {I}.
Arguments ie_workers {I}.
Arguments ie_order {I}.
Arguments ie_wait {I}.
Arguments ie_order2 {I}.

(** ** Start-up and recovery *)

Section init.
Context {DB I : Type} `{!Gorm DB}.
Variable impl : MasterImpl DB I.

Definition refreshMetadata : Go (MasterSt DB I) (bool * Epoch) :=
  s ← get;
  let b := ms_base s in
  masterMeta ← on_db (Load (bm_id b));
  epoch ← on_db GenEpoch;
  let masterMeta := mm_set_owner masterMeta epoch (bm_advertiseAddr b) (bm_nodeID b) in
  _ ← on_db (Update masterMeta);
  _ ← on_base (modify (set_meta masterMeta));
  mret (bool_decide (mm_StatusCode masterMeta = MasterStatusUninit), epoch).

Definition markStatusCodeInMetadata (code : Z) : Go (MasterSt DB I) unit :=
  s ← get;
  masterMeta ← on_db (Load (bm_id (ms_base s)));
  on_db (Update (mm_set_StatusCode masterMeta code)).

Definition doInit (env : InitEnv I) : Go (MasterSt DB I) bool :=
  '(isInit, epoch) ← refreshMetadata;
  _ ← on_base (modify (set_epoch epoch));
  _ ← on_base (modify (λ b, set_wm (NewWorkerManager (bm_id b) epoch isInit (bm_timeoutConfig b)) b));
  _ ← on_impl (ie_registered env);
  if negb isInit then
    _ ← on_base (on_wm (InitAfterRecover (ie_workers env) (ie_order env) (ie_wait env) (ie_order2 env)));
    mret isInit
  else mret isInit.

Definition Init (env : InitEnv I) : Go (MasterSt DB I) unit :=
  isInit ← doInit env;
  _ ← (if isInit : bool then InitImpl impl else OnMasterRecovered impl);
  markStatusCodeInMetadata MasterStatusInit.

(** ** Polling *)

(** The callbacks handed to the worker manager. The manager is part of the state
    the callbacks see. *)
Definition with_wm {A} (f : Go (MasterSt DB I) A) : Go (WorkerManager * MasterSt DB I) A := λ '(m, s),
  match f (mkMasterSt (set_wm m (ms_base s)) (ms_db s) (ms_impl s)) with
  | (r, s') => (r, (default m (bm_workerManager (ms_base s')), s'))
  end.

Definition master_callbacks : Callbacks (MasterSt DB I) := {|
  onWorkerOnlined handle := with_wm (OnWorkerOnline impl handle);
  onWorkerOfflined handle err := with_wm (OnWorkerOffline impl handle err);
  onWorkerStatusUpdated handle := λ '(m, s),
    match handle_Status m handle with
    | Done status => with_wm (OnWorkerStatusUpdated impl handle status) (m, s)
    | Fail e => (Fail e, (m, s))
    | Panic => (Panic, (m, s))
    end;
  onWorkerDispatched handle err := with_wm (OnWorkerDispatched impl handle err);
|}.

(** [handlerErr] is the error of the message handler manager, [fuel] the rounds
    of event delivery that fit in the context. *)
Definition doPoll (handlerErr : option goerr) (fuel : nat) : Go (MasterSt DB I) unit := λ s,
  let b := ms_base s in
  match CheckError (bm_errCenter b) with
  | Some e => (Fail e, s)
  | None =>
      if bm_closed b then (Fail (GoErr ErrMasterClosed ""), s) else
      match handlerErr with
      | Some e => (Fail e, s)
      | None =>
          match bm_workerManager b with
          | None => (Panic, s)
          | Some m =>
              let '(r, (m', s')) := Tick master_callbacks fuel (m, s) in
              (r, mkMasterSt (set_wm m' (ms_base s')) (ms_db s') (ms_impl s'))
          end
      end
  end.

Definition Master_Poll (handlerErr : option goerr) (fuel : nat) : Go (MasterSt DB I) unit :=
  _ ← doPoll handlerErr fuel; Impl_Tick impl.

(** Closing twice closes a closed channel. *)
Definition doClose : Go DefaultBaseMaster unit := λ b,
  if bm_closed b then (Panic, b) else (Done tt, set_closed b).

Definition Master_Close : Go (MasterSt DB I) unit :=
  _ ← CloseImpl impl; on_base doClose.

End init.

(** ** Heartbeats *)

Definition pongOf (now : Time) (b : DefaultBaseMaster) (msg : HeartbeatPingMessage) : HeartbeatPongMessage :=
  {| pong_SendTime := ping_SendTime msg; pong_ReplyTime := now; pong_ToWorkerID := ping_FromWorkerID msg;
     pong_Epoch := bm_currentEpoch b; pong_IsFinished := ping_IsFinished msg |}.

(** The ping handler; [sent] is the sender's answer to the pong. *)
Definition pingHandler (now : Time) (sent : res goerr bool) (sender : NodeID) (msg : HeartbeatPingMessage) :
    Go DefaultBaseMaster unit := λ b,
  match sent with
  | Fail e => (Fail e, b)
  | Panic => (Panic, b)
  | Done false => (Done tt, b)
  | Done true => on_wm (HandleHeartbeat now msg sender) b
  end.

Definition statusHandler (msg : WorkerStatusMessage) : Go DefaultBaseMaster unit :=
  on_wm (OnWorkerStatusUpdateMessage msg).

(** ** Creating workers *)

Section create.
Context {C : Type}.

(** [WorkerConfig] is any value; job metadata is told apart by a type assertion. *)
Inductive WorkerConfig : Type :=
| MetaConfig (meta : MasterMeta)
| UserConfig (config : C).

(** The encoders of the toml and json packages. *)
Variable tomlEncode : WorkerConfig → res goerr string.
Variable jsonMarshal : WorkerConfig → res goerr string.

Definition prepareWorkerConfig (newUUID : WorkerID) (workerType : WorkerType) (config : WorkerConfig) :
    res goerr (string * WorkerID) :=
  let encode (out : res goerr string) :=
    match out with Done raw => Done (raw, newUUID) | Fail e => Fail e | Panic => Panic end in
  if bool_decide (workerType ∈ [CvsJobMaster; FakeJobMaster; DMJobMaster]) then
    match config with
    | MetaConfig masterMeta => Done (mm_Config masterMeta, mm_ID masterMeta)
    | UserConfig _ => Fail (GoErr ErrMasterInvalidMeta "")
    end
  else if bool_decide (workerType ∈ [WorkerDMDump; WorkerDMLoad; WorkerDMSync]) then encode (tomlEncode config)
  else encode (jsonMarshal config).

Definition CreateWorker (newUUID : WorkerID) (workerType : WorkerType) (config : WorkerConfig) (cost : RescUnit)
    (resources : list ResourceID) : Go DefaultBaseMaster WorkerID := λ b,
  match Consume (bm_createWorkerQuota b) with
  | (Fail e, q) => (Fail (GoWrap ErrMasterConcurrencyExceeded e), set_creating q (bm_creating b) b)
  | (Panic, q) => (Panic, set_creating q (bm_creating b) b)
  | (Done _, q) =>
      match prepareWorkerConfig newUUID workerType config with
      | Fail e => (Fail e, set_creating q (bm_creating b) b)
      | Panic => (Panic, set_creating q (bm_creating b) b)
      | Done (configBytes, workerID) =>
          (Done workerID,
           set_creating q (bm_creating b ++ [mkCreateTask workerID workerType configBytes cost resources]) b)
      end
  end.

End create.
Arguments WorkerConfig : clear implicits.

(** The body of the goroutine. [scheduled] is the answer of the server master,
    [added] that of the client manager; [Send] reaches the executor. *)
Section goroutine.
Context {X : Type}.
Variable Send : ExecutorRequest → GoM rpcErr X unit.
Variable uuid : nat → requestID.

Definition send_x (req : ExecutorRequest) : GoM rpcErr (WorkerManager * X) unit := λ '(m, x),
  let '(r, x') := Send req x in (r, (m, x')).
Definition call_wm (f : Go WorkerManager unit) : Go (WorkerManager * X) unit := λ '(m, x),
  let '(r, m') := f m in (r, (m', x)).

Definition createWorker_goroutine (masterID : MasterID) (task : createTask) (scheduled : res goerr (ExecutorID * string))
    (added : res goerr unit) (now : Time) (fuel : nat) (ctx : Ctx) (s : WorkerManager * X) :
    option (res goerr unit * (WorkerManager * X)) :=
  let abort e := call_wm (AbortCreatingWorker (ct_workerID task) (Some e)) in
  match scheduled with
  | Panic => Some (Panic, s)
  | Fail err => Some (abort err s)
  | Done (executorID, executorAddr) =>
      match added with
      | Panic => Some (Panic, s)
      | Fail err => Some (abort err s)
      | Done _ =>
          let dispatchArgs := mkDispatchTaskArgs (ct_workerID task) masterID (ct_workerType task) (ct_configBytes task) in
          match DispatchTask send_x uuid fuel ctx dispatchArgs
                  (call_wm (BeforeStartingWorker now (ct_workerID task) executorID)) abort s with
          | None => None
          | Some (Panic, s') => Some (Panic, s')
          | Some (_, s') => Some (Done tt, s')
          end
      end
  end.

End goroutine.

(** The goroutine under way at position [i] runs to its end, leaving the manager
    [m'], and releases the quota. *)
Definition finishCreating (i : nat) (m' : WorkerManager) : Go DefaultBaseMaster unit := λ b,
  match Release (bm_createWorkerQuota b) with
  | (r, q) => (r, set_wm m' (set_creating q (take i (bm_creating b) ++ drop (S i) (bm_creating b)) b))
  end.

Definition IsMasterReady (b : DefaultBaseMaster) : res goerr bool :=
  match bm_workerManager b with Some m => Done (IsInitialized m) | None => Panic end.

Definition Master_GetWorkers (b : DefaultBaseMaster) : res goerr (gmap WorkerID WorkerHandle) :=
  match bm_workerManager b with Some m => Done (GetWorkers m) | None => Panic end.

(** ** Specification *)

(** The manager once the worker is registered, and once it is told that its
    creation failed. *)
Definition wm_started (now : Time) (task : createTask) (executorID : ExecutorID) (m : WorkerManager) : WorkerManager :=
  set_entries (<[ct_workerID task := length (wm_heap m)]> (workerEntries m))
    (set_heap (wm_heap m ++ [newWorkerEntry (ct_workerID task) executorID (nextExpireTime now m)
                               workerEntryCreated (Some createdStatus)]) m).
Definition wm_told (task : createTask) (err : goerr) (m : WorkerManager) : WorkerManager :=
  set_queue (eventQueue m ++ [{| ev_Tp := workerDispatchFailedEvent; ev_Handle := tombstoneHandle (ct_workerID task);
                                 ev_WorkerID := ct_workerID task; ev_Err := Some err;
                                 ev_beforeHook := hook_delete (ct_workerID task) |}]) m.

(** How the creation of a worker may end for the manager. *)
Inductive creation_outcome (now : Time) (task : createTask) (m : WorkerManager) : WorkerManager → Prop :=
| co_not_placed err : creation_outcome now task m (wm_told task err m)
| co_started executorID : creation_outcome now task m (wm_started now task executorID m)
| co_aborted executorID err :
    creation_outcome now task m (wm_told task (GoWrap ErrExecutorConfirmDispatchFailed (ErrForeign err)) (wm_started now task executorID m)).

(** The quota together with the number of calls that took a unit and then
    rejected the configuration. *)
Inductive creating_step {C} (toml json : WorkerConfig C → res goerr string) :
    DefaultBaseMaster * nat → DefaultBaseMaster * nat → Prop :=
| cs_create b n newUUID workerType config cost resources :
    creating_step toml json (b, n)
      ((CreateWorker toml json newUUID workerType config cost resources b).2,
       match TryConsume (bm_createWorkerQuota b), prepareWorkerConfig toml json newUUID workerType config with
       | (true, _), Done _ => n
       | (true, _), _ => S n
       | (false, _), _ => n
       end)
| cs_finish b n i m' :
    i < length (bm_creating b) → creating_step toml json (b, n) ((finishCreating i m' b).2, n).

(** Rows of the job table are filed under their id. *)
Definition rows_keyed (rows : gmap MasterID jobRow) : Prop :=
  ∀ id r, rows !! id = Some r → mm_ID (jr_meta r) = id.

(** ** Lemmas *)

Section goroutine_lemmas.
Context {X : Type} (Send : ExecutorRequest → GoM rpcErr X unit) (uuid : nat → requestID).

Lemma preDispatch_send_x fuel i ctx args m x :
  preDispatchTaskWithRetry (send_x Send) uuid fuel i ctx args (m, x) =
  (λ '(r, x'), (r, (m, x'))) <$> preDispatchTaskWithRetry Send uuid fuel i ctx args x.
Proof.
  revert i x. induction fuel as [|fuel IH]; intros i x; [done|]. cbn [preDispatchTaskWithRetry].
  destruct (ctx_done ctx i); [done|]. unfold preDispatchTaskOnce, send_x.
  destruct (Send _ x) as [[[]|[[] ?|?]|] x']; try done;
    cbn [negb]; destruct (wouldExceed ctx i), (ctx_done_waiting ctx i); try done; apply IH.
Qed.

Lemma confirm_send_x rid workerID m x :
  confirmDispatchTask (send_x Send) rid workerID (m, x) =
  let '(r, x') := confirmDispatchTask Send rid workerID x in (r, (m, x')).
Proof. unfold confirmDispatchTask, send_x. by destruct (Send _ x) as [[[]|[[] ?|?]|] x']. Qed.

Lemma abort_eq task e m x :
  length (eventQueue m) < eventQueueCap →
  call_wm (X := X) (AbortCreatingWorker (ct_workerID task) (Some e)) (m, x) = (Done tt, (wm_told task e m, x)).
Proof. intros Hq. unfold call_wm, AbortCreatingWorker, reporting, enqueueEvent. by rewrite bool_decide_eq_true_2. Qed.

Lemma start_eq task now ex m x :
  workerEntries m !! ct_workerID task = None →
  call_wm (X := X) (BeforeStartingWorker now (ct_workerID task) ex) (m, x) = (Done tt, (wm_started now task ex m, x)).
Proof. intros Hnew. unfold call_wm, BeforeStartingWorker. by rewrite Hnew. Qed.

End goroutine_lemmas.

Lemma Consume_eq q :
  Consume q = if bool_decide (quota_used q < quota_total q) then (Done tt, mkQuota (quota_total q) (S (quota_used q)))
              else (Fail (ErrForeign "context deadline exceeded"), q).
Proof. unfold Consume, TryConsume. by case_bool_decide. Qed.

Definition quota_inv (s : DefaultBaseMaster * nat) : Prop :=
  quota_total (bm_createWorkerQuota s.1) = maxCreateWorkerConcurrency ∧
  quota_used (bm_createWorkerQuota s.1) = length (bm_creating s.1) + s.2 ∧
  quota_used (bm_createWorkerQuota s.1) ≤ maxCreateWorkerConcurrency.

Lemma creating_step_inv {C} (toml json : WorkerConfig C → res goerr string) s s' :
  creating_step toml json s s' → quota_inv s → quota_inv s'.
Proof.
  intros Hst (Htot & Hused & Hle). destruct Hst as [b n u t c co rs|b n i m' Hi]; unfold quota_inv; simpl in *.
  - unfold CreateWorker, TryConsume. rewrite Consume_eq. case_bool_decide as Hlt; [|done].
    destruct (prepareWorkerConfig _ _ u t c) as [[raw w]|e|]; simpl; rewrite ?length_app; simpl; lia.
  - unfold finishCreating, Release. destruct (quota_used (bm_createWorkerQuota b)) as [|k] eqn:Hk; simpl; [lia|].
    rewrite length_app, length_take, length_drop. lia.
Qed.

Lemma creating_rtc_inv {C} (toml json : WorkerConfig C → res goerr string) s s' :
  rtc (creating_step toml json) s s' → quota_inv s → quota_inv s'.
Proof. induction 1; eauto using creating_step_inv. Qed.

Lemma NewBaseMaster_quota id node addr meta : quota_inv (NewBaseMaster id node addr meta, 0).
Proof. unfold quota_inv. cbn. unfold maxCreateWorkerConcurrency. lia. Qed.

Lemma preDispatch_no_panic {X} (Send : ExecutorRequest → GoM rpcErr X unit) uuid fuel i ctx args x x' :
  (∀ req y, (Send req y).1 ≠ Panic) → (∀ req y msg, (Send req y).1 ≠ Fail (RpcStatus AlreadyExists msg)) →
  preDispatchTaskWithRetry Send uuid fuel i ctx args x ≠ Some (Panic, x').
Proof.
  intros Hnp Hdup. revert i x. induction fuel as [|fuel IH]; [done|]. intros i x. cbn [preDispatchTaskWithRetry].
  destruct (ctx_done ctx i); [done|]. unfold preDispatchTaskOnce.
  match goal with |- context [Send ?r x] =>
    pose proof (Hnp r x) as Hn; pose proof (Hdup r x) as Hd; destruct (Send r x) as [[[]|[[] ?|?]|] y] end;
    simpl in *; try done; try (by destruct (Hd _ eq_refl)); destruct (wouldExceed ctx i), (ctx_done_waiting ctx i); try done; apply IH.
Qed.

(** ** Theorems *)

(** The goroutine that creates a worker returns, and the manager ends up in
    one of three states: told that the creation failed, with the worker never
    registered; the worker registered; or registered and then told that the
    dispatch was aborted. The one exception is a failed first phase of the
    dispatch, after which the manager is exactly as before. *)
Theorem create_worker_outcomes {X} (Send : ExecutorRequest → GoM rpcErr X unit) uuid masterID task scheduled added
    now fuel ctx m x out m' x' :
  scheduled ≠ Panic → added ≠ Panic → (∀ req y, (Send req y).1 ≠ Panic) → (∀ req y msg, (Send req y).1 ≠ Fail (RpcStatus AlreadyExists msg)) →
  workerEntries m !! ct_workerID task = None → length (eventQueue m) < eventQueueCap →
  createWorker_goroutine Send uuid masterID task scheduled added now fuel ctx (m, x) = Some (out, (m', x')) →
  out = Done tt ∧
  (creation_outcome now task m m' ∨
   m' = m ∧ ∃ err, preDispatchTaskWithRetry Send uuid fuel 0 ctx
     (mkDispatchTaskArgs (ct_workerID task) masterID (ct_workerType task) (ct_configBytes task)) x = Some (Fail err, x')).
Proof.
  intros Hsch Hadd Hnp Hdup Hnew Hq. unfold createWorker_goroutine.
  destruct scheduled as [[ex addr]|e|]; [|rewrite abort_eq by done; intros [= <- <- <-]; split; [done|left; constructor]|done].
  destruct added as [[]|e|]; [|rewrite abort_eq by done; intros [= <- <- <-]; split; [done|left; constructor]|done].
  unfold DispatchTask. rewrite preDispatch_send_x.
  set (args := mkDispatchTaskArgs _ _ _ _).
  destruct (preDispatchTaskWithRetry Send uuid fuel 0 ctx args x) as [[[rid|err|] x1]|] eqn:Hpre; cbn [fmap option_fmap option_map]; [| | |done].
  2:{ intros [= <- <- <-]. split; [done|]. right. by eauto. }
  2:{ by apply preDispatch_no_panic in Hpre. }
  rewrite start_eq by done. rewrite confirm_send_x. unfold confirmDispatchTask.
  match goal with |- context [Send ?r x1] => pose proof (Hnp r x1) as Hn; destruct (Send r x1) as [[[]|err|] y] end; simpl in Hn; [| |done].
  - intros [= <- <- <-]. split; [done|]. left. constructor.
  - destruct err as [[] msg|msg]; cbn beta iota zeta; rewrite ?abort_eq by done; intros [= <- <- <-]; (split; [done|]); left; constructor.
Qed.

(** The quota in use is the number of creations under way plus the calls that
    rejected their configuration, so a finished creation always has a unit to
    release; and a call with a valid configuration succeeds exactly when these
    two stay below the maximum. *)
Theorem create_worker_quota {C} (toml json : WorkerConfig C → res goerr string) id node addr meta b leaked :
  rtc (creating_step toml json) (NewBaseMaster id node addr meta, 0) (b, leaked) →
  quota_used (bm_createWorkerQuota b) = length (bm_creating b) + leaked ∧
  (∀ i m', i < length (bm_creating b) → (finishCreating i m' b).1 = Done tt) ∧
  ∀ newUUID workerType config cost resources raw w,
    prepareWorkerConfig toml json newUUID workerType config = Done (raw, w) →
    (CreateWorker toml json newUUID workerType config cost resources b).1 = Done w ↔
    length (bm_creating b) + leaked < maxCreateWorkerConcurrency.
Proof.
  intros Hrtc. apply creating_rtc_inv in Hrtc as (Htot & Hused & Hle); [|apply NewBaseMaster_quota]. cbn [fst snd] in *.
  split; [done|]. split.
  - intros i m' Hi. unfold finishCreating, Release. destruct (quota_used _) eqn:Hk; [lia|done].
  - intros u t c co rs raw w Hprep. unfold CreateWorker. rewrite Consume_eq, Hprep. case_bool_decide as Hlt; simpl; [|split; [done|lia]].
    split; [lia|done].
Qed.

Section takeover.
Context {DB I : Type} `{!Gorm DB, !GormLaws DB}.
Implicit Types s : MasterSt DB I.

Lemma on_db_Done {A} (f : Go DB A) s a s' :
  on_db f s = (Done a, s') → ∃ db', f (ms_db s) = (Done a, db') ∧ s' = mkMasterSt (ms_base s) db' (ms_impl s).
Proof. unfold on_db. destruct (f (ms_db s)) as [r db']. naive_solver. Qed.

Lemma refreshMetadata_spec s isInit e s' meta0 :
  live (jobs (ms_db s)) (bm_id (ms_base s)) = Some meta0 → ¬ first_fails (bm_id (ms_base s)) (ms_db s) →
  mm_ID meta0 = bm_id (ms_base s) →
  refreshMetadata s = (Done (isInit, e), s') →
  let meta := mm_set_owner meta0 e (bm_advertiseAddr (ms_base s)) (bm_nodeID (ms_base s)) in
  isInit = bool_decide (mm_StatusCode meta0 = MasterStatusUninit) ∧
  epochs (ms_db s) = Some (e - 1)%Z ∧ epochs (ms_db s') = Some e ∧
  jobs (ms_db s') = <[bm_id (ms_base s) := mkJobRow meta false]> (jobs (ms_db s)) ∧
  ms_base s' = set_meta meta (ms_base s) ∧ ms_impl s' = ms_impl s.
Proof.
  intros Hlive Hff Hid Hrun. unfold refreshMetadata in Hrun.
  apply bind_inv_Done in Hrun as (s0 & s1 & Hget & Hrun). unfold get in Hget. injection Hget as <- <-.
  apply bind_inv_Done in Hrun as (meta1 & s1 & Hload & Hrun). apply on_db_Done in Hload as (db1 & Hload & ->).
  apply bind_inv_Done in Hrun as (e' & s2 & Hgen & Hrun). apply on_db_Done in Hgen as (db2 & Hgen & ->).
  apply bind_inv_Done in Hrun as ([] & s3 & Hupd & Hrun). apply on_db_Done in Hupd as (db3 & Hupd & ->).
  cbn [ms_db ms_base ms_impl] in *.
  pose proof (Load_spec (bm_id (ms_base s)) (ms_db s)) as Hl. rewrite Hload in Hl.
  destruct Hl as [[Hj1 He1] Hl]. rewrite Hlive in Hl. destruct Hl as [[= <-]|[_ [|]]]; [|done..].
  pose proof (GenEpoch_spec db1) as Hg. rewrite Hgen in Hg. destruct Hg as (Hj2 & He2 & He2').
  unfold Update in Hupd. match type of Hupd with UpdateJob (Some ?m) _ = _ => pose proof (UpdateJob_spec m db2) as Hu end.
  rewrite Hupd in Hu. destruct Hu as [Hj3 He3]. rewrite rows_updated_eq in Hj3.
  unfold on_base, modify, mret, GoM_ret, mbind, GoM_bind in Hrun. cbn [ms_base ms_db ms_impl] in Hrun. simplify_eq.
  cbn [ms_db ms_base ms_impl mm_ID mm_set_owner mm_StatusCode] in *.
  rewrite Hj2, Hj1, Hid, Hlive in Hj3. rewrite <- He1, He3. by split_and!.
Qed.
(** A master that starts with its metadata in the metastore takes it over: it
    gets the next epoch, its row then carries that epoch, its node and its
    address and nothing else changes in the table, and its worker manager runs
    under that epoch, empty when the master had never been initialised, and
    recovered from the persisted workers otherwise. *)
Theorem master_start_takes_over env s isInit s' meta0 :
  live (jobs (ms_db s)) (bm_id (ms_base s)) = Some meta0 → ¬ first_fails (bm_id (ms_base s)) (ms_db s) →
  mm_ID meta0 = bm_id (ms_base s) →
  doInit env s = (Done isInit, s') →
  ∃ e m, epochs (ms_db s) = Some (e - 1)%Z ∧ epochs (ms_db s') = Some e ∧ bm_currentEpoch (ms_base s') = e ∧
    jobs (ms_db s') = <[bm_id (ms_base s) := mkJobRow (mm_set_owner meta0 e (bm_advertiseAddr (ms_base s)) (bm_nodeID (ms_base s))) false]> (jobs (ms_db s)) ∧
    bm_workerManager (ms_base s') = Some m ∧
    isInit = bool_decide (mm_StatusCode meta0 = MasterStatusUninit) ∧
    let fresh := NewWorkerManager (bm_id (ms_base s)) e isInit (bm_timeoutConfig (ms_base s)) in
    if isInit then m = fresh
    else InitAfterRecover (ie_workers env) (ie_order env) (ie_wait env) (ie_order2 env) fresh = (Done tt, m).
Proof.
  intros Hlive Hff Hid Hrun. unfold doInit in Hrun.
  apply bind_inv_Done in Hrun as ([i e] & s1 & Href & Hrun).
  apply (refreshMetadata_spec s i e s1 meta0) in Href as (Hi & He & He1 & Hj1 & Hb1 & _); [|done..].
  exists e. unfold on_base, modify, mret, GoM_ret, mbind, GoM_bind in Hrun. cbn [ms_base ms_db ms_impl] in Hrun.
  unfold on_impl in Hrun. cbn [ms_base ms_db ms_impl] in Hrun.
  destruct (ie_registered env _) as [[[]|?|] i']; [|done..]. cbn [ms_base ms_db ms_impl] in Hrun. rewrite Hb1 in Hrun.
  destruct i; cbn [negb] in Hrun.
  - simplify_eq. eexists. rewrite <- He1. by split_and!.
  - unfold on_wm in Hrun. cbn [ms_base set_wm bm_workerManager set_epoch set_meta bm_id bm_timeoutConfig] in Hrun.
    destruct (InitAfterRecover _ _ _ _ _) as [[[]|?|] m] eqn:Hrec; simplify_eq.
    exists m. cbn [ms_db ms_base bm_workerManager bm_currentEpoch set_wm set_epoch]. by split_and!.
Qed.

End takeover.

Module Witness.

Definition task : createTask := mkCreateTask "w" FakeTask "cfg" 1 [].
Definition wm : WorkerManager := NewWorkerManager "m" 1 true DefaultTimeoutConfig.
(** An executor that refuses every task. *)
Definition refuse (req : ExecutorRequest) : GoM rpcErr unit unit := λ x, (Fail (RpcStatus Aborted "full"), x).
Definition ctx : Ctx := mkCtx (λ _, false) None (λ _, 0%Z) (λ _, false).
Definition ids (i : nat) : string := "r".

Lemma create_worker_outcomes_witness :
  Done (E := goerr) tt = Done tt ∧
  (creation_outcome 0 task wm wm ∨
   wm = wm ∧ ∃ err, preDispatchTaskWithRetry refuse ids 1 0 ctx (mkDispatchTaskArgs "w" "m" FakeTask "cfg") tt = Some (Fail err, tt)).
Proof.
  apply (create_worker_outcomes refuse ids "m" task (Done ("ex", "addr")) (Done tt) 0 1 ctx wm tt); try done.
  vm_compute. lia.
Defined.

Definition no_encoder (c : WorkerConfig unit) : res goerr string := Fail (ErrForeign "unsupported type").
Definition base : DefaultBaseMaster := NewBaseMaster "m" "node" "addr" (Metastore.Witness.job "m").
Definition base1 : DefaultBaseMaster * nat :=
  ((CreateWorker no_encoder no_encoder "u" FakeTask (UserConfig tt) 1 [] base).2, 1).

(** A rejected configuration uses up a unit of the quota for good. *)
Lemma create_worker_quota_witness :
  quota_used (bm_createWorkerQuota base1.1) = length (bm_creating base1.1) + 1 ∧
  (∀ i m', i < length (bm_creating base1.1) → (finishCreating i m' base1.1).1 = Done tt) ∧
  ∀ newUUID workerType config cost resources raw w,
    prepareWorkerConfig no_encoder no_encoder newUUID workerType config = Done (raw, w) →
    (CreateWorker no_encoder no_encoder newUUID workerType config cost resources base1.1).1 = Done w ↔
    length (bm_creating base1.1) + 1 < maxCreateWorkerConcurrency.
Proof.
  apply (create_worker_quota no_encoder no_encoder "m" "node" "addr" (Metastore.Witness.job "m")).
  eapply rtc_l; [|apply rtc_refl]. exact (cs_create no_encoder no_encoder base 0 "u" FakeTask (UserConfig tt) 1 []).
Defined.

Definition st : MasterSt RefDB unit := mkMasterSt base (StoreMasterMeta (Metastore.Witness.job "m") Metastore.Witness.db0).2 tt.
Definition env : InitEnv unit := mkInitEnv (mret tt) (Done []) [] (mret tt) (λ _, []).
Definition env_s' : MasterSt RefDB unit := (doInit env st).2.

Lemma master_start_takes_over_witness :
  ∃ e m, epochs (ms_db st) = Some (e - 1)%Z ∧ epochs (ms_db env_s') = Some e ∧ bm_currentEpoch (ms_base env_s') = e ∧
    jobs (ms_db env_s') = <["m" := mkJobRow (mm_set_owner (Metastore.Witness.job "m") e "addr" "node") false]> (jobs (ms_db st)) ∧
    bm_workerManager (ms_base env_s') = Some m ∧
    true = bool_decide (mm_StatusCode (Metastore.Witness.job "m") = MasterStatusUninit) ∧
    m = NewWorkerManager "m" e true (bm_timeoutConfig base).
Proof.
  apply (master_start_takes_over env st true env_s' (Metastore.Witness.job "m")); [reflexivity| |reflexivity|reflexivity].
  intros (a & db' & Hf). discriminate Hf.
Defined.

End Witness.
