(* ===== verification/JobManager.v ===== *)
(** * The job manager ([servermaster/jobmanager.go])

    The master of all job masters: it embeds the base master of [Master] and the
    state machine of [JobFsm], and keeps the job table of [Metastore]. Its RPC
    handlers answer with an error code, so they end in [Done] unless they panic. *)

From S2P Require Import Prelude Errors Model Metastore JobFsm WorkerManager Dispatch Worker Master.

(** ** State and requests *)

Record JobManagerImplV2 := mkJobManager { jm_fsm : JobFsm; jm_tombstoneCleaned : bool }.

Abbreviation JmSt DB := (MasterSt DB JobManagerImplV2).

Definition defaultJobMasterCost : RescUnit := 1%Z.

Inductive JobType : Type := JobType_CVSDemo | JobType_DM | JobType_CDC | JobType_FakeJob | JobType_other (n : Z).

Record SubmitJobRequest := mkSubmitJobRequest { sr_Tp : JobType; sr_Config : string; sr_User : string }.
Record SubmitJobResponse := mkSubmitJobResponse { sj_Err : option ErrorCode; sj_JobIdStr : MasterID }.

Section job_manager.
Context {DB : Type} `{!Gorm DB}.

(** The decoder of the configuration of a CVS job, the encoders of the worker
    configurations and the generator of worker ids. *)
Variable cvsDecodes : string → bool.
Variable tomlEncode jsonMarshal : WorkerConfig Empty_set → res goerr string.
Variable newUUID : MasterMeta → WorkerID.

(** Calls on the state machine, alone or with the base master. *)
Definition on_fsm {A} (f : Go JobFsm A) : Go (JmSt DB) A :=
  on_impl (λ i, let '(r, fsm) := f (jm_fsm i) in (r, mkJobManager fsm (jm_tombstoneCleaned i))).

Definition on_fsm_base {A} (f : Go (JobFsm * DefaultBaseMaster) A) : Go (JmSt DB) A := λ s,
  let '(r, (fsm, b)) := f (jm_fsm (ms_impl s), ms_base s) in
  (r, mkMasterSt b (ms_db s) (mkJobManager fsm (jm_tombstoneCleaned (ms_impl s)))).

(** [jm.BaseMaster.CreateWorker(job.Tp, job, defaultJobMasterCost)] *)
Definition createJobMaster : dispatchJobFn DefaultBaseMaster := λ job,
  CreateWorker tomlEncode jsonMarshal (newUUID job) (mm_Tp job) (MetaConfig job) defaultJobMasterCost [].

(** ** RPC handlers *)

(** The job master type of a request. *)
Definition jobMasterType (req : SubmitJobRequest) : res goerr WorkerType :=
  match sr_Tp req with
  | JobType_CVSDemo =>
      if cvsDecodes (sr_Config req) then Done CvsJobMaster else Fail (GoErr ErrBuildJobFailed "failed to decode config")
  | JobType_DM => Done DMJobMaster
  | JobType_FakeJob => Done FakeJobMaster
  | _ => Fail (GoErr ErrBuildJobFailed "unknown job type")
  end.

(** [id] is the generated job id. *)
Definition submitMeta (req : SubmitJobRequest) (id : MasterID) (tp : WorkerType) : MasterMeta :=
  mkMasterMeta (sr_User req) id tp MasterStatusUninit "" "" 0 (sr_Config req).

Definition SubmitJob (id : MasterID) (req : SubmitJobRequest) : Go (JmSt DB) SubmitJobResponse := λ s,
  let failed e := mkSubmitJobResponse (ToPBError (Some e)) "" in
  match jobMasterType req with
  | Panic => (Panic, s)
  | Fail e => (Done (failed e), s)
  | Done tp =>
      let meta := submitMeta req id tp in
      match on_db (StoreMasterMeta meta) s with
      | (Panic, s1) => (Panic, s1)
      | (Fail e, s1) => (Done (failed e), s1)
      | (Done _, s1) =>
          match on_base (createJobMaster meta) s1 with
          | (Panic, s2) => (Panic, s2)
          | (Fail e, s2) =>
              match on_db (DeleteMasterMeta (mm_ID meta)) s2 with
              | (Panic, s3) => (Panic, s3)
              | (_, s3) => (Done (failed e), s3)
              end
          | (Done workerID, s2) =>
              (Done (mkSubmitJobResponse None workerID),
               (on_fsm (modify (JobDispatched meta false)) s2).2)
          end
      end
  end.

Definition CancelJob (id : MasterID) : Go (JmSt DB) (option ErrorCode) := λ s,
  match on_db (GetJobByID id) s with
  | (Panic, s1) => (Panic, s1)
  | (Fail err, s1) =>
      if IsNotFoundError (Some err) then (Done (Some ErrorCode_UnKnownJob), s1)
      else (Done (Some ErrorCode_UnknownError), s1)
  | (Done job, s1) =>
      if negb (bool_decide (mm_StatusCode job = MasterStatusStopped)) then (Done (Some ErrorCode_UnexpectedJobStatus), s1)
      else
        match on_db (DeleteJob id) s1 with
        | (Panic, s2) => (Panic, s2)
        | (Fail err, s2) => (Done (Some ErrorCode_UnknownError), s2)
        | (Done _, s2) => (Done None, s2)
        end
  end.

(** [sent] is the answer of the message sender; the second component is the
    message handed to it. *)
Definition PauseJob (mono : MonotonicTime) (sent : option goerr) (id : MasterID) (s : JmSt DB) :
    res goerr (option ErrorCode * option (string * StatusChangeRequest)) :=
  match QueryOnlineJob (jm_fsm (ms_impl s)) id with
  | None => Done (Some ErrorCode_UnKnownJob, None)
  | Some job =>
      match jh_WorkerHandle job with
      | None => Panic
      | Some worker =>
          let topic := WorkerStatusChangeRequestTopic (bm_id (ms_base s)) (handle_ID worker) in
          let msg := {| scr_SendTime := mono; scr_FromMasterID := bm_id (ms_base s);
                        scr_Epoch := mm_Epoch (bm_masterMeta (ms_base s)); scr_ExpectState := WorkerStatusStopped |} in
          match Unwrap worker with
          | Some _ => Done (ToPBError sent, Some (topic, msg))
          | None => Done (Some ErrorCode_UnKnownJob, None)
          end
      end
  end.

Definition unknownJob : QueryJobResponse := mkQueryJobResponse 0 "" JobStatus_init (Some ErrorCode_UnKnownJob) None.

Definition JobManager_QueryJob (id : MasterID) : Go (JmSt DB) QueryJobResponse := λ s,
  match bm_workerManager (ms_base s) with
  | None => (Panic, s)
  | Some m =>
      match QueryJob m (jm_fsm (ms_impl s)) id with
      | Panic => (Panic, s)
      | Done (Some resp) => (Done resp, s)
      | _ =>
          match on_db (Load id) s with
          | (Panic, s1) => (Panic, s1)
          | (Fail _, s1) => (Done unknownJob, s1)
          | (Done masterMeta, s1) =>
              let resp st := mkQueryJobResponse (mm_Tp masterMeta) (mm_Config masterMeta) st None None in
              if bool_decide (mm_StatusCode masterMeta = MasterStatusFinished) then (Done (resp JobStatus_finished), s1)
              else if bool_decide (mm_StatusCode masterMeta = MasterStatusStopped) then (Done (resp JobStatus_stopped), s1)
              else (Done unknownJob, s1)
          end
      end
  end.

Definition GetJobStatuses : Go (JmSt DB) (gmap MasterID Z) :=
  l ← on_db QueryJobs;
  mret (foldl (λ ret jobMeta, <[mm_ID jobMeta := mm_StatusCode jobMeta]> ret) ∅ l).

(** ** Methods of the master implementation *)

(** What a tick sees of its surroundings: the orders in which the maps are
    ranged over, and the answers of the worker table to the deletions. *)
Record TickEnv := mkTickEnv {
  te_pending : list MasterID;
  te_workers : list WorkerID;
  te_waitack : JobFsm → list MasterID;
  te_deleted : WorkerID → res goerr Z;
}.

(** [WorkerMetadataClient.Remove] *)
Definition Remove (deleted : res goerr Z) : res goerr bool :=
  match deleted with Done _ => Done true | Fail e => Fail e | Panic => Panic end.

(** [Done true] when the error was that of the quota. *)
Definition filterQuotaError (m : Go (JmSt DB) unit) : Go (JmSt DB) bool := λ s,
  match m s with
  | (Done _, s') => (Done false, s')
  | (Fail e, s') => if err_Equal ErrMasterConcurrencyExceeded (Some e) then (Done true, s') else (Fail e, s')
  | (Panic, s') => (Panic, s')
  end.

Definition tick_worker (env : TickEnv) (workers : gmap WorkerID WorkerHandle) (id : WorkerID) : Go (JmSt DB) unit :=
  match workers !! id with
  | None => mret tt
  | Some worker =>
      match GetTombstone worker with
      | Some tombstone =>
          on_base (on_wm (CleanTombstone (Remove (te_deleted env (handle_ID tombstone))) (handle_ID tombstone)))
      | None => λ s,
          match on_fsm (JobOnline worker) s with
          | (Fail e, s') => if err_Equal ErrWorkerNotFound (Some e) then (Done tt, s') else (Fail e, s')
          | out => out
          end
      end
  end.

Definition JobManager_Tick (env : TickEnv) : Go (JmSt DB) unit :=
  _ ← filterQuotaError (on_fsm_base (IterPendingJobs createJobMaster (te_pending env)));
  s ← get;
  if jm_tombstoneCleaned (ms_impl s) then mret tt else
  ready ← (λ s, (IsMasterReady (ms_base s), s));
  if negb ready then mret tt else
  workers ← (λ s, (Master_GetWorkers (ms_base s), s));
  _ ← forM_ (tick_worker env workers) (te_workers env);
  s1 ← get;
  exceedQuota ← filterQuotaError (on_fsm_base (IterWaitAckJobs createJobMaster (te_waitack env (jm_fsm (ms_impl s1)))));
  if negb exceedQuota then on_impl (modify (λ i, mkJobManager (jm_fsm i) true)) else mret tt.

Definition recoverJob (job : MasterMeta) (fsm : JobFsm) : JobFsm :=
  if bool_decide (mm_Tp job = JobManagerTp) then fsm
  else if bool_decide (mm_StatusCode job = MasterStatusFinished) || bool_decide (mm_StatusCode job = MasterStatusStopped)
  then fsm
  else JobDispatched job true fsm.

Definition JobManager_OnMasterRecovered : Go (JmSt DB) unit :=
  jobs ← on_db LoadAllMasters;
  on_fsm (modify (λ fsm, foldl (λ acc job, recoverJob job acc) fsm jobs)).

Definition JobManager_OnWorkerDispatched (worker : WorkerHandle) (result : option goerr) : Go (JmSt DB) unit :=
  match result with
  | Some _ => on_fsm (JobDispatchFailed worker)
  | None => mret tt
  end.

Definition JobManager_OnWorkerOnline (worker : WorkerHandle) : Go (JmSt DB) unit := on_fsm (JobOnline worker).

(** [deleted] is the answer of the worker table. A running handle has no
    tombstone to clean: a nil dereference. *)
Definition JobManager_OnWorkerOffline (deleted : res goerr Z) (worker : WorkerHandle) (reason : option goerr) :
    Go (JmSt DB) unit :=
  let needFailover := negb (err_Equal ErrWorkerFinish reason || err_Equal ErrWorkerStop reason) in
  match GetTombstone worker with
  | None => panic
  | Some tombstone =>
      _ ← on_base (on_wm (CleanTombstone (Remove deleted) (handle_ID tombstone)));
      on_fsm (modify (JobOffline worker needFailover))
  end.

Definition JobManagerImpl (env : TickEnv) : MasterImpl DB JobManagerImplV2 := {|
  InitImpl := mret tt;
  Impl_Tick := JobManager_Tick env;
  OnMasterRecovered := JobManager_OnMasterRecovered;
  OnWorkerDispatched := JobManager_OnWorkerDispatched;
  OnWorkerOnline := JobManager_OnWorkerOnline;
  OnWorkerOffline worker := JobManager_OnWorkerOffline (te_deleted env (handle_ID worker)) worker;
  OnWorkerStatusUpdated _ _ := mret tt;
  CloseImpl := mret tt;
|}.

(** [impl.BaseMaster.Init], closed again when it fails. *)
Definition initOrClose (ienv : InitEnv _) (env : TickEnv) : Go (JmSt DB) unit := λ s,
  match Init (JobManagerImpl env) ienv s with
  | (Fail e, s') => (Fail e, (Master_Close (JobManagerImpl env) s').2)
  | out => out
  end.

(** [NewJobManagerImplV2], from the zero state of a base master: the metadata
    is marked as initialised so that start-up recovers the jobs. *)
Definition NewJobManagerImplV2 (ienv : InitEnv _) (env : TickEnv) : Go (JmSt DB) unit :=
  _ ← on_base (modify (λ b, set_meta (mm_set_StatusCode (bm_masterMeta b) MasterStatusInit) b));
  s ← get;
  _ ← on_db (StoreMasterMeta (bm_masterMeta (ms_base s)));
  initOrClose ienv env.

End job_manager.

(** ** Specification *)

(** Statements on the job table are answered without an error. *)
Definition store_reliable (DB : Type) `{!Gorm DB} : Prop :=
  (∀ m db e, (UpsertJob (DB := DB) m db).1 ≠ Fail e) ∧ (∀ id db e, (DeleteJob (DB := DB) id db).1 ≠ Fail e).

Definition jobTask (job : MasterMeta) : createTask :=
  mkCreateTask (mm_ID job) (mm_Tp job) (mm_Config job) defaultJobMasterCost [].

(** A job that a new job manager has to take care of. *)
Definition to_recover (m : MasterMeta) : bool :=
  negb (bool_decide (mm_Tp m = JobManagerTp)) &&
  negb (bool_decide (mm_StatusCode m = MasterStatusFinished) || bool_decide (mm_StatusCode m = MasterStatusStopped)).

Definition is_job_master (tp : WorkerType) : bool := bool_decide (tp ∈ [CvsJobMaster; FakeJobMaster; DMJobMaster]).

(** Every job the state machine holds has a type whose master is given the id of
    its metadata. *)
Definition fsm_types (fsm : JobFsm) : Prop :=
  ∀ id m, fsm_meta fsm id = Some m → is_job_master (mm_Tp m) = true.

Definition entry_of {DB} (s : JmSt DB) (id : WorkerID) : option entry_ptr :=
  match bm_workerManager (ms_base s) with Some m => workerEntries m !! id | None => None end.

(** The part of the state a tick looks at for a given job. *)
Definition slot_same {DB} (id : MasterID) (s s' : JmSt DB) : Prop :=
  waitAckJobs (jm_fsm (ms_impl s')) !! id = waitAckJobs (jm_fsm (ms_impl s)) !! id ∧
  onlineJobs (jm_fsm (ms_impl s')) !! id = onlineJobs (jm_fsm (ms_impl s)) !! id ∧
  entry_of s' id = entry_of s id.

(** What the loop over the workers does for the job of a worker. *)
Definition slot_ticked {DB} (worker : option WorkerHandle) (id : MasterID) (s s' : JmSt DB) : Prop :=
  match worker with
  | Some (runningHandle w ex) =>
      waitAckJobs (jm_fsm (ms_impl s')) !! id = None ∧
      onlineJobs (jm_fsm (ms_impl s')) !! id =
        match waitAckJobs (jm_fsm (ms_impl s)) !! id with
        | Some job => Some (mkJobHolder (Some (runningHandle w ex)) (jh_Meta job) false)
        | None => onlineJobs (jm_fsm (ms_impl s)) !! id
        end ∧
      entry_of s' id = entry_of s id
  | Some (tombstoneHandle _) =>
      waitAckJobs (jm_fsm (ms_impl s')) !! id = waitAckJobs (jm_fsm (ms_impl s)) !! id ∧
      onlineJobs (jm_fsm (ms_impl s')) !! id = onlineJobs (jm_fsm (ms_impl s)) !! id ∧
      entry_of s' id = None
  | None => slot_same id s s'
  end.

Definition ticked {DB} (workers : gmap WorkerID WorkerHandle) (l : list WorkerID) (s s' : JmSt DB) : Prop :=
  ms_db s' = ms_db s ∧ jm_tombstoneCleaned (ms_impl s') = jm_tombstoneCleaned (ms_impl s) ∧
  bm_creating (ms_base s') = bm_creating (ms_base s) ∧ bm_createWorkerQuota (ms_base s') = bm_createWorkerQuota (ms_base s) ∧
  pendingJobs (jm_fsm (ms_impl s')) = pendingJobs (jm_fsm (ms_impl s)) ∧
  (∀ id, if decide (id ∈ l) then slot_ticked (workers !! id) id s s' else slot_same id s s').

(** The recovered jobs of [order] whose dispatch the failover loop attempts. *)
Definition failover_tasks (fsm : JobFsm) (order : list MasterID) : list createTask := jobTask <$> failover_todo fsm order.

(** ** Lemmas *)

Lemma createJobMaster_eq toml json uuid job b :
  is_job_master (mm_Tp job) = true →
  createJobMaster toml json uuid job b =
  let q := bm_createWorkerQuota b in
  if bool_decide (quota_used q < quota_total q) then
    (Done (mm_ID job), set_creating (mkQuota (quota_total q) (S (quota_used q))) (bm_creating b ++ [jobTask job]) b)
  else (Fail (GoWrap ErrMasterConcurrencyExceeded (ErrForeign "context deadline exceeded")), set_creating q (bm_creating b) b).
Proof.
  intros Htp. unfold createJobMaster, CreateWorker. rewrite Consume_eq. unfold prepareWorkerConfig, is_job_master in *.
  rewrite Htp. cbn zeta. by destruct (bool_decide (quota_used _ < _)).
Qed.

Section rpc.
Context {DB : Type} `{!Gorm DB, !GormLaws DB}.
Implicit Types s : JmSt DB.

Lemma StoreMasterMeta_spec m (db : DB) :
  let rows := rows_created MasterUpdateColumns m (jobs db) in
  match StoreMasterMeta m db with
  | (Done _, db') => jobs db' = rows
  | (Fail _, db') => jobs db' = jobs db ∨ jobs db' = rows ∧ ∃ db1 e, (UpsertJob (Some m) db1).1 = Fail e
  | (Panic, _) => False
  end.
Proof.
  simpl. unfold StoreMasterMeta, mbind, GoM_bind. pose proof (Load_spec (mm_ID m) db) as Hl.
  destruct (Load (mm_ID m) db) as [[m0|e|] db1]; [|left; apply Hl|done]. destruct Hl as [[Hj He] _].
  pose proof (UpsertJob_spec m db1) as Hu. unfold Store. destruct (UpsertJob (Some m) db1) as [[[]|e|] db2] eqn:Hup; [| |done].
  - by rewrite <- Hj; apply Hu.
  - destruct Hu as [[Hj2 _]|[Hj2 _]]; [left; congruence|]. right. rewrite <- Hj. split; [done|]. exists db1, e. exact (f_equal fst Hup).
Qed.

Lemma DeleteMasterMeta_spec id (db : DB) :
  match DeleteMasterMeta id db with
  | (Done _, db') => jobs db' = rows_deleted id (jobs db)
  | (Fail _, db') => (jobs db' = jobs db ∨ jobs db' = rows_deleted id (jobs db)) ∧ ∃ db1 e, (DeleteJob id db1).1 = Fail e
  | (Panic, _) => False
  end.
Proof.
  unfold DeleteMasterMeta, Delete, mbind, GoM_bind. pose proof (DeleteJob_spec id db) as Hd.
  destruct (DeleteJob id db) as [[n|e|] db'] eqn:Hrun; [by apply Hd| |done].
  split; [unfold unchanged in Hd; tauto|]. exists db, e. by rewrite Hrun.
Qed.


(** A cancellation never panics and touches only the metadata of a stopped
    job, which it marks as deleted when it answers without an error; a job that
    is unknown or not stopped is left as it is. *)
Theorem cancel_only_stopped_jobs id s :
  ∃ resp s', CancelJob id s = (Done resp, s') ∧ ms_base s' = ms_base s ∧ ms_impl s' = ms_impl s ∧
    let stopped := ∃ m, live (jobs (ms_db s)) id = Some m ∧ mm_StatusCode m = MasterStatusStopped in
    match resp with
    | None => stopped ∧ jobs (ms_db s') = rows_deleted id (jobs (ms_db s))
    | Some code =>
        jobs (ms_db s') = jobs (ms_db s) ∨
        code = ErrorCode_UnknownError ∧ stopped ∧ jobs (ms_db s') = rows_deleted id (jobs (ms_db s))
    end.
Proof.
  unfold CancelJob, on_db. pose proof (GetJobByID_spec id (ms_db s)) as Hg.
  destruct (GetJobByID id (ms_db s)) as [[m|e|] db1]; [| |done].
  2:{ destruct Hg as [[Hj _] _]. destruct (IsNotFoundError _); eexists _, _; (split; [done|]); simpl; by auto. }
  destruct Hg as [Hl [Hj _]]. case_bool_decide as Hst; simpl.
  2:{ eexists _, _. split; [done|]. simpl. by auto. }
  pose proof (DeleteJob_spec id db1) as Hd. simpl in Hd. unfold unchanged in Hd. rewrite Hj in Hd.
  destruct (DeleteJob id db1) as [[n|e|] db2]; [| |done]; eexists _, _; (split; [done|]); simpl; (split; [done|]); (split; [done|]).
  - split; [by eauto|apply Hd].
  - destruct Hd as [[-> _]|[-> _]]; [by left|]. right. split_and!; eauto.
Qed.

End rpc.

(** ** The tick *)

Lemma GetWorkers_ID m id h : GetWorkers m !! id = Some h → handle_ID h = id.
Proof.
  unfold GetWorkers. rewrite map_lookup_imap. destruct (workerEntries m !! id) as [p|]; simpl; [|done].
  destruct (wm_heap m !! p); [|done]. intros [= <-]. by case_match.
Qed.

(** A dispatch function restricted to jobs that satisfy a predicate. *)
Definition restrict {W} (P : MasterMeta → bool) (fn : dispatchJobFn W) : dispatchJobFn W :=
  λ job, if P job then fn job else throw (ErrForeign "").

Lemma IterPendingJobs_restrict {W} P (fn : dispatchJobFn W) order fsm w :
  (∀ id m, pendingJobs fsm !! id = Some m → P m = true) →
  IterPendingJobs fn order (fsm, w) = IterPendingJobs (restrict P fn) order (fsm, w).
Proof.
  unfold IterPendingJobs. revert fsm w. induction order as [|k order IH]; intros fsm w HP; [done|].
  assert (IterPendingJobs_body fn k (fsm, w) = IterPendingJobs_body (restrict P fn) k (fsm, w)) as Hb.
  { unfold IterPendingJobs_body, restrict. destruct (pendingJobs fsm !! k) as [job|] eqn:Hk; [|done]. by rewrite (HP _ _ Hk). }
  simpl forM_. unfold mbind, GoM_bind. rewrite Hb.
  destruct (IterPendingJobs_body (restrict P fn) k (fsm, w)) as [[[]|e|] [fsm1 w1]] eqn:Hrun; [|done..].
  apply IH. intros id m Hm. apply (HP id). unfold IterPendingJobs_body in Hrun.
  destruct (pendingJobs fsm !! k) as [job|]; [|by simplify_eq].
  destruct (restrict P fn job w) as [[?|?|] ?]; simplify_eq/=. rewrite lookup_delete in Hm. by case_decide.
Qed.

Section tick.
Context {DB : Type} `{!Gorm DB}.
Context (toml json : WorkerConfig Empty_set → res goerr string) (uuid : MasterMeta → WorkerID).
Implicit Types s : JmSt DB.

Abbreviation create := (createJobMaster toml json uuid).
Abbreviation create_jm := (restrict (λ m, is_job_master (mm_Tp m)) create).

Lemma create_jm_own_id : returns_own_id create_jm.
Proof.
  intros job b id b'. unfold restrict. destruct (is_job_master (mm_Tp job)) eqn:Htp; [|done].
  rewrite createJobMaster_eq by done. simpl. case_bool_decide; naive_solver.
Qed.

Lemma createJobMaster_no_panic job b : is_job_master (mm_Tp job) = true → (create job b).1 ≠ Panic.
Proof. intros Htp. rewrite createJobMaster_eq by done. simpl. by case_bool_decide. Qed.

(** The first loop: some pending jobs become wait-ack, their creation under way. *)
Lemma IterPendingJobs_creating order fsm b :
  fsm_wf fsm → fsm_types fsm →
  let '(r, (fsm', b')) := IterPendingJobs create order (fsm, b) in
  redispatched fsm fsm' ∧ bm_workerManager b' = bm_workerManager b ∧
  ∃ lp, bm_creating b' = bm_creating b ++ (jobTask <$> lp) ∧ (∀ m, m ∈ lp → ∃ id, pendingJobs fsm !! id = Some m).
Proof.
  intros Hwf Hty.
  assert (∀ id m, pendingJobs fsm !! id = Some m → is_job_master (mm_Tp m) = true) as HP.
  { intros id m Hm. apply (Hty id). unfold fsm_meta. by rewrite Hm. }
  rewrite (IterPendingJobs_restrict (λ m, is_job_master (mm_Tp m))) by done.
  pose proof (IterPendingJobs_redispatched create_jm order fsm b Hwf create_jm_own_id) as Hred.
  pose (I := λ st : JobFsm * DefaultBaseMaster,
    (∀ id m, pendingJobs st.1 !! id = Some m → pendingJobs fsm !! id = Some m) ∧ bm_workerManager st.2 = bm_workerManager b ∧
    ∃ lp, bm_creating st.2 = bm_creating b ++ (jobTask <$> lp) ∧ (∀ m, m ∈ lp → ∃ id, pendingJobs fsm !! id = Some m)).
  assert (triple I (forM_ (IterPendingJobs_body create_jm) order) (λ _ st, I st)) as Ht.
  { apply triple_forM; [|done]. intros k _ [f b0] (Hsub & Hwm & lp & Hcr & Hlp). unfold I; simpl in *.
    destruct (pendingJobs f !! k) as [job|] eqn:Hk; [|by split; [|split; [|exists lp]]].
    apply Hsub in Hk. unfold restrict. rewrite (HP _ _ Hk). rewrite createJobMaster_eq by (by eapply HP). simpl.
    case_bool_decide; simpl; [|by split; [|split; [|exists lp]]]. split; [|split; [done|]].
    - intros id m. rewrite lookup_delete. case_decide; [done|]. apply Hsub.
    - exists (lp ++ [job]). rewrite Hcr, fmap_app, <- app_assoc. split; [done|]. intros m. set_solver. }
  specialize (Ht (fsm, b)). unfold IterPendingJobs in *. destruct (forM_ _ order (fsm, b)) as [r [fsm' b']]. simpl in *.
  split; [done|]. destruct Ht as (_ & ? & ?); [|done]. split_and!; try done. exists []. rewrite app_nil_r. set_solver.
Qed.

(** The last loop, when it completes. *)
Lemma IterWaitAckJobs_creating fsm order ids b fsm' b' :
  (∀ id h, waitAckJobs fsm !! id = Some h → is_job_master (mm_Tp (jh_Meta h)) = true) → NoDup (ids ++ order) →
  IterWaitAckJobs create order (failover_done fsm ids, b) = (Done tt, (fsm', b')) →
  fsm' = failover_done fsm (ids ++ order) ∧ bm_creating b' = bm_creating b ++ failover_tasks fsm order ∧
  bm_workerManager b' = bm_workerManager b.
Proof.
  intros Hty. unfold IterWaitAckJobs, failover_tasks. revert ids b. induction order as [|k order IH]; intros ids b Hnd Hrun.
  { simpl in Hrun. unfold mret, GoM_ret in Hrun. simplify_eq. by rewrite !app_nil_r. }
  assert (k ∉ ids) as Hk by (rewrite NoDup_app in Hnd; set_solver).
  assert (NoDup ((ids ++ [k]) ++ order)) as Hnd' by (by rewrite <- app_assoc).
  change (k :: order) with ([k] ++ order). rewrite failover_todo_app, (app_assoc ids), fmap_app.
  rewrite failover_todo_one.
  simpl in Hrun. apply bind_inv_Done in Hrun as ([] & [f1 b1] & Hb & Hrun).
  unfold IterWaitAckJobs_body in Hb. rewrite failover_done_waitack in Hb.
  destruct (waitAckJobs fsm !! k) as [h|] eqn:Hw; simpl in Hb.
  2:{ simplify_eq. rewrite <- (failover_done_skip fsm ids k) in Hrun by naive_solver. simpl. by apply IH. }
  rewrite decide_False in Hb by done. destruct (jh_addFromFailover h) eqn:Hf; simpl in Hb.
  2:{ simplify_eq. rewrite <- (failover_done_skip fsm ids k) in Hrun by naive_solver. simpl. by apply IH. }
  rewrite createJobMaster_eq in Hb by eauto. cbn zeta in Hb. destruct (bool_decide (quota_used _ < _)); [|done].
  simplify_eq. pose proof (failover_done_snoc fsm ids k h Hw) as Hsnoc. simpl in Hsnoc. rewrite Hsnoc in Hrun. apply IH in Hrun as (-> & Hc & Hm); [|done].
  simpl in Hc, Hm. rewrite Hc. split_and!; [done|by rewrite <- app_assoc|done].
Qed.

(** ** The loop over the workers *)

Lemma slot_same_refl id s : slot_same id s s.
Proof. by split_and!. Qed.

Lemma CleanTombstone_entries deleted id m m' :
  CleanTombstone (Remove deleted) id m = (Done tt, m') → workerEntries m' = delete id (workerEntries m).
Proof.
  destruct deleted as [n|e|]; simpl; [|done..]. unfold removeTombstoneEntry.
  destruct (workerEntries m !! id) as [p|] eqn:Hid; [|intros [= <-]; by rewrite delete_id].
  destruct (wm_heap m !! p); [|done]. case_match; [|done]. by intros [= <-].
Qed.

Lemma tick_worker_ticked env workers id s s' :
  (∀ k h, workers !! k = Some h → handle_ID h = k) →
  tick_worker env workers id s = (Done tt, s') → ticked workers [id] s s'.
Proof.
  intros Hid. unfold tick_worker. destruct (workers !! id) as [h|] eqn:Hh.
  2:{ intros [= <-]. split_and!; try done. intros k. case_decide as Hk; [|by apply slot_same_refl].
      apply list_elem_of_singleton in Hk as ->. rewrite Hh. apply slot_same_refl. }
  apply Hid in Hh as Hhid. destruct h as [w ex|w]; simpl in Hhid; subst w; simpl.
  - unfold on_fsm, on_impl, JobOnline; simpl.
    destruct (waitAckJobs (jm_fsm (ms_impl s)) !! id) as [job|] eqn:Hw; simpl.
    + intros [= <-]. split_and!; try done. intros k. case_decide as Hk; simpl.
      * apply list_elem_of_singleton in Hk as ->. rewrite Hh. simpl. by rewrite lookup_delete_eq, lookup_insert_eq, Hw.
      * assert (id ≠ k) by set_solver. unfold slot_same. simpl. by rewrite lookup_delete_ne, lookup_insert_ne.
    + intros [= <-]. split_and!; try done.
      intros k. case_decide as Hk; simpl; [|by split_and!].
      apply list_elem_of_singleton in Hk as ->. rewrite Hh. simpl. by rewrite Hw.
  - unfold on_base, on_wm. destruct (bm_workerManager (ms_base s)) as [m|] eqn:Hm; [|done].
    destruct (CleanTombstone _ id m) as [[[]|e|] m'] eqn:Hct; [|done..]. intros [= <-].
    apply CleanTombstone_entries in Hct. split_and!; try done. intros k.
    unfold slot_same, entry_of; simpl. rewrite Hm. case_decide as Hk.
    + apply list_elem_of_singleton in Hk as ->. rewrite Hh. unfold slot_ticked, entry_of; simpl. by rewrite Hct, lookup_delete_eq.
    + rewrite Hct. rewrite lookup_delete_ne by set_solver. done.
Qed.

Lemma ticked_cons workers k l s s1 s' :
  k ∉ l → ticked workers [k] s s1 → ticked workers l s1 s' → ticked workers (k :: l) s s'.
Proof.
  intros Hk (H1 & H2 & H3 & H4 & H5 & Ha) (J1 & J2 & J3 & J4 & J5 & Hb).
  split_and!; [congruence..|]. intros id. specialize (Ha id). specialize (Hb id).
  destruct (decide (id = k)) as [->|Hne].
  - rewrite decide_True in Ha by set_solver. rewrite decide_True by set_solver. rewrite decide_False in Hb by done. destruct Hb as (B1 & B2 & B3).
    unfold slot_ticked, slot_same in *. destruct (workers !! k) as [[]|]; rewrite B1, B2, B3; done.
  - rewrite decide_False in Ha by set_solver. destruct Ha as (A1 & A2 & A3).
    unfold slot_ticked, slot_same in *. destruct (decide (id ∈ l)).
    + rewrite decide_True by set_solver. rewrite <- A1, <- A2, <- A3. done.
    + rewrite decide_False by set_solver. rewrite <- A1, <- A2, <- A3. done.
Qed.

Lemma tick_workers_ticked env workers order s s' :
  (∀ k h, workers !! k = Some h → handle_ID h = k) → NoDup order →
  forM_ (tick_worker env workers) order s = (Done tt, s') → ticked workers order s s'.
Proof.
  intros Hid. revert s. induction order as [|k order IH]; intros s Hnd Hrun.
  { injection Hrun as <-. split_and!; try done. }
  apply NoDup_cons in Hnd as [Hk Hnd]. simpl in Hrun. apply bind_inv_Done in Hrun as ([] & s1 & Hs1 & Hrun).
  eapply ticked_cons; [done|by eapply tick_worker_ticked|by apply IH].
Qed.

(** ** The whole tick *)

Lemma filterQuotaError_Done (f : Go (JmSt DB) unit) s b s' :
  filterQuotaError f s = (Done b, s') → ∃ r, f s = (r, s') ∧ r ≠ Panic ∧ (b = false → r = Done tt).
Proof.
  unfold filterQuotaError. destruct (f s) as [[[]|e|] s1]; [naive_solver| |done].
  case_match; [|done]. intros [= <- <-]. by eexists.
Qed.

Lemma elem_of_failover_todo fsm ids job :
  job ∈ failover_todo fsm ids ↔
  ∃ id h, id ∈ ids ∧ waitAckJobs fsm !! id = Some h ∧ jh_addFromFailover h = true ∧ jh_Meta h = job.
Proof.
  unfold failover_todo. rewrite list_elem_of_omap. split.
  - intros (id & Hin & Hm). destruct (waitAckJobs fsm !! id) as [h|] eqn:Hw; [|done].
    destruct (jh_addFromFailover h) eqn:Hf; [|done]. naive_solver.
  - intros (id & h & Hin & Hw & Hf & <-). exists id. split; [done|]. by rewrite Hw, Hf.
Qed.

Lemma failover_todo_NoDup fsm ids :
  (∀ id h, waitAckJobs fsm !! id = Some h → mm_ID (jh_Meta h) = id) → NoDup ids →
  NoDup (mm_ID <$> failover_todo fsm ids).
Proof.
  intros Hid. induction ids as [|k ids IH]; intros Hnd; [constructor|].
  apply NoDup_cons in Hnd as [Hk Hnd]. change (k :: ids) with ([k] ++ ids).
  rewrite failover_todo_app, failover_todo_one, fmap_app.
  destruct (waitAckJobs fsm !! k) as [h|] eqn:Hw; [|by apply IH]. destruct (jh_addFromFailover h); [|by apply IH].
  simpl. apply NoDup_cons. split; [|by apply IH]. intros (job & Hj & Hin)%list_elem_of_fmap.
  apply elem_of_failover_todo in Hin as (id & h' & Hin & Hw' & _ & <-).
  apply Hid in Hw, Hw'. congruence.
Qed.

Lemma redispatched_waitack fsm fsm' id h :
  redispatched fsm fsm' → waitAckJobs fsm' !! id = Some h →
  waitAckJobs fsm !! id = Some h ∨ ∃ m, pendingJobs fsm !! id = Some m ∧ h = mkJobHolder None m false.
Proof.
  intros Hr Hw. destruct (Hr id) as [(_ & He & _)|(m & Hp & _ & He & _)]; rewrite He in Hw; [by left|].
  right. exists m. naive_solver.
Qed.

Lemma redispatched_keeps fsm fsm' id h :
  fsm_wf fsm → redispatched fsm fsm' → waitAckJobs fsm !! id = Some h → waitAckJobs fsm' !! id = Some h.
Proof.
  intros Hwf Hr Hw. destruct (Hr id) as [(_ & -> & _)|(m & Hp & _)]; [done|].
  specialize (Hwf id). by rewrite Hp, Hw in Hwf.
Qed.

Lemma ticked_waitack workers order s1 s2 id h :
  iter_order workers order → ticked workers order s1 s2 →
  waitAckJobs (jm_fsm (ms_impl s2)) !! id = Some h ↔
  waitAckJobs (jm_fsm (ms_impl s1)) !! id = Some h ∧ ∀ w ex, workers !! id ≠ Some (runningHandle w ex).
Proof.
  intros Ho (_ & _ & _ & _ & _ & Hslot). specialize (Hslot id). pose proof (iter_order_elem workers order id Ho) as Hin.
  destruct (workers !! id) as [[w ex|w]|] eqn:Hg.
  - rewrite decide_True in Hslot by (apply Hin; eauto). destruct Hslot as (-> & _). split; [done|]. intros [_ Hn]. by destruct (Hn w ex).
  - rewrite decide_True in Hslot by (apply Hin; eauto). destruct Hslot as (-> & _). naive_solver.
  - rewrite decide_False in Hslot by (rewrite Hin; intros [? ?]; done). destruct Hslot as (-> & _). naive_solver.
Qed.

(** The three phases of a tick that finishes the failover. *)
Lemma JobManager_Tick_phases env s s' m :
  bm_workerManager (ms_base s) = Some m → jm_tombstoneCleaned (ms_impl s) = false →
  fsm_wf (jm_fsm (ms_impl s)) → fsm_types (jm_fsm (ms_impl s)) → NoDup (te_workers env) →
  JobManager_Tick toml json uuid env s = (Done tt, s') → jm_tombstoneCleaned (ms_impl s') = true →
  ∃ lp s1 s2 b',
    redispatched (jm_fsm (ms_impl s)) (jm_fsm (ms_impl s1)) ∧
    bm_creating (ms_base s1) = bm_creating (ms_base s) ++ (jobTask <$> lp) ∧
    (∀ job, job ∈ lp → ∃ id, pendingJobs (jm_fsm (ms_impl s)) !! id = Some job) ∧
    ticked (GetWorkers m) (te_workers env) s1 s2 ∧
    IterWaitAckJobs create (te_waitack env (jm_fsm (ms_impl s2))) (jm_fsm (ms_impl s2), ms_base s2) =
      (Done tt, (jm_fsm (ms_impl s'), b')) ∧ ms_base s' = b'.
Proof.
  intros Hm Hcl Hwf Hty Hnd Hrun Hcl'. unfold JobManager_Tick in Hrun.
  apply bind_inv_Done in Hrun as (q1 & s1 & H1 & Hrun). apply filterQuotaError_Done in H1 as (r1 & H1 & _ & _).
  pose proof (IterPendingJobs_creating (te_pending env) (jm_fsm (ms_impl s)) (ms_base s) Hwf Hty) as Hp.
  unfold on_fsm_base in H1. destruct (IterPendingJobs create (te_pending env) _) as [r [fsm1 b1]].
  injection H1 as <- <-. destruct Hp as (Hred & Hwm & lp & Hcr & Hlp).
  apply bind_inv_Done in Hrun as (s0 & s1 & H2 & Hrun). unfold get in H2. injection H2 as <- <-.
  cbn [ms_impl jm_tombstoneCleaned ms_base] in Hrun. rewrite Hcl in Hrun.
  apply bind_inv_Done in Hrun as (ready & s1 & H3 & Hrun). unfold IsMasterReady in H3. cbn [ms_base] in H3. rewrite Hwm, Hm in H3.
  injection H3 as <- <-. destruct (IsInitialized m); cbn [negb] in Hrun; [|injection Hrun as <-; cbn [ms_impl jm_tombstoneCleaned] in Hcl'; congruence].
  apply bind_inv_Done in Hrun as (workers & s1 & H4 & Hrun). unfold Master_GetWorkers in H4. cbn [ms_base] in H4. rewrite Hwm, Hm in H4.
  injection H4 as <- <-.
  apply bind_inv_Done in Hrun as ([] & s2 & H5 & Hrun). apply tick_workers_ticked in H5; [|by apply GetWorkers_ID|done].
  apply bind_inv_Done in Hrun as (s0 & s3 & H6 & Hrun). unfold get in H6. injection H6 as <- <-.
  apply bind_inv_Done in Hrun as (q2 & s3 & H7 & Hrun). apply filterQuotaError_Done in H7 as (r2 & H7 & _ & Hq2).
  unfold on_fsm_base in H7. destruct (IterWaitAckJobs create _ _) as [r3 [fsm3 b3]] eqn:H8. injection H7 as -> <-.
  destruct q2; cbn [negb] in Hrun.
  { injection Hrun as <-. cbn [ms_impl jm_tombstoneCleaned] in Hcl'. destruct H5 as (_ & H5 & _). cbn in H5. congruence. }
  rewrite (Hq2 eq_refl) in H8. unfold on_impl, modify in Hrun. injection Hrun as <-.
  eexists lp, _, s2, b3. by split_and!; try done.
Qed.

(** C7: the tick that completes a failover settles every wait-ack job: a job whose
    worker is still running is online under that worker, and any other job stays
    wait-ack with its mark removed, the tombstone of its worker gone from the
    manager. The creations it starts are those of pending jobs, and one for each
    recovered job without a running worker. *)
Theorem failover_tick_settles_every_job env s s' m :
  fsm_wf (jm_fsm (ms_impl s)) → fsm_types (jm_fsm (ms_impl s)) →
  bm_workerManager (ms_base s) = Some m → jm_tombstoneCleaned (ms_impl s) = false →
  iter_order (GetWorkers m) (te_workers env) → (∀ f, iter_order (waitAckJobs f) (te_waitack env f)) →
  JobManager_Tick toml json uuid env s = (Done tt, s') → jm_tombstoneCleaned (ms_impl s') = true →
  (∀ id h, waitAckJobs (jm_fsm (ms_impl s)) !! id = Some h →
     match GetWorkers m !! id with
     | Some (runningHandle w ex) =>
         onlineJobs (jm_fsm (ms_impl s')) !! id = Some (mkJobHolder (Some (runningHandle w ex)) (jh_Meta h) false)
     | worker =>
         waitAckJobs (jm_fsm (ms_impl s')) !! id = Some (mkJobHolder (jh_WorkerHandle h) (jh_Meta h) false) ∧
         (worker = None ∨ entry_of s' id = None)
     end) ∧
  ∃ lp lf, bm_creating (ms_base s') = bm_creating (ms_base s) ++ (jobTask <$> lp ++ lf) ∧
    (∀ job, job ∈ lp → ∃ id, pendingJobs (jm_fsm (ms_impl s)) !! id = Some job) ∧
    NoDup (mm_ID <$> lf) ∧
    ∀ job, job ∈ lf ↔ ∃ id h, waitAckJobs (jm_fsm (ms_impl s)) !! id = Some h ∧ jh_addFromFailover h = true ∧
      jh_Meta h = job ∧ ∀ w ex, GetWorkers m !! id ≠ Some (runningHandle w ex).
Proof.
  intros Hwf Hty Hm Hcl How Hoa Hrun Hcl'.
  assert (∀ id, id ∈ te_workers env ↔ is_Some (GetWorkers m !! id)) as Hin by (intros; by apply iter_order_elem).
  edestruct (JobManager_Tick_phases env s s' m) as (lp & s1 & s2 & b' & Hred & Hcr & Hlp & Htk & Hwa & Hb);
    [done|done|done|done|by eapply iter_order_NoDup|done|done|].
  destruct (redispatched_step _ _ Hwf Hred) as [Hwf1 _].
  pose proof (λ id h, ticked_waitack _ _ _ _ id h How Htk) as Hw2.
  destruct Htk as (_ & _ & Hcr2 & _ & _ & Hslot).
  assert (∀ id h, waitAckJobs (jm_fsm (ms_impl s1)) !! id = Some h → mm_ID (jh_Meta h) = id) as Hid1.
  { intros id h Hh. specialize (Hwf1 id). rewrite Hh in Hwf1. unfold slot_wf in Hwf1. by repeat case_match. }
  rewrite <- (failover_done_nil (jm_fsm (ms_impl s2))) in Hwa at 2.
  apply IterWaitAckJobs_creating in Hwa as (Hf' & Hcr' & Hwm').
  2:{ intros id h [Hh _]%Hw2. apply (Hty id). unfold fsm_meta.
      apply (redispatched_waitack _ _ _ _ Hred) in Hh as [Hh|(m0 & Hp & ->)]; [|by rewrite Hp].
      rewrite Hh. specialize (Hwf id). rewrite Hh in Hwf. by destruct (pendingJobs _ !! id). }
  2:{ eapply iter_order_NoDup, Hoa. }
  simpl in Hf'. set (order := te_waitack env (jm_fsm (ms_impl s2))) in *. split.
  - intros id h Hh. apply (redispatched_keeps _ _ _ _ Hwf Hred) in Hh. specialize (Hslot id). specialize (Hin id).
    rewrite Hf'. destruct (GetWorkers m !! id) as [[w ex|w]|] eqn:Hg.
    + rewrite decide_True in Hslot by naive_solver. destruct Hslot as (_ & Ho & _). simpl. by rewrite Ho, Hh.
    + assert (waitAckJobs (jm_fsm (ms_impl s2)) !! id = Some h) as Hh2 by (apply Hw2; naive_solver).
      rewrite failover_done_waitack, Hh2. cbn [fmap option_fmap option_map].
      rewrite decide_True by (apply (iter_order_elem _ _ id (Hoa _)); eauto).
      split; [done|]. right. unfold entry_of. rewrite Hb, Hwm'. rewrite decide_True in Hslot by naive_solver. apply Hslot.
    + assert (waitAckJobs (jm_fsm (ms_impl s2)) !! id = Some h) as Hh2 by (apply Hw2; naive_solver).
      rewrite failover_done_waitack, Hh2. cbn [fmap option_fmap option_map].
      rewrite decide_True by (apply (iter_order_elem _ _ id (Hoa _)); eauto).
      split; [done|by left].
  - exists lp, (failover_todo (jm_fsm (ms_impl s2)) order). split_and!; [|done| |].
    + rewrite Hb, Hcr', Hcr2, Hcr, fmap_app. by rewrite app_assoc.
    + apply failover_todo_NoDup; [|eapply iter_order_NoDup, Hoa]. intros id h [Hh _]%Hw2. by apply Hid1.
    + intros job. rewrite elem_of_failover_todo. split.
      * intros (id & h & _ & [Hh Hnr]%Hw2 & Hfl & Hj). exists id, h. split_and!; try done.
        apply (redispatched_waitack _ _ _ _ Hred) in Hh as [Hh|(m0 & _ & ->)]; done.
      * intros (id & h & Hh & Hfl & Hj & Hnr). apply (redispatched_keeps _ _ _ _ Hwf Hred) in Hh.
        assert (waitAckJobs (jm_fsm (ms_impl s2)) !! id = Some h) as Hh2 by (by apply Hw2).
        exists id, h. split_and!; try done. apply (iter_order_elem _ _ id (Hoa _)). eauto.
Qed.

(** With the creation quota used up and a job pending, a tick ends in an error:
    the error of the quota wraps that of its context, whose root cause the filter
    compares, so it is never recognised and never retried later. *)
Theorem full_quota_stops_the_tick env s :
  fsm_types (jm_fsm (ms_impl s)) → quota_total (bm_createWorkerQuota (ms_base s)) ≤ quota_used (bm_createWorkerQuota (ms_base s)) →
  iter_order (pendingJobs (jm_fsm (ms_impl s))) (te_pending env) → pendingJobs (jm_fsm (ms_impl s)) ≠ ∅ →
  (JobManager_Tick toml json uuid env s).1 =
    Fail (GoWrap ErrMasterConcurrencyExceeded (ErrForeign "context deadline exceeded")).
Proof.
  intros Hty Hq Ho Hne. destruct (te_pending env) as [|k order] eqn:Hte.
  { exfalso. apply Hne. apply map_eq. intros id. rewrite lookup_empty.
    destruct (pendingJobs _ !! id) eqn:Hid; [|done]. assert (id ∈ []) by (apply (iter_order_elem _ _ id Ho); eauto). set_solver. }
  destruct (proj1 (iter_order_elem _ _ k Ho)) as [job Hjob]; [set_solver|].
  assert (is_job_master (mm_Tp job) = true) as Htp by (apply (Hty k); unfold fsm_meta; by rewrite Hjob).
  unfold JobManager_Tick, mbind at 1, GoM_bind at 1, filterQuotaError, on_fsm_base, IterPendingJobs. rewrite Hte.
  cbn [forM_]. unfold mbind at 1, GoM_bind at 1. unfold IterPendingJobs_body at 1. rewrite Hjob, createJobMaster_eq by done.
  cbn zeta. by rewrite bool_decide_eq_false_2 by lia.
Qed.

End tick.

(** ** Refinement of the job state machine *)

(** No job appears and none changes its metadata. *)
Definition metas_kept (fsm fsm' : JobFsm) : Prop := ∀ id m, fsm_meta fsm' id = Some m → fsm_meta fsm id = Some m.

Definition fsm_ok (fsm : JobFsm) : Prop := fsm_wf fsm ∧ fsm_types fsm.

Lemma metas_kept_types fsm fsm' : metas_kept fsm fsm' → fsm_types fsm → fsm_types fsm'.
Proof. intros Hk Hty id m Hm. by eapply Hty, Hk. Qed.

Ltac meta_cases k :=
  let i := fresh "i" in
  unfold metas_kept, fsm_meta; simpl; intros i m;
  destruct (decide (k = i)) as [<-|?];
  [rewrite ?lookup_insert_eq, ?lookup_delete_eq|rewrite ?lookup_insert_ne, ?lookup_delete_ne by done; done].

Lemma JobOnline_metas h fsm : fsm_wf fsm → metas_kept fsm (JobOnline h fsm).2.
Proof.
  intros Hwf. unfold JobOnline. destruct (waitAckJobs fsm !! handle_ID h) as [job|] eqn:Hw; [|by intros id m].
  specialize (Hwf (handle_ID h)). rewrite Hw in Hwf. meta_cases (handle_ID h). rewrite Hw. simpl.
  by destruct (pendingJobs fsm !! handle_ID h).
Qed.

Lemma JobDispatchFailed_metas h fsm : fsm_wf fsm → metas_kept fsm (JobDispatchFailed h fsm).2.
Proof.
  intros Hwf. unfold JobDispatchFailed. destruct (waitAckJobs fsm !! handle_ID h) as [job|] eqn:Hw; [|by intros id m].
  specialize (Hwf (handle_ID h)). rewrite Hw in Hwf. meta_cases (handle_ID h). rewrite Hw. simpl.
  by destruct (pendingJobs fsm !! handle_ID h).
Qed.

Lemma JobOffline_metas h b fsm : fsm_wf fsm → metas_kept fsm (JobOffline h b fsm).
Proof.
  intros Hwf. specialize (Hwf (handle_ID h)). unfold JobOffline.
  destruct (onlineJobs fsm !! handle_ID h) as [job|] eqn:Ho.
  - destruct (pendingJobs fsm !! handle_ID h) eqn:Hp; [by destruct (waitAckJobs fsm !! handle_ID h)|].
    destruct (waitAckJobs fsm !! handle_ID h) eqn:Hw; [done|].
    destruct b; meta_cases (handle_ID h); rewrite ?Hp, ?Hw, ?Ho; done.
  - destruct (waitAckJobs fsm !! handle_ID h) as [job|] eqn:Hw; [|by intros id m].
    destruct (pendingJobs fsm !! handle_ID h) eqn:Hp; [done|].
    destruct b; meta_cases (handle_ID h); rewrite ?Hp, ?Hw, ?Ho; done.
Qed.

Lemma redispatched_metas fsm fsm' : redispatched fsm fsm' → metas_kept fsm fsm'.
Proof.
  intros Hr id m. unfold fsm_meta. destruct (Hr id) as [(-> & -> & ->)|(m0 & -> & -> & -> & _)]; done.
Qed.

Lemma IterWaitAckJobs_metas {W} (fn : dispatchJobFn W) order fsm w :
  metas_kept fsm (IterWaitAckJobs fn order (fsm, w)).2.1.
Proof.
  destruct (IterWaitAckJobs_slots fn order fsm w) as (Hp & Ho & Hw). simpl in *. intros id m. unfold fsm_meta.
  rewrite Hp, Ho. destruct (Hw id) as [->|(h & -> & _ & ->)]; done.
Qed.

Lemma JobDispatched_ok job b fsm :
  fsm_ok fsm → fsm_state fsm (mm_ID job) = Absent → is_job_master (mm_Tp job) = true → fsm_ok (JobDispatched job b fsm).
Proof.
  intros [Hwf Hty] Habs Htp. split; [by apply JobDispatched_step|]. intros id m. unfold fsm_meta, JobDispatched; simpl.
  destruct (decide (mm_ID job = id)) as [<-|Hne]; [|rewrite lookup_insert_ne by done; apply Hty].
  rewrite lookup_insert_eq. unfold fsm_state in Habs. destruct (pendingJobs fsm !! mm_ID job); [done|]. naive_solver.
Qed.

Section refinement.
Context {DB : Type} `{!Gorm DB}.
Context (decodes : string → bool) (toml json : WorkerConfig Empty_set → res goerr string) (uuid : MasterMeta → WorkerID).
Implicit Types s : JmSt DB.

Definition fsm_of s : JobFsm := jm_fsm (ms_impl s).

(** A call that acts on the state machine only through its steps. *)
Definition refining {A} (f : Go (JmSt DB) A) : Prop :=
  ∀ s, fsm_ok (fsm_of s) → fsm_ok (fsm_of (f s).2) ∧ rtc fsm_step (fsm_of s) (fsm_of (f s).2).

Lemma refining_same {A} (f : Go (JmSt DB) A) : (∀ s, fsm_of (f s).2 = fsm_of s) → refining f.
Proof. intros H s Hok. rewrite H. split; [done|apply rtc_refl]. Qed.

Lemma refining_bind {A B} (f : Go (JmSt DB) A) (g : A → Go (JmSt DB) B) :
  refining f → (∀ a, refining (g a)) → refining (f ≫= g).
Proof.
  intros Hf Hg s Hok. unfold mbind, GoM_bind. destruct (Hf s Hok) as [Hok1 Hr1]. destruct (f s) as [[a|e|] s1]; simpl in *; [|done..].
  destruct (Hg a s1 Hok1) as [Hok2 Hr2]. split; [done|]. by etrans.
Qed.

Lemma refining_forM {A} (f : A → Go (JmSt DB) unit) l : (∀ x, refining (f x)) → refining (forM_ f l).
Proof. intros Hf. induction l as [|x l IH]; simpl; [by apply refining_same|]. by apply refining_bind. Qed.

Lemma refining_filter f : refining f → refining (filterQuotaError f).
Proof.
  intros Hf s Hok. destruct (Hf s Hok) as [Hok1 Hr1]. unfold filterQuotaError.
  destruct (f s) as [[[]|e|] s1]; simpl in *; [done| |done]. by case_match.
Qed.

Lemma fsm_of_on_base {A} (f : Go DefaultBaseMaster A) s : fsm_of (on_base f s).2 = fsm_of s.
Proof. unfold on_base. by destruct (f (ms_base s)). Qed.
Lemma fsm_of_on_db {A} (f : Go DB A) s : fsm_of (on_db f s).2 = fsm_of s.
Proof. unfold on_db. by destruct (f (ms_db s)). Qed.

(** A step of the state machine that keeps the metadata. *)
Lemma refining_on_fsm {A} (f : Go JobFsm A) :
  (∀ fsm, fsm_wf fsm → fsm_step fsm (f fsm).2 ∧ metas_kept fsm (f fsm).2) → refining (on_fsm f).
Proof.
  intros Hf s [Hwf Hty]. destruct (Hf _ Hwf) as [Hst Hk]. unfold on_fsm, on_impl, fsm_of in *.
  destruct (f (jm_fsm (ms_impl s))) as [r fsm']. simpl in *. split; [split|by apply rtc_once].
  - by eapply fsm_step_follows. - by eapply metas_kept_types.
Qed.

Lemma refining_iter_pending order : refining (on_fsm_base (IterPendingJobs (createJobMaster toml json uuid) order)).
Proof.
  intros s [Hwf Hty]. unfold on_fsm_base, fsm_of in *.
  assert (∀ id m, pendingJobs (jm_fsm (ms_impl s)) !! id = Some m → is_job_master (mm_Tp m) = true) as HP.
  { intros id m Hm. apply (Hty id). unfold fsm_meta. by rewrite Hm. }
  rewrite (IterPendingJobs_restrict (λ m, is_job_master (mm_Tp m))) by done.
  pose proof (create_jm_own_id toml json uuid) as Hown.
  pose proof (st_iter_pending _ _ order (jm_fsm (ms_impl s)) (ms_base s) Hown) as Hst.
  pose proof (IterPendingJobs_redispatched _ order (jm_fsm (ms_impl s)) (ms_base s) Hwf Hown) as Hred.
  destruct (IterPendingJobs _ order _) as [r [fsm' b']]. simpl in *.
  split; [split|by apply rtc_once]; [by eapply redispatched_step|]. by eapply metas_kept_types, Hty; apply redispatched_metas.
Qed.

Lemma refining_iter_waitack order : refining (on_fsm_base (IterWaitAckJobs (createJobMaster toml json uuid) order)).
Proof.
  intros s [Hwf Hty]. unfold on_fsm_base, fsm_of in *.
  pose proof (st_iter_waitack _ (createJobMaster toml json uuid) order (jm_fsm (ms_impl s)) (ms_base s)) as Hst.
  pose proof (IterWaitAckJobs_metas (createJobMaster toml json uuid) order (jm_fsm (ms_impl s)) (ms_base s)) as Hk.
  destruct (IterWaitAckJobs _ order _) as [r [fsm' b']]. simpl in *.
  split; [split|by apply rtc_once]; [by eapply fsm_step_follows|]. by eapply metas_kept_types.
Qed.

Lemma refining_online h : refining (on_fsm (DB := DB) (JobOnline h)).
Proof. apply refining_on_fsm. intros fsm Hwf. split; [constructor|by apply JobOnline_metas]. Qed.

Lemma refining_tick_worker env workers id : refining (tick_worker (DB := DB) env workers id).
Proof.
  unfold tick_worker. destruct (workers !! id) as [h|]; [|by apply refining_same].
  destruct (GetTombstone h); [apply refining_same; intros; apply fsm_of_on_base|].
  intros s Hok. destruct (refining_online h s Hok) as [Hok1 Hr1].
  destruct (on_fsm (JobOnline h) s) as [[[]|e|] s1]; [done| |done]. by destruct (err_Equal _ _).
Qed.

Lemma refining_tick env : refining (JobManager_Tick toml json uuid env).
Proof.
  unfold JobManager_Tick. apply refining_bind; [apply refining_filter, refining_iter_pending|]. intros _.
  apply refining_bind; [by apply refining_same|]. intros s0. case_match; [by apply refining_same|].
  apply refining_bind; [by apply refining_same|]. intros ready. destruct ready; simpl; [|by apply refining_same].
  apply refining_bind; [by apply refining_same|]. intros workers.
  apply refining_bind; [apply refining_forM; intros; apply refining_tick_worker|]. intros _.
  apply refining_bind; [by apply refining_same|]. intros s1.
  apply refining_bind; [apply refining_filter, refining_iter_waitack|]. intros q. destruct q; simpl; by apply refining_same.
Qed.

Lemma refining_offline deleted h reason : refining (JobManager_OnWorkerOffline (DB := DB) deleted h reason).
Proof.
  unfold JobManager_OnWorkerOffline. destruct (GetTombstone h); [|by apply refining_same].
  apply refining_bind; [apply refining_same; intros; apply fsm_of_on_base|]. intros _.
  apply refining_on_fsm. intros fsm Hwf. split; [apply (st_offline h)|by apply JobOffline_metas].
Qed.

Lemma refining_dispatched h r : refining (JobManager_OnWorkerDispatched (DB := DB) h r).
Proof.
  unfold JobManager_OnWorkerDispatched. destruct r; [|by apply refining_same].
  apply refining_on_fsm. intros fsm Hwf. split; [constructor|by apply JobDispatchFailed_metas].
Qed.

Lemma submit_refines id req s :
  fsm_ok (fsm_of s) → fsm_state (fsm_of s) id = Absent →
  let s' := (SubmitJob decodes toml json uuid id req s).2 in
  fsm_ok (fsm_of s') ∧ rtc fsm_step (fsm_of s) (fsm_of s').
Proof.
  intros Hok Habs. unfold SubmitJob.
  destruct (jobMasterType decodes req) as [tp|e|] eqn:Htp; [|by split; [|apply rtc_refl]..].
  assert (is_job_master tp = true) as Hjm.
  { unfold jobMasterType in Htp. repeat case_match; simplify_eq; by apply bool_decide_eq_true_2; set_solver. }
  pose proof (fsm_of_on_db (StoreMasterMeta (submitMeta req id tp)) s) as H1.
  destruct (on_db _ s) as [[[]|e|] s1]; simpl in *; rewrite <- H1 in *; [|by split; [|apply rtc_refl]..].
  pose proof (fsm_of_on_base (createJobMaster toml json uuid (submitMeta req id tp)) s1) as H2.
  destruct (on_base _ s1) as [[w|e|] s2]; simpl in *; rewrite <- H2 in *; [| |by split; [|apply rtc_refl]].
  - split; [by apply JobDispatched_ok|]. apply rtc_once. by apply (st_dispatched (submitMeta req id tp)).
  - pose proof (fsm_of_on_db (DeleteMasterMeta id) s2) as H3.
    destruct (on_db (DeleteMasterMeta id) s2) as [[[]|?|] s3]; simpl in *; rewrite <- H3 in *; by split; [|apply rtc_refl].
Qed.

(** What happens to a job manager after its start: requests, with fresh job ids,
    ticks, events of its workers, and anything else that leaves the state machine
    alone (the goroutines that create workers, heartbeats, the metastore). *)
Inductive jm_step : JmSt DB → JmSt DB → Prop :=
| jm_submit id req s :
    fsm_state (fsm_of s) id = Absent → jm_step s (SubmitJob decodes toml json uuid id req s).2
| jm_cancel id s : jm_step s (CancelJob id s).2
| jm_query id s : jm_step s (JobManager_QueryJob id s).2
| jm_tick env s : jm_step s (JobManager_Tick toml json uuid env s).2
| jm_dispatched h r s : jm_step s (JobManager_OnWorkerDispatched h r s).2
| jm_online h s : jm_step s (JobManager_OnWorkerOnline h s).2
| jm_offline deleted h reason s : jm_step s (JobManager_OnWorkerOffline deleted h reason s).2
| jm_other s b db : jm_step s (mkMasterSt b db (ms_impl s)).

Lemma jm_step_refines s s' :
  jm_step s s' → fsm_ok (fsm_of s) → fsm_ok (fsm_of s') ∧ rtc fsm_step (fsm_of s) (fsm_of s').
Proof.
  intros Hst Hok. destruct Hst.
  - by apply submit_refines.
  - revert Hok. generalize s. change (refining (CancelJob id)). apply refining_same. clear. intros s. unfold CancelJob.
    pose proof (fsm_of_on_db (GetJobByID id) s) as H. destruct (on_db _ s) as [[job|e|] s1]; simpl in *; [|by case_match|done].
    case_match; [done|]. rewrite <- H. pose proof (fsm_of_on_db (DeleteJob id) s1) as H'. by destruct (on_db _ s1) as [[?|?|] s2].
  - revert Hok. generalize s. change (refining (JobManager_QueryJob id)). apply refining_same. clear. intros s. unfold JobManager_QueryJob.
    pose proof (fsm_of_on_db (Load id) s) as H. repeat case_match; simplify_eq/=; done.
  - by apply refining_tick.
  - by apply refining_dispatched.
  - by apply refining_online.
  - by apply refining_offline.
  - by split; [|apply rtc_refl].
Qed.

End refinement.

(** ** Recovery *)

Lemma recoverJob_eq job fsm :
  recoverJob job fsm = if to_recover job then JobDispatched job true fsm else fsm.
Proof. unfold recoverJob, to_recover. repeat case_bool_decide; done. Qed.

Lemma recover_fold_other l fsm id :
  (∀ m, m ∈ l → mm_ID m = id → to_recover m = false) →
  waitAckJobs (foldl (λ acc job, recoverJob job acc) fsm l) !! id = waitAckJobs fsm !! id.
Proof.
  revert fsm. induction l as [|m l IH]; intros fsm Hl; [done|]. simpl. rewrite IH by set_solver.
  rewrite recoverJob_eq. destruct (to_recover m) eqn:Hr; [|done]. simpl. apply lookup_insert_ne. intros Hid.
  rewrite Hl in Hr; [done|set_solver|done].
Qed.

Lemma recover_fold_in l fsm m :
  NoDup (mm_ID <$> l) → m ∈ l → to_recover m = true →
  waitAckJobs (foldl (λ acc job, recoverJob job acc) fsm l) !! mm_ID m = Some (mkJobHolder None m true).
Proof.
  revert fsm. induction l as [|m' l IH]; intros fsm Hnd Hin Hr; [set_solver|].
  rewrite fmap_cons in Hnd. apply NoDup_cons in Hnd as [Hm' Hnd]. simpl. apply elem_of_cons in Hin as [<-|Hin]; [|by apply IH].
  rewrite recover_fold_other.
  - rewrite recoverJob_eq, Hr. simpl. by rewrite lookup_insert_eq.
  - intros m2 Hin Hid. exfalso. apply Hm'. rewrite <- Hid. by apply list_elem_of_fmap_2.
Qed.

Lemma recover_fold_maps l fsm :
  pendingJobs (foldl (λ acc job, recoverJob job acc) fsm l) = pendingJobs fsm ∧
  onlineJobs (foldl (λ acc job, recoverJob job acc) fsm l) = onlineJobs fsm.
Proof.
  revert fsm. induction l as [|m l IH]; intros fsm; [done|]. simpl. destruct (IH (recoverJob m fsm)) as [-> ->].
  rewrite recoverJob_eq. by destruct (to_recover m).
Qed.

Lemma recover_fold_steps l fsm :
  fsm_ok fsm → NoDup (mm_ID <$> l) → (∀ m, m ∈ l → fsm_state fsm (mm_ID m) = Absent) →
  (∀ m, m ∈ l → to_recover m = true → is_job_master (mm_Tp m) = true) →
  let fsm' := foldl (λ acc job, recoverJob job acc) fsm l in fsm_ok fsm' ∧ rtc fsm_step fsm fsm'.
Proof.
  revert fsm. induction l as [|m l IH]; intros fsm Hok Hnd Habs Hty; [by split; [|apply rtc_refl]|]. simpl.
  rewrite fmap_cons in Hnd. apply NoDup_cons in Hnd as [Hm Hnd]. rewrite recoverJob_eq.
  destruct (to_recover m) eqn:Hr; [|apply IH; set_solver].
  assert (fsm_state fsm (mm_ID m) = Absent) as Ha by (apply Habs; set_solver).
  destruct (IH (JobDispatched m true fsm)) as [Hok' Hr'].
  - apply JobDispatched_ok; [done..|]. apply Hty; [set_solver|done].
  - done.
  - intros m2 Hin. assert (mm_ID m ≠ mm_ID m2) as Hne by (intros He; apply Hm; rewrite He; by apply list_elem_of_fmap_2).
    specialize (Habs m2). unfold fsm_state in *; simpl. rewrite lookup_insert_ne by done. apply Habs. set_solver.
  - set_solver.
  - split; [done|]. eapply rtc_l; [by apply st_dispatched|done].
Qed.

Lemma live_metas_NoDup rows : rows_keyed rows → NoDup (mm_ID <$> live_metas rows).
Proof.
  intros Hk. unfold live_metas.
  assert (∀ l, (∀ kv, kv ∈ l → mm_ID (jr_meta kv.2) = kv.1) → NoDup l.*1 →
    NoDup (mm_ID <$> omap (λ kv : MasterID * jobRow, if jr_deleted kv.2 then None else Some (jr_meta kv.2)) l) ∧
    ∀ x, x ∈ mm_ID <$> omap (λ kv : MasterID * jobRow, if jr_deleted kv.2 then None else Some (jr_meta kv.2)) l → x ∈ l.*1) as Haux.
  { induction l as [|[id r] l IH]; intros Hl Hnd; [split; [constructor|done]|].
    rewrite fmap_cons in Hnd. apply NoDup_cons in Hnd as [Hid Hnd]. destruct IH as [IHn IHe]; [set_solver|done|].
    pose proof (Hl (id, r) ltac:(set_solver)) as Hkey. simpl in *. destruct (jr_deleted r); simpl.
    - split; [done|]. intros x Hx. apply elem_of_cons. right. by apply IHe.
    - split; [|intros x Hx; apply elem_of_cons in Hx as [->|Hx]; apply elem_of_cons; [by left|right; by apply IHe]].
      apply NoDup_cons. split; [|done]. rewrite Hkey. intros Hin. apply Hid. by apply IHe. }
  apply Haux; [|apply NoDup_fst_map_to_list]. intros [id r] Hin. apply elem_of_map_to_list in Hin. by apply Hk.
Qed.

Section recovery.
Context {DB : Type} `{!Gorm DB, !GormLaws DB}.
Implicit Types s : JmSt DB.

Lemma OnMasterRecovered_Done s s' :
  JobManager_OnMasterRecovered s = (Done tt, s') →
  ∃ l, l ≡ₚ live_metas (jobs (ms_db s)) ∧ fsm_of s' = foldl (λ acc job, recoverJob job acc) (fsm_of s) l.
Proof.
  unfold JobManager_OnMasterRecovered. intros Hrun. apply bind_inv_Done in Hrun as (l & s1 & Hq & Hrun).
  apply on_db_Done in Hq as (db' & Hq & ->). unfold LoadAllMasters in Hq.
  pose proof (QueryJobs_spec (ms_db s)) as Hs. rewrite Hq in Hs. destruct Hs as [Hl _].
  exists l. split; [done|]. unfold on_fsm, on_impl, modify in Hrun. by injection Hrun as <-.
Qed.

(** A new job manager takes over, as wait-ack jobs marked for failover,
    exactly the jobs of the metastore that are neither deleted, finished nor
    stopped, and not its own entry. *)
Theorem recovery_takes_over_unfinished_jobs s s' :
  rows_keyed (jobs (ms_db s)) → fsm_of s = NewJobFsm → JobManager_OnMasterRecovered s = (Done tt, s') →
  pendingJobs (fsm_of s') = ∅ ∧ onlineJobs (fsm_of s') = ∅ ∧
  ∀ id, waitAckJobs (fsm_of s') !! id =
    match live (jobs (ms_db s)) id with
    | Some m => if to_recover m then Some (mkJobHolder None m true) else None
    | None => None
    end.
Proof.
  intros Hk Hnew Hrun. apply OnMasterRecovered_Done in Hrun as (l & Hl & ->). rewrite Hnew.
  destruct (recover_fold_maps l NewJobFsm) as [-> ->]. split_and!; [done..|]. intros id.
  assert (NoDup (mm_ID <$> l)) as Hnd by (rewrite Hl; by apply live_metas_NoDup).
  assert (∀ m, m ∈ l ↔ ∃ k, live (jobs (ms_db s)) k = Some m) as Hin by (intros m; rewrite Hl; apply elem_of_live_metas).
  assert (∀ k m, live (jobs (ms_db s)) k = Some m → mm_ID m = k) as Hkey.
  { intros k m Hm. unfold live in Hm. destruct (jobs (ms_db s) !! k) as [r|] eqn:Hr; [|done].
    destruct (jr_deleted r); simplify_eq. by apply Hk. }
  destruct (live (jobs (ms_db s)) id) as [m|] eqn:Hm; [destruct (to_recover m) eqn:Hr|].
  - rewrite <- (Hkey _ _ Hm) at 1. apply recover_fold_in; [done| |done]. apply Hin. by eauto.
  - apply recover_fold_other. intros m' [k Hm']%Hin Hid. apply Hkey in Hm' as Hk'. naive_solver.
  - apply recover_fold_other. intros m' [k Hm']%Hin Hid. apply Hkey in Hm' as Hk'. naive_solver.
Qed.

(** C2: whatever happens to a job manager after it recovered, its jobs only move
    along the steps of the job state machine: each is in exactly one of the three
    maps, under its own id, and has the type of a job master. *)
Theorem job_manager_refines_job_fsm decodes toml json uuid s0 s1 s2 :
  rows_keyed (jobs (ms_db s0)) →
  (∀ id m, live (jobs (ms_db s0)) id = Some m → to_recover m = true → is_job_master (mm_Tp m) = true) →
  fsm_of s0 = NewJobFsm → JobManager_OnMasterRecovered s0 = (Done tt, s1) →
  rtc (jm_step decodes toml json uuid) s1 s2 →
  fsm_reachable (fsm_of s2) ∧ fsm_wf (fsm_of s2) ∧ fsm_types (fsm_of s2).
Proof.
  intros Hk Hty Hnew Hrec Hsteps. apply OnMasterRecovered_Done in Hrec as (l & Hl & Hf). rewrite Hnew in Hf.
  assert (fsm_ok (fsm_of s1) ∧ rtc fsm_step NewJobFsm (fsm_of s1)) as [Hok Hr].
  { rewrite Hf. apply recover_fold_steps.
    - split; [apply NewJobFsm_wf|]. intros id m. unfold fsm_meta, NewJobFsm; simpl. by rewrite !lookup_empty.
    - rewrite Hl. by apply live_metas_NoDup.
    - intros m _. unfold fsm_state, NewJobFsm; simpl. by rewrite !lookup_empty.
    - intros m Hin. rewrite Hl in Hin. apply elem_of_live_metas in Hin as [id Hm]. by eapply Hty. }
  clear Hf Hl Hnew. induction Hsteps as [s|s s' s'' Hst _ IH]; [by destruct Hok|].
  destruct (jm_step_refines _ _ _ _ _ _ Hst Hok) as [Hok' Hr']. apply IH; [done|]. by etrans.
Qed.

End recovery.

Module Witness.

Definition noenc (c : WorkerConfig Empty_set) : res goerr string := Fail (ErrForeign "unsupported type").
Definition noid (m : MasterMeta) : WorkerID := "u".
Definition base : DefaultBaseMaster := set_wm (NewWorkerManager "jm" 1 true DefaultTimeoutConfig) Master.Witness.base.
Definition s0 : JmSt RefDB := mkMasterSt base Metastore.Witness.db0 (mkJobManager NewJobFsm false).
Definition req : SubmitJobRequest := mkSubmitJobRequest JobType_FakeJob "cfg" "user".
Definition s1 : JmSt RefDB := (SubmitJob (λ _, true) noenc noenc noid "j1" req s0).2.


Lemma cancel_only_stopped_jobs_witness :
  ∃ resp s', CancelJob "j1" s1 = (Done resp, s') ∧ ms_base s' = ms_base s1 ∧ ms_impl s' = ms_impl s1 ∧
    let stopped := ∃ m, live (jobs (ms_db s1)) "j1" = Some m ∧ mm_StatusCode m = MasterStatusStopped in
    match resp with
    | None => stopped ∧ jobs (ms_db s') = rows_deleted "j1" (jobs (ms_db s1))
    | Some code =>
        jobs (ms_db s') = jobs (ms_db s1) ∨
        code = ErrorCode_UnknownError ∧ stopped ∧ jobs (ms_db s') = rows_deleted "j1" (jobs (ms_db s1))
    end.
Proof. apply cancel_only_stopped_jobs. Defined.

(** A restarted job manager that finds the job in the metastore. *)
Definition s2 : JmSt RefDB := mkMasterSt base (ms_db s1) (mkJobManager NewJobFsm false).
Definition s3 : JmSt RefDB := (JobManager_OnMasterRecovered s2).2.
Definition env : TickEnv := mkTickEnv [] [] (λ f, (map_to_list (waitAckJobs f)).*1) (λ _, Done 1%Z).
Definition s4 : JmSt RefDB := (JobManager_Tick noenc noenc noid env s3).2.
Definition meta1 : MasterMeta := submitMeta req "j1" FakeJobMaster.

Lemma s2_keyed : rows_keyed (jobs (ms_db s2)).
Proof.
  intros id r Hr. change (({["j1" := mkJobRow meta1 false]} : gmap MasterID jobRow) !! id = Some r) in Hr.
  by apply lookup_singleton_Some in Hr as [<- <-].
Defined.

Lemma recovery_takes_over_unfinished_jobs_witness :
  pendingJobs (fsm_of s3) = ∅ ∧ onlineJobs (fsm_of s3) = ∅ ∧
  ∀ id, waitAckJobs (fsm_of s3) !! id =
    match live (jobs (ms_db s2)) id with
    | Some m => if to_recover m then Some (mkJobHolder None m true) else None
    | None => None
    end.
Proof. apply recovery_takes_over_unfinished_jobs; [apply s2_keyed|reflexivity|reflexivity]. Defined.

Lemma s2_types id m : live (jobs (ms_db s2)) id = Some m → to_recover m = true → is_job_master (mm_Tp m) = true.
Proof.
  intros Hm _. unfold live in Hm. destruct (jobs (ms_db s2) !! id) as [r|] eqn:Hr; [|done].
  change (({["j1" := mkJobRow meta1 false]} : gmap MasterID jobRow) !! id = Some r) in Hr.
  apply lookup_singleton_Some in Hr as [<- <-]. injection Hm as <-. reflexivity.
Defined.

Lemma job_manager_refines_job_fsm_witness :
  fsm_reachable (fsm_of s4) ∧ fsm_wf (fsm_of s4) ∧ fsm_types (fsm_of s4).
Proof.
  apply (job_manager_refines_job_fsm (λ _, true) noenc noenc noid s2 s3 s4);
    [apply s2_keyed|apply s2_types|reflexivity|reflexivity|].
  eapply rtc_l; [|apply rtc_refl]. apply (jm_tick (λ _, true) noenc noenc noid env s3).
Defined.

Lemma s3_ok : fsm_ok (fsm_of s3).
Proof.
  assert (NoDup (mm_ID <$> [meta1])) as Hnd by (apply NoDup_singleton).
  apply (recover_fold_steps [meta1] NewJobFsm); [|done| |].
  - split; [apply NewJobFsm_wf|]. intros id m. unfold fsm_meta, NewJobFsm; simpl. by rewrite !lookup_empty.
  - intros m _. unfold fsm_state, NewJobFsm; simpl. by rewrite !lookup_empty.
  - intros m ->%list_elem_of_singleton _. reflexivity.
Defined.

Lemma failover_tick_settles_every_job_witness :
  (∀ id h, waitAckJobs (jm_fsm (ms_impl s3)) !! id = Some h →
     match GetWorkers (NewWorkerManager "jm" 1 true DefaultTimeoutConfig) !! id with
     | Some (runningHandle w ex) =>
         onlineJobs (jm_fsm (ms_impl s4)) !! id = Some (mkJobHolder (Some (runningHandle w ex)) (jh_Meta h) false)
     | worker =>
         waitAckJobs (jm_fsm (ms_impl s4)) !! id = Some (mkJobHolder (jh_WorkerHandle h) (jh_Meta h) false) ∧
         (worker = None ∨ entry_of s4 id = None)
     end) ∧
  ∃ lp lf, bm_creating (ms_base s4) = bm_creating (ms_base s3) ++ (jobTask <$> lp ++ lf) ∧
    (∀ job, job ∈ lp → ∃ id, pendingJobs (jm_fsm (ms_impl s3)) !! id = Some job) ∧
    NoDup (mm_ID <$> lf) ∧
    ∀ job, job ∈ lf ↔ ∃ id h, waitAckJobs (jm_fsm (ms_impl s3)) !! id = Some h ∧ jh_addFromFailover h = true ∧
      jh_Meta h = job ∧ ∀ w ex, GetWorkers (NewWorkerManager "jm" 1 true DefaultTimeoutConfig) !! id ≠ Some (runningHandle w ex).
Proof.
  apply (failover_tick_settles_every_job noenc noenc noid env s3 s4);
    [apply s3_ok|apply s3_ok|reflexivity|reflexivity|by apply iter_order_eq|intros; by apply iter_order_keys|reflexivity|reflexivity].
Defined.

(** All units of the quota taken, and a job that waits for its next dispatch. *)
Definition s5 : JmSt RefDB :=
  mkMasterSt (set_creating (mkQuota 100 100) [] base) (ms_db s1)
    (mkJobManager (JobOffline (tombstoneHandle "j1") true (jm_fsm (ms_impl s1))) true).
Definition env5 : TickEnv := mkTickEnv ["j1"] [] (λ _, []) (λ _, Done 1%Z).

Lemma full_quota_stops_the_tick_witness :
  (JobManager_Tick noenc noenc noid env5 s5).1 =
    Fail (GoWrap ErrMasterConcurrencyExceeded (ErrForeign "context deadline exceeded")).
Proof.
  apply full_quota_stops_the_tick.
  - intros id m. change (jm_fsm (ms_impl s5)) with (mkJobFsm {["j1" := meta1]} ∅ ∅). unfold fsm_meta. cbn [pendingJobs waitAckJobs onlineJobs].
    destruct (decide ("j1" = id)) as [<-|Hne].
    + rewrite lookup_singleton_eq. intros [= <-]. reflexivity.
    + rewrite lookup_singleton_ne, !lookup_empty by done. done.
  - vm_compute. lia.
  - by apply iter_order_eq.
  - intros H. apply (f_equal (lookup "j1")) in H. discriminate H.
Defined.

End Witness.
