(* ===== verification/ResourcePath.v ===== *)
(** * Resource paths ([pkg/externalresource/resourcemeta/model])

    A resource id has the form [/<type>/<name>]; [ParseResourcePath] splits it
    and cleans the name with [path.Join]. The functions of the packages [strings]
    and [path] that the code uses are written out on strings and on lists of
    path segments. *)

From S2P Require Import Prelude Errors Model.

(** ** [strings.Split(s, "/")] and [strings.Join(l, "/")] *)

Definition slash : Ascii.ascii := Ascii.ascii_of_nat 47.

Fixpoint Split (s : string) : list string :=
  match s with
  | EmptyString => [""]
  | String c s' =>
      if decide (c = slash) then "" :: Split s'
      else match Split s' with [] => [String c ""] | h :: t => String c h :: t end
  end.

Fixpoint Join (l : list string) : string :=
  match l with
  | [] => ""
  | [x] => x
  | x :: l' => x +:+ String slash (Join l')
  end.

(** ** [path.Clean] on the segments of a relative path

    The segments kept so far are a stack; [".."] takes one back unless there is
    none left but [".."] itself. *)
Definition clean_step (out : list string) (seg : string) : list string :=
  if bool_decide (seg = "") || bool_decide (seg = ".") then out
  else if bool_decide (seg = "..") then
    match out with
    | [] => [".."]
    | top :: out' => if bool_decide (top = "..") then ".." :: out else out'
    end
  else seg :: out.

(** The same on the segments of an absolute path: [".."] at the root stays there. *)
Definition abs_step (out : list string) (seg : string) : list string :=
  if bool_decide (seg = "") || bool_decide (seg = ".") then out
  else if bool_decide (seg = "..") then tail out
  else seg :: out.

Definition Clean (segs : list string) : list string := rev (foldl clean_step [] segs).

(** [path.Join]: empty elements are dropped, and nothing but empty elements gives
    the empty path; a path that cleans to nothing is ["."]. The elements have no
    slash in them. *)
Definition path_Join (segs : list string) : string :=
  match filter (λ s, s ≠ "") segs with
  | [] => ""
  | segs' => match Clean segs' with [] => "." | c => Join c end
  end.

(** ** [ParseResourcePath] *)

Inductive ResourceType : Type := ResourceTypeLocalFile | ResourceTypeS3.

#[global] Instance ResourceType_eq_dec : EqDecision ResourceType.
Proof. solve_decision. Defined.

Definition type_string (t : ResourceType) : string :=
  match t with ResourceTypeLocalFile => "local" | ResourceTypeS3 => "s3" end.

Abbreviation ResourceName := string.

Definition ParseResourcePath (rpath : ResourceID) : res goerr (ResourceType * ResourceName) :=
  match rpath with
  | EmptyString => Fail (GoErr ErrIllegalResourcePath rpath)
  | String c rest =>
      if decide (c = slash) then
        match Split rest with
        | [] => Fail (GoErr ErrIllegalResourcePath rest)
        | seg :: segs =>
            if bool_decide (seg = "local") then Done (ResourceTypeLocalFile, path_Join segs)
            else if bool_decide (seg = "s3") then Done (ResourceTypeS3, path_Join segs)
            else Fail (GoErr ErrIllegalResourcePath rest)
        end
      else Fail (GoErr ErrIllegalResourcePath rpath)
  end.

(** ** Specification *)

(** The id of a resource with a given type and name. *)
Definition resource_id (t : ResourceType) (name : ResourceName) : ResourceID :=
  String slash (type_string t +:+ String slash name).

Definition no_slash (s : string) : Prop := Split s = [s].

(** A segment that names something. *)
Definition proper (s : string) : Prop := no_slash s ∧ s ≠ "" ∧ s ≠ "." ∧ s ≠ "..".

(** A cleaned stack: proper segments over leading [".."]. *)
Fixpoint clean_stack (st : list string) : Prop :=
  match st with
  | [] => True
  | x :: st' => (proper x ∧ clean_stack st') ∨ (x = ".." ∧ Forall (λ y, y = "..") st')
  end.

(** ** Lemmas *)

Lemma Split_not_nil s : Split s ≠ [].
Proof. destruct s as [|c s]; simpl; [done|]. case_decide; [done|]. by destruct (Split s). Qed.

Lemma Split_no_slash s : Forall no_slash (Split s).
Proof.
  induction s as [|c s IH]; simpl; [by repeat constructor|]. case_decide as Hc.
  - constructor; [done|done].
  - destruct (Split s) as [|h t] eqn:Hsp; [by apply Split_not_nil in Hsp|].
    apply Forall_cons in IH as [Hh Ht]. constructor; [|done]. unfold no_slash in *. simpl. rewrite decide_False by done. by rewrite Hh.
Qed.

Lemma Split_app_slash x s : no_slash x → Split (x +:+ String slash s) = x :: Split s.
Proof.
  unfold no_slash. induction x as [|c x IH]; intros Hx.
  - done.
  - simpl in *. case_decide as Hc; [done|].
    assert (no_slash x) as Hx'. { unfold no_slash. destruct (Split x) as [|h t] eqn:Hs; [by apply Split_not_nil in Hs|]. naive_solver. }
    by rewrite (IH Hx').
Qed.

Lemma Split_Join l : l ≠ [] → Forall no_slash l → Split (Join l) = l.
Proof.
  induction l as [|x l IH]; intros Hne Hl; [done|]. apply Forall_cons in Hl as [Hx Hl].
  destruct l as [|y l]; [done|]. change (Join (x :: y :: l)) with (x +:+ String slash (Join (y :: l))).
  rewrite Split_app_slash by done. by rewrite IH.
Qed.

Lemma no_slash_dots : no_slash ".." ∧ no_slash "." ∧ no_slash "".
Proof. done. Qed.

Lemma clean_stack_no_slash st : clean_stack st → Forall no_slash st.
Proof.
  induction st as [|x st IH]; intros Hst; [constructor|]. simpl in Hst. destruct Hst as [[[Hx _] Hst]|[-> Hst]].
  - constructor; auto.
  - constructor; [done|]. eapply Forall_impl; [exact Hst|]. intros y ->. done.
Qed.

Lemma dots_clean_stack st : Forall (λ y, y = "..") st → clean_stack st.
Proof. destruct st as [|x st]; simpl; [done|]. intros [-> H]%Forall_cons. by right. Qed.

Lemma clean_step_stack out seg : clean_stack out → no_slash seg → clean_stack (clean_step out seg).
Proof.
  intros Hout Hs. unfold clean_step. case_bool_decide as H1; [done|]. case_bool_decide as H2; [done|]. simpl.
  case_bool_decide as H3; [|by left].
  destruct out as [|top out]; simpl; [by right|]. simpl in Hout. case_bool_decide as H4.
  - right. split; [done|]. destruct Hout as [[[_ Hp] _]|[_ Hf]]; [naive_solver|]. by constructor.
  - destruct Hout as [[_ Hout]|[Hdd _]]; [done|congruence].
Qed.

Lemma Clean_stack segs : Forall no_slash segs → clean_stack (foldl clean_step [] segs).
Proof.
  assert (∀ out, clean_stack out → Forall no_slash segs → clean_stack (foldl clean_step out segs)) as H; [|by apply H].
  induction segs as [|s segs IH]; intros out Hout Hs; [done|]. apply Forall_cons in Hs as [Hs Hss].
  simpl. apply IH; [by apply clean_step_stack|done].
Qed.

(** Cleaning a cleaned path changes nothing. *)
Lemma clean_step_push x st : clean_stack (x :: st) → clean_step st x = x :: st.
Proof.
  intros [[(_ & H1 & H2 & H3) _]|[-> Hf]]; unfold clean_step.
  - by rewrite !bool_decide_eq_false_2.
  - simpl. destruct st as [|y st]; [done|]. apply Forall_cons in Hf as [-> _]. done.
Qed.

Lemma Clean_rev st : clean_stack st → foldl clean_step [] (rev st) = st.
Proof.
  induction st as [|x st IH]; intros Hst; [done|]. simpl. rewrite foldl_app. simpl.
  rewrite IH; [by apply clean_step_push|]. destruct Hst as [[_ H]|[_ H]]; [done|by apply dots_clean_stack].
Qed.

Lemma clean_stack_nonempty st : clean_stack st → Forall (λ s, s ≠ "") st.
Proof.
  induction st as [|x st IH]; intros Hst; [constructor|]. simpl in Hst. destruct Hst as [[(_ & Hx & _) Hst]|[-> Hst]].
  - constructor; auto.
  - constructor; [done|]. eapply Forall_impl; [exact Hst|]. by intros y ->.
Qed.

(** The name of a cleaned path. *)
Lemma path_Join_clean st : clean_stack st → path_Join (rev st) = match st with [] => "" | _ => Join (rev st) end.
Proof.
  intros Hst. unfold path_Join. rewrite filter_Forall by (apply Forall_rev, clean_stack_nonempty, Hst).
  destruct st as [|x st]; [done|]. destruct (rev (x :: st)) as [|y l] eqn:Hr.
  - apply (f_equal length) in Hr. rewrite length_rev in Hr. done.
  - unfold Clean. rewrite <- Hr, Clean_rev by done. by rewrite Hr.
Qed.

Lemma type_no_slash t : no_slash (type_string t).
Proof. by destruct t. Qed.

Lemma ParseResourcePath_id t name : ParseResourcePath (resource_id t name) = Done (t, path_Join (Split name)).
Proof.
  unfold ParseResourcePath, resource_id. rewrite decide_True by done. rewrite Split_app_slash by apply type_no_slash.
  by destruct t.
Qed.

(** The names a parse yields: the empty one, ["."], or a cleaned path. *)
Lemma path_Join_cases segs :
  Forall no_slash segs →
  path_Join segs = "" ∨ path_Join segs = "." ∨
  ∃ st, st ≠ [] ∧ clean_stack st ∧ path_Join segs = Join (rev st).
Proof.
  intros Hs. unfold path_Join. destruct (filter (λ s, s ≠ "") segs) as [|x l] eqn:Hf; [by left|]. right.
  unfold Clean. assert (clean_stack (foldl clean_step [] (x :: l))) as Hst.
  { apply Clean_stack. rewrite <- Hf. apply Forall_forall. intros y [_ Hy]%list_elem_of_filter. by eapply Forall_forall. }
  destruct (foldl clean_step [] (x :: l)) as [|y st] eqn:Hc; [by left|]. right. exists (y :: st). split_and!; [done..|].
  destruct (rev (y :: st)) as [|z l'] eqn:Hr; [|done]. apply (f_equal length) in Hr. rewrite length_rev in Hr. done.
Qed.

Lemma foldl_abs_step out segs : Forall proper segs → foldl abs_step out segs = rev segs ++ out.
Proof.
  intros Hs. revert out. induction Hs as [|x l (_ & ? & ? & ?) _ IH]; intros out; [done|]. simpl.
  rewrite IH. unfold abs_step. rewrite !bool_decide_eq_false_2 by done. simpl. by rewrite <- app_assoc.
Qed.

(** The id of a resource whose name is made of proper segments parses to its
    type and its name. *)
Lemma ParseResourcePath_segs t segs :
  segs ≠ [] → Forall proper segs → ParseResourcePath (resource_id t (Join segs)) = Done (t, Join segs).
Proof.
  intros Hne Hs. rewrite ParseResourcePath_id. do 2 f_equal.
  assert (Forall no_slash segs) as Hns by (eapply Forall_impl; [exact Hs|]; by intros x [? _]).
  rewrite Split_Join by done. rewrite <- (rev_involutive segs) at 1. rewrite path_Join_clean.
  - rewrite rev_involutive. destruct (rev segs) as [|y l] eqn:Hr; [|done].
    apply (f_equal length) in Hr. rewrite length_rev in Hr. by destruct segs.
  - assert (Forall proper (rev segs)) as Hr by (by apply Forall_rev). clear -Hr. induction Hr; simpl; [done|]. left. by split.
Qed.

(** ** Theorems *)

(** Parsing is a normalisation: the id made from the type and the name that a
    parse returned parses to the same type and name. *)
Theorem parse_resource_path_idempotent rpath t name :
  ParseResourcePath rpath = Done (t, name) → ParseResourcePath (resource_id t name) = Done (t, name).
Proof.
  intros Hp. rewrite ParseResourcePath_id. do 2 f_equal.
  assert (∃ segs, Forall no_slash segs ∧ name = path_Join segs) as (segs & Hs & ->).
  { unfold ParseResourcePath in Hp. destruct rpath as [|c rest]; [done|]. case_decide; [|done].
    pose proof (Split_no_slash rest) as Hsp. destruct (Split rest) as [|seg segs]; [done|]. apply Forall_cons in Hsp as [_ Hsp].
    exists segs. split; [done|]. case_bool_decide; [by simplify_eq|]. case_bool_decide; by simplify_eq. }
  destruct (path_Join_cases segs Hs) as [->|[->|(st & Hne & Hst & ->)]]; [done|done|].
  rewrite Split_Join.
  - rewrite path_Join_clean by done. by destruct st.
  - destruct st; [done|]. intros Hr. apply (f_equal length) in Hr. rewrite length_rev in Hr. done.
  - by apply Forall_rev, clean_stack_no_slash.
Qed.

Module Witness.

Lemma parse_resource_path_idempotent_witness :
  ParseResourcePath "/local//a/./b/../c/" = Done (ResourceTypeLocalFile, "a/c") ∧
  ParseResourcePath (resource_id ResourceTypeLocalFile "a/c") = Done (ResourceTypeLocalFile, "a/c").
Proof. split; [reflexivity|]. apply (parse_resource_path_idempotent "/local//a/./b/../c/"). reflexivity. Defined.

End Witness.
