(* ===== verification/Resource.v ===== *)
(** * External resources ([pkg/externalresource])

    The file manager and the broker of an executor, which keep local resources as
    directories under a base directory, and the service of the server master,
    which records who holds which resource and answers the scheduler. The file
    system is the set of directories, each a list of segments; calls of the
    package [os] may fail as an environment decides. *)

From stdpp Require Import sorting.
From S2P Require Import Prelude Errors Model Metastore Dispatch Cluster ResourcePath.

(** ** The file system *)

Abbreviation FilePath := (list string).
Abbreviation FS := (gset FilePath).

(** [filepath.Join] onto an absolute path. *)
Definition filepath_Join (base : FilePath) (elems : list string) : FilePath :=
  rev (foldl abs_step (rev base) (concat (Split <$> elems))).

(** A directory with all its parents. *)
Fixpoint prefixes (p : FilePath) : list FilePath :=
  match p with
  | [] => [[]]
  | x :: p' => [] :: (cons x <$> prefixes p')
  end.

Definition fs_MkdirAll (p : FilePath) (fs : FS) : FS := list_to_set (prefixes p) ∪ fs.
Definition fs_RemoveAll (p : FilePath) (fs : FS) : FS := filter (λ q, ¬ p `prefix_of` q) fs.

(** The name of [q] in its parent [p]. *)
Definition child_of (p q : FilePath) : option string :=
  match drop (length p) q with
  | [x] => if decide (q = p ++ [x]) then Some x else None
  | _ => None
  end.

Definition name_le (x y : string) : Prop := String.leb x y = true.

#[global] Instance name_le_dec : RelDecision name_le.
Proof. intros x y. unfold name_le. apply _. Defined.

(** [ioutil.ReadDir], the directories only, sorted by name. *)
Definition fs_ReadDir (p : FilePath) (fs : FS) : list string :=
  merge_sort name_le (omap (child_of p) (elements fs)).

(** The errors of the operating system, by call and path; a missing directory
    aside. *)
Record OSEnv := mkOSEnv {
  os_mkdir : FilePath → option string;
  os_stat : FilePath → option string;
  os_readdir : FilePath → option string;
  os_remove : FilePath → option string;
}.

Definition no_errors : OSEnv := mkOSEnv (λ _, None) (λ _, None) (λ _, None) (λ _, None).

(** ** [LocalFileManager] *)

Record LocalFileManager := mkFileManager {
  fm_BaseDir : FilePath;
  persistedResourcesByCreator : gmap WorkerID (gset ResourceName);
}.

Definition NewLocalFileManager (baseDir : FilePath) : LocalFileManager := mkFileManager baseDir ∅.

Record LocalFileResourceDescriptor := mkDescriptor {
  rd_BasePath : FilePath;
  rd_Creator : WorkerID;
  rd_ResourceName : ResourceName;
}.

Definition AbsolutePath (d : LocalFileResourceDescriptor) : FilePath :=
  filepath_Join (rd_BasePath d) [rd_Creator d; rd_ResourceName d].

Section file_manager.
Variable env : OSEnv.

Definition CreateResource (creator : WorkerID) (resName : ResourceName) : Go (LocalFileManager * FS) LocalFileResourceDescriptor :=
  λ '(m, fs),
    let r := mkDescriptor (fm_BaseDir m) creator resName in
    match os_mkdir env (AbsolutePath r) with
    | Some err => (Fail (GoWrap ErrCreateLocalFileDirectoryFailed (ErrForeign err)), (m, fs))
    | None => (Done r, (m, fs_MkdirAll (AbsolutePath r) fs))
    end.

Definition isPersisted (creator : WorkerID) (resName : ResourceName) (m : LocalFileManager) : bool :=
  match persistedResourcesByCreator m !! creator with
  | None => false
  | Some s => bool_decide (resName ∈ s)
  end.

(** [os.Stat]: [Done false] is a missing directory. *)
Definition stat (p : FilePath) (fs : FS) : res string bool :=
  match os_stat env p with
  | Some err => Fail err
  | None => Done (bool_decide (p ∈ fs))
  end.

Definition GetPersistedResource (creator : WorkerID) (resName : ResourceName) :
    Go (LocalFileManager * FS) LocalFileResourceDescriptor := λ '(m, fs),
  let r := mkDescriptor (fm_BaseDir m) creator resName in
  match stat (AbsolutePath r) fs with
  | Fail err => (Fail (GoWrap ErrReadLocalFileDirectoryFailed (ErrForeign err)), (m, fs))
  | Panic => (Panic, (m, fs))
  | Done false => (Fail (GoErr ErrResourceDoesNotExist resName), (m, fs))
  | Done true =>
      if isPersisted creator resName m then (Done r, (m, fs))
      else (Fail (GoErr ErrResourceDoesNotExist resName), (m, fs))
  end.

(** The callback of [RemoveTemporaryFiles] on one directory. *)
Definition removeTemporary (creator : WorkerID) (resourceID : string) : Go (LocalFileManager * FS) unit := λ '(m, fs),
  if isPersisted creator resourceID m then (Done tt, (m, fs))
  else
    let fullPath := filepath_Join (fm_BaseDir m) [creator; resourceID] in
    match os_remove env fullPath with
    | Some err => (Fail (GoWrap ErrCleaningLocalTempFiles (ErrForeign err)), (m, fs))
    | None => (Done tt, (m, fs_RemoveAll fullPath fs))
    end.

Definition iterOverResourceDirectories (path : FilePath) (fn : string → Go (LocalFileManager * FS) unit) :
    Go (LocalFileManager * FS) unit := λ '(m, fs),
  match os_readdir env path with
  | Some err => (Fail (GoWrap ErrReadLocalFileDirectoryFailed (ErrForeign err)), (m, fs))
  | None => forM_ fn (fs_ReadDir path fs) (m, fs)
  end.

Definition RemoveTemporaryFiles (creator : WorkerID) : Go (LocalFileManager * FS) unit := λ '(m, fs),
  let creatorResourcePath := filepath_Join (fm_BaseDir m) [creator] in
  match stat creatorResourcePath fs with
  | Fail err => (Fail (GoWrap ErrReadLocalFileDirectoryFailed (ErrForeign err)), (m, fs))
  | Panic => (Panic, (m, fs))
  | Done false => (Done tt, (m, fs))
  | Done true => iterOverResourceDirectories creatorResourcePath (removeTemporary creator) (m, fs)
  end.

Definition forget (creator : WorkerID) (resName : ResourceName) (m : LocalFileManager) : LocalFileManager :=
  match persistedResourcesByCreator m !! creator with
  | None => m
  | Some s => mkFileManager (fm_BaseDir m) (<[creator := s ∖ {[resName]}]> (persistedResourcesByCreator m))
  end.

Definition RemoveResource (creator : WorkerID) (resName : ResourceName) : Go (LocalFileManager * FS) unit := λ '(m, fs),
  if bool_decide (creator = "") then (Panic, (m, fs)) else
  let resourcePath := filepath_Join (fm_BaseDir m) [creator; resName] in
  match stat resourcePath fs with
  | Fail err => (Fail (GoWrap ErrReadLocalFileDirectoryFailed (ErrForeign err)), (m, fs))
  | Panic => (Panic, (m, fs))
  | Done false => (Fail (GoErr ErrResourceDoesNotExist resName), (m, fs))
  | Done true =>
      match os_remove env resourcePath with
      | Some err => (Fail (GoWrap ErrRemovingLocalResource (ErrForeign err)), (m, fs))
      | None => (Done tt, (forget creator resName m, fs_RemoveAll resourcePath fs))
      end
  end.

Definition SetPersisted (creator : WorkerID) (resName : ResourceName) (m : LocalFileManager) : LocalFileManager :=
  let s := default ∅ (persistedResourcesByCreator m !! creator) in
  mkFileManager (fm_BaseDir m) (<[creator := {[resName]} ∪ s]> (persistedResourcesByCreator m)).

(** ** The broker *)

Record ResourceMeta := mkResourceMeta {
  rm_ID : ResourceID;
  rm_Job : MasterID;
  rm_Worker : WorkerID;
  rm_Executor : ExecutorID;
  rm_Deleted : bool;
}.

(** What [QueryResource] answers. *)
Record QueryResourceResponse := mkQueryResource {
  qr_CreatorExecutor : ExecutorID;
  qr_JobId : MasterID;
  qr_CreatorWorkerId : WorkerID;
}.

Definition checkForExistingResource (resourceID : ResourceID) (answer : res rpcErr QueryResourceResponse) :
    res rpcErr (option ResourceMeta) :=
  match answer with
  | Panic => Panic
  | Done resp => Done (Some (mkResourceMeta resourceID (qr_JobId resp) (qr_CreatorWorkerId resp) (qr_CreatorExecutor resp) false))
  | Fail (RpcStatus NotFound _) => Done None
  | Fail e => Fail e
  end.

Record Handle := mkHandle {
  h_id : ResourceID;
  h_name : ResourceName;
  h_jobID : MasterID;
  h_workerID : WorkerID;
  h_executorID : ExecutorID;
}.

(** [newHandleForLocalFile] after the path is parsed; [answer] is that of the
    resource manager, [storageErr] the error of opening the directory. *)
Definition openLocal (executorID : ExecutorID) (answer : res rpcErr QueryResourceResponse) (storageErr : option goerr)
    (jobID : MasterID) (workerID : WorkerID) (resourceID : ResourceID) (resName : ResourceName) :
    Go (LocalFileManager * FS) Handle := λ st,
  match checkForExistingResource resourceID answer with
  | Panic => (Panic, st)
  | Fail e => (Fail (ErrForeign (rpc_msg e)), st)
  | Done None =>
      match CreateResource workerID resName st with
      | (Panic, st1) => (Panic, st1)
      | (Fail e, st1) => (Fail e, st1)
      | (Done _, st1) =>
          match storageErr with
          | Some e => match RemoveResource workerID resName st1 with (Panic, st2) => (Panic, st2) | (_, st2) => (Fail e, st2) end
          | None => (Done (mkHandle resourceID resName jobID workerID executorID), st1)
          end
      end
  | Done (Some record) =>
      match GetPersistedResource (rm_Worker record) resName st with
      | (Panic, st1) => (Panic, st1)
      | (Fail e, st1) => (Fail e, st1)
      | (Done _, st1) =>
          match storageErr with
          | Some e => (Fail e, st1)
          | None => (Done (mkHandle resourceID resName jobID (rm_Worker record) executorID), st1)
          end
      end
  end.

Definition OpenStorage (executorID : ExecutorID) (answer : res rpcErr QueryResourceResponse) (storageErr : option goerr)
    (workerID : WorkerID) (jobID : MasterID) (resourcePath : ResourceID) : Go (LocalFileManager * FS) Handle := λ st,
  match ParseResourcePath resourcePath with
  | Panic => (Panic, st)
  | Fail e => (Fail e, st)
  | Done (ResourceTypeS3, _) => (Panic, st)
  | Done (ResourceTypeLocalFile, resName) =>
      openLocal executorID answer storageErr jobID workerID resourcePath resName st
  end.

Definition OnWorkerClosed (workerID : WorkerID) (st : LocalFileManager * FS) : LocalFileManager * FS :=
  (RemoveTemporaryFiles workerID st).2.

(** [Persist]; [created] is the answer to the [CreateResource] call. *)
Definition Persist (h : Handle) (created : res rpcErr unit) : GoM rpcErr (LocalFileManager * FS) unit := λ '(m, fs),
  match created with
  | Panic => (Panic, (m, fs))
  | Fail e => (Fail e, (m, fs))
  | Done _ => (Done tt, (SetPersisted (h_workerID h) (h_name h) m, fs))
  end.

(** The RPC of the server master that removes a local resource. *)
Definition Broker_RemoveResource (resourceID : ResourceID) (creatorID : WorkerID) : GoM rpcErr (LocalFileManager * FS) unit := λ st,
  match ParseResourcePath resourceID with
  | Panic => (Panic, st)
  | Fail e => (Fail (RpcStatus (OtherCode 3) (goerr_msg e)), st)
  | Done (tp, resName) =>
      if negb (bool_decide (tp = ResourceTypeLocalFile)) then (Fail (RpcStatus (OtherCode 3) ("unexpected resource type " +:+ type_string tp)), st)
      else if bool_decide (creatorID = "") then (Fail (RpcStatus (OtherCode 3) "empty creatorID"), st)
      else
        match RemoveResource creatorID resName st with
        | (Done _, st') => (Done tt, st')
        | (Panic, st') => (Panic, st')
        | (Fail e, st') =>
            if err_Equal ErrResourceDoesNotExist (Some e) then (Fail (RpcStatus NotFound (goerr_msg e)), st')
            else (Fail (RpcStatus (OtherCode 2) (goerr_msg e)), st')
        end
  end.

End file_manager.

(** ** The resource table ([pkg/orm/client.go])

    As for jobs, the statements are the operations of a class with the laws their
    documentation gives. [Deleted] is an ordinary column here, so deletion removes
    the row. *)

Class GormRes (DB : Type) := {
  resources : DB → gmap ResourceID ResourceMeta;
  count_resources : ResourceID → GoM string DB Z;
  insert_resource : ResourceMeta → GoM string DB unit;
  delete_resources : ResourceID → GoM string DB Z;
  first_resource : ResourceID → GoM string DB (option ResourceMeta);
  res_transaction : ∀ A, Go DB A → Go DB A;
}.
Arguments res_transaction {DB _ A} _.

Class GormResLaws (DB : Type) `{!GormRes DB} : Prop := {
  count_law id db :
    resources (count_resources id db).2 = resources db ∧
    match (count_resources id db).1 with
    | Done n => n = (match resources db !! id with Some _ => 1 | None => 0 end)%Z
    | Fail _ => True | Panic => False
    end;
  (** the unique index refuses a second row *)
  insert_law r db :
    match (insert_resource r db).1 with
    | Done _ => resources db !! rm_ID r = None ∧ resources (insert_resource r db).2 = <[rm_ID r := r]> (resources db)
    | Fail _ => resources (insert_resource r db).2 = resources db ∨
                resources db !! rm_ID r = None ∧ resources (insert_resource r db).2 = <[rm_ID r := r]> (resources db)
    | Panic => False
    end;
  delete_res_law id db :
    match (delete_resources id db).1 with
    | Done n => n = (match resources db !! id with Some _ => 1 | None => 0 end)%Z ∧
                resources (delete_resources id db).2 = delete id (resources db)
    | Fail _ => resources (delete_resources id db).2 = resources db ∨
                resources (delete_resources id db).2 = delete id (resources db)
    | Panic => False
    end;
  first_res_law id db :
    resources (first_resource id db).2 = resources db ∧
    match (first_resource id db).1 with Done r => r = resources db !! id | Fail _ => True | Panic => False end;
  (** the error is that of the body, which is rolled back, or one of beginning or
      committing the transaction *)
  res_transaction_law A (f : Go DB A) db :
    match (res_transaction f db).1 with
    | Done a => ∃ db1, f db = (Done a, db1) ∧ resources (res_transaction f db).2 = resources db1
    | Fail e =>
        (f db).1 = Fail e ∧ resources (res_transaction f db).2 = resources db ∨
        (∃ msg, e = ErrForeign msg) ∧
        (resources (res_transaction f db).2 = resources db ∨
         ∃ a db1, f db = (Done a, db1) ∧ resources (res_transaction f db).2 = resources db1)
    | Panic => (f db).1 = Panic
    end;
}.

Section service.
Context {DB : Type} `{!GormRes DB}.

Definition wrapErr {A} (code : errcode) (m : Go DB A) : Go DB A := λ db,
  match m db with
  | (Done a, db') => (Done a, db')
  | (Fail err, db') => (Fail (GoWrap code err), db')
  | (Panic, db') => (Panic, db')
  end.

(** A statement as a call that may return its error. *)
Definition stmt {A} (m : GoM string DB A) : Go DB A := λ db,
  match m db with
  | (Done a, db') => (Done a, db')
  | (Fail err, db') => (Fail (ErrForeign err), db')
  | (Panic, db') => (Panic, db')
  end.

Definition CreateResource_tx (r : ResourceMeta) : Go DB unit :=
  count ← stmt (count_resources (rm_ID r));
  if bool_decide (0 < count)%Z then throw (GoErr ErrDuplicateResourceID (rm_ID r))
  else wrapErr ErrMetaOpFail (stmt (insert_resource r)).

Definition Orm_CreateResource (r : option ResourceMeta) : Go DB unit :=
  match r with
  | None => throw (GoErr ErrMetaParamsInvalid "input resource meta is nil")
  | Some r => wrapErr ErrMetaOpFail (res_transaction (CreateResource_tx r))
  end.

Definition DeleteResource (id : ResourceID) : Go DB Z := wrapErr ErrMetaOpFail (stmt (delete_resources id)).

Definition GetResourceByID (id : ResourceID) : Go DB ResourceMeta :=
  r ← wrapErr ErrMetaOpFail (stmt (first_resource id));
  match r with
  | Some rec => mret rec
  | None => throw (GoWrap ErrMetaEntryNotFound (ErrForeign "record not found"))
  end.

(** ** The resource manager service ([manager/service.go])

    [hook] is the answer of the hook that runs first, when it answers. *)

Definition ToQueryResourceResponse (m : ResourceMeta) : QueryResourceResponse :=
  mkQueryResource (rm_Executor m) (rm_Job m) (rm_Worker m).

Definition QueryResource (hook : option (res rpcErr QueryResourceResponse)) (id : ResourceID) :
    GoM rpcErr DB QueryResourceResponse := λ db,
  match hook with
  | Some out => (out, db)
  | None =>
      match GetResourceByID id db with
      | (Panic, db') => (Panic, db')
      | (Fail err, db') =>
          if IsNotFoundError (Some err) then (Fail (RpcStatus NotFound (goerr_msg err)), db')
          else (Fail (RpcStatus Aborted (goerr_msg err)), db')
      | (Done rec, db') =>
          if rm_Deleted rec then (Fail (RpcStatus NotFound "resource marked as deleted"), db')
          else (Done (ToQueryResourceResponse rec), db')
      end
  end.

Record CreateResourceRequest := mkCreateResourceRequest {
  cr_ResourceId : ResourceID;
  cr_CreatorExecutor : ExecutorID;
  cr_JobId : MasterID;
  cr_CreatorWorkerId : WorkerID;
}.

Definition Service_CreateResource (hook : option (res rpcErr unit)) (request : CreateResourceRequest) :
    GoM rpcErr DB unit := λ db,
  match hook with
  | Some out => (out, db)
  | None =>
      let resourceRecord := mkResourceMeta (cr_ResourceId request) (cr_JobId request) (cr_CreatorWorkerId request)
                              (cr_CreatorExecutor request) false in
      match Orm_CreateResource (Some resourceRecord) db with
      | (Panic, db') => (Panic, db')
      | (Done _, db') => (Done tt, db')
      | (Fail err, db') =>
          if err_Equal ErrDuplicateResourceID (Some err) then (Fail (RpcStatus AlreadyExists "resource manager error"), db')
          else (Fail (RpcStatus (OtherCode 2) (goerr_msg err)), db')
      end
  end.

Definition Service_RemoveResource (hook : option (res rpcErr unit)) (id : ResourceID) : GoM rpcErr DB unit := λ db,
  match hook with
  | Some out => (out, db)
  | None =>
      if bool_decide (id = "") then (Fail (RpcStatus (OtherCode 3) "empty resource-id"), db) else
      match DeleteResource id db with
      | (Panic, db') => (Panic, db')
      | (Fail err, db') => (Fail (RpcStatus Aborted (goerr_msg err)), db')
      | (Done n, db') =>
          if bool_decide (n = 0)%Z then (Fail (RpcStatus NotFound "resource not found"), db')
          else if bool_decide (1 < n)%Z then (Panic, db')
          else (Done tt, db')
      end
  end.

(** [has] is [HasExecutor] of the executor manager. *)
Definition GetPlacementConstraint (has : ExecutorID → bool) (id : ResourceID) : Go DB (option ExecutorID) := λ db,
  match ParseResourcePath id with
  | Panic => (Panic, db)
  | Fail err => (Fail err, db)
  | Done (rType, _) =>
      if negb (bool_decide (rType = ResourceTypeLocalFile)) then (Done None, db)
      else
        match GetResourceByID id db with
        | (Panic, db') => (Panic, db')
        | (Fail err, db') =>
            if IsNotFoundError (Some err) then (Fail (GoErr ErrResourceDoesNotExist id), db') else (Fail err, db')
        | (Done record, db') =>
            if rm_Deleted record then (Fail (GoErr ErrResourceDoesNotExist id), db')
            else if negb (has (rm_Executor record)) then (Fail (GoErr ErrResourceDoesNotExist id), db')
            else (Done (Some (rm_Executor record)), db')
        end
  end.

End service.

(** The request a handle's [Persist] sends. *)
Definition persistRequest (h : Handle) : CreateResourceRequest :=
  mkCreateResourceRequest (h_id h) (h_executorID h) (h_jobID h) (h_workerID h).

(** An in-memory table. *)
#[global] Instance RefRes_gorm : GormRes (gmap ResourceID ResourceMeta) := {|
  resources db := db;
  count_resources id db := (Done (match db !! id with Some _ => 1 | None => 0 end)%Z, db);
  insert_resource r db :=
    match db !! rm_ID r with Some _ => (Fail "duplicate entry", db) | None => (Done tt, <[rm_ID r := r]> db) end;
  delete_resources id db := (Done (match db !! id with Some _ => 1 | None => 0 end)%Z, delete id db);
  first_resource id db := (Done (db !! id), db);
  res_transaction A f db := match f db with (Done a, db') => (Done a, db') | (out, _) => (out, db) end;
|}.

#[global] Instance RefRes_laws : GormResLaws (gmap ResourceID ResourceMeta).
Proof.
  constructor; simpl; try (intros; by split).
  - intros r db. destruct (db !! rm_ID r) eqn:Hr; simpl; [by left|done].
  - intros A f db. destruct (f db) as [[a|e|] db1]; simpl; [by exists db1|by left|done].
Qed.

(** ** Lemmas on the file system *)

Ltac proper_list := repeat first [apply Forall_nil_2 | apply Forall_cons_2]; done.

(** The names are proper, and a directory has its parents. *)
Definition fs_ok (fs : FS) : Prop :=
  (∀ p, p ∈ fs → Forall proper p) ∧ ∀ p q, q ∈ fs → p `prefix_of` q → p ∈ fs.

Lemma Split_proper segs : Forall proper segs → concat (Split <$> segs) = segs.
Proof. induction 1 as [|x l [Hx _] _ IH]; [done|]. csimpl. unfold no_slash in Hx. by rewrite Hx, IH. Qed.

Lemma filepath_Join_segs base elems segs :
  concat (Split <$> elems) = segs → Forall proper segs → filepath_Join base elems = base ++ segs.
Proof.
  intros He Hs. unfold filepath_Join. by rewrite He, foldl_abs_step, rev_app_distr, !rev_involutive.
Qed.

Lemma filepath_Join_proper base segs : Forall proper segs → filepath_Join base segs = base ++ segs.
Proof. intros Hs. by apply filepath_Join_segs; [apply Split_proper|]. Qed.

Lemma AbsolutePath_segs base w segs :
  proper w → segs ≠ [] → Forall proper segs → AbsolutePath (mkDescriptor base w (Join segs)) = base ++ w :: segs.
Proof.
  intros Hw Hne Hs. apply filepath_Join_segs; [|by constructor]. csimpl. destruct Hw as [Hw _]. unfold no_slash in Hw.
  rewrite Hw, Split_Join; [simpl; by rewrite app_nil_r|done|]. eapply Forall_impl; [exact Hs|]. by intros x [? _].
Qed.

Lemma elem_of_prefixes p q : q ∈ prefixes p ↔ q `prefix_of` p.
Proof.
  revert q. induction p as [|x p IH]; intros q; simpl.
  - rewrite list_elem_of_singleton. split; [intros ->; done|]. by intros ->%prefix_nil_inv.
  - rewrite elem_of_cons, list_elem_of_fmap. split.
    + intros [->|(q' & -> & Hq)]; [apply prefix_nil|]. apply prefix_cons. by apply IH.
    + destruct q as [|y q]; [by left|]. intros Hp. right. exists q.
      pose proof (prefix_cons_inv_1 _ _ _ _ Hp) as ->. split; [done|]. apply IH. by eapply prefix_cons_inv_2.
Qed.

Lemma elem_of_MkdirAll p q fs : q ∈ fs_MkdirAll p fs ↔ q `prefix_of` p ∨ q ∈ fs.
Proof. unfold fs_MkdirAll. by rewrite elem_of_union, elem_of_list_to_set, elem_of_prefixes. Qed.

Lemma elem_of_RemoveAll p q fs : q ∈ fs_RemoveAll p fs ↔ q ∈ fs ∧ ¬ p `prefix_of` q.
Proof. unfold fs_RemoveAll. rewrite elem_of_filter. naive_solver. Qed.

Lemma child_of_Some p q x : child_of p q = Some x ↔ q = p ++ [x].
Proof.
  unfold child_of. split.
  - destruct (drop _ q) as [|y [|z l]]; [done| |done]. case_decide; naive_solver.
  - intros ->. rewrite drop_app_length. by rewrite decide_True.
Qed.

Lemma elem_of_ReadDir p x fs : x ∈ fs_ReadDir p fs ↔ p ++ [x] ∈ fs.
Proof.
  unfold fs_ReadDir. rewrite merge_sort_Permutation, list_elem_of_omap. split.
  - intros (q & Hq%elem_of_elements & ->%child_of_Some). done.
  - intros Hin. exists (p ++ [x]). by rewrite elem_of_elements, child_of_Some.
Qed.

Lemma fs_ok_RemoveAll p fs : fs_ok fs → fs_ok (fs_RemoveAll p fs).
Proof.
  intros [H1 H2]. split.
  - intros q [Hq _]%elem_of_RemoveAll. by apply H1.
  - intros q q' [Hq' Hn]%elem_of_RemoveAll Hp. apply elem_of_RemoveAll. split; [by eapply H2|].
    intros Hpq. apply Hn. by etrans.
Qed.

Lemma fs_ok_MkdirAll p fs : Forall proper p → fs_ok fs → fs_ok (fs_MkdirAll p fs).
Proof.
  intros Hp [H1 H2]. split.
  - intros q [[k ->]|Hq]%elem_of_MkdirAll; [by apply Forall_app in Hp as [? _]|by apply H1].
  - intros q q' [Hq|Hq]%elem_of_MkdirAll Hqq; apply elem_of_MkdirAll; [left; by etrans|right; by eapply H2].
Qed.

(** ** Temporary files *)

(** [q] belongs to a temporary resource of the worker. *)
Definition temporary (m : LocalFileManager) (creator : WorkerID) (q : FilePath) : Prop :=
  ∃ x, (fm_BaseDir m ++ [creator; x]) `prefix_of` q ∧ isPersisted creator x m = false.

Section temporary.
Variable env : OSEnv.
Variables (m : LocalFileManager) (creator : WorkerID).

(** What a run of the loop over [l] that ended with [r] did to the directories. *)
Definition cleaned (l : list string) (fs : FS) (r : res goerr unit) (fs' : FS) : Prop :=
  (∀ q, q ∈ fs' → q ∈ fs) ∧
  (∀ q, q ∈ fs → ¬ temporary m creator q → q ∈ fs') ∧
  match r with
  | Done _ => ∀ x q, x ∈ l → q ∈ fs' → (fm_BaseDir m ++ [creator; x]) `prefix_of` q → isPersisted creator x m = true
  | Fail _ => ∃ p err, os_remove env p = Some err
  | Panic => False
  end.

Lemma removeTemporary_step x fs :
  proper creator → proper x → fs_ok fs →
  ∃ r fs', removeTemporary env creator x (m, fs) = (r, (m, fs')) ∧ fs_ok fs' ∧ cleaned [x] fs r fs'.
Proof.
  intros Hc Hx Hfs. unfold removeTemporary. destruct (isPersisted creator x m) eqn:Hper.
  - do 2 eexists. split_and!; [done..|]. split_and!; [done..|]. by intros y q ->%list_elem_of_singleton.
  - rewrite filepath_Join_proper by proper_list. destruct (os_remove env _) as [err|] eqn:Hos.
    + do 2 eexists. split_and!; [done..|]. split_and!; eauto.
    + do 2 eexists. split_and!; [done|by apply fs_ok_RemoveAll|]. split_and!.
      * by intros q [? _]%elem_of_RemoveAll.
      * intros q Hq Hn. apply elem_of_RemoveAll. split; [done|]. intros Hp. apply Hn. by exists x.
      * intros y q ->%list_elem_of_singleton [_ Hn]%elem_of_RemoveAll Hp. done.
Qed.

Lemma removeTemporary_loop l fs :
  proper creator → Forall proper l → fs_ok fs →
  ∃ r fs', forM_ (removeTemporary env creator) l (m, fs) = (r, (m, fs')) ∧ fs_ok fs' ∧ cleaned l fs r fs'.
Proof.
  intros Hc Hl. revert fs. induction Hl as [|x l Hx _ IH]; intros fs Hfs.
  - do 2 eexists. split_and!; [done..|]. split_and!; [done..|]. intros x q []%not_elem_of_nil.
  - destruct (removeTemporary_step x fs Hc Hx Hfs) as (r & fs1 & Hr & Hok1 & Hsub1 & Hkeep1 & Hout1).
    simpl. unfold mbind, GoM_bind. rewrite Hr. destruct r as [u|e|]; [|by do 2 eexists|done].
    destruct (IH fs1 Hok1) as (r & fs2 & -> & Hok2 & Hsub2 & Hkeep2 & Hout2).
    do 2 eexists. split_and!; [done..|]. split_and!; [by auto| |].
    + intros q Hq Hn. auto.
    + destruct r; [|done|done]. intros y q [->|Hy]%elem_of_cons Hq Hp; [|by eauto].
      apply (Hout1 x q); [by left|by auto|done].
Qed.

End temporary.

Lemma RemoveTemporaryFiles_spec env m fs creator :
  fs_ok fs → proper creator →
  ∃ r fs', RemoveTemporaryFiles env creator (m, fs) = (r, (m, fs')) ∧ fs_ok fs' ∧
    (∀ q, q ∈ fs' → q ∈ fs) ∧
    (∀ q, q ∈ fs → ¬ temporary m creator q → q ∈ fs') ∧
    match r with
    | Done _ => ∀ q, q ∈ fs' → ¬ temporary m creator q
    | Fail _ => ∃ p err, os_stat env p = Some err ∨ os_readdir env p = Some err ∨ os_remove env p = Some err
    | Panic => False
    end.
Proof.
  intros Hfs Hc. unfold RemoveTemporaryFiles. rewrite filepath_Join_proper by proper_list.
  set (p := fm_BaseDir m ++ [creator]). unfold stat. destruct (os_stat env p) as [err|] eqn:Hst.
  { do 2 eexists. split_and!; [done..|]. simpl. by eauto. }
  case_bool_decide as Hp.
  - unfold iterOverResourceDirectories. destruct (os_readdir env p) as [err|] eqn:Hrd; [do 2 eexists; split_and!; [done..|]; simpl; by eauto|].
    destruct (removeTemporary_loop env m creator (fs_ReadDir p fs) fs) as (r & fs' & -> & Hok & Hsub & Hkeep & Hout);
      [done| |done|].
    { apply Forall_forall. intros x Hx%elem_of_ReadDir%Hfs. by apply Forall_app in Hx as [_ [? _]%Forall_cons]. }
    do 2 eexists. split_and!; [done..|]. destruct r as [u|e|]; [| |done].
    + intros q Hq (x & Hpre & Hper). rewrite (Hout x q) in Hper; [done| |done|done]. apply elem_of_ReadDir.
      destruct Hfs as [_ Hcl]. apply (Hcl _ q); [by auto|]. unfold p. by rewrite <- app_assoc.
    + destruct Hout as (p' & err & ?). eauto.
  - do 2 eexists. split_and!; [done..|]. intros q Hq (x & Hpre & _). apply Hp. destruct Hfs as [_ Hcl].
    apply (Hcl _ q); [done|]. etrans; [|exact Hpre]. unfold p. exists [x]. by rewrite <- app_assoc.
Qed.

(** ** The table *)

Section table.
Context {DB : Type} `{!GormRes DB, !GormResLaws DB}.

(** The database refuses the read. *)
Definition read_fails (id : ResourceID) (db : DB) : Prop := ∃ msg, (first_resource id db).1 = Fail msg.

Lemma GetResourceByID_spec id db :
  match GetResourceByID id db with
  | (Done r, db') => resources db !! id = Some r ∧ resources db' = resources db
  | (Fail e, db') =>
      resources db' = resources db ∧ (resources db !! id = None ∧ IsNotFoundError (Some e) = true ∨ read_fails id db)
  | (Panic, _) => False
  end.
Proof.
  destruct (first_res_law id db) as [Hdb Hr].
  unfold GetResourceByID, mbind, GoM_bind, wrapErr, stmt. unfold read_fails.
  destruct (first_resource id db) as [[[r|]|msg|] db']; simpl in *; [done| | |done].
  - split; [done|]. left. split; [done|]. exact (not_found_text "record not found").
  - split; [done|]. right. by eexists.
Qed.

Lemma QueryResource_spec id db :
  match (QueryResource None id db).1 with
  | Done a => ∃ r, resources db !! id = Some r ∧ rm_Deleted r = false ∧ a = ToQueryResourceResponse r
  | Fail _ => read_fails id db ∨ ∀ r, resources db !! id = Some r → rm_Deleted r = true
  | Panic => False
  end ∧ resources (QueryResource None id db).2 = resources db.
Proof.
  unfold QueryResource. pose proof (GetResourceByID_spec id db) as Hs.
  destruct (GetResourceByID id db) as [[r|e|] db']; [| |done].
  - destruct (rm_Deleted r) eqn:Hd; simpl; split; naive_solver.
  - destruct Hs as [? Hs]. destruct (IsNotFoundError (Some e)); cbn; (split; [|done]).
    + destruct Hs as [[Hn _]|?]; [right; by rewrite Hn|by left].
    + destruct Hs as [[_ ?]|?]; [done|by left].
Qed.

Lemma CreateResource_tx_spec r db :
  match CreateResource_tx r db with
  | (Done _, db') => resources db !! rm_ID r = None ∧ resources db' = <[rm_ID r := r]> (resources db)
  | (Fail e, _) => err_Equal ErrDuplicateResourceID (Some e) = true → is_Some (resources db !! rm_ID r)
  | (Panic, _) => False
  end.
Proof.
  unfold CreateResource_tx, mbind, GoM_bind. destruct (count_law (rm_ID r) db) as [Hdb Hc].
  unfold stmt at 1. destruct (count_resources (rm_ID r) db) as [[n|msg|] db1]; simpl in *; [|done|done].
  destruct (resources db !! rm_ID r) as [r0|] eqn:Hr; subst n; simpl; [by eauto|].
  pose proof (insert_law r db1) as Hi. unfold wrapErr, stmt.
  destruct (insert_resource r db1) as [[u|msg|] db2]; simpl in *; [|done|done]. destruct Hi as [_ ->]. by rewrite Hdb.
Qed.

Definition created (request : CreateResourceRequest) : ResourceMeta :=
  mkResourceMeta (cr_ResourceId request) (cr_JobId request) (cr_CreatorWorkerId request) (cr_CreatorExecutor request) false.

Lemma Service_CreateResource_spec request db :
  let id := cr_ResourceId request in
  match Service_CreateResource None request db with
  | (Done _, db') => resources db !! id = None ∧ resources db' = <[id := created request]> (resources db)
  | (Fail e, db') =>
      (resources db' = resources db ∨
       resources db !! id = None ∧ resources db' = <[id := created request]> (resources db)) ∧
      ∀ msg, e = RpcStatus AlreadyExists msg → is_Some (resources db !! id) ∧ resources db' = resources db
  | (Panic, _) => False
  end.
Proof.
  intros id. unfold Service_CreateResource. fold (created request). unfold Orm_CreateResource, wrapErr.
  pose proof (res_transaction_law _ (CreateResource_tx (created request)) db) as Ht.
  pose proof (CreateResource_tx_spec (created request) db) as Hs.
  destruct (res_transaction _ db) as [[u|e|] db']; cbn [fst snd] in Ht.
  - destruct Ht as (db1 & Hf & ->). by rewrite Hf in Hs.
  - destruct Ht as [[Hf Hdb]|[[msg ->] Hdb]].
    + destruct (CreateResource_tx _ db) as [[?|e'|] db1]; simpl in Hf; simplify_eq.
      change (err_Equal ErrDuplicateResourceID (Some (GoWrap ErrMetaOpFail e)))
        with (err_Equal ErrDuplicateResourceID (Some e)).
      destruct (err_Equal _ _); split; [by left| |by left|]; intros msg Hm; [by split; [apply Hs|]|done].
    + cbn -[resources]. split; [|done]. destruct Hdb as [->|(a & db1 & Hf & ->)]; [by left|right]. by rewrite Hf in Hs.
  - by destruct (CreateResource_tx _ db) as [[?|?|] ?].
Qed.

End table.

(** ** The life of a local resource *)

Lemma isPersisted_SetPersisted w n w' n' m :
  isPersisted w' n' (SetPersisted w n m) = bool_decide (w = w' ∧ n = n') || isPersisted w' n' m.
Proof.
  unfold isPersisted, SetPersisted. simpl. destruct (decide (w = w')) as [<-|Hne].
  - rewrite lookup_insert_eq. destruct (persistedResourcesByCreator m !! w) as [s|]; simpl.
    + repeat case_bool_decide; set_solver.
    + rewrite orb_false_r. repeat case_bool_decide; set_solver.
  - rewrite lookup_insert_ne by done. by rewrite bool_decide_eq_false_2 by naive_solver.
Qed.

(** Opening a resource the table does not know creates its directory. *)
Lemma OpenStorage_create ex answer w j id name m fs h st :
  ParseResourcePath id = Done (ResourceTypeLocalFile, name) → (∀ a, answer ≠ Done a) →
  OpenStorage no_errors ex answer None w j id (m, fs) = (Done h, st) →
  h = mkHandle id name j w ex ∧ st = (m, fs_MkdirAll (AbsolutePath (mkDescriptor (fm_BaseDir m) w name)) fs).
Proof.
  intros Hp Ha. unfold OpenStorage. rewrite Hp. unfold openLocal, checkForExistingResource.
  destruct answer as [a|[[] msg|msg]|]; naive_solver.
Qed.

Lemma OpenStorage_existing ex a w j id name m fs :
  ParseResourcePath id = Done (ResourceTypeLocalFile, name) →
  OpenStorage no_errors ex (Done a) None w j id (m, fs) =
    (if bool_decide (AbsolutePath (mkDescriptor (fm_BaseDir m) (qr_CreatorWorkerId a) name) ∈ fs)
        && isPersisted (qr_CreatorWorkerId a) name m
     then Done (mkHandle id name j (qr_CreatorWorkerId a) ex)
     else Fail (GoErr ErrResourceDoesNotExist name), (m, fs)).
Proof.
  intros Hp. unfold OpenStorage. rewrite Hp. unfold openLocal, checkForExistingResource, GetPersistedResource, stat. simpl.
  case_bool_decide; simpl; [|done]. by destruct (isPersisted _ _ _).
Qed.

(** A worker opens a new resource, persists it, and is closed. *)
Section life.
Context {DB : Type} `{!GormRes DB, !GormResLaws DB}.
Variables (env : OSEnv) (m : LocalFileManager) (fs : FS) (ex : ExecutorID) (w : WorkerID) (j : MasterID).
Variables (segs : list string) (db db1 : DB) (h : Handle) (st1 : LocalFileManager * FS).
Let name := Join segs.
Let id := resource_id ResourceTypeLocalFile name.
Hypothesis Hfs : fs_ok fs.
Hypothesis Hbase : Forall proper (fm_BaseDir m).
Hypothesis Hw : proper w.
Hypothesis Hne : segs ≠ [].
Hypothesis Hsegs : Forall proper segs.
Hypothesis Hopen : OpenStorage no_errors ex (QueryResource None id db).1 None w j id (m, fs) = (Done h, st1).
Hypothesis Hcreate : Service_CreateResource None (persistRequest h) (QueryResource None id db).2 = (Done tt, db1).

Let dir := fm_BaseDir m ++ w :: segs.
Let m2 := SetPersisted w name m.

Lemma life_parse : ParseResourcePath id = Done (ResourceTypeLocalFile, name).
Proof. apply ParseResourcePath_segs; done. Qed.

Lemma life_opened : h = mkHandle id name j w ex ∧ st1 = (m, fs_MkdirAll dir fs).
Proof.
  destruct (QueryResource_spec id db) as [Hq Hsame].
  pose proof (Service_CreateResource_spec (persistRequest h) (QueryResource None id db).2) as Hc. rewrite Hcreate in Hc.
  destruct Hc as [Habs _]. rewrite Hsame in Habs.
  assert (h_id h = id) as Hid.
  { revert Hopen. unfold OpenStorage. rewrite life_parse. unfold openLocal.
    destruct (checkForExistingResource _ _) as [[rec|]|e|]; [..|done]; [| |done].
    - destruct (GetPersistedResource _ _ _ _) as [[?|?|] ?]; naive_solver.
    - destruct (CreateResource _ _ _ _) as [[?|?|] ?]; naive_solver. }
  unfold dir. rewrite <- (AbsolutePath_segs _ _ _ Hw Hne Hsegs).
  eapply OpenStorage_create; [apply life_parse| |exact Hopen].
  intros a Ha. rewrite Ha in Hq. destruct Hq as (r & Hr & _). simpl in Habs. rewrite Hid in Habs. congruence.
Qed.

Lemma life_closed :
  ∃ fs', OnWorkerClosed env w (Persist h (Done tt) st1).2 = (m2, fs') ∧
    (¬ temporary m2 w dir → dir ∈ fs') ∧
    (env = no_errors → temporary m2 w dir → dir ∉ fs').
Proof.
  destruct life_opened as [-> ->]. cbn [Persist snd h_workerID h_name]. fold m2.
  destruct (RemoveTemporaryFiles_spec env m2 (fs_MkdirAll dir fs) w) as (r & fs' & Hr & _ & _ & Hkeep & Hout).
  - apply fs_ok_MkdirAll; [|done]. apply Forall_app. split; [done|]. by constructor.
  - done.
  - exists fs'. split_and!.
    + unfold OnWorkerClosed. by rewrite Hr.
    + intros Hn. apply Hkeep; [|done]. apply elem_of_MkdirAll. by left.
    + intros -> Ht Hin. destruct r as [[]|e|]; [by apply (Hout dir)|naive_solver|done].
Qed.

Lemma life_answer :
  read_fails id db1 ∨ (QueryResource None id db1).1 = Done (mkQueryResource ex j w).
Proof.
  pose proof (Service_CreateResource_spec (persistRequest h) (QueryResource None id db).2) as Hc. rewrite Hcreate in Hc.
  destruct Hc as [_ Hdb1]. destruct life_opened as [Hh _]. rewrite Hh in Hdb1. simpl in Hdb1.
  destruct (QueryResource_spec id db1) as [Hq _]. rewrite Hdb1, lookup_insert_eq in Hq.
  destruct (QueryResource None id db1).1 as [a|e|]; [|destruct Hq as [?|Hq]; [by left|by specialize (Hq _ eq_refl)]|done].
  right. destruct Hq as (r & [= <-] & _ & ->). done.
Qed.

End life.

Lemma GetPlacementConstraint_local {DB} `{!GormRes DB, !GormResLaws DB} has id name o (db : DB) :
  ParseResourcePath id = Done (ResourceTypeLocalFile, name) → (GetPlacementConstraint has id db).1 = Done o →
  ∃ r, resources db !! id = Some r ∧ rm_Deleted r = false ∧ has (rm_Executor r) = true ∧ o = Some (rm_Executor r).
Proof.
  intros Hp. unfold GetPlacementConstraint. rewrite Hp. cbn [negb]. rewrite bool_decide_eq_true_2 by done. cbn [negb].
  pose proof (GetResourceByID_spec id db) as Hs.
  destruct (GetResourceByID id db) as [[r|e|] db']; [| |done].
  - destruct (rm_Deleted r) eqn:Hd; [done|]. destruct (has _) eqn:Hh; [|done]. intros [= <-]. exists r. naive_solver.
  - by destruct (IsNotFoundError _).
Qed.

(** The directory the name leads to is removed with all below it. *)
Lemma Broker_RemoveResource_Done id name creator p m fs :
  ParseResourcePath id = Done (ResourceTypeLocalFile, name) → creator ≠ "" →
  filepath_Join (fm_BaseDir m) [creator; name] = p → p ∈ fs →
  ∃ m' fs', Broker_RemoveResource no_errors id creator (m, fs) = (Done tt, (m', fs')) ∧
    ∀ q, q ∈ fs' ↔ q ∈ fs ∧ ¬ p `prefix_of` q.
Proof.
  intros Hp Hc Hj Hin. unfold Broker_RemoveResource, RemoveResource, stat. rewrite Hp, Hj. cbn [no_errors os_stat os_remove].
  rewrite (bool_decide_eq_true_2 (p ∈ fs)), (bool_decide_eq_false_2 (creator = "")) by done. simpl.
  do 2 eexists. split; [done|]. intros q. apply elem_of_RemoveAll.
Qed.

(** ** Theorems *)

(** Closing a worker removes its temporary files and nothing else. Whatever the
    operating system answers, only directories of resources that are not persisted
    disappear; and unless it reported an error, none of them is left. *)
Theorem remove_temporary_files_exact env m fs creator :
  fs_ok fs → proper creator →
  ∃ r fs', RemoveTemporaryFiles env creator (m, fs) = (r, (m, fs')) ∧ fs_ok fs' ∧
    (∀ q, q ∈ fs' → q ∈ fs) ∧
    (∀ q, q ∈ fs → ¬ temporary m creator q → q ∈ fs') ∧
    match r with
    | Done _ => ∀ q, q ∈ fs' → ¬ temporary m creator q
    | Fail _ => ∃ p err, os_stat env p = Some err ∨ os_readdir env p = Some err ∨ os_remove env p = Some err
    | Panic => False
    end.
Proof. apply RemoveTemporaryFiles_spec. Qed.

(** C32: a persisted resource outlives its worker. When a worker opened a new local
    resource, persisted it and was closed, whatever errors the cleanup met, any
    worker of the executor that opens the resource afterwards finds it, unless the
    database refuses the read. *)
Theorem persisted_resource_found_again {DB} `{!GormRes DB, !GormResLaws DB}
    env m fs ex w j n (db db1 : DB) h st1 w2 j2 :
  let id := resource_id ResourceTypeLocalFile n in
  fs_ok fs → Forall proper (fm_BaseDir m) → proper w → proper n →
  OpenStorage no_errors ex (QueryResource None id db).1 None w j id (m, fs) = (Done h, st1) →
  Service_CreateResource None (persistRequest h) (QueryResource None id db).2 = (Done tt, db1) →
  let st3 := OnWorkerClosed env w (Persist h (Done tt) st1).2 in
  read_fails id db1 ∨
  OpenStorage no_errors ex (QueryResource None id db1).1 None w2 j2 id st3 = (Done (mkHandle id n j2 w ex), st3).
Proof.
  intros id Hfs Hbase Hw Hn Hopen Hcreate st3.
  assert (Forall proper [n]) as Hns by proper_list.
  destruct (life_closed env m fs ex w j [n] db db1 h st1) as (fs' & Hst & Hkeep & _); [done..|].
  destruct (life_answer m fs ex w j [n] db db1 h st1) as [?|Ha]; [done..|by left|]. right.
  unfold st3. rewrite Hst. change (Join [n]) with n in *. fold id in Ha. rewrite Ha.
  rewrite (OpenStorage_existing _ _ _ _ _ n) by (by apply (ParseResourcePath_segs _ [n])). cbn [qr_CreatorWorkerId fm_BaseDir SetPersisted].
  rewrite isPersisted_SetPersisted, bool_decide_eq_true_2, bool_decide_eq_true_2; [done|done|].
  rewrite (AbsolutePath_segs _ _ [n]) by done. apply Hkeep. intros (x & Hpre & Hper).
  rewrite isPersisted_SetPersisted in Hper. apply orb_false_iff in Hper as [Hx%bool_decide_eq_false _]. apply Hx.
  simpl in Hpre. by apply prefix_app_inv, prefix_cons_inv_2, prefix_cons_inv_1 in Hpre.
Qed.

(** A resource whose name has several segments does not outlive its worker. The
    cleanup looks at the first segment only, which is not what was persisted: the
    directory is removed although the resource was persisted, and a worker that
    opens it afterwards is told that it does not exist although the table has it. *)
Theorem nested_resource_lost {DB} `{!GormRes DB, !GormResLaws DB}
    m fs ex w j a b rest (db db1 : DB) h st1 w2 j2 :
  let name := Join (a :: b :: rest) in
  let id := resource_id ResourceTypeLocalFile name in
  fs_ok fs → Forall proper (fm_BaseDir m) → proper w → Forall proper (a :: b :: rest) → isPersisted w a m = false →
  OpenStorage no_errors ex (QueryResource None id db).1 None w j id (m, fs) = (Done h, st1) →
  Service_CreateResource None (persistRequest h) (QueryResource None id db).2 = (Done tt, db1) →
  let st3 := OnWorkerClosed no_errors w (Persist h (Done tt) st1).2 in
  read_fails id db1 ∨
  OpenStorage no_errors ex (QueryResource None id db1).1 None w2 j2 id st3 = (Fail (GoErr ErrResourceDoesNotExist name), st3).
Proof.
  intros name id Hfs Hbase Hw Hns Hper Hopen Hcreate st3.
  destruct (life_closed no_errors m fs ex w j (a :: b :: rest) db db1 h st1) as (fs' & Hst & _ & Hgone); [done..|].
  destruct (life_answer m fs ex w j (a :: b :: rest) db db1 h st1) as [?|Ha]; [done..|by left|]. right.
  unfold st3. rewrite Hst. fold name in Ha |- *. fold id in Ha. rewrite Ha.
  rewrite (OpenStorage_existing _ _ _ _ _ name) by (by apply ParseResourcePath_segs). cbn [qr_CreatorWorkerId fm_BaseDir SetPersisted].
  rewrite bool_decide_eq_false_2; [done|]. unfold name. rewrite AbsolutePath_segs by done. apply Hgone.
  - done.
  - exists a. split; [by exists (b :: rest); rewrite <- app_assoc|]. cbn [fm_BaseDir SetPersisted].
    rewrite isPersisted_SetPersisted, Hper, orb_false_r. apply bool_decide_eq_false. intros [_ Heq].
    apply (f_equal Split) in Heq. rewrite Split_Join in Heq; [|done|].
    + apply Forall_cons in Hns as [[Hna _] _]. unfold no_slash in Hna. congruence.
    + eapply Forall_impl; [exact Hns|]. by intros x [? _].
Qed.

(** Names are not confined to the directory of their creator. The empty name
    removes everything the creator has on the executor, and [..] everything that
    any worker has, persisted or not. *)
Theorem remove_resource_escapes m fs creator :
  proper creator →
  (fm_BaseDir m ++ [creator] ∈ fs →
   ∃ m' fs', Broker_RemoveResource no_errors "/local" creator (m, fs) = (Done tt, (m', fs')) ∧
     ∀ q, q ∈ fs' ↔ q ∈ fs ∧ ¬ (fm_BaseDir m ++ [creator]) `prefix_of` q) ∧
  (fm_BaseDir m ∈ fs →
   ∃ m' fs', Broker_RemoveResource no_errors "/local/.." creator (m, fs) = (Done tt, (m', fs')) ∧
     ∀ q, q ∈ fs' ↔ q ∈ fs ∧ ¬ fm_BaseDir m `prefix_of` q).
Proof.
  intros Hc. pose proof Hc as (Hns & Hne & Hd & Hdd). unfold no_slash in Hns.
  assert (filepath_Join (fm_BaseDir m) [creator; ""] = fm_BaseDir m ++ [creator]) as He.
  { unfold filepath_Join. csimpl. rewrite Hns. simpl. unfold abs_step. rewrite !(bool_decide_eq_false_2 (creator = _)) by done. simpl. by rewrite rev_involutive. }
  assert (filepath_Join (fm_BaseDir m) [creator; ".."] = fm_BaseDir m) as Hu.
  { unfold filepath_Join. csimpl. rewrite Hns. simpl. unfold abs_step. rewrite !(bool_decide_eq_false_2 (creator = _)) by done. simpl. by rewrite rev_involutive. }
  split; intros Hin; by eapply Broker_RemoveResource_Done.
Qed.

(** C31: a task runs where its resources are. When the scheduler, constrained by the
    resource manager, places a task, the table has every local resource the task
    asks for, on an executor that is registered, and the task is placed there. *)
Theorem task_placed_with_its_resources {P} `{!CapacityProvider P} {DB} `{!GormRes DB, !GormResLaws DB}
    (p : P) e (db : DB) l request ex :
  ScheduleTask p (λ r, (GetPlacementConstraint (HasExecutor e) r db).1) l request = Done ex →
  ∀ id name, id ∈ sr_ExternalResources request → ParseResourcePath id = Done (ResourceTypeLocalFile, name) →
  ∃ rec, resources db !! id = Some rec ∧ rm_Deleted rec = false ∧
    is_Some (em_executors e !! rm_Executor rec) ∧ (rm_Executor rec ≠ "" → ex = rm_Executor rec).
Proof.
  intros [_ Hs]%ScheduleTask_Done id name Hin Hp. destruct (Hs id Hin) as (o & Ho & Hex).
  destruct (GetPlacementConstraint_local _ _ _ _ _ Hp Ho) as (rec & Hr & Hd & Hh & ->).
  exists rec. split_and!; [done|done|by apply bool_decide_eq_true in Hh|auto].
Qed.

Module Witness.

Definition base : FilePath := ["data"].
Definition fs0 : FS := fs_MkdirAll (base ++ ["w1"; "tmp"]) ∅.
Definition m0 : LocalFileManager := NewLocalFileManager base.
Abbreviation DB := (gmap ResourceID ResourceMeta).

Lemma fs0_ok : fs_ok fs0.
Proof.
  apply fs_ok_MkdirAll; [repeat constructor; done|]. split; [intros p Hp|intros p q Hp]; by apply elem_of_empty in Hp.
Qed.

Lemma remove_temporary_files_exact_witness :
  proper "w1" ∧ ∃ fs', RemoveTemporaryFiles no_errors "w1" (m0, fs0) = (Done tt, (m0, fs')) ∧ base ++ ["w1"; "tmp"] ∉ fs'.
Proof.
  split; [done|].
  destruct (remove_temporary_files_exact no_errors m0 fs0 "w1") as (r & fs' & Hr & _ & _ & _ & Hout); [apply fs0_ok|done|].
  assert (r = (RemoveTemporaryFiles no_errors "w1" (m0, fs0)).1) as -> by (by rewrite Hr).
  exists fs'. split; [rewrite Hr; f_equal; by vm_compute in Hr; simplify_eq|].
  change (RemoveTemporaryFiles no_errors "w1" (m0, fs0)).1 with (@Done goerr unit tt) in Hout.
  intros Hin. apply (Hout _ Hin). exists "tmp". split; [done|reflexivity].
Defined.

Definition opened (id : ResourceID) := OpenStorage no_errors "e1" (QueryResource None id (∅ : DB)).1 None "w1" "job" id (m0, fs0).
Definition row (id : ResourceID) : ResourceMeta := mkResourceMeta id "job" "w1" "e1" false.

Lemma persisted_resource_found_again_witness :
  OpenStorage no_errors "e1" (QueryResource None "/local/r" {["/local/r" := row "/local/r"]}).1 None "w2" "job2" "/local/r"
    (OnWorkerClosed no_errors "w1" (Persist (mkHandle "/local/r" "r" "job" "w1" "e1") (Done tt) (opened "/local/r").2).2)
  = (Done (mkHandle "/local/r" "r" "job2" "w1" "e1"),
     OnWorkerClosed no_errors "w1" (Persist (mkHandle "/local/r" "r" "job" "w1" "e1") (Done tt) (opened "/local/r").2).2).
Proof.
  destruct (persisted_resource_found_again (DB:=DB) no_errors m0 fs0 "e1" "w1" "job" "r" ∅ {["/local/r" := row "/local/r"]}
    (mkHandle "/local/r" "r" "job" "w1" "e1") (opened "/local/r").2 "w2" "job2") as [[msg Hf]|Hok];
    [apply fs0_ok|repeat constructor; done|done|done|reflexivity|reflexivity|discriminate Hf|exact Hok].
Defined.

Lemma nested_resource_lost_witness :
  (OpenStorage no_errors "e1" (QueryResource None "/local/a/b" {["/local/a/b" := row "/local/a/b"]}).1 None "w2" "job2" "/local/a/b"
    (OnWorkerClosed no_errors "w1" (Persist (mkHandle "/local/a/b" "a/b" "job" "w1" "e1") (Done tt) (opened "/local/a/b").2).2)).1
  = Fail (GoErr ErrResourceDoesNotExist "a/b").
Proof.
  destruct (nested_resource_lost (DB:=DB) m0 fs0 "e1" "w1" "job" "a" "b" [] ∅ {["/local/a/b" := row "/local/a/b"]}
    (mkHandle "/local/a/b" "a/b" "job" "w1" "e1") (opened "/local/a/b").2 "w2" "job2") as [[msg Hf]|Hok];
    [apply fs0_ok|repeat constructor; done|done|repeat constructor; done|reflexivity|reflexivity|reflexivity|discriminate Hf|].
  exact (f_equal fst Hok).
Defined.

Lemma remove_resource_escapes_witness :
  ∃ m' fs', Broker_RemoveResource no_errors "/local/.." "w2" (m0, fs0) = (Done tt, (m', fs')) ∧ base ++ ["w1"; "tmp"] ∉ fs'.
Proof.
  destruct (remove_resource_escapes m0 fs0 "w2") as [_ H]; [done|]. destruct H as (m' & fs' & Hr & Hq).
  - apply elem_of_MkdirAll. left. by exists ["w1"; "tmp"].
  - exists m', fs'. split; [exact Hr|]. intros [_ Hn]%Hq. apply Hn. by exists ["w1"; "tmp"].
Defined.

Definition rows1 : DB := {["/local/r" := mkResourceMeta "/local/r" "job" "w1" "ex1" false]}.

Lemma task_placed_with_its_resources_witness :
  ScheduleTask (em_rescMgr Cluster.Witness.e2) (λ r, (GetPlacementConstraint (HasExecutor Cluster.Witness.e2) r rows1).1) ["ex2"; "ex1"]
    (mkSchedulerRequest 5 ["/local/r"; "/s3/b"]) = Done "ex1" ∧
  ∃ rec, resources rows1 !! "/local/r" = Some rec ∧ rm_Deleted rec = false ∧
    is_Some (em_executors Cluster.Witness.e2 !! rm_Executor rec) ∧ (rm_Executor rec ≠ "" → "ex1" = rm_Executor rec).
Proof.
  split; [vm_compute; reflexivity|].
  apply (task_placed_with_its_resources (em_rescMgr Cluster.Witness.e2) Cluster.Witness.e2 rows1 ["ex2"; "ex1"]
    (mkSchedulerRequest 5 ["/local/r"; "/s3/b"]) "ex1") with (name := "r"); [vm_compute; reflexivity|left|reflexivity].
Defined.

End Witness.
