(* ===== verification/Containers.v ===== *)
(** * FIFO queues ([pkg/containers])

    [SliceQueue] keeps its elements in a slice, recycles emptied slices through a
    pool, and has a channel of capacity one that signals a queue that is not
    empty. [Deque] forwards to a package outside of the repository, which is the
    class [DequeLib]. Both implement the interface [Queue]; clients are proved
    against its laws. *)

From S2P Require Import Prelude Errors.

(** ** The interface [Queue] *)

(** [q_choice] is what an operation leaves to the run time, [q_model] the elements
    in the order in which they leave. *)
Class Queue (Q T : Type) := {
  q_choice : Type;
  q_Push : q_choice → T → Q → Q;
  q_Pop : Go Q (option T);
  q_Peek : Q → res goerr (option T);
  q_Size : Q → nat;
  q_ok : Q → Prop;
  q_model : Q → list T;
  q_Push_law c x q : q_ok q → q_ok (q_Push c x q) ∧ q_model (q_Push c x q) = q_model q ++ [x];
  q_Pop_law q : q_ok q →
    ∃ q', q_Pop q = (Done (head (q_model q)), q') ∧ q_ok q' ∧ q_model q' = tail (q_model q);
  q_Peek_law q : q_ok q → q_Peek q = Done (head (q_model q));
  q_Size_law q : q_ok q → q_Size q = length (q_model q);
}.

(** ** [SliceQueue] *)

(** [None] is the nil slice; a slice in the pool was emptied; [sq_C] tells whether
    the channel holds a signal. *)
Record SliceQueue (T : Type) := mkSliceQueue {
  sq_elems : option (list T);
  sq_C : bool;
  sq_pool : list (list T);
}.
Arguments mkSliceQueue {T} _ _ _.
Arguments sq_elems {T} _.
Arguments sq_C {T} _.
Arguments sq_pool {T} _.

Section slice_queue.
Context {T : Type}.
Implicit Types q : SliceQueue T.

Definition NewSliceQueue : SliceQueue T := mkSliceQueue None false [].

(** The elements: the nil slice has none. *)
Definition elems q : list T := default [] (sq_elems q).

(** [sync.Pool.Get] hands out any pooled slice, or none: the pool may drop what it
    holds at any time. [i] is the one it hands out. *)
Definition pool_Get (i : option nat) (pool : list (list T)) : option (list T) * list (list T) :=
  match i with
  | None => (None, pool)
  | Some k => match pool !! k with
              | Some s => (Some s, take k pool ++ drop (S k) pool)
              | None => (None, pool)
              end
  end.

Definition allocateSlice (i : option nat) q : list T * SliceQueue T :=
  match pool_Get i (sq_pool q) with
  | (None, pool) => ([], mkSliceQueue (sq_elems q) (sq_C q) pool)
  | (Some s, pool) => (s, mkSliceQueue (sq_elems q) (sq_C q) pool)
  end.

(** [Push] up to the unlock; the result tells whether to signal. *)
Definition Push_locked (i : option nat) (elem : T) q : bool * SliceQueue T :=
  let signal := bool_decide (length (elems q) = 0) in
  let q1 :=
    match sq_elems q with
    | Some _ => q
    | None =>
        let '(s, q1) := allocateSlice i q in
        mkSliceQueue (Some (take 0 s)) (sq_C q1) (sq_pool q1)
    end in
  (signal, mkSliceQueue (Some (elems q1 ++ [elem])) (sq_C q1) (sq_pool q1)).

(** The send on the channel that does not block. *)
Definition trySignal q : SliceQueue T := mkSliceQueue (sq_elems q) true (sq_pool q).

Definition Push (i : option nat) (elem : T) q : SliceQueue T :=
  let '(signal, q1) := Push_locked i elem q in
  if signal then trySignal q1 else q1.

Definition freeSlice (s : list T) : Go (SliceQueue T) unit :=
  if bool_decide (length s ≠ 0) then panic
  else modify (λ q, mkSliceQueue (sq_elems q) (sq_C q) (s :: sq_pool q)).

Definition Pop : Go (SliceQueue T) (option T) := λ q,
  match elems q with
  | [] => (Done None, q)
  | ret :: rest =>
      let q1 := mkSliceQueue (Some rest) (sq_C q) (sq_pool q) in
      match rest with
      | [] => match freeSlice rest q1 with
              | (Done _, q2) => (Done (Some ret), mkSliceQueue None (sq_C q2) (sq_pool q2))
              | (Fail e, q2) => (Fail e, q2)
              | (Panic, q2) => (Panic, q2)
              end
      | _ => (Done (Some ret), trySignal q1)
      end
  end.

Definition Peek q : option T := match elems q with [] => None | x :: _ => Some x end.
Definition Size q : nat := length (elems q).

End slice_queue.
Arguments NewSliceQueue {T}.

(** ** [Deque] over the package [deque] *)

(** What the documentation of the package says; [PopFront] and [Front] panic on an
    empty deque. *)
Class DequeLib (D T : Type) := {
  dq_new : D;
  dq_PushBack : T → D → D;
  dq_PopFront : D → res goerr T * D;
  dq_Front : D → res goerr T;
  dq_Len : D → nat;
  dq_Empty : D → bool;
  dq_list : D → list T;
  dq_new_law : dq_list dq_new = [];
  dq_PushBack_law x d : dq_list (dq_PushBack x d) = dq_list d ++ [x];
  dq_PopFront_law d x l : dq_list d = x :: l → (dq_PopFront d).1 = Done x ∧ dq_list (dq_PopFront d).2 = l;
  dq_Front_law d x l : dq_list d = x :: l → dq_Front d = Done x;
  dq_Len_law d : dq_Len d = length (dq_list d);
  dq_Empty_law d : dq_Empty d = bool_decide (dq_list d = []);
}.

Section deque.
Context {D T : Type} `{!DequeLib D T}.

Definition NewDeque : D := dq_new.
Definition Deque_Push (elem : T) (d : D) : D := dq_PushBack elem d.

Definition Deque_Pop : Go D (option T) := λ d,
  if dq_Empty d then (Done None, d)
  else match dq_PopFront d with
       | (Done x, d') => (Done (Some x), d')
       | (Fail e, d') => (Fail e, d')
       | (Panic, d') => (Panic, d')
       end.

Definition Deque_Peek (d : D) : res goerr (option T) :=
  if dq_Empty d then Done None
  else match dq_Front d with Done x => Done (Some x) | Fail e => Fail e | Panic => Panic end.
Definition Deque_Size (d : D) : nat := dq_Len d.

End deque.

(** ** Specification: a list, and operations on it *)

Inductive qop (T : Type) : Type := OPush (x : T) | OPop | OPeek | OSize.
Arguments OPush {T} x.
Arguments OPop {T}.
Arguments OPeek {T}.
Arguments OSize {T}.

Inductive qres (T : Type) : Type := RPushed | RElem (x : option T) | RSize (n : nat) | RPanic.
Arguments RPushed {T}.
Arguments RElem {T} x.
Arguments RSize {T} n.
Arguments RPanic {T}.

Definition fifo_step {T} (op : qop T) (l : list T) : qres T * list T :=
  match op with
  | OPush x => (RPushed, l ++ [x])
  | OPop => (RElem (head l), tail l)
  | OPeek => (RElem (head l), l)
  | OSize => (RSize (length l), l)
  end.

Fixpoint run {S T} (step : S → qop T → qres T * S) (s : S) (ops : list (qop T)) : list (qres T) * S :=
  match ops with
  | [] => ([], s)
  | op :: ops' => let '(r, s1) := step s op in let '(rs, s2) := run step s1 ops' in (r :: rs, s2)
  end.

Definition queue_step {Q T} `{!Queue Q T} (c : Q → q_choice) (q : Q) (op : qop T) : qres T * Q :=
  match op with
  | OPush x => (RPushed, q_Push (c q) x q)
  | OPop => match q_Pop q with (Done x, q') => (RElem x, q') | (_, q') => (RPanic, q') end
  | OPeek => (match q_Peek q with Done x => RElem x | _ => RPanic end, q)
  | OSize => (RSize (q_Size q), q)
  end.

(** ** Lemmas *)

Section slice_queue_proofs.
Context {T : Type}.
Implicit Types q : SliceQueue T.

(** The pool has empty slices only. *)
Definition pool_ok q : Prop := Forall (λ s, s = []) (sq_pool q).

Lemma allocateSlice_ok i q :
  pool_ok q → (allocateSlice i q).1 = [] ∧ pool_ok (allocateSlice i q).2 ∧ sq_C (allocateSlice i q).2 = sq_C q.
Proof.
  unfold pool_ok, allocateSlice, pool_Get. intros Hp. destruct i as [k|]; [|done].
  destruct (sq_pool q !! k) as [s|] eqn:Hk; [|done]. simpl. split_and!; [|apply Forall_app; split|done].
  - by eapply (Forall_lookup_1 _ _ _ _ Hp).
  - by apply Forall_take.
  - by apply Forall_drop.
Qed.

Lemma Push_locked_ok i x q :
  pool_ok q →
  elems (Push_locked i x q).2 = elems q ++ [x] ∧ pool_ok (Push_locked i x q).2 ∧
  sq_C (Push_locked i x q).2 = sq_C q ∧ (Push_locked i x q).1 = bool_decide (elems q = []).
Proof.
  intros Hp. unfold Push_locked. destruct (sq_elems q) as [l|] eqn:Hl; simpl.
  - unfold elems. rewrite Hl. simpl. split_and!; [done..|]. apply bool_decide_ext, length_zero_iff_nil.
  - pose proof (allocateSlice_ok i q Hp) as (Hs & Hpo & HC). destruct (allocateSlice i q) as [s q1]; simpl in *.
    unfold elems. rewrite Hl. simpl. done.
Qed.

Lemma Push_ok i x q : pool_ok q → elems (Push i x q) = elems q ++ [x] ∧ pool_ok (Push i x q).
Proof.
  intros Hp. unfold Push. pose proof (Push_locked_ok i x q Hp) as (He & Hpo & _).
  destruct (Push_locked i x q) as [[] q1]; done.
Qed.

Lemma Pop_ok q :
  pool_ok q →
  ∃ q', Pop q = (Done (head (elems q)), q') ∧ pool_ok q' ∧ elems q' = tail (elems q) ∧
    sq_C q' = bool_decide (tail (elems q) ≠ []) || sq_C q.
Proof.
  intros Hp. unfold Pop. destruct (elems q) as [|x [|y l]] eqn:He; simpl.
  - exists q. by rewrite He.
  - eexists. split_and!; [done|by apply Forall_cons|done|done].
  - eexists. split_and!; done.
Qed.

#[global] Program Instance SliceQueue_Queue : Queue (SliceQueue T) T := {|
  q_choice := option nat; q_Push := Push; q_Pop := Pop; q_Peek q := Done (Peek q); q_Size := Size;
  q_ok := pool_ok; q_model := elems;
|}.
Next Obligation. intros c x q Hq. by destruct (Push_ok c x q Hq). Qed.
Next Obligation. intros q Hq. destruct (Pop_ok q Hq) as (q' & ? & ? & ? & _). by exists q'. Qed.
Next Obligation. intros q _. unfold Peek. by destruct (elems q). Qed.
Next Obligation. done. Qed.

End slice_queue_proofs.

#[global] Program Instance Deque_Queue {D T} `{!DequeLib D T} : Queue D T := {|
  q_choice := unit; q_Push _ := Deque_Push; q_Pop := Deque_Pop; q_Peek := Deque_Peek; q_Size := Deque_Size;
  q_ok _ := True; q_model := dq_list;
|}.
Next Obligation. intros D T ? c x d _. split; [done|apply dq_PushBack_law]. Qed.
Next Obligation.
  intros D T ? d _. unfold Deque_Pop. rewrite dq_Empty_law. case_bool_decide as He.
  - exists d. rewrite He. done.
  - destruct (dq_list d) as [|x l] eqn:Hd; [done|]. destruct (dq_PopFront_law d x l Hd) as [H1 H2].
    destruct (dq_PopFront d) as [r d']; simpl in *; subst r. by exists d'.
Qed.
Next Obligation.
  intros D T ? d _. unfold Deque_Peek. rewrite dq_Empty_law. case_bool_decide as He; [by rewrite He|].
  destruct (dq_list d) as [|x l] eqn:Hd; [done|]. by rewrite (dq_Front_law d x l Hd).
Qed.
Next Obligation. intros D T ? d _. apply dq_Len_law. Qed.

(** Every implementation of the interface behaves as the list. *)
Lemma queue_run_eq {Q T} `{!Queue Q T} c ops q :
  q_ok q →
  (run (queue_step c) q ops).1 = (run (λ l op, fifo_step op l) (q_model q) ops).1 ∧
  q_model (run (queue_step c) q ops).2 = (run (λ l op, fifo_step op l) (q_model q) ops).2.
Proof.
  revert q. induction ops as [|op ops IH]; intros q Hq; [done|]. simpl.
  assert (∃ q1, queue_step c q op = ((fifo_step op (q_model q)).1, q1) ∧ q_ok q1 ∧ q_model q1 = (fifo_step op (q_model q)).2)
    as (q1 & Hs & Hok & Hm).
  { destruct op as [x| | |]; simpl.
    - destruct (q_Push_law (c q) x q Hq). eauto.
    - destruct (q_Pop_law q Hq) as (q1 & -> & ? & ?). eauto.
    - rewrite q_Peek_law by done. eauto.
    - rewrite q_Size_law by done. eauto. }
  rewrite Hs. destruct (fifo_step op (q_model q)) as [r l1]; simpl in *. subst l1.
  destruct (IH q1 Hok) as [H1 H2]. destruct (run (queue_step c) q1 ops) as [rs q2], (run _ (q_model q1) ops) as [rs' l2].
  simpl in *. by subst.
Qed.

(** ** Producers and a consumer

    Producers push; each is between its unlock and its signal for a while
    ([s_pending]). The consumer waits for the channel, then pops until the queue is
    empty, as the comment on the channel asks. *)

Record Sys (T : Type) := mkSys {
  s_q : SliceQueue T;
  s_pending : nat;
  s_draining : bool;
  s_pushed : list T;
  s_popped : list T;
}.
Arguments mkSys {T} _ _ _ _ _.
Arguments s_q {T} _.
Arguments s_pending {T} _.
Arguments s_draining {T} _.
Arguments s_pushed {T} _.
Arguments s_popped {T} _.

Definition sys0 {T} : Sys T := mkSys NewSliceQueue 0 false [] [].

Definition withC {T} (c : bool) (q : SliceQueue T) : SliceQueue T := mkSliceQueue (sq_elems q) c (sq_pool q).

Inductive push_step {T} : Sys T → Sys T → Prop :=
| do_push i x q q' p d signal pushed popped :
    Push_locked i x q = (signal, q') →
    push_step (mkSys q p d pushed popped) (mkSys q' (if signal then S p else p) d (pushed ++ [x]) popped).

(** The steps that follow without a new push. *)
Inductive own_step {T} : Sys T → Sys T → Prop :=
| do_signal q p d pushed popped :
    own_step (mkSys q (S p) d pushed popped) (mkSys (trySignal q) p d pushed popped)
| do_receive q p pushed popped :
    sq_C q = true →
    own_step (mkSys q p false pushed popped) (mkSys (withC false q) p true pushed popped)
| do_pop q q' p x pushed popped :
    Pop q = (Done (Some x), q') →
    own_step (mkSys q p true pushed popped) (mkSys q' p true pushed (popped ++ [x]))
| do_pop_empty q q' p pushed popped :
    Pop q = (Done None, q') →
    own_step (mkSys q p true pushed popped) (mkSys q' p false pushed popped).

Definition sys_step {T} (s s' : Sys T) : Prop := push_step s s' ∨ own_step s s'.

Section consumer.
Context {T : Type}.
Implicit Types s : Sys T.

(** A queue that is not empty has a signal, a producer about to signal, or a
    consumer at work. *)
Definition sys_inv s : Prop :=
  pool_ok (s_q s) ∧ s_popped s ++ elems (s_q s) = s_pushed s ∧
  (elems (s_q s) ≠ [] → sq_C (s_q s) = true ∨ 0 < s_pending s ∨ s_draining s = true).

Lemma sys_inv_step s s' : sys_inv s → sys_step s s' → sys_inv s'.
Proof.
  intros (Hp & He & Hw) [Hs|Hs];
    [destruct Hs as [i x q q' p d signal pushed popped Hpush]
    |destruct Hs as [q p d pushed popped|q p pushed popped HC|q q' p x pushed popped Hpop|q q' p pushed popped Hpop]];
    unfold sys_inv; cbn [s_q s_pending s_draining s_pushed s_popped] in *.
  - pose proof (Push_locked_ok i x q Hp) as (Hel & Hpo & HC & Hsig). rewrite Hpush in *. simpl in *.
    rewrite Hel, HC. split_and!; [done|by rewrite app_assoc, He|]. intros _.
    rewrite Hsig. case_bool_decide as Hnil; [right; left; lia|]. auto.
  - split_and!; [done|done|by left].
  - split_and!; [done|done|by auto].
  - destruct (Pop_ok q Hp) as (q2 & Hq2 & Hpo & Hel & HC). rewrite Hpop in Hq2. simplify_eq.
    split_and!; [done| |by auto]. rewrite Hel. destruct (elems q) as [|y l]; [done|]. simpl in *. simplify_eq. by rewrite <- app_assoc.
  - destruct (Pop_ok q Hp) as (q2 & Hq2 & Hpo & Hel & HC). rewrite Hpop in Hq2. simplify_eq.
    destruct (elems q) as [|y l] eqn:Hnil; [|done]. split_and!; [done| |]; rewrite Hel; done.
Qed.

Lemma sys_inv_reachable s : rtc sys_step sys0 s → sys_inv s.
Proof.
  intros Hr. assert (sys_inv (sys0 (T:=T))) as H0 by (split_and!; [constructor|done|done]).
  revert Hr H0. induction 1 as [|s1 s2 s3 H12 _ IH]; intros H1; [done|]. apply IH. by eapply sys_inv_step.
Qed.

(** The work that is left when no one pushes any more. *)
Definition work s : nat :=
  3 * length (elems (s_q s)) + 3 * s_pending s + (if sq_C (s_q s) then 2 else 0) + (if s_draining s then 1 else 0).

Lemma own_step_work s s' : pool_ok (s_q s) → own_step s s' → work s' < work s.
Proof.
  intros Hp Hs. destruct Hs as [q p d ? ?|q p ? ? HC|q q' p x ? ? Hpop|q q' p ? ? Hpop]; unfold work; simpl in *.
  - fold (elems q). unfold elems. simpl. destruct (sq_C q), d; lia.
  - unfold elems. simpl. rewrite HC. lia.
  - destruct (Pop_ok q Hp) as (q2 & Hq2 & _ & Hel & HC). rewrite Hpop in Hq2. simplify_eq.
    rewrite Hel, HC. destruct (elems q) as [|y [|z l]]; [done|simpl..]; destruct (sq_C q); simpl; lia.
  - destruct (Pop_ok q Hp) as (q2 & Hq2 & _ & Hel & HC). rewrite Hpop in Hq2. simplify_eq.
    rewrite Hel, HC. destruct (elems q) as [|y l]; [|done]. simpl. destruct (sq_C q); lia.
Qed.

(** The consumer waits without a signal, and no producer is about to give one,
    only when every element was consumed. *)
Lemma asleep_means_drained s :
  sys_inv s → (∀ s', ¬ own_step s s') → s_popped s = s_pushed s.
Proof.
  intros (Hp & He & Hw) Hstuck. destruct s as [q p d pushed popped]. simpl in *.
  destruct p as [|p]; [|exfalso; by eapply Hstuck; constructor].
  destruct d.
  - exfalso. destruct (Pop_ok q Hp) as (q' & Hq' & _). destruct (head (elems q)); eapply Hstuck; [by apply do_pop|by apply do_pop_empty].
  - destruct (sq_C q) eqn:HC; [exfalso; by eapply Hstuck, do_receive|].
    destruct (elems q) as [|x l]; [by rewrite app_nil_r in He|]. destruct Hw as [?|[?|?]]; [done|done|lia|done].
Qed.

End consumer.

(** ** Theorems *)

(** C34: a slice queue is a FIFO queue: whatever slices the pool hands out, any
    sequence of pushes, pops, peeks and size queries on a new queue gives the
    results it gives on a list, and none panics. *)
Theorem slice_queue_refines_fifo {T} (c : SliceQueue T → option nat) ops :
  (run (queue_step c) NewSliceQueue ops).1 = (run (λ l op, fifo_step op l) [] ops).1.
Proof. apply (@queue_run_eq _ _ SliceQueue_Queue c ops NewSliceQueue). constructor. Qed.

(** No wake-up is lost. However pushes, signals and the consumer interleave, the
    elements leave the queue in the order in which they entered; when pushing
    stops, every execution ends after at most [work] steps, and only when the
    consumer has taken every element. *)
Theorem slice_queue_drains {T} (s : Sys T) :
  rtc sys_step sys0 s →
  s_popped s `prefix_of` s_pushed s ∧
  ∀ n s', nsteps own_step n s s' → n ≤ work s ∧ ((∀ s'', ¬ own_step s' s'') → s_popped s' = s_pushed s).
Proof.
  intros Hr%sys_inv_reachable. split; [destruct Hr as (_ & <- & _); by eexists|].
  intros n s' Hn. assert (n + work s' ≤ work s ∧ sys_inv s' ∧ s_pushed s' = s_pushed s) as (Hw & Hinv & Hpu).
  { revert Hr. induction Hn as [s|n s1 s2 s3 H12 _ IH]; intros Hr; [done|].
    destruct IH as (Hw & Hi & Hpu); [by eapply sys_inv_step; [|right]|].
    pose proof (own_step_work s1 s2 (proj1 Hr) H12). split_and!; [lia|done|]. rewrite Hpu. by destruct H12. }
  split; [lia|]. intros Hstuck. rewrite <- Hpu. by apply asleep_means_drained.
Qed.

Module Witness.

(** The list as a deque package. *)
#[global] Program Instance list_deque {T} : DequeLib (list T) T := {|
  dq_new := []; dq_PushBack x d := d ++ [x];
  dq_PopFront d := match d with [] => (Panic, d) | x :: l => (Done x, l) end;
  dq_Front d := match d with [] => Panic | x :: _ => Done x end;
  dq_Len := length; dq_Empty d := bool_decide (length d = 0); dq_list d := d;
|}.
Next Obligation. done. Qed.
Next Obligation. done. Qed.
Next Obligation. by intros T d x l ->. Qed.
Next Obligation. by intros T d x l ->. Qed.
Next Obligation. done. Qed.
Next Obligation. intros T d. apply bool_decide_ext, length_zero_iff_nil. Qed.

(** Two elements pushed, one signal given, none consumed. *)
Definition s2 : Sys nat := mkSys (mkSliceQueue (Some [1; 2]) true []) 0 false [1; 2] [].

Lemma s2_reachable : rtc sys_step sys0 s2.
Proof.
  eapply rtc_l; [left; by apply (do_push None 1)|]. eapply rtc_l; [left; by apply (do_push None 2)|].
  eapply rtc_l; [right; apply do_signal|]. apply rtc_refl.
Qed.

Lemma slice_queue_drains_witness :
  [] `prefix_of` [1; 2] ∧ ∀ n s', nsteps own_step n s2 s' → n ≤ 8 ∧ ((∀ s'', ¬ own_step s' s'') → s_popped s' = [1; 2]).
Proof. apply (slice_queue_drains s2). apply s2_reachable. Defined.

End Witness.
