(* ===== verification/Notifier.v ===== *)
(** * The notifier ([pkg/notifier/notifier.go])

    A notifier broadcasts events to receivers. Its goroutine [run], the callers of
    [Notify], [Close] and [Flush] and the users of the receivers run concurrently:
    the model has a label for every step between two synchronisations, and [step]
    is the state after the step, or [None] when the step blocks. [sync.Map.Range]
    promises to visit what is in the map throughout, and nothing twice; what is
    stored or deleted meanwhile may be visited or not. The channels of the receivers
    hold 16 events. *)

From S2P Require Import Prelude Errors Containers.

Abbreviation receiverID := Z.

(** How far the function under [closeOnce] has come. *)
Inductive close_pc : Type := CNot | CWaiting | CPassed | CChanClosed | CDone.

#[global] Instance close_pc_eq_dec : EqDecision close_pc.
Proof. solve_decision. Defined.

(** [r_read] is what the user has read from the channel so far, [r_from] the number
    of events that had left the queue when the receiver was made. *)
Record Receiver (T : Type) := mkReceiver {
  r_C : list T;
  r_chanClosed : bool;
  r_closed : bool;
  r_once : close_pc;
  r_read : list T;
  r_from : nat;
}.
Arguments mkReceiver {T} _ _ _ _ _ _.
Arguments r_C {T} _.
Arguments r_chanClosed {T} _.
Arguments r_closed {T} _.
Arguments r_once {T} _.
Arguments r_read {T} _.
Arguments r_from {T} _.

(** Where [run] is: at its select; about to pop; ranging over the receivers with an
    event, with the receivers it has to visit and those it has visited; at the
    select that sends to a receiver; at the check of [closeCh]; returned. *)
Inductive run_pc (T : Type) : Type :=
| RTop
| RInner
| RRange (event : T) (must visited : gset receiverID)
| RSelect (event : T) (must visited : gset receiverID) (id : receiverID)
| RCheck
| RExited.
Arguments RTop {T}.
Arguments RInner {T}.
Arguments RRange {T} _ _ _.
Arguments RSelect {T} _ _ _ _.
Arguments RCheck {T}.
Arguments RExited {T}.

Inductive flush_pc : Type := FNone | FWaiting | FPassed | FReturned.

(** [n_objs] are the receivers ever made, [n_receivers] those in the map. *)
Record Notifier (T : Type) := mkNotifier {
  n_queue : SliceQueue T;
  n_pending : nat;
  n_nextID : receiverID;
  n_objs : gmap receiverID (Receiver T);
  n_receivers : gset receiverID;
  n_closed : bool;
  n_closeCh : bool;
  n_syncClosed : bool;
  n_pc : run_pc T;
  n_flush : flush_pc;
  n_panic : bool;
  n_pushed : list T;
  n_popped : list T;
}.
Arguments mkNotifier {T} _ _ _ _ _ _ _ _ _ _ _ _ _.
Arguments n_queue {T} _.
Arguments n_pending {T} _.
Arguments n_nextID {T} _.
Arguments n_objs {T} _.
Arguments n_receivers {T} _.
Arguments n_closed {T} _.
Arguments n_closeCh {T} _.
Arguments n_syncClosed {T} _.
Arguments n_pc {T} _.
Arguments n_flush {T} _.
Arguments n_panic {T} _.
Arguments n_pushed {T} _.
Arguments n_popped {T} _.

Section notifier.
Context {T : Type}.
Implicit Types n : Notifier T.

Definition NewNotifier : Notifier T :=
  mkNotifier NewSliceQueue 0 0 ∅ ∅ false false false RTop FNone false [] [].

Definition set_queue n q pending pushed : Notifier T :=
  mkNotifier q pending (n_nextID n) (n_objs n) (n_receivers n) (n_closed n) (n_closeCh n) (n_syncClosed n) (n_pc n)
    (n_flush n) (n_panic n) pushed (n_popped n).
Definition set_pc n pc : Notifier T :=
  mkNotifier (n_queue n) (n_pending n) (n_nextID n) (n_objs n) (n_receivers n) (n_closed n) (n_closeCh n)
    (n_syncClosed n) pc (n_flush n) (n_panic n) (n_pushed n) (n_popped n).
Definition set_obj n id r : Notifier T :=
  mkNotifier (n_queue n) (n_pending n) (n_nextID n) (<[id := r]> (n_objs n)) (n_receivers n) (n_closed n) (n_closeCh n)
    (n_syncClosed n) (n_pc n) (n_flush n) (n_panic n) (n_pushed n) (n_popped n).
Definition set_receivers n rs : Notifier T :=
  mkNotifier (n_queue n) (n_pending n) (n_nextID n) (n_objs n) rs (n_closed n) (n_closeCh n)
    (n_syncClosed n) (n_pc n) (n_flush n) (n_panic n) (n_pushed n) (n_popped n).
Definition set_flush n f : Notifier T :=
  mkNotifier (n_queue n) (n_pending n) (n_nextID n) (n_objs n) (n_receivers n) (n_closed n) (n_closeCh n)
    (n_syncClosed n) (n_pc n) f (n_panic n) (n_pushed n) (n_popped n).
Definition set_panic n : Notifier T :=
  mkNotifier (n_queue n) (n_pending n) (n_nextID n) (n_objs n) (n_receivers n) (n_closed n) (n_closeCh n)
    (n_syncClosed n) (n_pc n) (n_flush n) true (n_pushed n) (n_popped n).

(** ** Callers *)

Definition Notify_locked (i : option nat) (event : T) n : Notifier T :=
  let '(signal, q) := Push_locked i event (n_queue n) in
  set_queue n q (if signal then S (n_pending n) else n_pending n) (n_pushed n ++ [event]).

Definition Notify_signal n : option (Notifier T) :=
  match n_pending n with
  | 0 => None
  | S p => Some (set_queue n (trySignal (n_queue n)) p (n_pushed n))
  end.

(** The counter does not run into its width: identifiers are not reused. *)
Definition NewReceiver n : Notifier T :=
  let id := (n_nextID n + 1)%Z in
  mkNotifier (n_queue n) (n_pending n) id
    (<[id := mkReceiver [] false false CNot [] (length (n_popped n))]> (n_objs n)) ({[id]} ∪ n_receivers n)
    (n_closed n) (n_closeCh n) (n_syncClosed n) (n_pc n) (n_flush n) (n_panic n) (n_pushed n) (n_popped n).

(** The user of a receiver reads an event. *)
Definition Receive (id : receiverID) n : option (Notifier T) :=
  match n_objs n !! id with
  | Some r =>
      match r_C r with
      | [] => None
      | x :: c => Some (set_obj n id (mkReceiver c (r_chanClosed r) (r_closed r) (r_once r) (r_read r ++ [x]) (r_from r)))
      end
  | None => None
  end.

Definition set_once (r : Receiver T) (closed chanClosed : bool) (pc : close_pc) : Receiver T :=
  mkReceiver (r_C r) chanClosed closed pc (r_read r) (r_from r).

(** A receive from [synchronizeCh]: [run] is at its select, or the channel is
    closed. *)
Definition barrier n : bool :=
  n_syncClosed n || match n_pc n with RTop => true | _ => false end.

(** [Receiver.Close], step by step; a second call waits for the first one. *)
Definition Receiver_Close (id : receiverID) n : option (Notifier T) :=
  match n_objs n !! id with
  | None => None
  | Some r =>
      match r_once r with
      | CNot => Some (set_obj n id (set_once r true (r_chanClosed r) CWaiting))
      | CWaiting => if barrier n then Some (set_obj n id (set_once r (r_closed r) (r_chanClosed r) CPassed)) else None
      | CPassed =>
          if r_chanClosed r then Some (set_panic n)
          else Some (set_obj n id (set_once r (r_closed r) true CChanClosed))
      | CChanClosed =>
          Some (set_receivers (set_obj n id (set_once r (r_closed r) (r_chanClosed r) CDone)) (n_receivers n ∖ {[id]}))
      | CDone => None
      end
  end.

(** [Notifier.Close] up to its wait for [run]; afterwards it closes the receivers. *)
Definition Notifier_Close n : Notifier T :=
  if n_closed n then n
  else mkNotifier (n_queue n) (n_pending n) (n_nextID n) (n_objs n) (n_receivers n) true true
         (n_syncClosed n) (n_pc n) (n_flush n) (n_panic n || n_closeCh n) (n_pushed n) (n_popped n).

(** [Flush], step by step. *)
Definition Flush n : option (Notifier T) :=
  match n_flush n with
  | FNone => Some (set_flush n FWaiting)
  | FWaiting => if barrier n then Some (set_flush n FPassed) else None
  | FPassed => Some (set_flush n (if bool_decide (Size (n_queue n) = 0) then FReturned else FWaiting))
  | FReturned => None
  end.

(** ** [run] *)

Definition exit_run n : Notifier T :=
  mkNotifier (n_queue n) (n_pending n) (n_nextID n) (n_objs n) (n_receivers n) (n_closed n) (n_closeCh n)
    true RExited (n_flush n) (n_panic n || n_syncClosed n) (n_pushed n) (n_popped n).

(** The case [<-n.closeCh] of the select. *)
Definition run_close n : option (Notifier T) :=
  match n_pc n with RTop => if n_closeCh n then Some (exit_run n) else None | _ => None end.

(** The case [<-n.queue.C]. *)
Definition run_wake n : option (Notifier T) :=
  match n_pc n with
  | RTop => if sq_C (n_queue n) then Some (set_pc (set_queue n (withC false (n_queue n)) (n_pending n) (n_pushed n)) RInner) else None
  | _ => None
  end.

Definition run_pop n : option (Notifier T) :=
  match n_pc n with
  | RInner =>
      match Pop (n_queue n) with
      | (Done None, q) => Some (set_pc (set_queue n q (n_pending n) (n_pushed n)) RTop)
      | (Done (Some event), q) =>
          Some (mkNotifier q (n_pending n) (n_nextID n) (n_objs n) (n_receivers n) (n_closed n) (n_closeCh n)
                  (n_syncClosed n) (RRange event (n_receivers n) ∅) (n_flush n) (n_panic n) (n_pushed n)
                  (n_popped n ++ [event]))
      | (_, _) => Some (set_panic n)
      end
  | _ => None
  end.

(** The callback of [Range] on a receiver, up to its select. *)
Definition run_visit (id : receiverID) n : option (Notifier T) :=
  match n_pc n with
  | RRange event must visited =>
      if bool_decide (id ∈ n_receivers n ∧ id ∉ visited) then
        match n_objs n !! id with
        | Some r => if r_closed r then Some (set_pc n (RRange event must ({[id]} ∪ visited)))
                    else Some (set_pc n (RSelect event must visited id))
        | None => None
        end
      else None
  | _ => None
  end.

(** The case [receiver.C <- event]: a send on a closed channel panics. *)
Definition run_send n : option (Notifier T) :=
  match n_pc n with
  | RSelect event must visited id =>
      match n_objs n !! id with
      | Some r =>
          if r_chanClosed r then Some (set_panic n)
          else if bool_decide (length (r_C r) < 16) then
            Some (set_pc (set_obj n id (mkReceiver (r_C r ++ [event]) (r_chanClosed r) (r_closed r) (r_once r) (r_read r) (r_from r)))
                    (RRange event must ({[id]} ∪ visited)))
          else None
      | None => None
      end
  | _ => None
  end.

(** The case [<-n.closeCh], which ends the [Range]. *)
Definition run_stop n : option (Notifier T) :=
  match n_pc n with RSelect _ _ _ _ => if n_closeCh n then Some (set_pc n RCheck) else None | _ => None end.

Definition run_range_end n : option (Notifier T) :=
  match n_pc n with
  | RRange event must visited => if bool_decide (must ∩ n_receivers n ⊆ visited) then Some (set_pc n RCheck) else None
  | _ => None
  end.

Definition run_check n : option (Notifier T) :=
  match n_pc n with RCheck => Some (if n_closeCh n then exit_run n else set_pc n RInner) | _ => None end.

(** ** All steps *)

Inductive label : Type :=
| LNotify (i : option nat) (event : T)
| LSignal
| LNewReceiver
| LReceive (id : receiverID)
| LReceiverClose (id : receiverID)
| LNotifierClose
| LFlush
| LFlushCancel
| LRunClose
| LRunWake
| LRunPop
| LRunVisit (id : receiverID)
| LRunSend
| LRunStop
| LRunRangeEnd
| LRunCheck.

Definition step (l : label) n : option (Notifier T) :=
  match l with
  | LNotify i event => Some (Notify_locked i event n)
  | LSignal => Notify_signal n
  | LNewReceiver => Some (NewReceiver n)
  | LReceive id => Receive id n
  | LReceiverClose id => Receiver_Close id n
  | LNotifierClose => Some (Notifier_Close n)
  | LFlush => Flush n
  | LFlushCancel => match n_flush n with FWaiting => Some (set_flush n FNone) | _ => None end
  | LRunClose => run_close n
  | LRunWake => run_wake n
  | LRunPop => run_pop n
  | LRunVisit id => run_visit id n
  | LRunSend => run_send n
  | LRunStop => run_stop n
  | LRunRangeEnd => run_range_end n
  | LRunCheck => run_check n
  end.

Fixpoint steps (ls : list label) n : option (Notifier T) :=
  match ls with [] => Some n | l :: ls' => step l n ≫= steps ls' end.

End notifier.
Arguments label : clear implicits.
Arguments NewNotifier {T}.

(** ** Safety *)

Section safety.
Context {T : Type}.
Implicit Types (n : Notifier T) (r : Receiver T).

Definition receiver_ok r : Prop :=
  (r_closed r = false ↔ r_once r = CNot) ∧ (r_chanClosed r = true ↔ r_once r = CChanClosed ∨ r_once r = CDone).

(** The event a [Range] sends was popped last; the receivers it deals with exist; the one it is about to send to has not
    passed the barrier of its [Close]. *)
Definition pc_ok n : Prop :=
  match n_pc n with
  | RRange event must visited =>
      last (n_popped n) = Some event ∧ ∀ id, id ∈ must ∪ visited → (id ≤ n_nextID n)%Z
  | RSelect event must visited id =>
      last (n_popped n) = Some event ∧ (∀ id, id ∈ must ∪ visited → (id ≤ n_nextID n)%Z) ∧
      ∃ r, n_objs n !! id = Some r ∧ (r_once r = CNot ∨ r_once r = CWaiting)
  | _ => True
  end.

Record safe n : Prop := {
  safe_panic : n_panic n = false;
  safe_pool : pool_ok (n_queue n);
  safe_fifo : n_popped n ++ elems (n_queue n) = n_pushed n;
  safe_close : n_closeCh n = n_closed n;
  safe_sync : n_syncClosed n = true ↔ n_pc n = RExited;
  safe_objs : ∀ id r, n_objs n !! id = Some r → receiver_ok r ∧ (id ≤ n_nextID n)%Z ∧ (r_once r ≠ CDone → id ∈ n_receivers n);
  safe_map : ∀ id, id ∈ n_receivers n → is_Some (n_objs n !! id);
  safe_pc : pc_ok n;
}.

Lemma safe_new : safe NewNotifier.
Proof. split; try done. apply Forall_nil_2. Qed.

Lemma safe_receivers n id : safe n → id ∈ n_receivers n → (id ≤ n_nextID n)%Z.
Proof. intros Hn Hid. destruct (safe_map n Hn id Hid) as [r Hr]. by destruct (safe_objs n Hn id r Hr) as (_ & ? & _). Qed.

(** Changing one receiver so that it stays well-formed. *)
Lemma safe_set_obj n id r r' :
  safe n → n_objs n !! id = Some r → receiver_ok r' → (r_once r' ≠ CDone → r_once r ≠ CDone) →
  (∀ e must vis, n_pc n = RSelect e must vis id → r_once r' = CNot ∨ r_once r' = CWaiting) →
  safe (set_obj n id r').
Proof.
  intros Hn Hr Hok Hcl Hpc. destruct Hn as [H1 H2 H3 H4 H5 H6 H7 H8]. split; try done; simpl.
  - intros id' r0. destruct (decide (id = id')) as [<-|Hne].
    + rewrite lookup_insert_eq. intros [= <-]. destruct (H6 id r Hr) as (_ & ? & ?). auto.
    + rewrite lookup_insert_ne by done. apply H6.
  - intros id' Hid. destruct (decide (id = id')) as [<-|Hne]; [rewrite lookup_insert_eq; by eexists|].
    rewrite lookup_insert_ne by done. by apply H7.
  - unfold pc_ok in *. simpl. destruct (n_pc n) as [| |e must vis|e must vis id'| |]; try done.
    destruct H8 as (Hl & Hids & r0 & Hr0 & Ho). split_and!; [done..|]. destruct (decide (id = id')) as [<-|Hne].
    + exists r'. rewrite lookup_insert_eq. by eauto.
    + exists r0. by rewrite lookup_insert_ne.
Qed.

Lemma safe_set_pc n pc :
  safe n → n_pc n ≠ RExited → pc ≠ RExited → pc_ok (set_pc n pc) → safe (set_pc n pc).
Proof. intros [H1 H2 H3 H4 H5 H6 H7 H8] Hne Hne' Hpc. split; try done. simpl. rewrite H5. naive_solver. Qed.

Lemma barrier_pc n id e must vis : safe n → barrier n = true → n_pc n ≠ RSelect e must vis id.
Proof.
  intros Hn. unfold barrier. destruct (n_syncClosed n) eqn:Hs.
  - apply (safe_sync n Hn) in Hs. by rewrite Hs.
  - destruct (n_pc n); naive_solver.
Qed.

Lemma safe_Receiver_Close id n n' : safe n → Receiver_Close id n = Some n' → safe n'.
Proof.
  intros Hn. unfold Receiver_Close. destruct (n_objs n !! id) as [r|] eqn:Hr; [|done].
  destruct (safe_objs n Hn id r Hr) as ((Hcl & Hch) & Hid & Hin).
  assert (∀ e must vis, n_pc n = RSelect e must vis id → r_once r = CNot ∨ r_once r = CWaiting) as Hsel.
  { intros e must vis Hpc. pose proof (safe_pc n Hn) as Hok. unfold pc_ok in Hok. rewrite Hpc in Hok.
    destruct Hok as (_ & _ & r0 & Hr0 & ?). by simplify_eq. }
  destruct (r_once r) eqn:Ho; [| | | |done].
  - intros [= <-]. eapply safe_set_obj; [done|done| |simpl; congruence|by right]. split; naive_solver.
  - destruct (barrier n) eqn:Hb; [|done]. intros [= <-]. eapply safe_set_obj; [done|done| |simpl; congruence|].
    + split; simpl; [naive_solver|]. rewrite Hch. naive_solver.
    + intros e must vis Hpc. by apply (barrier_pc n id e must vis) in Hb.
  - destruct (r_chanClosed r) eqn:Hcc; [naive_solver|]. intros [= <-]. eapply safe_set_obj; [done|done| |simpl; congruence|].
    + split; simpl; naive_solver.
    + intros e must vis Hpc. naive_solver.
  - intros [= <-]. assert (safe (set_obj n id (set_once r (r_closed r) (r_chanClosed r) CDone))) as Hs.
    { eapply safe_set_obj; [done|done| |simpl; congruence|].
      - split; simpl; [naive_solver|]. rewrite Hch. naive_solver.
      - intros e must vis Hpc. naive_solver. }
    destruct Hs as [H1 H2 H3 H4 H5 H6 H7 H8]. split; try done; simpl.
    + intros id' r' Hr'. destruct (H6 id' r' Hr') as (? & ? & Hin'). split_and!; [done..|]. intros Hc. apply elem_of_difference.
      split; [by apply Hin'|]. intros ->%elem_of_singleton. simpl in Hr'. rewrite lookup_insert_eq in Hr'. simplify_eq.
    + intros id' [Hid' _]%elem_of_difference. by apply H7.
Qed.

Lemma safe_set_queue n q p pushed :
  safe n → pool_ok q → n_popped n ++ elems q = pushed → safe (set_queue n q p pushed).
Proof. intros [H1 H2 H3 H4 H5 H6 H7 H8] Hq He. by split. Qed.

Lemma safe_call l n n' :
  safe n → step l n = Some n' →
  match l with LRunClose | LRunWake | LRunPop | LRunVisit _ | LRunSend | LRunStop | LRunRangeEnd | LRunCheck => True | _ => safe n' end.
Proof.
  intros Hn. destruct l as [i e| | |id|id| | | | | | |id| | | |]; simpl; try done.
  - intros [= <-]. unfold Notify_locked. pose proof (Push_locked_ok i e (n_queue n) (safe_pool n Hn)) as (He & Hp & _).
    destruct (Push_locked i e (n_queue n)) as [s q]; simpl in *. apply safe_set_queue; [done|done|].
    by rewrite He, app_assoc, (safe_fifo n Hn).
  - unfold Notify_signal. destruct (n_pending n); [done|]. intros [= <-]. apply safe_set_queue; [done|apply Hn..].
  - intros [= <-]. destruct Hn as [H1 H2 H3 H4 H5 H6 H7 H8]. split; try done; simpl.
    + intros id r. destruct (decide (id = (n_nextID n + 1)%Z)) as [->|Hne].
      * rewrite lookup_insert_eq. intros [= <-]. split_and!; [by split; simpl; naive_solver|done|set_solver].
      * rewrite lookup_insert_ne by done. intros Hr. destruct (H6 id r Hr) as (? & ? & ?). split_and!; [done|lia|set_solver].
    + intros id [->%elem_of_singleton|Hid]%elem_of_union; [rewrite lookup_insert_eq; by eexists|].
      destruct (H7 id Hid) as [r Hr]. destruct (H6 id r Hr) as (_ & ? & _). rewrite lookup_insert_ne by lia. by exists r.
    + unfold pc_ok in *. simpl. destruct (n_pc n) as [| |e must vis|e must vis id'| |]; try done.
      * destruct H8 as [Hl H8]. split; [done|]. intros id Hid. specialize (H8 id Hid). lia.
      * destruct H8 as (Hl & Hids & r0 & Hr0 & Ho). split_and!; [done|intros id Hid; specialize (Hids id Hid); lia|].
        exists r0. destruct (H6 id' r0 Hr0) as (_ & ? & _). rewrite lookup_insert_ne by lia. done.
  - unfold Receive. destruct (n_objs n !! id) as [r|] eqn:Hr; [|done]. destruct (r_C r) as [|x c]; [done|].
    intros [= <-]. destruct (safe_objs n Hn id r Hr) as (Hok & _). eapply safe_set_obj; [done|done|done|done|].
    intros e must vis Hpc. pose proof (safe_pc n Hn) as Hok'. unfold pc_ok in Hok'. rewrite Hpc in Hok'.
    destruct Hok' as (_ & _ & r0 & Hr0 & ?). by simplify_eq.
  - by apply safe_Receiver_Close.
  - intros [= <-]. unfold Notifier_Close. destruct (n_closed n) eqn:Hc; [done|].
    destruct Hn as [H1 H2 H3 H4 H5 H6 H7 H8]. split; try done. simpl. by rewrite H1, H4.
  - unfold Flush. destruct Hn as [H1 H2 H3 H4 H5 H6 H7 H8].
    destruct (n_flush n); [| |..]; [intros [= <-]; by split| |intros [= <-]; by split|done].
    destruct (barrier n); [|done]. intros [= <-]. by split.
  - destruct Hn as [H1 H2 H3 H4 H5 H6 H7 H8]. destruct (n_flush n); try done. intros [= <-]. by split.
Qed.

Lemma safe_exit n : safe n → n_pc n ≠ RExited → safe (exit_run n).
Proof.
  intros [H1 H2 H3 H4 H5 H6 H7 H8] Hpc. split; try done. simpl. rewrite H1. destruct (n_syncClosed n); naive_solver.
Qed.

Lemma safe_run l n n' :
  safe n → step l n = Some n' →
  match l with LRunClose | LRunWake | LRunPop | LRunVisit _ | LRunSend | LRunStop | LRunRangeEnd | LRunCheck => safe n' | _ => True end.
Proof.
  intros Hn. pose proof (safe_pc n Hn) as Hpc. unfold pc_ok in Hpc.
  destruct l as [| | | | | | | | | | |id| | | |]; cbn [step]; try done.
  - unfold run_close. destruct (n_pc n) eqn:Hp; try done. destruct (n_closeCh n); [|done]. intros [= <-]. apply safe_exit; [done|by rewrite Hp].
  - unfold run_wake. destruct (n_pc n) eqn:Hp; try done. destruct (sq_C (n_queue n)); [|done]. intros [= <-].
    apply safe_set_pc; [|by simpl; rewrite Hp|done|done]. apply safe_set_queue; [done|apply Hn..].
  - unfold run_pop. destruct (n_pc n) eqn:Hp; try done. destruct (Pop_ok (n_queue n) (safe_pool n Hn)) as (q & -> & Hq & He & _).
    destruct (elems (n_queue n)) as [|x l] eqn:Hel; simpl in *.
    + intros [= <-]. apply safe_set_pc; [|by simpl; rewrite Hp|done|done]. apply safe_set_queue; [done|done|].
      rewrite He. by rewrite <- (safe_fifo n Hn), Hel.
    + intros [= <-]. pose proof (safe_receivers n) as Hrc. specialize (Hrc).
      assert (∀ id, id ∈ n_receivers n ∪ ∅ → (id ≤ n_nextID n)%Z) as Hids by (intros id Hid; apply Hrc; [done|set_solver]).
      destruct Hn as [H1 H2 H3 H4 H5 H6 H7 H8]. split; try done; simpl.
      * rewrite He, <- app_assoc. simpl. by rewrite <- Hel.
      * rewrite H5, Hp. naive_solver.
      * split; [apply last_snoc|done].
  - unfold run_visit. destruct (n_pc n) as [| |e must vis| | |] eqn:Hp; try done. case_bool_decide as Hid; [|done].
    destruct (n_objs n !! id) as [r|] eqn:Hr; [|done].
    destruct (safe_objs n Hn id r Hr) as ((Hcl & _) & Hle & _).
    destruct (r_closed r) eqn:Hc; intros [= <-]; (apply safe_set_pc; [done|by rewrite Hp|done|]); unfold pc_ok; simpl.
    + destruct Hpc as [Hl Hpc]. split; [done|]. intros id' Hid'. destruct (decide (id' = id)) as [->|]; [done|]. apply Hpc. set_solver.
    + destruct Hpc as [Hl Hpc]. split_and!; [done..|]. exists r. split; [done|]. left. by apply Hcl.
  - unfold run_send. destruct (n_pc n) as [| | |e must vis id| |] eqn:Hp; try done.
    destruct Hpc as (Hl & Hids & r & Hr & Ho). rewrite Hr. destruct (safe_objs n Hn id r Hr) as ((Hcl & Hch) & Hle & Hin).
    destruct (r_chanClosed r) eqn:Hcc; [destruct (proj1 Hch eq_refl) as [Ho'|Ho']; rewrite Ho' in Ho; by destruct Ho|]. case_bool_decide; [|done]. intros [= <-].
    apply safe_set_pc; [|by simpl; rewrite Hp|done|].
    + eapply safe_set_obj; [done|done|by split; simpl; naive_solver|done|by auto].
    + unfold pc_ok. simpl. split; [done|]. intros id' Hid'. destruct (decide (id' = id)) as [->|]; [done|]. apply Hids. set_solver.
  - unfold run_stop. destruct (n_pc n) as [| | |e must vis id| |] eqn:Hp; try done. destruct (n_closeCh n); [|done].
    intros [= <-]. apply safe_set_pc; [done|by rewrite Hp|done|done].
  - unfold run_range_end. destruct (n_pc n) as [| |e must vis| | |] eqn:Hp; try done. case_bool_decide; [|done].
    intros [= <-]. apply safe_set_pc; [done|by rewrite Hp|done|done].
  - unfold run_check. destruct (n_pc n) eqn:Hp; try done. destruct (n_closeCh n); intros [= <-].
    + apply safe_exit; [done|by rewrite Hp].
    + apply safe_set_pc; [done|by rewrite Hp|done|done].
Qed.

Lemma safe_step l n n' : safe n → step l n = Some n' → safe n'.
Proof. intros Hn Hs. pose proof (safe_call l n n' Hn Hs). pose proof (safe_run l n n' Hn Hs). by destruct l. Qed.

End safety.

(** ** Delivery *)

Section delivery.
Context {T : Type}.
Implicit Types (n : Notifier T) (r : Receiver T) (p : list T).

(** What was sent to a receiver. *)
Definition hist r : list T := r_read r ++ r_C r.

(** The receiver got the events from some point on: from when it was made, or from
    the event that was being sent at that moment. *)
Definition got_from r p (k : nat) : Prop := (k = r_from r ∨ S k = r_from r) ∧ hist r = drop k p.
Definition got_all r p : Prop := ∃ k, got_from r p k.
Definition got_some r p : Prop := ∃ k, (k = r_from r ∨ S k = r_from r) ∧ hist r `prefix_of` drop k p.

(** The receiver while [event], the last event popped, is being sent. *)
Definition in_range r p (event : T) (must visited : gset receiverID) (id : receiverID) : Prop :=
  ∃ p0, p = p0 ++ [event] ∧
    ((id ∈ visited ∧ got_all r p) ∨
     ((id ∉ visited) ∧ id ∈ must ∧ r_from r ≤ length p0 ∧ got_all r p0) ∨
     ((id ∉ visited) ∧ (id ∉ must) ∧ r_from r = length p ∧ hist r = [])).

Definition delivering n (id : receiverID) r : Prop :=
  match n_pc n with
  | RTop | RInner => r_closed r = false → got_all r (n_popped n)
  | RRange event must visited => r_closed r = false → in_range r (n_popped n) event must visited id
  | RSelect event must visited id' =>
      (r_closed r = false ∨ id = id' → in_range r (n_popped n) event must visited id) ∧ (id = id' → id ∉ visited)
  | RCheck => r_closed r = false → n_closeCh n = false → got_all r (n_popped n)
  | RExited => True
  end.

Definition delivered n : Prop :=
  ∀ id r, n_objs n !! id = Some r →
    r_from r ≤ length (n_popped n) ∧ got_some r (n_popped n) ∧ delivering n id r.

Lemma got_all_some r p : got_all r p → got_some r p.
Proof. intros (k & Hk & Hh). exists k. by rewrite Hh. Qed.

Lemma got_some_snoc r p x : r_from r ≤ length p → got_some r p → got_some r (p ++ [x]).
Proof.
  intros Hle (k & Hk & Hp). exists k. split; [done|]. rewrite drop_app_le by lia. by apply prefix_app_r.
Qed.

(** Sending the event completes what the receiver got. *)
Lemma got_all_send r p x c :
  r_from r ≤ length p → got_all r p →
  got_all (mkReceiver (r_C r ++ [x]) (r_chanClosed r) (r_closed r) c (r_read r) (r_from r)) (p ++ [x]).
Proof.
  intros Hle (k & Hk & Hh). exists k. split; [done|]. unfold hist in *. simpl.
  rewrite app_assoc, Hh. rewrite drop_app_le by lia. done.
Qed.

Lemma in_range_done r p e must vis id :
  in_range r p e must vis id → (id ∈ must → id ∈ vis) → got_all r p.
Proof.
  intros (p0 & -> & [[_ H]|[(Hv & Hm & _)|(_ & _ & Hf & Hh)]]) Himp; [done|naive_solver|].
  exists (r_from r). split; [by left|]. rewrite Hf, Hh. by rewrite drop_all.
Qed.

Lemma in_range_send r p e must vis id c :
  r_from r ≤ length p → in_range r p e must vis id → id ∉ vis →
  in_range (mkReceiver (r_C r ++ [e]) (r_chanClosed r) (r_closed r) c (r_read r) (r_from r)) p e must ({[id]} ∪ vis) id.
Proof.
  intros Hle (p0 & -> & Hc) Hv. exists p0. split; [done|]. left. split; [set_solver|].
  destruct Hc as [[? _]|[(_ & _ & Hf & Hg)|(_ & _ & Hf & Hh)]]; [done|by apply got_all_send|].
  exists (length p0). rewrite length_app in Hf. simpl in Hf. split; simpl; [lia|].
  rewrite drop_app_length. unfold hist in *. simpl. apply app_eq_nil in Hh as [-> ->]. done.
Qed.

(** What [delivered] says of a receiver depends on what was sent to it only. *)
Lemma delivering_ext n n' id r r' :
  n_pc n' = n_pc n → n_popped n' = n_popped n → (n_closeCh n' = false → n_closeCh n = false) →
  hist r' = hist r → r_from r' = r_from r → (r_closed r' = false → r_closed r = false) →
  (r_from r ≤ length (n_popped n) ∧ got_some r (n_popped n) ∧ delivering n id r) →
  r_from r' ≤ length (n_popped n') ∧ got_some r' (n_popped n') ∧ delivering n' id r'.
Proof.
  intros Hpc Hpop Hcl Hh Hf Hc (H1 & H2 & H3). unfold delivering, in_range, got_some, got_all, got_from in *.
  rewrite Hpc, Hpop, Hf, Hh. split_and!; [done|done|].
  destruct (n_pc n); try done; [by auto..| |by auto]. destruct H3 as [H3 H4]. split; [|done]. intros [?|?]; auto.
Qed.

Lemma delivered_same n n' :
  n_objs n' = n_objs n → n_pc n' = n_pc n → n_popped n' = n_popped n →
  (n_closeCh n' = false → n_closeCh n = false) → delivered n → delivered n'.
Proof. intros Ho Hpc Hpop Hcl Hd id r Hr. rewrite Ho in Hr. apply (delivering_ext n n' _ r); eauto. Qed.

Lemma delivered_set_obj n id r r' :
  n_objs n !! id = Some r → hist r' = hist r → r_from r' = r_from r → (r_closed r' = false → r_closed r = false) →
  delivered n → delivered (set_obj n id r').
Proof.
  intros Hr Hh Hf Hc Hd id' r0. simpl. destruct (decide (id = id')) as [<-|Hne].
  - rewrite lookup_insert_eq. intros [= <-]. apply (delivering_ext n (set_obj n id r') _ r); eauto.
  - rewrite lookup_insert_ne by done. intros Hr0. apply (delivering_ext n (set_obj n id r') _ r0); eauto.
Qed.

Lemma delivered_Receiver_Close id n n' : delivered n → Receiver_Close id n = Some n' → delivered n'.
Proof.
  intros Hd. unfold Receiver_Close. destruct (n_objs n !! id) as [r|] eqn:Hr; [|done].
  destruct (r_once r); [| | | |done].
  - intros [= <-]. by eapply delivered_set_obj.
  - destruct (barrier n); [|done]. intros [= <-]. by eapply delivered_set_obj.
  - destruct (r_chanClosed r); intros [= <-]; [by eapply delivered_same|by eapply delivered_set_obj].
  - intros [= <-]. apply (delivered_same (set_obj n id (set_once r (r_closed r) (r_chanClosed r) CDone))); [done..|].
    by eapply delivered_set_obj.
Qed.

Lemma delivered_NewReceiver n : safe n → delivered n → delivered (NewReceiver n).
Proof.
  intros Hn Hd id r. simpl. destruct (decide (id = (n_nextID n + 1)%Z)) as [->|Hne].
  - rewrite lookup_insert_eq. intros [= <-]. simpl.
    set (r0 := mkReceiver [] false false CNot [] (length (n_popped n))).
    assert (got_all r0 (n_popped n)) as Hall by (exists (length (n_popped n)); split; [by left|]; by rewrite drop_all).
    assert (∀ e must vis, last (n_popped n) = Some e → (∀ id, id ∈ must ∪ vis → (id ≤ n_nextID n)%Z) →
      in_range r0 (n_popped n) e must vis (n_nextID n + 1)) as Hnew.
    { intros e must vis [p0 Hp]%last_Some Hids. exists p0. split; [done|]. right. right.
      split_and!; [intros Hin|intros Hin|done|done];
        (assert (n_nextID n + 1 ≤ n_nextID n)%Z; [apply Hids; set_solver|lia]). }
    split_and!; [done|by apply got_all_some|]. pose proof (safe_pc n Hn) as Hpc. unfold pc_ok in Hpc. unfold delivering. simpl.
    destruct (n_pc n) as [| |e must vis|e must vis id'| |]; try done.
    + destruct Hpc as [Hl Hids]. intros _. by apply Hnew.
    + destruct Hpc as (Hl & Hids & r1 & Hr1 & _). destruct (safe_objs n Hn id' r1 Hr1) as (_ & Hle & _). split; [|lia].
      intros _. by apply Hnew.
  - rewrite lookup_insert_ne by done. intros Hr. apply (delivering_ext n (NewReceiver n) _ r); eauto.
Qed.

Lemma delivered_call l n n' :
  safe n → delivered n → step l n = Some n' →
  match l with LRunClose | LRunWake | LRunPop | LRunVisit _ | LRunSend | LRunStop | LRunRangeEnd | LRunCheck => True | _ => delivered n' end.
Proof.
  intros Hn Hd. destruct l as [i e| | |id|id| | | | | | |id| | | |]; cbn [step]; try done.
  - intros [= <-]. unfold Notify_locked. destruct (Push_locked i e (n_queue n)) as [s q]. by eapply delivered_same.
  - unfold Notify_signal. destruct (n_pending n); [done|]. intros [= <-]. by eapply delivered_same.
  - intros [= <-]. by apply delivered_NewReceiver.
  - unfold Receive. destruct (n_objs n !! id) as [r|] eqn:Hr; [|done]. destruct (r_C r) as [|x c] eqn:Hc; [done|].
    intros [= <-]. eapply delivered_set_obj; [done| |done|done|done]. unfold hist. simpl. by rewrite Hc, <- app_assoc.
  - by apply delivered_Receiver_Close.
  - intros [= <-]. unfold Notifier_Close. destruct (n_closed n); [done|]. by apply (delivered_same n).
  - unfold Flush. destruct (n_flush n); [| |..]; [intros [= <-]; by eapply delivered_same| |intros [= <-]; by eapply delivered_same|done].
    destruct (barrier n); [|done]. intros [= <-]. by eapply delivered_same.
  - destruct (n_flush n); try done. intros [= <-]. by eapply delivered_same.
Qed.

(** A step of [run] that moves its program counter only. *)
Lemma delivered_set_pc n pc :
  delivered n → (∀ id r, n_objs n !! id = Some r → delivering n id r → delivering (set_pc n pc) id r) →
  delivered (set_pc n pc).
Proof. intros Hd Himp id r Hr. destruct (Hd id r Hr) as (? & ? & ?). split_and!; [done..|]. by apply Himp. Qed.

Lemma delivered_send n e must vis id r :
  safe n → delivered n → n_pc n = RSelect e must vis id → n_objs n !! id = Some r →
  delivered (set_pc (set_obj n id (mkReceiver (r_C r ++ [e]) (r_chanClosed r) (r_closed r) (r_once r) (r_read r) (r_from r)))
               (RRange e must ({[id]} ∪ vis))).
Proof.
  intros Hn Hd Hp Hr id' r'. simpl. destruct (decide (id = id')) as [<-|Hne].
  - rewrite lookup_insert_eq. intros [= <-]. destruct (Hd id r Hr) as (Hf & _ & Hg). unfold delivering in *. rewrite Hp in Hg. simpl.
    destruct Hg as [Hin Hv]. assert (in_range r (n_popped n) e must vis id) as Hi by auto.
    pose proof (in_range_send r _ e must vis id (r_once r) Hf Hi (Hv eq_refl)) as Hs. split_and!; [done| |by intros _].
    destruct Hs as (p0 & Hp0 & [[_ Hall]|[(Hnv & _)|(Hnv & _)]]); [by apply got_all_some|set_solver..].
  - rewrite lookup_insert_ne by done. intros Hr'. destruct (Hd id' r' Hr') as (Hf & Hs & Hg).
    split_and!; [done..|]. unfold delivering in *. rewrite Hp in Hg. simpl. destruct Hg as [Hin _].
    intros Hc. destruct (Hin (or_introl Hc)) as (p0 & Hp0 & Hcase). exists p0. split; [done|]. set_solver.
Qed.

Lemma delivered_run l n n' :
  safe n → delivered n → step l n = Some n' →
  match l with LRunClose | LRunWake | LRunPop | LRunVisit _ | LRunSend | LRunStop | LRunRangeEnd | LRunCheck => delivered n' | _ => True end.
Proof.
  intros Hn Hd. destruct l as [| | | | | | | | | | |id| | | |]; cbn [step]; try done.
  - unfold run_close. destruct (n_pc n) eqn:Hp; try done. destruct (n_closeCh n); [|done]. intros [= <-].
    intros id r Hr. by destruct (Hd id r Hr) as (? & ? & _).
  - unfold run_wake. destruct (n_pc n) eqn:Hp; try done. destruct (sq_C (n_queue n)); [|done]. intros [= <-].
    intros id r Hr. destruct (Hd id r Hr) as (? & ? & Hg). unfold delivering in *. by rewrite Hp in Hg.
  - unfold run_pop. destruct (n_pc n) eqn:Hp; try done. destruct (Pop_ok (n_queue n) (safe_pool n Hn)) as (q & -> & _).
    destruct (elems (n_queue n)) as [|x l]; simpl; intros [= <-] id r Hr; destruct (Hd id r Hr) as (Hf & Hs & Hg);
      unfold delivering in *; rewrite Hp in Hg; simpl in *; [done|].
    rewrite length_app. simpl. split_and!; [lia|by apply got_some_snoc|]. intros Hc. exists (n_popped n). split; [done|].
    right. left. destruct (safe_objs n Hn id r Hr) as ((Hcl & _) & _ & Hin). apply Hcl in Hc as Ho.
    split_and!; [set_solver|apply Hin; congruence|done|by apply Hg].
  - unfold run_visit. destruct (n_pc n) as [| |e must vis| | |] eqn:Hp; try done. case_bool_decide as Hid; [|done].
    destruct (n_objs n !! id) as [r|] eqn:Hr; [|done]. destruct (r_closed r) eqn:Hc; intros [= <-];
      (apply delivered_set_pc; [done|]); intros id' r' Hr'; unfold delivering; rewrite Hp; simpl; intros Hg.
    + intros Hc'. destruct (Hg Hc') as (p0 & Hp0 & Hcase). exists p0. split; [done|].
      assert (id' ≠ id) by congruence. set_solver.
    + split; [|by intros ->; destruct Hid]. intros [?| ->]; [by apply Hg|]. apply Hg. congruence.
  - unfold run_send. destruct (n_pc n) as [| | |e must vis id| |] eqn:Hp; try done.
    destruct (n_objs n !! id) as [r|] eqn:Hr; [|done]. destruct (r_chanClosed r) eqn:Hcc; [intros [= <-]; by eapply delivered_same|].
    destruct (bool_decide _); [|done]. intros [= <-]. rewrite <- Hcc. by apply delivered_send.
  - unfold run_stop. destruct (n_pc n) as [| | |e must vis id| |] eqn:Hp; try done. destruct (n_closeCh n) eqn:Hcl; [|done].
    intros [= <-]. apply delivered_set_pc; [done|]. intros id' r' Hr'. unfold delivering. simpl. by rewrite Hcl.
  - unfold run_range_end. destruct (n_pc n) as [| |e must vis| | |] eqn:Hp; try done. case_bool_decide as Hm; [|done].
    intros [= <-]. apply delivered_set_pc; [done|]. intros id' r' Hr'. unfold delivering. rewrite Hp. simpl. intros Hg Hc _.
    destruct (safe_objs n Hn id' r' Hr') as ((Hcl & _) & _ & Hin). apply Hcl in Hc as Ho.
    assert (id' ∈ n_receivers n) by (apply Hin; congruence). eapply in_range_done; [by apply Hg|]. set_solver.
  - unfold run_check. destruct (n_pc n) eqn:Hp; try done. destruct (n_closeCh n) eqn:Hcl; intros [= <-].
    + intros id r Hr. by destruct (Hd id r Hr) as (? & ? & _).
    + apply delivered_set_pc; [done|]. intros id r Hr. unfold delivering. rewrite Hp. simpl. auto.
Qed.

Lemma delivered_step l n n' : safe n → delivered n → step l n = Some n' → delivered n'.
Proof.
  intros Hn Hd Hs. pose proof (delivered_call l n n' Hn Hd Hs). pose proof (delivered_run l n n' Hn Hd Hs). by destruct l.
Qed.

Lemma steps_invariant ls n n' : safe n → delivered n → steps ls n = Some n' → safe n' ∧ delivered n'.
Proof.
  revert n. induction ls as [|l ls IH]; intros n Hn Hd; simpl; [by intros [= <-]|].
  destruct (step l n) as [n1|] eqn:Hs; [|done]. simpl. apply IH; [by eapply safe_step|by eapply delivered_step].
Qed.

Lemma delivered_new : delivered (NewNotifier (T:=T)).
Proof. by intros id r. Qed.

End delivery.

(** ** Closing *)

Section closing.
Context {T : Type}.
Implicit Types (n : Notifier T) (r : Receiver T).

Definition run_label (l : label T) : bool :=
  match l with LRunClose | LRunWake | LRunPop | LRunVisit _ | LRunSend | LRunStop | LRunRangeEnd | LRunCheck => true | _ => false end.

(** A step of [run]. *)
Definition run_step n n' : Prop := ∃ l, run_label l = true ∧ step l n = Some n'.

(** An upper bound of the steps [run] takes once [closeCh] is closed. *)
Definition remaining n : nat :=
  let total := 2 * size (n_receivers n) in
  let signal := if sq_C (n_queue n) then 2 else 0 in
  match n_pc n with
  | RExited => 0
  | RCheck => 1
  | RRange _ _ visited => 2 + 2 * size (n_receivers n ∖ visited)
  | RSelect _ _ visited _ => 1 + 2 * size (n_receivers n ∖ visited)
  | RTop => if sq_C (n_queue n) then 4 + total else 1
  | RInner => 3 + total + signal
  end.

Lemma size_visit (rs vis : gset receiverID) id : id ∈ rs → id ∉ vis → size (rs ∖ vis) = S (size (rs ∖ ({[id]} ∪ vis))).
Proof.
  intros Hin Hv. assert (rs ∖ vis = {[id]} ∪ rs ∖ ({[id]} ∪ vis)) as -> by (apply set_eq; intros x; destruct (decide (x = id)); set_solver).
  rewrite size_union by set_solver. rewrite size_singleton. done.
Qed.

Lemma run_step_remaining n n' :
  safe n → delivered n → n_closeCh n = true → run_step n n' → remaining n' < remaining n ∧ n_closeCh n' = true.
Proof.
  intros Hn Hd Hcl (l & Hl & Hs). pose proof (safe_pc n Hn) as Hpc. unfold pc_ok in Hpc. unfold remaining.
  destruct l as [| | | | | | | | | | |id| | | |]; try done; cbn [step] in Hs.
  - unfold run_close in Hs. destruct (n_pc n) eqn:Hp; try done. rewrite Hcl in Hs. simplify_eq. simpl.
    split; [|done]. destruct (sq_C _); lia.
  - unfold run_wake in Hs. destruct (n_pc n) eqn:Hp; try done. destruct (sq_C (n_queue n)) eqn:HC; [|done]. simplify_eq. simpl.
    split; [lia|done].
  - unfold run_pop in Hs. destruct (n_pc n) eqn:Hp; try done. destruct (Pop_ok (n_queue n) (safe_pool n Hn)) as (q & Hq & _ & _ & HC).
    rewrite Hq in Hs. destruct (elems (n_queue n)) as [|x l]; simpl in *; simplify_eq; simpl; (split; [|done]).
    + rewrite HC. destruct (sq_C (n_queue n)); lia.
    + rewrite difference_empty_L. destruct (sq_C _); lia.
  - unfold run_visit in Hs. destruct (n_pc n) as [| |e must vis| | |] eqn:Hp; try done. case_bool_decide as Hid; [|done].
    destruct Hid as [Hin Hv]. pose proof (size_visit _ _ _ Hin Hv).
    destruct (n_objs n !! id) as [r|]; [|done]. destruct (r_closed r); simplify_eq; simpl; (split; [lia|done]).
  - unfold run_send in Hs. destruct (n_pc n) as [| | |e must vis id| |] eqn:Hp; try done.
    destruct Hpc as (_ & _ & r & Hr & Ho). rewrite Hr in Hs. destruct (Hd id r Hr) as (_ & _ & Hg). unfold delivering in Hg. rewrite Hp in Hg.
    destruct (safe_objs n Hn id r Hr) as (_ & _ & Hin). pose proof (size_visit (n_receivers n) vis id) as Hsz.
    destruct Hg as [_ Hv]. specialize (Hsz (Hin ltac:(destruct Ho; congruence)) (Hv eq_refl)).
    destruct (r_chanClosed r) eqn:Hcc.
    + destruct (safe_objs n Hn id r Hr) as ((_ & Hch) & _). destruct (proj1 Hch Hcc) as [Ho'|Ho']; rewrite Ho' in Ho; by destruct Ho.
    + destruct (bool_decide _); simplify_eq. simpl. split; [lia|done].
  - unfold run_stop in Hs. destruct (n_pc n) as [| | |e must vis id| |] eqn:Hp; try done. rewrite Hcl in Hs. simplify_eq. simpl.
    destruct Hpc as (_ & _ & r & Hr & Ho). destruct (Hd id r Hr) as (_ & _ & Hg). unfold delivering in Hg. rewrite Hp in Hg.
    destruct (safe_objs n Hn id r Hr) as (_ & _ & Hin). destruct Hg as [_ Hv].
    pose proof (size_visit (n_receivers n) vis id (Hin ltac:(destruct Ho; congruence)) (Hv eq_refl)). split; [lia|done].
  - unfold run_range_end in Hs. destruct (n_pc n) as [| |e must vis| | |] eqn:Hp; try done. case_bool_decide; [|done].
    simplify_eq. simpl. split; [lia|done].
  - unfold run_check in Hs. destruct (n_pc n) eqn:Hp; try done. rewrite Hcl in Hs. simplify_eq. simpl. split; [lia|done].
Qed.

Lemma run_enabled n : safe n → n_closeCh n = true → n_pc n ≠ RExited → ∃ n', run_step n n'.
Proof.
  intros Hn Hcl Hne. pose proof (safe_pc n Hn) as Hpc. unfold pc_ok in Hpc. destruct (n_pc n) as [| |e must vis|e must vis id| |] eqn:Hp.
  - exists (exit_run n), LRunClose. split; [done|]. simpl. unfold run_close. by rewrite Hp, Hcl.
  - destruct (Pop_ok (n_queue n) (safe_pool n Hn)) as (q & Hq & _).
    destruct (step LRunPop n) as [n'|] eqn:Hs; [by exists n', LRunPop|]. exfalso. revert Hs. cbn [step]. unfold run_pop. rewrite Hp, Hq.
    by destruct (head _).
  - destruct (decide (must ∩ n_receivers n ⊆ vis)) as [Hall|Hnot].
    + exists (set_pc n RCheck), LRunRangeEnd. split; [done|]. cbn [step]. unfold run_range_end. rewrite Hp. by rewrite bool_decide_eq_true_2.
    + assert (∃ id, id ∈ (must ∩ n_receivers n) ∖ vis) as [id Hid].
      { apply set_choose_L. intros Hemp. apply Hnot. intros id Hid. destruct (decide (id ∈ vis)); [done|]. set_solver. }
      destruct (safe_map n Hn id) as [r Hr]; [set_solver|].
      destruct (step (LRunVisit id) n) as [n'|] eqn:Hs; [by exists n', (LRunVisit id)|]. exfalso. revert Hs. cbn [step]. unfold run_visit.
      rewrite Hp, bool_decide_eq_true_2 by set_solver. rewrite Hr. by destruct (r_closed r).
  - exists (set_pc n RCheck), LRunStop. split; [done|]. cbn [step]. unfold run_stop. by rewrite Hp, Hcl.
  - eexists _, LRunCheck. split; [done|]. cbn [step]. unfold run_check. by rewrite Hp.
  - done.
Qed.

End closing.

(** ** Theorems *)

(** The notifier never panics. However the callers, the users of the receivers
    and [run] interleave, nothing is sent on a closed channel and no channel is
    closed twice: the barrier of [Receiver.Close] is enough. *)
Theorem notifier_never_panics {T} ls (n : Notifier T) : steps ls NewNotifier = Some n → n_panic n = false.
Proof. intros Hs. by destruct (steps_invariant ls _ n safe_new delivered_new Hs) as [[]%safe_panic _]. Qed.

(** C35: every receiver gets the stream of events in order and without gaps, from
    when it was made or from the event that was on its way at that moment; and
    whenever [run] waits for work, a receiver that was not closed was sent every
    event that has left the queue. *)
Theorem events_in_order_without_gaps {T} ls (n : Notifier T) id r :
  steps ls NewNotifier = Some n → n_objs n !! id = Some r →
  n_popped n `prefix_of` n_pushed n ∧
  ∃ k, (k = r_from r ∨ S k = r_from r) ∧ hist r `prefix_of` drop k (n_popped n) ∧
    (n_pc n = RTop → r_closed r = false → hist r = drop k (n_popped n)).
Proof.
  intros Hs Hr. destruct (steps_invariant ls _ n safe_new delivered_new Hs) as [Hn Hd].
  split; [rewrite <- (safe_fifo n Hn); by eexists|]. destruct (Hd id r Hr) as (_ & (k & Hk & Hpre) & Hg).
  unfold delivering in Hg. destruct (n_pc n); [|by exists k..].
  destruct (r_closed r); [by exists k|]. destruct (Hg eq_refl) as (k' & Hk' & Hall). exists k'. by rewrite Hall.
Qed.

(** Closing the notifier ends [run]. Once [closeCh] is closed, [run] is never
    blocked, and when the callers are quiet it returns after at most [remaining]
    steps, even if no receiver is read any more. *)
Theorem closing_ends_run {T} ls (n : Notifier T) :
  steps ls NewNotifier = Some n → n_closeCh n = true →
  ∀ k n', nsteps run_step k n n' → k ≤ remaining n ∧ (n_pc n' = RExited ∨ ∃ n'', run_step n' n'').
Proof.
  intros Hs Hcl. destruct (steps_invariant ls _ n safe_new delivered_new Hs) as [Hn Hd]. clear Hs.
  intros k n' Hk. assert (k + remaining n' ≤ remaining n ∧ safe n' ∧ n_closeCh n' = true) as (Hrem & Hn' & Hcl').
  { revert Hn Hd Hcl. induction Hk as [n|k n1 n2 n3 H12 _ IH]; intros Hn Hd Hcl; [done|].
    destruct (run_step_remaining n1 n2 Hn Hd Hcl H12) as [Hlt Hcl2]. destruct H12 as (l & _ & Hl).
    destruct IH as (? & ? & ?); [by eapply safe_step|by eapply delivered_step|done|]. split_and!; [lia|done..]. }
  split; [lia|]. destruct (n_pc n') eqn:Hp; try (right; apply run_enabled; [done|done|by rewrite Hp]). by left.
Qed.

(** [Flush] may return too early. An event is queued before [Flush] is called,
    [run] passes the barrier of [Flush] before it takes the event, and [Flush] finds
    the queue empty while the event is not yet sent to the receiver. *)
Theorem flush_returns_early {T} (e : T) :
  ∃ before after n r, steps (before ++ after) NewNotifier = Some n ∧
    (∃ n0, steps before NewNotifier = Some n0 ∧ n_pushed n0 = [e] ∧ n_flush n0 = FNone) ∧
    n_flush n = FReturned ∧ n_pushed n = [e] ∧
    n_objs n !! 1%Z = Some r ∧ r_closed r = false ∧ hist r = [].
Proof.
  exists [LNewReceiver; LNotify None e; LSignal], [LFlush; LFlush; LRunWake; LRunPop; LFlush]. do 2 eexists.
  split; [vm_compute; reflexivity|]. split_and!; [|reflexivity..]. eexists. split_and!; [vm_compute; reflexivity|reflexivity..].
Qed.

(** Closing a receiver that no one reads any more hangs: when its channel is full and
    [run] is about to send to it, [Receiver.Close] does not pass its barrier until
    someone reads from the receiver or closes the notifier. *)
Theorem receiver_close_hangs {T} ls (n n' : Notifier T) e must vis id r :
  safe n → n_pc n = RSelect e must vis id → n_objs n !! id = Some r → r_once r = CWaiting →
  length (r_C r) = 16 → n_closeCh n = false →
  Forall (λ l, l ≠ LReceive id ∧ l ≠ LNotifierClose) ls → steps ls n = Some n' →
  n_pc n' = RSelect e must vis id ∧ n_objs n' !! id = Some r.
Proof.
  intros Hn Hp Hr Ho Hlen Hcl Hls. revert n Hn Hp Hr Hcl. induction Hls as [|l ls [Hl1 Hl2] _ IH]; intros n Hn Hp Hr Hcl; simpl.
  { by intros [= <-]. }
  destruct (step l n) as [n1|] eqn:Hs; [|done]. simpl. assert (safe n1) as Hn1 by (by eapply safe_step).
  assert (n_pc n1 = RSelect e must vis id ∧ n_objs n1 !! id = Some r ∧ n_closeCh n1 = false) as (? & ? & ?); [|by apply IH].
  assert (n_syncClosed n = false) as Hsync.
  { destruct (n_syncClosed n) eqn:Hy; [|done]. apply (safe_sync n Hn) in Hy. congruence. }
  clear IH. destruct l as [i x| | |id'|id'| | | | | | |id'| | | |]; cbn [step] in Hs; try done.
  - unfold Notify_locked in Hs. destruct (Push_locked i x (n_queue n)). by simplify_eq.
  - unfold Notify_signal in Hs. destruct (n_pending n); by simplify_eq.
  - simplify_eq. simpl. destruct (safe_objs n Hn id r Hr) as (_ & ? & _). rewrite lookup_insert_ne by lia. done.
  - unfold Receive in Hs. destruct (n_objs n !! id') as [r'|]; [|done]. destruct (r_C r'); [done|]. simplify_eq. simpl.
    rewrite lookup_insert_ne by congruence. done.
  - unfold Receiver_Close, barrier in Hs. rewrite Hsync, Hp in Hs. destruct (n_objs n !! id') as [r'|] eqn:Hr'; [|done].
    destruct (decide (id' = id)) as [->|Hne]; [simplify_eq; by rewrite Ho in Hs|].
    destruct (r_once r'); [| |destruct (r_chanClosed r')|..]; simplify_eq; simpl; by rewrite ?lookup_insert_ne.
  - unfold Flush, barrier in Hs. rewrite Hsync, Hp in Hs. destruct (n_flush n); by simplify_eq.
  - destruct (n_flush n); by simplify_eq.
  - unfold run_close in Hs. by rewrite Hp in Hs.
  - unfold run_wake in Hs. by rewrite Hp in Hs.
  - unfold run_pop in Hs. by rewrite Hp in Hs.
  - unfold run_visit in Hs. by rewrite Hp in Hs.
  - unfold run_send in Hs. rewrite Hp, Hr in Hs. destruct (safe_objs n Hn id r Hr) as ((_ & Hch) & _).
    destruct (r_chanClosed r); [destruct (proj1 Hch eq_refl); congruence|]. by rewrite bool_decide_eq_false_2 in Hs by lia.
  - unfold run_stop in Hs. by rewrite Hp, Hcl in Hs.
  - unfold run_range_end in Hs. by rewrite Hp in Hs.
  - unfold run_check in Hs. by rewrite Hp in Hs.
Qed.

Module Witness.

(** A receiver gets an event, then the notifier is closed while a second event is
    being sent. *)
Definition trace : list (label nat) :=
  [LNewReceiver; LNotify None 7; LSignal; LRunWake; LRunPop; LRunVisit 1; LRunSend; LRunRangeEnd; LRunCheck; LRunPop].
Definition trace2 : list (label nat) := trace ++ [LNotify None 8; LSignal; LRunWake; LRunPop; LNotifierClose; LReceiverClose 1].

Lemma notifier_never_panics_witness : ∃ n, steps trace2 NewNotifier = Some n ∧ n_panic n = false.
Proof. eexists. split; [vm_compute; reflexivity|]. apply (notifier_never_panics trace2). vm_compute. reflexivity. Defined.

Definition n1 : Notifier nat := default NewNotifier (steps trace NewNotifier).
Definition r1 : Receiver nat := mkReceiver [7] false false CNot [] 0.

Lemma events_in_order_without_gaps_witness :
  n_pc n1 = RTop ∧ hist r1 = [7] ∧ ∃ k, hist r1 = drop k (n_popped n1).
Proof.
  split_and!; [reflexivity..|].
  destruct (events_in_order_without_gaps trace n1 1%Z r1) as [_ (k & _ & _ & H)]; [vm_compute; reflexivity..|].
  exists k. apply H; reflexivity.
Defined.

Lemma closing_ends_run_witness :
  ∃ n, steps trace2 NewNotifier = Some n ∧ ∀ k n', nsteps run_step k n n' → k ≤ 4 ∧ (n_pc n' = RExited ∨ ∃ n'', run_step n' n'').
Proof.
  eexists. split; [vm_compute; reflexivity|]. apply (closing_ends_run trace2); [vm_compute; reflexivity|reflexivity].
Defined.

End Witness.
