(* ===== verification/Keys.v ===== *)
(** * Keys of the key-value store ([pkg/adapter/keyadapter.go])

    An adapter is a path under which keys are stored as hexadecimal segments. The
    packages [path] and [encoding/hex] are written out as far as the adapter uses
    them. *)

From S2P Require Import Prelude Errors Model ResourcePath.

(** ** [path.Join] on any strings *)

Definition path_Clean (s : string) : string :=
  match s with
  | EmptyString => "."
  | String c rest =>
      if decide (c = slash) then String slash (Join (rev (foldl abs_step [] (Split rest))))
      else match Clean (Split s) with [] => "." | segs => Join segs end
  end.

Definition path_Join_elems (elems : list string) : string :=
  match filter (λ s, s ≠ "") elems with
  | [] => ""
  | es => path_Clean (Join es)
  end.

(** ** [encoding/hex] *)

Definition hex_digit (n : nat) : Ascii.ascii :=
  if bool_decide (n < 10) then Ascii.ascii_of_nat (48 + n) else Ascii.ascii_of_nat (87 + n).

Fixpoint EncodeToString (s : string) : string :=
  match s with
  | EmptyString => ""
  | String c s' =>
      let n := Ascii.nat_of_ascii c in
      String (hex_digit (n / 16)) (String (hex_digit (n mod 16)) (EncodeToString s'))
  end.

(** Digits of either case are read. *)
Definition fromHexChar (c : Ascii.ascii) : option nat :=
  let n := Ascii.nat_of_ascii c in
  if bool_decide (48 ≤ n ≤ 57) then Some (n - 48)
  else if bool_decide (97 ≤ n ≤ 102) then Some (n - 87)
  else if bool_decide (65 ≤ n ≤ 70) then Some (n - 55)
  else None.

(** [None] is an error: a character that is no digit, or an odd length. *)
Fixpoint DecodeString (s : string) : option string :=
  match s with
  | EmptyString => Some ""
  | String _ EmptyString => None
  | String a (String b s') =>
      hi ← fromHexChar a; lo ← fromHexChar b; rest ← DecodeString s';
      Some (String (Ascii.ascii_of_nat (16 * hi + lo)) rest)
  end.

(** ** The adapter *)

Abbreviation keyHexEncoderDecoder := string.

Definition MasterCampaignKey : keyHexEncoderDecoder := "/data-flow/master/leader/".
Definition MasterInfoKey : keyHexEncoderDecoder := "/data-flow/master/info/".
Definition MasterMetaKey : keyHexEncoderDecoder := "/data-flow/master/meta/".
Definition NodeInfoKeyAdapter : keyHexEncoderDecoder := "/data-flow/node/info/".
Definition JobKeyAdapter : keyHexEncoderDecoder := "/data-flow/job/".
Definition TaskKeyAdapter : keyHexEncoderDecoder := "/data-flow/task/".
Definition WorkerKeyAdapter : keyHexEncoderDecoder := "/data-flow/worker/".
Definition UserKeyAdapter : keyHexEncoderDecoder := "/data-flow/user/".
Definition ResourceKeyAdapter : keyHexEncoderDecoder := "/data-flow/resources/".
Definition DMJobKeyAdapter : keyHexEncoderDecoder := "/data-flow/dm/job/".

Definition Encode (s : keyHexEncoderDecoder) (keys : list string) : string :=
  path_Join_elems (s :: (EncodeToString <$> keys)).

(** The string without a slash at its end. *)
Fixpoint trim_slash (s : string) : string :=
  match s with
  | EmptyString => ""
  | String c EmptyString => if decide (c = slash) then "" else s
  | String c s' => String c (trim_slash s')
  end.

Fixpoint str_drop (n : nat) (s : string) : string :=
  match n, s with S n', String _ s' => str_drop n' s' | _, _ => s end.

Definition TrimPrefix (s pfx : string) : string :=
  if String.prefix pfx s then str_drop (String.length pfx) s else s.

(** The loop over the segments. *)
Fixpoint decode_segments (v : list string) : res goerr (list string) :=
  match v with
  | [] => Done []
  | k :: v' =>
      match DecodeString k with
      | None => Fail (GoWrap ErrDecodeEtcdKeyFail (ErrForeign k))
      | Some dec => match decode_segments v' with Done ds => Done (dec :: ds) | Fail e => Fail e | Panic => Panic end
      end
  end.

(** [key[len(key)-1]] of the empty key is out of range. *)
Definition Decode (s : keyHexEncoderDecoder) (key : string) : res goerr (list string) :=
  if bool_decide (key = "") then Panic
  else decode_segments (Split (TrimPrefix (trim_slash key) s)).

Fixpoint ends_with_slash (s : string) : bool :=
  match s with
  | EmptyString => false
  | String c EmptyString => bool_decide (c = slash)
  | String _ s' => ends_with_slash s'
  end.

Definition Curry (s : keyHexEncoderDecoder) (keys : list string) : keyHexEncoderDecoder :=
  let prefix := Encode s keys in
  if negb (ends_with_slash prefix) then prefix +:+ "/" else prefix.

(** ** Specification *)

(** The path with the given segments, and a slash at its end. *)
Definition path_of (segs : list string) : string := String slash (Join segs +:+ "/").

Definition adapter (s : keyHexEncoderDecoder) (segs : list string) : Prop :=
  segs ≠ [] ∧ Forall proper segs ∧ s = path_of segs.

Definition adapters : list (list string) :=
  [["data-flow"; "master"; "leader"]; ["data-flow"; "master"; "info"]; ["data-flow"; "master"; "meta"];
   ["data-flow"; "node"; "info"]; ["data-flow"; "job"]; ["data-flow"; "task"]; ["data-flow"; "worker"];
   ["data-flow"; "user"]; ["data-flow"; "resources"]; ["data-flow"; "dm"; "job"]].

(** ** Lemmas on strings *)

Lemma str_app_assoc a b c : (a +:+ b) +:+ c = a +:+ (b +:+ c).
Proof. induction a as [|x a IH]; simpl; [done|]. unfold "+:+" in *. simpl. by rewrite IH. Qed.

Lemma str_app_nil_r a : a +:+ "" = a.
Proof. induction a as [|x a IH]; [done|]. unfold "+:+" in *. simpl. by rewrite IH. Qed.

Lemma TrimPrefix_app pfx s : TrimPrefix (pfx +:+ s) pfx = s.
Proof.
  unfold TrimPrefix. assert (String.prefix pfx (pfx +:+ s) = true) as ->.
  { induction pfx as [|c pfx IH]; simpl; [by destruct s|]. by destruct (Ascii.ascii_dec c c). }
  by induction pfx.
Qed.

Lemma Split_app x y : Split (x +:+ String slash y) = Split x ++ Split y.
Proof.
  induction x as [|c x IH]; [done|]. change (String c x +:+ String slash y) with (String c (x +:+ String slash y)).
  simpl. rewrite IH. case_decide; [done|]. destruct (Split x) as [|h t] eqn:Hs; [by apply Split_not_nil in Hs|]. done.
Qed.

Lemma Join_app a b : a ≠ [] → b ≠ [] → Join (a ++ b) = Join a +:+ String slash (Join b).
Proof.
  intros Ha Hb. induction a as [|x a IH]; [done|]. destruct a as [|y a].
  - simpl. by destruct b.
  - change (Join ((x :: y :: a) ++ b)) with (x +:+ String slash (Join ((y :: a) ++ b))). rewrite IH by done.
    change (Join (x :: y :: a)) with (x +:+ String slash (Join (y :: a))). rewrite str_app_assoc. done.
Qed.

Lemma trim_slash_app x y : y ≠ "" → trim_slash (x +:+ y) = x +:+ trim_slash y.
Proof.
  intros Hy. induction x as [|c x IH]; [done|]. change (String c x +:+ y) with (String c (x +:+ y)).
  change (String c x +:+ trim_slash y) with (String c (x +:+ trim_slash y)). rewrite <- IH.
  simpl. destruct (x +:+ y) eqn:Hxy; [|done]. destruct x; [by destruct y|done].
Qed.

Lemma no_slash_inv c s : no_slash (String c s) → c ≠ slash ∧ no_slash s.
Proof.
  unfold no_slash. simpl. case_decide as Hc; [done|]. intros H. split; [done|].
  destruct (Split s) as [|h t] eqn:Hs; [by apply Split_not_nil in Hs|]. naive_solver.
Qed.

Lemma trim_slash_proper s : no_slash s → trim_slash s = s.
Proof.
  induction s as [|c s IH]; intros Hs; [done|]. apply no_slash_inv in Hs as [Hc Hs]. simpl.
  destruct s as [|d s]; [by rewrite decide_False|]. by rewrite IH.
Qed.

Lemma trim_slash_Join a x : proper x → trim_slash (Join (a ++ [x])) = Join (a ++ [x]).
Proof.
  intros (Hx & Hne & _). destruct a as [|y a]; [by apply trim_slash_proper|].
  rewrite Join_app by done. rewrite trim_slash_app by done. f_equal. simpl.
  destruct x as [|c x]; [done|]. f_equal. by apply trim_slash_proper.
Qed.

(** ** Lemmas on hexadecimal strings *)

Lemma hex_digit_cases n : n < 16 → fromHexChar (hex_digit n) = Some n ∧ no_slash (String (hex_digit n) "") ∧ hex_digit n ≠ Ascii.ascii_of_nat 46.
Proof. intros Hn. do 16 (destruct n as [|n]; [by vm_compute|]). lia. Qed.

Lemma nat_of_ascii_bound c : Ascii.nat_of_ascii c < 256.
Proof. destruct c as [[] [] [] [] [] [] [] []]; vm_compute; lia. Qed.

Lemma hex_parts c : Ascii.nat_of_ascii c / 16 < 16 ∧ Ascii.nat_of_ascii c mod 16 < 16.
Proof.
  pose proof (nat_of_ascii_bound c). split; [apply Nat.Div0.div_lt_upper_bound; lia|by apply Nat.mod_upper_bound].
Qed.

Lemma DecodeString_EncodeToString s : DecodeString (EncodeToString s) = Some s.
Proof.
  induction s as [|c s IH]; [done|]. destruct (hex_parts c) as [Hhi Hlo]. cbn [EncodeToString DecodeString].
  destruct (hex_digit_cases _ Hhi) as [-> _]. destruct (hex_digit_cases _ Hlo) as [-> _]. rewrite IH. cbn [mbind option_bind].
  rewrite <- Nat.div_mod_eq. by rewrite Ascii.ascii_nat_embedding.
Qed.

Lemma EncodeToString_proper s : s ≠ "" → proper (EncodeToString s).
Proof.
  intros Hs. assert (∀ s, no_slash (EncodeToString s)) as Hns.
  { clear. induction s as [|c s IH]; [done|]. destruct (hex_parts c) as [Hhi Hlo]. cbn [EncodeToString].
    destruct (hex_digit_cases _ Hhi) as (_ & [Hc1 _]%no_slash_inv & _). destruct (hex_digit_cases _ Hlo) as (_ & [Hc2 _]%no_slash_inv & _).
    unfold no_slash in *. cbn [Split]. rewrite !decide_False by done. by rewrite IH. }
  destruct s as [|c s]; [done|]. split; [apply Hns|]. cbn [EncodeToString]. destruct (hex_parts c) as [Hhi _].
  destruct (hex_digit_cases _ Hhi) as (_ & _ & Hdot). split_and!; [done| |]; intros [=]; done.
Qed.

Lemma decode_segments_hex keys : decode_segments (EncodeToString <$> keys) = Done keys.
Proof. induction keys as [|k keys IH]; [done|]. csimpl. by rewrite DecodeString_EncodeToString, IH. Qed.

(** ** Lemmas on adapters *)

Lemma path_of_eq segs : path_of segs = String slash (Join segs) +:+ "/".
Proof. done. Qed.

Lemma hex_keys_proper keys : Forall (λ k, k ≠ "") keys → Forall proper (EncodeToString <$> keys).
Proof. intros Hk. apply Forall_fmap. eapply Forall_impl; [exact Hk|]. intros k. apply EncodeToString_proper. Qed.

Lemma proper_no_slash l : Forall proper l → Forall no_slash l.
Proof. intros H. eapply Forall_impl; [exact H|]. by intros x [? _]. Qed.

Lemma Encode_eq s segs keys :
  adapter s segs → Forall (λ k, k ≠ "") keys →
  Encode s keys = String slash (Join (segs ++ (EncodeToString <$> keys))).
Proof.
  intros (Hne & Hp & ->) Hk. pose proof (hex_keys_proper keys Hk) as Hh. set (hs := EncodeToString <$> keys) in *.
  unfold Encode, path_Join_elems. fold hs. rewrite filter_cons_True by done.
  rewrite (filter_Forall (λ s, s ≠ "") hs) by (eapply Forall_impl; [exact Hh|]; by intros x (_ & ? & _)).
  assert (foldl abs_step [] (segs ++ [""] ++ hs) = rev (segs ++ hs)) as Hfold.
  { rewrite foldl_app, (foldl_abs_step [] segs) by done. simpl. change (abs_step ?o "") with o. rewrite foldl_abs_step by done.
    by rewrite app_nil_r, rev_app_distr. }
  assert (path_Clean (Join (path_of segs :: hs)) = String slash (Join (rev (foldl abs_step [] (segs ++ [""] ++ hs))))) as ->.
  { destruct hs as [|h hs].
    - change (Join [path_of segs]) with (path_of segs). unfold path_of, path_Clean. rewrite decide_True by done. rewrite Split_app, Split_Join by (done || by apply proper_no_slash).
      done.
    - change (Join (path_of segs :: h :: hs)) with (path_of segs +:+ String slash (Join (h :: hs))). unfold path_of.
      change (String slash ?a +:+ ?b) with (String slash (a +:+ b)). unfold path_Clean. rewrite decide_True by done.
      rewrite !Split_app, !Split_Join by (done || by apply proper_no_slash). by rewrite <- app_assoc. }
  by rewrite Hfold, rev_involutive.
Qed.

Lemma Join_inj a b : a ≠ [] → b ≠ [] → Forall proper a → Forall proper b → Join a = Join b → a = b.
Proof.
  intros Ha Hb Hpa Hpb He. apply (f_equal Split) in He. rewrite !Split_Join in He; [done|done|by apply proper_no_slash|done|by apply proper_no_slash].
Qed.

#[global] Instance EncodeToString_inj : Inj (=) (=) EncodeToString.
Proof. intros a b H. apply (f_equal DecodeString) in H. rewrite !DecodeString_EncodeToString in H. by simplify_eq. Qed.

Lemma Join_snoc_proper a x : proper x → ends_with_slash (String slash (Join (a ++ [x]))) = false.
Proof.
  intros (Hx & Hne & _). assert (∀ s, s ≠ "" → no_slash s → ends_with_slash s = false) as Hend.
  { clear. induction s as [|c s IH]; intros Hn Hs; [done|]. apply no_slash_inv in Hs as [Hc Hs]. simpl.
    destruct s as [|d s]; [by apply bool_decide_eq_false|]. by apply IH. }
  assert (∀ p s, s ≠ "" → ends_with_slash (p +:+ s) = ends_with_slash s) as Happ.
  { clear. induction p as [|c p IH]; intros s Hs; [done|]. change (String c p +:+ s) with (String c (p +:+ s)).
    rewrite <- (IH s Hs). simpl. destruct (p +:+ s) eqn:Hps; [|done]. destruct p; [by destruct s|done]. }
  assert (String slash (Join (a ++ [x])) = (String slash (match a with [] => "" | _ => Join a +:+ "/" end)) +:+ x) as ->.
  { destruct a as [|y a]; [done|]. rewrite Join_app by done. change (String slash ?p +:+ ?q) with (String slash (p +:+ q)).
    by rewrite str_app_assoc. }
  rewrite Happ by done. by apply Hend.
Qed.

(** A curried adapter is the adapter of the longer path. *)
Lemma Curry_adapter s segs keys :
  adapter s segs → Forall (λ k, k ≠ "") keys → adapter (Curry s keys) (segs ++ (EncodeToString <$> keys)).
Proof.
  intros Ha Hk. pose proof (hex_keys_proper keys Hk) as Hh. unfold Curry. rewrite (Encode_eq s segs) by done.
  destruct Ha as (Hne & Hp & ->). assert (Forall proper (segs ++ (EncodeToString <$> keys))) as Hall by (by apply Forall_app).
  split_and!; [by destruct segs|done|]. destruct (segs ++ (EncodeToString <$> keys)) as [|z l _] eqn:He using rev_ind; [by destruct segs|].
  rewrite Join_snoc_proper; [done|]. by apply Forall_app in Hall as [_ [? _]%Forall_cons].
Qed.

Lemma Decode_Encode s segs keys :
  adapter s segs → keys ≠ [] → Forall (λ k, k ≠ "") keys → Decode s (Encode s keys) = Done keys.
Proof.
  intros Ha Hne Hk. pose proof (hex_keys_proper keys Hk) as Hh. rewrite (Encode_eq s segs) by done.
  destruct Ha as (Hs & Hp & ->). unfold Decode. rewrite bool_decide_eq_false_2 by done.
  assert (Forall no_slash (EncodeToString <$> keys)) as Hns by (by apply proper_no_slash).
  assert (trim_slash (String slash (Join (segs ++ (EncodeToString <$> keys)))) = path_of segs +:+ Join (EncodeToString <$> keys)) as ->.
  { destruct (segs ++ (EncodeToString <$> keys)) as [|z l _] eqn:He using rev_ind; [by destruct segs|].
    change (String slash (Join (l ++ [z]))) with ("/" +:+ Join (l ++ [z])). rewrite trim_slash_app.
    - rewrite trim_slash_Join.
      + rewrite <- He, Join_app by (done || by destruct keys). unfold path_of. change (String slash ?p +:+ ?q) with (String slash (p +:+ q)).
        by rewrite str_app_assoc.
      + assert (Forall proper (l ++ [z])) as Hall by (rewrite <- He; by apply Forall_app).
        by apply Forall_app in Hall as [_ [? _]%Forall_cons].
    - rewrite <- He, Join_app by (done || by destruct keys). by destruct (Join segs). }
  rewrite TrimPrefix_app, Split_Join by (done || by destruct keys). apply decode_segments_hex.
Qed.

(** ** Theorems *)

(** What an adapter encodes it decodes: for keys that are not empty, [Decode] of
    [Encode] gives back the list of keys. *)
Theorem decode_encode s segs keys :
  adapter s segs → keys ≠ [] → Forall (λ k, k ≠ "") keys → Decode s (Encode s keys) = Done keys.
Proof. apply Decode_Encode. Qed.

(** No two adapters of the engine share a key: an encoded key tells the adapter
    and the keys it was made from. *)
Theorem encode_injective segs1 segs2 keys1 keys2 :
  segs1 ∈ adapters → segs2 ∈ adapters → Forall (λ k, k ≠ "") keys1 → Forall (λ k, k ≠ "") keys2 →
  Encode (path_of segs1) keys1 = Encode (path_of segs2) keys2 → segs1 = segs2 ∧ keys1 = keys2.
Proof.
  intros H1 H2 Hk1 Hk2. assert (∀ segs, segs ∈ adapters → adapter (path_of segs) segs) as Had.
  { intros segs Hin. split_and!; [| |done]; revert segs Hin; apply Forall_forall; repeat constructor; done. }
  rewrite (Encode_eq _ segs1), (Encode_eq _ segs2) by auto. intros [= He].
  apply Join_inj in He; [|by destruct (Had _ H1), segs1|by destruct (Had _ H2), segs2|..];
    [|apply Forall_app; split; [by destruct (Had _ H1) as (_ & ? & _)|by apply hex_keys_proper]
     |apply Forall_app; split; [by destruct (Had _ H2) as (_ & ? & _)|by apply hex_keys_proper]].
  assert (segs1 = segs2) as <-.
  { assert (∀ a b, a ∈ adapters → b ∈ adapters → a `prefix_of` b → a = b) as Hfree.
    { intros a b Ha Hb. assert (Forall (λ a, Forall (λ b, a `prefix_of` b → a = b) adapters) adapters) as Hall.
      { apply (bool_decide_unpack _). vm_compute. done. }
      rewrite Forall_forall in Hall. specialize (Hall a Ha). rewrite Forall_forall in Hall. by apply Hall. }
    destruct (prefix_weak_total segs1 segs2 (segs1 ++ (EncodeToString <$> keys1))) as [Hp|Hp];
      [by eexists|rewrite He; by eexists|by apply Hfree|symmetry; by apply Hfree]. }
  split; [done|]. apply app_inv_head in He. revert He. apply (inj (fmap EncodeToString)).
Qed.

(** Currying is partial application: a key encoded by a curried adapter is the key
    encoded by the adapter with both lists. *)
Theorem curry_encode s segs keys keys' :
  adapter s segs → Forall (λ k, k ≠ "") keys → Forall (λ k, k ≠ "") keys' →
  Encode (Curry s keys) keys' = Encode s (keys ++ keys').
Proof.
  intros Ha Hk Hk'. rewrite (Encode_eq _ _ _ (Curry_adapter s segs keys Ha Hk)) by done.
  rewrite (Encode_eq s segs) by (done || by apply Forall_app). by rewrite fmap_app, app_assoc.
Qed.

(** An empty key is lost: [path.Join] drops it. *)
Lemma empty_key_lost : Decode JobKeyAdapter (Encode JobKeyAdapter [""; "a"]) = Done ["a"].
Proof. vm_compute. reflexivity. Qed.

Module Witness.

Lemma decode_encode_witness : Decode DMJobKeyAdapter (Encode DMJobKeyAdapter ["job/1"; ".."]) = Done ["job/1"; ".."].
Proof.
  apply (decode_encode DMJobKeyAdapter ["data-flow"; "dm"; "job"]); [split_and!; [done|repeat constructor; done|reflexivity]|done|].
  repeat constructor; done.
Defined.

Lemma encode_injective_witness :
  Encode (path_of ["data-flow"; "job"]) ["a"] = Encode (path_of ["data-flow"; "job"]) ["a"] ∧ ["data-flow"; "job"] = ["data-flow"; "job"] ∧ ["a"] = ["a"].
Proof.
  split; [reflexivity|]. apply (encode_injective ["data-flow"; "job"] ["data-flow"; "job"] ["a"] ["a"]);
    [set_solver|set_solver|repeat constructor; done|repeat constructor; done|reflexivity].
Defined.

Lemma curry_encode_witness : Encode (Curry MasterInfoKey ["x"]) ["y"] = Encode MasterInfoKey ["x"; "y"].
Proof.
  apply (curry_encode MasterInfoKey ["data-flow"; "master"; "info"] ["x"] ["y"]);
    [split_and!; [done|repeat constructor; done|reflexivity]|repeat constructor; done|repeat constructor; done].
Defined.

End Witness.
