(* ===== verification/MetaKV.v ===== *)
(** * Key-value metastore clients ([pkg/meta])

    Operations and their options ([metaclient/op.go]), the etcd client
    ([kvclient/etcdkv]), the client that confines a tenant to its name space
    ([namespace]) and the in-memory client ([kvclient/mock]). The etcd server and
    its client library are the class [Etcd]; clients are written against the
    interface [KVEx]. *)

From S2P Require Import Prelude Errors Model ResourcePath Keys.

(** ** Strings of bytes in their order *)

Fixpoint str_ltb (a b : string) : bool :=
  match a, b with
  | _, EmptyString => false
  | EmptyString, String _ _ => true
  | String x a', String y b' =>
      if decide (x = y) then str_ltb a' b' else bool_decide (Ascii.nat_of_ascii x < Ascii.nat_of_ascii y)
  end.

Definition zero_byte : string := String Ascii.zero "".

(** ** Operations ([metaclient/op.go]) *)

Inductive opType : Type := tInvalid | tGet | tPut | tDelete | tTxn.

#[global] Instance opType_eq_dec : EqDecision opType.
Proof. solve_decision. Defined.

Inductive Op : Type :=
| mkOp (T : opType) (key end_ val : string) (ops : list Op) (isOptsWithPrefix isOptsWithFromKey isOptsWithRange : bool).

Definition op_T (op : Op) : opType := match op with mkOp T _ _ _ _ _ _ _ => T end.
Definition KeyBytes (op : Op) : string := match op with mkOp _ k _ _ _ _ _ _ => k end.
Definition RangeBytes (op : Op) : string := match op with mkOp _ _ e _ _ _ _ _ => e end.
Definition ValueBytes (op : Op) : string := match op with mkOp _ _ _ v _ _ _ _ => v end.
Definition IsOptsWithPrefix (op : Op) : bool := match op with mkOp _ _ _ _ _ p _ _ => p end.
Definition IsOptsWithFromKey (op : Op) : bool := match op with mkOp _ _ _ _ _ _ f _ => f end.
Definition IsOptsWithRange (op : Op) : bool := match op with mkOp _ _ _ _ _ _ _ r => r end.
Definition IsTxn (op : Op) : bool := bool_decide (op_T op = tTxn).

Definition noPrefixEnd : string := zero_byte.

(** The last byte below 0xff is incremented and what follows it dropped; [None] when
    there is none. *)
Fixpoint next_prefix (key : string) : option string :=
  match key with
  | EmptyString => None
  | String c key' =>
      match next_prefix key' with
      | Some e => Some (String c e)
      | None =>
          if bool_decide (Ascii.nat_of_ascii c < 255) then Some (String (Ascii.ascii_of_nat (S (Ascii.nat_of_ascii c))) "")
          else None
      end
  end.

Definition getPrefix (key : string) : string := default noPrefixEnd (next_prefix key).

Inductive OpOption : Type := WithPrefix | WithRange (endKey : string) | WithFromKey.

Definition apply_opt (op : Op) (o : OpOption) : Op :=
  match op with
  | mkOp T key end_ val ops p f r =>
      match o with
      | WithPrefix =>
          if bool_decide (key = "") then mkOp T zero_byte zero_byte val ops p f r
          else mkOp T key (getPrefix key) val ops true f r
      | WithRange endKey => mkOp T key endKey val ops p f true
      | WithFromKey => mkOp T (if bool_decide (key = "") then zero_byte else key) zero_byte val ops p true r
      end
  end.

Definition ApplyOpts (op : Op) (opts : list OpOption) : Op := foldl apply_opt op opts.
Definition NewOp : Op := mkOp tInvalid "" "" "" [] false false false.
Definition opts_WithRange (opts : list OpOption) : bool := IsOptsWithRange (ApplyOpts NewOp opts).
Definition opts_WithPrefix (opts : list OpOption) : bool := IsOptsWithPrefix (ApplyOpts NewOp opts).
Definition opts_WithFromKey (opts : list OpOption) : bool := IsOptsWithFromKey (ApplyOpts NewOp opts).

Definition CheckValidOp (op : Op) : option goerr :=
  let r := IsOptsWithRange op in let p := IsOptsWithPrefix op in let f := IsOptsWithFromKey op in
  if negb (r || p || f) then None
  else if r && negb (p || f) then None
  else if p && negb (r || f) then None
  else if f && negb (p || r) then None
  else Some (GoErr ErrMetaOptionConflict "").

Definition OpGet (key : string) (opts : list OpOption) : Op := ApplyOpts (mkOp tGet key "" "" [] false false false) opts.
Definition OpDelete (key : string) (opts : list OpOption) : Op := ApplyOpts (mkOp tDelete key "" "" [] false false false) opts.
Definition OpPut (key val : string) : Op := mkOp tPut key "" val [] false false false.
Definition OpTxn (ops : list Op) : Op := mkOp tTxn "" "" "" ops false false false.

(** ** Responses ([metaclient/common.go]) *)

Record KeyValue := mkKeyValue { kv_Key : string; kv_Value : string }.

(** [OpResponse] and [ResponseOp]: one of the four is set. *)
Inductive OpResponse : Type :=
| RespPut
| RespGet (kvs : list KeyValue)
| RespDel
| RespTxn (responses : list OpResponse).

(** ** The interface [KVEx] ([extension/interface.go], [metaclient/kv.go])

    A transaction collects operations and is committed. *)
Class KVEx (DB : Type) := {
  kv_Do : Op → Go DB OpResponse;
  kv_txn : Type;
  kv_Txn : kv_txn;
  kv_TxnDo : list Op → Go kv_txn unit;
  kv_Commit : Go (DB * kv_txn) (list OpResponse);
}.

(** ** The interface [KV] of a client ([metaclient/kv.go])

    [kvc_Txn ops] is [Txn(ctx).Do(ops...).Commit()]. *)
Class KV (DB : Type) := {
  kvc_Put : string → string → Go DB unit;
  kvc_Get : string → list OpOption → Go DB (list KeyValue);
  kvc_Delete : string → list OpOption → Go DB unit;
  kvc_Txn : list Op → Go DB (list OpResponse);
}.

(** ** Name spaces ([namespace]) *)

Definition MakeNamespacePrefix (tenantID : string) : string := tenantID +:+ "/".

(** The loop that increments the bytes from the last one on until one does not wrap
    around; the flag tells that there was one. *)
Fixpoint inc_bytes (s : string) : bool * string :=
  match s with
  | EmptyString => (false, "")
  | String c s' =>
      match inc_bytes s' with
      | (true, e) => (true, String c e)
      | (false, e) =>
          let c' := Ascii.ascii_of_nat ((Ascii.nat_of_ascii c + 1) mod 256) in
          (bool_decide (c' ≠ Ascii.zero), String c' e)
      end
  end.

Definition prefixInterval (pfx key end_ : string) : string * string :=
  (pfx +:+ key,
   if bool_decide (end_ = zero_byte) then
     match inc_bytes pfx with (true, e) => e | (false, _) => zero_byte end
   else if bool_decide (end_ ≠ "") then pfx +:+ end_
   else "").

Fixpoint prefixOp (pfx : string) (op : Op) : Op :=
  match op with
  | mkOp tTxn _ _ _ ops _ _ _ => OpTxn (prefixOp pfx <$> ops)
  | mkOp T key end_ val ops p f r => let '(b, e) := prefixInterval pfx key end_ in mkOp T b e val ops p f r
  end.

Definition prefixOps (pfx : string) (ops : list Op) : list Op := prefixOp pfx <$> ops.

(** [key[len(pfx):]] is out of range when the key is shorter. *)
Definition unprefixKey (pfx : string) (kv : KeyValue) : res goerr KeyValue :=
  if bool_decide (String.length pfx ≤ String.length (kv_Key kv))
  then Done (mkKeyValue (str_drop (String.length pfx) (kv_Key kv)) (kv_Value kv))
  else Panic.

Fixpoint mapR {A B} (f : A → res goerr B) (l : list A) : res goerr (list B) :=
  match l with
  | [] => Done []
  | x :: l' =>
      match f x with
      | Done y => match mapR f l' with Done ys => Done (y :: ys) | Fail e => Fail e | Panic => Panic end
      | Fail e => Fail e
      | Panic => Panic
      end
  end.

Definition unprefixGetResponse (pfx : string) (kvs : list KeyValue) : res goerr (list KeyValue) := mapR (unprefixKey pfx) kvs.

Fixpoint unprefixResponse (pfx : string) (r : OpResponse) : res goerr OpResponse :=
  match r with
  | RespGet kvs => match unprefixGetResponse pfx kvs with Done l => Done (RespGet l) | Fail e => Fail e | Panic => Panic end
  | RespTxn rs =>
      match mapR (unprefixResponse pfx) rs with Done l => Done (RespTxn l) | Fail e => Fail e | Panic => Panic end
  | RespPut => Done RespPut
  | RespDel => Done RespDel
  end.


Section kvPrefix.
Context {DB : Type} `{!KVEx DB}.
Variable pfx : string.

Definition kvPrefix_Put (key val : string) : Go DB unit :=
  if bool_decide (key = "") then throw (GoErr ErrMetaEmptyKey "")
  else _ ← kv_Do (prefixOp pfx (OpPut key val)); mret tt.

(** The guard of [Get] and [Delete]. *)
Definition empty_key (key : string) (opts : list OpOption) : bool :=
  bool_decide (key = "") && negb (opts_WithFromKey opts || opts_WithPrefix opts || opts_WithRange opts).

Definition kvPrefix_Get (key : string) (opts : list OpOption) : Go DB (list KeyValue) :=
  if empty_key key opts then throw (GoErr ErrMetaEmptyKey "")
  else r ← kv_Do (prefixOp pfx (OpGet key opts));
       match r with RespGet kvs => lift_res (unprefixGetResponse pfx kvs) | _ => panic end.

Definition kvPrefix_Delete (key : string) (opts : list OpOption) : Go DB unit :=
  if empty_key key opts then throw (GoErr ErrMetaEmptyKey "")
  else _ ← kv_Do (prefixOp pfx (OpDelete key opts)); mret tt.

Definition kvPrefix_Do (op : Op) : Go DB OpResponse :=
  if bool_decide (KeyBytes op = "") && negb (IsTxn op) then throw (GoErr ErrMetaEmptyKey "")
  else r ← kv_Do (prefixOp pfx op); lift_res (unprefixResponse pfx r).

(** A transaction: [Do] any number of times, then [Commit]. *)
Definition txnPrefix_Do (ops : list Op) : Go kv_txn unit := kv_TxnDo (prefixOps pfx ops).

Definition txnPrefix_Commit : Go (DB * kv_txn) (list OpResponse) :=
  rs ← kv_Commit; lift_res (mapR (unprefixResponse pfx) rs).

(** [NewPrefixKV]. A transaction starts from a new one of the wrapped client. *)
Definition NewPrefixKV : KV DB := {|
  kvc_Put := kvPrefix_Put; kvc_Get := kvPrefix_Get; kvc_Delete := kvPrefix_Delete;
  kvc_Txn ops db :=
    match txnPrefix_Do ops kv_Txn with
    | (Done _, t) => let '(r, (db', _)) := txnPrefix_Commit (db, t) in (r, db')
    | (Fail e, _) => (Fail e, db)
    | (Panic, _) => (Panic, db)
    end;
|}.

End kvPrefix.

(** ** The etcd client ([kvclient/etcdkv]) *)

(** Operations of [clientv3] with their options. *)
Inductive eopt : Type := EWithPrefix | EWithFromKey | EWithRange (endKey : string).
Inductive eop : Type :=
| EGet (key : string) (opts : list eopt)
| EPut (key val : string) (opts : list eopt)
| EDelete (key : string) (opts : list eopt)
| ETxn (ops : list eop).

Inductive eresp : Type :=
| EGetResp (kvs : list (string * string))
| EPutResp
| EDeleteResp
| ETxnResp (responses : list eresp).

Definition getEtcdOptions (op : Op) : list eopt :=
  if IsOptsWithPrefix op then [EWithPrefix]
  else if IsOptsWithFromKey op then [EWithFromKey]
  else if IsOptsWithRange op then [EWithRange (RangeBytes op)]
  else [].

Fixpoint getEtcdOp (op : Op) : res goerr eop :=
  let opts := getEtcdOptions op in
  match op with
  | mkOp tGet key _ _ _ _ _ _ => Done (EGet key opts)
  | mkOp tPut key _ val _ _ _ _ => Done (EPut key val opts)
  | mkOp tDelete key _ _ _ _ _ _ => Done (EDelete key opts)
  | mkOp tTxn _ _ _ ops _ _ _ =>
      match mapR getEtcdOp ops with Done l => Done (ETxn l) | Fail e => Fail e | Panic => Panic end
  | mkOp tInvalid _ _ _ _ _ _ _ => Panic
  end.

(** The library and the server: [etcd_kvs] are the keys and values, [etcd_rev] is
    the revision. *)
Class Etcd (DB : Type) := {
  etcd_kvs : DB → gmap string string;
  etcd_rev : DB → Z;
  etcd_Do : eop → GoM string DB eresp;
}.

(** The keys an operation applies to. *)
Definition ecovers (opts : list eopt) (key x : string) : bool :=
  match opts with
  | [] => bool_decide (x = key)
  | EWithPrefix :: _ => String.prefix key x
  | EWithFromKey :: _ => negb (str_ltb x key)
  | EWithRange e :: _ =>
      if bool_decide (e = "") then bool_decide (x = key)
      else if bool_decide (e = zero_byte) then negb (str_ltb x key)
      else negb (str_ltb x key) && str_ltb x e
  end.

(** What etcd documents of an operation that succeeds. *)
Definition eapply_one (op : eop) (m : gmap string string) (r : eresp) (m' : gmap string string) : Prop :=
  match op, r with
  | EGet key opts, EGetResp kvs => kvs ≡ₚ map_to_list (filter (λ kv, ecovers opts key kv.1 = true) m) ∧ m' = m
  | EPut key val _, EPutResp => m' = <[key := val]> m
  | EDelete key opts, EDeleteResp => m' = filter (λ kv, ecovers opts key kv.1 = false) m
  | _, _ => False
  end.

Inductive eapply_all : list eop → gmap string string → list eresp → gmap string string → Prop :=
| eapply_nil m : eapply_all [] m [] m
| eapply_cons op ops r rs m1 m2 m3 :
    eapply_one op m1 r m2 → eapply_all ops m2 rs m3 → eapply_all (op :: ops) m1 (r :: rs) m3.

Definition eapply (op : eop) (m : gmap string string) (r : eresp) (m' : gmap string string) : Prop :=
  match op with
  | ETxn ops => ∃ rs, r = ETxnResp rs ∧ eapply_all ops m rs m'
  | _ => eapply_one op m r m'
  end.

Class EtcdLaws (DB : Type) `{!Etcd DB} : Prop := {
  etcd_Do_law op db :
    match (etcd_Do op db).1 with
    | Done r => eapply op (etcd_kvs db) r (etcd_kvs (etcd_Do op db).2)
    | Fail _ => etcd_kvs (etcd_Do op db).2 = etcd_kvs db ∨
                ∃ r, eapply op (etcd_kvs db) r (etcd_kvs (etcd_Do op db).2)
    | Panic => False
    end;
  etcd_rev_law op db : (etcd_rev db ≤ etcd_rev (etcd_Do op db).2)%Z;
  etcd_put_rev_law key val opts db r : (etcd_Do (EPut key val opts) db).1 = Done r → (etcd_rev db < etcd_rev (etcd_Do (EPut key val opts) db).2)%Z;
}.

Section etcdImpl.
Context {DB : Type} `{!Etcd DB}.

Definition etcdErrorFromOpFail (err : string) : goerr := GoErr ErrMetaOpFail err.

Definition cli_Do (op : eop) : Go DB eresp := λ db,
  match etcd_Do op db with
  | (Done r, db') => (Done r, db')
  | (Fail err, db') => (Fail (etcdErrorFromOpFail err), db')
  | (Panic, db') => (Panic, db')
  end.

Definition makeGetResp (kvs : list (string * string)) : list KeyValue := (λ kv, mkKeyValue kv.1 kv.2) <$> kvs.

(** A nested transaction is not expected in the response to a transaction. *)
Definition makeTxnResp (rs : list eresp) : res goerr (list OpResponse) :=
  mapR (λ r, match r with
             | EGetResp kvs => Done (RespGet (makeGetResp kvs))
             | EPutResp => Done RespPut
             | EDeleteResp => Done RespDel
             | ETxnResp _ => Panic
             end) rs.

(** The responses are read as the type of the operation says: another one is a nil
    pointer. *)
Definition etcd_Do_op (op : Op) : Go DB OpResponse :=
  match CheckValidOp op with
  | Some err => throw (GoWrap ErrMetaOptionInvalid err)
  | None =>
      e ← lift_res (getEtcdOp op);
      r ← cli_Do e;
      match op_T op, r with
      | tGet, EGetResp kvs => mret (RespGet (makeGetResp kvs))
      | tPut, EPutResp => mret RespPut
      | tDelete, EDeleteResp => mret RespDel
      | tTxn, ETxnResp rs => l ← lift_res (makeTxnResp rs); mret (RespTxn l)
      | _, _ => panic
      end
  end.

Definition etcd_Put (key val : string) : Go DB unit :=
  e ← lift_res (getEtcdOp (OpPut key val));
  r ← cli_Do e;
  match r with EPutResp => mret tt | _ => panic end.

Definition etcd_Get (key : string) (opts : list OpOption) : Go DB (list KeyValue) :=
  let op := OpGet key opts in
  match CheckValidOp op with
  | Some err => throw (GoWrap ErrMetaOptionInvalid err)
  | None =>
      e ← lift_res (getEtcdOp op);
      r ← cli_Do e;
      match r with EGetResp kvs => mret (makeGetResp kvs) | _ => panic end
  end.

Definition etcd_Delete (key : string) (opts : list OpOption) : Go DB unit :=
  let op := OpDelete key opts in
  match CheckValidOp op with
  | Some err => throw (GoWrap ErrMetaOptionInvalid err)
  | None =>
      e ← lift_res (getEtcdOp op);
      r ← cli_Do e;
      match r with EDeleteResp => mret tt | _ => panic end
  end.

(** The revision after a write of a fixed key. *)
Definition etcd_GenEpoch : Go DB Z := λ db,
  match etcd_Do (EPut "/fake-key" "/fake-value" []) db with
  | (Done _, db') => (Done (etcd_rev db'), db')
  | (Fail err, db') => (Fail (GoErr ErrMetaOpFail (goerr_msg (GoWrap ErrMasterEtcdEpochFail (ErrForeign err)))), db')
  | (Panic, db') => (Panic, db')
  end.

Record etcdTxn := mkEtcdTxn { et_ops : list eop; et_Err : option goerr; et_committed : bool }.

Definition newEtcdTxn : etcdTxn := mkEtcdTxn [] None false.

(** The loop over the operations: [inl] is the error it stops with. *)
Fixpoint txn_ops (ops : list Op) : res goerr (goerr + list eop) :=
  match ops with
  | [] => Done (inr [])
  | op :: ops' =>
      if IsTxn op then Done (inl (GoErr ErrMetaNestedTxn ""))
      else match getEtcdOp op with
           | Done e =>
               match txn_ops ops' with
               | Done (inr es) => Done (inr (e :: es))
               | out => out
               end
           | Fail err => Fail err
           | Panic => Panic
           end
  end.

Definition etcdTxn_Do (ops : list Op) : Go etcdTxn unit := λ t,
  match et_Err t with
  | Some _ => (Done tt, t)
  | None =>
      if et_committed t then (Done tt, mkEtcdTxn (et_ops t) (Some (GoErr ErrMetaCommittedTxn "")) true)
      else match txn_ops ops with
           | Done (inl err) => (Done tt, mkEtcdTxn (et_ops t) (Some err) false)
           | Done (inr es) => (Done tt, mkEtcdTxn (et_ops t ++ es) None false)
           | Fail err => (Fail err, t)
           | Panic => (Panic, t)
           end
  end.

Definition etcdTxn_Commit : Go (DB * etcdTxn) (list OpResponse) := λ '(db, t),
  match et_Err t with
  | Some err => (Fail err, (db, t))
  | None =>
      if et_committed t then
        let err := GoErr ErrMetaCommittedTxn "" in (Fail err, (db, mkEtcdTxn (et_ops t) (Some err) true))
      else
        let t' := mkEtcdTxn (et_ops t) None true in
        match cli_Do (ETxn (et_ops t)) db with
        | (Done (ETxnResp rs), db') => (makeTxnResp rs, (db', t'))
        | (Done _, db') => (Panic, (db', t'))
        | (Fail err, db') => (Fail err, (db', t'))
        | (Panic, db') => (Panic, (db', t'))
        end
  end.

#[global] Instance etcd_KVEx : KVEx DB := {|
  kv_Do := etcd_Do_op; kv_txn := etcdTxn; kv_Txn := newEtcdTxn; kv_TxnDo := etcdTxn_Do; kv_Commit := etcdTxn_Commit;
|}.

End etcdImpl.

(** ** The in-memory client ([kvclient/mock/simple_mockclient.go]) *)

Record MetaMock := mkMetaMock { mock_store : gmap string string; mock_revision : Z }.

Definition NewMetaMock : MetaMock := mkMetaMock ∅ 0.

Section mock.
(** The order in which the store is ranged over. *)
Variable order : gmap string string → list string.

(** The options are not looked at. *)
Definition deleteNoLock (key : string) : Go MetaMock unit :=
  modify (λ m, mkMetaMock (delete key (mock_store m)) (int64 (mock_revision m + 1))).

Definition putNoLock (key value : string) : Go MetaMock unit :=
  modify (λ m, mkMetaMock (<[key := value]> (mock_store m)) (int64 (mock_revision m + 1))).

(** Every key with the given prefix. *)
Definition getNoLock (key : string) : Go MetaMock (list KeyValue) := λ m,
  (Done (omap (λ k, if String.prefix key k then (λ v, mkKeyValue k v) <$> mock_store m !! k else None) (order (mock_store m))), m).

Definition unrecognized : goerr := GoWrap ErrMetaOptionInvalid (ErrForeign "unrecognized op type").

Definition doNoLock (op : Op) : Go MetaMock OpResponse :=
  match op_T op with
  | tGet => kvs ← getNoLock (KeyBytes op); mret (RespGet kvs)
  | tDelete => _ ← deleteNoLock (KeyBytes op); mret RespDel
  | tPut => _ ← putNoLock (KeyBytes op) (ValueBytes op); mret RespPut
  | _ => throw unrecognized
  end.

Fixpoint commit_ops (ops : list Op) : Go MetaMock (list OpResponse) :=
  match ops with
  | [] => mret []
  | op :: ops' => r ← doNoLock op; rs ← commit_ops ops'; mret (r :: rs)
  end.

(** An operation that fails leaves the effects of those before it. *)
Definition mockTxn_Commit : Go (MetaMock * list Op) (list OpResponse) := λ '(m, ops),
  match commit_ops ops m with (out, m') => (out, (m', ops)) end.

Definition mock_GenEpoch : Go MetaMock Z := λ m,
  let r := int64 (mock_revision m + 1) in (Done r, mkMetaMock (mock_store m) r).

Definition mock_KVEx : KVEx MetaMock := {|
  kv_Do := doNoLock; kv_txn := list Op; kv_Txn := [];
  kv_TxnDo ops := modify (λ t, t ++ ops); kv_Commit := mockTxn_Commit;
|}.

End mock.

(** ** An in-memory etcd *)

Record RefEtcd := mkRefEtcd { ref_kvs : gmap string string; ref_rev : Z }.

Definition ref_one (op : eop) (m : gmap string string) : option (eresp * gmap string string) :=
  match op with
  | EGet key opts => Some (EGetResp (map_to_list (filter (λ kv, ecovers opts key kv.1 = true) m)), m)
  | EPut key val _ => Some (EPutResp, <[key := val]> m)
  | EDelete key opts => Some (EDeleteResp, filter (λ kv, ecovers opts key kv.1 = false) m)
  | ETxn _ => None
  end.

Fixpoint ref_all (ops : list eop) (m : gmap string string) : option (list eresp * gmap string string) :=
  match ops with
  | [] => Some ([], m)
  | op :: ops' => '(r, m1) ← ref_one op m; '(rs, m2) ← ref_all ops' m1; Some (r :: rs, m2)
  end.

#[global] Instance RefEtcd_etcd : Etcd RefEtcd := {|
  etcd_kvs := ref_kvs; etcd_rev := ref_rev;
  etcd_Do op db :=
    match match op with
          | ETxn ops => '(rs, m) ← ref_all ops (ref_kvs db); Some (ETxnResp rs, m)
          | _ => ref_one op (ref_kvs db)
          end with
    | Some (r, m) => (Done r, mkRefEtcd m (ref_rev db + 1))
    | None => (Fail "nested transaction", db)
    end;
|}.

Lemma ref_one_apply op m r m' : ref_one op m = Some (r, m') → eapply_one op m r m'.
Proof. destruct op; simpl; intros ?; simplify_eq; done. Qed.

Lemma ref_all_apply ops m rs m' : ref_all ops m = Some (rs, m') → eapply_all ops m rs m'.
Proof.
  revert m rs m'. induction ops as [|op ops IH]; intros m rs m'; simpl; [intros [= <- <-]; constructor|].
  destruct (ref_one op m) as [[r m1]|] eqn:H1; [|done]. simpl. destruct (ref_all ops m1) as [[rs1 m2]|] eqn:H2; [|done].
  simpl. intros [= <- <-]. econstructor; [by apply ref_one_apply|by apply IH].
Qed.

#[global] Instance RefEtcd_laws : EtcdLaws RefEtcd.
Proof.
  split.
  - intros op db. simpl. destruct op as [k o|k v o|k o|ops]; simpl; try done.
    destruct (ref_all ops (ref_kvs db)) as [[rs m]|] eqn:Ha; simpl; [|by left]. exists rs. split; [done|]. by apply ref_all_apply.
  - intros op db. simpl. destruct (match op with ETxn _ => _ | _ => _ end) as [[r m]|]; simpl; lia.
  - intros key val opts db r _. simpl. lia.
Qed.

(** ** Lemmas on the order of keys *)

Lemma str_cons_app c a b : String c a +:+ b = String c (a +:+ b).
Proof. done. Qed.

Lemma str_ltb_irrefl a : str_ltb a a = false.
Proof. induction a as [|c a IH]; simpl; [done|]. by rewrite decide_True. Qed.

Lemma str_ltb_app p a b : str_ltb (p +:+ a) (p +:+ b) = str_ltb a b.
Proof. induction p as [|c p IH]; [done|]. rewrite !str_cons_app. simpl. by rewrite decide_True. Qed.

Lemma str_app_inj p a b : p +:+ a = p +:+ b → a = b.
Proof. induction p as [|c p IH]; [done|]. rewrite !str_cons_app. intros [= ?]. auto. Qed.

(** What lies between two keys with the same prefix has that prefix. *)
Lemma str_between p k e y :
  str_ltb y (p +:+ k) = false → str_ltb y (p +:+ e) = true → ∃ x, y = p +:+ x.
Proof.
  revert y. induction p as [|c p IH]; intros y; [intros; by exists y|]. rewrite !str_cons_app. intros H1 H2.
  destruct y as [|d y]; [done|]. simpl in *. case_decide as Hd; subst.
  - destruct (IH y H1 H2) as [x ->]. by exists x.
  - apply bool_decide_eq_false in H1. by apply bool_decide_eq_true in H2.
Qed.

(** The first key after those with the prefix [t/] is [t0]. *)
Lemma str_ltb_edge t x : str_ltb (t +:+ String slash x) (t +:+ "0") = true.
Proof. rewrite str_ltb_app. simpl. by destruct x. Qed.

Lemma str_edge t k y :
  str_ltb y (t +:+ String slash k) = false → str_ltb y (t +:+ "0") = true → ∃ x, y = t +:+ String slash x.
Proof.
  intros H1 H2. destruct (str_between t _ _ y H1 H2) as [z ->]. rewrite str_ltb_app in H1, H2.
  destruct z as [|c z]; [done|]. simpl in H1, H2. exists z. case_decide as Hc; [by subst|].
  apply bool_decide_eq_false in H1. case_decide as Hc2; [by destruct z|]. apply bool_decide_eq_true in H2.
  exfalso. apply Hc. rewrite <- (Ascii.ascii_nat_embedding c). remember (Ascii.nat_of_ascii c) as n eqn:Hn. clear Hn.
  change (n < 48) in H2. change (¬ n < 47) in H1. assert (n = 47) as -> by lia. done.
Qed.

Lemma inc_bytes_slash t : inc_bytes (MakeNamespacePrefix t) = (true, t +:+ "0").
Proof. unfold MakeNamespacePrefix. induction t as [|c t IH]; [done|]. rewrite !str_cons_app. simpl. by rewrite IH. Qed.

Lemma namespace_app t x : MakeNamespacePrefix t +:+ x = t +:+ String slash x.
Proof. unfold MakeNamespacePrefix. by rewrite str_app_assoc. Qed.

Lemma prefix_iff p s : String.prefix p s = true ↔ ∃ x, s = p +:+ x.
Proof.
  revert s. induction p as [|c p IH]; intros s; [split; [intros _; by exists s|by destruct s]|]. destruct s as [|d s].
  - split; [done|]. by intros [x ?].
  - simpl. destruct (Ascii.ascii_dec c d) as [<-|Hne].
    + rewrite IH. split; intros [x Hx]; exists x; [by rewrite Hx|]. rewrite str_cons_app in Hx. by simplify_eq.
    + split; [done|]. intros [x Hx]. rewrite str_cons_app in Hx. by simplify_eq.
Qed.

(** What [next_prefix] computes, and what its absence means. *)
Lemma next_prefix_spec key x :
  String.prefix key x = negb (str_ltb x key) && match next_prefix key with Some e => str_ltb x e | None => true end.
Proof.
  revert x. induction key as [|c key IH]; intros x; [by destruct x|]. destruct x as [|d x]; [done|].
  assert (∀ a b, Ascii.nat_of_ascii a = Ascii.nat_of_ascii b → a = b) as Hinj.
  { intros a b He. by rewrite <- (Ascii.ascii_nat_embedding a), <- (Ascii.ascii_nat_embedding b), He. }
  pose proof (nat_of_ascii_bound d) as Hd. pose proof (nat_of_ascii_bound c) as Hc.
  simpl. destruct (Ascii.ascii_dec c d) as [<-|Hne].
  - rewrite decide_True by done. rewrite IH. destruct (next_prefix key) as [e|]; simpl; [by rewrite decide_True|].
    case_bool_decide as Hlt; [|done]. f_equal. simpl.
    assert (Ascii.nat_of_ascii (Ascii.ascii_of_nat (S (Ascii.nat_of_ascii c))) = S (Ascii.nat_of_ascii c)) as Hs
      by (apply Ascii.nat_ascii_embedding; lia).
    rewrite decide_False; [symmetry; apply bool_decide_eq_true; lia|]. intros He. rewrite <- He in Hs. lia.
  - rewrite decide_False by done. assert (Ascii.nat_of_ascii c ≠ Ascii.nat_of_ascii d) by (intros ?; by apply Hne, Hinj).
    symmetry. apply andb_false_iff. case_bool_decide as Hlt; [by left|]. right.
    destruct (next_prefix key) as [e|]; simpl; [rewrite decide_False by done; apply bool_decide_eq_false; lia|].
    case_bool_decide as Hlt'; [|lia]. simpl.
    assert (Ascii.nat_of_ascii (Ascii.ascii_of_nat (S (Ascii.nat_of_ascii c))) = S (Ascii.nat_of_ascii c)) as Hs
      by (apply Ascii.nat_ascii_embedding; lia).
    case_decide; [by destruct x|]. apply bool_decide_eq_false. lia.
Qed.

(** Name spaces of different tenants have no key in common. *)
Lemma namespaces_disjoint t t' x x' :
  no_slash t → no_slash t' →
  MakeNamespacePrefix t +:+ x = MakeNamespacePrefix t' +:+ x' → t = t'.
Proof.
  rewrite !namespace_app. revert t'. induction t as [|c t IH]; intros [|c' t'] Ht Ht' He; [done|..].
  - apply no_slash_inv in Ht' as [? _]. injection He as He _. congruence.
  - apply no_slash_inv in Ht as [? _]. injection He as He _. congruence.
  - apply no_slash_inv in Ht as [_ Ht]. apply no_slash_inv in Ht' as [_ Ht']. rewrite !str_cons_app in He. simplify_eq. f_equal. auto.
Qed.

(** ** What an operation of a tenant covers *)

Definition covers (opts : list OpOption) (key x : string) : bool :=
  ecovers ((λ o, match o with WithPrefix => EWithPrefix | WithRange e => EWithRange e | WithFromKey => EWithFromKey end) <$> opts) key x.

(** At most one option, and not [WithFromKey]. *)
Definition confined (opts : list OpOption) : Prop := opts = [] ∨ opts = [WithPrefix] ∨ ∃ e, opts = [WithRange e].

(** The options that reach etcd, with the end of the range in the name space. *)
Definition ns_opts (t : string) (opts : list OpOption) : list eopt :=
  match opts with
  | [] => []
  | WithPrefix :: _ => [EWithPrefix]
  | WithFromKey :: _ => [EWithFromKey]
  | WithRange e :: _ => [EWithRange (prefixInterval (MakeNamespacePrefix t) "" e).2]
  end.

Lemma ns_covers t opts key y :
  confined opts →
  ecovers (ns_opts t opts) (MakeNamespacePrefix t +:+ key) y = true ↔
  ∃ x, y = MakeNamespacePrefix t +:+ x ∧ covers opts key x = true.
Proof.
  intros [->|[->|[e ->]]]; unfold covers; simpl.
  - rewrite bool_decide_eq_true. split; [intros ->; exists key; by rewrite bool_decide_eq_true|].
    intros (x & -> & Hx). apply bool_decide_eq_true in Hx. by subst.
  - rewrite prefix_iff. split.
    + intros [x ->]. exists (key +:+ x). rewrite str_app_assoc, prefix_iff. eauto.
    + intros (x & -> & [z ->]%prefix_iff). exists z. by rewrite str_app_assoc.
  - rewrite inc_bytes_slash. destruct (decide (e = zero_byte)) as [->|He0]; [|destruct (decide (e = "")) as [->|He1]].
    + rewrite (bool_decide_eq_true_2 (zero_byte = zero_byte)) by done.
      rewrite (bool_decide_eq_false_2 (t +:+ "0" = "")) by (by destruct t).
      rewrite (bool_decide_eq_false_2 (t +:+ "0" = zero_byte)) by (by destruct t as [|? [|]]).
      rewrite (bool_decide_eq_false_2 (zero_byte = "")) by done.
      rewrite andb_true_iff, negb_true_iff, !namespace_app. setoid_rewrite namespace_app. setoid_rewrite negb_true_iff. split.
      * intros [H1 H2]. destruct (str_edge _ _ _ H1 H2) as [x ->]. exists x. split; [done|]. by rewrite str_ltb_app in H1.
      * intros (x & -> & Hx). split; [|apply str_ltb_edge]. by rewrite str_ltb_app.
    + rewrite (bool_decide_eq_false_2 ("" = zero_byte)), (bool_decide_eq_false_2 ("" ≠ "")) by naive_solver.
      rewrite !(bool_decide_eq_true_2 ("" = "")), bool_decide_eq_true by done. setoid_rewrite bool_decide_eq_true.
      split; [intros ->; by exists key|by intros (x & -> & ->)].
    + rewrite !(bool_decide_eq_false_2 (e = zero_byte)), (bool_decide_eq_true_2 (e ≠ "")) by done.
      rewrite (bool_decide_eq_false_2 (MakeNamespacePrefix t +:+ e = "")) by (by destruct t).
      rewrite (bool_decide_eq_false_2 (MakeNamespacePrefix t +:+ e = zero_byte)) by (destruct t as [|? [|]]; done).
      rewrite (bool_decide_eq_false_2 (e = "")), andb_true_iff, negb_true_iff by done.
      setoid_rewrite andb_true_iff. setoid_rewrite negb_true_iff. split.
      * intros [H1 H2]. destruct (str_between _ _ _ _ H1 H2) as [x ->]. exists x. by rewrite !str_ltb_app in *.
      * intros (x & -> & H1 & H2). by rewrite !str_ltb_app.
Qed.

Lemma ns_Get_op t key opts :
  key ≠ "" → confined opts ∨ opts = [WithFromKey] →
  CheckValidOp (prefixOp (MakeNamespacePrefix t) (OpGet key opts)) = None ∧
  getEtcdOp (prefixOp (MakeNamespacePrefix t) (OpGet key opts)) = Done (EGet (MakeNamespacePrefix t +:+ key) (ns_opts t opts)) ∧
  op_T (prefixOp (MakeNamespacePrefix t) (OpGet key opts)) = tGet.
Proof. intros Hk [[->|[->|[e ->]]]| ->]; unfold OpGet; simpl; rewrite ?(bool_decide_eq_false_2 (key = "")) by done; done. Qed.

Lemma ns_Delete_op t key opts :
  key ≠ "" → confined opts ∨ opts = [WithFromKey] →
  CheckValidOp (prefixOp (MakeNamespacePrefix t) (OpDelete key opts)) = None ∧
  getEtcdOp (prefixOp (MakeNamespacePrefix t) (OpDelete key opts)) = Done (EDelete (MakeNamespacePrefix t +:+ key) (ns_opts t opts)) ∧
  op_T (prefixOp (MakeNamespacePrefix t) (OpDelete key opts)) = tDelete.
Proof. intros Hk [[->|[->|[e ->]]]| ->]; unfold OpDelete; simpl; rewrite ?(bool_decide_eq_false_2 (key = "")) by done; done. Qed.

(** ** A tenant's client as a private store *)

Inductive nsop : Type :=
| NPut (key val : string)
| NGet (key : string) (opts : list OpOption)
| NDelete (key : string) (opts : list OpOption).

Inductive nsres : Type := NDone | NKvs (kvs : list KeyValue).

Definition allowed (op : nsop) : Prop :=
  match op with
  | NPut key _ => key ≠ ""
  | NGet key opts | NDelete key opts => key ≠ "" ∧ confined opts
  end.

Definition run_ns {DB} `{!KVEx DB} (t : string) (op : nsop) : Go DB nsres :=
  let pfx := MakeNamespacePrefix t in
  match op with
  | NPut key val => _ ← kvPrefix_Put pfx key val; mret NDone
  | NGet key opts => kvs ← kvPrefix_Get pfx key opts; mret (NKvs kvs)
  | NDelete key opts => _ ← kvPrefix_Delete pfx key opts; mret NDone
  end.

(** The operation on a store of the tenant's own. *)
Definition ns_spec (op : nsop) (s : string → option string) (r : nsres) (s' : string → option string) : Prop :=
  match op, r with
  | NPut key val, NDone => ∀ x, s' x = if decide (x = key) then Some val else s x
  | NGet key opts, NKvs kvs =>
      NoDup kvs ∧ (∀ x v, mkKeyValue x v ∈ kvs ↔ s x = Some v ∧ covers opts key x = true) ∧ ∀ x, s' x = s x
  | NDelete key opts, NDone => ∀ x, s' x = if covers opts key x then None else s x
  | _, _ => False
  end.

Section namespace_proofs.
Context {DB : Type} `{!Etcd DB, !EtcdLaws DB}.

(** What a tenant sees of the keys. *)
Definition view (t : string) (m : gmap string string) (x : string) : option string := m !! (MakeNamespacePrefix t +:+ x).

(** The operation as etcd gets it. *)
Definition ns_eop (t : string) (op : nsop) : eop :=
  match op with
  | NPut key val => EPut (MakeNamespacePrefix t +:+ key) val []
  | NGet key opts => EGet (MakeNamespacePrefix t +:+ key) (ns_opts t opts)
  | NDelete key opts => EDelete (MakeNamespacePrefix t +:+ key) (ns_opts t opts)
  end.

Lemma unprefix_kvs t (kvs : list (string * string)) :
  (∀ kv, kv ∈ kvs → ∃ x, kv.1 = MakeNamespacePrefix t +:+ x) →
  ∃ l, unprefixGetResponse (MakeNamespacePrefix t) (makeGetResp kvs) = Done l ∧
    (λ kv, (MakeNamespacePrefix t +:+ kv_Key kv, kv_Value kv)) <$> l = kvs.
Proof.
  set (pfx := MakeNamespacePrefix t). induction kvs as [|[k v] kvs IH]; intros Hall; [by exists []|].
  destruct IH as (l & Hl & Hm); [set_solver|]. destruct (Hall (k, v)) as [x Hx]; [set_solver|]. simpl in Hx. subst k.
  exists (mkKeyValue x v :: l). unfold unprefixGetResponse, makeGetResp in *. csimpl. rewrite Hl. unfold unprefixKey. simpl.
  assert (∀ p, String.length p ≤ String.length (p +:+ x) ∧ str_drop (String.length p) (p +:+ x) = x) as Hdrop.
  { clear. induction p as [|c p IH]; simpl; [split; [lia|done]|]. change (String.append p x) with (p +:+ x). destruct IH. split; [lia|done]. }
  destruct (Hdrop pfx) as [Hlen Hd]. rewrite bool_decide_eq_true_2 by done. rewrite Hd. split; [done|]. csimpl. by rewrite Hm.
Qed.

Lemma makeGetResp_NoDup m (P : string * string → Prop) `{!∀ x, Decision (P x)} kvs :
  kvs ≡ₚ map_to_list (filter P (m : gmap string string)) → NoDup kvs ∧ ∀ k v, (k, v) ∈ kvs ↔ m !! k = Some v ∧ P (k, v).
Proof.
  intros Hp. split; [rewrite Hp; apply NoDup_map_to_list|]. intros k v. rewrite Hp, elem_of_map_to_list, map_lookup_filter_Some. done.
Qed.

(** The step of the store seen from all tenants. *)
Lemma ns_eop_others t t' op m r m' x :
  allowed op → no_slash t → no_slash t' → t ≠ t' → eapply (ns_eop t op) m r m' → view t' m' x = view t' m x.
Proof.
  intros Hal Ht Ht' Hne. assert (∀ y, MakeNamespacePrefix t +:+ y ≠ MakeNamespacePrefix t' +:+ x) as Hdis.
  { intros y He. by apply Hne, (namespaces_disjoint t t' y x). }
  destruct op as [key val|key opts|key opts], r; simpl; try done; unfold view.
  - intros ->. by rewrite lookup_insert_ne.
  - intros [_ ->]. done.
  - intros ->. destruct Hal as [_ Hc]. apply option_eq. intros v. rewrite map_lookup_filter_Some. simpl.
    split; [naive_solver|]. intros Hv. split; [done|]. apply not_true_iff_false. intros Hcov.
    apply ns_covers in Hcov as (y & He & _); [|done]. by apply (Hdis y).
Qed.

(** What the client makes of the answer. *)
Definition ns_result (t : string) (op : nsop) (r : eresp) : res goerr nsres :=
  match op, r with
  | NPut _ _, EPutResp | NDelete _ _, EDeleteResp => Done NDone
  | NGet _ _, EGetResp kvs =>
      match unprefixGetResponse (MakeNamespacePrefix t) (makeGetResp kvs) with Done l => Done (NKvs l) | Fail e => Fail e | Panic => Panic end
  | _, _ => Panic
  end.

Lemma ns_eop_spec t op m r m' :
  allowed op → eapply (ns_eop t op) m r m' →
  ∃ r', ns_result t op r = Done r' ∧ ns_spec op (view t m) r' (view t m').
Proof.
  intros Hal. destruct op as [key val|key opts|key opts], r as [kvs| | |rs]; simpl; try done.
  - intros ->. eexists. split; [done|]. intros x. unfold view. case_decide as He; [subst; by rewrite lookup_insert_eq|].
    rewrite lookup_insert_ne; [done|]. intros ?%str_app_inj. congruence.
  - intros [Hkvs ->]. destruct Hal as [_ Hc]. apply makeGetResp_NoDup in Hkvs as [Hnd Hin].
    destruct (unprefix_kvs t kvs) as (l & Hl & Hm).
    { intros [k v] [_ Hcov]%Hin. apply ns_covers in Hcov as (x & ? & _); [by exists x|done]. }
    rewrite Hl. eexists. split; [done|]. split_and!; [|intros x v|done].
    + rewrite <- Hm in Hnd. by apply NoDup_fmap_1 in Hnd.
    + unfold view. transitivity ((MakeNamespacePrefix t +:+ x, v) ∈ kvs).
      * rewrite <- Hm, list_elem_of_fmap. split.
        -- intros Hx. by exists (mkKeyValue x v).
        -- intros ([x' v'] & Hpair & Hx). simpl in Hpair. injection Hpair as He ->. apply str_app_inj in He. by subst.
      * rewrite Hin. simpl. rewrite ns_covers by done. split.
        -- intros [? (x' & He & ?)]. apply str_app_inj in He. by subst.
        -- intros [? ?]. split; [done|]. by exists x.
  - intros ->. eexists. split; [done|]. destruct Hal as [_ Hc]. intros x. unfold view. apply option_eq. intros v.
    rewrite map_lookup_filter_Some. simpl. destruct (covers opts key x) eqn:Hcov.
    + split; [|done]. intros [_ Hf]. exfalso. apply not_true_iff_false in Hf. apply Hf, ns_covers; [done|]. by exists x.
    + split; [by intros [? _]|]. intros Hv. split; [done|]. apply not_true_iff_false. intros Ht.
      apply ns_covers in Ht as (x' & He & Hcov'); [|done]. apply str_app_inj in He. congruence.
Qed.

Lemma run_ns_eq t op db :
  allowed op →
  run_ns t op db =
    match cli_Do (ns_eop t op) db with
    | (Done r, db') => (ns_result t op r, db')
    | (Fail e, db') => (Fail e, db')
    | (Panic, db') => (Panic, db')
    end.
Proof.
  intros Hal. destruct op as [key val|key opts|key opts]; simpl in Hal; unfold run_ns.
  - unfold kvPrefix_Put. rewrite bool_decide_eq_false_2 by done. unfold mbind, GoM_bind. simpl. unfold etcd_Do_op. simpl.
    unfold mbind, GoM_bind, lift_res. simpl. destruct (cli_Do _ db) as [[[]|e|] db']; done.
  - destruct Hal as [Hk Hc]. destruct (ns_Get_op t key opts Hk (or_introl Hc)) as (H1 & H2 & H3).
    unfold kvPrefix_Get, empty_key. rewrite bool_decide_eq_false_2 by done. cbn [andb]. unfold mbind, GoM_bind. simpl. unfold etcd_Do_op.
    rewrite H1, H2. unfold mbind, GoM_bind, lift_res. rewrite H3. destruct (cli_Do _ db) as [[[]|e|] db']; simpl; try done.
    by destruct (unprefixGetResponse _ _).
  - destruct Hal as [Hk Hc]. destruct (ns_Delete_op t key opts Hk (or_introl Hc)) as (H1 & H2 & H3).
    unfold kvPrefix_Delete, empty_key. rewrite bool_decide_eq_false_2 by done. cbn [andb]. unfold mbind, GoM_bind. simpl. unfold etcd_Do_op.
    rewrite H1, H2. unfold mbind, GoM_bind, lift_res. rewrite H3. by destruct (cli_Do _ db) as [[[]|e|] db'].
Qed.

End namespace_proofs.

(** ** What a client promises

    [kv_view] is the store as the client sees it. A read of one key returns its value;
    a transaction of one write takes effect, or fails with or without effect. *)
Class KVLaws {DB : Type} (kv : KV DB) (kv_view : DB → string → option string) : Prop := {
  kvc_Get_law key db :
    key ≠ "" →
    match kvc_Get key [] db with
    | (Done kvs, db') =>
        kvs = match kv_view db key with Some v => [mkKeyValue key v] | None => [] end ∧ ∀ x, kv_view db' x = kv_view db x
    | (Fail _, db') => ∀ x, kv_view db' x = kv_view db x
    | (Panic, _) => False
    end;
  kvc_Put_law key val db :
    key ≠ "" →
    match kvc_Txn [OpPut key val] db with
    | (Done _, db') => ∀ x, kv_view db' x = if decide (x = key) then Some val else kv_view db x
    | (Fail _, db') => (∀ x, kv_view db' x = kv_view db x) ∨ ∀ x, kv_view db' x = if decide (x = key) then Some val else kv_view db x
    | (Panic, _) => False
    end;
  kvc_Delete_law key db :
    key ≠ "" →
    match kvc_Txn [OpDelete key []] db with
    | (Done _, db') => ∀ x, kv_view db' x = if decide (x = key) then None else kv_view db x
    | (Fail _, db') => (∀ x, kv_view db' x = kv_view db x) ∨ ∀ x, kv_view db' x = if decide (x = key) then None else kv_view db x
    | (Panic, _) => False
    end;
}.

Section prefix_client.
Context {DB : Type} `{!Etcd DB, !EtcdLaws DB}.

Lemma NoDup_elem_unique (kvs : list KeyValue) key (o : option string) :
  NoDup kvs → (∀ x v, mkKeyValue x v ∈ kvs ↔ o = Some v ∧ x = key) →
  kvs = match o with Some v => [mkKeyValue key v] | None => [] end.
Proof.
  intros Hnd Hin. destruct o as [v|].
  - assert (mkKeyValue key v ∈ kvs) as Hv by (by apply Hin). destruct kvs as [|[x1 v1] kvs]; [by apply not_elem_of_nil in Hv|].
    assert (x1 = key ∧ v1 = v) as [-> ->] by (destruct (proj1 (Hin x1 v1)) as [? ->]; [left|naive_solver]).
    destruct kvs as [|[x2 v2] kvs]; [done|]. exfalso.
    destruct (proj1 (Hin x2 v2)) as [? ->]; [right; left|]. simplify_eq. apply NoDup_cons in Hnd as [Hnd _]. apply Hnd. left.
  - destruct kvs as [|[x v] kvs]; [done|]. destruct (proj1 (Hin x v)) as [? _]; [left|done].
Qed.

(** A transaction of one write is that write. *)
Lemma prefix_Txn_one t op e (db : DB) :
  getEtcdOp (prefixOp (MakeNamespacePrefix t) op) = Done e → IsTxn (prefixOp (MakeNamespacePrefix t) op) = false →
  @kvc_Txn _ (NewPrefixKV (MakeNamespacePrefix t)) [op] db =
    match cli_Do (ETxn [e]) db with
    | (Done (ETxnResp rs), db') =>
        (match makeTxnResp rs with
         | Done l => mapR (unprefixResponse (MakeNamespacePrefix t)) l
         | Fail err => Fail err
         | Panic => Panic
         end, db')
    | (Done _, db') => (Panic, db')
    | (Fail err, db') => (Fail err, db')
    | (Panic, db') => (Panic, db')
    end.
Proof.
  intros He Ht. cbn [kvc_Txn NewPrefixKV]. unfold txnPrefix_Do, prefixOps. cbn [kv_TxnDo kv_Txn etcd_KVEx fmap list_fmap].
  unfold etcdTxn_Do. cbn [et_Err newEtcdTxn et_committed txn_ops]. rewrite Ht, He. cbn [et_ops]. unfold txnPrefix_Commit, mbind, GoM_bind.
  unfold kv_Commit, etcd_KVEx, etcdTxn_Commit. cbn [et_Err et_committed et_ops app newEtcdTxn].
  destruct (cli_Do (ETxn [e]) db) as [[r|err|] db1]; [|done|done]. destruct r as [kvs| | |rs]; [done..|]. unfold lift_res. by destruct (makeTxnResp rs).
Qed.

Lemma eapply_one_txn e m r m' : eapply (ETxn [e]) m r m' → ∃ r1, r = ETxnResp [r1] ∧ eapply_one e m r1 m'.
Proof.
  intros (rs & -> & Hall). inversion Hall as [|? ? r1 rs1 ? m2 ? H1 H2]; subst. inversion H2; subst. by exists r1.
Qed.

Lemma prefix_Txn_write t op key spec e (db : DB) :
  getEtcdOp (prefixOp (MakeNamespacePrefix t) op) = Done e → IsTxn (prefixOp (MakeNamespacePrefix t) op) = false →
  (∀ m r m', eapply_one e m r m' → (r = EPutResp ∨ r = EDeleteResp) ∧ ∀ x, view t m' x = if decide (x = key) then spec else view t m x) →
  match @kvc_Txn _ (NewPrefixKV (MakeNamespacePrefix t)) [op] db with
  | (Done _, db') => ∀ x, view t (etcd_kvs db') x = if decide (x = key) then spec else view t (etcd_kvs db) x
  | (Fail _, db') =>
      (∀ x, view t (etcd_kvs db') x = view t (etcd_kvs db) x) ∨
      ∀ x, view t (etcd_kvs db') x = if decide (x = key) then spec else view t (etcd_kvs db) x
  | (Panic, _) => False
  end.
Proof.
  intros H2 H3 Hs. rewrite (prefix_Txn_one t op e) by done. unfold cli_Do. pose proof (etcd_Do_law (ETxn [e]) db) as Hl.
  destruct (etcd_Do (ETxn [e]) db) as [[r|err|] db1]; cbn [fst snd] in Hl; [|destruct Hl as [Hl|[r Hl]]|done].
  - apply eapply_one_txn in Hl as (r1 & -> & Hl). destruct (Hs _ _ _ Hl) as [[-> | ->] Hv]; exact Hv.
  - left. intros x. by rewrite Hl.
  - right. apply eapply_one_txn in Hl as (r1 & -> & Hl). apply (Hs _ _ _ Hl).
Qed.

(** A tenant's client keeps the promise. *)
#[global] Instance prefix_client_laws t :
  KVLaws (NewPrefixKV (DB := DB) (MakeNamespacePrefix t)) (λ db, view t (etcd_kvs db)).
Proof.
  split.
  - intros key db Hk. pose proof (run_ns_eq t (NGet key []) db (conj Hk (or_introl eq_refl))) as He. unfold run_ns in He.
    cbn [kvc_Get NewPrefixKV]. unfold cli_Do in He. pose proof (etcd_Do_law (ns_eop t (NGet key [])) db) as Hl.
    unfold mbind, GoM_bind in He. destruct (etcd_Do _ db) as [[r|err|] db1]; cbn [fst snd] in Hl; [| |done].
    + destruct (ns_eop_spec t (NGet key []) _ _ _ (conj Hk (or_introl eq_refl)) Hl) as (r' & Hr & Hspec). rewrite Hr in He.
      destruct (kvPrefix_Get _ key [] db) as [[kvs|?|] db2]; [|done|done]. injection He as Hkv <-. subst r'. destruct Hspec as (Hnd & Hin & Hv).
      split; [|exact Hv]. apply NoDup_elem_unique; [done|]. intros x v. rewrite Hin. unfold covers. simpl. rewrite bool_decide_eq_true.
      split; [intros [? ->]|intros [? ->]]; done.
    + destruct (kvPrefix_Get _ key [] db) as [[kvs|?|] db2]; [done| |done]. injection He as _ <-.
      intros x. destruct Hl as [->|[r Hr]]; [done|]. destruct r; try done. by destruct Hr as [_ ->].
  - intros key val db Hk. apply (prefix_Txn_write t _ _ _ (EPut (MakeNamespacePrefix t +:+ key) val [])); [done..|].
    intros m r m'. destruct r; try done. intros ->. split; [by left|]. intros x. unfold view. case_decide as He; [subst; by rewrite lookup_insert_eq|].
    rewrite lookup_insert_ne; [done|]. intros ?%str_app_inj. congruence.
  - intros key db Hk. apply (prefix_Txn_write t _ _ _ (EDelete (MakeNamespacePrefix t +:+ key) [])); [done..|].
    intros m r m'. destruct r; try done. intros ->. split; [by right|]. intros x. unfold view. apply option_eq. intros v.
    rewrite map_lookup_filter_Some. simpl. rewrite bool_decide_eq_false. case_decide as He.
    + subst. naive_solver.
    + split; [by intros [? _]|]. intros ?. split; [done|]. intros ?%str_app_inj. congruence.
Qed.

End prefix_client.

(** ** Theorems *)

(** C37: the range of a prefix is exact: the keys with a prefix are those from the prefix
    on and before its range end, or all from the prefix on when the prefix has no
    byte below 0xff. *)
Theorem prefix_range_exact key x :
  key ≠ "" →
  String.prefix key x = negb (str_ltb x key) && (bool_decide (getPrefix key = zero_byte) || str_ltb x (getPrefix key)).
Proof.
  intros Hk. rewrite next_prefix_spec. unfold getPrefix. destruct (next_prefix key) as [e|] eqn:He; [|done]. simpl.
  rewrite bool_decide_eq_false_2; [done|]. intros ->. destruct key as [|c key]; [done|]. simpl in He.
  destruct (next_prefix key) as [e|] eqn:Hk'; simplify_eq.
  - injection He as -> ->. destruct key as [|d key]; [done|]. simpl in Hk'. destruct (next_prefix key); [done|]. by destruct (bool_decide _).
  - case_bool_decide as Hlt; [|done]. injection He as He. apply (f_equal Ascii.nat_of_ascii) in He.
    rewrite Ascii.nat_ascii_embedding in He by lia. done.
Qed.


(** [WithFromKey] escapes from the name space: a tenant that deletes from one of its
    keys on deletes every key of every tenant from there on. *)
Theorem from_key_escapes_namespace {DB} `{!Etcd DB, !EtcdLaws DB} t key (db db' : DB) :
  key ≠ "" → kvPrefix_Delete (MakeNamespacePrefix t) key [WithFromKey] db = (Done tt, db') →
  ∀ t' x, str_ltb (MakeNamespacePrefix t' +:+ x) (MakeNamespacePrefix t +:+ key) = false →
    view t' (etcd_kvs db') x = None.
Proof.
  intros Hk. destruct (ns_Delete_op t key [WithFromKey] Hk (or_intror eq_refl)) as (H1 & H2 & H3).
  unfold kvPrefix_Delete, empty_key. rewrite bool_decide_eq_false_2 by done. cbn [andb]. unfold mbind, GoM_bind.
  cbn [kv_Do etcd_KVEx]. unfold etcd_Do_op. rewrite H1, H2. unfold mbind, GoM_bind, lift_res. rewrite H3. unfold cli_Do.
  pose proof (etcd_Do_law (EDelete (MakeNamespacePrefix t +:+ key) (ns_opts t [WithFromKey])) db) as Hlaw.
  destruct (etcd_Do _ db) as [[r|e|] db1]; [|done|done]. destruct r; try done. simpl in Hlaw. intros [= <-] t' x Hx.
  unfold view. rewrite Hlaw. apply map_lookup_filter_None. right. intros v _. simpl. rewrite Hx. done.
Qed.

(** The prefix option is never recognised among options without a key, so a tenant
    cannot list its whole name space: the empty key is refused. *)
Theorem prefix_of_everything_refused {DB} `{!KVEx DB} pfx (db : DB) :
  kvPrefix_Get pfx "" [WithPrefix] db = (Fail (GoErr ErrMetaEmptyKey ""), db).
Proof. done. Qed.

(** Epochs of the etcd client increase: an epoch is larger than every revision, and
    so every epoch, before it. *)
Theorem etcd_epochs_increase {DB} `{!Etcd DB, !EtcdLaws DB} (db db' : DB) ep :
  etcd_GenEpoch db = (Done ep, db') → ep = etcd_rev db' ∧ (etcd_rev db < ep)%Z.
Proof.
  unfold etcd_GenEpoch. pose proof (etcd_put_rev_law "/fake-key" "/fake-value" [] db) as Hlaw.
  destruct (etcd_Do _ db) as [[r|e|] db1]; [|done|done]. intros [= <- <-]. split; [done|]. by apply (Hlaw r).
Qed.

(** A transaction takes effect once and entirely. A commit that succeeds applies the
    collected operations in order in one step; a transaction with a nested
    transaction in it, or that was committed before, changes nothing. *)
Theorem etcd_txn_atomic {DB} `{!Etcd DB, !EtcdLaws DB} (db : DB) t out db' t' :
  etcdTxn_Commit (db, t) = (out, (db', t')) →
  match out with
  | Done rs =>
      et_Err t = None ∧ et_committed t = false ∧ et_committed t' = true ∧
      ∃ ers, makeTxnResp ers = Done rs ∧ eapply_all (et_ops t) (etcd_kvs db) ers (etcd_kvs db')
  | Fail e =>
      (et_Err t = Some e ∨ et_committed t = true) ∧ db' = db ∨
      et_committed t' = true ∧
        (etcd_kvs db' = etcd_kvs db ∨ ∃ ers, eapply_all (et_ops t) (etcd_kvs db) ers (etcd_kvs db'))
  | Panic => False
  end.
Proof.
  unfold etcdTxn_Commit. destruct (et_Err t) as [err|] eqn:He; [intros [= <- <- <-]; left; split; [by left|done]|].
  destruct (et_committed t) eqn:Hc; [intros [= <- <- <-]; left; split; [by right|done]|].
  unfold cli_Do. pose proof (etcd_Do_law (ETxn (et_ops t)) db) as Hlaw.
  destruct (etcd_Do _ db) as [[r|e|] db1]; simpl in *; [|intros [= <- <- <-]|done].
  - destruct Hlaw as (rs & -> & Hall). intros [= <- <- <-].
    assert (∃ l, makeTxnResp rs = Done l) as [l Hl].
    { clear -Hall. induction Hall as [|op ops r rs m1 m2 m3 H1 _ IH]; [by exists []|]. destruct IH as [l Hl].
      unfold makeTxnResp in *. simpl. rewrite Hl. destruct op, r; simpl in *; (done || by eexists). }
    rewrite Hl. split_and!; [done..|]. by exists rs.
  - right. split; [done|]. destruct Hlaw as [->|(r & rs & -> & Hall)]; [by left|right; by exists rs].
Qed.

Module Witness.

Definition db0 : RefEtcd := mkRefEtcd {["a/k" := "1"; "b/k" := "2"]} 7.


Lemma from_key_escapes_namespace_witness :
  view "b" (etcd_kvs (kvPrefix_Delete (MakeNamespacePrefix "a") "k" [WithFromKey] db0).2) "k" = None.
Proof. eapply (from_key_escapes_namespace "a" "k" db0); [done|vm_compute; reflexivity|vm_compute; reflexivity]. Defined.

Lemma etcd_epochs_increase_witness : (8 = etcd_rev (etcd_GenEpoch db0).2 ∧ etcd_rev db0 < 8)%Z.
Proof. apply (etcd_epochs_increase db0 (etcd_GenEpoch db0).2 8). vm_compute. reflexivity. Defined.


Definition txn1 : etcdTxn := mkEtcdTxn [EPut "a/x" "9" []; EDelete "a/k" []] None false.

Lemma etcd_txn_atomic_witness :
  ∃ ers, makeTxnResp ers = Done [RespPut; RespDel] ∧
    eapply_all (et_ops txn1) (etcd_kvs db0) ers (etcd_kvs (etcdTxn_Commit (db0, txn1)).2.1).
Proof.
  destruct (etcd_txn_atomic db0 txn1 (Done [RespPut; RespDel]) (etcdTxn_Commit (db0, txn1)).2.1 (mkEtcdTxn (et_ops txn1) None true))
    as (_ & _ & _ & H); [vm_compute; reflexivity|exact H].
Defined.

Lemma prefix_range_exact_witness :
  String.prefix "ab" "abc" = negb (str_ltb "abc" "ab") && (bool_decide (getPrefix "ab" = zero_byte) || str_ltb "abc" (getPrefix "ab")).
Proof. apply prefix_range_exact. done. Defined.

End Witness.
