(* ===== verification/DMConfig.v ===== *)
(** * Configuration, status and checkpoints of data migration jobs

    [jobmaster/dm/config], [jobmaster/dm/runtime] and
    [jobmaster/dm/checkpoint]. The types of the data migration libraries and
    their codecs are classes; a pointer that may be nil is an option. *)

From S2P Require Import Prelude Errors Model ResourcePath Keys.

(** ** [jobmaster/dm/config/config.go] *)

(** Types and task modes of the data migration and table routing libraries. *)
Class dmconfig := {
  DBConfig : Type;
  BinlogEventRule : Type;
  ExpressionFilter : Type;
  FilterRules : Type;
  MydumperConfig : Type;
  LoaderConfig : Type;
  SyncerConfig : Type;
  ValidatorConfig : Type;
  TableRule : Type;
  ColumnRule : Type;
  Meta : Type;
  (** Fields of [MySQLInstance] the repository does not read. *)
  MySQLInstance_rest : Type;
  ModeAll : string;
  ModeFull : string;
  ModeIncrement : string;
  (** They are keys of one map literal. *)
  modes_distinct : NoDup [ModeAll; ModeFull; ModeIncrement];
}.

Section config.
Context `{!dmconfig}.

Record MySQLInstance := mkMySQLInstance {
  mi_SourceID : string;
  mi_Meta : option Meta;
  mi_FilterRules : list string;
  mi_ColumnMappingRules : list string;
  mi_RouteRules : list string;
  mi_ExpressionFilters : list string;
  mi_BAListName : string;
  mi_Mydumper : option MydumperConfig;
  mi_Loader : option LoaderConfig;
  mi_Syncer : option SyncerConfig;
  mi_rest : MySQLInstance_rest;
}.

Record UpstreamCfg := mkUpstreamCfg { us_MySQLInstance : MySQLInstance; us_DBCfg : option DBConfig }.

Record JobCfg := mkJobCfg {
  jc_Name : string;
  jc_TaskMode : string;
  jc_ShardMode : string;
  jc_IgnoreCheckingItems : list string;
  jc_Timezone : string;
  jc_CaseSensitive : bool;
  jc_CollationCompatible : string;
  jc_TargetDB : option DBConfig;
  jc_ShadowTableRules : list string;
  jc_TrashTableRules : list string;
  jc_Filters : gmap string BinlogEventRule;
  jc_ExprFilter : gmap string ExpressionFilter;
  jc_BAList : gmap string FilterRules;
  jc_Mydumpers : gmap string MydumperConfig;
  jc_Loaders : gmap string LoaderConfig;
  jc_Syncers : gmap string SyncerConfig;
  jc_Routes : gmap string TableRule;
  jc_Validators : gmap string ValidatorConfig;
  jc_Upstreams : list UpstreamCfg;
  jc_AsyncCheckpointFlush : bool;
  jc_MetaSchema : string;
  jc_OnlineDDL : bool;
  jc_ColumnMappings : gmap string ColumnRule;
}.

(** [type TaskCfg JobCfg] *)
Definition TaskCfg : Type := JobCfg.

Definition jc_zero : JobCfg :=
  mkJobCfg "" "" "" [] "" false "" None [] [] ∅ ∅ ∅ ∅ ∅ ∅ ∅ ∅ [] false "" false ∅.

Definition set_Upstreams (us : list UpstreamCfg) (c : JobCfg) : JobCfg :=
  mkJobCfg (jc_Name c) (jc_TaskMode c) (jc_ShardMode c) (jc_IgnoreCheckingItems c) (jc_Timezone c) (jc_CaseSensitive c)
    (jc_CollationCompatible c) (jc_TargetDB c) (jc_ShadowTableRules c) (jc_TrashTableRules c) (jc_Filters c)
    (jc_ExprFilter c) (jc_BAList c) (jc_Mydumpers c) (jc_Loaders c) (jc_Syncers c) (jc_Routes c) (jc_Validators c)
    us (jc_AsyncCheckpointFlush c) (jc_MetaSchema c) (jc_OnlineDDL c) (jc_ColumnMappings c).

(** The YAML library, and the task configuration of the data migration library.
    Unmarshalling fills in a given value and may leave it partly filled. The
    instances of a task configuration are shared with the job's upstreams: adjusting
    the task adjusts them in place. *)
Class DMCodec := {
  yaml_Marshal : JobCfg → string + string;
  yaml_Unmarshal : string → JobCfg → JobCfg * option string;
  yaml_UnmarshalStrict : string → JobCfg → JobCfg * option string;
  TaskConfig : Type;
  yaml_UnmarshalTask : string → TaskConfig * option string;
  TaskConfig_Adjust : TaskConfig → list MySQLInstance → TaskConfig * list MySQLInstance * option string;
  TaskConfig_String : TaskConfig → list MySQLInstance → string;
}.

Context `{!DMCodec}.

Definition Yaml (c : JobCfg) : res goerr string :=
  match yaml_Marshal c with inl err => Fail (ErrForeign err) | inr s => Done s end.

(** The clone, [None] for a nil pointer, and the error. *)
Definition Clone (c : JobCfg) : option JobCfg * option goerr :=
  match Yaml c with
  | Done content => let '(clone, err) := yaml_Unmarshal content jc_zero in (Some clone, ErrForeign <$> err)
  | Fail err => (None, Some err)
  | Panic => (None, None)
  end.

(** The body of the loop ignores the error of [Clone]; a nil clone is dereferenced. *)
Definition ToTaskConfigs (c : JobCfg) : res goerr (gmap string TaskCfg) :=
  foldl (λ taskCfgs us,
    match taskCfgs, (Clone c).1 with
    | Done m, Some jobCfg => Done (<[mi_SourceID (us_MySQLInstance us) := set_Upstreams [us] jobCfg]> m)
    | Done _, None => Panic
    | r, _ => r
    end) (Done ∅) (jc_Upstreams c).

Definition toDMTaskCfg (c : JobCfg) : res goerr (TaskConfig * list MySQLInstance) :=
  match Yaml c with
  | Fail err => Fail err
  | Panic => Panic
  | Done content =>
      match yaml_UnmarshalTask content with
      | (_, Some err) => Fail (ErrForeign err)
      | (t, None) => Done (t, us_MySQLInstance <$> jc_Upstreams c)
      end
  end.

Definition fromDMTaskCfg (t : TaskConfig) (insts : list MySQLInstance) : Go JobCfg unit := λ c,
  match yaml_Unmarshal (TaskConfig_String t insts) c with
  | (c', Some err) => (Fail (ErrForeign err), c')
  | (c', None) => (Done tt, c')
  end.

(** The instances as adjusted, seen through the shared pointers. *)
Definition share (insts : list MySQLInstance) (c : JobCfg) : JobCfg :=
  set_Upstreams (zip_with (λ us i, mkUpstreamCfg i (us_DBCfg us)) (jc_Upstreams c) insts) c.

Definition adjust : Go JobCfg unit := λ c,
  match toDMTaskCfg c with
  | Fail err => (Fail err, c)
  | Panic => (Panic, c)
  | Done (t, insts) =>
      let '(t', insts', err) := TaskConfig_Adjust t insts in
      match err with
      | Some err => (Fail (ErrForeign err), share insts' c)
      | None => fromDMTaskCfg t' insts' (share insts' c)
      end
  end.

Definition JobCfg_Decode (content : string) : Go JobCfg unit := λ c,
  match yaml_UnmarshalStrict content c with
  | (c', Some err) => (Fail (ErrForeign err), c')
  | (c', None) => adjust c'
  end.

(** What [ToDMSubTaskCfg] sets of the library's [SubTaskConfig]. *)
Record SubTaskConfig := mkSubTaskConfig {
  st_ShardMode : string; st_OnlineDDL : bool; st_ShadowTableRules : list string; st_TrashTableRules : list string;
  st_CaseSensitive : bool; st_CollationCompatible : string; st_Name : string; st_Mode : string;
  st_IgnoreCheckingItems : list string; st_MetaSchema : string; st_Timezone : string; st_Meta : option Meta;
  st_From : DBConfig; st_To : DBConfig; st_AsyncCheckpointFlush : bool; st_SourceID : string;
  st_BAList : option FilterRules; st_RouteRules : list (option TableRule); st_FilterRules : list (option BinlogEventRule);
  st_ColumnMappingRules : list (option ColumnRule); st_ExprFilter : list (option ExpressionFilter);
  st_MydumperConfig : MydumperConfig; st_LoaderConfig : LoaderConfig; st_SyncerConfig : SyncerConfig;
}.

(** A task without upstream, and a nil database or unit configuration, panic. *)
Definition ToDMSubTaskCfg (c : TaskCfg) : res goerr SubTaskConfig :=
  match jc_Upstreams c with
  | [] => Panic
  | us :: _ =>
      let i := us_MySQLInstance us in
      match us_DBCfg us, jc_TargetDB c, mi_Mydumper i, mi_Loader i, mi_Syncer i with
      | Some from, Some to, Some mydumper, Some loader, Some syncer =>
          Done {|
            st_ShardMode := jc_ShardMode c; st_OnlineDDL := jc_OnlineDDL c;
            st_ShadowTableRules := jc_ShadowTableRules c; st_TrashTableRules := jc_TrashTableRules c;
            st_CaseSensitive := jc_CaseSensitive c; st_CollationCompatible := jc_CollationCompatible c;
            st_Name := jc_Name c; st_Mode := jc_TaskMode c; st_IgnoreCheckingItems := jc_IgnoreCheckingItems c;
            st_MetaSchema := jc_MetaSchema c; st_Timezone := jc_Timezone c; st_Meta := mi_Meta i;
            st_From := from; st_To := to; st_AsyncCheckpointFlush := jc_AsyncCheckpointFlush c;
            st_SourceID := mi_SourceID i; st_BAList := jc_BAList c !! mi_BAListName i;
            st_RouteRules := (λ name, jc_Routes c !! name) <$> mi_RouteRules i;
            st_FilterRules := (λ name, jc_Filters c !! name) <$> mi_FilterRules i;
            st_ColumnMappingRules := (λ name, jc_ColumnMappings c !! name) <$> mi_ColumnMappingRules i;
            st_ExprFilter := (λ name, jc_ExprFilter c !! name) <$> mi_ExpressionFilters i;
            st_MydumperConfig := mydumper; st_LoaderConfig := loader; st_SyncerConfig := syncer |}
      | _, _, _, _, _ => Panic
      end
  end.

(** [NewDMResourceID] ([jobmaster/dm/utils.go]) *)
Definition NewDMResourceID (taskName sourceName : string) : ResourceID :=
  "/" +:+ type_string ResourceTypeLocalFile +:+ "/" +:+ taskName +:+ "/" +:+ sourceName.

End config.

(** ** [jobmaster/dm/metadata/job.go]: stages *)

Definition StageInit : Z := 0%Z.
Definition StageRunning : Z := 1%Z.
Definition StagePaused : Z := 2%Z.
Definition StageFinished : Z := 3%Z.
Definition StageUnscheduled : Z := 4%Z.

(** ** [jobmaster/dm/runtime/task_status.go] *)

Record DefaultTaskStatus := mkDefaultTaskStatus { ts_Unit : WorkerType; ts_Task : string; ts_Stage : Z }.

(** A [float64] is its bit pattern. *)
Record DumpStatus := mkDumpStatus {
  ds_Default : DefaultTaskStatus;
  ds_TotalTables : Z; ds_CompletedTables : Z; ds_FinishedBytes : Z; ds_FinishedRows : Z; ds_EstimateTotalRows : Z;
}.

Record LoadStatus := mkLoadStatus {
  ls_Default : DefaultTaskStatus;
  ls_FinishedBytes : Z; ls_TotalBytes : Z; ls_Progress : string; ls_MetaBinlog : string; ls_MetaBinlogGTID : string;
}.

Record SyncStatus := mkSyncStatus {
  ss_Default : DefaultTaskStatus;
  ss_TotalEvents : Z; ss_TotalTps : Z; ss_RecentTps : Z; ss_MasterBinlog : string; ss_MasterBinlogGtid : string;
  ss_SyncerBinlog : string; ss_SyncerBinlogGtid : string; ss_BlockingDDLs : list string; ss_Synced : bool;
  ss_BinlogType : string; ss_SecondsBehindMaster : Z; ss_BlockDDLOwner : string; ss_ConflictMsg : string;
}.

Inductive TaskStatus : Type :=
| TSDefault (s : DefaultTaskStatus)
| TSDump (s : DumpStatus)
| TSLoad (s : LoadStatus)
| TSSync (s : SyncStatus).

Definition status_default (s : TaskStatus) : DefaultTaskStatus :=
  match s with TSDefault s => s | TSDump s => ds_Default s | TSLoad s => ls_Default s | TSSync s => ss_Default s end.

Definition GetUnit (s : TaskStatus) : WorkerType := ts_Unit (status_default s).
Definition GetTask (s : TaskStatus) : string := ts_Task (status_default s).
Definition GetStage (s : TaskStatus) : Z := ts_Stage (status_default s).

Definition NewOfflineStatus (taskID : string) : TaskStatus := TSDefault (mkDefaultTaskStatus 0 taskID StageUnscheduled).

(** [encoding/json] on these structs. *)
Class TaskJSON := {
  json_Marshal : TaskStatus → string + string;
  json_unit : string → string + WorkerType;
  json_dump : string → string + DumpStatus;
  json_load : string → string + LoadStatus;
  json_sync : string → string + SyncStatus;
}.

(** A struct is decoded back from its encoding, and its unit field by any struct
    that has it. *)
Class TaskJSONLaws `{!TaskJSON} : Prop := {
  json_unit_law s b : json_Marshal s = inr b → json_unit b = inr (GetUnit s);
  json_dump_law s b : json_Marshal (TSDump s) = inr b → json_dump b = inr s;
  json_load_law s b : json_Marshal (TSLoad s) = inr b → json_load b = inr s;
  json_sync_law s b : json_Marshal (TSSync s) = inr b → json_sync b = inr s;
}.

Section runtime.
Context `{!TaskJSON}.

Definition of_json {A B} (f : A → B) (r : string + A) : res goerr B :=
  match r with inl err => Fail (ErrForeign err) | inr a => Done (f a) end.

Definition UnmarshalTaskStatus (data : string) : res goerr TaskStatus :=
  match json_unit data with
  | inl err => Fail (ErrForeign err)
  | inr unit =>
      if bool_decide (unit = WorkerDMDump) then of_json TSDump (json_dump data)
      else if bool_decide (unit = WorkerDMLoad) then of_json TSLoad (json_load data)
      else if bool_decide (unit = WorkerDMSync) then of_json TSSync (json_sync data)
      else Fail (ErrForeign "unknown unit")
  end.

Definition MarshalTaskStatus (taskStatus : TaskStatus) : res goerr string := of_json id (json_Marshal taskStatus).

End runtime.

(** ** [jobmaster/dm/runtime/worker_status.go] *)

Definition HeartbeatInterval : Duration := (3 * Second)%Z.

Inductive WorkerStage : Type := WorkerCreating | WorkerOnline | WorkerFinished | WorkerOffline.

#[global] Instance WorkerStage_eq_dec : EqDecision WorkerStage.
Proof. solve_decision. Defined.

Record DMWorkerStatus := mkDMWorkerStatus {
  dw_TaskID : string;
  dw_ID : WorkerID;
  dw_Unit : WorkerType;
  dw_Stage : WorkerStage;
  dw_createdTime : Time;
}.

Definition IsOffline (w : DMWorkerStatus) : bool := bool_decide (dw_Stage w = WorkerOffline).

Definition CreateFailed (now : Time) (w : DMWorkerStatus) : bool :=
  bool_decide (dw_Stage w = WorkerCreating) && Before (dw_createdTime w + 2 * HeartbeatInterval)%Z now.

Definition RunAsExpected (w : DMWorkerStatus) : bool :=
  bool_decide (dw_Stage w = WorkerOnline) || bool_decide (dw_Stage w = WorkerCreating) || bool_decide (dw_Stage w = WorkerFinished).

Definition NewWorkerStatus (taskID : string) (unit : WorkerType) (id : WorkerID) (stage : WorkerStage) : DMWorkerStatus :=
  mkDMWorkerStatus taskID id unit stage zeroTime.

Definition InitWorkerStatus (now : Time) (taskID : string) (unit : WorkerType) (id : WorkerID) : DMWorkerStatus :=
  mkDMWorkerStatus taskID id unit WorkerCreating now.

(** ** [jobmaster/dm/checkpoint/agent.go] *)

(** Statements, by their template, and queries. *)
Inductive sqlstmt : Type :=
| CreateDatabase (name : string)
| LoadCheckpointTable (table : string)
| SyncCheckpointTable (table : string)
| DropTable (table : string).

Inductive sqlquery : Type :=
| SelectLoadStatus (table task_name source_name : string)
| SelectSyncGlobal (table id : string).

(** The row of a query that expects one. *)
Inductive sqlrow : Type := Row (column : string) | ErrNoRows | RowErr (err : string).

(** The databases behind [conn.DefaultDBProvider], and the names the libraries give to
    tables. *)
Class CheckpointDB `{!dmconfig} (DB : Type) := {
  db_Apply : option DBConfig → GoM string DB unit;
  db_Exec : sqlstmt → GoM string DB unit;
  db_QueryRow : sqlquery → DB → sqlrow * DB;
  dbutil_ColumnName : string → string;
  dbutil_TableName : string → string → string;
  cputil_LightningCheckpoint : string → string;
  cputil_SyncerCheckpoint : string → string;
  cputil_SyncerShardMeta : string → string;
  cputil_SyncerOnlineDDL : string → string;
}.

Section checkpoint.
Context `{!dmconfig} {DB : Type} `{!CheckpointDB DB}.

Definition sql_err {A} (m : GoM string DB A) : Go DB A := λ db,
  match m db with
  | (Done a, db') => (Done a, db')
  | (Fail err, db') => (Fail (ErrForeign err), db')
  | (Panic, db') => (Panic, db')
  end.

Definition loadTableName (cfg : JobCfg) : string := dbutil_TableName (jc_MetaSchema cfg) (cputil_LightningCheckpoint (jc_Name cfg)).
Definition syncTableName (cfg : JobCfg) : string := dbutil_TableName (jc_MetaSchema cfg) (cputil_SyncerCheckpoint (jc_Name cfg)).
Definition shardMetaName (cfg : JobCfg) : string := dbutil_TableName (jc_MetaSchema cfg) (cputil_SyncerShardMeta (jc_Name cfg)).
Definition onlineDDLName (cfg : JobCfg) : string := dbutil_TableName (jc_MetaSchema cfg) (cputil_SyncerOnlineDDL (jc_Name cfg)).

Definition createMetaDatabase (cfg : JobCfg) : Go DB unit := sql_err (db_Exec (CreateDatabase (dbutil_ColumnName (jc_MetaSchema cfg)))).
Definition createLoadCheckpointTable (cfg : JobCfg) : Go DB unit := sql_err (db_Exec (LoadCheckpointTable (loadTableName cfg))).
Definition createSyncCheckpointTable (cfg : JobCfg) : Go DB unit := sql_err (db_Exec (SyncCheckpointTable (syncTableName cfg))).
Definition dropLoadCheckpointTable (cfg : JobCfg) : Go DB unit := sql_err (db_Exec (DropTable (loadTableName cfg))).
Definition dropSyncCheckpointTable (cfg : JobCfg) : Go DB unit :=
  _ ← sql_err (db_Exec (DropTable (syncTableName cfg)));
  _ ← sql_err (db_Exec (DropTable (shardMetaName cfg)));
  sql_err (db_Exec (DropTable (onlineDDLName cfg))).

Definition Checkpoint_Init (cfg : JobCfg) : Go DB unit :=
  _ ← sql_err (db_Apply (jc_TargetDB cfg));
  _ ← createMetaDatabase cfg;
  _ ← (if bool_decide (jc_TaskMode cfg ≠ ModeIncrement) then createLoadCheckpointTable cfg else mret tt);
  if bool_decide (jc_TaskMode cfg ≠ ModeFull) then createSyncCheckpointTable cfg else mret tt.

Definition Checkpoint_Remove (cfg : JobCfg) : Go DB unit :=
  _ ← sql_err (db_Apply (jc_TargetDB cfg));
  _ ← dropLoadCheckpointTable cfg;
  dropSyncCheckpointTable cfg.

Definition isLoadFresh (cfg : TaskCfg) : Go DB bool := λ db,
  match jc_Upstreams cfg with
  | [] => (Panic, db)
  | us :: _ =>
      match db_QueryRow (SelectLoadStatus (loadTableName cfg) (jc_Name cfg) (mi_SourceID (us_MySQLInstance us))) db with
      | (Row status, db') => (Done (bool_decide (status = "init")), db')
      | (ErrNoRows, db') => (Done true, db')
      | (RowErr err, db') => (Fail (ErrForeign err), db')
      end
  end.

Definition isSyncFresh (cfg : TaskCfg) : Go DB bool := λ db,
  match jc_Upstreams cfg with
  | [] => (Panic, db)
  | us :: _ =>
      match db_QueryRow (SelectSyncGlobal (syncTableName cfg) (mi_SourceID (us_MySQLInstance us))) db with
      | (Row _, db') => (Done false, db')
      | (ErrNoRows, db') => (Done true, db')
      | (RowErr err, db') => (Fail (ErrForeign err), db')
      end
  end.

Definition IsFresh (workerType : WorkerType) (cfg : TaskCfg) : Go DB bool :=
  if bool_decide (workerType = WorkerDMDump) then mret true
  else _ ← sql_err (db_Apply (jc_TargetDB cfg));
       if bool_decide (workerType = WorkerDMLoad) then isLoadFresh cfg else isSyncFresh cfg.

End checkpoint.

(** ** What the libraries document *)

Class DMCodecLaws `{!dmconfig, !DMCodec} : Prop := {
  yaml_law c content : yaml_Marshal c = inr content → yaml_Unmarshal content jc_zero = (c, None);
}.

(** The tables after a statement. *)
Definition sql_effect (stmt : sqlstmt) (tables : gset string) : gset string :=
  match stmt with
  | CreateDatabase _ => tables
  | LoadCheckpointTable t | SyncCheckpointTable t => {[t]} ∪ tables
  | DropTable t => tables ∖ {[t]}
  end.

Definition query_table (q : sqlquery) : string :=
  match q with SelectLoadStatus t _ _ => t | SelectSyncGlobal t _ => t end.

Class CheckpointDBLaws `{!dmconfig} {DB : Type} `{!CheckpointDB DB} (tables : DB → gset string) : Prop := {
  db_Apply_law cfg db : (db_Apply cfg db).1 ≠ Panic ∧ tables (db_Apply cfg db).2 = tables db;
  db_Exec_law stmt db :
    match db_Exec stmt db with
    | (Done _, db') => tables db' = sql_effect stmt (tables db)
    | (Fail _, db') => tables db' = tables db ∨ tables db' = sql_effect stmt (tables db)
    | (Panic, _) => False
    end;
  db_QueryRow_law q db :
    tables (db_QueryRow q db).2 = tables db ∧ (query_table q ∉ tables db → ∃ err, (db_QueryRow q db).1 = RowErr err);
}.

(** ** Lemmas *)

Section config_proofs.
Context `{!dmconfig, !DMCodec, !DMCodecLaws}.

Lemma Clone_eq (c : JobCfg) content : yaml_Marshal c = inr content → Clone c = (Some c, None).
Proof. intros Hm. unfold Clone, Yaml. rewrite Hm. by rewrite (yaml_law _ _ Hm). Qed.

(** The last upstream with a source id. *)
Definition last_upstream (source : string) (us : list UpstreamCfg) : option UpstreamCfg :=
  last (filter (λ u, mi_SourceID (us_MySQLInstance u) = source) us).

Lemma ToTaskConfigs_eq (c : JobCfg) content :
  yaml_Marshal c = inr content →
  ∃ m, ToTaskConfigs c = Done m ∧ ∀ source, m !! source = (λ u, set_Upstreams [u] c) <$> last_upstream source (jc_Upstreams c).
Proof.
  intros Hm. unfold ToTaskConfigs. rewrite (Clone_eq _ _ Hm). simpl.
  induction (jc_Upstreams c) as [|u us IH] using rev_ind; [by exists ∅|]. destruct IH as (m & Hf & Hl).
  rewrite foldl_app, Hf. simpl. eexists. split; [done|]. intros source. unfold last_upstream in *. rewrite filter_app, last_app.
  rewrite filter_cons, filter_nil. case_decide as Hs.
  - simpl. subst. by rewrite lookup_insert_eq.
  - simpl. rewrite lookup_insert_ne by done. apply Hl.
Qed.

End config_proofs.

Lemma type_unit_nested taskName sourceName :
  NewDMResourceID taskName sourceName = resource_id ResourceTypeLocalFile (taskName +:+ String slash sourceName).
Proof. done. Qed.

Section checkpoint_proofs.
Context `{!dmconfig} {DB : Type} `{!CheckpointDB DB} (tables : DB → gset string) `{!CheckpointDBLaws tables}.

Lemma sql_Exec_Done stmt db db' : sql_err (db_Exec stmt) db = (Done (), db') → tables db' = sql_effect stmt (tables db).
Proof. unfold sql_err. pose proof (db_Exec_law stmt db) as Hl. destruct (db_Exec stmt db) as [[[]| |] d]; [|done|done]. by intros [= <-]. Qed.

Lemma sql_Apply_Done cfg db db' : sql_err (db_Apply cfg) db = (Done (), db') → tables db' = tables db.
Proof. unfold sql_err. pose proof (db_Apply_law cfg db) as [_ Hl]. destruct (db_Apply cfg db) as [[[]| |] d]; [|done|done]. by intros [= <-]. Qed.

End checkpoint_proofs.

(** ** Theorems *)

(** A job is split by source. [ToTaskConfigs] never panics; there is a task for
    every source id of an upstream and no other, and its configuration is the job's
    with one upstream, the last one of that source; so the worker of a task reads its
    own source, with the job's name and mode. *)
Theorem task_configs_split_job `{!dmconfig, !DMCodec, !DMCodecLaws} (c : JobCfg) content :
  yaml_Marshal c = inr content →
  ∃ m, ToTaskConfigs c = Done m ∧
    (∀ source, is_Some (m !! source) ↔ ∃ u, u ∈ jc_Upstreams c ∧ mi_SourceID (us_MySQLInstance u) = source) ∧
    (∀ source t, m !! source = Some t →
       ∃ u, jc_Upstreams t = [u] ∧ u ∈ jc_Upstreams c ∧ t = set_Upstreams [u] c ∧
         ∀ st, ToDMSubTaskCfg t = Done st → st_SourceID st = source ∧ st_Name st = jc_Name c ∧ st_Mode st = jc_TaskMode c).
Proof.
  intros Hm. destruct (ToTaskConfigs_eq c content Hm) as (m & Hf & Hl). exists m. split; [done|].
  assert (∀ source u, last_upstream source (jc_Upstreams c) = Some u →
    u ∈ jc_Upstreams c ∧ mi_SourceID (us_MySQLInstance u) = source) as Hlast.
  { intros source u Hu. apply last_Some_elem_of in Hu. apply list_elem_of_filter in Hu. tauto. }
  split; [intros source|intros source t].
  - rewrite Hl, fmap_is_Some. split; [intros [u Hu]; exists u; by apply Hlast|].
    intros (u & Hin & Hs). unfold last_upstream. apply last_is_Some. intros Hn. apply (not_elem_of_nil u). rewrite <- Hn. by apply list_elem_of_filter.
  - rewrite Hl. intros (u & Hu & ->)%fmap_Some. destruct (Hlast _ _ Hu) as [Hin Hs]. exists u. split_and!; [done..|].
    intros st. unfold ToDMSubTaskCfg. simpl. intros Hst. repeat (case_match; try done). by simplify_eq/=.
Qed.

(** The status of a unit survives its encoding; a status whose unit is not that of
    its type, as the one of an offline task, is refused or read as another type, never
    taken for itself. *)
Theorem task_status_roundtrip `{!TaskJSON, !TaskJSONLaws} s data :
  MarshalTaskStatus s = Done data →
  match s with
  | TSDump _ => GetUnit s = WorkerDMDump → UnmarshalTaskStatus data = Done s
  | TSLoad _ => GetUnit s = WorkerDMLoad → UnmarshalTaskStatus data = Done s
  | TSSync _ => GetUnit s = WorkerDMSync → UnmarshalTaskStatus data = Done s
  | TSDefault _ => UnmarshalTaskStatus data ≠ Done s
  end ∧
  (∀ task, s = NewOfflineStatus task → UnmarshalTaskStatus data = Fail (ErrForeign "unknown unit")).
Proof.
  unfold MarshalTaskStatus, of_json. destruct (json_Marshal s) as [|b] eqn:Hb; [done|]. simpl. intros [= <-].
  pose proof (json_unit_law s b Hb) as Hu. split.
  - unfold UnmarshalTaskStatus. rewrite Hu. destruct s as [s|s|s|s].
    + repeat case_bool_decide; try done; unfold of_json; repeat case_match; naive_solver.
    + intros ->. simpl. by rewrite (json_dump_law _ _ Hb).
    + intros ->. simpl. by rewrite (json_load_law _ _ Hb).
    + intros ->. simpl. by rewrite (json_sync_law _ _ Hb).
  - intros task ->. unfold UnmarshalTaskStatus. by rewrite Hu.
Qed.

(** Initialising the checkpoint of a job creates the tables that the freshness
    checks of its mode read; removing it leaves none of the job's tables. *)
Theorem checkpoint_tables `{!dmconfig} {DB} `{!CheckpointDB DB} (tables : DB → gset string) `{!CheckpointDBLaws tables}
    (cfg : JobCfg) (db db' : DB) :
  (Checkpoint_Init cfg db = (Done (), db') →
     tables db ⊆ tables db' ∧
     (jc_TaskMode cfg ≠ ModeIncrement → loadTableName cfg ∈ tables db') ∧
     (jc_TaskMode cfg ≠ ModeFull → syncTableName cfg ∈ tables db')) ∧
  (Checkpoint_Remove cfg db = (Done (), db') →
     tables db' = tables db ∖ {[loadTableName cfg; syncTableName cfg; shardMetaName cfg; onlineDDLName cfg]}).
Proof.
  split.
  - unfold Checkpoint_Init. intros ([] & d1 & H1 & Hr)%bind_inv_Done. apply bind_inv_Done in Hr as ([] & d2 & H2 & Hr).
    apply bind_inv_Done in Hr as ([] & d3 & H3 & H4).
    apply (sql_Apply_Done tables) in H1. apply (sql_Exec_Done tables) in H2. simpl in H2. rewrite <- H1, <- H2.
    case_bool_decide as Hm1; case_bool_decide as Hm2;
      try (apply (sql_Exec_Done tables) in H3; simpl in H3); try (apply (sql_Exec_Done tables) in H4; simpl in H4);
      try (injection H3 as ->); try (injection H4 as ->); set_solver.
  - unfold Checkpoint_Remove, dropLoadCheckpointTable, dropSyncCheckpointTable.
    intros ([] & d1 & H1 & Hr)%bind_inv_Done. apply bind_inv_Done in Hr as ([] & d2 & H2 & Hr).
    apply bind_inv_Done in Hr as ([] & d3 & H3 & Hr). apply bind_inv_Done in Hr as ([] & d4 & H4 & H5).
    apply (sql_Apply_Done tables) in H1. apply (sql_Exec_Done tables) in H2, H3, H4, H5. simpl in *.
    rewrite H5, H4, H3, H2, H1, !difference_difference_l_L. f_equal. by rewrite <- !(assoc_L (∪)).
Qed.

(** ** Small instances *)
Module Ref.

Definition ref_dmconfig : dmconfig.
Proof.
  refine {| DBConfig := string; BinlogEventRule := unit; ExpressionFilter := unit; FilterRules := unit; MydumperConfig := unit;
            LoaderConfig := unit; SyncerConfig := unit; ValidatorConfig := unit; TableRule := unit; ColumnRule := unit;
            Meta := unit; MySQLInstance_rest := unit; ModeAll := "all"; ModeFull := "full"; ModeIncrement := "incremental" |}.
  apply (bool_decide_unpack _). vm_compute. done.
Defined.

#[local] Existing Instance ref_dmconfig.

Definition ref_instance (source : string) : UpstreamCfg :=
  mkUpstreamCfg (mkMySQLInstance source None [] [] [] [] "" (Some ()) (Some ()) (Some ()) ()) (Some "from").

Definition ref_job : JobCfg :=
  mkJobCfg "job" "all" "" [] "" false "" (Some "to") [] [] ∅ ∅ ∅ ∅ ∅ ∅ ∅ ∅ [ref_instance "s1"; ref_instance "s2"] false "meta" false ∅.

#[global] Instance ref_JobCfg_dec : EqDecision JobCfg.
Proof.
  assert (EqDecision MySQLInstance) by (intros [] []; solve_decision).
  assert (EqDecision UpstreamCfg) by solve_decision.
  intros [] []. solve_decision.
Defined.

Definition ref_DMCodec : DMCodec := {|
  yaml_Marshal c := if decide (c = ref_job) then inr "job" else inl "unsupported";
  yaml_Unmarshal s c := if decide (s = "job") then (ref_job, None) else (c, Some "unsupported");
  yaml_UnmarshalStrict s c := if decide (s = "job") then (ref_job, None) else (c, Some "unsupported");
  TaskConfig := unit;
  yaml_UnmarshalTask _ := ((), None);
  TaskConfig_Adjust t insts := (t, insts, None);
  TaskConfig_String _ _ := "job";
|}.

#[local] Existing Instance ref_DMCodec.

Lemma ref_DMCodecLaws : DMCodecLaws.
Proof. split. intros c content. cbn [yaml_Marshal ref_DMCodec]. case_decide as Hc; [|done]. intros [= <-]. by rewrite Hc. Qed.

Definition ref_status : TaskStatus := TSDump (mkDumpStatus (mkDefaultTaskStatus WorkerDMDump "s1" StageRunning) 10 1 2 3 100).

#[global] Instance TaskStatus_eq_dec : EqDecision TaskStatus.
Proof.
  assert (EqDecision DefaultTaskStatus) by solve_decision. assert (EqDecision DumpStatus) by solve_decision.
  assert (EqDecision LoadStatus) by solve_decision. assert (EqDecision SyncStatus) by solve_decision. solve_decision.
Defined.

Definition ref_TaskJSON : TaskJSON := {|
  json_Marshal s := if decide (s = ref_status) then inr "s1" else inl "unsupported";
  json_unit b := if decide (b = "s1") then inr WorkerDMDump else inl "unexpected end of JSON input";
  json_dump b := inr (mkDumpStatus (mkDefaultTaskStatus WorkerDMDump "s1" StageRunning) 10 1 2 3 100);
  json_load b := inl "unsupported";
  json_sync b := inl "unsupported";
|}.

#[local] Existing Instance ref_TaskJSON.

Lemma ref_TaskJSONLaws : TaskJSONLaws.
Proof.
  split; intros s b; cbn [json_Marshal json_unit json_dump json_load json_sync ref_TaskJSON];
    destruct (decide (_ = ref_status)) as [Hs|]; try done; intros [= <-]; unfold ref_status in Hs; by simplify_eq.
Qed.

(** A database is its set of tables; all are empty. *)
Definition ref_CheckpointDB : CheckpointDB (gset string) := {|
  db_Apply cfg db := match cfg with Some _ => (Done (), db) | None => (Fail "no database", db) end;
  db_Exec stmt db := (Done (), sql_effect stmt db);
  db_QueryRow q db := (if decide (query_table q ∈ db) then ErrNoRows else RowErr "no such table", db);
  dbutil_ColumnName s := s;
  dbutil_TableName s t := s +:+ "." +:+ t;
  cputil_LightningCheckpoint s := s +:+ "_lightning";
  cputil_SyncerCheckpoint s := s +:+ "_syncer";
  cputil_SyncerShardMeta s := s +:+ "_shard";
  cputil_SyncerOnlineDDL s := s +:+ "_online";
|}.

#[local] Existing Instance ref_CheckpointDB.

Lemma ref_CheckpointDBLaws : CheckpointDBLaws (id : gset string → gset string).
Proof.
  split; [intros [] db; done|done|]. intros q db. split; [done|]. intros Hq. simpl. rewrite decide_False by done. by eexists.
Qed.

Lemma task_configs_split_job_witness :
  ∃ m, ToTaskConfigs ref_job = Done m ∧ is_Some (m !! "s2") ∧ m !! "s3" = None.
Proof.
  destruct (@task_configs_split_job _ _ ref_DMCodecLaws ref_job "job") as (m & Hm & Hdom & _); [vm_compute; reflexivity|].
  exists m. split; [exact Hm|]. split.
  - apply Hdom. exists (ref_instance "s2"). split; [|done]. right. left.
  - apply eq_None_not_Some. intros (u & Hu & Hs)%Hdom. simpl in Hu. set_solver.
Defined.

Lemma task_status_roundtrip_witness : UnmarshalTaskStatus "s1" = Done ref_status.
Proof. apply (@task_status_roundtrip _ ref_TaskJSONLaws ref_status "s1"); [vm_compute; reflexivity|reflexivity]. Defined.

Lemma checkpoint_tables_witness :
  loadTableName ref_job ∈ (Checkpoint_Init ref_job ∅).2 ∧ syncTableName ref_job ∉ (Checkpoint_Remove ref_job {["meta.job_syncer"]}).2.
Proof.
  destruct (@checkpoint_tables _ _ _ id ref_CheckpointDBLaws ref_job ∅ (Checkpoint_Init ref_job ∅).2) as [Hi _].
  destruct (@checkpoint_tables _ _ _ id ref_CheckpointDBLaws ref_job {["meta.job_syncer"]}
              (Checkpoint_Remove ref_job {["meta.job_syncer"]}).2) as [_ Hr].
  split.
  - apply Hi; [vm_compute; reflexivity|discriminate].
  - change (syncTableName ref_job ∉ id (Checkpoint_Remove ref_job {["meta.job_syncer"]}).2). rewrite Hr by (vm_compute; reflexivity).
    set_solver.
Defined.

End Ref.
