(* ===== verification/DMStore.v ===== *)
(** * The persistent state of a data migration job ([jobmaster/dm/metadata])

    A store keeps one state in the metastore, encoded as TOML, and a copy in memory.
    States are pointers: the stored pointer is the one the caller passed, and what a
    caller gets is a clone. States live in a heap and are held by their position. *)

From S2P Require Import Prelude Errors Model Keys MetaKV DMConfig.

(** ** [state.go] *)

(** What [reflect] sees of a value: a pointer, a struct with for each field whether
    it is exported, or something else. *)
Inductive rvalue : Type := RPtr (v : rvalue) | RStruct (exported : list bool) | ROther.

(** A field can be set if it is exported and its struct was reached by a pointer. *)
Definition checkAllFieldsIsPublic (v : rvalue) : bool :=
  let '(addressable, v) := match v with RPtr v => (true, v) | _ => (false, v) end in
  match v with RStruct exported => forallb (andb addressable) exported | _ => false end.

Record TomlStore (St : Type) := mkTomlStore { to_heap : list St; to_state : option nat }.
Arguments mkTomlStore {St}.
Arguments to_heap {St}.
Arguments to_state {St}.

Definition NewTomlStore {St} (heap : list St) : TomlStore St := mkTomlStore heap None.

(** The TOML library on a type of states, and the type as [reflect] sees it. Decoding
    fills in a given value and may leave it partly filled. *)
Class Toml (St : Type) := {
  toml_Encode : St → string + string;
  toml_Decode : string → St → St * option string;
  toml_reflect : rvalue;
}.

(** The interface [Store]. *)
Class Store (St : Type) := { CreateState : St; Store_Key : string }.

Section TomlStore.
Context {DB : Type} {kv : KV DB} {St : Type} `{!Toml St, !Store St}.

Definition putOp (state : St) : res goerr Op :=
  match toml_Encode state with
  | inl err => Fail (ErrForeign err)
  | inr b => Done (OpPut Store_Key b)
  end.

Definition deleteOp : Op := OpDelete Store_Key [].

(** [Txn(ctx).Do(op).Commit()], with what is done after it. *)
Definition commit (op : Op) (state : option nat) : Go (DB * TomlStore St) unit := λ '(db, ds),
  match kvc_Txn [op] db with
  | (Done _, db') => (Done tt, (db', mkTomlStore (to_heap ds) state))
  | (Fail err, db') => (Fail err, (db', ds))
  | (Panic, db') => (Panic, (db', ds))
  end.

Definition Store_Put (l : nat) : Go (DB * TomlStore St) unit := λ '(db, ds),
  if negb (checkAllFieldsIsPublic toml_reflect) then (Fail (ErrForeign "fields of state should all be public"), (db, ds))
  else match to_heap ds !! l with
       | None => (Panic, (db, ds))
       | Some state =>
           match putOp state with
           | Done op => commit op (Some l) (db, ds)
           | Fail err => (Fail err, (db, ds))
           | Panic => (Panic, (db, ds))
           end
       end.

Definition Store_Delete : Go (DB * TomlStore St) unit := λ '(db, ds),
  match to_state ds with
  | None => (Done tt, (db, ds))
  | Some _ => commit deleteOp None (db, ds)
  end.

(** The clone is a new object; the result is nil when there is no state. *)
Definition cloneState : Go (TomlStore St) (option nat) := λ ds,
  match to_state ds with
  | None => (Done None, ds)
  | Some l =>
      match to_heap ds !! l with
      | None => (Panic, ds)
      | Some state =>
          match toml_Encode state with
          | inl err => (Fail (ErrForeign err), ds)
          | inr b =>
              match toml_Decode b CreateState with
              | (_, Some err) => (Fail (ErrForeign err), ds)
              | (clone, None) => (Done (Some (length (to_heap ds))), mkTomlStore (to_heap ds ++ [clone]) (to_state ds))
              end
          end
      end
  end.

Definition cloneState' (db : DB) (ds : TomlStore St) : res goerr (option nat) * (DB * TomlStore St) :=
  let '(r, ds') := cloneState ds in (r, (db, ds')).

(** The state is looked for in memory under the read lock and again under the write
    lock, so the call is one step. The new state is remembered before it is decoded. *)
Definition Store_Get : Go (DB * TomlStore St) (option nat) := λ '(db, ds),
  match to_state ds with
  | Some _ => cloneState' db ds
  | None =>
      match kvc_Get Store_Key [] db with
      | (Fail err, db') => (Fail err, (db', ds))
      | (Panic, db') => (Panic, (db', ds))
      | (Done [], db') => (Fail (ErrForeign "state not found"), (db', ds))
      | (Done (kv1 :: _), db') =>
          let '(state, err) := toml_Decode (kv_Value kv1) CreateState in
          let ds' := mkTomlStore (to_heap ds ++ [state]) (Some (length (to_heap ds))) in
          match err with
          | Some err => (Fail (ErrForeign err), (db', ds'))
          | None => cloneState' db' ds'
          end
      end
  end.

End TomlStore.

(** ** [job.go] *)

Record Task `{!dmconfig} := mkTask { t_Cfg : TaskCfg; t_Stage : Z }.
Arguments mkTask {_} _ _.

(** The field [Tasks] of [Job]; a job is held by its address. *)
Abbreviation Job := (gmap string Task).

Section Job.
Context `{!dmconfig}.

Definition NewTask (taskCfg : TaskCfg) : Task := mkTask taskCfg StageRunning.

Definition NewJob `{!DMCodec} (jobCfg : JobCfg) : res goerr Job :=
  match ToTaskConfigs jobCfg with
  | Done taskCfgs => Done (NewTask <$> taskCfgs)
  | Fail err => Fail err
  | Panic => Panic
  end.

Definition JobStore (id : MasterID) : Store Job := {| CreateState := ∅; Store_Key := Encode DMJobKeyAdapter [id] |}.

Context {DB : Type} {kv : KV DB} `{!Toml Job} (id : MasterID).

(** The tasks are pointers: their stages are set in place, in the object that [Get]
    returned, also when a later task is not found. *)
Definition set_stage (l : nat) (stage : Z) (taskID : string) : Go (TomlStore Job) unit := λ ds,
  match to_heap ds !! l with
  | None => (Panic, ds)
  | Some job =>
      match job !! taskID with
      | None => (Fail (ErrForeign ("task " +:+ taskID +:+ " not found")), ds)
      | Some t => (Done tt, mkTomlStore (<[l := <[taskID := mkTask (t_Cfg t) stage]> job]> (to_heap ds)) (to_state ds))
      end
  end.

Definition on_store {A} (m : Go (TomlStore Job) A) : Go (DB * TomlStore Job) A := λ '(db, ds),
  let '(r, ds') := m ds in (r, (db, ds')).

(** A nil job has no tasks: the type assertion panics. *)
Definition UpdateStages (taskIDs : list string) (stage : Z) : Go (DB * TomlStore Job) unit :=
  state ← Store_Get (Store0 := JobStore id);
  match state with
  | None => panic
  | Some l => _ ← on_store (forM_ (set_stage l stage) taskIDs); Store_Put (Store0 := JobStore id) l
  end.

(** A caller that creates a job and puts it. *)
Definition Put_new (job : Job) : Go (DB * TomlStore Job) unit := λ '(db, ds),
  Store_Put (Store0 := JobStore id) (length (to_heap ds)) (db, mkTomlStore (to_heap ds ++ [job]) (to_state ds)).

End Job.

(** ** [ddl.go] *)

Definition DDLStore {St} (zero : St) : Store St := {| CreateState := zero; Store_Key := "" |}.

(** ** Specification *)

(** The library documents that a state is decoded back from its encoding. *)
Class TomlLaws {St : Type} `{!Toml St, !Store St} : Prop := {
  toml_law s b : toml_Encode s = inr b → toml_Decode b CreateState = (s, None);
}.

Section spec.
Context {DB : Type} {St : Type} `{!Toml St, !Store St} (view : DB → string → option string).

(** The state as a store of its own sees it: in memory if there, else persisted. *)
Definition current (s : DB * TomlStore St) : option St :=
  match to_state s.2 with
  | Some l => to_heap s.2 !! l
  | None =>
      match view s.1 Store_Key with
      | Some b => match toml_Decode b CreateState with (state, None) => Some state | _ => None end
      | None => None
      end
  end.

(** What a store started anew sees. *)
Definition persisted (s : DB * TomlStore St) : option St := current (s.1, NewTomlStore []).

(** The state in memory is an object that can be encoded, and what is persisted is an
    encoded state. *)
Definition store_inv (s : DB * TomlStore St) : Prop :=
  (∀ l, to_state s.2 = Some l → ∃ state b, to_heap s.2 !! l = Some state ∧ toml_Encode state = inr b) ∧
  (∀ b, view s.1 Store_Key = Some b → ∃ state, toml_Encode state = inr b).

End spec.

(** ** Lemmas *)

Section store_proofs.
Context {DB : Type} {kv : KV DB} {St : Type} `{!Toml St, !Store St, !TomlLaws}.
Context (view : DB → string → option string) `{!KVLaws kv view} (Hkey : Store_Key ≠ "").
Implicit Types s : DB * TomlStore St.

(** A clone is a new object with the same content. *)
Lemma cloneState_spec (ds : TomlStore St) l state b :
  to_state ds = Some l → to_heap ds !! l = Some state → toml_Encode state = inr b →
  cloneState ds = (Done (Some (length (to_heap ds))), mkTomlStore (to_heap ds ++ [state]) (Some l)).
Proof. intros H1 H2 H3. unfold cloneState. rewrite H1, H2, H3, (toml_law _ _ H3). done. Qed.

Definition others_same (db db' : DB) : Prop := ∀ x, x ≠ Store_Key → view db' x = view db x.

Lemma Store_Get_spec s :
  store_inv view s →
  let out := Store_Get s in
  store_inv view out.2 ∧ current view out.2 = current view s ∧ (∀ x, view out.2.1 x = view s.1 x) ∧
  (∃ new, to_heap out.2.2 = to_heap s.2 ++ new) ∧
  match out.1 with
  | Done (Some l) =>
      length (to_heap s.2) ≤ l ∧ to_heap out.2.2 !! l = current view s ∧ is_Some (current view s) ∧
      is_Some (to_state out.2.2) ∧ to_state out.2.2 ≠ Some l
  | Done None => False
  | Fail _ => to_state out.2.2 = None ∧ to_state s.2 = None
  | Panic => False
  end.
Proof.
  destruct s as [db ds]. intros [Hc Hp] out. unfold out. unfold Store_Get. cbn [fst snd] in *.
  destruct (to_state ds) as [l|] eqn:Hst.
  - destruct (Hc l eq_refl) as (state & b & Hl & Hb). unfold cloneState'. rewrite (cloneState_spec ds l state b) by done. simpl.
    assert ((to_heap ds ++ [state]) !! l = Some state) as Hl' by (by apply lookup_app_l_Some).
    unfold store_inv, current. simpl. rewrite Hst, Hl, Hl'. split_and!; try done.
    + intros ? [= <-]. eauto.
    + by exists [state].
    + by rewrite lookup_app_r, Nat.sub_diag by lia.
    + intros [= ->]. apply lookup_lt_Some in Hl. lia.
  - pose proof (kvc_Get_law Store_Key db Hkey) as Hg. destruct (kvc_Get Store_Key [] db) as [[kvs|e|] db']; [|simpl|done].
    + destruct Hg as [-> Hv]. destruct (view db Store_Key) as [b|] eqn:Hb; simpl.
      * destruct (Hp b eq_refl) as [state He]. rewrite (toml_law _ _ He).
        set (ds' := mkTomlStore _ _). assert (to_heap ds' !! length (to_heap ds) = Some state) as Hl.
        { simpl. by rewrite lookup_app_r, Nat.sub_diag by lia. }
        unfold cloneState'. rewrite (cloneState_spec ds' (length (to_heap ds)) state b) by done. simpl.
        assert (((to_heap ds ++ [state]) ++ [state]) !! length (to_heap ds) = Some state) as Hl' by (by apply lookup_app_l_Some).
        unfold store_inv, current. simpl. rewrite Hst, Hl', Hb, (toml_law _ _ He). split_and!; try done.
        -- intros ? [= <-]. eauto.
        -- intros b'. rewrite Hv, Hb. intros [= <-]. eauto.
        -- exists ([state] ++ [state]). by rewrite app_assoc.
        -- rewrite length_app. simpl. lia.
        -- by rewrite lookup_app_r, Nat.sub_diag by lia.
        -- rewrite length_app. simpl. intros [= ?]. lia.
      * unfold store_inv, current. simpl. rewrite Hst, Hv, Hb. split_and!; try done. exists []. by rewrite app_nil_r.
    + unfold store_inv, current. simpl. rewrite Hst, Hg. split_and!; try done. exists []. by rewrite app_nil_r.
Qed.

(** Putting an object: it becomes the state in memory and the persisted one, or fails;
    a state in memory stays. *)
Lemma Store_Put_spec s l state :
  store_inv view s → to_heap s.2 !! l = Some state →
  let out := Store_Put l s in
  store_inv view out.2 ∧ others_same s.1 out.2.1 ∧ to_heap out.2.2 = to_heap s.2 ∧
  match out.1 with
  | Done _ => to_state out.2.2 = Some l ∧ persisted view out.2 = Some state
  | Fail _ => to_state out.2.2 = to_state s.2 ∧ (view out.2.1 Store_Key = view s.1 Store_Key ∨ persisted view out.2 = Some state)
  | Panic => False
  end.
Proof.
  destruct s as [db ds]. intros [Hc Hp] Hl out. unfold out, Store_Put. cbn [fst snd] in *.
  destruct (negb _); [split_and!; try done; split; [done|by left]|]. rewrite Hl. unfold putOp.
  destruct (toml_Encode state) as [err|b] eqn:Hb; [split_and!; try done; split; [done|by left]|].
  unfold commit. pose proof (kvc_Put_law Store_Key b db Hkey) as Hput. unfold others_same, persisted, current, store_inv.
  destruct (kvc_Txn _ db) as [[a|e|] db']; simpl in *; [|destruct Hput as [Hput|Hput]|done].
  - rewrite !Hput, decide_True by done. rewrite (toml_law _ _ Hb). split_and!; try done.
    + intros ? [= <-]. eauto.
    + intros b' [= <-]. eauto.
    + intros x Hx. by rewrite Hput, decide_False.
  - rewrite !Hput. split_and!; try done. by left.
  - rewrite !Hput, decide_True by done. rewrite (toml_law _ _ Hb). split_and!; try done.
    + intros b' [= <-]. eauto.
    + intros x Hx. by rewrite Hput, decide_False.
    + by right.
Qed.

Lemma Store_Delete_spec s :
  store_inv view s →
  let out := Store_Delete s in
  store_inv view out.2 ∧ others_same s.1 out.2.1 ∧
  match to_state s.2 with
  | None => out = (Done tt, s)
  | Some l =>
      match out.1 with
      | Done _ => current view out.2 = None ∧ persisted view out.2 = None
      | Fail _ => current view out.2 = current view s
      | Panic => False
      end
  end.
Proof.
  destruct s as [db ds]. intros [Hc Hp] out. unfold out, Store_Delete. cbn [fst snd] in *.
  destruct (to_state ds) as [l|] eqn:Hst; [|split_and!; try done; split; [intros l; simpl; by rewrite Hst|done]].
  unfold commit, deleteOp. pose proof (kvc_Delete_law Store_Key db Hkey) as Hdel. unfold others_same, persisted, current, store_inv.
  destruct (kvc_Txn _ db) as [[a|e|] db']; simpl in *; [|destruct Hdel as [Hdel|Hdel]|done].
  - rewrite !Hdel, decide_True by done. split_and!; try done. intros x Hx. by rewrite Hdel, decide_False.
  - rewrite !Hdel, Hst. split_and!; done.
  - rewrite !Hdel, decide_True by done. rewrite Hst. split_and!; try done. intros x Hx. by rewrite Hdel, decide_False.
Qed.

End store_proofs.

(** ** A job as an abstract cell *)

Section job_spec.
Context `{!dmconfig} {DB : Type} {kv : KV DB} `{!Toml Job} (id : MasterID).

Inductive jop : Type :=
| JPut (job : Job)
| JDelete
| JGet
| JUpdateStages (taskIDs : list string) (stage : Z).

Definition run_jop (op : jop) : Go (DB * TomlStore Job) (option Job) :=
  match op with
  | JPut job => _ ← Put_new id job; mret None
  | JDelete => _ ← Store_Delete (Store0 := JobStore id); mret None
  | JGet =>
      l ← Store_Get (Store0 := JobStore id);
      s ← get; mret (l ≫= λ l, to_heap s.2 !! l)
  | JUpdateStages taskIDs stage => _ ← UpdateStages id taskIDs stage; mret None
  end.

Definition with_stages (taskIDs : list string) (stage : Z) (job : Job) : Job :=
  map_imap (λ taskID t, Some (if decide (taskID ∈ taskIDs) then mkTask (t_Cfg t) stage else t)) job.

(** [cur] and [cur'] are the job before and after, [per] what is persisted after;
    [cold] tells that the job was not in memory. *)
Definition jspec (op : jop) (cold : bool) (cur : option Job) (r : res goerr (option Job)) (cur' per : option Job) : Prop :=
  match op, r with
  | _, Panic => False
  | JPut job, Done _ => cur' = Some job ∧ per = Some job
  | JPut job, Fail _ => cur' = cur ∨ cold = true ∧ cur' = Some job
  | JDelete, Done _ => if cold then cur' = cur else cur' = None ∧ per = None
  | JDelete, Fail _ => cur' = cur
  | JGet, Done job => is_Some cur ∧ job = cur ∧ cur' = cur
  | JGet, Fail _ => cold = true ∧ cur' = cur
  | JUpdateStages taskIDs stage, Done _ =>
      ∃ job, cur = Some job ∧ Forall (λ taskID, is_Some (job !! taskID)) taskIDs ∧
        cur' = Some (with_stages taskIDs stage job) ∧ per = cur'
  | JUpdateStages _ _, Fail _ => cur' = cur
  end.

End job_spec.

Section job_proofs.
Context `{!dmconfig} {DB : Type} {kv : KV DB} `{!Toml Job} (id : MasterID).
Context (view : DB → string → option string) `{!KVLaws kv view}.
Context `{!@TomlLaws Job _ (JobStore id)} (Hkey : Encode DMJobKeyAdapter [id] ≠ "").
#[local] Instance job_store : Store Job := JobStore id.

Lemma with_stages_cons taskID taskIDs stage (job : Job) t :
  job !! taskID = Some t →
  with_stages taskIDs stage (<[taskID := mkTask (t_Cfg t) stage]> job) = with_stages (taskID :: taskIDs) stage job.
Proof.
  intros Ht. apply map_eq. intros x. unfold with_stages. rewrite !map_lookup_imap. destruct (decide (x = taskID)) as [->|Hne].
  - rewrite lookup_insert_eq, Ht. simpl. rewrite (decide_True (P := taskID ∈ taskID :: _)) by left. by case_decide.
  - rewrite lookup_insert_ne by done. destruct (job !! x); simpl; [|done]. f_equal.
    destruct (decide (x ∈ taskIDs)); [by rewrite decide_True by (by right)|]. rewrite decide_False by set_solver. done.
Qed.

Lemma with_stages_nil stage (job : Job) : with_stages [] stage job = job.
Proof.
  apply map_eq. intros x. unfold with_stages. rewrite map_lookup_imap. by destruct (job !! x).
Qed.

(** The loop changes the object it was given only. *)
Lemma set_stages_spec l stage taskIDs (ds : TomlStore Job) job :
  to_heap ds !! l = Some job →
  let out := forM_ (set_stage l stage) taskIDs ds in
  to_state out.2 = to_state ds ∧ (∀ k, k ≠ l → to_heap out.2 !! k = to_heap ds !! k) ∧
  match out.1 with
  | Done _ => Forall (λ taskID, is_Some (job !! taskID)) taskIDs ∧ to_heap out.2 !! l = Some (with_stages taskIDs stage job)
  | Fail _ => True
  | Panic => False
  end.
Proof.
  revert ds job. induction taskIDs as [|taskID taskIDs IH]; intros ds job Hl; simpl.
  - split_and!; [done..|by constructor|]. by rewrite with_stages_nil.
  - destruct (job !! taskID) as [t|] eqn:Ht.
    2:{ unfold mbind, GoM_bind. assert (set_stage l stage taskID ds = (Fail (ErrForeign ("task " +:+ taskID +:+ " not found")), ds)) as ->; [|done].
        unfold set_stage. by rewrite Hl, Ht. }
    set (ds1 := mkTomlStore (<[l := <[taskID := mkTask (t_Cfg t) stage]> job]> (to_heap ds)) (to_state ds)).
    assert (set_stage l stage taskID ds = (Done (), ds1)) as Hs by (unfold set_stage; by rewrite Hl, Ht).
    rewrite (bind_Done _ _ _ _ _ Hs). assert (to_heap ds1 !! l = Some (<[taskID := mkTask (t_Cfg t) stage]> job)) as Hl1.
    { simpl. apply list_lookup_insert_eq. by apply lookup_lt_Some in Hl. }
    destruct (IH ds1 _ Hl1) as (H1 & H2 & H3). split_and!; [done| |].
    + intros k Hk. rewrite H2 by done. simpl. by apply list_lookup_insert_ne.
    + destruct (forM_ _ taskIDs ds1) as [[a|e|] ds2]; [|done|done]. destruct H3 as [H3 H4]. split.
      * constructor; [by exists t|]. eapply Forall_impl; [exact H3|]. intros x. simpl.
        destruct (decide (x = taskID)) as [->|]; [by intros; exists t|]. by rewrite lookup_insert_ne.
      * rewrite (with_stages_cons _ _ _ _ t) in H4 by done. exact H4.
Qed.

Lemma current_heap (db db' : DB) (ds ds' : TomlStore Job) l :
  to_state ds = Some l → to_state ds' = Some l → to_heap ds' !! l = to_heap ds !! l → current view (db', ds') = current view (db, ds).
Proof. intros H1 H2 H3. unfold current. simpl. by rewrite H1, H2. Qed.

(** A failed update has changed the clone only. *)
Lemma UpdateStages_spec taskIDs stage (s : DB * TomlStore Job) :
  store_inv view s →
  let out := UpdateStages id taskIDs stage s in
  store_inv view out.2 ∧ others_same view s.1 out.2.1 ∧
  jspec (JUpdateStages taskIDs stage) (bool_decide (to_state s.2 = None)) (current view s) (match out.1 with Done _ => Done None | Fail e => Fail e | Panic => Panic end)
    (current view out.2) (persisted view out.2).
Proof.
  intros Hinv out. unfold out, UpdateStages, mbind, GoM_bind.
  pose proof (Store_Get_spec view Hkey s Hinv) as (Hi & Hc & Hv & _ & Hg).
  destruct (Store_Get s) as [[[l|]|e|] [db1 ds1]]; cbn [fst snd] in *; [|done|split_and!; [done|by intros x _|done]|done].
  destruct Hg as (_ & Hl & [job Hjob] & [l0 Hst] & Hne). rewrite Hjob in Hl.
  pose proof (set_stages_spec l stage taskIDs ds1 job Hl) as (Hs1 & Hs2 & Hs3). unfold on_store.
  destruct (forM_ (set_stage l stage) taskIDs ds1) as [[[]|e|] ds2]; cbn [fst snd] in *; [| |done].
  - destruct Hs3 as [Hall Hl2]. assert (store_inv view (db1, ds2)) as Hi2.
    { destruct Hi as [Hi1 Hi2]. split; [|done]. cbn [fst snd] in *. intros k. rewrite Hs1. intros Hk. rewrite Hs2 by congruence. by apply Hi1. }
    pose proof (Store_Put_spec view Hkey (db1, ds2) l _ Hi2 Hl2) as (Hi3 & Ho & Hh & Hp).
    destruct (Store_Put l (db1, ds2)) as [[[]|e|] [db3 ds3]]; cbn [fst snd] in *; [| |done]; (split_and!; [done|intros x Hx; by rewrite Ho, Hv|]).
    + destruct Hp as [Hp1 Hp2]. exists job. assert (current view (db3, ds3) = Some (with_stages taskIDs stage job)) as ->.
      { unfold current. cbn [fst snd]. by rewrite Hp1, Hh. }
      by rewrite Hp2.
    + destruct Hp as [Hp _]. simpl. rewrite <- Hc. apply current_heap with l0; [done|congruence|]. rewrite Hh. apply Hs2. congruence.
  - split_and!; [|by intros x _|].
    + destruct Hi as [Hi1 Hi2]. split; [|done]. cbn [fst snd] in *. intros k. rewrite Hs1. intros Hk. rewrite Hs2 by congruence. by apply Hi1.
    + simpl. rewrite <- Hc. apply current_heap with l0; [done|congruence|]. apply Hs2. congruence.
Qed.

End job_proofs.

(** ** Theorems *)


(** A job that cannot be decoded is read as what was decoded of it. The first read
    fails; the second succeeds, and returns the partly decoded job, in which tasks
    are missing. *)
Theorem undecodable_job_is_read `{!dmconfig} {DB} {kv : KV DB} `{!Toml Job} (id : MasterID) `{!@TomlLaws Job _ (JobStore id)}
    (db db' : DB) heap kv1 kvs (job : Job) err b :
  kvc_Get (Encode DMJobKeyAdapter [id]) [] db = (Done (kv1 :: kvs), db') →
  toml_Decode (kv_Value kv1) ∅ = (job, Some err) → toml_Encode job = inr b →
  let out := run_jop id JGet (db, NewTomlStore heap) in
  out.1 = Fail (ErrForeign err) ∧ (run_jop id JGet out.2).1 = Done (Some job).
Proof.
  intros Hg Hd He out. assert (out = (Fail (ErrForeign err), (db', mkTomlStore (heap ++ [job]) (Some (length heap))))) as ->.
  { unfold out, run_jop, mbind, GoM_bind, Store_Get. cbn [to_state NewTomlStore Store_Key JobStore CreateState to_heap]. by rewrite Hg, Hd. }
  split; [done|]. unfold run_jop, mbind, GoM_bind, Store_Get. cbn [fst snd to_state]. unfold cloneState'.
  rewrite (cloneState_spec (Store0 := JobStore id) _ (length heap) job b); [|done|simpl; by rewrite lookup_app_r, Nat.sub_diag by lia|done].
  cbn [fst snd get to_heap option_bind]. simpl. by rewrite lookup_app_r, Nat.sub_diag by lia.
Qed.

(** ** Instances *)
Module Witness.
Import DMConfig.Ref.
#[local] Existing Instance ref_dmconfig.
#[local] Existing Instance ref_DMCodec.

#[global] Instance Task_eq_dec : EqDecision Task.
Proof. solve_decision. Defined.

Definition job0 : Job := match NewJob ref_job with Done job => job | _ => ∅ end.
Definition job1 : Job := with_stages ["s1"] StagePaused job0.

(** Three jobs, by name; other text is not a job. *)
Definition ref_Toml : Toml Job := {|
  toml_Encode j := if decide (j = job0) then inr "job0" else if decide (j = job1) then inr "job1" else if decide (j = ∅) then inr "" else inl "unsupported";
  toml_Decode b _ := if decide (b = "job0") then (job0, None) else if decide (b = "job1") then (job1, None) else if decide (b = "") then (∅, None) else (∅, Some "bad syntax");
  toml_reflect := RPtr (RStruct [true; true]);
|}.
#[local] Existing Instance ref_Toml.

Lemma ref_TomlLaws id : @TomlLaws Job _ (JobStore id).
Proof.
  split. intros s b. cbn [toml_Encode toml_Decode ref_Toml]. case_decide as H1; [intros [= <-]; by rewrite H1|].
  case_decide as H2; [intros [= <-]; by rewrite H2|]. case_decide as H3; [intros [= <-]; by rewrite H3|done].
Qed.

Definition ref_kv : KV RefEtcd := NewPrefixKV (MakeNamespacePrefix "t").
#[local] Existing Instance ref_kv.
Definition ref_view (db : RefEtcd) : string → option string := MetaKV.view "t" (etcd_kvs db).

Definition key0 : string := MakeNamespacePrefix "t" +:+ Encode DMJobKeyAdapter ["j"].
Definition db1 : RefEtcd := mkRefEtcd {[key0 := "job0"]} 1.
Definition db2 : RefEtcd := mkRefEtcd {[key0 := "garbage"]} 1.


Lemma undecodable_job_is_read_witness :
  (run_jop "j" JGet (run_jop "j" JGet (db2, NewTomlStore [])).2).1 = Done (Some ∅).
Proof.
  eapply (@undecodable_job_is_read _ _ ref_kv ref_Toml "j" (ref_TomlLaws "j") db2 _ [] (mkKeyValue (Encode DMJobKeyAdapter ["j"]) "garbage") [] ∅ "bad syntax" "");
    [vm_compute; reflexivity|reflexivity|vm_compute; reflexivity].
Defined.

End Witness.
