(* ===== verification/DMManagers.v ===== *)
(** * Managers of a data migration job ([jobmaster/dm])

    [ticker/ticker.go], [message_agent.go], [worker_manager.go] and
    [task_manager.go]. The managers and the agent share the state [DM]. The base job
    master and the worker handles are the interface [DMEnv]. A [sync.Map] is ranged
    over in an unspecified order; a callback deletes the entry it was called with at
    most. Every reading of the clock is a step of [clk]. *)

From S2P Require Import Prelude Errors Model MetaKV DMConfig DMStore.

(** ** [ticker/ticker.go] *)

Record DefaultTicker := mkTicker {
  tk_last : Time;
  tk_next : Time;
  tk_normal : Duration;
  tk_error : Duration;
}.

Definition SetNextCheckTime (t : Time) (s : DefaultTicker) : DefaultTicker :=
  if bool_decide (tk_last s = tk_next s) || (After t (tk_last s) && Before t (tk_next s))
  then mkTicker (tk_last s) t (tk_normal s) (tk_error s) else s.

Definition NewDefaultTicker (now : Time) (normalInterval errorInterval : Duration) : DefaultTicker :=
  SetNextCheckTime now (mkTicker zeroTime zeroTime normalInterval errorInterval).

Definition advanceCheckTime (now : Time) (s : DefaultTicker) : DefaultTicker :=
  mkTicker now now (tk_normal s) (tk_error s).

(** ** Loops that record errors *)

(** The error of a call as a value. *)
Definition catch {S} (m : Go S unit) : Go S (option goerr) := λ s,
  match m s with
  | (Done _, s') => (Done None, s')
  | (Fail e, s') => (Done (Some e), s')
  | (Panic, s') => (Panic, s')
  end.

Definition return_err {S} (err : option goerr) : Go S unit :=
  match err with None => mret tt | Some e => throw e end.

(** [for x := range l { if err := f(x); err != nil { recordError = err } }] *)
Fixpoint record_each {S A} (f : A → Go S unit) (l : list A) (recordError : option goerr) : Go S (option goerr) :=
  match l with
  | [] => mret recordError
  | x :: l' => err ← catch (f x); record_each f l' (match err with Some _ => err | None => recordError end)
  end.

(** ** State *)

(** Messages to workers. *)
Inductive dmmsg : Type :=
| MsgStatusChange (req : StatusChangeRequest)
| MsgOperateTask (taskID : string) (stage : Z).

(** The interfaces [Master] and [SendHandle]: [CreateWorker] returns an id and an error. *)
Class DMEnv `{!dmconfig} (M : Type) := {
  env_CreateWorker : WorkerType → SubTaskConfig → RescUnit → list ResourceID → M → (WorkerID * option goerr) * M;
  env_CurrentEpoch : M → Epoch;
  env_SendMessage : WorkerID → string → dmmsg → bool → M → option goerr * M;
}.

Record DM `{!dmconfig} (DB C M : Type) := mkDM {
  dm_db : DB;
  dm_store : TomlStore Job;
  dm_chk : C;
  dm_env : M;
  dm_reads : nat;
  dm_wticker : DefaultTicker;
  dm_workers : gmap string DMWorkerStatus;
  dm_tticker : DefaultTicker;
  dm_tasks : gmap string TaskStatus;
  dm_handles : gmap string WorkerID;
}.
Arguments mkDM {_ DB C M}.
Arguments dm_db {_ DB C M}.
Arguments dm_store {_ DB C M}.
Arguments dm_chk {_ DB C M}.
Arguments dm_env {_ DB C M}.
Arguments dm_reads {_ DB C M}.
Arguments dm_wticker {_ DB C M}.
Arguments dm_workers {_ DB C M}.
Arguments dm_tticker {_ DB C M}.
Arguments dm_tasks {_ DB C M}.
Arguments dm_handles {_ DB C M}.

Section managers.
Context `{!dmconfig, !DMCodec} {DB C M : Type} {kv : KV DB} `{!Toml Job, !CheckpointDB C, !DMEnv M}.
(** The id of the job master, the clock, and the order of iteration. *)
Context (id : MasterID) (clk : nat → Time) (order : ∀ V : Type, nat → gmap string V → list string).

Abbreviation S := (DM DB C M).

Definition with_store {A} (m : Go (DB * TomlStore Job) A) : Go S A := λ s,
  let '(r, (db, st)) := m (dm_db s, dm_store s) in
  (r, mkDM db st (dm_chk s) (dm_env s) (dm_reads s) (dm_wticker s) (dm_workers s) (dm_tticker s) (dm_tasks s) (dm_handles s)).
Definition on_chk {A} (m : Go C A) : Go S A := λ s,
  let '(r, c) := m (dm_chk s) in
  (r, mkDM (dm_db s) (dm_store s) c (dm_env s) (dm_reads s) (dm_wticker s) (dm_workers s) (dm_tticker s) (dm_tasks s) (dm_handles s)).
Definition on_env {A} (m : M → A * M) : Go S A := λ s,
  let '(r, e) := m (dm_env s) in
  (Done r, mkDM (dm_db s) (dm_store s) (dm_chk s) e (dm_reads s) (dm_wticker s) (dm_workers s) (dm_tticker s) (dm_tasks s) (dm_handles s)).
Definition upd_workers (f : gmap string DMWorkerStatus → gmap string DMWorkerStatus) : Go S unit := modify (λ s,
  mkDM (dm_db s) (dm_store s) (dm_chk s) (dm_env s) (dm_reads s) (dm_wticker s) (f (dm_workers s)) (dm_tticker s) (dm_tasks s) (dm_handles s)).
Definition upd_tasks (f : gmap string TaskStatus → gmap string TaskStatus) : Go S unit := modify (λ s,
  mkDM (dm_db s) (dm_store s) (dm_chk s) (dm_env s) (dm_reads s) (dm_wticker s) (dm_workers s) (dm_tticker s) (f (dm_tasks s)) (dm_handles s)).
Definition upd_handles (f : gmap string WorkerID → gmap string WorkerID) : Go S unit := modify (λ s,
  mkDM (dm_db s) (dm_store s) (dm_chk s) (dm_env s) (dm_reads s) (dm_wticker s) (dm_workers s) (dm_tticker s) (dm_tasks s) (f (dm_handles s))).
Definition upd_wticker (f : DefaultTicker → DefaultTicker) : Go S unit := modify (λ s,
  mkDM (dm_db s) (dm_store s) (dm_chk s) (dm_env s) (dm_reads s) (f (dm_wticker s)) (dm_workers s) (dm_tticker s) (dm_tasks s) (dm_handles s)).
Definition upd_tticker (f : DefaultTicker → DefaultTicker) : Go S unit := modify (λ s,
  mkDM (dm_db s) (dm_store s) (dm_chk s) (dm_env s) (dm_reads s) (dm_wticker s) (dm_workers s) (f (dm_tticker s)) (dm_tasks s) (dm_handles s)).

(** [time.Now()] *)
Definition Now : Go S Time := λ s,
  (Done (clk (dm_reads s)),
   mkDM (dm_db s) (dm_store s) (dm_chk s) (dm_env s) (1 + dm_reads s) (dm_wticker s) (dm_workers s) (dm_tticker s) (dm_tasks s) (dm_handles s)).

Definition range {V} (m : gmap string V) : Go S (list string) := λ s, (Done (order V (dm_reads s) m), s).

(** [DefaultTicker.Tick], for the ticker that [tk] and [upd] access. *)
Definition Tick_due (upd : (DefaultTicker → DefaultTicker) → Go S unit) (TickImpl : Go S unit) : Go S unit :=
  now ← Now;
  _ ← upd (advanceCheckTime now);
  err ← catch TickImpl;
  now ← Now;
  upd (λ t, SetNextCheckTime (now + match err with Some _ => tk_error t | None => tk_normal t end)%Z t).

Definition Tick (tk : S → DefaultTicker) (upd : (DefaultTicker → DefaultTicker) → Go S unit) (TickImpl : Go S unit) : Go S unit :=
  now ← Now;
  s ← get;
  if Before now (tk_next (tk s)) then mret tt else Tick_due upd TickImpl.

(** ** [message_agent.go] *)

(** A nil handle is [None]. *)
Definition UpdateWorkerHandle (taskID : string) (sendHandle : option WorkerID) : Go S unit :=
  upd_handles (λ m, match sendHandle with None => delete taskID m | Some h => <[taskID := h]> m end).

Definition Agent_CreateWorker (taskID : string) (workerType : WorkerType) (taskCfg : TaskCfg) (resources : list ResourceID) :
    Go S (WorkerID * option goerr) :=
  s ← get;
  match dm_handles s !! taskID with
  | Some _ => mret ("", Some (ErrForeign ("worker for task " +:+ taskID +:+ " already exist")))
  | None =>
      match ToDMSubTaskCfg taskCfg with
      | Done subTaskCfg => on_env (env_CreateWorker workerType subTaskCfg 1 resources)
      | _ => panic
      end
  end.

Definition Agent_StopWorker (taskID : string) (workerID : WorkerID) : Go S unit :=
  s ← get;
  match dm_handles s !! taskID with
  | None => throw (ErrForeign ("worker for task " +:+ taskID +:+ " not exist"))
  | Some sender =>
      if bool_decide (sender ≠ workerID) then throw (ErrForeign ("worker for task " +:+ taskID +:+ " mismatch"))
      else let topic := WorkerStatusChangeRequestTopic id workerID in
           now ← Now;
           let message := mkStatusChangeRequest now id (env_CurrentEpoch (dm_env s)) WorkerStatusStopped in
           err ← on_env (env_SendMessage sender topic (MsgStatusChange message) true);
           return_err err
  end.

Definition OperateTaskMessageTopic (masterID : MasterID) (taskID : string) : string :=
  "operate-task-message-" +:+ masterID +:+ "-" +:+ taskID.

Definition Agent_OperateTask (taskID : string) (stage : Z) : Go S unit :=
  if bool_decide (stage ≠ StageRunning) && bool_decide (stage ≠ StagePaused)
  then throw (ErrForeign ("invalid expected stage for task " +:+ taskID))
  else s ← get;
       match dm_handles s !! taskID with
       | None => throw (ErrForeign ("worker for task " +:+ taskID +:+ " not exist"))
       | Some h =>
           err ← on_env (env_SendMessage h (OperateTaskMessageTopic id taskID) (MsgOperateTask taskID stage) true);
           return_err err
       end.

(** ** [worker_manager.go] *)

Definition WorkerNormalInterval : Duration := (30 * Second)%Z.
Definition WorkerErrorInterval : Duration := (10 * Second)%Z.

Definition UpdateWorkerStatus (workerStatus : DMWorkerStatus) : Go S unit :=
  upd_workers <[dw_TaskID workerStatus := workerStatus]>.

Definition WorkerStatus_all (s : S) : gmap string DMWorkerStatus := dm_workers s.

Definition removeOffline (key : string) : Go S unit :=
  s ← get;
  match dm_workers s !! key with
  | None => mret tt
  | Some worker =>
      if IsOffline worker then upd_workers (delete key)
      else if bool_decide (dw_Stage worker = WorkerCreating) then
        (now ← Now; if CreateFailed now worker then upd_workers (delete key) else mret tt)
      else mret tt
  end.

Definition removeOfflineWorkers : Go S unit :=
  s ← get; ks ← range (dm_workers s); forM_ removeOffline ks.

Definition workerSeqMap : gmap string (list WorkerType) :=
  {[ModeAll := [WorkerDMDump; WorkerDMLoad; WorkerDMSync]; ModeFull := [WorkerDMDump; WorkerDMLoad]; ModeIncrement := [WorkerDMSync]]}.

(** The loop from the last unit down to the first. *)
Fixpoint last_not_fresh (units : list WorkerType) (cfg : TaskCfg) : Go S (option WorkerType) :=
  match units with
  | [] => mret None
  | u :: units' =>
      isFresh ← on_chk (IsFresh u cfg);
      if negb isFresh then mret (Some u) else last_not_fresh units' cfg
  end.

Definition getCurrentUnit (task : Task) : Go S WorkerType :=
  match workerSeqMap !! jc_TaskMode (t_Cfg task) with
  | None | Some [] => panic
  | Some (first :: rest) =>
      o ← last_not_fresh (rev (first :: rest)) (t_Cfg task);
      mret (default first o)
  end.

(** The position of a unit in the sequence of a mode; [None] panics. *)
Definition workerIdxInSeq (taskMode : string) (worker : WorkerType) : option nat :=
  workerSeq ← workerSeqMap !! taskMode; fst <$> list_find (λ w, w = worker) workerSeq.

Definition nextWorkerIdxAndType (taskMode : string) (currWorker : WorkerType) : option (nat * WorkerType) :=
  workerSeq ← workerSeqMap !! taskMode;
  idx ← workerIdxInSeq taskMode currWorker;
  if bool_decide (idx = length workerSeq - 1) then (λ w, (idx, w)) <$> workerSeq !! idx
  else (λ w, (idx + 1, w)) <$> workerSeq !! (idx + 1).

Definition getNextUnit (task : Task) (worker : DMWorkerStatus) : option WorkerType :=
  if bool_decide (dw_Stage worker ≠ WorkerFinished) then Some (dw_Unit worker)
  else snd <$> nextWorkerIdxAndType (jc_TaskMode (t_Cfg task)) (dw_Unit worker).

(** The status is recorded also when the creation failed, if there is an id. *)
Definition createWorker (taskID : string) (unit_ : WorkerType) (taskCfg : TaskCfg) (resources : list ResourceID) : Go S unit :=
  '(workerID, err) ← Agent_CreateWorker taskID unit_ taskCfg resources;
  _ ← (if bool_decide (workerID ≠ "") then now ← Now; UpdateWorkerStatus (InitWorkerStatus now taskID unit_ workerID) else mret tt);
  return_err err.

Definition stopWorker (taskID : string) (workerID : WorkerID) : Go S unit :=
  _ ← Agent_StopWorker taskID workerID; upd_workers (delete taskID).

Definition stop_key (key : string) : Go S unit :=
  s ← get; match dm_workers s !! key with Some w => stopWorker key (dw_ID w) | None => mret tt end.

Definition Workers_onJobNotExist : Go S unit :=
  s ← get; ks ← range (dm_workers s); err ← record_each stop_key ks None; return_err err.

Definition stopUnneededWorkers (job : Job) : Go S unit :=
  s ← get;
  ks ← range (dm_workers s);
  err ← record_each (λ key, match job !! key with None => stop_key key | Some _ => mret tt end) ks None;
  return_err err.

(** The body of the loop over the tasks; an error is recorded and the loop goes on. *)
Definition scheduleTask (taskID : string) (persistentTask : Task) : Go S unit :=
  s ← get;
  let worker := dm_workers s !! taskID in
  nextUnit ← match worker with
             | Some runningWorker => match getNextUnit persistentTask runningWorker with Some u => mret u | None => panic end
             | None => getCurrentUnit persistentTask
             end;
  if match worker with Some w => RunAsExpected w && bool_decide (nextUnit = dw_Unit w) | None => false end then mret tt
  else match workerIdxInSeq (jc_TaskMode (t_Cfg persistentTask)) nextUnit, jc_Upstreams (t_Cfg persistentTask) with
       | None, _ => panic
       | Some 0, _ => createWorker taskID nextUnit (t_Cfg persistentTask) []
       | Some _, [] => panic
       | Some _, us :: _ =>
           createWorker taskID nextUnit (t_Cfg persistentTask)
             [NewDMResourceID (jc_Name (t_Cfg persistentTask)) (mi_SourceID (us_MySQLInstance us))]
       end.

Definition checkAndScheduleWorkers (job : Job) : Go S unit :=
  ks ← range job;
  err ← record_each (λ taskID, match job !! taskID with Some t => scheduleTask taskID t | None => mret tt end) ks None;
  return_err err.

(** The job that [Get] returns; a nil one is a failed type assertion. *)
Definition get_job : Go S Job :=
  l ← with_store (Store_Get (Store0 := JobStore id));
  s ← get;
  match l ≫= λ l, to_heap (dm_store s) !! l with Some job => mret job | None => panic end.

(** [state, err := jobStore.Get(ctx); if err != nil { ... }; ...] *)
Definition with_job (failed : goerr → Go S unit) (f : Job → Go S unit) : Go S unit := λ s,
  match get_job s with
  | (Done job, s1) => f job s1
  | (Fail err, s1) => failed err s1
  | (Panic, s1) => (Panic, s1)
  end.

Definition Workers_TickImpl : Go S unit :=
  _ ← removeOfflineWorkers;
  with_job (λ err, _ ← Workers_onJobNotExist; throw err)
    (λ job,
      err1 ← catch (stopUnneededWorkers job);
      err2 ← catch (checkAndScheduleWorkers job);
      return_err (match err2 with Some _ => err2 | None => err1 end)).

Definition Workers_Tick : Go S unit := Tick dm_wticker upd_wticker Workers_TickImpl.

Definition removeWorkerStatusByWorkerID (workerID : WorkerID) : Go S unit :=
  s ← get;
  ks ← range (dm_workers s);
  match list_find (λ key, dw_ID <$> dm_workers s !! key = Some workerID) ks with
  | Some (_, key) => upd_workers (delete key)
  | None => mret tt
  end.

(** ** [task_manager.go] *)

Definition taskNormalInterval : Duration := (30 * Second)%Z.
Definition taskErrorInterval : Duration := (10 * Second)%Z.

Inductive OperateType : Type := Create | Pause | Resume | Update | Delete | UnknownOp.

(** The deferred call runs when there is no error. *)
Definition OperateTask (op : OperateType) (jobCfg : JobCfg) (tasks : list string) : Go S unit :=
  _ ← match op with
      | Create | Update =>
          match NewJob jobCfg with
          | Done job => with_store (Put_new id job)
          | _ => panic
          end
      | Delete => with_store (Store_Delete (Store0 := JobStore id))
      | Resume => with_store (UpdateStages id tasks StageRunning)
      | Pause => with_store (UpdateStages id tasks StagePaused)
      | UnknownOp => throw (ErrForeign "unknown operate type")
      end;
  now ← Now; upd_tticker (SetNextCheckTime now).

Definition UpdateTaskStatus (taskStatus : TaskStatus) : Go S unit := upd_tasks <[GetTask taskStatus := taskStatus]>.

Definition TaskStatus_all (s : S) : gmap string TaskStatus := dm_tasks s.

Definition Tasks_onJobNotExist : Go S unit :=
  s ← get; ks ← range (dm_tasks s); forM_ (λ key, upd_tasks (delete key)) ks.

Definition removeTaskStatus (job : Job) : Go S unit :=
  s ← get;
  ks ← range (dm_tasks s);
  forM_ (λ taskID, match job !! taskID with None => upd_tasks (delete taskID) | Some _ => mret tt end) ks.

Definition taskAsExpected (persistentTask : Task) (taskStatus : TaskStatus) : bool :=
  bool_decide (t_Stage persistentTask = GetStage taskStatus).

Definition operate_task (taskID : string) (persistentTask : Task) : Go S unit :=
  s ← get;
  match dm_tasks s !! taskID with
  | None => throw (ErrForeign "get task running status failed")
  | Some runningTask =>
      if bool_decide (GetStage runningTask = StageUnscheduled) then throw (ErrForeign "get task running status failed")
      else if taskAsExpected persistentTask runningTask then mret tt
      else Agent_OperateTask taskID (t_Stage persistentTask)
  end.

Definition checkAndOperateTasks (job : Job) : Go S unit :=
  ks ← range job;
  err ← record_each (λ taskID, match job !! taskID with Some t => operate_task taskID t | None => mret tt end) ks None;
  return_err err.

Definition Tasks_TickImpl : Go S unit :=
  with_job (λ err, _ ← Tasks_onJobNotExist; throw err) (λ job, _ ← removeTaskStatus job; checkAndOperateTasks job).

Definition Tasks_Tick : Go S unit := Tick dm_tticker upd_tticker Tasks_TickImpl.

End managers.

(** ** Specification *)

(** A created worker has an id. *)
Class DMEnvLaws `{!dmconfig} (M : Type) `{!DMEnv M} : Prop := {
  env_CreateWorker_law t cfg cost rs (m : M) wid m' : env_CreateWorker t cfg cost rs m = ((wid, None), m') → wid ≠ "";
}.

Definition keyed (m : gmap string DMWorkerStatus) : Prop := ∀ k w, m !! k = Some w → dw_TaskID w = k.

(** The worker of a task needs no action: it runs as expected, with the unit it should
    have. *)
Definition settled `{!dmconfig} (t : Task) (w : DMWorkerStatus) : Prop :=
  RunAsExpected w = true ∧ getNextUnit t w = Some (dw_Unit w).

(** The calls of the environment, as they are made. *)
Inductive dmcall `{!dmconfig} : Type :=
| CallCreate (workerType : WorkerType) (cfg : SubTaskConfig) (cost : RescUnit) (resources : list ResourceID)
| CallSend (handle : WorkerID) (topic : string) (msg : dmmsg).

Definition logged `{!dmconfig} (M : Type) `{!DMEnv M} : DMEnv (list dmcall * M) := {|
  env_CreateWorker t cfg cost rs '(log, m) := let '(r, m') := env_CreateWorker t cfg cost rs m in (r, (log ++ [CallCreate t cfg cost rs], m'));
  env_CurrentEpoch '(_, m) := env_CurrentEpoch m;
  env_SendMessage h topic msg nb '(log, m) := let '(r, m') := env_SendMessage h topic msg nb m in (r, (log ++ [CallSend h topic msg], m'));
|}.

(** The message a task needs: its stage is not the expected one, its worker is
    scheduled and has a handle, and the expected stage can be requested. *)
Definition stage_message `{!dmconfig} (id : MasterID) (tasks : gmap string TaskStatus) (handles : gmap string WorkerID) (taskID : string) (t : Task) :
    option dmcall :=
  st ← tasks !! taskID;
  h ← handles !! taskID;
  if bool_decide (GetStage st ≠ StageUnscheduled ∧ t_Stage t ≠ GetStage st ∧ (t_Stage t = StageRunning ∨ t_Stage t = StagePaused))
  then Some (CallSend h (OperateTaskMessageTopic id taskID) (MsgOperateTask taskID (t_Stage t))) else None.

(** ** Lemmas *)

Lemma SetNextCheckTime_early r t :
  (tk_last t ≤ tk_next t)%Z → (tk_last t < r)%Z →
  let t' := SetNextCheckTime r t in tk_last t' = tk_last t ∧ (tk_last t < tk_next t' ≤ r)%Z.
Proof.
  intros H1 H2. unfold SetNextCheckTime, After, Before. case_bool_decide as Heq; simpl; [lia|].
  repeat (case_bool_decide; simpl); lia.
Qed.

Lemma SetNextCheckTime_keep r rs t :
  (tk_last t < tk_next t ≤ r)%Z → Forall (λ x, r ≤ x)%Z rs → foldl (λ t x, SetNextCheckTime x t) t rs = t.
Proof.
  intros Ht. induction 1 as [|x rs Hx _ IH]; [done|]. simpl. assert (SetNextCheckTime x t = t) as ->; [|done].
  unfold SetNextCheckTime, After, Before. rewrite bool_decide_eq_false_2 by lia. rewrite (bool_decide_eq_false_2 (x < tk_next t)%Z) by lia.
  by rewrite andb_false_r.
Qed.

Lemma record_each_None {S A} (f : A → Go S unit) l acc s s' :
  record_each f l acc s = (Done None, s') → acc = None ∧ forM_ f l s = (Done tt, s').
Proof.
  revert acc s. induction l as [|x l IH]; intros acc s; simpl; [by intros [= -> ->]|].
  unfold mbind, GoM_bind, catch. destruct (f x s) as [[[]|e|] s1]; [|intros [? _]%IH; done|done]. intros [-> Hr]%IH. done.
Qed.

Lemma return_err_Done {S} err (s s' : S) : return_err err s = (Done tt, s') → err = None ∧ s' = s.
Proof. destruct err; [done|]. by intros [= ->]. Qed.

Lemma catch_None {S} (m : Go S unit) s s' : catch m s = (Done None, s') → m s = (Done tt, s').
Proof. unfold catch. destruct (m s) as [[[]|e|] s1]; [|done|done]. by intros [= ->]. Qed.

Section proofs.
Context `{!dmconfig, !DMCodec} {DB C M : Type} {kv : KV DB} `{!Toml Job, !CheckpointDB C, !DMEnv M, !DMEnvLaws M}.
Context (id : MasterID) (clk : nat → Time) (order : ∀ V : Type, nat → gmap string V → list string).
Context (order_ok : ∀ V n (m : gmap string V), iter_order m (order V n m)).
Implicit Types s : DM DB C M.

Lemma removeOffline_Done s k s1 :
  removeOffline clk k s = (Done tt, s1) →
  (∀ k', k' ≠ k → dm_workers s1 !! k' = dm_workers s !! k') ∧
  (dm_workers s1 !! k = None ∨
   dm_workers s1 !! k = dm_workers s !! k ∧ ∀ w, dm_workers s !! k = Some w → IsOffline w = false).
Proof.
  unfold removeOffline, mbind, GoM_bind, get. destruct (dm_workers s !! k) as [w|] eqn:Hw; [|intros [= <-]; auto].
  destruct (IsOffline w) eqn:Ho.
  - intros [= <-]. simpl. split; [intros; by rewrite lookup_delete_ne|left; by rewrite lookup_delete_eq].
  - case_bool_decide as Hc.
    + unfold Now. simpl. destruct (CreateFailed _ w); intros [= <-]; simpl.
      * split; [intros; by rewrite lookup_delete_ne|left; by rewrite lookup_delete_eq].
      * split; [done|right]. split; [done|]. by intros ? [= <-].
    + intros [= <-]. split; [done|right]. split; [done|]. by intros ? [= <-].
Qed.

(** What is left after the removal of offline workers. *)
Lemma removeOfflineWorkers_Done s s1 :
  removeOfflineWorkers clk order s = (Done tt, s1) →
  ∀ k w, dm_workers s1 !! k = Some w → dm_workers s !! k = Some w ∧ IsOffline w = false.
Proof.
  unfold removeOfflineWorkers, mbind, GoM_bind, get, range. intros Hr.
  pose proof (order_ok _ (dm_reads s) (dm_workers s)) as Ho.
  edestruct (forM_pointwise (E := goerr) (S := DM DB C M) dm_workers (λ _, True)
    (λ k o o', o' = None ∨ o' = o ∧ ∀ w, o = Some w → IsOffline w = false)) as (_ & Hin & Hout);
    [by eapply iter_order_NoDup|done| |exact Hr|].
  { intros k s2 s3 _ _ H3. split; [done|]. by apply removeOffline_Done. }
  intros k w Hw. destruct (decide (is_Some (dm_workers s !! k))) as [Hs|Hn].
  - destruct (Hin k) as [Hn|[He Hf]]; [by apply (iter_order_elem _ _ _ Ho)|congruence|]. rewrite He in Hw. split; [done|]. by apply Hf.
  - rewrite Hout in Hw; [by destruct Hn|]. by rewrite (iter_order_elem _ _ _ Ho).
Qed.

Lemma Agent_StopWorker_workers s taskID wid : dm_workers (Agent_StopWorker id clk taskID wid s).2 = dm_workers s.
Proof.
  unfold Agent_StopWorker, mbind, GoM_bind, get. destruct (dm_handles s !! taskID) as [h|]; [|done]. case_bool_decide; [done|].
  unfold on_env, Now. simpl. destruct (env_SendMessage _ _ _ _ _) as [[err|] e]; done.
Qed.

Lemma stop_key_Done s k s1 :
  stop_key id clk k s = (Done tt, s1) → dm_workers s1 = delete k (dm_workers s).
Proof.
  unfold stop_key, mbind, GoM_bind, get. destruct (dm_workers s !! k) as [w|] eqn:Hw.
  - unfold stopWorker. intros ([] & s2 & H2 & H3)%bind_inv_Done. unfold upd_workers, modify in H3. injection H3 as <-. simpl.
    pose proof (Agent_StopWorker_workers s k (dw_ID w)) as He. rewrite H2 in He. simpl in He. by rewrite He.
  - intros [= <-]. by rewrite delete_id.
Qed.

Lemma stopUnneededWorkers_Done (job : Job) s s1 :
  stopUnneededWorkers id clk order job s = (Done tt, s1) →
  ∀ k, dm_workers s1 !! k = if decide (is_Some (job !! k)) then dm_workers s !! k else None.
Proof.
  unfold stopUnneededWorkers. intros Hr. unfold mbind at 1, GoM_bind at 1, get at 1 in Hr. unfold mbind at 1, GoM_bind at 1, range at 1 in Hr.
  apply bind_inv_Done in Hr as (err & s2 & H2 & [-> ->]%return_err_Done). apply record_each_None in H2 as [_ H2].
  pose proof (order_ok _ (dm_reads s) (dm_workers s)) as Ho.
  edestruct (forM_pointwise (E := goerr) (S := DM DB C M) dm_workers (λ _, True) (λ k o o', o' = if decide (is_Some (job !! k)) then o else None)) as (_ & Hin & Hout);
    [by eapply iter_order_NoDup|done| |exact H2|].
  { intros k s3 s4 _ _ H4. split; [done|]. destruct (job !! k) as [t|] eqn:Hj; cbn beta in H4; rewrite Hj in H4.
    - unfold mret, GoM_ret in H4. injection H4 as <-. by rewrite decide_True.
    - apply stop_key_Done in H4. rewrite decide_False by (by intros []). rewrite H4.
      split; [intros; by rewrite lookup_delete_ne|by rewrite lookup_delete_eq]. }
  intros k. destruct (decide (is_Some (dm_workers s !! k))) as [Hs|Hn].
  - apply Hin. by apply (iter_order_elem _ _ _ Ho).
  - rewrite Hout by (by rewrite (iter_order_elem _ _ _ Ho)). apply eq_None_not_Some in Hn. rewrite Hn. by case_decide.
Qed.

Lemma getCurrentUnit_workers (t : Task) s : dm_workers (getCurrentUnit t s).2 = dm_workers s.
Proof.
  unfold getCurrentUnit. destruct (workerSeqMap !! _) as [[|first rest]|]; [done| |done].
  unfold mbind, GoM_bind. assert (∀ us s, dm_workers (last_not_fresh us (t_Cfg t) s).2 = dm_workers s) as He.
  { clear. induction us as [|u us IH]; intros s; [done|]. simpl. unfold mbind, GoM_bind, on_chk.
    destruct (IsFresh u (t_Cfg t) (dm_chk s)) as [[[]|e|] c]; simpl; [|done..]. by rewrite IH. }
  specialize (He (rev (first :: rest)) s). by destruct (last_not_fresh _ _ s) as [[o|e|] s1].
Qed.

Lemma createWorker_Done s taskID u cfg rs s1 :
  createWorker clk taskID u cfg rs s = (Done tt, s1) →
  ∃ now wid, dm_workers s1 = <[taskID := InitWorkerStatus now taskID u wid]> (dm_workers s).
Proof.
  unfold createWorker. intros ([wid err] & s2 & H2 & Hr)%bind_inv_Done. apply bind_inv_Done in Hr as ([] & s3 & H3 & [-> ->]%return_err_Done).
  unfold Agent_CreateWorker, mbind, GoM_bind, get in H2. destruct (dm_handles s !! taskID); [done|].
  destruct (ToDMSubTaskCfg cfg) as [sub|e|]; [|done|done]. unfold on_env in H2.
  destruct (env_CreateWorker u sub 1 rs (dm_env s)) as [[wid' err'] m'] eqn:Hc. simplify_eq.
  apply env_CreateWorker_law in Hc. rewrite bool_decide_eq_true_2 in H3 by done.
  unfold mbind, GoM_bind, Now, UpdateWorkerStatus, upd_workers, modify in H3. simplify_eq/=. by eexists _, wid.
Qed.

Lemma settled_new (t : Task) now taskID u wid : settled t (InitWorkerStatus now taskID u wid).
Proof. done. Qed.

Lemma scheduleTask_Done s taskID (t : Task) s1 :
  scheduleTask clk taskID t s = (Done tt, s1) → keyed (dm_workers s) →
  keyed (dm_workers s1) ∧ (∀ k, k ≠ taskID → dm_workers s1 !! k = dm_workers s !! k) ∧
  ∃ w, dm_workers s1 !! taskID = Some w ∧ settled t w.
Proof.
  unfold scheduleTask. intros Hr Hk. unfold mbind at 1, GoM_bind at 1, get at 1 in Hr.
  apply bind_inv_Done in Hr as (u & s2 & H2 & H3).
  assert (dm_workers s2 = dm_workers s) as Hw2.
  { destruct (dm_workers s !! taskID) as [w|] eqn:Hw.
    - destruct (getNextUnit t w); unfold mret, GoM_ret in H2; by simplify_eq.
    - pose proof (getCurrentUnit_workers t s) as He. by rewrite H2 in He. }
  destruct (match dm_workers s !! taskID with Some w => _ | None => false end) eqn:Hset.
  - unfold mret, GoM_ret in H3. simplify_eq. rewrite Hw2. split_and!; [done..|].
    destruct (dm_workers s !! taskID) as [w|] eqn:Hw; [|done]. exists w. split; [done|].
    apply andb_true_iff in Hset as [Hrun Hu]. apply bool_decide_eq_true in Hu. split; [done|].
    destruct (getNextUnit t w); [|done]. unfold mret, GoM_ret in H2. by simplify_eq.
  - assert (∃ rs, createWorker clk taskID u (t_Cfg t) rs s2 = (Done tt, s1)) as [rs Hc].
    { destruct (workerIdxInSeq _ u) as [[|i]|]; [by eexists| |done]. destruct (jc_Upstreams (t_Cfg t)); [done|]. by eexists. }
    apply createWorker_Done in Hc as (now & wid & ->). rewrite Hw2. split_and!.
    + intros k w. destruct (decide (k = taskID)) as [->|]; [rewrite lookup_insert_eq; by intros [= <-]|].
      rewrite lookup_insert_ne by done. apply Hk.
    + intros k ?. by rewrite lookup_insert_ne.
    + eexists. rewrite lookup_insert_eq. split; [done|]. apply settled_new.
Qed.

Lemma checkAndScheduleWorkers_Done (job : Job) s s1 :
  checkAndScheduleWorkers clk order job s = (Done tt, s1) → keyed (dm_workers s) →
  keyed (dm_workers s1) ∧ (∀ k, job !! k = None → dm_workers s1 !! k = dm_workers s !! k) ∧
  ∀ k t, job !! k = Some t → ∃ w, dm_workers s1 !! k = Some w ∧ settled t w.
Proof.
  unfold checkAndScheduleWorkers. intros Hr Hk. unfold mbind at 1, GoM_bind at 1, range at 1 in Hr.
  apply bind_inv_Done in Hr as (err & s2 & H2 & [-> ->]%return_err_Done). apply record_each_None in H2 as [_ H2].
  pose proof (order_ok _ (dm_reads s) job) as Ho.
  edestruct (forM_pointwise (E := goerr) (S := DM DB C M) dm_workers (λ s, keyed (dm_workers s))
    (λ k _ o', ∀ t, job !! k = Some t → ∃ w, o' = Some w ∧ settled t w)) as (Hkeyed & Hin & Hout);
    [by eapply iter_order_NoDup|exact Hk| |exact H2|].
  { intros k s3 s4 Hin HI H4. cbn beta in H4. apply (iter_order_elem _ _ _ Ho) in Hin as [t Ht]. rewrite Ht in H4.
    destruct (scheduleTask_Done _ _ _ _ H4 HI) as (? & ? & ?). split_and!; [done..|]. by intros ? [= <-]%(eq_trans (eq_sym Ht)). }
  split_and!; [done| |].
  - intros k Hn. apply Hout. rewrite (iter_order_elem _ _ _ Ho), Hn. by intros [].
  - intros k t Ht. apply Hin; [|done]. by apply (iter_order_elem _ _ _ Ho).
Qed.

Lemma get_job_workers s : dm_workers (get_job id s).2 = dm_workers s.
Proof.
  unfold get_job, mbind, GoM_bind, with_store. destruct (Store_Get _) as [[o|e|] [db st]]; [|done|done]. unfold get.
  by destruct (option_bind _ _ _ o).
Qed.

Lemma get_job_Done s job s1 :
  get_job id s = (Done job, s1) → (run_jop id JGet (dm_db s, dm_store s)).1 = Done (Some job).
Proof.
  unfold get_job, run_jop, mbind, GoM_bind, with_store. destruct (Store_Get _) as [[o|e|] [db st]]; [|done|done]. unfold get. simpl.
  destruct (option_bind _ _ _ o); [|done]. unfold mret, GoM_ret. by intros [= ->].
Qed.

Lemma removeOfflineWorkers_frame s s1 :
  removeOfflineWorkers clk order s = (Done tt, s1) → dm_db s1 = dm_db s ∧ dm_store s1 = dm_store s ∧ dm_handles s1 = dm_handles s.
Proof.
  unfold removeOfflineWorkers, mbind, GoM_bind, get, range. generalize (order DMWorkerStatus (dm_reads s) (dm_workers s)) as ks.
  intros ks. revert s. induction ks as [|k ks IH]; intros s; [by intros [= <-]|]. simpl.
  intros ([] & s2 & H2 & Hr)%bind_inv_Done. destruct (IH _ Hr) as (-> & -> & ->). revert H2. unfold removeOffline, mbind, GoM_bind, get.
  destruct (dm_workers s !! k) as [w|]; [|by intros [= <-]]. destruct (IsOffline w); [by intros [= <-]|].
  case_bool_decide; [|by intros [= <-]]. unfold Now. destruct (CreateFailed _ w); by intros [= <-].
Qed.

End proofs.

Section task_messages.
Context `{!dmconfig, !DMCodec} {DB C M : Type} {kv : KV DB} `{!Toml Job, !CheckpointDB C, !DMEnv M}.
Context (id : MasterID) (clk : nat → Time) (order : ∀ V : Type, nat → gmap string V → list string).
Context (order_ok : ∀ V n (m : gmap string V), iter_order m (order V n m)).
#[local] Existing Instance logged.
Implicit Types s : DM DB C (list dmcall * M).

Definition set_env (e : list dmcall * M) s : DM DB C (list dmcall * M) :=
  mkDM (dm_db s) (dm_store s) (dm_chk s) e (dm_reads s) (dm_wticker s) (dm_workers s) (dm_tticker s) (dm_tasks s) (dm_handles s).

Definition set_tasks (m : gmap string TaskStatus) s : DM DB C (list dmcall * M) :=
  mkDM (dm_db s) (dm_store s) (dm_chk s) (dm_env s) (dm_reads s) (dm_wticker s) (dm_workers s) (dm_tticker s) m (dm_handles s).

Lemma set_env_id s : set_env (dm_env s) s = s.
Proof. by destruct s. Qed.

Lemma removeTaskStatus_eq (job : Job) s :
  removeTaskStatus order job s = (Done tt, set_tasks (filter (λ kv, is_Some (job !! kv.1)) (dm_tasks s)) s).
Proof.
  unfold removeTaskStatus, mbind, GoM_bind, get, range. pose proof (order_ok _ (dm_reads s) (dm_tasks s)) as Ho.
  assert (∀ ks (m : gmap string TaskStatus), forM_ (λ taskID, match job !! taskID with None => upd_tasks (delete taskID) | Some _ => mret tt end) ks (set_tasks m s) =
    (Done tt, set_tasks (filter (λ kv, kv.1 ∉ ks ∨ is_Some (job !! kv.1)) m) s)) as Hloop.
  { induction ks as [|k ks IH]; intros m.
    - simpl. unfold mret, GoM_ret. do 2 f_equal. symmetry. apply map_filter_id. intros i x _. left. by apply not_elem_of_nil.
    - simpl. unfold mbind, GoM_bind. destruct (job !! k) as [t|] eqn:Hj.
      + unfold mret, GoM_ret. rewrite IH. do 2 f_equal. apply map_filter_strong_ext. intros i x. simpl. rewrite not_elem_of_cons.
        destruct (decide (i = k)) as [->|]; [rewrite Hj|]; naive_solver.
      + unfold upd_tasks, modify at 1. cbn [dm_tasks set_tasks]. change (mkDM _ _ _ _ _ _ _ _ (delete k m) _) with (set_tasks (delete k m) s).
        rewrite IH. do 2 f_equal. apply map_eq. intros i. apply option_eq. intros x. rewrite !map_lookup_filter_Some. simpl.
        rewrite lookup_delete_Some, not_elem_of_cons. destruct (decide (i = k)) as [->|]; [rewrite Hj|]; split.
        * naive_solver.
        * intros [_ [[? _]|[]]]; done.
        * naive_solver.
        * naive_solver. }
  specialize (Hloop (order TaskStatus (dm_reads s) (dm_tasks s)) (dm_tasks s)).
  assert (set_tasks (dm_tasks s) s = s) as Hs by (by destruct s). rewrite Hs in Hloop. rewrite Hloop. do 2 f_equal.
  apply map_filter_strong_ext. intros i x. simpl. rewrite (iter_order_elem _ _ _ Ho). split; [|naive_solver].
  intros [[Hn|?] Hx]; [|done]. destruct Hn. by exists x.
Qed.

Lemma operate_task_eq taskID (t : Task) s log m :
  dm_env s = (log, m) →
  ∃ r m', operate_task id taskID t s = (r, set_env (log ++ option_list (stage_message id (dm_tasks s) (dm_handles s) taskID t), m') s) ∧ r ≠ Panic.
Proof.
  intros He. unfold operate_task, stage_message, mbind, GoM_bind, get. simpl.
  assert (set_env (log, m) s = s) as Hid by (rewrite <- He; apply set_env_id).
  destruct (dm_tasks s !! taskID) as [st|]; simpl; [|eexists _, m; rewrite app_nil_r, Hid; done].
  case_bool_decide as Hu.
  { eexists _, m. destruct (dm_handles s !! taskID); simpl; [rewrite bool_decide_eq_false_2 by naive_solver; simpl|]; rewrite app_nil_r, Hid; done. }
  unfold taskAsExpected. case_bool_decide as Hst.
  { eexists _, m. destruct (dm_handles s !! taskID); simpl; [rewrite bool_decide_eq_false_2 by naive_solver; simpl|]; rewrite app_nil_r, Hid; done. }
  unfold Agent_OperateTask. destruct (decide (t_Stage t = StageRunning ∨ t_Stage t = StagePaused)) as [Hv|Hv].
  - assert (bool_decide (t_Stage t ≠ StageRunning) && bool_decide (t_Stage t ≠ StagePaused) = false) as ->.
    { apply andb_false_iff. rewrite !bool_decide_eq_false. destruct Hv; [left|right]; by intros []. }
    unfold mbind, GoM_bind, get. destruct (dm_handles s !! taskID) as [h|]; simpl; [|eexists _, m; rewrite app_nil_r, Hid; done].
    rewrite bool_decide_eq_true_2 by done. unfold on_env, logged. rewrite He. cbn [env_SendMessage].
    destruct (env_SendMessage h (OperateTaskMessageTopic id taskID) (MsgOperateTask taskID (t_Stage t)) true m) as [[err|] m']; eexists _, m'; simpl; done.
  - rewrite (bool_decide_eq_true_2 (t_Stage t ≠ StageRunning)), (bool_decide_eq_true_2 (t_Stage t ≠ StagePaused)) by tauto. eexists _, m. simpl.
    destruct (dm_handles s !! taskID); simpl; [rewrite bool_decide_eq_false_2 by naive_solver; simpl|]; rewrite app_nil_r, Hid; done.
Qed.

Lemma operate_each_eq (job : Job) ks s log m acc :
  dm_env s = (log, m) →
  ∃ r m', record_each (λ taskID, match job !! taskID with Some t => operate_task id taskID t | None => mret tt end) ks acc s =
    (Done r, set_env (log ++ omap (λ taskID, t ← job !! taskID; stage_message id (dm_tasks s) (dm_handles s) taskID t) ks, m') s).
Proof.
  revert s log m acc. induction ks as [|k ks IH]; intros s log m acc He; simpl.
  - exists acc, m. rewrite app_nil_r, <- He, set_env_id. done.
  - unfold mbind, GoM_bind, catch. destruct (job !! k) as [t|] eqn:Hj; simpl.
    + destruct (operate_task_eq k t s log m He) as (r & m1 & -> & Hr). set (s1 := set_env _ s).
      destruct (IH s1 _ m1 (match r with Fail e => Some e | _ => acc end) eq_refl) as (r' & m2 & H2).
      exists r', m2. destruct r as [[]|e|]; [| |done]; rewrite H2; unfold s1, set_env; simpl; do 3 f_equal; rewrite <- app_assoc; do 2 f_equal;
        by destruct (stage_message _ _ _ _ _).
    + destruct (IH s log m acc He) as (r' & m2 & H2). exists r', m2. rewrite H2. done.
Qed.

Lemma get_job_frame s : let s1 := (get_job id s).2 in dm_tasks s1 = dm_tasks s ∧ dm_handles s1 = dm_handles s ∧ dm_env s1 = dm_env s ∧ dm_reads s1 = dm_reads s.
Proof.
  unfold get_job, mbind, GoM_bind, with_store. destruct (Store_Get _) as [[o|e|] [db st]]; [|done|done]. unfold get.
  by destruct (option_bind _ _ _ o).
Qed.

End task_messages.

(** ** What every outcome of a call keeps *)

Definition keeps {S A} (I : S → Prop) (m : Go S A) : Prop := ∀ s, I s → I (m s).2.

Section keeps.
Context {S : Type} (I : S → Prop).

Lemma keeps_ret {A} (a : A) : keeps I (mret a).
Proof. by intros s. Qed.

Lemma keeps_throw {A} e : keeps I (throw e : Go S A).
Proof. by intros s. Qed.

Lemma keeps_panic {A} : keeps I (panic : Go S A).
Proof. by intros s. Qed.

Lemma keeps_get : keeps I get.
Proof. by intros s. Qed.

Lemma keeps_bind {A B} (m : Go S A) (f : A → Go S B) : keeps I m → (∀ a, keeps I (f a)) → keeps I (m ≫= f).
Proof. intros Hm Hf s Hs. specialize (Hm s Hs). unfold mbind, GoM_bind. destruct (m s) as [[a|e|] s1]; [by apply Hf|done|done]. Qed.

Lemma keeps_catch (m : Go S unit) : keeps I m → keeps I (catch m).
Proof. intros Hm s Hs. specialize (Hm s Hs). unfold catch. by destruct (m s) as [[a|e|] s1]. Qed.

Lemma keeps_return_err e : keeps I (return_err e).
Proof. destruct e; [apply keeps_throw|apply keeps_ret]. Qed.

Lemma keeps_forM {A} (f : A → Go S unit) l : (∀ x, keeps I (f x)) → keeps I (forM_ f l).
Proof. intros Hf. induction l as [|x l IH]; [apply keeps_ret|]. simpl. by apply keeps_bind. Qed.

Lemma keeps_record_each {A} (f : A → Go S unit) l acc : (∀ x, keeps I (f x)) → keeps I (record_each f l acc).
Proof.
  intros Hf. revert acc. induction l as [|x l IH]; intros acc; [apply keeps_ret|]. simpl. apply keeps_bind; [by apply keeps_catch|].
  intros err. apply IH.
Qed.

End keeps.

Create HintDb keeps_db.
#[export] Hint Resolve keeps_ret keeps_throw keeps_panic keeps_get keeps_bind keeps_catch keeps_return_err keeps_forM keeps_record_each : keeps_db.

(** The cases of the code under an invariant. *)
Ltac keeps_tac :=
  repeat first
    [ eassumption
    | apply keeps_bind; [|intros ?]
    | apply keeps_ret | apply keeps_throw | apply keeps_panic | apply keeps_get | apply keeps_return_err
    | apply keeps_catch | apply keeps_forM; intros ? | apply keeps_record_each; intros ?
    | progress case_match | by eauto with keeps_db ].

Section keeps_workers.
Context `{!dmconfig, !DMCodec} {DB C M : Type} {kv : KV DB} `{!Toml Job, !CheckpointDB C, !DMEnv M}.
Context (id : MasterID) (clk : nat → Time) (order : ∀ V : Type, nat → gmap string V → list string).
Context (ws0 : gmap string DMWorkerStatus) (hs0 : gmap string WorkerID).

(** The handles are the given ones, and the workers are of the given ones or being
    created. *)
Definition only_creates (s : DM DB C M) : Prop :=
  dm_handles s = hs0 ∧ ∀ k w, dm_workers s !! k = Some w → ws0 !! k = Some w ∨ dw_Stage w = WorkerCreating.

Lemma keeps_Now : keeps only_creates (Now clk).
Proof. by intros s. Qed.
Lemma keeps_range {V} (m : gmap string V) : keeps only_creates (range order m).
Proof. by intros s. Qed.
Lemma keeps_on_env {A} (m : M → A * M) : keeps only_creates (on_env m).
Proof. intros s Hs. unfold on_env. by destruct (m (dm_env s)). Qed.
Lemma keeps_on_chk {A} (m : Go C A) : keeps only_creates (on_chk m).
Proof. intros s Hs. unfold on_chk. by destruct (m (dm_chk s)). Qed.
Lemma keeps_with_store {A} (m : Go (DB * TomlStore Job) A) : keeps only_creates (with_store m).
Proof. intros s Hs. unfold with_store. by destruct (m _) as [r [db st]]. Qed.
Lemma keeps_upd_wticker f : keeps only_creates (upd_wticker f).
Proof. by intros s. Qed.
Lemma keeps_delete k : keeps only_creates (upd_workers (delete k)).
Proof. intros s [Hh Hw]. split; [done|]. simpl. intros k' w [_ ?]%lookup_delete_Some. by apply Hw. Qed.
Lemma keeps_create now taskID u wid : keeps only_creates (UpdateWorkerStatus (InitWorkerStatus now taskID u wid)).
Proof.
  intros s [Hh Hw]. split; [done|]. simpl. intros k' w [[_ <-]|[_ ?]]%lookup_insert_Some; [by right|by apply Hw].
Qed.

#[local] Hint Resolve keeps_Now keeps_range keeps_on_env keeps_on_chk keeps_with_store keeps_upd_wticker keeps_delete keeps_create : keeps_db.

Lemma keeps_removeOfflineWorkers : keeps only_creates (removeOfflineWorkers clk order).
Proof. unfold removeOfflineWorkers, removeOffline. keeps_tac. Qed.

Lemma keeps_StopWorker taskID wid : keeps only_creates (Agent_StopWorker id clk taskID wid).
Proof. unfold Agent_StopWorker. keeps_tac. Qed.

Lemma keeps_stop_key k : keeps only_creates (stop_key id clk k).
Proof. unfold stop_key, stopWorker. pose proof keeps_StopWorker. keeps_tac. Qed.

Lemma keeps_getCurrentUnit t : keeps only_creates (getCurrentUnit t).
Proof.
  assert (∀ us cfg, keeps only_creates (last_not_fresh us cfg)) as Hl.
  { induction us as [|u us IH]; intros cfg; simpl; keeps_tac. }
  unfold getCurrentUnit. keeps_tac.
Qed.

Lemma keeps_createWorker taskID u cfg rs : keeps only_creates (createWorker clk taskID u cfg rs).
Proof. unfold createWorker, Agent_CreateWorker. keeps_tac. Qed.

Lemma keeps_with_job failed f :
  (∀ e, keeps only_creates (failed e)) → (∀ job, keeps only_creates (f job)) → keeps only_creates (with_job id failed f).
Proof.
  intros Hf1 Hf2 s Hs. assert (keeps only_creates (get_job id)) as Hg by (unfold get_job; keeps_tac).
  unfold with_job. specialize (Hg s Hs). destruct (get_job id s) as [[job|e|] s1]; [by apply Hf2|by apply Hf1|done].
Qed.

Lemma keeps_Workers_TickImpl : keeps only_creates (Workers_TickImpl id clk order).
Proof.
  pose proof keeps_removeOfflineWorkers. pose proof keeps_stop_key. pose proof keeps_getCurrentUnit. pose proof keeps_createWorker.
  unfold Workers_TickImpl. apply keeps_bind; [done|]. intros _.
  apply keeps_with_job; [intros e; unfold Workers_onJobNotExist; keeps_tac|].
  intros job. unfold stopUnneededWorkers, checkAndScheduleWorkers, scheduleTask. keeps_tac.
Qed.

Lemma keeps_Workers_Tick : keeps only_creates (Workers_Tick id clk order).
Proof. pose proof keeps_Workers_TickImpl. unfold Workers_Tick, Tick, Tick_due. keeps_tac. Qed.

Lemma keeps_upd_tasks f : keeps only_creates (upd_tasks f).
Proof. by intros s. Qed.
Lemma keeps_upd_tticker f : keeps only_creates (upd_tticker f).
Proof. by intros s. Qed.
#[local] Hint Resolve keeps_upd_tasks keeps_upd_tticker : keeps_db.

Lemma keeps_Tasks_Tick : keeps only_creates (Tasks_Tick id clk order).
Proof.
  assert (keeps only_creates (Tasks_TickImpl id order)) as Hi.
  { unfold Tasks_TickImpl. apply keeps_with_job; intros ?; unfold Tasks_onJobNotExist, removeTaskStatus, checkAndOperateTasks, operate_task, Agent_OperateTask; keeps_tac. }
  unfold Tasks_Tick, Tick, Tick_due. keeps_tac.
Qed.

End keeps_workers.

(** A tick without error. *)
Lemma Workers_TickImpl_matches `{!dmconfig} {DB C M} {kv : KV DB} `{!Toml Job, !CheckpointDB C, !DMEnv M, !DMEnvLaws M}
    id clk order (s s' : DM DB C M) :
  (∀ V n (m : gmap string V), iter_order m (order V n m)) →
  keyed (dm_workers s) → Workers_TickImpl id clk order s = (Done tt, s') →
  ∃ job, (run_jop id JGet (dm_db s, dm_store s)).1 = Done (Some job) ∧ keyed (dm_workers s') ∧
    ∀ taskID, match job !! taskID with
              | Some t => ∃ w, dm_workers s' !! taskID = Some w ∧ settled t w
              | None => dm_workers s' !! taskID = None
              end.
Proof.
  intros Hord Hk Hr. unfold Workers_TickImpl in Hr. apply bind_inv_Done in Hr as ([] & s1 & H1 & Hr).
  pose proof (removeOfflineWorkers_Done clk order Hord _ _ H1) as Hoff.
  unfold with_job in Hr. destruct (get_job id s1) as [[job|e|] s2] eqn:Hg; [|by apply bind_inv_Done in Hr as (? & ? & _ & ?)|done].
  apply bind_inv_Done in Hr as (err1 & s3 & H3 & Hr). apply bind_inv_Done in Hr as (err2 & s4 & H4 & [He ->]%return_err_Done).
  destruct err2; [done|]. subst err1. apply catch_None in H3, H4.
  pose proof (get_job_workers id s1) as Hw2. rewrite Hg in Hw2. simpl in Hw2.
  pose proof (stopUnneededWorkers_Done id clk order Hord _ _ _ H3) as Hst. rewrite Hw2 in Hst.
  assert (keyed (dm_workers s3)) as Hk3.
  { intros k w. rewrite Hst. case_decide; [|done]. intros [Hw _]%Hoff. by apply Hk. }
  destruct (checkAndScheduleWorkers_Done clk order Hord _ _ _ H4 Hk3) as (Hk4 & Hnone & Hsome).
  exists job. split_and!; [|done|].
  { apply get_job_Done in Hg. by destruct (removeOfflineWorkers_frame _ _ _ _ H1) as (<- & <- & _). }
  intros taskID. destruct (job !! taskID) as [t|] eqn:Ht; [by apply Hsome|].
  rewrite Hnone, Hst, Ht by done. by rewrite decide_False by (by intros []).
Qed.

Section current_unit.
Context `{!dmconfig, !DMCodec} {DB C M : Type} `{!CheckpointDB C}.
Implicit Types s : DM DB C M.

Lemma last_not_fresh_spec (cfg : TaskCfg) us s o s1 :
  last_not_fresh us cfg s = (Done o, s1) →
  match o with
  | None => ∀ u, u ∈ us → ∃ c c', IsFresh u cfg c = (Done true, c')
  | Some u =>
      ∃ later earlier, us = later ++ u :: earlier ∧ (∃ c c', IsFresh u cfg c = (Done false, c')) ∧
        ∀ u', u' ∈ later → ∃ c c', IsFresh u' cfg c = (Done true, c')
  end.
Proof.
  revert s. induction us as [|u us IH]; intros s; simpl; [intros [= <- <-]; set_solver|].
  intros (fresh & s2 & H2 & Hr)%bind_inv_Done. unfold on_chk in H2. destruct (IsFresh u cfg (dm_chk s)) as [r c'] eqn:Hf. simplify_eq.
  destruct fresh; simpl in Hr; [|injection Hr as <- <-; exists [], us; split_and!; [done|by eauto|set_solver]].
  specialize (IH _ Hr). destruct o as [u'|].
  - destruct IH as (later & earlier & -> & Hu' & Hl). exists (u :: later), earlier. split_and!; [done..|].
    intros x [->|?]%elem_of_cons; [by eauto|by apply Hl].
  - intros x [->|?]%elem_of_cons; [by eauto|by apply IH].
Qed.

End current_unit.

(** ** Theorems *)


(** A request for a check is not lost. Once the next check of a ticker was asked for
    at a time after the last check, be it between ticks or during one, no later
    request and not the end of the tick postpones it: a tick at or after that time
    runs. *)
Theorem check_request_not_lost `{!dmconfig} {DB C M} {kv : KV DB} `{!Toml Job, !CheckpointDB C, !DMEnv M}
    id clk order (s : DM DB C M) t r rs :
  (tk_last t ≤ tk_next t)%Z → (tk_last t < r)%Z → Forall (λ x, r ≤ x)%Z rs →
  dm_wticker s = foldl (λ t x, SetNextCheckTime x t) t (r :: rs) → (r ≤ clk (dm_reads s))%Z →
  Workers_Tick id clk order s = Tick_due clk upd_wticker (Workers_TickImpl id clk order) (Now clk s).2.
Proof.
  intros H1 H2 Hrs Hs Hnow. destruct (SetNextCheckTime_early r t H1 H2) as [Hl Hn]. simpl in Hs.
  rewrite (SetNextCheckTime_keep r) in Hs by (rewrite ?Hl; done).
  unfold Workers_Tick, Tick, mbind, GoM_bind, get. cbn [Now dm_wticker]. rewrite Hs. unfold Before.
  rewrite bool_decide_eq_false_2 by lia. unfold Now. cbn [snd]. by rewrite Hs.
Qed.

(** A finished unit is followed by the next of the task's mode, and the last one by
    nothing: its worker stays as it is. *)
Theorem finished_units_advance `{!dmconfig} (t : Task) (w : DMWorkerStatus) seq i :
  workerSeqMap !! jc_TaskMode (t_Cfg t) = Some seq → seq !! i = Some (dw_Unit w) → dw_Stage w = WorkerFinished →
  match seq !! S i with
  | Some u => getNextUnit t w = Some u ∧ ¬ settled t w
  | None => settled t w
  end.
Proof.
  intros Hseq Hi Hst.
  assert (NoDup seq) as Hnd.
  { unfold workerSeqMap in Hseq. repeat (apply lookup_insert_Some in Hseq as [[_ <-]|[_ Hseq]]; [by apply (bool_decide_unpack _)|]).
    apply lookup_singleton_Some in Hseq as [_ <-]. by apply (bool_decide_unpack _). }
  assert (workerIdxInSeq (jc_TaskMode (t_Cfg t)) (dw_Unit w) = Some i) as Hidx.
  { unfold workerIdxInSeq. rewrite Hseq. simpl. destruct (list_find (λ w0, w0 = dw_Unit w) seq) as [[j u]|] eqn:Hf.
    - apply list_find_Some in Hf as (Hj & -> & _). simpl. f_equal. by eapply NoDup_lookup.
    - apply list_find_None in Hf. rewrite Forall_lookup in Hf. by destruct (Hf i (dw_Unit w) Hi). }
  assert (getNextUnit t w = Some (default (dw_Unit w) (seq !! S i))) as Hn.
  { unfold getNextUnit. rewrite bool_decide_eq_false_2 by naive_solver. unfold nextWorkerIdxAndType. rewrite Hseq. simpl. rewrite Hidx. simpl.
    apply lookup_lt_Some in Hi as Hlt. case_bool_decide as He.
    - rewrite Hi, lookup_ge_None_2 by lia. done.
    - destruct (lookup_lt_is_Some_2 seq (i + 1)) as [u Hu]; [lia|]. rewrite Nat.add_1_r in *. by rewrite Hu. }
  destruct (seq !! S i) as [u|] eqn:Hu; simpl in Hn.
  - split; [done|]. unfold settled. rewrite Hn. intros [_ [= ->]]. assert (i = S i) by (by eapply NoDup_lookup). lia.
  - split; [|done]. unfold RunAsExpected. by rewrite Hst.
Qed.

(** A task without a worker resumes where it stopped: with the last unit of its mode
    that has a checkpoint, all later ones being fresh, or with the first unit when
    none has. *)
Theorem resume_unit `{!dmconfig, !DMCodec} {DB C M} `{!CheckpointDB C} (t : Task) (s s' : DM DB C M) u :
  getCurrentUnit t s = (Done u, s') →
  ∃ earlier later, workerSeqMap !! jc_TaskMode (t_Cfg t) = Some (earlier ++ u :: later) ∧
    ((∃ c c', IsFresh u (t_Cfg t) c = (Done false, c')) ∨ earlier = []) ∧
    ∀ u', u' ∈ later → ∃ c c', IsFresh u' (t_Cfg t) c = (Done true, c').
Proof.
  unfold getCurrentUnit. destruct (workerSeqMap !! _) as [[|first rest]|]; [done| |done].
  intros (o & s1 & Ho & [= <- <-])%bind_inv_Done. apply last_not_fresh_spec in Ho. destruct o as [u'|]; simpl.
  - destruct Ho as (later & earlier & He & Hu & Hl). exists (rev earlier), (rev later). apply (f_equal (@rev _)) in He.
    rewrite rev_app_distr in He. simpl in He. rewrite rev_app_distr, rev_involutive in He. simpl in He. rewrite He, <- app_assoc.
    split_and!; [done|by left|]. intros x Hx. apply Hl. by rewrite list_elem_of_In, <- in_rev, <- list_elem_of_In in Hx.
  - exists [], rest. split_and!; [done|by right|]. intros x Hx. apply Ho. rewrite list_elem_of_In, <- in_rev. right. by apply list_elem_of_In.
Qed.

(** A tick of the task manager sends one message to each task of the job whose
    stage is not the expected one, if its worker can be reached, and no other; it
    forgets exactly the tasks that are not in the job; whatever the answers are. *)
Theorem task_tick_messages `{!dmconfig} {DB C M} {kv : KV DB} `{!Toml Job, !CheckpointDB C, !DMEnv M}
    id order (s : DM DB C (list dmcall * M)) (job : Job) log m :
  (∀ V n (mp : gmap string V), iter_order mp (order V n mp)) →
  dm_env s = (log, m) → (get_job id s).1 = Done job →
  let out := Tasks_TickImpl (DMEnv0 := logged M) id order s in
  out.1 ≠ Panic ∧ dm_handles out.2 = dm_handles s ∧
  dm_tasks out.2 = filter (λ kv, is_Some (job !! kv.1)) (dm_tasks s) ∧
  ∃ ks, iter_order job ks ∧
    (dm_env out.2).1 = log ++ omap (λ taskID, t ← job !! taskID; stage_message id (dm_tasks s) (dm_handles s) taskID t) ks.
Proof.
  intros Hord He Hj out. unfold out, Tasks_TickImpl, with_job. pose proof (get_job_frame id s) as (Ht & Hh & Hen & Hr).
  destruct (get_job id s) as [r s1]. simpl in *. subst r. unfold mbind at 1 2 3 4, GoM_bind at 1 2 3 4.
  rewrite removeTaskStatus_eq by done. set (s2 := set_tasks _ s1). unfold checkAndOperateTasks, mbind, GoM_bind, range.
  destruct (operate_each_eq id job (order Task (dm_reads s2) job) s2 log m None) as (r & m' & ->); [simpl; by rewrite Hen|].
  assert (∀ (S : Type) e (s : S), return_err e s = (match e with None => Done () | Some e => Fail e end, s)) as Hret by (by intros ? []).
  rewrite Hret. simpl. split_and!; [by destruct r|done|by rewrite Ht|]. exists (order Task (dm_reads s2) job). split; [done|]. f_equal.
  rewrite Ht, Hh. apply list_omap_ext. apply Forall_Forall2_diag, Forall_true. intros k. destruct (job !! k) as [t|] eqn:Hk; [|done]. simpl.
  unfold stage_message. f_equal. destruct (dm_tasks s !! k) as [st|] eqn:Hst.
  - apply map_lookup_filter_Some_2; [done|]. by exists t.
  - apply map_lookup_filter_None_2. by left.
Qed.

(** ** A small job *)
Module Witness.
Import DMConfig.Ref DMStore.Witness.
#[export] Existing Instances ref_dmconfig ref_DMCodec ref_Toml ref_kv ref_CheckpointDB.

(** Workers are named; all messages are sent. *)
#[export] Instance ref_env : DMEnv nat := {|
  env_CreateWorker t cfg cost rs m := (("w" +:+ pretty.pretty m, None), S m);
  env_CurrentEpoch _ := 1%Z;
  env_SendMessage h topic msg nb m := (None, m);
|}.

#[export] Instance ref_env_laws : DMEnvLaws nat.
Proof. split. intros t cfg cost rs m wid m'. simpl. intros [= <- _]. done. Qed.

Definition clk0 (n : nat) : Time := (Z.of_nat n * Second)%Z.
Definition order0 (V : Type) (n : nat) (m : gmap string V) : list string := (map_to_list m).*1.

Lemma order0_ok V n (m : gmap string V) : iter_order m (order0 V n m).
Proof. apply iter_order_keys. Qed.

Definition tables0 : gset string := {["meta.job_lightning"; "meta.job_syncer"]}.
Definition ticker0 : DefaultTicker := NewDefaultTicker 0 WorkerNormalInterval WorkerErrorInterval.

Definition s0 : DM RefEtcd (gset string) nat := mkDM db1 (NewTomlStore []) tables0 0 1 ticker0 ∅ ticker0 ∅ ∅.


Lemma check_request_not_lost_witness :
  Workers_Tick "j" clk0 order0 s0 = Tick_due clk0 upd_wticker (Workers_TickImpl "j" clk0 order0) (Now clk0 s0).2.
Proof.
  apply (check_request_not_lost "j" clk0 order0 s0 (mkTicker zeroTime zeroTime WorkerNormalInterval WorkerErrorInterval) 0 [5%Z]);
    [vm_compute; discriminate|vm_compute; reflexivity|by repeat constructor|vm_compute; reflexivity|vm_compute; discriminate].
Defined.

Definition task0 : Task := NewTask ref_job.

Lemma finished_units_advance_witness :
  getNextUnit task0 (NewWorkerStatus "s1" WorkerDMDump "w0" WorkerFinished) = Some WorkerDMLoad.
Proof.
  apply (finished_units_advance task0 (NewWorkerStatus "s1" WorkerDMDump "w0" WorkerFinished) [WorkerDMDump; WorkerDMLoad; WorkerDMSync] 0);
    [vm_compute; reflexivity|reflexivity|reflexivity].
Defined.

Lemma resume_unit_witness :
  ∃ earlier later, workerSeqMap !! jc_TaskMode (t_Cfg task0) = Some (earlier ++ WorkerDMDump :: later).
Proof.
  destruct (resume_unit task0 s0 (getCurrentUnit task0 s0).2 WorkerDMDump) as (e & l & He & _); [vm_compute; reflexivity|].
  exists e, l. exact He.
Defined.

Definition s1 : DM RefEtcd (gset string) (list dmcall * nat) :=
  mkDM db1 (NewTomlStore []) tables0 ([], 0) 1 ticker0 ∅ ticker0
    {["s1" := TSDefault (mkDefaultTaskStatus WorkerDMDump "s1" StagePaused); "s3" := NewOfflineStatus "s3"]} {["s1" := "w1"]}.

Lemma task_tick_messages_witness :
  dm_tasks (Tasks_TickImpl (DMEnv0 := logged nat) "j" order0 s1).2 !! "s3" = None.
Proof.
  destruct (task_tick_messages "j" order0 s1 job0 [] 0) as (_ & _ & Ht & _); [apply order0_ok|reflexivity|vm_compute; reflexivity|].
  rewrite Ht. vm_compute. reflexivity.
Defined.

End Witness.
