(* ===== verification/DMJobMaster.v ===== *)
(** * The data migration job master ([jobmaster/dm/dm_jobmaster.go])

    The job master creates its managers at initialisation or at recovery, feeds them
    with the events of its workers, ticks them, and at its end waits until its workers
    are gone. *)

From S2P Require Import Prelude Errors Model Keys MetaKV DMConfig DMStore DMManagers.

(** [lib.WorkerHandle], as the job master uses it: its id, whether it is a tombstone,
    and the extended status of its worker. *)
Record DMHandle := mkDMHandle { wh_ID : WorkerID; wh_Tombstone : bool; wh_ExtBytes : string }.

(** [Unwrap]: nil for a tombstone. *)
Definition wh_Unwrap (h : DMHandle) : option WorkerID := if wh_Tombstone h then None else Some (wh_ID h).

(** The managers are nil before they are created. *)
Record JobMaster `{!dmconfig} (DB C M : Type) := mkJobMaster {
  jm_dm : DM DB C M;
  jm_created : bool;
  jm_closed : bool;
}.
Arguments mkJobMaster {_ DB C M}.
Arguments jm_dm {_ DB C M}.
Arguments jm_created {_ DB C M}.
Arguments jm_closed {_ DB C M}.

Section job_master.
Context `{!dmconfig, !DMCodec} {DB C M : Type} {kv : KV DB} `{!Toml Job, !CheckpointDB C, !DMEnv M, !TaskJSON}.
Context (id : MasterID) (clk : nat → Time) (order : ∀ V : Type, nat → gmap string V → list string).
(** The configuration of the job, [GetWorkers] of the base job master and
    [checker.CheckSyncConfigFunc]. *)
Context (jobCfg : JobCfg) (GetWorkers : M → gmap WorkerID DMHandle) (CheckSyncConfig : list SubTaskConfig → option string).

Abbreviation DMS := (DM DB C M).
Abbreviation JM := (JobMaster DB C M).

(** A call on the managers. *)
Definition on_dm {A} (m : Go DMS A) : Go JM A := λ j,
  if jm_created j then let '(r, s) := m (jm_dm j) in (r, mkJobMaster s (jm_created j) (jm_closed j)) else (Panic, j).

Definition lift {A} (r : res goerr A) : Go DMS A := λ s, (r, s).

(** One round of the loop of [getInitStatus]. *)
Definition init_status (h : DMHandle) (acc : list TaskStatus * list DMWorkerStatus * gmap string WorkerID) :
    res goerr (list TaskStatus * list DMWorkerStatus * gmap string WorkerID) :=
  let '(ts, ws, hs) := acc in
  if wh_Tombstone h then Done acc
  else match UnmarshalTaskStatus (wh_ExtBytes h) with
       | Fail err => Fail err
       | Panic => Panic
       | Done st =>
           Done (ts ++ [st], ws ++ [NewWorkerStatus (GetTask st) (GetUnit st) (wh_ID h) WorkerOnline], <[GetTask st := wh_ID h]> hs)
       end.

Fixpoint init_statuses (hs : list DMHandle) (acc : list TaskStatus * list DMWorkerStatus * gmap string WorkerID) :
    res goerr (list TaskStatus * list DMWorkerStatus * gmap string WorkerID) :=
  match hs with
  | [] => Done acc
  | h :: hs' => match init_status h acc with Done acc' => init_statuses hs' acc' | r => r end
  end.

Definition getInitStatus : Go DMS (list TaskStatus * list DMWorkerStatus * gmap string WorkerID) :=
  s ← get;
  let workerHandles := GetWorkers (dm_env s) in
  ks ← range order workerHandles;
  lift (init_statuses (omap (λ k, workerHandles !! k) ks) ([], [], ∅)).

(** [NewMetaData], [NewMessageAgent], [NewTaskManager] and [NewWorkerManager]. *)
Definition new_components (ts : list TaskStatus) (ws : list DMWorkerStatus) (hs : gmap string WorkerID) (now1 now2 : Time) (s : DMS) : DMS :=
  mkDM (dm_db s) (NewTomlStore (to_heap (dm_store s))) (dm_chk s) (dm_env s) (dm_reads s)
    (NewDefaultTicker now2 WorkerNormalInterval WorkerErrorInterval) (foldl (λ m w, <[dw_TaskID w := w]> m) ∅ ws)
    (NewDefaultTicker now1 taskNormalInterval taskErrorInterval) (foldl (λ m t, <[GetTask t := t]> m) ∅ ts)
    hs.

Definition createComponents : Go JM unit := λ j,
  match getInitStatus (jm_dm j) with
  | (Fail err, s) => (Fail err, mkJobMaster s (jm_created j) (jm_closed j))
  | (Panic, s) => (Panic, mkJobMaster s (jm_created j) (jm_closed j))
  | (Done (ts, ws, hs), s) =>
      match (now1 ← Now clk; now2 ← Now clk; modify (new_components ts ws hs now1 now2)) s with
      | (_, s') => (Done tt, mkJobMaster s' true (jm_closed j))
      end
  end.

(** A configuration that cannot be converted panics. *)
Definition sub_task_cfgs (taskCfgs : gmap string TaskCfg) (ks : list string) : option (list SubTaskConfig) :=
  mapM (λ k, c ← taskCfgs !! k; match ToDMSubTaskCfg c with Done sub => Some sub | _ => None end) ks.

Definition preCheck : Go DMS unit :=
  match ToTaskConfigs jobCfg with
  | Done taskCfgs =>
      ks ← range order taskCfgs;
      match sub_task_cfgs taskCfgs ks with
      | None => panic
      | Some cfgs => match CheckSyncConfig cfgs with Some err => throw (ErrForeign err) | None => mret tt end
      end
  | _ => panic
  end.

Definition JM_InitImpl : Go JM unit :=
  _ ← createComponents;
  _ ← on_dm preCheck;
  _ ← on_dm (on_chk (Checkpoint_Init jobCfg));
  on_dm (OperateTask id clk Create jobCfg []).

Definition JM_Tick : Go JM unit := _ ← on_dm (Workers_Tick id clk order); on_dm (Tasks_Tick id clk order).

Definition JM_OnMasterRecovered : Go JM unit := createComponents.

Definition set_next_check : Go DMS unit := now ← Now clk; upd_wticker (SetNextCheckTime now).

Definition JM_OnWorkerDispatched (worker : DMHandle) (result : option goerr) : Go JM unit :=
  match result with
  | None => mret tt
  | Some _ => on_dm (_ ← removeWorkerStatusByWorkerID order (wh_ID worker); set_next_check)
  end.

Definition JM_OnWorkerOnline (worker : DMHandle) : Go JM unit :=
  on_dm (taskStatus ← lift (UnmarshalTaskStatus (wh_ExtBytes worker));
         _ ← UpdateTaskStatus taskStatus;
         _ ← UpdateWorkerStatus (NewWorkerStatus (GetTask taskStatus) (GetUnit taskStatus) (wh_ID worker) WorkerOnline);
         UpdateWorkerHandle (GetTask taskStatus) (wh_Unwrap worker)).

Definition onWorkerFinished (taskStatus : TaskStatus) (worker : DMHandle) : Go DMS unit :=
  _ ← UpdateTaskStatus taskStatus;
  _ ← UpdateWorkerStatus (NewWorkerStatus (GetTask taskStatus) (GetUnit taskStatus) (wh_ID worker) WorkerFinished);
  _ ← UpdateWorkerHandle (GetTask taskStatus) None;
  set_next_check.

Definition JM_OnWorkerOffline (worker : DMHandle) : Go JM unit :=
  on_dm (taskStatus ← lift (UnmarshalTaskStatus (wh_ExtBytes worker));
         if bool_decide (GetStage taskStatus = StageFinished) then onWorkerFinished taskStatus worker
         else _ ← UpdateTaskStatus (NewOfflineStatus (GetTask taskStatus));
              _ ← UpdateWorkerStatus (NewWorkerStatus (GetTask taskStatus) (GetUnit taskStatus) (wh_ID worker) WorkerOffline);
              _ ← UpdateWorkerHandle (GetTask taskStatus) None;
              set_next_check).

(** ** [CloseImpl]

    A round of the loop after a second has passed: [true] when the loop is left. An
    error of the removal of the checkpoint is logged. *)
Definition close_round : Go DMS bool :=
  _ ← set_next_check;
  _ ← Workers_Tick id clk order;
  s ← get;
  if bool_decide (dm_workers s = ∅) then _ ← catch (on_chk (Checkpoint_Remove jobCfg)); mret true else mret false.

(** [ctx_done n] tells whether the context is done at round [n]; [None] when the fuel
    is used up. *)
Fixpoint close_loop (ctx_done : nat → bool) (fuel n : nat) (s : DMS) : option (res goerr unit * DMS) :=
  match fuel with
  | 0 => None
  | S fuel =>
      if ctx_done n then Some (Fail (ErrForeign "context canceled"), s)
      else match close_round s with
           | (Done true, s') => Some (Done tt, s')
           | (Done false, s') => close_loop ctx_done fuel (S n) s'
           | (Fail err, s') => Some (Fail err, s')
           | (Panic, s') => Some (Panic, s')
           end
  end.

Definition JM_CloseImpl (ctx_done : nat → bool) (fuel : nat) (j : JM) : option (res goerr unit * JM) :=
  match on_dm (OperateTask id clk Delete jobCfg []) j with
  | (Done _, j1) =>
      match close_loop ctx_done fuel 0 (jm_dm j1) with
      | None => None
      | Some (Done _, s) =>
          (** [close(jm.closeCh)]; a second close panics. *)
          Some (if jm_closed j1 then Panic else Done tt, mkJobMaster s (jm_created j1) true)
      | Some (r, s) => Some (r, mkJobMaster s (jm_created j1) (jm_closed j1))
      end
  | (r, j1) => Some (r, j1)
  end.

End job_master.

(** ** Events *)

Inductive jm_event : Type :=
| EvTick
| EvOnline (worker : DMHandle)
| EvOffline (worker : DMHandle)
| EvDispatched (worker : DMHandle) (result : option goerr).

Section events.
Context `{!dmconfig, !DMCodec} {DB C M : Type} {kv : KV DB} `{!Toml Job, !CheckpointDB C, !DMEnv M, !TaskJSON}.
Context (id : MasterID) (clk : nat → Time) (order : ∀ V : Type, nat → gmap string V → list string).

Definition run_event (ev : jm_event) : Go (JobMaster DB C M) unit :=
  match ev with
  | EvTick => JM_Tick id clk order
  | EvOnline h => JM_OnWorkerOnline h
  | EvOffline h => JM_OnWorkerOffline clk h
  | EvDispatched h result => JM_OnWorkerDispatched clk order h result
  end.

(** The state after a sequence of events, whatever their outcome. *)
Definition run_events (evs : list jm_event) (j : JobMaster DB C M) : JobMaster DB C M :=
  foldl (λ j ev, (run_event ev j).2) j evs.

(** Online workers have their handle. *)
Definition reachable (s : DM DB C M) : Prop :=
  ∀ taskID w, dm_workers s !! taskID = Some w → dw_Stage w = WorkerOnline → dm_handles s !! taskID = Some (dw_ID w).

(** ** Lemmas *)

Lemma only_creates_reachable (s s' : DM DB C M) :
  reachable s → only_creates (dm_workers s) (dm_handles s) s' → reachable s'.
Proof. intros Hr [Hh Hw] k w Hk Hs. rewrite Hh. destruct (Hw _ _ Hk) as [?|Hc]; [by apply Hr|congruence]. Qed.

Lemma keeps_only_reachable {A} (m : Go (DM DB C M) A) :
  (∀ ws hs, keeps (only_creates ws hs) m) → keeps reachable m.
Proof. intros Hm s Hs. apply (only_creates_reachable s); [done|]. apply Hm. split; [done|]. by left. Qed.

Lemma keeps_on_dm {A} (I : DM DB C M → Prop) (m : Go (DM DB C M) A) :
  keeps I m → keeps (λ j, I (jm_dm j)) (on_dm m).
Proof.
  intros Hm j Hj. unfold on_dm. destruct (jm_created j); [|done]. specialize (Hm _ Hj). by destruct (m (jm_dm j)).
Qed.

Lemma keeps_set_next_check : keeps reachable (set_next_check clk).
Proof. by intros s. Qed.

(** A worker that changes stage while its handle is set or cleared. *)
Lemma reachable_update (s : DM DB C M) st (w : DMWorkerStatus) (h : option WorkerID) :
  reachable s → (dw_Stage w = WorkerOnline → h = Some (dw_ID w)) →
  reachable ((_ ← UpdateTaskStatus st; _ ← UpdateWorkerStatus w; UpdateWorkerHandle (dw_TaskID w) h) s).2 ∧
  reachable ((_ ← UpdateTaskStatus st; _ ← UpdateWorkerStatus w; _ ← UpdateWorkerHandle (dw_TaskID w) h; set_next_check clk) s).2.
Proof.
  intros Hr Hw. split; intros k w' Hk Hs; simpl in *.
  all: apply lookup_insert_Some in Hk as [[<- <-]|[Hne Hk]]; [rewrite (Hw Hs); by rewrite lookup_insert_eq|].
  all: destruct h; [rewrite lookup_insert_ne by done|rewrite lookup_delete_ne by done]; by apply Hr.
Qed.

Definition good_event (ev : jm_event) : Prop := match ev with EvOnline h => wh_Tombstone h = false | _ => True end.

Lemma run_event_reachable ev j : good_event ev → reachable (jm_dm j) → reachable (jm_dm (run_event ev j).2).
Proof.
  intros Hg. revert j. change (keeps (λ j : JobMaster DB C M, reachable (jm_dm j)) (run_event ev)).
  destruct ev as [|h|h|h [e|]]; simpl.
  - unfold JM_Tick. apply keeps_bind; [|intros _]; apply keeps_on_dm, keeps_only_reachable; intros; [apply keeps_Workers_Tick|apply keeps_Tasks_Tick].
  - apply keeps_on_dm. intros s Hs. unfold lift, mbind at 1, GoM_bind at 1. destruct (UnmarshalTaskStatus _) as [st|e|]; [|done|done].
    apply (reachable_update s st (NewWorkerStatus (GetTask st) (GetUnit st) (wh_ID h) WorkerOnline) (wh_Unwrap h)); [done|].
    intros _. unfold wh_Unwrap. simpl in Hg. by rewrite Hg.
  - apply keeps_on_dm. intros s Hs. unfold lift, mbind at 1, GoM_bind at 1. destruct (UnmarshalTaskStatus _) as [st|e|]; [|done|done].
    case_bool_decide.
    + by apply (reachable_update s st (NewWorkerStatus (GetTask st) (GetUnit st) (wh_ID h) WorkerFinished) None Hs).
    + by apply (reachable_update s (NewOfflineStatus (GetTask st)) (NewWorkerStatus (GetTask st) (GetUnit st) (wh_ID h) WorkerOffline) None Hs).
  - apply keeps_on_dm, keeps_bind; [|intros _; apply keeps_set_next_check]. apply keeps_only_reachable. intros ws hs.
    unfold removeWorkerStatusByWorkerID. pose proof (keeps_delete (DB := DB) (C := C) (M := M) ws hs). pose proof (@keeps_range _ DB C M order ws hs). keeps_tac.
  - apply keeps_ret.
Qed.

End events.

(** ** Components after a recovery *)

Section recovery.
Context `{!dmconfig, !DMCodec} {DB C M : Type} {kv : KV DB} `{!Toml Job, !CheckpointDB C, !DMEnv M, !TaskJSON}.
Context (id : MasterID) (clk : nat → Time) (order : ∀ V : Type, nat → gmap string V → list string).
Context (GetWorkers : M → gmap WorkerID DMHandle).

Definition status_map (ts : list TaskStatus) : gmap string TaskStatus := foldl (λ m t, <[GetTask t := t]> m) ∅ ts.
Definition worker_map (ws : list DMWorkerStatus) : gmap string DMWorkerStatus := foldl (λ m w, <[dw_TaskID w := w]> m) ∅ ws.

(** The three maps describe the same running workers of a list of handles. *)
Definition agree (hs : list DMHandle) (ts : gmap string TaskStatus) (ws : gmap string DMWorkerStatus) (sends : gmap string WorkerID) : Prop :=
  (∀ taskID, match ws !! taskID with
             | Some w => ∃ h st, h ∈ hs ∧ wh_Tombstone h = false ∧ UnmarshalTaskStatus (wh_ExtBytes h) = Done st ∧ GetTask st = taskID ∧
                 ts !! taskID = Some st ∧ w = NewWorkerStatus taskID (GetUnit st) (wh_ID h) WorkerOnline ∧ sends !! taskID = Some (wh_ID h)
             | None => ts !! taskID = None ∧ sends !! taskID = None
             end) ∧
  (∀ h, h ∈ hs → wh_Tombstone h = false → ∃ st, UnmarshalTaskStatus (wh_ExtBytes h) = Done st ∧ is_Some (ws !! GetTask st)).

Lemma init_status_agree hs h ts ws sends acc' :
  agree hs (status_map ts) (worker_map ws) sends → init_status h (ts, ws, sends) = Done acc' →
  let '(ts', ws', sends') := acc' in agree (hs ++ [h]) (status_map ts') (worker_map ws') sends'.
Proof.
  intros [Ha Hb] Hi. unfold init_status in Hi. destruct (wh_Tombstone h) eqn:Ht.
  - injection Hi as <-. split.
    + intros taskID. specialize (Ha taskID). destruct (worker_map ws !! taskID); [|done]. destruct Ha as (h' & st & ? & ?). exists h', st. set_solver.
    + intros h' [?| ->%list_elem_of_singleton]%elem_of_app; [by apply Hb|congruence].
  - destruct (UnmarshalTaskStatus (wh_ExtBytes h)) as [st|e|] eqn:Hst; [|done|done]. injection Hi as <-.
    unfold status_map, worker_map in *. rewrite !foldl_app. simpl. split.
    + intros taskID. destruct (decide (GetTask st = taskID)) as [<-|Hne].
      * rewrite !lookup_insert_eq. exists h, st. split_and!; [set_solver|done..].
      * rewrite !lookup_insert_ne by done. specialize (Ha taskID). destruct (foldl _ ∅ ws !! taskID); [|done].
        destruct Ha as (h' & st' & ? & ?). exists h', st'. set_solver.
    + intros h' [Hin| ->%list_elem_of_singleton]%elem_of_app Ht'.
      * destruct (Hb h' Hin Ht') as (st' & Hst' & Hs). exists st'. split; [done|]. apply lookup_insert_is_Some'. by right.
      * exists st. split; [done|]. by rewrite lookup_insert_eq.
Qed.

Lemma init_statuses_agree hs hs0 ts ws sends ts' ws' sends' :
  agree hs0 (status_map ts) (worker_map ws) sends → init_statuses hs (ts, ws, sends) = Done (ts', ws', sends') →
  agree (hs0 ++ hs) (status_map ts') (worker_map ws') sends'.
Proof.
  revert hs0 ts ws sends. induction hs as [|h hs IH]; intros hs0 ts ws sends Ha Hi.
  - injection Hi as <- <- <-. by rewrite app_nil_r.
  - cbn [init_statuses] in Hi. destruct (init_status h (ts, ws, sends)) as [[[ts1 ws1] s1]|e|] eqn:Hh; [|done|done].
    pose proof (init_status_agree hs0 h ts ws sends _ Ha Hh) as Hn. simpl in Hn. rewrite cons_middle, app_assoc. by apply (IH _ ts1 ws1 s1).
Qed.

Lemma createComponents_agree (j j' : JobMaster DB C M) :
  createComponents clk order GetWorkers j = (Done tt, j') →
  jm_created j' = true ∧ dm_db (jm_dm j') = dm_db (jm_dm j) ∧ dm_store (jm_dm j') = NewTomlStore (to_heap (dm_store (jm_dm j))) ∧
  ∃ ks, ks = order _ (dm_reads (jm_dm j)) (GetWorkers (dm_env (jm_dm j))) ∧
    agree (omap (λ k, GetWorkers (dm_env (jm_dm j)) !! k) ks) (dm_tasks (jm_dm j')) (dm_workers (jm_dm j')) (dm_handles (jm_dm j')).
Proof.
  unfold createComponents, getInitStatus, mbind, GoM_bind, get, range, lift.
  destruct (init_statuses _ _) as [[[ts ws] hs]|e|] eqn:Hi; [|done|done]. simpl. intros [= <-]. simpl. split_and!; [done..|].
  eexists. split; [done|]. apply (init_statuses_agree _ [] [] [] ∅) in Hi; [exact Hi|]. by split; [intros|set_solver].
Qed.

End recovery.

(** ** Closing *)

(** Code that completes and keeps an invariant. *)
Definition completes {S} (I : S → Prop) (m : Go S unit) : Prop := ∀ s, I s → ∃ s', m s = (Done tt, s') ∧ I s'.

Lemma completes_forM {S A} (I : S → Prop) (f : A → Go S unit) l : (∀ x, completes I (f x)) → completes I (forM_ f l).
Proof.
  intros Hf. induction l as [|x l IH]; intros s Hs; [by exists s|]. destruct (Hf x s Hs) as (s1 & H1 & Hs1).
  destruct (IH s1 Hs1) as (s2 & H2 & Hs2). exists s2. split; [|done]. simpl. by rewrite (bind_Done _ _ _ _ _ H1).
Qed.

Lemma completes_record {S A} (I : S → Prop) (f : A → Go S unit) l acc s :
  (∀ x, completes I (f x)) → I s → ∃ s', forM_ f l s = (Done tt, s') ∧ record_each f l acc s = (Done acc, s') ∧ I s'.
Proof.
  intros Hf. revert s. induction l as [|x l IH]; intros s Hs; [by exists s|]. destruct (Hf x s Hs) as (s1 & H1 & Hs1).
  destruct (IH s1 Hs1) as (s2 & H2 & H3 & Hs2). exists s2. simpl. rewrite (bind_Done _ _ _ _ _ H1). split_and!; [done| |done].
  unfold mbind, GoM_bind, catch. by rewrite H1.
Qed.

(** Code that keeps an invariant and does not panic. *)
Definition safe {S A} (I : S → Prop) (m : Go S A) : Prop := triple I m (λ r s, r ≠ Panic ∧ I s).

Lemma safe_bind {S A B} (I : S → Prop) (m : Go S A) (f : A → Go S B) : safe I m → (∀ a, safe I (f a)) → safe I (m ≫= f).
Proof.
  intros Hm Hf s Hs. specialize (Hm s Hs). unfold mbind, GoM_bind. destruct (m s) as [[a|e|] s1]; destruct Hm as [? Hm]; [by apply Hf|by split|done].
Qed.

Lemma safe_catch {S} (I : S → Prop) (m : Go S unit) : safe I m → safe I (catch m).
Proof. intros Hm s Hs. specialize (Hm s Hs). unfold catch. by destruct (m s) as [[a|e|] s1]; destruct Hm. Qed.

Lemma safe_record {S A} (I : S → Prop) (f : A → Go S unit) l acc : (∀ x, safe I (f x)) → safe I (record_each f l acc).
Proof.
  intros Hf. revert acc. induction l as [|x l IH]; intros acc; [by intros s|]. simpl. apply safe_bind; [by apply safe_catch|]. intros err. apply IH.
Qed.

Lemma safe_forM {S A} (I : S → Prop) (f : A → Go S unit) l : (∀ x, safe I (f x)) → safe I (forM_ f l).
Proof. intros Hf. induction l as [|x l IH]; [by intros s|]. simpl. by apply safe_bind. Qed.

Section closing.
Context `{!dmconfig, !DMCodec} {DB C M : Type} {kv : KV DB} `{!Toml Job, !CheckpointDB C, !DMEnv M, !TaskJSON}.
Context (view : DB → string → option string) `{!KVLaws kv view}.
Context (id : MasterID) (clk : nat → Time) (order : ∀ V : Type, nat → gmap string V → list string) (jobCfg : JobCfg).
Context (Hkey : Encode DMJobKeyAdapter [id] ≠ "").
Implicit Types s : DM DB C M.

(** The job is neither in memory nor persisted. *)
Definition no_job s : Prop := to_state (dm_store s) = None ∧ view (dm_db s) (Encode DMJobKeyAdapter [id]) = None.

Lemma get_job_none s : no_job s →
  ∃ e s1, get_job id s = (Fail e, s1) ∧ no_job s1 ∧ dm_workers s1 = dm_workers s ∧ dm_handles s1 = dm_handles s ∧ dm_reads s1 = dm_reads s ∧ dm_env s1 = dm_env s.
Proof.
  intros [Hs Hv]. unfold get_job, mbind, GoM_bind, with_store, Store_Get. rewrite Hs.
  pose proof (kvc_Get_law (Encode DMJobKeyAdapter [id]) (dm_db s) Hkey) as Hg. cbn [Store_Key JobStore].
  destruct (kvc_Get _ [] (dm_db s)) as [[kvs|e|] db']; [|eexists _, _; split; [done|]; split_and!; try done; split; [done|]; simpl; by rewrite Hg|done].
  rewrite Hv in Hg. destruct Hg as [-> Hg]. eexists _, _. split; [done|]. split_and!; try done. split; [done|]. simpl. by rewrite Hg.
Qed.

(** A worker that finished, whose handle is gone, when the job is gone. *)
Definition stuck (k : string) s : Prop :=
  no_job s ∧ dm_handles s !! k = None ∧ ∃ w, dm_workers s !! k = Some w ∧ dw_Stage w = WorkerFinished.

Lemma stuck_frame k s s' :
  stuck k s → dm_db s' = dm_db s → dm_store s' = dm_store s → dm_handles s' = dm_handles s → dm_workers s' !! k = dm_workers s !! k → stuck k s'.
Proof. unfold stuck, no_job. intros Hs -> -> -> ->. exact Hs. Qed.

Lemma safe_removeOffline k k' : safe (stuck k) (removeOffline clk k').
Proof.
  intros s Hs. pose proof Hs as (_ & _ & w & Hw & Hf). unfold removeOffline, mbind, GoM_bind, get.
  destruct (dm_workers s !! k') as [w'|] eqn:Hw'; [|done].
  assert (IsOffline w' || bool_decide (dw_Stage w' = WorkerCreating) = true → k ≠ k') as Hne.
  { intros Hb ->. assert (w = w') as -> by congruence. unfold IsOffline in Hb. by rewrite Hf in Hb. }
  destruct (IsOffline w'); simpl in Hne.
  - split; [done|]. apply (stuck_frame k s); try done. simpl. by rewrite lookup_delete_ne by (intros ->; by apply Hne).
  - case_bool_decide; [|done]. unfold Now. destruct (CreateFailed _ w'); split; try done; apply (stuck_frame k s); try done.
    simpl. by rewrite lookup_delete_ne by (intros ->; by apply Hne).
Qed.

Lemma safe_stop_key k k' : safe (stuck k) (stop_key id clk k').
Proof.
  intros s Hs. pose proof Hs as (_ & Hh & w & Hw & Hf). unfold stop_key, stopWorker, Agent_StopWorker, mbind, GoM_bind, get.
  destruct (dm_workers s !! k') as [w'|] eqn:Hw'; [|done]. destruct (dm_handles s !! k') as [h|] eqn:Hh'; [|done].
  assert (k ≠ k') by congruence. case_bool_decide; [done|]. unfold Now, on_env. simpl.
  destruct (env_SendMessage _ _ _ _ _) as [[e|] m']; simpl; (split; [done|]); apply (stuck_frame k s); try done. simpl. by rewrite lookup_delete_ne.
Qed.

Lemma safe_Workers_TickImpl k : safe (stuck k) (Workers_TickImpl id clk order).
Proof.
  unfold Workers_TickImpl. apply safe_bind.
  { unfold removeOfflineWorkers. apply safe_bind; [by intros s|intros s0]. apply safe_bind; [by intros s|intros ks]. apply safe_forM. intros k'. apply safe_removeOffline. }
  intros _ s Hs. unfold with_job. destruct Hs as (Hj & Hh & Hw). destruct (get_job_none s Hj) as (e & s1 & -> & Hj1 & Ew & Eh & _).
  assert (safe (stuck k) (_ ← Workers_onJobNotExist id clk order; throw e : Go (DM DB C M) unit)) as Hsafe.
  { apply safe_bind; [|by intros _ s2]. unfold Workers_onJobNotExist. apply safe_bind; [by intros s2|intros s2]. apply safe_bind; [by intros s3|intros ks].
    apply safe_bind; [apply safe_record; intros k'; apply safe_stop_key|]. by intros [|] s3. }
  apply Hsafe. split; [done|]. by rewrite Ew, Eh.
Qed.

(** A tick never fails. *)
Lemma Tick_stuck k s : stuck k s → ∃ s', Workers_Tick id clk order s = (Done tt, s') ∧ stuck k s'.
Proof.
  intros Hs. unfold Workers_Tick, Tick, Tick_due, mbind, GoM_bind, get. cbn [Now].
  destruct (Before _ _); [eexists; split; [done|]; by apply (stuck_frame k s)|]. unfold upd_wticker, modify. cbn beta iota.
  set (s2 := mkDM _ _ _ _ _ _ _ _ _ _). destruct (safe_Workers_TickImpl k s2) as [Hp Hi]; [by apply (stuck_frame k s)|].
  unfold catch. destruct (Workers_TickImpl id clk order s2) as [[[]|e|] s3]; simpl in *; [| |done];
    (eexists; split; [done|]; by apply (stuck_frame k s3)).
Qed.

Lemma close_round_stuck k s : stuck k s → ∃ s', close_round id clk order jobCfg s = (Done false, s') ∧ stuck k s'.
Proof.
  intros Hs. unfold close_round, set_next_check, mbind, GoM_bind, get. cbn [Now]. unfold upd_wticker at 1, modify at 1. cbn beta iota.
  set (s2 := mkDM _ _ _ _ _ _ _ _ _ _). destruct (Tick_stuck k s2) as (s3 & -> & Hs3); [by apply (stuck_frame k s)|].
  rewrite bool_decide_eq_false_2; [by exists s3|]. intros He. destruct Hs3 as (_ & _ & w & Hw & _). by rewrite He, lookup_empty in Hw.
Qed.

Lemma close_loop_stuck k fuel n s : stuck k s → close_loop id clk order jobCfg (λ _, false) fuel n s = None.
Proof.
  revert n s. induction fuel as [|fuel IH]; intros n s Hs; [done|]. simpl. destruct (close_round_stuck k s Hs) as (s' & -> & Hs'). by apply IH.
Qed.

(** Workers that are offline or have their handle. *)
Definition stoppable s : Prop :=
  no_job s ∧ ∀ k w, dm_workers s !! k = Some w → dm_handles s !! k = Some (dw_ID w) ∨ IsOffline w = true.

Context (order_ok : ∀ V n (m : gmap string V), iter_order m (order V n m)).
Context (sends : ∀ h topic msg nb (m : M), (env_SendMessage h topic msg nb m).1 = None).

Lemma removeOfflineWorkers_completes s : ∃ s', removeOfflineWorkers clk order s = (Done tt, s').
Proof.
  unfold removeOfflineWorkers, mbind, GoM_bind, get, range.
  destruct (completes_forM (λ _ : DM DB C M, True) (removeOffline clk) (order DMWorkerStatus (dm_reads s) (dm_workers s))) with s as (s' & ? & _);
    [|done|by exists s'].
  intros k s1 _. unfold removeOffline, mbind, GoM_bind, get. destruct (dm_workers s1 !! k) as [w|]; [|by eexists].
  destruct (IsOffline w); [by eexists|]. case_bool_decide; [|by eexists]. unfold Now. destruct (CreateFailed _ w); by eexists.
Qed.

Lemma stop_key_completes k :
  completes (λ s, ∀ k w, dm_workers s !! k = Some w → dm_handles s !! k = Some (dw_ID w)) (stop_key id clk k).
Proof.
  intros s Hs. unfold stop_key, stopWorker, Agent_StopWorker, mbind, GoM_bind, get. destruct (dm_workers s !! k) as [w|] eqn:Hw; [|by exists s].
  rewrite (Hs k w Hw). rewrite bool_decide_eq_false_2 by naive_solver. unfold Now, on_env. cbn beta iota. cbn [dm_env].
  pose proof (sends (dw_ID w) (WorkerStatusChangeRequestTopic id (dw_ID w))
    (MsgStatusChange (mkStatusChangeRequest (clk (dm_reads s)) id (env_CurrentEpoch (dm_env s)) WorkerStatusStopped)) true (dm_env s)) as He.
  destruct (env_SendMessage _ _ _ _ _) as [r m']. simpl in He. subst r. eexists. split; [done|]. simpl.
  intros k' w' [_ ?]%lookup_delete_Some. by apply Hs.
Qed.

Lemma stoppable_TickImpl s :
  stoppable s → ∃ e s', Workers_TickImpl id clk order s = (Fail e, s') ∧ dm_workers s' = ∅.
Proof.
  intros [Hj Hw]. unfold Workers_TickImpl. destruct (removeOfflineWorkers_completes s) as [s1 Hr1].
  rewrite (bind_Done _ _ _ _ _ Hr1). destruct (removeOfflineWorkers_frame _ _ _ _ Hr1) as (Edb & Est & Eh).
  pose proof (removeOfflineWorkers_Done clk order order_ok _ _ Hr1) as Hoff.
  unfold with_job. destruct (get_job_none s1) as (e & s2 & -> & _ & Ew & Eh2 & _); [unfold no_job; by rewrite Edb, Est|].
  assert (∀ k w, dm_workers s2 !! k = Some w → dm_handles s2 !! k = Some (dw_ID w)) as Hreach.
  { intros k w. rewrite Ew, Eh2, Eh. intros [Hk Ho]%Hoff. destruct (Hw k w Hk); congruence. }
  unfold Workers_onJobNotExist, mbind, GoM_bind, get, range.
  destruct (completes_record _ (stop_key id clk) (order DMWorkerStatus (dm_reads s2) (dm_workers s2)) None s2 stop_key_completes Hreach) as (s3 & Hr3 & Hr4 & _).
  rewrite Hr4. eexists _, s3. split; [done|]. pose proof (order_ok _ (dm_reads s2) (dm_workers s2)) as Ho.
  edestruct (forM_pointwise (E := goerr) (S := DM DB C M) dm_workers (λ _, True) (λ _ _ o', o' = None)) as (_ & Hin & Hout);
    [by eapply iter_order_NoDup|done| |exact Hr3|].
  { intros k s4 s5 _ _ Hr5%stop_key_Done. rewrite Hr5. split_and!; [done|intros; by rewrite lookup_delete_ne|by rewrite lookup_delete_eq]. }
  apply map_eq. intros k. rewrite lookup_empty. destruct (decide (k ∈ order DMWorkerStatus (dm_reads s2) (dm_workers s2))) as [Hk|Hk]; [by apply Hin|].
  rewrite Hout by done. apply eq_None_not_Some. by rewrite <- (iter_order_elem _ _ _ Ho).
Qed.

Lemma close_round_stoppable s :
  stoppable s → (tk_last (dm_wticker s) ≤ tk_next (dm_wticker s))%Z → (tk_last (dm_wticker s) < clk (dm_reads s))%Z →
  (clk (dm_reads s) ≤ clk (S (dm_reads s)))%Z →
  (∀ c : C, (Checkpoint_Remove jobCfg c).1 ≠ Panic) →
  ∃ s', close_round id clk order jobCfg s = (Done true, s') ∧ dm_workers s' = ∅.
Proof.
  intros Hs Hlt Hl Hmono Hchk. unfold close_round, set_next_check, mbind, GoM_bind, get. cbn [Now]. unfold upd_wticker at 1, modify at 1. cbn beta iota.
  destruct (SetNextCheckTime_early (clk (dm_reads s)) (dm_wticker s) Hlt Hl) as [_ Hn].
  set (s1 := mkDM _ _ _ _ _ _ _ _ _ _). unfold Workers_Tick, Tick, mbind at 1 2, GoM_bind at 1 2, get. unfold Now at 1. cbn beta iota.
  assert (Before (clk (dm_reads s1)) (tk_next (dm_wticker s1)) = false) as Hb.
  { unfold Before. apply bool_decide_eq_false. simpl. lia. }
  cbn [dm_wticker] in *. rewrite Hb. unfold Tick_due, mbind, GoM_bind. unfold Now at 1, upd_wticker at 1, modify at 1. cbn beta iota.
  set (s2 := mkDM _ _ _ _ _ _ _ _ _ _). destruct (stoppable_TickImpl s2 Hs) as (e & s3 & He & Hw). unfold catch. rewrite He.
  unfold Now, upd_wticker, modify. cbn beta iota. cbn [dm_workers]. rewrite bool_decide_eq_true_2 by done. unfold on_chk.
  match goal with |- context [Checkpoint_Remove jobCfg ?c] => specialize (Hchk c); destruct (Checkpoint_Remove jobCfg c) as [[[]|e'|] c'] end;
    [by eexists..|done].
Qed.

End closing.

Section delete.
Context `{!dmconfig} {DB : Type} {kv : KV DB} `{!Toml Job} (view : DB → string → option string) `{!KVLaws kv view} (id : MasterID).
Context (Hkey : Encode DMJobKeyAdapter [id] ≠ "").

(** The job as it was read is deleted. *)
Lemma Store_Delete_warm (s s' : DB * TomlStore Job) :
  to_state s.2 ≠ None → Store_Delete (Store0 := JobStore id) s = (Done tt, s') →
  to_state s'.2 = None ∧ view s'.1 (Encode DMJobKeyAdapter [id]) = None.
Proof.
  destruct s as [db ds]. simpl. intros Hw. unfold Store_Delete. destruct (to_state ds) as [l|]; [|done]. unfold commit, deleteOp.
  pose proof (kvc_Delete_law (Encode DMJobKeyAdapter [id]) db Hkey) as Hd. cbn [Store_Key JobStore].
  destruct (kvc_Txn _ db) as [[a|e|] db']; [|done|done]. intros [= <-]. split; [done|]. simpl. by rewrite Hd, decide_True.
Qed.

End delete.

Section operate_delete.
Context `{!dmconfig, !DMCodec} {DB C M : Type} {kv : KV DB} `{!Toml Job, !CheckpointDB C, !DMEnv M, !TaskJSON}.
Context (id : MasterID) (clk : nat → Time) (jobCfg : JobCfg).

Lemma OperateTask_Delete_eq (j j' : JobMaster DB C M) :
  on_dm (OperateTask id clk Delete jobCfg []) j = (Done tt, j') →
  Store_Delete (Store0 := JobStore id) (dm_db (jm_dm j), dm_store (jm_dm j)) = (Done tt, (dm_db (jm_dm j'), dm_store (jm_dm j'))) ∧
  dm_workers (jm_dm j') = dm_workers (jm_dm j) ∧ dm_handles (jm_dm j') = dm_handles (jm_dm j) ∧
  dm_wticker (jm_dm j') = dm_wticker (jm_dm j) ∧ dm_reads (jm_dm j') = S (dm_reads (jm_dm j)) ∧ jm_closed j' = jm_closed j ∧
  dm_env (jm_dm j') = dm_env (jm_dm j).
Proof.
  unfold on_dm. destruct (jm_created j); [|done]. unfold OperateTask, mbind, GoM_bind, with_store.
  destruct (Store_Delete _) as [[[]|e|] [db st]]; [|done|done]. simpl. intros [= <-]. done.
Qed.

End operate_delete.

(** ** Theorems *)

(** A worker that is recorded as online can be reached: whatever ticks and worker
    events come after the creation of the components, its handle is the one of that
    very worker. *)
Theorem online_workers_reachable `{!dmconfig} {DB C M} {kv : KV DB} `{!Toml Job, !CheckpointDB C, !DMEnv M, !TaskJSON}
    id clk order GetWorkers (j j1 : JobMaster DB C M) evs taskID w :
  createComponents clk order GetWorkers j = (Done tt, j1) → Forall good_event evs →
  let s := jm_dm (run_events id clk order evs j1) in
  dm_workers s !! taskID = Some w → dw_Stage w = WorkerOnline → dm_handles s !! taskID = Some (dw_ID w).
Proof.
  intros Hc Hevs s. assert (reachable s) as Hr; [|by apply Hr]. apply createComponents_agree in Hc as (_ & _ & _ & ks & _ & [Ha _]).
  assert (reachable (jm_dm j1)) as Hr1.
  { intros k w' Hk _. specialize (Ha k). rewrite Hk in Ha. by destruct Ha as (h & st & _ & _ & _ & _ & _ & -> & ?). }
  unfold s, run_events. clear Ha s. revert j1 Hr1. induction Hevs as [|ev evs Hev _ IH]; intros j1 Hr1; [done|]. simpl.
  apply IH. by apply run_event_reachable.
Qed.

(** A recovered job master knows exactly the running workers: the worker, the status
    and the handle of a task are those of one worker that is not a tombstone, each
    such worker's task is known, and the job will be read again from the metastore. *)
Theorem recovered_components `{!dmconfig} {DB C M} {kv : KV DB} `{!Toml Job, !CheckpointDB C, !DMEnv M, !TaskJSON}
    clk order GetWorkers (j j1 : JobMaster DB C M) :
  (∀ V n (m : gmap string V), iter_order m (order V n m)) →
  JM_OnMasterRecovered clk order GetWorkers j = (Done tt, j1) →
  let running h := (∃ k, GetWorkers (dm_env (jm_dm j)) !! k = Some h) ∧ wh_Tombstone h = false in
  to_state (dm_store (jm_dm j1)) = None ∧
  (∀ taskID, match dm_workers (jm_dm j1) !! taskID with
             | Some w => ∃ h st, running h ∧ UnmarshalTaskStatus (wh_ExtBytes h) = Done st ∧ GetTask st = taskID ∧
                 dm_tasks (jm_dm j1) !! taskID = Some st ∧ w = NewWorkerStatus taskID (GetUnit st) (wh_ID h) WorkerOnline ∧
                 dm_handles (jm_dm j1) !! taskID = Some (wh_ID h)
             | None => dm_tasks (jm_dm j1) !! taskID = None ∧ dm_handles (jm_dm j1) !! taskID = None
             end) ∧
  (∀ h, running h → ∃ st, UnmarshalTaskStatus (wh_ExtBytes h) = Done st ∧ is_Some (dm_workers (jm_dm j1) !! GetTask st)).
Proof.
  intros Hord Hc running. apply createComponents_agree in Hc as (_ & _ & Hst & ks & -> & [Ha Hb]).
  assert (∀ h, h ∈ omap (λ k, GetWorkers (dm_env (jm_dm j)) !! k) (order DMHandle (dm_reads (jm_dm j)) (GetWorkers (dm_env (jm_dm j)))) ↔
    ∃ k, GetWorkers (dm_env (jm_dm j)) !! k = Some h) as Hin.
  { intros h. rewrite list_elem_of_omap. split; [naive_solver|]. intros [k Hk]. exists k. split; [|done].
    apply (iter_order_elem _ _ _ (Hord _ _ _)). by exists h. }
  split_and!; [by rewrite Hst| |].
  - intros taskID. specialize (Ha taskID). destruct (dm_workers (jm_dm j1) !! taskID); [|done]. destruct Ha as (h & st & Hh & ? & ?).
    exists h, st. split; [|done]. split; [by apply Hin|done].
  - intros h [Hh Ht]. apply Hb; [by apply Hin|done].
Qed.

(** Closing ends. When every worker is offline or has its handle, messages can be
    sent, and the job was read and is deleted, the first round of the loop stops all
    workers, and [CloseImpl] returns. *)
Theorem close_ends `{!dmconfig, !DMCodec} {DB C M} {kv : KV DB} `{!Toml Job, !CheckpointDB C, !DMEnv M, !TaskJSON}
    (view : DB → string → option string) `{!KVLaws kv view} id clk order jobCfg (j j1 : JobMaster DB C M) fuel ctx_done :
  Encode DMJobKeyAdapter [id] ≠ "" → (∀ V n (m : gmap string V), iter_order m (order V n m)) →
  (∀ h topic msg nb (m : M), (env_SendMessage h topic msg nb m).1 = None) → (∀ c : C, (Checkpoint_Remove jobCfg c).1 ≠ Panic) →
  (∀ n, clk n ≤ clk (S n))%Z → (tk_last (dm_wticker (jm_dm j)) ≤ tk_next (dm_wticker (jm_dm j)))%Z →
  (tk_last (dm_wticker (jm_dm j)) < clk (dm_reads (jm_dm j)))%Z →
  (∀ k w, dm_workers (jm_dm j) !! k = Some w → dm_handles (jm_dm j) !! k = Some (dw_ID w) ∨ IsOffline w = true) →
  to_state (dm_store (jm_dm j)) ≠ None → jm_closed j = false → ctx_done 0 = false →
  on_dm (OperateTask id clk Delete jobCfg []) j = (Done tt, j1) →
  ∃ j', JM_CloseImpl id clk order jobCfg ctx_done (S fuel) j = Some (Done tt, j') ∧ dm_workers (jm_dm j') = ∅.
Proof.
  intros Hkey Hord Hsend Hchk Hclk Hlt Hl Hw Hwarm Hcl Hctx Hop. pose proof Hop as Hop'.
  apply OperateTask_Delete_eq in Hop' as (Hd & Ew & Eh & Et & Er & Ecl & _).
  apply (Store_Delete_warm view id Hkey) in Hd; [|done]. simpl in Hd.
  destruct (close_round_stoppable view id clk order jobCfg Hkey Hord Hsend (jm_dm j1)) as (s' & Hround & Hempty).
  - split; [exact Hd|]. by rewrite Ew, Eh.
  - by rewrite Et.
  - rewrite Et, Er. pose proof (Hclk (dm_reads (jm_dm j))). lia.
  - apply Hclk.
  - done.
  - unfold JM_CloseImpl. rewrite Hop. simpl. rewrite Hctx, Hround, Ecl, Hcl. eexists. split; [done|]. done.
Qed.

(** Closing does not end once a worker has finished. Its handle is removed while it
    is still recorded, so it can neither be stopped nor forgotten: [CloseImpl] runs
    until its context is done. *)
Theorem close_waits_for_finished_worker `{!dmconfig, !DMCodec} {DB C M} {kv : KV DB} `{!Toml Job, !CheckpointDB C, !DMEnv M, !TaskJSON}
    (view : DB → string → option string) `{!KVLaws kv view} id clk order jobCfg (j j1 j2 : JobMaster DB C M) h st fuel :
  Encode DMJobKeyAdapter [id] ≠ "" → to_state (dm_store (jm_dm j)) ≠ None →
  UnmarshalTaskStatus (wh_ExtBytes h) = Done st → GetStage st = StageFinished →
  JM_OnWorkerOffline clk h j = (Done tt, j1) → on_dm (OperateTask id clk Delete jobCfg []) j1 = (Done tt, j2) →
  JM_CloseImpl id clk order jobCfg (λ _, false) fuel j1 = None.
Proof.
  intros Hkey Hwarm Hu Hst Hoff Hop. pose proof Hop as Hop'. apply OperateTask_Delete_eq in Hop' as (Hd & Ew & Eh & _).
  unfold JM_OnWorkerOffline, on_dm in Hoff. destruct (jm_created j); [|done]. unfold lift, mbind at 1, GoM_bind at 1 in Hoff.
  rewrite Hu, bool_decide_eq_true_2 in Hoff by done. unfold onWorkerFinished in Hoff. simpl in Hoff. injection Hoff as <-. cbn [jm_dm dm_db dm_store dm_workers dm_handles] in Hd, Ew, Eh.
  apply (Store_Delete_warm view id Hkey) in Hd; [|done]. simpl in Hd.
  unfold JM_CloseImpl. rewrite Hop. rewrite (close_loop_stuck view id clk order jobCfg Hkey (GetTask st)); [done|].
  split; [exact Hd|]. rewrite Eh, Ew. split; [apply lookup_delete_eq|]. rewrite lookup_insert_eq. by eexists.
Qed.

(** Closing right after a recovery keeps the job. The job was not read yet, so its
    deletion does nothing, and every tick without error of the closing loop has a
    worker for each of its tasks. *)
Theorem close_after_recovery_keeps_job `{!dmconfig, !DMCodec} {DB C M} {kv : KV DB} `{!Toml Job, !CheckpointDB C, !DMEnv M, !DMEnvLaws M, !TaskJSON}
    (view : DB → string → option string) `{!KVLaws kv view} id `{!@TomlLaws Job _ (JobStore id)} clk order GetWorkers jobCfg
    (j j1 j2 : JobMaster DB C M) (job : Job) b s3 :
  Encode DMJobKeyAdapter [id] ≠ "" → (∀ V n (m : gmap string V), iter_order m (order V n m)) →
  view (dm_db (jm_dm j)) (Encode DMJobKeyAdapter [id]) = Some b → toml_Encode job = inr b →
  JM_OnMasterRecovered clk order GetWorkers j = (Done tt, j1) → on_dm (OperateTask id clk Delete jobCfg []) j1 = (Done tt, j2) →
  dm_db (jm_dm j2) = dm_db (jm_dm j) ∧
  (Workers_TickImpl id clk order (jm_dm j2) = (Done tt, s3) → ∀ taskID, is_Some (job !! taskID) → is_Some (dm_workers s3 !! taskID)).
Proof.
  intros Hkey Hord Hv Hb Hc Hop. apply createComponents_agree in Hc as (_ & Edb & Est & ks & _ & [Ha _]).
  apply OperateTask_Delete_eq in Hop as (Hd & Ew & _). unfold Store_Delete in Hd. rewrite Est in Hd. simpl in Hd. injection Hd as Hdb Hst.
  split; [by rewrite <- Hdb|]. intros Ht. apply Workers_TickImpl_matches in Ht as (job' & Hget & _ & Hm); [|done|].
  2:{ rewrite Ew. intros k w Hk. specialize (Ha k). rewrite Hk in Ha. by destruct Ha as (h & st & _ & _ & _ & _ & _ & -> & _). }
  assert (job' = job) as ->.
  { rewrite <- Hdb, <- Hst, Edb in Hget. set (s0 := (dm_db (jm_dm j), NewTomlStore (to_heap (dm_store (jm_dm j))))) in *.
    assert (store_inv (Store0 := JobStore id) view s0) as Hinv.
    { split; [done|]. intros b'. simpl. rewrite Hv. intros [= <-]. by exists job. }
    pose proof (Store_Get_spec (Store0 := JobStore id) view Hkey s0 Hinv) as (_ & _ & _ & _ & Hg).
    unfold run_jop, mbind, GoM_bind in Hget. destruct (Store_Get s0) as [[[l|]|e|] s']; try done. simpl in Hget, Hg.
    destruct Hg as (_ & Hl & _). rewrite Hl in Hget. unfold current in Hget. simpl in Hget. rewrite Hv in Hget.
    assert (toml_Decode b ∅ = (job, None)) as Hdec by exact (toml_law (Store0 := JobStore id) _ _ Hb). rewrite Hdec in Hget. by simplify_eq. }
  intros taskID [t Hj]. specialize (Hm taskID). rewrite Hj in Hm. destruct Hm as (w & -> & _). by eexists.
Qed.

Module Witness.
Import DMConfig.Ref DMStore.Witness DMManagers.Witness.

(** A status whose text is its task; its stage is the given one. *)
Definition json (stage : Z) : TaskJSON := {|
  json_Marshal s := inr (GetTask s);
  json_unit b := inr WorkerDMDump;
  json_dump b := inr (mkDumpStatus (mkDefaultTaskStatus WorkerDMDump b stage) 0 0 0 0 0);
  json_load b := inl "unsupported";
  json_sync b := inl "unsupported";
|}.

Definition h1 : DMHandle := mkDMHandle "w1" false "s1".
Definition workers1 (m : nat) : gmap WorkerID DMHandle := {["w1" := h1]}.
Definition j0 : JobMaster RefEtcd (gset string) nat := mkJobMaster s0 false false.

Definition j1 : JobMaster RefEtcd (gset string) nat := (createComponents (H1 := json StageRunning) clk0 order0 workers1 j0).2.

Lemma online_workers_reachable_witness :
  dm_handles (jm_dm (run_events (H1 := json StageRunning) "j" clk0 order0 [EvOffline h1; EvOnline h1] j1)) !! "s1" = Some "w1".
Proof.
  apply (online_workers_reachable (H0 := json StageRunning) "j" clk0 order0 workers1 j0 j1 [EvOffline h1; EvOnline h1] "s1"
           (NewWorkerStatus "s1" WorkerDMDump "w1" WorkerOnline));
    [vm_compute; reflexivity|repeat constructor|vm_compute; reflexivity|reflexivity].
Defined.

Lemma recovered_components_witness :
  match dm_workers (jm_dm j1) !! "s1" with Some w => dm_handles (jm_dm j1) !! "s1" = Some (dw_ID w) | None => False end.
Proof.
  destruct (recovered_components (H0 := json StageRunning) clk0 order0 workers1 j0 j1) as (_ & Hw & Hr); [apply order0_ok|vm_compute; reflexivity|].
  destruct (Hr h1) as (st & Hst & Hs); [split; [by exists "w1"|done]|]. vm_compute in Hst. injection Hst as <-. change (is_Some (dm_workers (jm_dm j1) !! "s1")) in Hs.
  specialize (Hw "s1"). destruct (dm_workers (jm_dm j1) !! "s1") as [w|]; [|destruct Hs as [? [=]]].
  destruct Hw as (h & st & _ & _ & _ & _ & -> & Hh). exact Hh.
Defined.

(** A job that was read, with one worker. *)
Definition s2 : DM RefEtcd (gset string) nat :=
  mkDM db1 (mkTomlStore [job0] (Some 0)) tables0 0 5 ticker0 {["s1" := NewWorkerStatus "s1" WorkerDMDump "w1" WorkerOnline]} ticker0 ∅ {["s1" := "w1"]}.
Definition j2 : JobMaster RefEtcd (gset string) nat := mkJobMaster s2 true false.

Lemma close_ends_witness :
  ∃ j', JM_CloseImpl "j" clk0 order0 ref_job (λ _, false) 1 j2 = Some (Done tt, j') ∧ dm_workers (jm_dm j') = ∅.
Proof.
  apply (@close_ends _ _ _ _ _ _ _ _ _ (json StageRunning) ref_view (prefix_client_laws "t") "j" clk0 order0 ref_job j2
           (on_dm (OperateTask "j" clk0 Delete ref_job []) j2).2 0 (λ _, false)).
  - done.
  - apply order0_ok.
  - done.
  - done.
  - intros n. unfold clk0, Second. lia.
  - vm_compute. discriminate.
  - vm_compute. reflexivity.
  - intros k w Hk. cbn [jm_dm j2 s2 dm_workers] in Hk. apply lookup_singleton_Some in Hk as [<- <-]. left. reflexivity.
  - discriminate.
  - reflexivity.
  - reflexivity.
  - vm_compute. reflexivity.
Defined.

Lemma close_waits_for_finished_worker_witness :
  JM_CloseImpl "j" clk0 order0 ref_job (λ _, false) 100 (JM_OnWorkerOffline (H1 := json StageFinished) clk0 h1 j2).2 = None.
Proof.
  eapply (@close_waits_for_finished_worker _ _ _ _ _ _ _ _ _ (json StageFinished) ref_view (prefix_client_laws "t") "j" clk0 order0 ref_job j2
           (JM_OnWorkerOffline (H1 := json StageFinished) clk0 h1 j2).2 _ h1);
    [done|discriminate|reflexivity|reflexivity|vm_compute; reflexivity|vm_compute; reflexivity].
Defined.

Lemma close_after_recovery_keeps_job_witness :
  dm_db (jm_dm (on_dm (OperateTask "j" clk0 Delete ref_job []) j1).2) = db1.
Proof.
  destruct (@close_after_recovery_keeps_job _ _ _ _ _ _ _ _ _ _ (json StageRunning) ref_view (prefix_client_laws "t") "j" (ref_TomlLaws "j")
    clk0 order0 workers1 ref_job j0 j1 (on_dm (OperateTask "j" clk0 Delete ref_job []) j1).2 job0 "job0" s0) as [Hd _];
    [done|apply order0_ok|vm_compute; reflexivity|vm_compute; reflexivity|vm_compute; reflexivity|vm_compute; reflexivity|].
  exact Hd.
Defined.

End Witness.
