(* ===== verification/MessagePair.v ===== *)
(** * Requests and responses ([pkg/dm])

    A request allocates an id, registers a channel of capacity one under it, sends its
    message and waits for a response or for its context; [OnResponse] looks the channel
    up and puts the response into it without blocking. Both run in any number of
    goroutines; a step is an access to the map, to a channel or to the sender. *)

From S2P Require Import Prelude Errors Model.

(** ** State *)

Record MessageWithID (Msg : Type) := mkMessageWithID { msg_ID : Z; msg_Message : Msg }.
Arguments mkMessageWithID {Msg}.
Arguments msg_ID {Msg}.
Arguments msg_Message {Msg}.

(** [MessageIDAllocator.Alloc]: [uint64]. *)
Definition Alloc (id : Z) : Z := ((id + 1) mod 2 ^ 64)%Z.

(** A goroutine in [SendRequest]: about to send, waiting, or returned. *)
Inductive sendPC (Msg : Type) : Type :=
| Sending (ch : nat) (msg : MessageWithID Msg)
| Waiting (ch : nat) (msg : MessageWithID Msg)
| Returned (msg : MessageWithID Msg) (r : res goerr Msg).
Arguments Sending {Msg}.
Arguments Waiting {Msg}.
Arguments Returned {Msg}.

(** A goroutine in [OnResponse]: with the channel it found, or returned. *)
Inductive respPC (Msg : Type) : Type :=
| Found (ch : nat) (msg : MessageWithID Msg)
| Responded (msg : MessageWithID Msg) (r : res goerr unit).
Arguments Found {Msg}.
Arguments Responded {Msg}.

(** Channels live in a heap; [None] is an empty one. *)
Record MessagePair (Msg : Type) := mkPair {
  mp_id : Z;
  mp_pendings : gmap Z nat;
  mp_chans : list (option Msg);
  mp_senders : list (sendPC Msg);
  mp_responders : list (respPC Msg);
}.
Arguments mkPair {Msg}.
Arguments mp_id {Msg}.
Arguments mp_pendings {Msg}.
Arguments mp_chans {Msg}.
Arguments mp_senders {Msg}.
Arguments mp_responders {Msg}.

Definition NewMessagePair {Msg} : MessagePair Msg := mkPair 0 ∅ [] [] [].

Inductive label (Msg : Type) : Type :=
| LRequest (req : Msg)
| LSent (g : nat) (err : option goerr)
| LReceive (g : nat)
| LCancel (g : nat) (err : goerr)
| LLoad (msg : MessageWithID Msg)
| LPush (g : nat).
Arguments LRequest {Msg}.
Arguments LSent {Msg}.
Arguments LReceive {Msg}.
Arguments LCancel {Msg}.
Arguments LLoad {Msg}.
Arguments LPush {Msg}.

Section pair.
Context {Msg : Type}.

(** [SendRequest] returns and its deferred [Delete] runs. *)
Definition return_ (g : nat) (msg : MessageWithID Msg) (r : res goerr Msg) (p : MessagePair Msg) : MessagePair Msg :=
  mkPair (mp_id p) (delete (msg_ID msg) (mp_pendings p)) (mp_chans p) (<[g := Returned msg r]> (mp_senders p)) (mp_responders p).

Definition step (l : label Msg) (p : MessagePair Msg) : option (MessagePair Msg) :=
  match l with
  | LRequest req =>
      let id := Alloc (mp_id p) in
      let ch := length (mp_chans p) in
      Some (mkPair id (<[id := ch]> (mp_pendings p)) (mp_chans p ++ [None])
              (mp_senders p ++ [Sending ch (mkMessageWithID id req)]) (mp_responders p))
  | LSent g err =>
      match mp_senders p !! g with
      | Some (Sending ch msg) =>
          match err with
          | Some e => Some (return_ g msg (Fail e) p)
          | None => Some (mkPair (mp_id p) (mp_pendings p) (mp_chans p) (<[g := Waiting ch msg]> (mp_senders p)) (mp_responders p))
          end
      | _ => None
      end
  | LReceive g =>
      match mp_senders p !! g with
      | Some (Waiting ch msg) =>
          match mp_chans p !! ch with
          | Some (Some resp) =>
              let p' := mkPair (mp_id p) (mp_pendings p) (<[ch := None]> (mp_chans p)) (mp_senders p) (mp_responders p) in
              Some (return_ g msg (Done resp) p')
          | _ => None
          end
      | _ => None
      end
  | LCancel g err =>
      match mp_senders p !! g with Some (Waiting ch msg) => Some (return_ g msg (Fail err) p) | _ => None end
  | LLoad msg =>
      Some (mkPair (mp_id p) (mp_pendings p) (mp_chans p) (mp_senders p)
              (mp_responders p ++ [match mp_pendings p !! msg_ID msg with
                                   | Some ch => Found ch msg
                                   | None => Responded msg (Fail (ErrForeign "request not found"))
                                   end]))
  | LPush g =>
      match mp_responders p !! g with
      | Some (Found ch msg) =>
          match mp_chans p !! ch with
          | Some None =>
              Some (mkPair (mp_id p) (mp_pendings p) (<[ch := Some (msg_Message msg)]> (mp_chans p)) (mp_senders p)
                      (<[g := Responded msg (Done tt)]> (mp_responders p)))
          | Some (Some _) =>
              Some (mkPair (mp_id p) (mp_pendings p) (mp_chans p) (mp_senders p)
                      (<[g := Responded msg (Fail (ErrForeign "duplicated response of request"))]> (mp_responders p)))
          | None => None
          end
      | _ => None
      end
  end.

Fixpoint steps (ls : list (label Msg)) (p : MessagePair Msg) : option (MessagePair Msg) :=
  match ls with [] => Some p | l :: ls' => p' ← step l p; steps ls' p' end.

End pair.

(** ** Invariant *)

Section invariant.
Context {Msg : Type}.
Implicit Types p : MessagePair Msg.

Definition sender_msg (s : sendPC Msg) : MessageWithID Msg :=
  match s with Sending _ m | Waiting _ m | Returned m _ => m end.

(** A response accepted for the request with an id. *)
Definition accepted p (id : Z) (m : Msg) : Prop :=
  ∃ g msg, mp_responders p !! g = Some (Responded msg (Done tt)) ∧ msg_ID msg = id ∧ msg_Message msg = m.

Record pair_inv p : Prop := {
  inv_id : mp_id p = Z.of_nat (length (mp_senders p));
  inv_chans : length (mp_chans p) = length (mp_senders p);
  inv_sender g s : mp_senders p !! g = Some s → msg_ID (sender_msg s) = (Z.of_nat g + 1)%Z;
  inv_waiting g ch msg : mp_senders p !! g = Some (Sending ch msg) ∨ mp_senders p !! g = Some (Waiting ch msg) →
    ch = g ∧ mp_pendings p !! (Z.of_nat g + 1)%Z = Some g;
  inv_pending i ch : mp_pendings p !! i = Some ch → i = (Z.of_nat ch + 1)%Z ∧ ch < length (mp_senders p);
  inv_found g ch msg : mp_responders p !! g = Some (Found ch msg) → msg_ID msg = (Z.of_nat ch + 1)%Z ∧ ch < length (mp_senders p);
  inv_chan ch m : mp_chans p !! ch = Some (Some m) → accepted p (Z.of_nat ch + 1) m;
  inv_returned g msg m : mp_senders p !! g = Some (Returned msg (Done m)) → accepted p (msg_ID msg) m;
}.

Lemma NewMessagePair_inv : pair_inv NewMessagePair.
Proof. by split; try done; intros; simpl in *; naive_solver. Qed.

Lemma accepted_same p p' id m :
  (∀ g msg, mp_responders p !! g = Some (Responded msg (Done tt)) → mp_responders p' !! g = Some (Responded msg (Done tt))) →
  accepted p id m → accepted p' id m.
Proof. intros Hr (g & msg & Hg & ? & ?). exists g, msg. split; [by apply Hr|done]. Qed.

(** Updating the program counter of a goroutine that is not done. *)
Lemma insert_other (l : list (respPC Msg)) g r x :
  l !! g = Some (Found x.1 x.2) →
  ∀ g' msg, l !! g' = Some (Responded msg (Done tt)) → <[g := r]> l !! g' = Some (Responded msg (Done tt)).
Proof. intros Hg g' msg Hg'. rewrite list_lookup_insert_ne; [done|]. intros ->. congruence. Qed.

Lemma return_inv p g msg r :
  pair_inv p → (∃ ch, mp_senders p !! g = Some (Sending ch msg) ∨ mp_senders p !! g = Some (Waiting ch msg)) →
  (∀ m, r = Done m → accepted p (msg_ID msg) m) → pair_inv (return_ g msg r p).
Proof.
  intros Hi [ch Hg] Hr. assert (g < length (mp_senders p)) as Hlt by (destruct Hg as [Hg|Hg]; by apply lookup_lt_Some in Hg).
  assert (msg_ID msg = Z.of_nat g + 1)%Z as Hid by (destruct Hg as [Hg|Hg]; apply (inv_sender _ Hi) in Hg; exact Hg).
  split; simpl; rewrite ?length_insert; try apply Hi.
  - intros g' s [[<- [<- _]]|[_ Hs]]%list_lookup_insert_Some; [exact Hid|by apply (inv_sender _ Hi) in Hs].
  - intros g' ch' m Hor. assert (g ≠ g') as Hne.
    { intros <-. rewrite list_lookup_insert_eq in Hor by done. naive_solver. }
    rewrite list_lookup_insert_ne in Hor by done. destruct (inv_waiting _ Hi _ _ _ Hor) as [-> Hp]. split; [done|].
    rewrite lookup_delete_ne by lia. done.
  - intros i ch' [_ Hp]%lookup_delete_Some. by apply (inv_pending _ Hi).
  - intros g' m1 m [[_ [[= -> ->] _]]|[_ Hs]]%list_lookup_insert_Some; [by apply Hr|by apply (inv_returned _ Hi) in Hs].
Qed.

Lemma request_inv p req :
  pair_inv p → (Z.of_nat (length (mp_senders p)) + 1 < 2 ^ 64)%Z → ∀ p', step (LRequest req) p = Some p' → pair_inv p'.
Proof.
  intros Hi Hlt p' [= <-]. assert (Alloc (mp_id p) = Z.of_nat (length (mp_senders p)) + 1)%Z as ->.
  { unfold Alloc. rewrite (inv_id _ Hi). apply Z.mod_small. lia. }
  pose proof (inv_chans _ Hi) as Hc. split; simpl; rewrite ?length_app; simpl.
  - lia.
  - lia.
  - intros g s [[_ Hs]|[-> <-]]%lookup_snoc_Some; [by apply (inv_sender _ Hi) in Hs|done].
  - intros g ch m Hor. assert ((mp_senders p !! g = Some (Sending ch m) ∨ mp_senders p !! g = Some (Waiting ch m)) ∨ g = length (mp_senders p) ∧ ch = g) as [Ho|[-> ->]].
    { rewrite !lookup_snoc_Some, Hc in Hor. naive_solver. }
    + destruct (inv_waiting _ Hi _ _ _ Ho) as [-> Hp]. split; [done|]. rewrite lookup_insert_ne; [done|].
      destruct Ho as [Ho|Ho]; apply lookup_lt_Some in Ho; lia.
    + split; [done|]. rewrite lookup_insert_eq. by rewrite Hc.
  - intros i ch [[<- <-]|[_ Hp]]%lookup_insert_Some; [rewrite Hc; lia|]. apply (inv_pending _ Hi) in Hp. lia.
  - intros g ch m Hf. apply (inv_found _ Hi) in Hf. lia.
  - intros ch m [[_ Hm]|[_ ?]]%lookup_snoc_Some; [|done]. by apply (inv_chan _ Hi) in Hm.
  - intros g m1 m [[_ Hs]|[_ ?]]%lookup_snoc_Some; [|done]. by apply (inv_returned _ Hi) in Hs.
Qed.

Lemma step_inv l p p' :
  pair_inv p → (Z.of_nat (length (mp_senders p)) + 1 < 2 ^ 64)%Z → step l p = Some p' → pair_inv p'.
Proof.
  intros Hi Hlt. destruct l as [req|g err|g|g err|msg|g]; [by apply request_inv|simpl..].
  - destruct (mp_senders p !! g) as [[ch msg| |]|] eqn:Hg; try done. destruct err as [e|]; intros [= <-].
    + apply return_inv; [done|by eauto|done].
    + pose proof (lookup_lt_Some _ _ _ Hg) as Hl. split; simpl; rewrite ?length_insert; try apply Hi.
      * intros g' s [[<- [<- _]]|[_ Hs]]%list_lookup_insert_Some; [by apply (inv_sender _ Hi) in Hg|by apply (inv_sender _ Hi) in Hs].
      * intros g' ch' m Hor. destruct (decide (g = g')) as [<-|Hne].
        -- rewrite list_lookup_insert_eq in Hor by done. destruct Hor as [|[= <- <-]]; [done|]. apply (inv_waiting _ Hi g ch msg). by left.
        -- rewrite list_lookup_insert_ne in Hor by done. by apply (inv_waiting _ Hi g' ch' m).
      * intros g' m1 m [[_ [? _]]|[_ Hs]]%list_lookup_insert_Some; [done|by apply (inv_returned _ Hi) in Hs].
  - destruct (mp_senders p !! g) as [[| ch msg|]|] eqn:Hg; try done. destruct (mp_chans p !! ch) as [[resp|]|] eqn:Hc; try done. intros [= <-].
    destruct (inv_waiting _ Hi g ch msg (or_intror Hg)) as [-> Hp]. apply (inv_chan _ Hi) in Hc as Hacc.
    apply return_inv; [|by eauto|].
    + split; simpl; rewrite ?length_insert; try apply Hi. intros ch' m [[_ [? _]]|[_ Hm]]%list_lookup_insert_Some; [done|by apply (inv_chan _ Hi) in Hm].
    + intros m [= <-]. apply (inv_sender _ Hi) in Hg. simpl in Hg. by rewrite Hg.
  - destruct (mp_senders p !! g) as [[| ch msg|]|] eqn:Hg; try done. intros [= <-]. apply return_inv; [done|by eauto|done].
  - intros [= <-]. assert (∀ id m, accepted p id m → accepted (mkPair (mp_id p) (mp_pendings p) (mp_chans p) (mp_senders p)
      (mp_responders p ++ [match mp_pendings p !! msg_ID msg with Some ch => Found ch msg | None => Responded msg (Fail (ErrForeign "request not found")) end])) id m) as Hacc.
    { intros id m. apply accepted_same. simpl. intros g' msg' Hg'. by apply lookup_app_l_Some. }
    split; simpl; try apply Hi.
    + intros g ch m [[_ Hf]|[_ Hf]]%lookup_snoc_Some; [by apply (inv_found _ Hi) in Hf|].
      destruct (mp_pendings p !! msg_ID msg) as [ch'|] eqn:Hp; [|done]. injection Hf as -> ->. by apply (inv_pending _ Hi) in Hp.
    + intros ch m Hm. by apply Hacc, (inv_chan _ Hi).
    + intros g m1 m Hm. by apply Hacc, (inv_returned _ Hi g).
  - destruct (mp_responders p !! g) as [[ch msg|]|] eqn:Hg; try done.
    assert (∀ r q, mp_responders q = <[g := r]> (mp_responders p) → ∀ id m, accepted p id m → accepted q id m) as Hacc.
    { intros r q Hq id m. apply accepted_same. rewrite Hq. by apply (insert_other _ g r (ch, msg)). }
    pose proof (lookup_lt_Some _ _ _ Hg) as Hl. destruct (inv_found _ Hi _ _ _ Hg) as [Hid Hch].
    destruct (mp_chans p !! ch) as [[old|]|] eqn:Hc; try done; intros [= <-]; split; simpl; rewrite ?length_insert; try apply Hi.
    + intros g' ch' m [[_ [? _]]|[_ Hf]]%list_lookup_insert_Some; [done|by apply (inv_found _ Hi) in Hf].
    + intros ch' m Hm. by eapply Hacc, (inv_chan _ Hi).
    + intros g' m1 m Hm. by eapply Hacc, (inv_returned _ Hi g').
    + intros g' ch' m [[_ [? _]]|[_ Hf]]%list_lookup_insert_Some; [done|by apply (inv_found _ Hi) in Hf].
    + intros ch' m [[<- [[= <-] _]]|[_ Hm]]%list_lookup_insert_Some.
      * exists g, msg. simpl. split_and!; [by apply list_lookup_insert_eq|done..].
      * by eapply Hacc, (inv_chan _ Hi).
    + intros g' m1 m Hm. by eapply Hacc, (inv_returned _ Hi g').
Qed.

Lemma step_senders l p p' : step l p = Some p' → length (mp_senders p) ≤ length (mp_senders p') ≤ S (length (mp_senders p)).
Proof. destruct l; simpl; intros; repeat case_match; simplify_eq/=; rewrite ?length_insert, ?length_app; simpl; lia. Qed.

Lemma steps_inv ls p p' :
  pair_inv p → (Z.of_nat (length (mp_senders p) + length ls) < 2 ^ 64)%Z → steps ls p = Some p' → pair_inv p'.
Proof.
  revert p. induction ls as [|l ls IH]; intros p Hi Hlt; simpl in *; [by intros [= <-]|].
  destruct (step l p) as [p1|] eqn:H1; [|done]. simpl. apply IH; [eapply step_inv; [done| |done]; lia|]. apply step_senders in H1. lia.
Qed.

End invariant.

(** ** Theorems *)

(** Responses reach the request they answer. In every interleaving of fewer than
    2^64 steps, requests have distinct ids; a request that returned a response got one
    that was accepted under its own id; and as long as a request waits, a response with
    its id finds it, and is refused only if an earlier one was not yet taken. *)
Theorem responses_match_requests {Msg} ls (p : MessagePair Msg) :
  (Z.of_nat (length ls) < 2 ^ 64)%Z → steps ls NewMessagePair = Some p →
  (∀ g g' s s', mp_senders p !! g = Some s → mp_senders p !! g' = Some s' → msg_ID (sender_msg s) = msg_ID (sender_msg s') → g = g') ∧
  (∀ g msg m, mp_senders p !! g = Some (Returned msg (Done m)) → accepted p (msg_ID msg) m) ∧
  (∀ g ch msg m, mp_senders p !! g = Some (Waiting ch msg) → mp_chans p !! ch = Some None →
     ∃ p', steps [LLoad (mkMessageWithID (msg_ID msg) m); LPush (length (mp_responders p)); LReceive g] p = Some p' ∧
       mp_senders p' !! g = Some (Returned msg (Done m))).
Proof.
  intros Hlt Hs. assert (pair_inv p) as Hi by (eapply (steps_inv ls NewMessagePair); [apply NewMessagePair_inv|exact Hlt|exact Hs]). split_and!.
  - intros g g' s s' Hg Hg' He. apply (inv_sender _ Hi) in Hg, Hg'. lia.
  - apply Hi.
  - intros g ch msg m Hg Hc. pose proof (lookup_lt_Some _ _ _ Hg) as Hl. destruct (inv_waiting _ Hi _ _ _ (or_intror Hg)) as [-> Hp].
    pose proof (inv_sender _ Hi _ _ Hg) as Hid. simpl in Hid. simpl. rewrite Hid, Hp. simpl.
    rewrite lookup_app_r, Nat.sub_diag by lia. simpl. rewrite Hc. simpl. rewrite Hg, list_lookup_insert_eq by (by apply lookup_lt_Some in Hc).
    simpl. eexists. split; [done|]. simpl. by apply list_lookup_insert_eq.
Qed.

Lemma responses_match_requests_witness :
  ∃ p, steps [LRequest "a"; LRequest "b"; LSent 1 None; LLoad (mkMessageWithID 2 "r"); LPush 0; LReceive 1] NewMessagePair = Some p ∧ accepted p 2 "r".
Proof.
  eexists. split; [reflexivity|].
  destruct (responses_match_requests [LRequest "a"; LRequest "b"; LSent 1 None; LLoad (mkMessageWithID 2 "r"); LPush 0; LReceive 1]
    (mkPair 2 (delete 2%Z (<[2%Z := 1]> {[1%Z := 0]})) [None; None] [Sending 0 (mkMessageWithID 1 "a"); Returned (mkMessageWithID 2 "b") (Done "r")]
       [Responded (mkMessageWithID 2 "r") (Done tt)])) as (_ & Hr & _); [vm_compute; reflexivity|vm_compute; reflexivity|].
  apply (Hr 1 (mkMessageWithID 2 "b") "r"). reflexivity.
Defined.
