(* ===== verification/P2P.v ===== *)
(** * Message handlers and senders ([pkg/p2p])

    [message_handler_manager.go] and [message_sender.go]. The message server and the
    message clients of the peer-to-peer library are classes. *)

From S2P Require Import Prelude Errors Model.

(** ** [message_handler_manager.go] *)

(** The interface [handlerRegistrar], implemented by the library's message server. *)
Class HandlerRegistrar (Srv : Type) := {
  SyncAddHandler : string → GoM string Srv unit;
  SyncRemoveHandler : string → GoM string Srv unit;
}.

(** [topics] maps a topic to the values that wait in the error channel of its handler;
    a nil error is [None]. *)
Record messageHandlerManagerImpl (Srv : Type) := mkHandlerManager {
  hm_server : Srv;
  hm_topics : gmap string (list (option goerr));
}.
Arguments mkHandlerManager {Srv}.
Arguments hm_server {Srv}.
Arguments hm_topics {Srv}.

Definition newMessageHandlerManager {Srv} (registrar : Srv) : messageHandlerManagerImpl Srv := mkHandlerManager registrar ∅.

Section manager.
Context {Srv : Type} `{!HandlerRegistrar Srv}.

Definition on_server {A} (f : GoM string Srv A) : Go (messageHandlerManagerImpl Srv) A := λ m,
  match f (hm_server m) with
  | (Done a, s) => (Done a, mkHandlerManager s (hm_topics m))
  | (Fail err, s) => (Fail (ErrForeign err), mkHandlerManager s (hm_topics m))
  | (Panic, s) => (Panic, mkHandlerManager s (hm_topics m))
  end.

Definition upd_topics (f : gmap string (list (option goerr)) → gmap string (list (option goerr))) : Go (messageHandlerManagerImpl Srv) unit :=
  modify (λ m, mkHandlerManager (hm_server m) (f (hm_topics m))).

Definition RegisterHandler (topic : string) : Go (messageHandlerManagerImpl Srv) bool :=
  m ← get;
  match hm_topics m !! topic with
  | Some _ => mret false
  | None => _ ← on_server (SyncAddHandler topic); _ ← upd_topics <[topic := []]>; mret true
  end.

Definition UnregisterHandler (topic : string) : Go (messageHandlerManagerImpl Srv) bool :=
  m ← get;
  match hm_topics m !! topic with
  | None => mret false
  | Some _ => _ ← on_server (SyncRemoveHandler topic); _ ← upd_topics (delete topic); mret true
  end.

(** [select] at one topic: [ctxErr] says at which topics the case of the context is
    ready and taken. A closed channel gives nil, as an empty one does nothing. *)
Definition CheckError_topic (ctxErr : string → option goerr) (topic : string) : Go (messageHandlerManagerImpl Srv) unit :=
  m ← get;
  match ctxErr topic with
  | Some err => throw err
  | None =>
  match hm_topics m !! topic with
  | Some (v :: vs) => _ ← upd_topics <[topic := vs]>; match v with Some err => throw err | None => mret tt end
  | _ => mret tt
  end
  end.

Definition HandlerManager_CheckError (ctxErr : string → option goerr) (order : list string) : Go (messageHandlerManagerImpl Srv) unit :=
  forM_ (CheckError_topic ctxErr) order.

(** The handlers are removed from the server; the map of topics is left as it is. *)
Definition Clean (order : list string) : Go (messageHandlerManagerImpl Srv) unit :=
  forM_ (λ topic, on_server (SyncRemoveHandler topic)) order.

End manager.

(** ** [message_sender.go] *)

(** The library's router and clients. [GetClient] says whether a node has a client; the
    outcome of a send distinguishes [ErrPeerMessageSendTryAgain]. *)
Inductive send_outcome : Type := Sent | TryAgain | SendFailed (err : goerr).

Class P2PRouter (Msg R : Type) := {
  GetClient : NodeID → R → bool;
  TrySendMessage : NodeID → string → Msg → R → send_outcome * R;
  BlockingSendMessage : NodeID → string → Msg → R → option goerr * R;
}.

Section sender.
Context {Msg R : Type} `{!P2PRouter Msg R}.

Definition SendToNode (node : NodeID) (topic : string) (message : Msg) : Go R bool := λ r,
  if GetClient (Msg:=Msg) node r then
    match TrySendMessage node topic message r with
    | (Sent, r') => (Done true, r')
    | (TryAgain, r') => (Done false, r')
    | (SendFailed err, r') => (Fail err, r')
    end
  else (Done false, r).

Definition SendToNodeB (node : NodeID) (topic : string) (message : Msg) : Go R unit := λ r,
  if GetClient (Msg:=Msg) node r then
    match BlockingSendMessage node topic message r with
    | (Some err, r') => (Fail err, r')
    | (None, r') => (Done tt, r')
    end
  else (Fail (GoErr ErrExecutorNotFoundForMessage ""), r).

End sender.

(** ** Specification *)

(** The handlers of the server; adding a topic twice fails. The operations are done by
    the server's own goroutine, so one that failed, for instance at its timeout, may have
    taken effect nevertheless. *)
Class HandlerRegistrarLaws {Srv : Type} `{!HandlerRegistrar Srv} (handlers : Srv → gset string) : Prop := {
  SyncAddHandler_law topic s :
    match SyncAddHandler topic s with
    | (Done _, s') => (topic ∉ handlers s) ∧ handlers s' = {[topic]} ∪ handlers s
    | (Fail _, s') => handlers s' = handlers s ∨ handlers s' = {[topic]} ∪ handlers s
    | (Panic, _) => False
    end;
  SyncRemoveHandler_law topic s :
    match SyncRemoveHandler topic s with
    | (Done _, s') => handlers s' = handlers s ∖ {[topic]}
    | (Fail _, s') => handlers s' = handlers s ∨ handlers s' = handlers s ∖ {[topic]}
    | (Panic, _) => False
    end;
}.

(** Calls on a manager. *)
Inductive hm_call : Type :=
| CallRegister (topic : string)
| CallUnregister (topic : string)
| CallCheckError (ctxErr : string → option goerr) (order : list string).

(** A sequence of calls in which no operation of the server fails; the errors that
    [CheckError] reports do not count. *)
Definition run_hm {Srv} `{!HandlerRegistrar Srv} (c : hm_call) : Go (messageHandlerManagerImpl Srv) unit :=
  match c with
  | CallRegister topic => _ ← RegisterHandler topic; mret tt
  | CallUnregister topic => _ ← UnregisterHandler topic; mret tt
  | CallCheckError ctxErr order => λ m, (Done tt, (HandlerManager_CheckError ctxErr order m).2)
  end.

Section proofs.
Context {Srv : Type} `{!HandlerRegistrar Srv} (handlers : Srv → gset string) `{!HandlerRegistrarLaws handlers}.

Definition in_step (srv : Srv) (m : messageHandlerManagerImpl Srv) : Prop :=
  handlers (hm_server m) = handlers srv ∪ dom (hm_topics m) ∧ handlers srv ## dom (hm_topics m).

Lemma RegisterHandler_spec topic m :
  match RegisterHandler topic m with
  | (Done true, m') => (topic ∉ handlers (hm_server m)) ∧ handlers (hm_server m') = {[topic]} ∪ handlers (hm_server m) ∧
                       hm_topics m !! topic = None ∧ hm_topics m' = <[topic := []]> (hm_topics m)
  | (Done false, m') => m' = m ∧ is_Some (hm_topics m !! topic)
  | (Fail _, m') => hm_topics m' = hm_topics m ∧ hm_topics m !! topic = None
  | (Panic, _) => False
  end.
Proof.
  unfold RegisterHandler, mbind, GoM_bind, get. destruct (hm_topics m !! topic) eqn:Ht; [done|]. unfold on_server.
  pose proof (SyncAddHandler_law topic (hm_server m)) as Hl. destruct (SyncAddHandler topic (hm_server m)) as [[[]|e|] s]; simpl; [|done|done].
  by destruct Hl.
Qed.

Lemma UnregisterHandler_spec topic m :
  match UnregisterHandler topic m with
  | (Done true, m') => is_Some (hm_topics m !! topic) ∧ handlers (hm_server m') = handlers (hm_server m) ∖ {[topic]} ∧ hm_topics m' = delete topic (hm_topics m)
  | (Done false, m') => m' = m ∧ hm_topics m !! topic = None
  | (Fail _, m') => hm_topics m' = hm_topics m
  | (Panic, _) => False
  end.
Proof.
  unfold UnregisterHandler, mbind, GoM_bind, get. destruct (hm_topics m !! topic) eqn:Ht; [|done]. unfold on_server.
  pose proof (SyncRemoveHandler_law topic (hm_server m)) as Hl. by destruct (SyncRemoveHandler topic (hm_server m)) as [[[]|e|] s].
Qed.

Lemma CheckError_topic_spec ctxErr topic (m : messageHandlerManagerImpl Srv) :
  hm_server (CheckError_topic ctxErr topic m).2 = hm_server m ∧ dom (hm_topics (CheckError_topic ctxErr topic m).2) = dom (hm_topics m).
Proof.
  unfold CheckError_topic, mbind, GoM_bind, get. destruct (ctxErr topic); [done|].
  destruct (hm_topics m !! topic) as [[|[e|] vs]|] eqn:Ht; simpl; (split; [done|]); [done| | |done]; apply elem_of_dom_2 in Ht; rewrite dom_insert_L; set_solver.
Qed.

Lemma CheckError_spec ctxErr order (m : messageHandlerManagerImpl Srv) :
  hm_server (HandlerManager_CheckError ctxErr order m).2 = hm_server m ∧ dom (hm_topics (HandlerManager_CheckError ctxErr order m).2) = dom (hm_topics m).
Proof.
  unfold HandlerManager_CheckError. revert m. induction order as [|t order IH]; intros m; [done|]. simpl. unfold mbind, GoM_bind.
  pose proof (CheckError_topic_spec ctxErr t m) as Hs. destruct (CheckError_topic ctxErr t m) as [[[]|e|] m1]; simpl in *; [|done|done].
  destruct (IH m1) as [-> ->]. done.
Qed.

Lemma CheckError_no_panic ctxErr order (m : messageHandlerManagerImpl Srv) : (HandlerManager_CheckError ctxErr order m).1 ≠ Panic.
Proof.
  unfold HandlerManager_CheckError. revert m. induction order as [|t order IH]; intros m; [done|]. simpl. unfold mbind, GoM_bind.
  assert ((CheckError_topic ctxErr t m).1 ≠ Panic) as Hn by (unfold CheckError_topic, mbind, GoM_bind, get; by repeat case_match; simplify_eq/=).
  destruct (CheckError_topic ctxErr t m) as [[[]|e|] m1]; simpl in *; [apply IH|done|done].
Qed.

Lemma run_hm_in_step c srv m m' : in_step srv m → run_hm c m = (Done tt, m') → in_step srv m'.
Proof.
  intros [Hi1 Hi2]. unfold in_step. destruct c as [t|t|ctxErr order]; simpl; unfold mbind, GoM_bind.
  - pose proof (RegisterHandler_spec t m) as Hs. destruct (RegisterHandler t m) as [[[]|e|] m1]; intros [= <-].
    + destruct Hs as (Hn & -> & _ & ->). rewrite dom_insert_L. set_solver.
    + by destruct Hs as [-> _].
  - pose proof (UnregisterHandler_spec t m) as Hs. destruct (UnregisterHandler t m) as [[[]|e|] m1]; intros [= <-].
    + destruct Hs as (Ht & -> & ->). apply elem_of_dom in Ht. rewrite dom_delete_L, Hi1. split; [|set_solver].
      apply set_eq. intros x. destruct (decide (x = t)); set_solver.
    + by destruct Hs as [-> _].
  - intros [= <-]. by destruct (CheckError_spec ctxErr order m) as [-> ->].
Qed.

Lemma Clean_spec order m :
  match Clean order m with
  | (Done _, m') => handlers (hm_server m') = handlers (hm_server m) ∖ list_to_set order ∧ hm_topics m' = hm_topics m
  | (Fail _, m') => hm_topics m' = hm_topics m
  | (Panic, _) => False
  end.
Proof.
  revert m. induction order as [|t order IH]; intros m; [simpl; set_solver|]. unfold Clean in *. simpl. unfold mbind, GoM_bind, on_server at 1.
  pose proof (SyncRemoveHandler_law t (hm_server m)) as Hl. destruct (SyncRemoveHandler t (hm_server m)) as [[[]|e|] s]; [|done|done].
  specialize (IH (mkHandlerManager s (hm_topics m))). destruct (forM_ _ order _) as [[[]|e|] m']; simpl in *; [|done|done].
  destruct IH as [-> ->]. split; [|done]. rewrite Hl. set_solver.
Qed.

End proofs.

(** ** Theorems *)

(** The topics of a manager are the handlers it has on the server. Whatever is
    registered, unregistered and checked, as long as the server carries the operations
    out, a topic has one handler at most, a manager never removes or replaces a handler
    that is not its own, and registering reports whether the handler is new. *)
Theorem handlers_in_step {Srv} `{!HandlerRegistrar Srv} (handlers : Srv → gset string) `{!HandlerRegistrarLaws handlers} (srv : Srv) calls m :
  forM_ run_hm calls (newMessageHandlerManager srv) = (Done tt, m) →
  handlers (hm_server m) = handlers srv ∪ dom (hm_topics m) ∧ handlers srv ## dom (hm_topics m) ∧
  ∀ topic, match (RegisterHandler topic m).1 with
           | Done b => b = bool_decide (topic ∉ dom (hm_topics m))
           | Fail _ => topic ∉ dom (hm_topics m)
           | Panic => False
           end.
Proof.
  intros Hrun. assert (in_step handlers srv m) as [H1 H2].
  { assert (in_step handlers srv (newMessageHandlerManager srv)) as Hi by (split; simpl; set_solver). revert Hi Hrun. generalize (newMessageHandlerManager srv).
    induction calls as [|c calls IH]; intros m0 Hi; [by intros [= <-]|]. simpl. unfold mbind, GoM_bind.
    destruct (run_hm c m0) as [[[]|e|] m1] eqn:Hc; [|done|done]. apply IH. by eapply run_hm_in_step. }
  split_and!; [done..|]. intros topic. pose proof (RegisterHandler_spec handlers topic m) as Hs.
  destruct (RegisterHandler topic m) as [[[]|e|] m'] eqn:Hr; simpl; [| | |done].
  - destruct Hs as (_ & _ & Hn & _). symmetry. apply bool_decide_eq_true. by apply not_elem_of_dom.
  - destruct Hs as [_ Hs]. symmetry. apply bool_decide_eq_false. intros Hn. by apply Hn, elem_of_dom.
  - destruct Hs as [_ Hs]. by apply not_elem_of_dom.
Qed.

(** A manager that was cleaned is of no further use: its handlers are gone from the
    server, and registering any of its topics again is refused as a duplicate, which
    makes the callers panic. *)
Theorem clean_keeps_topics {Srv} `{!HandlerRegistrar Srv} (handlers : Srv → gset string) `{!HandlerRegistrarLaws handlers} order
    (m m' : messageHandlerManagerImpl Srv) :
  iter_order (hm_topics m) order → Clean order m = (Done tt, m') →
  handlers (hm_server m') = handlers (hm_server m) ∖ dom (hm_topics m) ∧
  ∀ topic, is_Some (hm_topics m !! topic) → RegisterHandler topic m' = (Done false, m').
Proof.
  intros Ho Hc. pose proof (Clean_spec handlers order m) as Hs. rewrite Hc in Hs. destruct Hs as [Hh Ht]. split.
  - rewrite Hh. apply set_eq. intros x. rewrite !elem_of_difference, elem_of_list_to_set, elem_of_dom, (iter_order_elem _ _ _ Ho). done.
  - intros topic [v Hv]. unfold RegisterHandler, mbind, GoM_bind, get. by rewrite Ht, Hv.
Qed.

Module Witness.

#[export] Instance ref_registrar : HandlerRegistrar (gset string) := {|
  SyncAddHandler t s := if decide (t ∈ s) then (Fail "exists", s) else (Done tt, {[t]} ∪ s);
  SyncRemoveHandler t s := (Done tt, s ∖ {[t]});
|}.

#[export] Instance ref_registrar_laws : HandlerRegistrarLaws (id : gset string → gset string).
Proof. split; intros t s; simpl; [destruct (decide (t ∈ s)) as [?|?]; auto|done]. Qed.

Lemma handlers_in_step_witness :
  let m := (forM_ run_hm [CallRegister "a"; CallRegister "b"; CallUnregister "a"] (newMessageHandlerManager ({["other"]} : gset string))).2 in
  hm_server m = {["other"]} ∪ dom (hm_topics m).
Proof.
  intros m. assert (forM_ run_hm [CallRegister "a"; CallRegister "b"; CallUnregister "a"] (newMessageHandlerManager ({["other"]} : gset string)) = (Done tt, m)) as Hrun by (vm_compute; reflexivity).
  destruct (handlers_in_step id ({["other"]} : gset string) [CallRegister "a"; CallRegister "b"; CallUnregister "a"] m Hrun) as (Hm & _). exact Hm.
Defined.

Definition m0 : messageHandlerManagerImpl (gset string) := mkHandlerManager {["a"]} {["a" := []]}.

Lemma clean_keeps_topics_witness : RegisterHandler "a" (Clean ["a"] m0).2 = (Done false, (Clean ["a"] m0).2).
Proof.
  apply (clean_keeps_topics id ["a"] m0 (Clean ["a"] m0).2); [apply iter_order_eq; reflexivity|reflexivity|by exists []].
Defined.

End Witness.
