(* ===== verification/BaseWorker.v ===== *)
(** * The base of every worker ([lib/worker.go])

    [DefaultBaseWorker]: start-up, polling, the two background goroutines, the message
    handlers and closing, composed of the master client, the exit controller, the status
    writer and the router of [Worker] and the handler manager of [P2P]. The methods of
    the business logic ([WorkerImpl]) act on the whole state. A background goroutine is
    a flag and its body a step; the pool runs a routed message at once. *)

From S2P Require Import Prelude Errors Model Metastore WorkerManager Worker Master P2P.

(** ** State *)

(** [exitController] and [messageRouter] are nil before [doPreInit], as are
    [masterClient] and [statusSender]. The status row and the writer are the
    [StatusState] of [Worker]. *)
Record DefaultBaseWorker (Srv : Type) := mkBaseWorker {
  bw_id : WorkerID;
  bw_masterID : MasterID;
  bw_messageHandlerManager : messageHandlerManagerImpl Srv;
  bw_masterClient : option masterClient;
  bw_exit : option (workerExitFsmState * Time);
  bw_status : StatusState;
  bw_messageRouter : option (MessageRouter (string * StatusChangeRequest));
  bw_heartbeat : bool;
  bw_watchdog : bool;
  bw_pool : bool;
}.
Arguments mkBaseWorker {Srv}.
Arguments bw_id {Srv}.
Arguments bw_masterID {Srv}.
Arguments bw_messageHandlerManager {Srv}.
Arguments bw_masterClient {Srv}.
Arguments bw_exit {Srv}.
Arguments bw_status {Srv}.
Arguments bw_messageRouter {Srv}.
Arguments bw_heartbeat {Srv}.
Arguments bw_watchdog {Srv}.
Arguments bw_pool {Srv}.

Definition NewBaseWorker {Srv} (handlers : messageHandlerManagerImpl Srv) (workerID : WorkerID) (masterID : MasterID)
    (rows : gmap (MasterID * WorkerID) WorkerStatus) : DefaultBaseWorker Srv :=
  {| bw_id := workerID; bw_masterID := masterID; bw_messageHandlerManager := handlers; bw_masterClient := None; bw_exit := None;
     bw_status := NewBaseWorker_status masterID workerID rows; bw_messageRouter := None;
     bw_heartbeat := false; bw_watchdog := false; bw_pool := false |}.

(** The worker with its error center, which a job master shares with its base master,
    the metastore and the state of the business logic. *)
Record WorkerSt (DB Srv I : Type) := mkWorkerSt { wk_err : ErrCenter; wk_base : DefaultBaseWorker Srv; wk_db : DB; wk_impl : I }.
Arguments mkWorkerSt {DB Srv I}.
Arguments wk_err {DB Srv I}.
Arguments wk_base {DB Srv I}.
Arguments wk_db {DB Srv I}.
Arguments wk_impl {DB Srv I}.

Record WorkerImpl (S : Type) := mkWorkerImpl {
  WorkerImpl_InitImpl : Go S unit;
  WorkerImpl_Tick : Go S unit;
  OnMasterFailover : Go S unit;
  OnMasterMessage : string → StatusChangeRequest → Go S unit;
  WorkerImpl_CloseImpl : Go S unit;
}.
Arguments WorkerImpl_InitImpl {S}.
Arguments WorkerImpl_Tick {S}.
Arguments OnMasterFailover {S}.
Arguments OnMasterMessage {S}.
Arguments WorkerImpl_CloseImpl {S}.

Definition defaultMessageRouterBufferSize : nat := 4.

Definition NewMessageRouter {M} (bufferSize : nat) : MessageRouter M := {| mr_buffer := []; mr_size := bufferSize; mr_errCh := None |}.

(** ** Calls on parts of the state *)

Section lift.
Context {DB Srv I : Type}.
Abbreviation St := (WorkerSt DB Srv I).

Definition set_base (b : DefaultBaseWorker Srv) (s : St) : St := mkWorkerSt (wk_err s) b (wk_db s) (wk_impl s).

Definition on_worker_db {A} (f : Go DB A) : Go St A := λ s,
  let '(r, db) := f (wk_db s) in (r, mkWorkerSt (wk_err s) (wk_base s) db (wk_impl s)).

Definition on_handlers {A} (f : Go (messageHandlerManagerImpl Srv) A) : Go St A := λ s,
  let b := wk_base s in
  let '(r, h) := f (bw_messageHandlerManager b) in
  (r, set_base (mkBaseWorker (bw_id b) (bw_masterID b) h (bw_masterClient b) (bw_exit b) (bw_status b) (bw_messageRouter b)
                 (bw_heartbeat b) (bw_watchdog b) (bw_pool b)) s).

(** The status writer is nil before [doPreInit]. *)
Definition on_status {A} (f : Go StatusState A) : Go St A := λ s,
  let b := wk_base s in
  match bw_masterClient b with
  | None => (Panic, s)
  | Some _ =>
      let '(r, st) := f (bw_status b) in
      (r, set_base (mkBaseWorker (bw_id b) (bw_masterID b) (bw_messageHandlerManager b) (bw_masterClient b) (bw_exit b) st
                     (bw_messageRouter b) (bw_heartbeat b) (bw_watchdog b) (bw_pool b)) s)
  end.

Definition set_router (r : MessageRouter (string * StatusChangeRequest)) (b : DefaultBaseWorker Srv) : DefaultBaseWorker Srv :=
  mkBaseWorker (bw_id b) (bw_masterID b) (bw_messageHandlerManager b) (bw_masterClient b) (bw_exit b) (bw_status b) (Some r)
    (bw_heartbeat b) (bw_watchdog b) (bw_pool b).

(** The exit controller with the error center and the master client it points to. *)
Definition exit_view (s : St) : option workerExitController :=
  match bw_exit (wk_base s), bw_masterClient (wk_base s) with
  | Some (fsm, t), Some m => Some (mkExitController fsm t (wk_err s) m)
  | _, _ => None
  end.

Definition set_exit_view (c : workerExitController) (s : St) : St :=
  let b := wk_base s in
  mkWorkerSt (ec_errCenter c)
    (mkBaseWorker (bw_id b) (bw_masterID b) (bw_messageHandlerManager b) (Some (ec_masterClient c)) (Some (ec_fsm c, ec_halfExitTime c))
       (bw_status b) (bw_messageRouter b) (bw_heartbeat b) (bw_watchdog b) (bw_pool b))
    (wk_db s) (wk_impl s).

Definition on_exit {A} (f : Go workerExitController A) : Go St A := λ s,
  match exit_view s with
  | None => (Panic, s)
  | Some c => let '(r, c') := f c in (r, set_exit_view c' s)
  end.

Definition set_background (heartbeat watchdog pool : bool) (b : DefaultBaseWorker Srv) : DefaultBaseWorker Srv :=
  mkBaseWorker (bw_id b) (bw_masterID b) (bw_messageHandlerManager b) (bw_masterClient b) (bw_exit b) (bw_status b)
    (bw_messageRouter b) heartbeat watchdog pool.

(** [w.errCenter.OnError]. *)
Definition Worker_onError (err : goerr) : Go St unit := λ s,
  match ErrCenter_OnError (Some err) (wk_err s) with
  | Some ec => (Done tt, mkWorkerSt ec (wk_base s) (wk_db s) (wk_impl s))
  | None => (Panic, s)
  end.

(** A failure that is only logged. *)
Definition logged_only (f : Go St unit) : Go St unit := λ s,
  match f s with
  | (Fail _, s') => (Done tt, s')
  | out => out
  end.

End lift.

(** ** Operations *)

Section worker.
Context {DB Srv I : Type} `{!Gorm DB} `{!HandlerRegistrar Srv}.
Abbreviation St := (WorkerSt DB Srv I).
Variable impl : WorkerImpl St.
(** The order in which the topics are iterated over. *)
Variable ord : gmap string (list (option goerr)) → list string.

Definition CleanHandlers : Go (messageHandlerManagerImpl Srv) unit := λ h, Clean (ord (hm_topics h)) h.

Definition registerOrPanic (topic : string) : Go (messageHandlerManagerImpl Srv) unit :=
  ok ← RegisterHandler topic; if ok : bool then mret tt else panic.

Definition initMessageHandlers : Go St unit := λ s,
  let b := wk_base s in
  let register :=
    _ ← registerOrPanic (HeartbeatPongTopic (bw_masterID b) (bw_id b));
    registerOrPanic (WorkerStatusChangeRequestTopic (bw_masterID b) (bw_id b)) in
  match on_handlers register s with
  | (Fail err, s1) =>
      match logged_only (on_handlers CleanHandlers) s1 with
      | (Panic, s2) => (Panic, s2)
      | (_, s2) => (Fail err, s2)
      end
  | out => out
  end.

(** The objects [doPreInit] creates, with the two goroutines and the pool it starts. *)
Definition preInit_objects (mono : MonotonicTime) (submitTime : option Time) (b : DefaultBaseWorker Srv) : DefaultBaseWorker Srv :=
  let st := bw_status b in
  mkBaseWorker (bw_id b) (bw_masterID b) (bw_messageHandlerManager b)
    (Some (newMasterClient (bw_masterID b) (bw_id b) (initTime mono submitTime)))
    (Some (workerNormal, zeroTime))
    (mkStatusState (ss_store st) (ss_workerStatus st) None (ss_rows st) (ss_sent st))
    (Some (NewMessageRouter defaultMessageRouterBufferSize)) true true true.

Definition doPreInit (mono : MonotonicTime) (submitTime : option Time) : Go St unit :=
  _ ← modify (λ s, set_base (preInit_objects mono submitTime (wk_base s)) s);
  _ ← initMessageHandlers;
  s ← get;
  masterMeta ← on_worker_db (Load (bw_masterID (wk_base s)));
  on_exit (λ c, let '(r, m) := InitMasterInfoFromMeta (Done masterMeta) (ec_masterClient c) in
                (r, mkExitController (ec_fsm c) (ec_halfExitTime c) (ec_errCenter c) m)).

Definition Worker_doPostInit (upsert : res goerr unit) (io : io_result) : Go St unit := on_status (doPostInit upsert io).

Definition Worker_Init (mono : MonotonicTime) (submitTime : option Time) (upsert : res goerr unit) (io : io_result) : Go St unit :=
  _ ← doPreInit mono submitTime;
  _ ← WorkerImpl_InitImpl impl;
  Worker_doPostInit upsert io.

(** What a poll meets: the time, the case the [select]s take, the answer of the pool. *)
Record PollEnv := mkPollEnv {
  pe_now : Time;
  pe_checkErr : string → option goerr;
  pe_tickErr : option goerr;
  pe_pool : res goerr unit;
}.

Definition MessageRouter_onError {M} (err : goerr) (r : MessageRouter M) : MessageRouter M :=
  {| mr_buffer := mr_buffer r; mr_size := mr_size r; mr_errCh := match mr_errCh r with Some e => Some e | None => Some err end |}.

Definition routeMessage (pooled : res goerr unit) (topic : string) (msg : StatusChangeRequest) : Go St unit := λ s,
  match pooled with
  | Fail err => (Fail err, s)
  | Panic => (Panic, s)
  | Done _ =>
      match OnMasterMessage impl topic msg s with
      | (Panic, s') => (Panic, s')
      | (Done _, s') => (Done tt, s')
      | (Fail err, s') =>
          match bw_messageRouter (wk_base s') with
          | None => (Panic, s')
          | Some r => (Done tt, set_base (set_router (MessageRouter_onError err r) (wk_base s')) s')
          end
      end
  end.

Definition RouterTick (env : PollEnv) : Go St unit := λ s,
  match pe_tickErr env with
  | Some err => (Fail err, s)
  | None =>
      match bw_messageRouter (wk_base s) with
      | None => (Panic, s)
      | Some r =>
          match mr_buffer r with
          | [] => (Done tt, s)
          | (topic, msg) :: b =>
              routeMessage (pe_pool env) topic msg
                (set_base (set_router {| mr_buffer := b; mr_size := mr_size r; mr_errCh := mr_errCh r |} (wk_base s)) s)
          end
      end
  end.

Definition Worker_doPoll (env : PollEnv) : Go St unit :=
  _ ← on_exit (PollExit (pe_now env));
  _ ← on_handlers (λ h, HandlerManager_CheckError (pe_checkErr env) (ord (hm_topics h)) h);
  RouterTick env.

Definition Worker_Poll (env : PollEnv) : Go St unit := λ s,
  match Worker_doPoll env s with
  | (Panic, s1) => (Panic, s1)
  | (Fail err, s1) => if err_Equal ErrWorkerHalfExit (Some err) then (Done tt, s1) else (Fail err, s1)
  | (Done _, s1) =>
      match WorkerImpl_Tick impl s1 with
      | (Fail err, s2) => Worker_onError err s2
      | out => out
      end
  end.

(** The cancelled goroutines return the context's error, which they report; [doClose]
    waits for them. *)
Definition cancelled : goerr := ErrForeign "context canceled".

Definition cancelBgTasks : Go St unit := λ s,
  let b := wk_base s in
  let s1 := set_base (set_background false false false b) s in
  if bw_heartbeat b || bw_watchdog b then Worker_onError cancelled s1 else (Done tt, s1).

Definition Worker_doClose : Go St unit :=
  _ ← cancelBgTasks;
  logged_only (on_handlers CleanHandlers).

Definition Worker_Close : Go St unit :=
  _ ← WorkerImpl_CloseImpl impl;
  Worker_doClose.

Definition Base_UpdateStatus (io : io_result) (code : Z) (msg ext : string) : Go St unit := on_status (Worker_UpdateStatus io code msg ext).
Definition Base_Exit (io : io_result) (code : Z) (msg ext : string) (err : option goerr) : Go St unit := on_status (Exit io code msg ext err).

(** [SendMessage]: to the node of the master. *)
Definition Worker_SendMessage {Msg R} `{!P2PRouter Msg R} (topic : string) (message : Msg) (s : St) : Go R bool :=
  match bw_masterClient (wk_base s) with
  | None => panic
  | Some m => SendToNode (mc_masterNode m) topic message
  end.

(** ** Background goroutines *)

(** A tick of [runHeartbeatWorker]: the ping and where it goes. *)
Definition heartbeatTick (mono : MonotonicTime) (sent : res goerr bool) : Go St (option (NodeID * string * HeartbeatPingMessage)) := λ s,
  if negb (bw_heartbeat (wk_base s)) then (Done None, s) else
  match exit_view s with
  | None => (Panic, s)
  | Some c =>
      let '(r, ping) := SendHeartBeat mono (IsExiting c) sent (ec_masterClient c) in
      match r with
      | Done _ => (Done (Some ping), s)
      | Panic => (Panic, s)
      | Fail err =>
          match Worker_onError err (set_base (set_background false (bw_watchdog (wk_base s)) (bw_pool (wk_base s)) (wk_base s)) s) with
          | (Done _, s') => (Done None, s')
          | (Fail e, s') => (Fail e, s')
          | (Panic, s') => (Panic, s')
          end
      end
  end.

(** [RefreshMasterInfo] with the metastore and the business logic. *)
Definition refreshMaster : Go St unit := λ s,
  match bw_masterClient (wk_base s) with
  | None => (Panic, s)
  | Some m =>
      match on_worker_db (Load (mc_masterID m)) s with
      | (Fail err, s1) => (Fail err, s1)
      | (Panic, s1) => (Panic, s1)
      | (Done masterMeta, s1) =>
          match on_exit (λ c, let '(r, m') := RefreshMasterInfo (Done masterMeta) (Done tt) (ec_masterClient c) in
                              (r, mkExitController (ec_fsm c) (ec_halfExitTime c) (ec_errCenter c) m')) s1 with
          | (Done _, s2) =>
              if bool_decide (mc_masterEpoch m < mm_Epoch masterMeta)%Z then OnMasterFailover impl s2 else (Done tt, s2)
          | out => out
          end
      end
  end.

(** A tick of [runWatchDog]. *)
Definition watchdogTick (mono : MonotonicTime) : Go St unit := λ s,
  if negb (bw_watchdog (wk_base s)) then (Done tt, s) else
  match bw_masterClient (wk_base s) with
  | None => (Panic, s)
  | Some m =>
      let stop (err : goerr) (s' : St) :=
        Worker_onError err (set_base (set_background (bw_heartbeat (wk_base s')) false (bw_pool (wk_base s')) (wk_base s')) s') in
      let sinceLastAcked := int64 (mono - mc_lastMasterAckedPingTime m) in
      let twice := int64 (2 * WorkerHeartbeatInterval (mc_timeoutConfig m)) in
      if bool_decide (sinceLastAcked ≤ twice)%Z then (Done tt, s)
      else if bool_decide (twice < sinceLastAcked)%Z && bool_decide (sinceLastAcked < WorkerTimeoutDuration (mc_timeoutConfig m))%Z then
        match refreshMaster s with
        | (Fail err, s') => stop err s'
        | out => out
        end
      else
        let errOut := GoErr ErrWorkerSuicide (mc_masterID m) in
        match on_exit (λ c, match ForceExit errOut c with Some c' => (Done tt, c') | None => (Panic, c) end) s with
        | (Done _, s') => stop errOut s'
        | out => out
        end
  end.

(** ** Message handlers *)

Definition pongHandler (sender : NodeID) (msg : HeartbeatPongMessage) : Go St unit :=
  on_exit (λ c, (Done tt, mkExitController (ec_fsm c) (ec_halfExitTime c) (ec_errCenter c)
                            (masterClient_HandleHeartbeat sender msg (ec_masterClient c)))).

(** A message that is no status change request is an error. *)
Definition statusChangeHandler (value : option StatusChangeRequest) : Go St unit := λ s,
  let b := wk_base s in
  match value with
  | None => (Fail (GoErr ErrInvalidMasterMessage ""), s)
  | Some msg =>
      match bw_messageRouter b with
      | None => (Panic, s)
      | Some r => (Done tt, set_base (set_router (AppendMessage (WorkerStatusChangeRequestTopic (bw_masterID b) (bw_id b), msg) r) b) s)
      end
  end.

End worker.

(** ** Specification *)

Section spec.
Context {DB Srv I : Type} `{!Gorm DB, !GormLaws DB} `{!HandlerRegistrar Srv}.
Abbreviation St := (WorkerSt DB Srv I).
Variable impl : WorkerImpl St.
Variable ord : gmap string (list (option goerr)) → list string.

(** Business logic that does not panic and stays out of the worker's private fields; the
    calls it has, such as [UpdateStatus], do. *)
Definition stays_out {A} (f : Go St A) : Prop :=
  ∀ s, (f s).1 ≠ Panic ∧ exit_view (f s).2 = exit_view s ∧
       (is_Some (bw_messageRouter (wk_base s)) → is_Some (bw_messageRouter (wk_base (f s).2))).

Record impl_stays_out : Prop := {
  iso_Tick : stays_out (WorkerImpl_Tick impl);
  iso_OnMasterFailover : stays_out (OnMasterFailover impl);
  iso_OnMasterMessage topic msg : stays_out (OnMasterMessage impl topic msg);
}.

(** The steps of a running worker. *)
Inductive worker_step (s : St) : bool → St → Prop :=
| ws_poll env : pe_pool env ≠ Panic → worker_step s (panicked (Worker_Poll impl ord env s).1) (Worker_Poll impl ord env s).2
| ws_heartbeat mono sent : sent ≠ Panic → worker_step s (panicked (heartbeatTick mono sent s).1) (heartbeatTick mono sent s).2
| ws_watchdog mono : worker_step s (panicked (watchdogTick impl mono s).1) (watchdogTick impl mono s).2
| ws_pong sender msg : worker_step s (panicked (pongHandler sender msg s).1) (pongHandler sender msg s).2
| ws_statusChange value : worker_step s (panicked (statusChangeHandler value s).1) (statusChangeHandler value s).2
| ws_updateStatus io code msg ext :
    io_persist io ≠ Panic → io_send io ≠ Panic → is_Some (ss_store (bw_status (wk_base s)) !! ss_workerStatus (bw_status (wk_base s))) →
    worker_step s (panicked (Base_UpdateStatus io code msg ext s).1) (Base_UpdateStatus io code msg ext s).2.

Definition worker_moves (s s' : St) : Prop := ∃ p, worker_step s p s'.

(** A state with all its objects, whose exit controller follows the exit protocol. *)
Definition follows_exit (s : St) : Prop :=
  is_Some (bw_messageRouter (wk_base s)) ∧ ∃ c, exit_view s = Some c ∧ exit_reachable c.

(** What one step does to the exit controller: a number of steps of the protocol. *)
Definition protocol_steps (s : St) (panics : bool) (s' : St) : Prop :=
  ∀ c, is_Some (bw_messageRouter (wk_base s)) → exit_view s = Some c → exit_inv c →
    panics = false ∧ is_Some (bw_messageRouter (wk_base s')) ∧
    ∃ c', exit_view s' = Some c' ∧ rtc (λ c c', ∃ out, exit_step c out c') c c'.

(** *** Lemmas *)

Lemma exit_steps_inv c c' : exit_inv c → rtc (λ c c', ∃ out, exit_step c out c') c c' → exit_inv c'.
Proof. intros Hi Hs. induction Hs as [|x y z [out Hxy] _ IH]; [done|]. apply IH. by apply (exit_step_progress _ _ _ Hi Hxy). Qed.

Lemma protocol_trans s1 s2 p s3 : protocol_steps s1 false s2 → protocol_steps s2 p s3 → protocol_steps s1 p s3.
Proof.
  intros H1 H2 c Hr Hc Hi. destruct (H1 c Hr Hc Hi) as (_ & Hr2 & c2 & Hc2 & Hs). destruct (H2 c2 Hr2 Hc2) as (Hp & Hr3 & c3 & Hc3 & Hs').
  { by eapply exit_steps_inv. }
  split_and!; [done..|]. exists c3. split; [done|]. by etrans.
Qed.

Lemma protocol_still s s' :
  exit_view s' = exit_view s → (is_Some (bw_messageRouter (wk_base s)) → is_Some (bw_messageRouter (wk_base s'))) → protocol_steps s false s'.
Proof. intros He Hr c Hrt Hc _. split_and!; [done|by apply Hr|]. exists c. by rewrite He. Qed.

Lemma protocol_bind {A B} (f : Go St A) (g : A → Go St B) s :
  protocol_steps s (panicked (f s).1) (f s).2 → (∀ a s1, protocol_steps s1 (panicked (g a s1).1) (g a s1).2) →
  protocol_steps s (panicked ((f ≫= g) s).1) ((f ≫= g) s).2.
Proof. intros Hf Hg. unfold mbind, GoM_bind. destruct (f s) as [[a|e|] s1]; [|done..]. by eapply protocol_trans. Qed.

Lemma exit_view_set c (s : St) : exit_view (set_exit_view c s) = Some c.
Proof. unfold exit_view. simpl. by destruct c. Qed.

(** A call of the exit controller that is a step of the protocol. *)
Lemma protocol_on_exit {A} (f : Go workerExitController A) (s : St) :
  (∀ c, exit_view s = Some c → exit_inv c → (f c).1 ≠ Panic ∧ ∃ out, exit_step c out (f c).2) →
  protocol_steps s (panicked (on_exit f s).1) (on_exit f s).2.
Proof.
  intros Hf c Hr Hc Hi. unfold on_exit. rewrite Hc. destruct (Hf c Hc Hi) as [Hp [out Hs]]. destruct (f c) as [r c']. simpl in *.
  split_and!; [by destruct r|done|]. exists c'. split; [apply exit_view_set|]. apply rtc_once. by exists out.
Qed.

Lemma protocol_onError err (s : St) : protocol_steps s (panicked (Worker_onError err s).1) (Worker_onError err s).2.
Proof.
  intros c Hr Hc Hi. unfold Worker_onError. assert (wk_err s = ec_errCenter c) as He.
  { unfold exit_view in Hc. repeat case_match; by simplify_eq. }
  rewrite He. destruct (ErrCenter_no_panic err (ec_errCenter c)) as [ec Hec]; [apply Hi|]. rewrite Hec. simpl. split_and!; [done..|].
  eexists. split; [|apply rtc_once; eexists; by eapply es_error]. unfold exit_view in *. simpl. repeat case_match; by simplify_eq.
Qed.

Lemma protocol_flags h w p (s : St) : protocol_steps s false (set_base (set_background h w p (wk_base s)) s).
Proof. by apply protocol_still. Qed.

Lemma stays_out_protocol {A} (f : Go St A) s : stays_out f → protocol_steps s (panicked (f s).1) (f s).2.
Proof. intros Hf. destruct (Hf s) as (Hp & He & Hr). destruct (f s) as [[?|?|] s']; [by apply protocol_still..|done]. Qed.

Lemma on_handlers_still {A} (f : Go (messageHandlerManagerImpl Srv) A) (s : St) :
  exit_view (on_handlers f s).2 = exit_view s ∧ bw_messageRouter (wk_base (on_handlers f s).2) = bw_messageRouter (wk_base s).
Proof. unfold on_handlers. by destruct (f _). Qed.

Lemma on_worker_db_still {A} (f : Go DB A) (s : St) :
  exit_view (on_worker_db f s).2 = exit_view s ∧ wk_base (on_worker_db f s).2 = wk_base s.
Proof. unfold on_worker_db. by destruct (f _). Qed.

Lemma routeMessage_protocol pooled topic msg s :
  impl_stays_out → pooled ≠ Panic → protocol_steps s (panicked (routeMessage impl pooled topic msg s).1) (routeMessage impl pooled topic msg s).2.
Proof.
  intros Hi Hp. unfold routeMessage. destruct pooled as [[]|e|]; [|by apply protocol_still|done].
  pose proof (stays_out_protocol _ s (iso_OnMasterMessage Hi topic msg)) as Hm.
  destruct (OnMasterMessage impl topic msg s) as [[?|err|] s']; simpl in *; [done| |done].
  intros c Hr Hc Hinv. destruct (Hm c Hr Hc Hinv) as (_ & [r Hr'] & c' & Hc' & Hs). rewrite Hr'. simpl. split_and!; [done|by eexists|].
  exists c'. split; [|done]. rewrite <- Hc'. by unfold exit_view.
Qed.

Lemma RouterTick_protocol env s :
  impl_stays_out → pe_pool env ≠ Panic → protocol_steps s (panicked (RouterTick impl env s).1) (RouterTick impl env s).2.
Proof.
  intros Hi Hp. unfold RouterTick. destruct (pe_tickErr env); [by apply protocol_still|].
  destruct (bw_messageRouter (wk_base s)) as [r|] eqn:Hr; [|by intros c [? ?]; rewrite Hr in *].
  destruct (mr_buffer r) as [|[topic msg] b]; [by apply protocol_still|].
  eapply protocol_trans; [|by apply routeMessage_protocol]. by apply protocol_still.
Qed.

(** The rest of a poll, after the exit controller. *)
Lemma doPoll_rest_protocol env s :
  impl_stays_out → pe_pool env ≠ Panic →
  let rest := _ ← on_handlers (λ h, HandlerManager_CheckError (pe_checkErr env) (ord (hm_topics h)) h); RouterTick impl env in
  protocol_steps s (panicked (rest s).1) (rest s).2.
Proof.
  intros Hi Hp rest. apply protocol_bind; [|intros _ s1; by apply RouterTick_protocol]. set (f := λ h, HandlerManager_CheckError _ _ h).
  assert ((on_handlers f s).1 ≠ Panic) as Hn.
  { unfold on_handlers, f. pose proof (CheckError_no_panic (pe_checkErr env) (ord (hm_topics (bw_messageHandlerManager (wk_base s)))) (bw_messageHandlerManager (wk_base s))).
    by destruct (HandlerManager_CheckError _ _ _). }
  destruct (on_handlers_still f s) as [He Hr]. destruct (on_handlers f s) as [[[]|e|] s1]; simpl in *; [| |done]; (apply protocol_still; [done|by rewrite Hr]).
Qed.

Lemma PollExit_step now c : ∃ out, exit_step c out (PollExit now c).2.
Proof.
  exists (Poll now (Done tt) (Done tt) c).1. assert ((PollExit now c).2 = (Poll now (Done tt) (Done tt) c).2) as ->; [|by constructor].
  unfold Poll. destruct (PollExit now c) as [[[]|e|] c']; [done| |done]. by case_match.
Qed.

Lemma Worker_doPoll_protocol env s :
  impl_stays_out → pe_pool env ≠ Panic → protocol_steps s (panicked (Worker_doPoll impl ord env s).1) (Worker_doPoll impl ord env s).2.
Proof.
  intros Hi Hp. apply protocol_bind; [|intros _ s1; by apply doPoll_rest_protocol].
  apply protocol_on_exit. intros c _ Hinv. split; [|apply PollExit_step]. by apply PollExit_progress.
Qed.

Lemma Worker_Poll_protocol env s :
  impl_stays_out → pe_pool env ≠ Panic → protocol_steps s (panicked (Worker_Poll impl ord env s).1) (Worker_Poll impl ord env s).2.
Proof.
  intros Hi Hp. unfold Worker_Poll. pose proof (Worker_doPoll_protocol env s Hi Hp) as Hd.
  destruct (Worker_doPoll impl ord env s) as [[[]|e|] s1]; simpl in Hd; [|by case_match|done].
  pose proof (stays_out_protocol _ s1 (iso_Tick Hi)) as Ht. destruct (WorkerImpl_Tick impl s1) as [[[]|err|] s2]; simpl in Ht.
  - by eapply protocol_trans.
  - eapply protocol_trans; [done|]. eapply protocol_trans; [done|]. apply protocol_onError.
  - by eapply protocol_trans.
Qed.

Lemma heartbeatTick_protocol mono sent (s : St) :
  sent ≠ Panic → protocol_steps s (panicked (heartbeatTick mono sent s).1) (heartbeatTick mono sent s).2.
Proof.
  intros Hs. unfold heartbeatTick. destruct (bw_heartbeat (wk_base s)); simpl; [|by apply protocol_still].
  destruct (exit_view s) as [c|] eqn:Hc; [|by intros c Hr Hc'; rewrite Hc in Hc']. unfold SendHeartBeat.
  destruct sent as [?|err|]; [by apply protocol_still| |done].
  set (s1 := set_base _ s). assert (protocol_steps s false s1) as H1 by by apply protocol_flags.
  pose proof (protocol_onError err s1) as He. destruct (Worker_onError err s1) as [[?|?|] s2]; simpl in *; exact (protocol_trans _ _ _ _ H1 He).
Qed.

Lemma refreshMaster_protocol mono s c :
  impl_stays_out → exit_view s = Some c →
  let m := ec_masterClient c in
  let sinceLastAcked := int64 (mono - mc_lastMasterAckedPingTime m) in
  let twice := int64 (2 * WorkerHeartbeatInterval (mc_timeoutConfig m)) in
  bool_decide (sinceLastAcked ≤ twice)%Z = false →
  bool_decide (twice < sinceLastAcked)%Z && bool_decide (sinceLastAcked < WorkerTimeoutDuration (mc_timeoutConfig m))%Z = true →
  protocol_steps s (panicked (refreshMaster impl s).1) (refreshMaster impl s).2.
Proof.
  intros Hi Hc m since twice H1 H2. unfold refreshMaster. assert (bw_masterClient (wk_base s) = Some m) as ->.
  { unfold exit_view in Hc. unfold m. repeat case_match; by simplify_eq. }
  set (f := Load (mc_masterID m)). destruct (on_worker_db_still f s) as [He Hb]. assert ((on_worker_db f s).1 ≠ Panic) as Hn.
  { unfold on_worker_db, f. pose proof (Load_spec (mc_masterID m) (wk_db s)) as Hl. destruct (Load _ _) as [[?|?|] ?]; done. }
  destruct (on_worker_db f s) as [[meta|err|] s1]; simpl in *; [| |done]; [|apply protocol_still; [done|by rewrite Hb]].
  eapply protocol_trans; [apply (protocol_still s s1); [done|by rewrite Hb]|]. rewrite <- He in Hc.
  match goal with |- context [on_exit ?g s1] => set (rf := g) end.
  assert (protocol_steps s1 (panicked (on_exit rf s1).1) (on_exit rf s1).2) as Hx.
  { apply protocol_on_exit. intros c0 Hc0 _. rewrite Hc in Hc0. injection Hc0 as <-. unfold rf. split; [by destruct (bool_decide (mc_masterEpoch _ < _)%Z)|].
    exists (Done tt). pose proof (es_watchdog c mono (Done meta) (Done tt)) as Hw. unfold watchDog, CheckMasterTimeout in Hw. fold m since twice in Hw.
    rewrite H1, H2 in Hw. simpl in *. fold m. destruct (bool_decide (mc_masterEpoch m < mm_Epoch meta)%Z); by apply Hw. }
  destruct (on_exit rf s1) as [[[]|e|] s2]; simpl in Hx; [|done|done]. eapply protocol_trans; [done|].
  destruct (bool_decide (mc_masterEpoch _ < _)%Z); [apply stays_out_protocol, Hi|by apply protocol_still].
Qed.

Lemma watchdogTick_protocol mono s :
  impl_stays_out → protocol_steps s (panicked (watchdogTick impl mono s).1) (watchdogTick impl mono s).2.
Proof.
  intros Hi. unfold watchdogTick. destruct (bw_watchdog (wk_base s)); simpl; [|by apply protocol_still].
  destruct (exit_view s) as [c|] eqn:Hc; [|by intros c Hr Hc'; rewrite Hc in Hc']. assert (bw_masterClient (wk_base s) = Some (ec_masterClient c)) as ->.
  { unfold exit_view in Hc. repeat case_match; by simplify_eq. }
  assert (∀ err (s' : St), protocol_steps s false s' →
    let s1 := set_base (set_background (bw_heartbeat (wk_base s')) false (bw_pool (wk_base s')) (wk_base s')) s' in
    protocol_steps s (panicked (Worker_onError err s1).1) (Worker_onError err s1).2) as Hstop.
  { intros err s' Hs' s1. eapply protocol_trans; [done|]. eapply (protocol_trans _ s1); [apply protocol_flags|apply protocol_onError]. }
  destruct (bool_decide (int64 (mono - _) ≤ _)%Z) eqn:H1; [by apply protocol_still|]. destruct (bool_decide (_ < int64 (mono - _))%Z && _) eqn:H2.
  - pose proof (refreshMaster_protocol mono s c Hi Hc H1 H2) as Hf. destruct (refreshMaster impl s) as [[[]|err|] s1]; simpl in *; [done| |done].
    by apply Hstop.
  - match goal with |- context [on_exit ?g s] => set (rf := g) end.
    assert (protocol_steps s (panicked (on_exit rf s).1) (on_exit rf s).2) as Hx.
    { apply protocol_on_exit. intros c0 Hc0 Hi0. rewrite Hc in Hc0. injection Hc0 as <-. unfold rf.
      pose proof (watchDog_progress mono (Fail (ErrForeign "")) (Done tt) c Hi0) as Hp.
      pose proof (es_watchdog c mono (Fail (ErrForeign "")) (Done tt)) as Hw. unfold watchDog, CheckMasterTimeout in Hw, Hp.
      rewrite H1, H2 in Hw, Hp. destruct c as [fsm t ec m]. simpl in *. destruct (ForceExit _ _); simpl in *; [|by destruct Hp].
      split; [done|]. eexists. by apply Hw. }
    destruct (on_exit rf s) as [[[]|e|] s1]; simpl in Hx; [by apply Hstop|done|done].
Qed.

Lemma on_status_still {A} (f : Go StatusState A) (s : St) :
  exit_view (on_status f s).2 = exit_view s ∧ bw_messageRouter (wk_base (on_status f s).2) = bw_messageRouter (wk_base s).
Proof. unfold on_status, exit_view. destruct (bw_masterClient (wk_base s)) eqn:Hm; [destruct (f _)|]; simpl; by rewrite ?Hm. Qed.

Lemma Base_UpdateStatus_protocol io code msg ext (s : St) :
  io_persist io ≠ Panic → io_send io ≠ Panic → is_Some (ss_store (bw_status (wk_base s)) !! ss_workerStatus (bw_status (wk_base s))) →
  protocol_steps s (panicked (Base_UpdateStatus io code msg ext s).1) (Base_UpdateStatus io code msg ext s).2.
Proof.
  intros Hio1 Hio2 [st Hst] c Hr Hc Hi. destruct (on_status_still (Worker_UpdateStatus io code msg ext) s) as [He Hrt].
  unfold Base_UpdateStatus. rewrite He, Hrt. split_and!; [|done|by exists c]. unfold on_status.
  assert (is_Some (bw_masterClient (wk_base s))) as [m ->] by (unfold exit_view in Hc; by repeat case_match; simplify_eq).
  unfold Worker_UpdateStatus, Writer_UpdateStatus, mutate_status. simpl. rewrite list_lookup_alter_eq, Hst. simpl.
  destruct (needs_persist _ _), (io_persist io) as [[]|?|], (io_send io) as [[]|?|]; done.
Qed.

Lemma worker_step_protocol s p s' : impl_stays_out → worker_step s p s' → protocol_steps s p s'.
Proof.
  intros Hi Hs. destruct Hs as [env|mono sent|mono|sender msg|value|io code msg ext].
  - by apply Worker_Poll_protocol.
  - by apply heartbeatTick_protocol.
  - by apply watchdogTick_protocol.
  - apply protocol_on_exit. intros c _ _. split; [done|]. exists (Done tt). apply es_pong.
  - unfold statusChangeHandler. destruct value as [msg|]; [|by apply protocol_still].
    destruct (bw_messageRouter (wk_base s)) eqn:Hr; [by apply protocol_still|]. intros c Hr'. rewrite Hr in Hr'. by destruct Hr'.
  - by apply Base_UpdateStatus_protocol.
Qed.

Lemma follows_step s p s' : impl_stays_out → worker_step s p s' → follows_exit s → p = false ∧ follows_exit s'.
Proof.
  intros Hi Hs (Hr & c & Hc & Hreach). destruct (worker_step_protocol s p s' Hi Hs c Hr Hc) as (Hp & Hr' & c' & Hc' & Hsteps); [by apply exit_reachable_inv|].
  split; [done|]. split; [done|]. exists c'. split; [done|]. destruct Hreach as [m Hm]. exists m. by etrans.
Qed.

(** *** Start-up *)

Lemma registerOrPanic_Done topic (h h' : messageHandlerManagerImpl Srv) :
  registerOrPanic topic h = (Done tt, h') →
  (∀ t, t ≠ topic → hm_topics h' !! t = hm_topics h !! t) ∧ is_Some (hm_topics h' !! topic).
Proof.
  unfold registerOrPanic, RegisterHandler, mbind, GoM_bind, get. destruct (hm_topics h !! topic); [done|]. unfold on_server.
  destruct (SyncAddHandler topic (hm_server h)) as [[[]|e|] srv]; [|done|done]. intros [= <-]. simpl. split.
  - intros t Ht. by rewrite lookup_insert_ne.
  - rewrite lookup_insert_eq. by eexists.
Qed.

Lemma initMessageHandlers_spec (s s' : St) :
  initMessageHandlers ord s = (Done tt, s') →
  let b := wk_base s in
  ∃ h, s' = set_base (mkBaseWorker (bw_id b) (bw_masterID b) h (bw_masterClient b) (bw_exit b) (bw_status b) (bw_messageRouter b)
                       (bw_heartbeat b) (bw_watchdog b) (bw_pool b)) s ∧
       is_Some (hm_topics h !! HeartbeatPongTopic (bw_masterID b) (bw_id b)) ∧
       is_Some (hm_topics h !! WorkerStatusChangeRequestTopic (bw_masterID b) (bw_id b)).
Proof.
  unfold initMessageHandlers, on_handlers. set (reg := mbind _ _). destruct (reg _) as [[[]|e|] h] eqn:Hreg; [| |done].
  2:{ destruct (logged_only _ _) as [[?|?|] ?]; done. }
  intros [= <-]. exists h. split; [done|]. unfold reg in Hreg. apply bind_inv_Done in Hreg as ([] & h1 & H1 & H2).
  apply registerOrPanic_Done in H1 as [_ H1], H2 as [Hk H2]. split; [|done].
  destruct (decide (HeartbeatPongTopic (bw_masterID (wk_base s)) (bw_id (wk_base s)) = WorkerStatusChangeRequestTopic (bw_masterID (wk_base s)) (bw_id (wk_base s)))) as [->|]; [done|].
  by rewrite Hk.
Qed.

Lemma doPreInit_spec mono submitTime (s s' : St) :
  doPreInit ord mono submitTime s = (Done tt, s') →
  wk_err s' = wk_err s ∧ is_Some (bw_messageRouter (wk_base s')) ∧ bw_heartbeat (wk_base s') = true ∧ bw_watchdog (wk_base s') = true ∧
  ∃ m meta, Load (bw_masterID (wk_base s)) (wk_db s) = (Done meta, wk_db s') ∧ mc_masterNode m = mm_NodeID meta ∧ mc_masterEpoch m = mm_Epoch meta ∧
    exit_view s' = Some (newWorkerExitController m (wk_err s)).
Proof.
  intros Hrun. unfold doPreInit in Hrun. apply bind_inv_Done in Hrun as ([] & s1 & [= <-] & Hrun).
  apply bind_inv_Done in Hrun as ([] & s2 & H2 & Hrun). apply initMessageHandlers_spec in H2 as (h & -> & _).
  unfold mbind, GoM_bind, get, on_worker_db in Hrun. simpl in Hrun. destruct (Load _ _) as [[meta|e|] db] eqn:Hl; [|done|done].
  simpl in Hrun. injection Hrun as <-. simpl. split_and!; [done|by eexists|done|done|]. eexists _, meta. split_and!; [| | |reflexivity]; done.
Qed.

End spec.

(** ** Theorems *)


(** C20: the handshake with which a failed worker ends. Its next poll enters the half
    exit, the next heartbeat tells the master it addresses that the worker is finished,
    the master marks it so, for its checker to take it offline, and answers; with the
    answer the worker stops, and reports the error. *)
Theorem exit_handshake_completes {DB Srv I} `{!Gorm DB, !HandlerRegistrar Srv} (impl : WorkerImpl (WorkerSt DB Srv I)) ord
    s c e env1 env2 mono now mb m p we sender node :
  exit_view s = Some c → ec_fsm c = workerNormal → errVal (wk_err s) = Some e → err_Equal ErrWorkerHalfExit (Some e) = false →
  bw_heartbeat (wk_base s) = true →
  bm_currentEpoch mb = mc_masterEpoch (ec_masterClient c) → bm_workerManager mb = Some m → wm_state m = workerManagerReady →
  wm_epoch m = bm_currentEpoch mb → workerEntries m !! mc_workerID (ec_masterClient c) = Some p → wm_heap m !! p = Some we →
  we_state we = workerEntryNormal →
  ∃ s1 ping s2 s3 mb' m' we',
    Worker_Poll impl ord env1 s = (Done tt, s1) ∧
    heartbeatTick mono (Done true) s1 = (Done (Some (mc_masterNode (ec_masterClient c), HeartbeatPingTopic (mc_masterID (ec_masterClient c)), ping)), s1) ∧
    pingHandler now (Done true) sender ping mb = (Done tt, mb') ∧
    bm_workerManager mb' = Some m' ∧ wm_heap m' !! p = Some we' ∧ IsFinished we' = true ∧ (∀ t, shouldGoOffline t we' = true) ∧
    pongHandler node (pongOf now mb ping) s1 = (Done tt, s2) ∧
    Worker_Poll impl ord env2 s2 = (Fail e, s3) ∧ option_map ec_fsm (exit_view s3) = Some workerExited.
Proof.
  intros Hc Hn He Hne Hhb Hep Hwm Hrdy Hwe Hent Hheap Hst. destruct c as [fsm t ec mc]. cbn [ec_fsm ec_masterClient] in *. subst fsm.
  assert (ec = wk_err s ∧ bw_exit (wk_base s) = Some (workerNormal, t) ∧ bw_masterClient (wk_base s) = Some mc) as (-> & Hx & Hmc).
  { unfold exit_view in Hc. repeat case_match; by simplify_eq. }
  set (s1 := set_exit_view (mkExitController workerHalfExit (pe_now env1) (wk_err s) mc) s).
  assert (Worker_Poll impl ord env1 s = (Done tt, s1)) as Hp1.
  { unfold Worker_Poll, Worker_doPoll, mbind, GoM_bind, on_exit. rewrite Hc. unfold PollExit, CheckError. cbn [ec_errCenter ec_fsm]. rewrite He. cbn -[err_Equal].
    unfold halfExitErr. by rewrite err_Equal_GoErr, bool_decide_eq_true_2. }
  set (ping := heartbeatMsg mono true mc). exists s1, ping.
  assert (heartbeatTick mono (Done true) s1 = (Done (Some (mc_masterNode mc, HeartbeatPingTopic (mc_masterID mc), ping)), s1)) as Hh.
  { unfold heartbeatTick. simpl. by rewrite Hhb. }
  set (we' := SetExpireTime (SetFinished we) (nextExpireTime now m)).
  assert (HandleHeartbeat now ping sender m = (Done tt, set_heap (<[p := we']> (wm_heap m)) m)) as Hhh.
  { unfold HandleHeartbeat, mbind, GoM_bind, get, checkMasterEpochMatch, load_entry, store_entry. rewrite Hrdy. simpl.
    rewrite Hwe, Hep. rewrite !bool_decide_eq_false_2 by lia. simpl. rewrite Hent, Hheap. simpl. rewrite Hst. done. }
  set (s2 := set_exit_view (mkExitController workerHalfExit (pe_now env1) (wk_err s) (masterClient_HandleHeartbeat node (pongOf now mb ping) mc)) s1).
  assert (mc_masterSideClosed (masterClient_HandleHeartbeat node (pongOf now mb ping) mc) = true) as Hclosed.
  { unfold masterClient_HandleHeartbeat, pongOf. simpl. rewrite Hep. by rewrite !bool_decide_eq_false_2 by lia. }
  set (s3 := set_exit_view (set_fsm workerExited (pe_now env1) (mkExitController workerHalfExit (pe_now env1) (wk_err s) (masterClient_HandleHeartbeat node (pongOf now mb ping) mc))) s2).
  exists s2, s3, (set_wm (set_heap (<[p := we']> (wm_heap m)) m) mb), (set_heap (<[p := we']> (wm_heap m)) m), we'.
  split_and!; try done.
  - unfold pingHandler, on_wm. by rewrite Hwm, Hhh.
  - simpl. rewrite list_lookup_insert_eq; [done|]. by eapply lookup_lt_Some.
  - intros t'. unfold shouldGoOffline. by rewrite orb_true_r.
  - unfold Worker_Poll, Worker_doPoll, mbind, GoM_bind, on_exit. unfold s2 at 1. rewrite exit_view_set. unfold PollExit, CheckError. cbn [ec_errCenter ec_fsm ec_masterClient].
    rewrite He, Hclosed. cbn -[err_Equal]. by rewrite Hne.
Qed.

Module Witness.

Import P2P.Witness.

Definition st0 : WorkerSt RefDB (gset string) unit :=
  mkWorkerSt NewErrCenter (NewBaseWorker (newMessageHandlerManager ∅) "w" "m" ∅) (StoreMasterMeta (Metastore.Witness.job "m") Metastore.Witness.db0).2 tt.
Definition idle : WorkerImpl (WorkerSt RefDB (gset string) unit) := mkWorkerImpl _ (mret tt) (mret tt) (mret tt) (λ _ _, mret tt) (mret tt).
Definition ord0 (m : gmap string (list (option goerr))) : list string := (map_to_list m).*1.
Definition io0 : io_result := mkIo (Done tt) (Done tt) 0.
Definition st1 : WorkerSt RefDB (gset string) unit := (Worker_Init idle ord0 0 None (Done tt) io0 st0).2.
Definition env0 : PollEnv := mkPollEnv 0 (λ _, None) None (Done tt).
Definition st2 : WorkerSt RefDB (gset string) unit := (Worker_Poll idle ord0 env0 st1).2.


(** The worker after a failed tick, and its master. *)
Definition e0 : goerr := ErrForeign "broken".
Definition st3 : WorkerSt RefDB (gset string) unit := (Worker_onError e0 st1).2.
Definition ctl : workerExitController := mkExitController workerNormal zeroTime (mkErrCenter (Some e0) true) (default (newMasterClient "" "" 0) (bw_masterClient (wk_base st3))).
Definition entry0 : workerEntry := newWorkerEntry "w" "ex" 0 workerEntryNormal None.
Definition manager0 : WorkerManager := mkWorkerManager [entry0] {["w" := 0]} workerManagerReady "m" 0 [] None true DefaultTimeoutConfig.
Definition master0 : DefaultBaseMaster := set_wm manager0 (NewBaseMaster "m" "node" "addr" (Metastore.Witness.job "m")).

Lemma exit_handshake_completes_witness :
  ∃ s1 ping s2 s3, Worker_Poll idle ord0 env0 st3 = (Done tt, s1) ∧
    pongHandler "node" (pongOf 0 master0 ping) s1 = (Done tt, s2) ∧ Worker_Poll idle ord0 env0 s2 = (Fail e0, s3).
Proof.
  destruct (exit_handshake_completes idle ord0 st3 ctl e0 env0 env0 5 0 master0 manager0 0 entry0 "ex" "node") as (s1 & ping & s2 & s3 & _ & _ & _ & Hp1 & _ & _ & _ & _ & _ & _ & Hpong & Hp2 & _);
    [vm_compute; reflexivity|reflexivity|vm_compute; reflexivity|reflexivity|vm_compute; reflexivity|vm_compute; reflexivity|reflexivity|reflexivity|reflexivity|vm_compute; reflexivity|reflexivity|reflexivity|].
  exists s1, ping, s2, s3. exact (conj Hp1 (conj Hpong Hp2)).
Defined.

End Witness.
