(* ===== verification/BaseJobMaster.v ===== *)
(** * The base of every job master ([lib/base_jobmaster.go])

    A job master is a base master for its workers and a base worker for the job manager;
    the two share the error center, the message handlers and the metastore. Its state is
    a [MasterSt] whose business part holds the base worker. *)

From S2P Require Import Prelude Errors Model Metastore JobFsm WorkerManager Worker Master P2P BaseWorker.

(** ** State *)

Abbreviation JobMasterSt DB Srv I := (MasterSt DB (DefaultBaseWorker Srv * I)).

Record JobMasterImpl (DB Srv I : Type) := mkJobMasterImpl {
  jmi_MasterImpl : MasterImpl DB (DefaultBaseWorker Srv * I);
  OnJobManagerFailover : Go (JobMasterSt DB Srv I) unit;
  OnJobManagerMessage : string → StatusChangeRequest → Go (JobMasterSt DB Srv I) unit;
}.
Arguments jmi_MasterImpl {DB Srv I}.
Arguments OnJobManagerFailover {DB Srv I}.
Arguments OnJobManagerMessage {DB Srv I}.

(** [NewBaseJobMaster]: the base master and the base worker with one error center. *)
Definition NewBaseJobMaster {DB Srv I : Type} (handlers : messageHandlerManagerImpl Srv) (masterID : MasterID) (workerID : WorkerID) (node : NodeID) (addr : string)
    (masterMeta : MasterMeta) (rows : gmap (MasterID * WorkerID) WorkerStatus) (db : DB) (i : I) : JobMasterSt DB Srv I :=
  mkMasterSt (NewBaseMaster workerID node addr masterMeta) db (NewBaseWorker handlers workerID masterID rows, i).

Section views.
Context {DB Srv I : Type}.
Abbreviation St := (JobMasterSt DB Srv I).
Abbreviation WSt := (WorkerSt DB Srv (DefaultBaseMaster * I)).

Definition set_errCenter (ec : ErrCenter) (b : DefaultBaseMaster) : DefaultBaseMaster :=
  mkBaseMaster (bm_id b) (bm_nodeID b) (bm_advertiseAddr b) (bm_timeoutConfig b) (bm_masterMeta b) (bm_currentEpoch b)
    (bm_workerManager b) ec (bm_closed b) (bm_createWorkerQuota b) (bm_creating b).

Definition to_worker (s : St) : WSt := mkWorkerSt (bm_errCenter (ms_base s)) (ms_impl s).1 (ms_db s) (ms_base s, (ms_impl s).2).
Definition of_worker (w : WSt) : St := mkMasterSt (set_errCenter (wk_err w) (wk_impl w).1) (wk_db w) (wk_base w, (wk_impl w).2).

(** A call of the base worker; and a method of the business logic seen from it. *)
Definition as_worker {A} (f : Go WSt A) : Go St A := λ s, let '(r, w) := f (to_worker s) in (r, of_worker w).
Definition from_worker {A} (f : Go St A) : Go WSt A := λ w, let '(r, s) := f (of_worker w) in (r, to_worker s).

(** A call of the shared handler manager by the base master. *)
Definition on_shared_handlers {A} (f : Go (messageHandlerManagerImpl Srv) A) : Go (DefaultBaseWorker Srv * I) A := λ '(b, i),
  let '(r, h) := f (bw_messageHandlerManager b) in
  (r, (mkBaseWorker (bw_id b) (bw_masterID b) h (bw_masterClient b) (bw_exit b) (bw_status b) (bw_messageRouter b)
         (bw_heartbeat b) (bw_watchdog b) (bw_pool b), i)).

End views.

(** ** Operations *)

Section job_master.
Context {DB Srv I : Type} `{!Gorm DB} `{!HandlerRegistrar Srv}.
Abbreviation St := (JobMasterSt DB Srv I).
Variable impl : JobMasterImpl DB Srv I.
Variable ord : gmap string (list (option goerr)) → list string.

(** The base master and the base worker never initialise, tick or close the business
    logic of a job master. *)
Definition jobMasterImplAsMasterImpl : MasterImpl DB (DefaultBaseWorker Srv * I) :=
  let inner := jmi_MasterImpl impl in
  {| InitImpl := panic; Impl_Tick := panic; OnMasterRecovered := OnMasterRecovered inner; OnWorkerDispatched := OnWorkerDispatched inner;
     OnWorkerOnline := OnWorkerOnline inner; OnWorkerOffline := OnWorkerOffline inner; OnWorkerStatusUpdated := OnWorkerStatusUpdated inner;
     CloseImpl := panic |}.

Definition jobMasterImplAsWorkerImpl : WorkerImpl (WorkerSt DB Srv (DefaultBaseMaster * I)) :=
  {| WorkerImpl_InitImpl := panic; WorkerImpl_Tick := panic; OnMasterFailover := from_worker (OnJobManagerFailover impl);
     OnMasterMessage topic msg := from_worker (OnJobManagerMessage impl topic msg); WorkerImpl_CloseImpl := panic |}.

(** [registerMessageHandlers] of the base master. *)
Definition registerMessageHandlers (id : MasterID) : Go (DefaultBaseWorker Srv * I) unit :=
  on_shared_handlers (_ ← registerOrPanic (HeartbeatPingTopic id); registerOrPanic (WorkerStatusTopic id)).

Definition with_registration (id : MasterID) (env : InitEnv (DefaultBaseWorker Srv * I)) : InitEnv (DefaultBaseWorker Srv * I) :=
  mkInitEnv (registerMessageHandlers id) (ie_workers env) (ie_order env) (ie_wait env) (ie_order2 env).

(** What start-up meets: the clock, the submit time of the runtime, the answers to the
    writes of the worker's status, and what the base master meets. *)
Record JobInitEnv := mkJobInitEnv {
  ji_mono : MonotonicTime;
  ji_submitTime : option Time;
  ji_upsert : res goerr unit;
  ji_io : io_result;
  ji_master : InitEnv (DefaultBaseWorker Srv * I);
}.

Definition JobMaster_Init (env : JobInitEnv) : Go St unit :=
  _ ← as_worker (doPreInit ord (ji_mono env) (ji_submitTime env));
  s ← get;
  isFirstStartUp ← doInit (with_registration (bm_id (ms_base s)) (ji_master env));
  _ ← (if isFirstStartUp : bool then
         _ ← InitImpl (jmi_MasterImpl impl);
         markStatusCodeInMetadata MasterStatusInit
       else OnMasterRecovered (jmi_MasterImpl impl));
  as_worker (Worker_doPostInit (ji_upsert env) (ji_io env)).

(** [doPoll] of the base master with the shared handlers, checked when the error center
    and the closed channel are quiet. *)
Definition JobMaster_masterPoll (checkErr : string → option goerr) (fuel : nat) : Go St unit := λ s,
  let b := ms_base s in
  match CheckError (bm_errCenter b), bm_closed b with
  | None, false =>
      match on_shared_handlers (λ h, HandlerManager_CheckError checkErr (ord (hm_topics h)) h) (ms_impl s) with
      | (Panic, i) => (Panic, mkMasterSt b (ms_db s) i)
      | (Fail err, i) => doPoll jobMasterImplAsMasterImpl (Some err) fuel (mkMasterSt b (ms_db s) i)
      | (Done _, i) => doPoll jobMasterImplAsMasterImpl None fuel (mkMasterSt b (ms_db s) i)
      end
  | _, _ => doPoll jobMasterImplAsMasterImpl None fuel s
  end.

Definition JobMaster_Poll (env : PollEnv) (checkErr : string → option goerr) (fuel : nat) : Go St unit := λ s,
  match JobMaster_masterPoll checkErr fuel s with
  | (Done _, s1) =>
      match as_worker (Worker_doPoll jobMasterImplAsWorkerImpl ord env) s1 with
      | (Panic, s2) => (Panic, s2)
      | (Fail err, s2) => if err_Equal ErrWorkerHalfExit (Some err) then (Done tt, s2) else (Fail err, s2)
      | (Done _, s2) => Impl_Tick (jmi_MasterImpl impl) s2
      end
  | out => out
  end.

(** [doClose] of the base master cleans the shared handlers; a failure is logged. *)
Definition JobMaster_masterClose : Go St unit :=
  _ ← on_base doClose;
  on_impl (λ i, match on_shared_handlers (CleanHandlers ord) i with
                | (Fail _, i') => (Done tt, i')
                | out => out
                end).

Definition JobMaster_Close : Go St unit :=
  _ ← CloseImpl (jmi_MasterImpl impl);
  _ ← JobMaster_masterClose;
  as_worker (Worker_doClose ord).

Definition JobMaster_OnError (err : goerr) : Go St unit := as_worker (Worker_onError err).

(** [UpdateJobStatus], and [UpdateStatus] which is the same. *)
Definition UpdateJobStatus (io : io_result) (code : Z) (msg ext : string) : Go St unit := as_worker (Base_UpdateStatus io code msg ext).

Definition JobMaster_Exit (io : io_result) (code : Z) (msg ext : string) (err : option goerr) : Go St unit :=
  _ ← (if bool_decide (code = WorkerStatusFinished) then markStatusCodeInMetadata MasterStatusFinished
       else if bool_decide (code = WorkerStatusStopped) then markStatusCodeInMetadata MasterStatusStopped
       else mret tt);
  as_worker (Base_Exit io code msg ext err).

Definition CurrentEpoch (s : St) : Epoch := bm_currentEpoch (ms_base s).
Definition JobMasterID (s : St) : MasterID := bm_id (ms_base s).

(** [handle.Status()] of a worker; a nil status is dereferenced. *)
Definition status_of (h : WorkerHandle) : Go St WorkerStatus := λ s,
  match bm_workerManager (ms_base s) with
  | None => (Panic, s)
  | Some m =>
      match handle_Status m h with
      | Done (Some st) => (Done st, s)
      | Done None => (Panic, s)
      | Fail e => (Fail e, s)
      | Panic => (Panic, s)
      end
  end.

End job_master.

(** ** Specification *)

(** The job has a live row with the given status. *)
Definition row_is {DB} `{!Gorm DB} (id : MasterID) (code : Z) (db : DB) : Prop :=
  ∃ meta, live (jobs db) id = Some meta ∧ mm_ID meta = id ∧ mm_StatusCode meta = code.

(** The base leaves the business logic alone. *)
Section impl.
Context {DB Srv I : Type} `{!Gorm DB} `{!HandlerRegistrar Srv}.
Abbreviation St := (JobMasterSt DB Srv I).

Lemma JobMaster_Exit_impl io code msg ext err (s : St) : (ms_impl (JobMaster_Exit io code msg ext err s).2).2 = (ms_impl s).2.
Proof.
  assert (∀ c, (ms_impl (markStatusCodeInMetadata c s).2).2 = (ms_impl s).2) as Hm.
  { intros c. unfold markStatusCodeInMetadata, mbind, GoM_bind, get, on_db. destruct (Load _ _) as [[m|e|] db]; [|done|done]. cbn [ms_db]. by destruct (Update _ _). }
  assert (∀ s1 : St, (ms_impl (as_worker (Base_Exit io code msg ext err) s1).2).2 = (ms_impl s1).2) as Hw.
  { intros s1. unfold as_worker, Base_Exit, on_status. destruct (bw_masterClient _); [|done]. by destruct (Exit _ _ _ _ _ _). }
  unfold JobMaster_Exit, mbind, GoM_bind. repeat case_bool_decide; [specialize (Hm MasterStatusFinished)|specialize (Hm MasterStatusStopped)|].
  - destruct (markStatusCodeInMetadata _ s) as [[[]|e|] s1]; [|done|done]. by rewrite Hw.
  - destruct (markStatusCodeInMetadata _ s) as [[[]|e|] s1]; [|done|done]. by rewrite Hw.
  - exact (Hw s).
Qed.

Lemma UpdateJobStatus_impl io code msg ext (s : St) : (ms_impl (UpdateJobStatus io code msg ext s).2).2 = (ms_impl s).2.
Proof.
  unfold UpdateJobStatus, as_worker, Base_UpdateStatus, on_status. destruct (bw_masterClient _); [|done]. by destruct (Worker_UpdateStatus _ _ _ _ _).
Qed.

End impl.

Section rows.
Context {DB : Type} `{!Gorm DB, !GormLaws DB}.
Variable id : MasterID.
(** Store errors do not read like the absence of a row: [IsNotFoundError] searches the
    text of the error. *)
Hypothesis store_errors : ∀ e (db db' : DB), first_where_id id db = (Fail e, db') →
  IsNotFoundError (Some (GoWrap ErrMetaOpFail (ErrForeign e))) = false.

Lemma row_unchanged code (db db' : DB) : unchanged db db' → row_is id code db → row_is id code db'.
Proof. intros [Hj _]. unfold row_is. by rewrite Hj. Qed.

Lemma Load_row code (db : DB) :
  row_is id code db →
  match Load id db with
  | (Done meta, db') => unchanged db db' ∧ live (jobs db) id = Some meta ∧ mm_ID meta = id ∧ mm_StatusCode meta = code
  | (Fail _, db') => unchanged db db'
  | (Panic, _) => False
  end.
Proof.
  intros (meta & Hl & Hid & Hc). pose proof (Load_spec id db) as Hs. pose proof (GetJobByID_spec id db) as Hg. revert Hs. unfold Load.
  destruct (GetJobByID id db) as [[m|e|] db'] eqn:Hget; [|destruct (IsNotFoundError (Some e)) eqn:Hnf; [|by auto]|done].
  - intros [Hu _]. destruct Hg as [Hg _]. rewrite Hl in Hg. injection Hg as <-. done.
  - intros _. exfalso. unfold GetJobByID, wrapOp, mbind, GoM_bind in Hget. pose proof (first_law id db) as [_ Hf].
    destruct (first_where_id id db) as [[[m|]|e'|] db1] eqn:Hfirst; cbn [fst] in Hf; [done|by rewrite Hl in Hf| |done].
    injection Hget as <- <-. by rewrite (store_errors _ _ _ Hfirst) in Hnf.
Qed.

Lemma Update_row code meta (db : DB) :
  row_is id code db → mm_ID meta = id →
  match Update meta db with
  | (Done _, db') => row_is id (mm_StatusCode meta) db'
  | (Fail _, db') => row_is id code db' ∨ row_is id (mm_StatusCode meta) db'
  | (Panic, _) => False
  end.
Proof.
  intros Hrow Hid. assert (Hr := Hrow). destruct Hrow as (old & Hl & _). unfold Update. pose proof (UpdateJob_spec meta db) as Hu. cbv zeta in Hu.
  assert (∀ db', jobs db' = rows_updated MasterMeta_Map meta (jobs db) → row_is id (mm_StatusCode meta) db') as Hnew.
  { intros db' Hj. exists meta. rewrite Hj, live_rows_updated, Hid, decide_True by done. by rewrite Hl. }
  destruct (UpdateJob (Some meta) db) as [[[]|e|] db']; [by apply Hnew, Hu| |done]. destruct Hu as [Hu|[Hu _]]; [left|right; by apply Hnew].
  by eapply row_unchanged.
Qed.

Context {I : Type}.

(** The master's own row keeps its status, and the master its id. *)
Definition at_status (code : Z) (s : MasterSt DB I) : Prop := bm_id (ms_base s) = id ∧ row_is id code (ms_db s).

Lemma on_base_still code {A} (f : Go DefaultBaseMaster A) : (∀ b, bm_id (f b).2 = bm_id b) → triple (at_status code) (on_base f) (λ _, at_status code).
Proof. intros Hf s [Hid Hr]. unfold on_base. specialize (Hf (ms_base s)). destruct (f (ms_base s)). split; [by rewrite <- Hid|done]. Qed.

Lemma refreshMetadata_row code :
  triple (at_status code) refreshMetadata
    (λ r s, match r with Done (isInit, _) => isInit = bool_decide (code = MasterStatusUninit) ∧ at_status code s | Fail _ => at_status code s | Panic => False end).
Proof.
  intros s [Hid Hr]. unfold refreshMetadata, mbind, GoM_bind, get, on_db. rewrite Hid.
  pose proof (Load_row code (ms_db s) Hr) as Hl. destruct (Load id (ms_db s)) as [[meta|e|] db1]; cbn [fst snd ms_base ms_db] in *; [| |done].
  2:{ split; [done|]. by eapply row_unchanged. }
  destruct Hl as (Hu & Hlive & Hmid & Hcode). pose proof (GenEpoch_spec db1) as Hg. destruct (GenEpoch db1) as [[ep|e|] db2]; cbn [fst snd ms_base ms_db] in *; [| |done].
  2:{ split; [done|]. destruct Hg as [Hg _]. unfold row_is. cbn [ms_db]. rewrite Hg. destruct Hu as [-> _]. by exists meta. }
  assert (row_is id code db2) as Hr2. { destruct Hg as [Hg _]. unfold row_is. rewrite Hg. destruct Hu as [-> _]. by exists meta. }
  set (meta' := mm_set_owner _ _ _ _). pose proof (Update_row code meta' db2 Hr2 Hmid) as Hup. assert (mm_StatusCode meta' = code) as Hc' by done.
  rewrite Hc' in Hup. destruct (Update meta' db2) as [[[]|e|] db3]; cbn [fst snd] in *; [| |done].
  - split; [by rewrite Hc'|]. split; [done|done].
  - split; [done|]. by destruct Hup.
Qed.

Lemma markStatus_row code code' :
  triple (at_status code) (markStatusCodeInMetadata code')
    (λ r s, match r with Done _ => at_status code' s | Fail _ => at_status code s ∨ at_status code' s | Panic => False end).
Proof.
  intros s [Hid Hr]. unfold markStatusCodeInMetadata, mbind, GoM_bind, get, on_db. rewrite Hid.
  pose proof (Load_row code (ms_db s) Hr) as Hl. destruct (Load id (ms_db s)) as [[meta|e|] db1]; cbn [fst snd ms_base ms_db] in *; [| |done].
  2:{ left. split; [done|]. by eapply row_unchanged. }
  destruct Hl as (Hu & _ & Hmid & _). apply (row_unchanged code (ms_db s) db1 Hu) in Hr.
  pose proof (Update_row code (mm_set_StatusCode meta code') db1 Hr Hmid) as Hup.
  destruct (Update _ db1) as [[[]|e|] db2]; cbn [fst snd] in *; [by split| |done]. destruct Hup; [left|right]; by split.
Qed.

(** A call that keeps the status, followed by others. *)
Lemma keeps_status_bind {A B} code (P : Prop) (f : Go (MasterSt DB I) A) (g : A → Go (MasterSt DB I) B) (Q : res goerr B → Prop) :
  triple (at_status code) f (λ _, at_status code) → (∀ e, Q (Fail e)) → Q Panic →
  (∀ a, triple (λ s, P ∧ at_status code s) (g a) (λ r s, Q r ∧ at_status code s)) →
  triple (λ s, P ∧ at_status code s) (f ≫= g) (λ r s, Q r ∧ at_status code s).
Proof.
  intros Hf Hq1 Hq2 Hg. eapply (triple_bind _ _ _ (λ _ s, P ∧ at_status code s)); [|exact Hg].
  intros s [HP Hs]. specialize (Hf s Hs). by destruct (f s) as [[a|e|] s1].
Qed.

Lemma markStatus_impl code (s : MasterSt DB I) : ms_impl (markStatusCodeInMetadata code s).2 = ms_impl s.
Proof.
  unfold markStatusCodeInMetadata, mbind, GoM_bind, get, on_db. destruct (Load _ (ms_db s)) as [[meta|e|] db1]; [|done..]. by destruct (Update _ _).
Qed.

Lemma markStatus_outcome old code s :
  at_status old s →
  match markStatusCodeInMetadata code s with
  | (Done _, s1) => at_status code s1
  | (Fail _, s1) => (at_status old s1 ∨ at_status code s1) ∧ ms_impl s1 = ms_impl s
  | (Panic, _) => False
  end.
Proof.
  intros Hs. pose proof (markStatus_row old code s Hs) as Hr. pose proof (markStatus_impl code s) as Hi.
  by destruct (markStatusCodeInMetadata code s) as [[[]|e|] s1].
Qed.

Lemma doInit_row code env :
  triple (at_status code) (doInit env)
    (λ r s, match r with Done isInit => isInit = bool_decide (code = MasterStatusUninit) | _ => True end ∧ at_status code s).
Proof.
  unfold doInit. eapply (triple_bind _ _ _ (λ '(i, _) s, i = bool_decide (code = MasterStatusUninit) ∧ at_status code s)).
  { intros s Hs. pose proof (refreshMetadata_row code s Hs) as Hr. by destruct (refreshMetadata s) as [[[i e]|e|] s1]. }
  intros [i e]. cbv beta iota. set (B := bool_decide (code = MasterStatusUninit)). set (Q := λ r : res goerr bool, match r with Done isInit => isInit = B | _ => True end).
  apply (keeps_status_bind code (i = B) _ _ Q); [by apply on_base_still|done|done|intros _].
  apply (keeps_status_bind code (i = B) _ _ Q); [by apply on_base_still|done|done|intros _].
  apply (keeps_status_bind code (i = B) _ _ Q); [|done|done|intros _].
  - intros s Hs. unfold on_impl. by destruct (ie_registered env (ms_impl s)).
  - destruct i; simpl; [by intros s [-> ?]|]. apply (keeps_status_bind code (false = B) _ _ Q); [|done|done|by intros _ s [-> ?]]. apply on_base_still. intros b. unfold on_wm.
    destruct (bm_workerManager b); [|done]. by destruct (InitAfterRecover _ _ _ _ _).
Qed.

End rows.

Section job_rows.
Context {DB Srv I : Type} `{!Gorm DB, !GormLaws DB} `{!HandlerRegistrar Srv}.
Abbreviation St := (JobMasterSt DB Srv I).

(** Calls of the base worker that leave the job table and the base master alone. *)
Definition off_table {A} (f : Go (WorkerSt DB Srv (DefaultBaseMaster * I)) A) : Prop :=
  ∀ w, unchanged (wk_db w) (wk_db (f w).2) ∧ wk_impl (f w).2 = wk_impl w.

Lemma unchanged_refl (db : DB) : unchanged db db.
Proof. done. Qed.

Lemma off_table_bind {A B} f (g : A → Go (WorkerSt DB Srv (DefaultBaseMaster * I)) B) : off_table f → (∀ a, off_table (g a)) → off_table (f ≫= g).
Proof.
  intros Hf Hg w. unfold mbind, GoM_bind. destruct (Hf w) as [Hu Hi]. destruct (f w) as [[a|e|] w1]; [|done..]. simpl in *.
  destruct (Hg a w1) as [Hu2 Hi2]. rewrite Hi2, Hi. split; [|done]. destruct Hu as [H1 H2], Hu2 as [H3 H4]. split; congruence.
Qed.

Lemma on_handlers_off {A} (f : Go (messageHandlerManagerImpl Srv) A) : off_table (on_handlers f).
Proof. intros w. unfold on_handlers. by destruct (f _). Qed.
Lemma on_status_off {A} (f : Go StatusState A) : off_table (on_status f).
Proof. intros w. unfold on_status. destruct (bw_masterClient _); [|done]. by destruct (f _). Qed.
Lemma on_exit_off {A} (f : Go workerExitController A) : off_table (on_exit f).
Proof. intros w. unfold on_exit. destruct (exit_view w); [|done]. by destruct (f _). Qed.
Lemma Load_off masterID : off_table (on_worker_db (Load masterID)).
Proof.
  intros w. unfold on_worker_db. pose proof (Load_spec masterID (wk_db w)) as Hl. destruct (Load masterID (wk_db w)) as [[m|e|] db']; simpl in *; [|done..].
  by destruct Hl.
Qed.

Lemma initMessageHandlers_off ord : off_table (initMessageHandlers ord).
Proof.
  intros w. unfold initMessageHandlers. set (reg := mbind _ _). pose proof (on_handlers_off reg w) as [Hu Hi].
  destruct (on_handlers reg w) as [[[]|e|] w1]; simpl in *; [done| |done]. unfold logged_only. pose proof (on_handlers_off (CleanHandlers ord) w1) as [Hu2 Hi2].
  destruct (on_handlers (CleanHandlers ord) w1) as [[[]|e2|] w2]; simpl in *; (split; [destruct Hu, Hu2; split; congruence|congruence]).
Qed.

Lemma doPreInit_off ord mono submitTime : off_table (doPreInit ord mono submitTime).
Proof.
  unfold doPreInit. apply off_table_bind; [done|intros _]. apply off_table_bind; [apply initMessageHandlers_off|intros _].
  apply off_table_bind; [done|intros s]. apply off_table_bind; [apply Load_off|intros meta]. apply on_exit_off.
Qed.

Lemma as_worker_still {A} id code (f : Go (WorkerSt DB Srv (DefaultBaseMaster * I)) A) :
  off_table f → triple (at_status id code) (as_worker f) (λ _, at_status id code).
Proof.
  intros Hf s [Hid Hr]. unfold as_worker. destruct (Hf (to_worker s)) as [Hu Hi]. destruct (f (to_worker s)) as [r w]. simpl in *. unfold at_status, of_worker. simpl.
  rewrite Hi. split; [done|]. by eapply row_unchanged.
Qed.

End job_rows.

(** ** Theorems *)

(** The business logic of a job is initialised until that has succeeded once. When a
    start-up ends well the job is no longer marked uninitialised; when the initialisation
    fails it still is, so that the next start-up tries again; and a job that is not is
    recovered, whatever its initialisation would do. *)
Theorem job_master_init_once {DB Srv I} `{!Gorm DB, !GormLaws DB, !HandlerRegistrar Srv} (impl : JobMasterImpl DB Srv I) ord env id code s r s' :
  (∀ e (db db' : DB), first_where_id id db = (Fail e, db') → IsNotFoundError (Some (GoWrap ErrMetaOpFail (ErrForeign e))) = false) →
  (∀ c, triple (at_status id c) (InitImpl (jmi_MasterImpl impl)) (λ _, at_status id c)) →
  (∀ c, triple (at_status id c) (OnMasterRecovered (jmi_MasterImpl impl)) (λ _, at_status id c)) →
  at_status id code s → JobMaster_Init impl ord env s = (r, s') →
  (r = Done tt → at_status id (if bool_decide (code = MasterStatusUninit) then MasterStatusInit else code) s') ∧
  (code = MasterStatusUninit → (∀ s, (InitImpl (jmi_MasterImpl impl) s).1 ≠ Done tt) → at_status id MasterStatusUninit s') ∧
  (code ≠ MasterStatusUninit → at_status id code s' ∧
     ∀ f, let m := jmi_MasterImpl impl in
          JobMaster_Init (mkJobMasterImpl _ _ _ (mkMasterImpl _ _ f (Impl_Tick m) (OnMasterRecovered m) (OnWorkerDispatched m) (OnWorkerOnline m) (OnWorkerOffline m)
                            (OnWorkerStatusUpdated m) (CloseImpl m)) (OnJobManagerFailover impl) (OnJobManagerMessage impl)) ord env s = (r, s')).
Proof.
  intros Hstore Hinit Hrec Hs. unfold JobMaster_Init. unfold mbind, GoM_bind, get.
  pose proof (as_worker_still id code _ (doPreInit_off (I:=I) ord (ji_mono env) (ji_submitTime env)) s Hs) as H1.
  destruct (as_worker (doPreInit _ _ _) s) as [[[]|e|] s1]; cbn [fst snd] in *; [|by intros [= <- <-]; split_and!; naive_solver..].
  pose proof (doInit_row id Hstore code (with_registration (bm_id (ms_base s1)) (ji_master env)) s1 H1) as [Hb H2].
  destruct (doInit _ s1) as [[b|e|] s2]; cbn [fst snd] in *; [|by intros [= <- <-]; split_and!; naive_solver..].
  assert (∀ c (s : JobMasterSt DB Srv I), at_status id c s → at_status id c (as_worker (Worker_doPostInit (ji_upsert env) (ji_io env)) s).2) as Hpost.
  { intros c s0 Hs0. apply (as_worker_still id c _ (on_status_off _) s0 Hs0). }
  subst b. case_bool_decide as Hc; subst.
  - pose proof (Hinit MasterStatusUninit s2 H2) as H3. destruct (InitImpl _ s2) as [[[]|e|] s3] eqn:Hii; cbn [fst snd] in *; [|by intros [= <- <-]; split_and!; naive_solver..].
    pose proof (markStatus_row id Hstore MasterStatusUninit MasterStatusInit s3 H3) as H4.
    destruct (markStatusCodeInMetadata MasterStatusInit s3) as [[[]|e|] s4]; cbn [fst snd] in *; [| |done].
    + intros Hrun. assert (s' = (as_worker (Worker_doPostInit (ji_upsert env) (ji_io env)) s4).2) as -> by (by rewrite Hrun).
      split_and!; [by intros _; apply Hpost| |done]. intros _ Hn. exfalso. apply (Hn s2). by rewrite Hii.
    + intros [= <- <-]. split_and!; [done| |done]. intros _ Hn. exfalso. apply (Hn s2). by rewrite Hii.
  - pose proof (Hrec code s2 H2) as H3. destruct (OnMasterRecovered _ s2) as [[[]|e|] s3] eqn:Hii; cbn [fst snd] in *.
    2, 3: intros [= <- <-]; split_and!; [done..|]; intros _; split; [done|]; intros f; cbn [jmi_MasterImpl OnMasterRecovered]; by rewrite Hii.
    intros Hrun. assert (s' = (as_worker (Worker_doPostInit (ji_upsert env) (ji_io env)) s3).2) as -> by (by rewrite Hrun).
    split_and!; [by intros _; apply Hpost|done|]. intros _. split; [by apply Hpost|]. intros f. cbn [jmi_MasterImpl OnMasterRecovered]. by rewrite Hii.
Qed.

(** A job master does not take leave of the job manager. When an error is recorded its
    next poll returns it at once, without entering the half exit of a worker, and an error
    of its tick ends it just so; its heartbeats still say that it is not finished. *)
Theorem job_master_stops_without_handshake {DB Srv I} `{!Gorm DB, !HandlerRegistrar Srv} (impl : JobMasterImpl DB Srv I) ord env checkErr fuel s e c :
  exit_view (to_worker s) = Some c → ec_fsm c = workerNormal → bw_heartbeat (ms_impl s).1 = true →
  (errVal (bm_errCenter (ms_base s)) = Some e → JobMaster_Poll impl ord env checkErr fuel s = (Fail e, s)) ∧
  (∀ s1 s2 s3, JobMaster_masterPoll impl ord checkErr fuel s = (Done tt, s1) →
     as_worker (Worker_doPoll (jobMasterImplAsWorkerImpl impl) ord env) s1 = (Done tt, s2) → Impl_Tick (jmi_MasterImpl impl) s2 = (Fail e, s3) →
     JobMaster_Poll impl ord env checkErr fuel s = (Fail e, s3)) ∧
  ∀ mono, ∃ ping, heartbeatTick mono (Done true) (to_worker s) =
     (Done (Some (mc_masterNode (ec_masterClient c), HeartbeatPingTopic (mc_masterID (ec_masterClient c)), ping)), to_worker s) ∧ ping_IsFinished ping = false.
Proof.
  intros Hc Hn Hhb. split_and!.
  - intros He. unfold JobMaster_Poll, JobMaster_masterPoll, doPoll, CheckError. by rewrite He.
  - intros s1 s2 s3 H1 H2 H3. unfold JobMaster_Poll. by rewrite H1, H2.
  - intros mono. eexists. unfold heartbeatTick. change (bw_heartbeat (wk_base (to_worker s))) with (bw_heartbeat (ms_impl s).1).
    rewrite Hhb, Hc. cbn [negb]. unfold SendHeartBeat, IsExiting. rewrite Hn. split; [reflexivity|]. done.
Qed.

(** C33: a job master that exits as finished or stopped has that recorded in the metadata
    of its job before it reports it: a report never precedes the record, and when the
    record fails nothing is reported. With another status the metadata stays. *)
Theorem job_master_exit_records {DB Srv I} `{!Gorm DB, !GormLaws DB, !HandlerRegistrar Srv} id old (s s' : JobMasterSt DB Srv I) io code msg ext err r :
  (∀ e (db db' : DB), first_where_id id db = (Fail e, db') → IsNotFoundError (Some (GoWrap ErrMetaOpFail (ErrForeign e))) = false) →
  at_status id old s → JobMaster_Exit io code msg ext err s = (r, s') →
  let recorded := if bool_decide (code = WorkerStatusFinished) then MasterStatusFinished
                  else if bool_decide (code = WorkerStatusStopped) then MasterStatusStopped else old in
  at_status id recorded s' ∨ at_status id old s' ∧ bw_status (ms_impl s').1 = bw_status (ms_impl s).1 ∧ ∃ e, r = Fail e.
Proof.
  intros Hstore Hs Hrun recorded. unfold JobMaster_Exit, mbind, GoM_bind in Hrun.
  set (mark := if bool_decide (code = WorkerStatusFinished) then _ else _) in Hrun.
  assert (match mark s with
          | (Done _, s1) => at_status id recorded s1
          | (Fail _, s1) => (at_status id old s1 ∨ at_status id recorded s1) ∧ ms_impl s1 = ms_impl s
          | (Panic, _) => False
          end) as Hm.
  { unfold mark, recorded. repeat case_bool_decide; [by apply markStatus_outcome..|done]. }
  destruct (mark s) as [[[]|e|] s1]; [| |done].
  - left. pose proof (as_worker_still id recorded _ (on_status_off (Exit io code msg ext err)) s1 Hm) as H1. unfold Base_Exit in Hrun. by rewrite Hrun in H1.
  - injection Hrun as <- <-. destruct Hm as [[Hm|Hm] Hi]; [right|by left]. rewrite Hi. eauto.
Qed.

Module Witness.

Import P2P.Witness.

Definition job0 : MasterMeta := Metastore.Witness.job "job".
Definition db0 : RefDB := (StoreMasterMeta job0 Metastore.Witness.db0).2.
Definition st0 : JobMasterSt RefDB (gset string) unit := NewBaseJobMaster (newMessageHandlerManager ∅) "manager" "job" "node" "addr" job0 ∅ db0 tt.
Definition impl0 : JobMasterImpl RefDB (gset string) unit :=
  mkJobMasterImpl _ _ _ (mkMasterImpl _ _ (mret tt) (mret tt) (mret tt) (λ _ _, mret tt) (λ _, mret tt) (λ _ _, mret tt) (λ _ _, mret tt) (mret tt)) (mret tt) (λ _ _, mret tt).
Definition ord0 (m : gmap string (list (option goerr))) : list string := (map_to_list m).*1.
Definition io0 : io_result := mkIo (Done tt) (Done tt) 0.
Definition env0 : JobInitEnv (Srv := gset string) (I := unit) := mkJobInitEnv 0 None (Done tt) io0 (mkInitEnv (mret tt) (Done []) [] (mret tt) (λ _, [])).
Definition st1 : JobMasterSt RefDB (gset string) unit := (JobMaster_Init impl0 ord0 env0 st0).2.

Lemma reads_answer (e : string) (db db' : RefDB) : first_where_id "job" db = (Fail e, db') → IsNotFoundError (Some (GoWrap ErrMetaOpFail (ErrForeign e))) = false.
Proof. discriminate. Defined.

Lemma st0_status : at_status "job" MasterStatusUninit st0.
Proof. split; [reflexivity|]. exists job0. split_and!; vm_compute; reflexivity. Defined.

Lemma job_master_init_once_witness : (JobMaster_Init impl0 ord0 env0 st0).1 = Done tt ∧ at_status "job" MasterStatusInit st1.
Proof.
  assert ((JobMaster_Init impl0 ord0 env0 st0).1 = Done tt) as Hr by (vm_compute; reflexivity). split; [exact Hr|].
  destruct (job_master_init_once impl0 ord0 env0 "job" MasterStatusUninit st0 (JobMaster_Init impl0 ord0 env0 st0).1 st1) as (H & _).
  - exact reads_answer.
  - intros c s Hs. exact Hs.
  - intros c s Hs. exact Hs.
  - exact st0_status.
  - apply surjective_pairing.
  - exact (H Hr).
Defined.

Definition penv0 : PollEnv := mkPollEnv 0 (λ _, None) None (Done tt).
Definition e0 : goerr := ErrForeign "broken".
Definition st2 : JobMasterSt RefDB (gset string) unit := (JobMaster_OnError e0 st1).2.
Definition ctl : workerExitController := mkExitController workerNormal zeroTime (bm_errCenter (ms_base st2)) (default (newMasterClient "" "" 0) (bw_masterClient (ms_impl st2).1)).

Lemma job_master_stops_without_handshake_witness : JobMaster_Poll impl0 ord0 penv0 (λ _, None) 1 st2 = (Fail e0, st2).
Proof.
  apply (job_master_stops_without_handshake impl0 ord0 penv0 (λ _, None) 1 st2 e0 ctl); vm_compute; reflexivity.
Defined.

Lemma st1_status : at_status "job" MasterStatusInit st1.
Proof. split; [vm_compute; reflexivity|]. eexists. split_and!; vm_compute; reflexivity. Defined.

Lemma job_master_exit_records_witness :
  at_status "job" MasterStatusFinished (JobMaster_Exit io0 WorkerStatusFinished "" "" None st1).2 ∨
  at_status "job" MasterStatusInit (JobMaster_Exit io0 WorkerStatusFinished "" "" None st1).2 ∧
  bw_status (ms_impl (JobMaster_Exit io0 WorkerStatusFinished "" "" None st1).2).1 = bw_status (ms_impl st1).1 ∧
  ∃ e, (JobMaster_Exit io0 WorkerStatusFinished "" "" None st1).1 = Fail e.
Proof.
  apply (job_master_exit_records "job" MasterStatusInit st1 (JobMaster_Exit io0 WorkerStatusFinished "" "" None st1).2 io0 WorkerStatusFinished "" "" None
    (JobMaster_Exit io0 WorkerStatusFinished "" "" None st1).1); [exact reads_answer|exact st1_status|apply surjective_pairing].
Defined.

End Witness.
