(* ===== verification/Rpc.v ===== *)
(** * RPC clients with failover and the hook of every RPC ([pkg/rpcutil], [client])

    [FailoverRPCClients] keeps one client per server master and a leader among them;
    [PreRPCHook] decides, before a request is served, whether it is served here, forwarded
    to the leader or refused. Dialing, the calls and what the hook reads while it waits
    are arguments. *)

From S2P Require Import Prelude Errors Model.

(** ** [pkg/rpcutil/client.go] *)

Record FailoverRPCClients (T : Type) := mkFailoverClients { fc_leader : string; fc_clients : gmap string T }.
Arguments mkFailoverClients {T}.
Arguments fc_leader {T}.
Arguments fc_clients {T}.

(** [strings.Replace(url, "http://", "", 1)] *)
Definition trimURL (url : string) : string :=
  match String.index 0 "http://" url with
  | Some i => String.substring 0 i url +:+ String.substring (i + 7) (String.length url - (i + 7)) url
  | None => url
  end.

Section clients.
Context {T : Type}.

(** The body of the loop over the addresses; [dialed] is the dialer's answer at this
    position of the list. *)
Definition update_addr (dialed : string → option T) (url : string) (st : gmap string T * gset string) : gmap string T * gset string :=
  let addr := trimURL url in
  let notFound := st.2 ∖ {[addr]} in
  match st.1 !! addr with
  | Some _ => (st.1, notFound)
  | None =>
      match dialed addr with
      | None => (st.1, notFound)
      | Some cli => (<[addr := cli]> st.1, notFound)
      end
  end.

Fixpoint update_addrs (dial : nat → string → option T) (i : nat) (urls : list string) (st : gmap string T * gset string) : gmap string T * gset string :=
  match urls with
  | [] => st
  | url :: urls => update_addrs dial (S i) urls (update_addr (dial i) url st)
  end.

(** [order] is the iteration order over the clients when a leader is picked. The result
    has the addresses whose connections were closed; an error of a close is logged. *)
Definition UpdateClients (dial : nat → string → option T) (urls : list string) (leaderURL : string) (order : gmap string T → list string)
    (c : FailoverRPCClients T) : FailoverRPCClients T * gset string :=
  let '(clients, notFound) := update_addrs dial 0 urls (fc_clients c, dom (fc_clients c)) in
  let clients := filter (λ kv, kv.1 ∉ notFound) clients in
  let leader := trimURL leaderURL in
  let leader := match clients !! leader with
                | Some _ => leader
                | None => match order clients with k :: _ => k | [] => "" end
                end in
  (mkFailoverClients leader clients, notFound).

Definition NewFailoverRPCClients (dial : nat → string → option T) (urls : list string) (order : gmap string T → list string) :
    res goerr (FailoverRPCClients T) :=
  let c := (UpdateClients dial urls "" order (mkFailoverClients "" ∅)).1 in
  if bool_decide (fc_clients c = ∅) then Fail (GoErr ErrGrpcBuildConn "failed to dial to master") else Done c.

Definition Endpoints (order : gmap string T → list string) (c : FailoverRPCClients T) : list string := order (fc_clients c).

(** [Done None] is the zero value of the client type. *)
Definition GetLeaderClient (c : FailoverRPCClients T) : res goerr (option T) :=
  if bool_decide (fc_leader c = "") then Done None else
  match fc_clients c !! fc_leader c with
  | Some cli => Done (Some cli)
  | None => Panic
  end.

(** The error of the last failed close is returned. *)
Definition Failover_Close (close : string → option goerr) (order : list string) : option goerr :=
  foldl (λ err addr, match close addr with Some e => Some e | None => err end) None order.

End clients.

(** The loop of [DoFailoverRPC], with the last error. *)
Fixpoint failover_calls {T S Resp} (rpc : T → Go S Resp) (last : goerr) (clients : list T) : Go S Resp := λ s,
  match clients with
  | [] => (Fail last, s)
  | cli :: rest =>
      match rpc cli s with
      | (Done resp, s') => (Done resp, s')
      | (Fail err, s') => failover_calls rpc err rest s'
      | (Panic, s') => (Panic, s')
      end
  end.

Definition DoFailoverRPC {T S Resp} (order : gmap string T → list string) (c : FailoverRPCClients T) (rpc : T → Go S Resp) : Go S Resp :=
  failover_calls rpc (GoErr ErrNoRPCClient "") (omap (λ addr, fc_clients c !! addr) (order (fc_clients c))).

(** ** [client/client_manager.go] *)

(** The zero value of [master] is nil. *)
Record ClientManager (T X : Type) := mkClientManager { cm_master : option (FailoverRPCClients T); cm_executors : gmap ExecutorID X }.
Arguments mkClientManager {T X}.
Arguments cm_master {T X}.
Arguments cm_executors {T X}.

Section client_manager.
Context {T X : Type}.

Definition NewClientManager : ClientManager T X := mkClientManager None ∅.

Definition ExecutorClient (id : ExecutorID) (c : ClientManager T X) : option X := cm_executors c !! id.

Definition AddMasterClient (dial : nat → string → option T) (addrs : list string) (order : gmap string T → list string) : Go (ClientManager T X) unit := λ c,
  match cm_master c with
  | Some _ => (Done tt, c)
  | None =>
      match NewFailoverRPCClients dial addrs order with
      | Done m => (Done tt, mkClientManager (Some m) (cm_executors c))
      | Fail err => (Fail err, mkClientManager None (cm_executors c))
      | Panic => (Panic, c)
      end
  end.

Definition AddExecutor (newExecutorClient : string → res goerr X) (id : ExecutorID) (addr : string) : Go (ClientManager T X) unit := λ c,
  match cm_executors c !! id with
  | Some _ => (Done tt, c)
  | None =>
      match newExecutorClient addr with
      | Done client => (Done tt, mkClientManager (cm_master c) (<[id := client]> (cm_executors c)))
      | Fail err => (Fail err, c)
      | Panic => (Panic, c)
      end
  end.

Definition AddExecutorClient (id : ExecutorID) (client : X) (c : ClientManager T X) : ClientManager T X :=
  mkClientManager (cm_master c) (<[id := client]> (cm_executors c)).

End client_manager.

(** ** [pkg/rpcutil/server.go] *)

Record Member := mkMember { m_IsServLeader : bool; m_IsEtcdLeader : bool; m_Name : string; m_AdvertiseAddr : string }.

(** [&Member{}] *)
Definition noMember : Member := mkMember false false "" "".

(** [LeaderClientWithLock]: nil until set. *)
Abbreviation LeaderClientWithLock T := (option (FailoverRPCClients T)).

(** The closing of a client that is held closes its connections and drops it. *)
Definition LeaderClient_Close {T} (close : string → option goerr) (order : list string) (l : LeaderClientWithLock T) : LeaderClientWithLock T * option goerr :=
  match l with
  | Some _ => (None, Failover_Close close order)
  | None => (None, None)
  end.

(** [CheckLeader] on what the atomic value holds. *)
Definition CheckLeader (lp : option Member) : option Member * bool :=
  match lp with
  | None => (None, false)
  | Some leader => (Some leader, negb (bool_decide (m_Name leader = "")))
  end.

(** What the hook reads while it waits: the leader at the i-th load, and whether the
    context is done at the i-th wait. *)
Record HookEnv (T : Type) := mkHookEnv {
  he_leader : nat → option Member;
  he_ctxDone : nat → bool;
  he_leaderCli : LeaderClientWithLock T;
  he_initialized : bool;
}.
Arguments mkHookEnv {T}.
Arguments he_leader {T}.
Arguments he_ctxDone {T}.
Arguments he_leaderCli {T}.
Arguments he_initialized {T}.

Section hook.
Context {T Resp : Type}.

(** The wait for a leader, [retry] more times; [None] when it is given up. *)
Fixpoint await_leader (env : HookEnv T) (i retry : nat) : option (option Member) :=
  match CheckLeader (he_leader env i) with
  | (leader, true) => Some leader
  | (_, false) =>
      match retry with
      | 0 => None
      | S retry => if he_ctxDone env i then None else await_leader env (S i) retry
      end
  end.

Definition isLeaderAndNeedForward (env : HookEnv T) (id : string) : bool * bool :=
  match await_leader env 0 10 with
  | None => (false, false)
  | Some leader =>
      let needForward := match he_leaderCli env with Some _ => true | None => false end in
      match leader with
      | None => (false, needForward)
      | Some l => (bool_decide (m_Name l = id), needForward)
      end
  end.

(** Serve the request here, or return a response and an error. *)
Inductive hook_result : Type :=
| Proceed
| ShouldRet (resp : Resp) (err : option goerr).

(** [call] is the RPC of the same name on the leader's client; the method of a nil client
    does not exist. *)
Definition forwardToLeader (env : HookEnv T) (id : string) (call : T → Resp * option goerr) (resp0 : Resp) : res goerr hook_result :=
  match isLeaderAndNeedForward env id with
  | (true, _) => Done Proceed
  | (false, true) =>
      match he_leaderCli env with
      | None => Done (ShouldRet resp0 (Some (GoErr ErrMasterRPCNotForward "")))
      | Some inner =>
          match GetLeaderClient inner with
          | Done (Some cli) => let '(resp, err) := call cli in Done (ShouldRet resp err)
          | Done None | Panic => Panic
          | Fail e => Fail e
          end
      end
  | (false, false) => Done (ShouldRet resp0 (Some (GoErr ErrMasterRPCNotForward "")))
  end.

(** [setErr] sets the field [Err] of the response, if it has one. *)
Definition checkInitialized (initialized : bool) (setErr : option (ErrorCode → Resp)) (resp0 : Resp) : hook_result :=
  if initialized then Proceed else
  match setErr with
  | None => ShouldRet resp0 (Some (GoErr ErrMasterNotInitialized ""))
  | Some set => ShouldRet (set ErrorCode_MasterNotReady) None
  end.

Definition PreRPC (env : HookEnv T) (id : string) (call : T → Resp * option goerr) (setErr : option (ErrorCode → Resp)) (resp0 : Resp) : res goerr hook_result :=
  match forwardToLeader env id call resp0 with
  | Done Proceed => Done (checkInitialized (he_initialized env) setErr resp0)
  | out => out
  end.

End hook.
Arguments hook_result : clear implicits.

(** ** Specification *)

(** A leader that the clients have, or no leader. *)
Definition leader_known {T} (c : FailoverRPCClients T) : Prop := fc_leader c = "" ∨ is_Some (fc_clients c !! fc_leader c).

(** Calls of the i-th positions. *)
Definition dialed_at {T} (dial : nat → string → option T) (i : nat) (urls : list string) (addr : string) : Prop :=
  ∃ j url, urls !! j = Some url ∧ trimURL url = addr ∧ is_Some (dial (i + j) addr).

Section lemmas.
Context {T : Type}.
Implicit Types c : FailoverRPCClients T.

Lemma update_addrs_spec (dial : nat → string → option T) i urls st :
  let '(clients, notFound) := update_addrs dial i urls st in
  notFound = st.2 ∖ list_to_set (trimURL <$> urls) ∧
  (∀ addr v, st.1 !! addr = Some v → clients !! addr = Some v) ∧
  (∀ addr, is_Some (clients !! addr) ↔ is_Some (st.1 !! addr) ∨ dialed_at dial i urls addr).
Proof.
  revert i st. induction urls as [|url urls IH]; intros i [clients notFound]; simpl.
  { split_and!; [set_solver|done|]. intros addr. split; [by left|]. intros [?|(j & ? & Hj & _)]; [done|]. by rewrite lookup_nil in Hj. }
  specialize (IH (S i) (update_addr (dial i) url (clients, notFound))).
  assert (∀ addr, dialed_at dial i (url :: urls) addr ↔ trimURL url = addr ∧ is_Some (dial i addr) ∨ dialed_at dial (S i) urls addr) as Hd.
  { intros addr. split.
    - intros ([|j] & u & Hj & Ht & Hs); simpl in Hj; [left|right].
      + injection Hj as ->. rewrite Nat.add_0_r in Hs. done.
      + exists j, u. by replace (S i + j) with (i + S j) by lia.
    - intros [[Ht Hs]|(j & u & Hj & Ht & Hs)]; [exists 0, url|exists (S j), u]; (split; [done|]); (split; [done|]).
      + by rewrite Nat.add_0_r.
      + by replace (i + S j) with (S i + j) by lia. }
  destruct (update_addrs dial (S i) urls _) as [clients' notFound']. destruct IH as (-> & Hkeep & Hin). unfold update_addr in *. simpl in *.
  split_and!.
  - destruct (clients !! trimURL url); [set_solver|]. destruct (dial i (trimURL url)); set_solver.
  - intros addr v Hv. apply Hkeep. destruct (clients !! trimURL url) eqn:Hc; [done|]. destruct (dial i (trimURL url)); [|done]. simpl.
    rewrite lookup_insert_ne; [done|]. intros <-. by rewrite Hc in Hv.
  - intros addr. rewrite Hin, Hd. destruct (clients !! trimURL url) eqn:Hc; simpl.
    + split; [naive_solver|]. intros [?|[[<- _]|?]]; [by left| |by right]. left. by eexists.
    + destruct (dial i (trimURL url)) eqn:Hdial; simpl.
      * destruct (decide (trimURL url = addr)) as [<-|Hne]; [rewrite lookup_insert_eq|rewrite lookup_insert_ne by done; naive_solver].
        split; [|naive_solver]. intros _. right. left. by rewrite Hdial.
      * split; [naive_solver|]. intros [?|[[<- [? Hs]]|?]]; [by left|by rewrite Hdial in Hs|by right].
Qed.

Lemma UpdateClients_leader dial urls leaderURL order c :
  (∀ m : gmap string T, iter_order m (order m)) → leader_known (UpdateClients dial urls leaderURL order c).1.
Proof.
  intros Ho. unfold UpdateClients, leader_known. destruct (update_addrs _ _ _ _) as [clients notFound]. simpl. set (clients' := filter _ clients).
  destruct (clients' !! trimURL leaderURL) eqn:Hl; [right; by rewrite Hl|]. destruct (order clients') as [|k ks] eqn:Hk; [by left|]. right.
  apply (iter_order_elem _ _ _ (Ho clients')). rewrite Hk. left.
Qed.

(** The addresses of the clients after an update. *)
Lemma UpdateClients_clients dial urls leaderURL order c addr :
  is_Some (fc_clients (UpdateClients dial urls leaderURL order c).1 !! addr) ↔
    addr ∈ trimURL <$> urls ∧ (is_Some (fc_clients c !! addr) ∨ dialed_at dial 0 urls addr).
Proof.
  unfold UpdateClients. pose proof (update_addrs_spec dial 0 urls (fc_clients c, dom (fc_clients c))) as Hs. destruct (update_addrs _ _ _ _) as [clients notFound].
  destruct Hs as (-> & _ & Hin). cbn [fst snd fc_clients] in *. unfold is_Some at 1. setoid_rewrite map_lookup_filter_Some. cbn [fst]. split.
  - intros (v & Hv & Hnf). assert (is_Some (clients !! addr)) as Hs by by eexists. apply Hin in Hs. split; [|done].
    destruct Hs as [Hold|(j & url & Hj & <- & _)]; [apply elem_of_dom in Hold|].
    { destruct (decide (addr ∈ trimURL <$> urls)); [done|]. exfalso. apply Hnf, elem_of_difference. by rewrite elem_of_list_to_set. }
    apply list_elem_of_fmap. exists url. split; [done|]. by eapply list_elem_of_lookup_2.
  - intros [Ha Hor]. apply Hin in Hor as [v Hv]. exists v. split; [done|]. intros [_ Hn]%elem_of_difference. by apply Hn, elem_of_list_to_set.
Qed.

End lemmas.

(** The clients are called one after another and all fail; the errors in order. *)
Inductive all_fail {T S Resp} (rpc : T → Go S Resp) : list T → S → list goerr → S → Prop :=
| af_nil s : all_fail rpc [] s [] s
| af_cons cli clients s err s1 errs s2 :
    rpc cli s = (Fail err, s1) → all_fail rpc clients s1 errs s2 → all_fail rpc (cli :: clients) s (err :: errs) s2.

(** The leader that the hook finds: the first one it loads, within ten waits. *)
Definition finds_leader {T} (env : HookEnv T) (i : nat) (l : Member) : Prop :=
  he_leader env i = Some l ∧ m_Name l ≠ "" ∧ ∀ j, j < i → (CheckLeader (he_leader env j)).2 = false ∧ he_ctxDone env j = false.

Lemma await_leader_spec {T} (env : HookEnv T) i retry :
  (∀ j, j < i → (CheckLeader (he_leader env j)).2 = false ∧ he_ctxDone env j = false) →
  match await_leader env i retry with
  | Some leader => ∃ k l, leader = Some l ∧ k ≤ i + retry ∧ finds_leader env k l
  | None => ∀ k l, k ≤ i + retry → ¬ finds_leader env k l
  end.
Proof.
  revert i. induction retry as [|retry IH]; intros i Hbefore; simpl.
  - destruct (CheckLeader (he_leader env i)) as [leader ex] eqn:Hc. destruct ex.
    + unfold CheckLeader in Hc. destruct (he_leader env i) as [l|] eqn:Hl; [|done]. injection Hc as <- Hn. apply negb_true_iff, bool_decide_eq_false in Hn.
      exists i, l. split_and!; [done|lia|]. split; [done|]. by split.
    + intros k l Hk (Hl & Hn & _). assert (k < i ∨ k = i) as [Hlt| ->] by lia.
      * destruct (Hbefore k Hlt) as [Hb _]. rewrite Hl in Hb. simpl in Hb. apply negb_false_iff, bool_decide_eq_true in Hb. done.
      * rewrite Hl in Hc. simpl in Hc. injection Hc as _ Hb. apply negb_false_iff, bool_decide_eq_true in Hb. done.
  - destruct (CheckLeader (he_leader env i)) as [leader ex] eqn:Hc. destruct ex.
    + unfold CheckLeader in Hc. destruct (he_leader env i) as [l|] eqn:Hl; [|done]. injection Hc as <- Hn. apply negb_true_iff, bool_decide_eq_false in Hn.
      exists i, l. split_and!; [done|lia|]. split; [done|]. by split.
    + destruct (he_ctxDone env i) eqn:Hd.
      * intros k l Hk (Hl & Hn & Hb). assert (k ≤ i ∨ i < k) as [Hle|Hlt] by lia; [|destruct (Hb i Hlt); congruence].
        assert ((CheckLeader (he_leader env k)).2 = false) as Hf by (destruct (decide (k = i)) as [->|]; [by rewrite Hc|apply Hbefore; lia]).
        rewrite Hl in Hf. simpl in Hf. apply negb_false_iff, bool_decide_eq_true in Hf. done.
      * replace (i + S retry) with (S i + retry) by lia. apply IH. intros j Hj.
        destruct (decide (j = i)) as [->|]; [by rewrite Hc|apply Hbefore; lia].
Qed.

Lemma finds_leader_unique {T} (env : HookEnv T) i l i' l' : finds_leader env i l → finds_leader env i' l' → i = i' ∧ l = l'.
Proof.
  assert (∀ a b la lb, finds_leader env a la → finds_leader env b lb → a < b → False) as Hlt.
  { intros a b la lb (Ha & Hn & _) (_ & _ & Hb) Hab. destruct (Hb a Hab) as [Hf _]. rewrite Ha in Hf. simpl in Hf. by apply negb_false_iff, bool_decide_eq_true in Hf. }
  intros H1 H2. assert (i < i' ∨ i' < i ∨ i = i') as [?|[?| ->]] by lia; [exfalso; eauto..|]. split; [done|]. destruct H1 as [H1 _], H2 as [H2 _]. congruence.
Qed.

Lemma isLeader_spec {T} (env : HookEnv T) id i l :
  i ≤ 10 → finds_leader env i l →
  isLeaderAndNeedForward env id = (bool_decide (m_Name l = id), match he_leaderCli env with Some _ => true | None => false end).
Proof.
  intros Hi Hf. unfold isLeaderAndNeedForward. pose proof (await_leader_spec env 0 10) as Ha. destruct (await_leader env 0 10) as [leader|].
  - destruct Ha as (k & l' & -> & _ & Hf'); [lia|]. by destruct (finds_leader_unique _ _ _ _ _ Hf Hf') as [_ <-].
  - exfalso. apply (Ha ltac:(lia) i l); [lia|done].
Qed.

(** ** Theorems *)

(** [UpdateClients] makes the clients those of the given addresses that were already
    connected or could be dialled, keeps the connected ones, closes exactly those that are
    no longer given, and leaves a leader that has a client: the given one if it does. *)
Theorem update_clients_exact {T} dial urls leaderURL order (c : FailoverRPCClients T) :
  (∀ m : gmap string T, iter_order m (order m)) →
  let '(c', closed) := UpdateClients dial urls leaderURL order c in
  (∀ addr, is_Some (fc_clients c' !! addr) ↔ addr ∈ trimURL <$> urls ∧ (is_Some (fc_clients c !! addr) ∨ dialed_at dial 0 urls addr)) ∧
  (∀ addr v, addr ∈ trimURL <$> urls → fc_clients c !! addr = Some v → fc_clients c' !! addr = Some v) ∧
  closed = dom (fc_clients c) ∖ list_to_set (trimURL <$> urls) ∧
  (is_Some (fc_clients c' !! trimURL leaderURL) → fc_leader c' = trimURL leaderURL) ∧
  (fc_clients c' ≠ ∅ → is_Some (fc_clients c' !! fc_leader c')) ∧ GetLeaderClient c' ≠ Panic.
Proof.
  intros Ho. pose proof (UpdateClients_leader dial urls leaderURL order c Ho) as Hk.
  pose proof (UpdateClients_clients dial urls leaderURL order c) as Hcl. unfold UpdateClients in *.
  pose proof (update_addrs_spec dial 0 urls (fc_clients c, dom (fc_clients c))) as Hs. destruct (update_addrs _ _ _ _) as [clients notFound].
  destruct Hs as (-> & Hkeep & Hin). cbn [fst snd fc_clients fc_leader] in *. set (clients' := filter _ clients) in *.
  assert (∀ addr v, clients' !! addr = Some v ↔ clients !! addr = Some v ∧ addr ∉ dom (fc_clients c) ∖ list_to_set (trimURL <$> urls)) as Hf.
  { intros addr v. unfold clients'. by rewrite map_lookup_filter_Some. }
  assert (∀ addr, addr ∈ trimURL <$> urls → addr ∉ dom (fc_clients c) ∖ list_to_set (trimURL <$> urls)) as Hgiven.
  { intros addr Ha [_ Hn]%elem_of_difference. by apply Hn, elem_of_list_to_set. }
  split_and!; [| |done| | |].
  - intros addr. apply Hcl.
  - intros addr v Ha Hv. apply Hf. split; [by apply Hkeep|]. by apply Hgiven.
  - intros [v Hv]. by rewrite Hv.
  - intros Hne. destruct (clients' !! trimURL leaderURL) eqn:Hl; [by rewrite Hl|]. pose proof (Ho clients') as Hoc.
    destruct (order clients') as [|k ks] eqn:Hord.
    + exfalso. apply Hne. apply map_eq. intros a. rewrite lookup_empty. apply eq_None_not_Some. intros Ha.
      apply (iter_order_elem _ _ _ Hoc) in Ha. by apply elem_of_nil in Ha.
    + apply (iter_order_elem _ _ _ Hoc). left.
  - unfold GetLeaderClient. cbn [fc_leader fc_clients]. case_bool_decide; [done|]. destruct Hk as [Hk|[v Hv]]; [done|]. cbn [fc_leader fc_clients] in Hv. by rewrite Hv.
Qed.

(** A failover call tries the clients one after another: it answers with the first
    that succeeds, after those before it failed, and fails, with the last error, only
    when every client was tried and failed, or there is none. *)
Theorem failover_tries_all {T S Resp} order (c : FailoverRPCClients T) (rpc : T → Go S Resp) s :
  let clients := omap (λ addr, fc_clients c !! addr) (order (fc_clients c)) in
  match DoFailoverRPC order c rpc s with
  | (Done resp, s') => ∃ before cli after s1 errs, clients = before ++ cli :: after ∧ all_fail rpc before s errs s1 ∧ rpc cli s1 = (Done resp, s')
  | (Fail err, s') => ∃ errs, all_fail rpc clients s errs s' ∧ err = default (GoErr ErrNoRPCClient "") (last errs)
  | (Panic, s') => ∃ before cli after s1 errs, clients = before ++ cli :: after ∧ all_fail rpc before s errs s1 ∧ rpc cli s1 = (Panic, s')
  end.
Proof.
  intros clients. unfold DoFailoverRPC. fold clients. clearbody clients. generalize (GoErr ErrNoRPCClient "") as e0. revert s.
  induction clients as [|cli clients IH]; intros s e0; simpl; [exists []; by split; [constructor|]|].
  destruct (rpc cli s) as [[resp|err|] s1] eqn:Hr; [by exists [], cli, clients, s, []; split_and!; [|constructor|]| |by exists [], cli, clients, s, []; split_and!; [|constructor|]].
  specialize (IH s1 err). destruct (failover_calls rpc err clients s1) as [[resp|e|] s2].
  - destruct IH as (b & c' & a & s3 & errs & -> & Hf & Hd). exists (cli :: b), c', a, s3, (err :: errs). split_and!; [done| |done]. by econstructor.
  - destruct IH as (errs & Hf & ->). exists (err :: errs). split; [by econstructor|]. destruct errs as [|e errs]; [done|].
    rewrite last_cons_cons. by destruct (proj2 (last_is_Some (e :: errs))) as [? ->].
  - destruct IH as (b & c' & a & s3 & errs & -> & Hf & Hd). exists (cli :: b), c', a, s3, (err :: errs). split_and!; [done| |done]. by econstructor.
Qed.

(** A request is served by a server only when it finds itself to be the leader and is
    initialised. A server that finds another leader, and has clients for it, returns what
    that leader answers, and nothing is served here; with no leader within ten waits, or
    no client, the request is refused. *)
Theorem pre_rpc_outcomes {T Resp} (env : HookEnv T) id (call : T → Resp * option goerr) setErr resp0 :
  (PreRPC env id call setErr resp0 = Done Proceed ↔ he_initialized env = true ∧ ∃ i l, i ≤ 10 ∧ finds_leader env i l ∧ m_Name l = id) ∧
  (∀ i l inner cli, i ≤ 10 → finds_leader env i l → m_Name l ≠ id → he_leaderCli env = Some inner → GetLeaderClient inner = Done (Some cli) →
     PreRPC env id call setErr resp0 = Done (ShouldRet (call cli).1 (call cli).2)) ∧
  ((∀ i l, i ≤ 10 → ¬ finds_leader env i l) ∨ (∃ i l, i ≤ 10 ∧ finds_leader env i l ∧ m_Name l ≠ id) ∧ he_leaderCli env = None →
     PreRPC env id call setErr resp0 = Done (ShouldRet resp0 (Some (GoErr ErrMasterRPCNotForward "")))).
Proof.
  assert ((∀ i l, i ≤ 10 → ¬ finds_leader env i l) → isLeaderAndNeedForward env id = (false, false)) as Hnone.
  { intros Hn. unfold isLeaderAndNeedForward. pose proof (await_leader_spec env 0 10) as Ha. destruct (await_leader env 0 10) as [leader|]; [|done].
    destruct Ha as (k & l & _ & Hk & Hf); [lia|]. exfalso. by apply (Hn k l). }
  unfold PreRPC, forwardToLeader. split_and!.
  - split.
    + pose proof (await_leader_spec env 0 10) as Ha. destruct (await_leader env 0 10) as [leader|] eqn:Haw.
      * destruct Ha as (k & l & -> & Hk & Hf); [lia|]. rewrite (isLeader_spec env id k l) by done. case_bool_decide as Hid.
        -- unfold checkInitialized. destruct (he_initialized env); [by eauto 6|]. by destruct setErr.
        -- destruct (he_leaderCli env) as [inner|]; [|done]. destruct (GetLeaderClient inner) as [[cli|]|e|]; try done. by destruct (call cli).
      * rewrite Hnone; [done|]. intros i l Hi. apply Ha; lia.
    + intros [Hin (i & l & Hi & Hf & Hid)]. rewrite (isLeader_spec env id i l), bool_decide_eq_true_2 by done. unfold checkInitialized. by rewrite Hin.
  - intros i l inner cli Hi Hf Hid Hcli Hg. rewrite (isLeader_spec env id i l), bool_decide_eq_false_2 by done. rewrite Hcli, Hg. by destruct (call cli).
  - intros [Hn|[(i & l & Hi & Hf & Hid) Hcli]]; [by rewrite Hnone|]. by rewrite (isLeader_spec env id i l), bool_decide_eq_false_2, Hcli by done.
Qed.

Module Witness.

Definition order0 {T} (m : gmap string T) : list string := (map_to_list m).*1.
Definition dial0 (i : nat) (addr : string) : option nat := if bool_decide (addr = "down") then None else Some i.

Lemma update_clients_exact_witness :
  GetLeaderClient (UpdateClients dial0 ["http://a"; "down"; "b"] "http://b" order0 (mkFailoverClients "old" {["old" := 7]})).1 ≠ Panic.
Proof.
  pose proof (update_clients_exact dial0 ["http://a"; "down"; "b"] "http://b" order0 (mkFailoverClients "old" {["old" := 7]}) (λ m, iter_order_keys m)) as H.
  destruct (UpdateClients _ _ _ _ _) as [c closed]. destruct H as (_ & _ & _ & _ & _ & H). exact H.
Defined.

End Witness.
