(* ===== verification/ServerMaster.v ===== *)
(** * The server master ([servermaster/server.go], [campaign.go], [member.go],
    [failover.go], [metastore_manager.go], [servermaster/cluster])

    The RPC handlers, composed of the hook of [Rpc] with the job manager, the executor
    manager and the scheduler; the service a leader runs, with the order in which its
    parts are set up and taken down; the loop that campaigns for leadership; and the list
    of the members. What etcd answers is an argument. A handler reads the flag of the
    initialisation and serves the request in one step. *)

From S2P Require Import Prelude Errors Model Metastore JobFsm WorkerManager Worker Master JobManager Cluster Rpc.

(** ** State *)

(** Where the goroutine of [leaderLoop] is: outside of [runLeaderService], before the job
    manager is up, and in its loop. *)
Inductive leader_phase : Type := NotLeading | Starting | Leading.

#[global] Instance leader_phase_eq_dec : EqDecision leader_phase.
Proof. solve_decision. Defined.

(** The job manager with its base master; the job table is that of the server. The type
    parameters are the table and the two RPC clients. *)
Record Server (DB T X : Type) := mkServer {
  sv_id : string;
  sv_AdvertiseAddr : string;
  sv_leader : option Member;
  sv_members : list Member;
  sv_masterCli : LeaderClientWithLock T;
  sv_resourceCli : LeaderClientWithLock X;
  sv_executorManager : ExecutorManagerImpl;
  sv_jobManager : option (DefaultBaseMaster * JobManagerImplV2);
  sv_leaderInitialized : bool;
  sv_phase : leader_phase;
  sv_db : DB;
}.
Arguments mkServer {DB T X}.
Arguments sv_id {DB T X}.
Arguments sv_AdvertiseAddr {DB T X}.
Arguments sv_leader {DB T X}.
Arguments sv_members {DB T X}.
Arguments sv_masterCli {DB T X}.
Arguments sv_resourceCli {DB T X}.
Arguments sv_executorManager {DB T X}.
Arguments sv_jobManager {DB T X}.
Arguments sv_leaderInitialized {DB T X}.
Arguments sv_phase {DB T X}.
Arguments sv_db {DB T X}.

(** [NewServer]; [id] is the etcd name and a fresh uuid. *)
Definition NewServer {DB T X : Type} (id addr : string) (ttl : Duration) (db : DB) : Server DB T X :=
  mkServer id addr None [] None None (NewExecutorManagerImpl ttl) None false NotLeading db.

Section lift.
Context {DB T X : Type}.
Abbreviation St := (Server DB T X).

Definition set_leader (m : Member) (s : St) : St :=
  mkServer (sv_id s) (sv_AdvertiseAddr s) (Some m) (sv_members s) (sv_masterCli s) (sv_resourceCli s) (sv_executorManager s)
    (sv_jobManager s) (sv_leaderInitialized s) (sv_phase s) (sv_db s).
Definition set_members (l : list Member) (s : St) : St :=
  mkServer (sv_id s) (sv_AdvertiseAddr s) (sv_leader s) l (sv_masterCli s) (sv_resourceCli s) (sv_executorManager s)
    (sv_jobManager s) (sv_leaderInitialized s) (sv_phase s) (sv_db s).
Definition set_clients (m : LeaderClientWithLock T) (r : LeaderClientWithLock X) (s : St) : St :=
  mkServer (sv_id s) (sv_AdvertiseAddr s) (sv_leader s) (sv_members s) m r (sv_executorManager s)
    (sv_jobManager s) (sv_leaderInitialized s) (sv_phase s) (sv_db s).
Definition set_executors (e : ExecutorManagerImpl) (s : St) : St :=
  mkServer (sv_id s) (sv_AdvertiseAddr s) (sv_leader s) (sv_members s) (sv_masterCli s) (sv_resourceCli s) e
    (sv_jobManager s) (sv_leaderInitialized s) (sv_phase s) (sv_db s).
Definition set_jobManager (jm : option (DefaultBaseMaster * JobManagerImplV2)) (db : DB) (s : St) : St :=
  mkServer (sv_id s) (sv_AdvertiseAddr s) (sv_leader s) (sv_members s) (sv_masterCli s) (sv_resourceCli s) (sv_executorManager s)
    jm (sv_leaderInitialized s) (sv_phase s) db.
Definition set_initialized (b : bool) (ph : leader_phase) (s : St) : St :=
  mkServer (sv_id s) (sv_AdvertiseAddr s) (sv_leader s) (sv_members s) (sv_masterCli s) (sv_resourceCli s) (sv_executorManager s)
    (sv_jobManager s) b ph (sv_db s).

Definition on_executors {A} (f : Go ExecutorManagerImpl A) : Go St A := λ s,
  let '(r, e) := f (sv_executorManager s) in (r, set_executors e s).

(** A call of the job manager, a nil dereference when there is none. *)
Definition on_jobManager {A} (f : Go (JmSt DB) A) : Go St A := λ s,
  match sv_jobManager s with
  | None => (Panic, s)
  | Some (b, i) => let '(r, st) := f (mkMasterSt b (sv_db s) i) in (r, set_jobManager (Some (ms_base st, ms_impl st)) (ms_db st) s)
  end.

End lift.

(** ** RPC handlers *)

Section handlers.
Context {DB T X : Type} `{!Gorm DB}.
Abbreviation St := (Server DB T X).

(** What the hook meets while it waits for a leader. *)
Record Waits := mkWaits { wt_leader : nat → option Member; wt_ctxDone : nat → bool }.

Definition masterRPCHook (w : Waits) (s : St) : HookEnv T :=
  mkHookEnv (wt_leader w) (wt_ctxDone w) (sv_masterCli s) (sv_leaderInitialized s).

(** The prologue of a handler: a response and an error, or the request is served. *)
Definition serve {Resp} (w : Waits) (call : T → Resp * option goerr) (setErr : option (ErrorCode → Resp)) (resp0 : Resp)
    (local : Go St (Resp * option goerr)) : Go St (Resp * option goerr) := λ s,
  match PreRPC (masterRPCHook w s) (sv_id s) call setErr resp0 with
  | Done Proceed => local s
  | Done (ShouldRet resp err) => (Done (resp, err), s)
  | Fail err => (Fail err, s)
  | Panic => (Panic, s)
  end.

Record HeartbeatResponse := mkHeartbeatResponse { hbr_Err : option ErrorCode; hbr_Leader : string; hbr_Addrs : list string }.

(** The response is nil with an error. *)
Definition Server_Heartbeat (w : Waits) (call : T → option HeartbeatResponse * option goerr) (now : Time) (req : HeartbeatRequest) :
    Go St (option HeartbeatResponse * option goerr) :=
  serve w call (Some (λ c, Some (mkHeartbeatResponse (Some c) "" []))) (Some (mkHeartbeatResponse None "" []))
    (λ s, match on_executors (Cluster.HandleHeartbeat now req) s with
          | (Done (Some err), s') => (Done (Some (mkHeartbeatResponse (ToPBError (Some err)) "" []), None), s')
          | (Done None, s') =>
              let leader := match CheckLeader (sv_leader s') with (Some l, true) => m_AdvertiseAddr l | _ => "" end in
              (Done (Some (mkHeartbeatResponse None leader (m_AdvertiseAddr <$> sv_members s')), None), s')
          | (Fail err, s') => (Done (None, Some err), s')
          | (Panic, s') => (Panic, s')
          end).

(** A response of the job manager comes without an error. *)
Definition answered {A} (f : Go St A) : Go St (A * option goerr) := resp ← f; mret (resp, None).

Section jobs.
Variable cvsDecodes : string → bool.
Variable tomlEncode jsonMarshal : WorkerConfig Empty_set → res goerr string.
Variable newUUID : MasterMeta → WorkerID.

Definition Server_SubmitJob (w : Waits) (call : T → SubmitJobResponse * option goerr) (id : MasterID) (req : SubmitJobRequest) : Go St (SubmitJobResponse * option goerr) :=
  serve w call (Some (λ c, mkSubmitJobResponse (Some c) "")) (mkSubmitJobResponse None "")
    (answered (on_jobManager (SubmitJob cvsDecodes tomlEncode jsonMarshal newUUID id req))).

End jobs.

Definition emptyQueryResponse : QueryJobResponse := mkQueryJobResponse 0 "" JobStatus_init None None.

Definition Server_QueryJob (w : Waits) (call : T → QueryJobResponse * option goerr) (id : MasterID) : Go St (QueryJobResponse * option goerr) :=
  serve w call (Some (λ c, mkQueryJobResponse 0 "" JobStatus_init (Some c) None)) emptyQueryResponse
    (answered (on_jobManager (JobManager_QueryJob id))).

(** The response of a cancellation and of a pause is its error. *)
Definition Server_CancelJob (w : Waits) (call : T → option ErrorCode * option goerr) (id : MasterID) : Go St (option ErrorCode * option goerr) :=
  serve w call (Some Some) None (answered (on_jobManager (CancelJob id))).

Definition Server_PauseJob (w : Waits) (call : T → option ErrorCode * option goerr) (mono : MonotonicTime) (sent : option goerr) (id : MasterID) :
    Go St (option ErrorCode * option goerr) :=
  serve w call (Some Some) None
    (answered (on_jobManager (λ st, match PauseJob mono sent id st with
                                    | Done (resp, _) => (Done resp, st)
                                    | Fail e => (Fail e, st)
                                    | Panic => (Panic, st)
                                    end))).

Record RegisterExecutorResponse := mkRegisterResponse { rer_Err : option ErrorCode; rer_ExecutorId : ExecutorID }.

Definition Server_RegisterExecutor (w : Waits) (call : T → RegisterExecutorResponse * option goerr) (now : Time) (newID : ExecutorID) (address : string) (capability : Z) :
    Go St (RegisterExecutorResponse * option goerr) :=
  serve w call (Some (λ c, mkRegisterResponse (Some c) "")) (mkRegisterResponse None "")
    (λ s, match on_executors (AllocateNewExec now newID address capability) s with
          | (Done execInfo, s') => (Done (mkRegisterResponse None (ni_ID execInfo), None), s')
          | (Fail err, s') => (Done (mkRegisterResponse (ToPBError (Some err)) "", None), s')
          | (Panic, s') => (Panic, s')
          end).

(** Errors of [ScheduleTask]: of the hook, of the scheduler, or a lost executor. *)
Inductive schedule_error : Type :=
| SeHook (err : goerr)
| SeScheduler (err : sched_err)
| SeUnknownExecutor (id : ExecutorID).

Record ScheduleTaskResponse := mkScheduleResponse { str_ExecutorId : ExecutorID; str_ExecutorAddr : string }.

(** The response of a scheduled task has no error field. *)
Definition Server_ScheduleTask (w : Waits) (call : T → ScheduleTaskResponse * option goerr) (executorList : list ExecutorID)
    (constraint : ResourceID → res goerr (option ExecutorID)) (request : SchedulerRequest) (s : St) : res goerr (ScheduleTaskResponse + schedule_error) :=
  match PreRPC (masterRPCHook w s) (sv_id s) call None (mkScheduleResponse "" "") with
  | Done (ShouldRet resp err) => Done (match err with Some e => inr (SeHook e) | None => inl resp end)
  | Done Proceed =>
      match ScheduleTask (em_rescMgr (sv_executorManager s)) constraint executorList request with
      | Done id =>
          match GetAddr (sv_executorManager s) id with
          | Some addr => Done (inl (mkScheduleResponse id addr))
          | None => Done (inr (SeUnknownExecutor id))
          end
      | Fail err => Done (inr (SeScheduler err))
      | Panic => Panic
      end
  | Fail err => Fail err
  | Panic => Panic
  end.

End handlers.

(** ** Metastores ([metastore_manager.go]) *)

Abbreviation MetaStoreManager C := (gmap string C).

Definition MetaStore_Register {C} (id : string) (store : C) : Go (MetaStoreManager C) unit := λ m,
  match m !! id with
  | Some _ => (Fail (GoErr ErrMetaStoreIDDuplicate ""), m)
  | None => (Done tt, <[id := store]> m)
  end.
Definition MetaStore_UnRegister {C} (id : string) (m : MetaStoreManager C) : MetaStoreManager C := delete id m.
Definition GetMetaStore {C} (id : string) (m : MetaStoreManager C) : option C := m !! id.

Inductive StoreType : Type := StoreType_ServiceDiscovery | StoreType_SystemMetaStore | StoreType_AppMetaStore | StoreType_other (n : Z).

Definition FrameMetaID : string := "root".

(** [QueryMetaStore]: the address or an error code. The user's endpoints are indexed. *)
Definition QueryMetaStore {C} (marshal : C → option string) (advertiseAddr : string) (userEndpoints : list string) (m : MetaStoreManager C) (tp : StoreType) :
    res goerr (string + ErrorCode) :=
  match tp with
  | StoreType_ServiceDiscovery => Done (inl advertiseAddr)
  | StoreType_SystemMetaStore =>
      match GetMetaStore FrameMetaID m with
      | None => Done (inr ErrorCode_MetaStoreNotExists)
      | Some store => match marshal store with Some b => Done (inl b) | None => Done (inr ErrorCode_MetaStoreSerializeFail) end
      end
  | StoreType_AppMetaStore => match userEndpoints with e :: _ => Done (inl e) | [] => Panic end
  | StoreType_other _ => Done (inr ErrorCode_InvalidMetaStoreType)
  end.

(** ** Members ([member.go]) *)

Definition idSuffixLen : nat := 37.

(** The server masters among the registered nodes, by their etcd name. A value is decoded
    or not. *)
Fixpoint getMasterNodes (values : list (option NodeInfo)) (nodes : gmap string NodeInfo) : res goerr (gmap string NodeInfo) :=
  match values with
  | [] => Done nodes
  | None :: _ => Fail (GoWrap ErrDecodeEtcdKeyFail (ErrForeign "json"))
  | Some info :: rest =>
      if bool_decide (ni_Type info = NodeTypeServerMaster) then
        let id := ni_ID info in
        if bool_decide (String.length id < idSuffixLen) then Fail (GoErr ErrInvalidServerMasterID id)
        else getMasterNodes rest (<[String.substring 0 (String.length id - idSuffixLen) id := info]> nodes)
      else getMasterNodes rest nodes
  end.

Record etcdMember := mkEtcdMember { em_Name : string; em_ID : Z }.

(** [None] is a nil leader. *)
Definition GetMembers (nodes : res goerr (list (option NodeInfo))) (etcdMembers : res goerr (list etcdMember)) (leader : option Member) (etcdLeaderID : Z) :
    res goerr (list Member) :=
  match nodes with
  | Fail err => Fail (GoWrap ErrEtcdAPIError err)
  | Panic => Panic
  | Done values =>
      match getMasterNodes values ∅ with
      | Fail err => Fail err
      | Panic => Panic
      | Done servers =>
          match etcdMembers with
          | Fail err => Fail err
          | Panic => Panic
          | Done members =>
              Done (omap (λ m, server ← servers !! em_Name m;
                      Some (mkMember (match leader with Some l => bool_decide (ni_ID server = m_Name l) | None => false end)
                              (bool_decide (em_ID m = etcdLeaderID)) (ni_ID server) (ni_Addr server))) members)
          end
      end
  end.

Definition updateServerMasterMembers {DB T X : Type} (nodes : res goerr (list (option NodeInfo))) (etcdMembers : res goerr (list etcdMember)) (etcdLeaderID : Z) :
    Go (Server DB T X) unit := λ s,
  let leader := match CheckLeader (sv_leader s) with (l, true) => l | _ => None end in
  match GetMembers nodes etcdMembers leader etcdLeaderID with
  | Done members => (Done tt, set_members members s)
  | Fail err => (Fail err, s)
  | Panic => (Panic, s)
  end.

(** ** The service of a leader *)

Definition JobManagerUUID : MasterID := "dataflow-engine-job-manager".
Definition FrameTenantID : string := "dfe_root".

Section leader.
Context {DB T X : Type} `{!Gorm DB}.
Abbreviation St := (Server DB T X).
Variable tomlEncode jsonMarshal : WorkerConfig Empty_set → res goerr string.
Variable newUUID : MasterMeta → WorkerID.

(** [resetExecHandler] for every registered node. *)
Definition resetExecHandler (now : Time) (value : option NodeInfo) : Go ExecutorManagerImpl unit :=
  match value with
  | None => throw (ErrForeign "json")
  | Some info => if bool_decide (ni_Type info = NodeTypeExecutor) then modify (RegisterExec now info) else mret tt
  end.

Definition resetExecutor (now : Time) (nodes : res goerr (list (option NodeInfo))) : Go ExecutorManagerImpl unit :=
  match nodes with
  | Done values => forM_ (resetExecHandler now) values
  | Fail err => throw err
  | Panic => panic
  end.

(** What the service meets on its way up: the answers of the metastore, of etcd and of
    the dialing of the master client, and what the job manager meets. *)
Record LeaderEnv := mkLeaderEnv {
  lv_now : Time;
  lv_backend : option goerr;
  lv_nodes : res goerr (list (option NodeInfo));
  lv_masterClient : option goerr;
  lv_init : InitEnv JobManagerImplV2;
  lv_tick : TickEnv;
}.

Definition orFail (err : option goerr) : Go St unit := match err with Some e => throw e | None => mret tt end.

Definition selfMember (s : St) : Member := mkMember true true (sv_id s) (sv_AdvertiseAddr s).

(** [runLeaderService] until the leader is stored; before that an error leaves no trace in
    the flags. *)
Definition leader_announce (env : LeaderEnv) : Go St unit :=
  _ ← orFail (lv_backend env);
  _ ← on_executors (resetExecutor (lv_now env) (lv_nodes env));
  _ ← orFail (lv_masterClient env);
  modify (λ s, set_initialized (sv_leaderInitialized s) Starting (set_leader (selfMember s) s)).

(** The deferred function that gives the leadership up. *)
Definition leader_stepDown (s : St) : St := set_leader noMember (set_initialized false NotLeading s).

Definition masterMeta0 : MasterMeta := mkMasterMeta FrameTenantID JobManagerUUID JobManagerTp 0 "" "" 0 "".

(** The creation of the job manager; a failed one is nil, and the deferred function
    runs. *)
Definition leader_startJobManager (env : LeaderEnv) : Go St unit := λ s,
  let base := NewBaseMaster JobManagerUUID (sv_id s) (sv_AdvertiseAddr s) masterMeta0 in
  match NewJobManagerImplV2 tomlEncode jsonMarshal newUUID (lv_init env) (lv_tick env) (mkMasterSt base (sv_db s) (mkJobManager NewJobFsm false)) with
  | (Done _, st) => (Done tt, set_initialized true Leading (set_jobManager (Some (ms_base st, ms_impl st)) (ms_db st) s))
  | (Fail err, st) => (Fail err, leader_stepDown (set_jobManager None (ms_db st) s))
  | (Panic, st) => (Panic, s)
  end.

(** The return from the loop: the deferred functions, the last one first. An error of the
    closing is logged. *)
Definition leader_return (env : TickEnv) (err : goerr) : Go St unit := λ s,
  match on_jobManager (Master_Close (JobManagerImpl tomlEncode jsonMarshal newUUID env)) s with
  | (Panic, s') => (Panic, s')
  | (_, s') => (Fail err, leader_stepDown s')
  end.

(** The cases of the [select]. Both tickers of the source are the same channel: a tick is
    taken by the case that polls or by the case that collects metrics. *)
Inductive leader_event : Type :=
| LeaderCtxDone (err : goerr)
| LeaderTick (isEtcdLeader : bool) (handlerErr : option goerr) (fuel : nat) (env : TickEnv)
| MetricTick.

Definition leader_select (env : TickEnv) (ev : leader_event) : Go St unit := λ s,
  match ev with
  | LeaderCtxDone err => leader_return env err s
  | MetricTick => (Done tt, s)
  | LeaderTick isEtcdLeader handlerErr fuel tenv =>
      if negb isEtcdLeader then leader_return env (GoErr ErrEtcdLeaderChanged "") s else
      match on_jobManager (Master_Poll (JobManagerImpl tomlEncode jsonMarshal newUUID tenv) handlerErr fuel) s with
      | (Fail err, s') => leader_return env err s'
      | out => out
      end
  end.

End leader.

(** ** [servermaster/cluster]: the election *)

(** The context of a leader: its parent, the session, the channel of a resignation and the
    error it was given. *)
Record leaderCtx := mkLeaderCtx { lc_parent : option goerr; lc_sessDone : bool; lc_closed : bool; lc_innerErr : option goerr }.

Definition newLeaderCtx : leaderCtx := mkLeaderCtx None false false None.

(** Closing a closed channel panics. *)
Definition OnResigned (c : leaderCtx) : option leaderCtx :=
  if lc_closed c then None else Some (mkLeaderCtx (lc_parent c) (lc_sessDone c) true (lc_innerErr c)).

Inductive done_case : Type := ParentDone | SessionDone | ResignedDone.

(** The goroutine of [Done] takes a case that is ready. *)
Definition leaderCtx_Done (k : done_case) (c : leaderCtx) : option leaderCtx :=
  let setError e := Some (mkLeaderCtx (lc_parent c) (lc_sessDone c) (lc_closed c) (Some (GoErr e ""))) in
  match k with
  | ParentDone => match lc_parent c with Some _ => Some c | None => None end
  | SessionDone => if lc_sessDone c then setError ErrMasterSessionDone else None
  | ResignedDone => if lc_closed c then setError ErrLeaderCtxCanceled else None
  end.

Definition leaderCtx_Err (c : leaderCtx) : option goerr :=
  match lc_innerErr c with Some e => Some e | None => lc_parent c end.

(** One attempt of [Campaign]: the context, the limiter, and what etcd answers. *)
Inductive campaign_answer : Type := Elected | Compacted | CampaignFailed (err : goerr).
Record attempt := mkAttempt { at_ctxErr : option goerr; at_wait : option goerr; at_answer : campaign_answer }.

(** [None] while the attempts at hand end in compaction errors. *)
Fixpoint Election_Campaign (attempts : list attempt) : option (res goerr leaderCtx) :=
  let failed e := Some (Fail (GoWrap ErrMasterEtcdElectionCampaignFail e)) in
  match attempts with
  | [] => None
  | a :: rest =>
      match at_ctxErr a with
      | Some err => failed err
      | None =>
          match at_wait a with
          | Some err => failed err
          | None =>
              match at_answer a with
              | Elected => Some (Done newLeaderCtx)
              | Compacted => Election_Campaign rest
              | CampaignFailed err => failed (GoWrap ErrMasterEtcdElectionCampaignFail err)
              end
          end
      end
  end.

(** ** [campaign.go]: the loop *)

Inductive loop_action : Type :=
| ActDelete (key : string)
| ActWatch (leader : Member)
| ActCampaign
| ActServe
| ActReset.

Inductive loop_out : Type := LoopContinue | LoopReturn (err : option goerr).

Definition is_canceled (err : goerr) : bool := bool_decide (err_Cause err = ErrForeign "context canceled").

Record LoopEnv (DB T X : Type) := mkLoopEnv {
  lp_ctxErr : option goerr;
  lp_getLeader : res goerr (string * string);
  lp_unmarshal : string → option Member;
  (** the clients created for the watched leader; the watch has ended *)
  lp_clients : LeaderClientWithLock T * LeaderClientWithLock X;
  lp_isEtcdLeader : bool;
  lp_campaign : option goerr;
  lp_service : Go (Server DB T X) unit;
  lp_reset : option goerr;
}.
Arguments mkLoopEnv {DB T X}.
Arguments lp_ctxErr {DB T X}.
Arguments lp_getLeader {DB T X}.
Arguments lp_unmarshal {DB T X}.
Arguments lp_clients {DB T X}.
Arguments lp_isEtcdLeader {DB T X}.
Arguments lp_campaign {DB T X}.
Arguments lp_service {DB T X}.
Arguments lp_reset {DB T X}.

Section loop.
Context {DB T X : Type}.
Abbreviation St := (Server DB T X).

(** [createLeaderClient] drops the old clients and sets the new ones that could be
    created. *)
Definition createLeaderClient (clients : LeaderClientWithLock T * LeaderClientWithLock X) (s : St) : St :=
  match clients with
  | (Some m, r) => set_clients (Some m) r s
  | (None, _) => set_clients None None s
  end.

(** [watchLeader]: while it watches the leader is known; afterwards it is not. *)
Definition watchLeader_begin (m : Member) (clients : LeaderClientWithLock T * LeaderClientWithLock X) (s : St) : St :=
  createLeaderClient clients (set_leader (mkMember true true (m_Name m) (m_AdvertiseAddr m)) s).
Definition watchLeader_end (s : St) : St := set_leader noMember s.

(** The rest of an iteration, with the leader found. *)
Definition leaderLoop_follow (env : LoopEnv DB T X) (leader : option Member) (s : St) : list loop_action * loop_out * St :=
  let watched := match leader with Some l => ([ActWatch l], watchLeader_end (watchLeader_begin l (lp_clients env) s)) | None => ([], s) end in
  if negb (lp_isEtcdLeader env) then (watched.1, LoopContinue, watched.2) else
  match lp_campaign env with
  | Some _ => (watched.1 ++ [ActCampaign], LoopContinue, watched.2)
  | None =>
      let acts := watched.1 ++ [ActCampaign; ActServe] in
      match lp_service env watched.2 with
      | (Fail err, s') =>
          if is_canceled err || err_Equal ErrEtcdLeaderChanged (Some err) then (acts, LoopContinue, s')
          else if err_Equal ErrMasterSessionDone (Some err) then
            match lp_reset env with
            | Some err2 => (acts ++ [ActReset], LoopReturn (Some err2), s')
            | None => (acts ++ [ActReset], LoopContinue, s')
            end
          else (acts, LoopContinue, s')
      | (_, s') => (acts, LoopContinue, s')
      end
  end.

(** One iteration of [leaderLoop]. *)
Definition leaderLoop_iter (env : LoopEnv DB T X) (s : St) : list loop_action * loop_out * St :=
  match lp_ctxErr env with
  | Some err => ([], LoopReturn (Some err), s)
  | None =>
      match lp_getLeader env with
      | Fail err =>
          if is_canceled err then ([], LoopReturn None, s)
          else if negb (err_Equal ErrMasterNoLeader (Some err)) then ([], LoopContinue, s)
          else leaderLoop_follow env None s
      | Panic => ([], LoopContinue, s)
      | Done (key, data) =>
          if bool_decide (data = "") then leaderLoop_follow env None s else
          match lp_unmarshal env data with
          | None => ([], LoopContinue, s)
          | Some leader =>
              if bool_decide (m_Name leader = sv_id s) || bool_decide (m_AdvertiseAddr leader = sv_AdvertiseAddr s)
              then ([ActDelete key], LoopContinue, s)
              else leaderLoop_follow env (Some leader) s
          end
      end
  end.

End loop.

(** ** Specification *)

Section spec.
Context {DB T X : Type} `{!Gorm DB}.
Abbreviation St := (Server DB T X).
Variable cvsDecodes : string → bool.
Variable tomlEncode jsonMarshal : WorkerConfig Empty_set → res goerr string.
Variable newUUID : MasterMeta → WorkerID.

(** The steps of a server: its goroutine that campaigns and leads, the goroutine of the
    members, and the requests. A panic ends the process. *)
Inductive server_step (s : St) : St → Prop :=
| ss_watch m clients : sv_phase s = NotLeading → server_step s (watchLeader_begin m clients s)
| ss_unwatch : sv_phase s = NotLeading → server_step s (watchLeader_end s)
| ss_announce env : sv_phase s = NotLeading → server_step s (leader_announce env s).2
| ss_start env s' r : sv_phase s = Starting → leader_startJobManager tomlEncode jsonMarshal newUUID env s = (r, s') → r ≠ Panic → server_step s s'
| ss_select env ev s' r : sv_phase s = Leading → leader_select tomlEncode jsonMarshal newUUID env ev s = (r, s') → r ≠ Panic → server_step s s'
| ss_members nodes etcdMembers etcdLeaderID : server_step s (updateServerMasterMembers nodes etcdMembers etcdLeaderID s).2
| ss_heartbeat w call now req : server_step s (Server_Heartbeat w call now req s).2
| ss_submit w call id req : server_step s (Server_SubmitJob cvsDecodes tomlEncode jsonMarshal newUUID w call id req s).2
| ss_query w call id : server_step s (Server_QueryJob w call id s).2
| ss_cancel w call id : server_step s (Server_CancelJob w call id s).2
| ss_pause w call mono sent id : server_step s (Server_PauseJob w call mono sent id s).2
| ss_register w call now newID address capability : server_step s (Server_RegisterExecutor w call now newID address capability s).2.

(** The flag says that the server leads, and then it knows itself as the leader and has
    a job manager. *)
Definition server_inv (s : St) : Prop :=
  (sv_leaderInitialized s = true ↔ sv_phase s = Leading) ∧
  (sv_phase s = Leading → sv_leader s = Some (selfMember s) ∧ is_Some (sv_jobManager s)) ∧
  (sv_phase s = Starting → sv_leader s = Some (selfMember s)).

(** Steps that leave the flags, the leader and the presence of a job manager alone. *)
Definition same_role (s s' : St) : Prop :=
  sv_leaderInitialized s' = sv_leaderInitialized s ∧ sv_phase s' = sv_phase s ∧ sv_leader s' = sv_leader s ∧ selfMember s' = selfMember s ∧
  (is_Some (sv_jobManager s) → is_Some (sv_jobManager s')).

Lemma same_role_inv s s' : same_role s s' → server_inv s → server_inv s'.
Proof. intros (Hi & Hp & Hl & Hm & Hj) (H1 & H2 & H3). unfold server_inv. rewrite Hi, Hp, Hl, Hm. naive_solver. Qed.

Lemma same_role_refl s : same_role s s.
Proof. done. Qed.

Lemma on_executors_role {A} (f : Go ExecutorManagerImpl A) s : same_role s (on_executors f s).2.
Proof. unfold on_executors. by destruct (f _). Qed.

Lemma on_jobManager_role {A} (f : Go (JmSt DB) A) s : same_role s (on_jobManager f s).2.
Proof.
  unfold on_jobManager. destruct (sv_jobManager s) as [[b i]|] eqn:Hj; [|done]. destruct (f _) as [r st]. split_and!; [done..|]. by intros _; eexists.
Qed.

Lemma answered_role {A} (f : Go St A) s : same_role s (f s).2 → same_role s (answered f s).2.
Proof. unfold answered, mbind, GoM_bind. by destruct (f s) as [[a|e|] s']. Qed.

Lemma serve_role {Resp} w call setErr (resp0 : Resp) local s : (∀ s, same_role s (local s).2) → same_role s (serve w call setErr resp0 local s).2.
Proof. intros Hl. unfold serve. destruct (PreRPC _ _ _ _ _) as [[|resp err]|e|]; [apply Hl|done..]. Qed.

Lemma leader_announce_inv env s : sv_phase s = NotLeading → server_inv s → server_inv (leader_announce env s).2.
Proof.
  intros Hph Hinv. assert (∀ s', same_role s s' → server_inv (set_initialized (sv_leaderInitialized s') Starting (set_leader (selfMember s') s'))) as Hnext.
  { intros s' (Hi & Hp & Hl & Hm & _). destruct Hinv as (H1 & _ & _). split_and!; [|done|done]. simpl. rewrite Hi, H1, Hph. done. }
  unfold leader_announce, mbind, GoM_bind, orFail. destruct (lv_backend env); [done|]. unfold mret, GoM_ret.
  pose proof (on_executors_role (resetExecutor (lv_now env) (lv_nodes env)) s) as Hr. destruct (on_executors _ s) as [[[]|e|] s1]; simpl in Hr; [|by eapply same_role_inv..].
  destruct (lv_masterClient env); simpl; [by eapply same_role_inv|]. by apply Hnext.
Qed.

Lemma leader_stepDown_inv s : server_inv (leader_stepDown s).
Proof. split_and!; done. Qed.

Lemma leader_select_inv env ev s r s' :
  server_inv s → leader_select tomlEncode jsonMarshal newUUID env ev s = (r, s') → r ≠ Panic → server_inv s'.
Proof.
  intros Hinv. assert (∀ err s1 r1 s2, leader_return tomlEncode jsonMarshal newUUID env err s1 = (r1, s2) → r1 ≠ Panic → server_inv s2) as Hret.
  { intros err s1 r1 s2. unfold leader_return. destruct (on_jobManager _ s1) as [[?|?|] s3]; intros [= <- <-] ?; [apply leader_stepDown_inv..|done]. }
  destruct ev as [err|isEtcdLeader handlerErr fuel tenv|]; simpl; [by apply Hret| |by intros [= <- <-]].
  destruct isEtcdLeader; simpl; [|by apply Hret]. set (f := Master_Poll _ _ _). pose proof (on_jobManager_role f s) as Hrole.
  destruct (on_jobManager f s) as [[[]|err|] s1]; simpl in Hrole; [|by apply Hret|by intros [= <- <-]].
  intros [= <- <-] _. by eapply same_role_inv.
Qed.

Lemma server_step_inv s s' : server_inv s → server_step s s' → server_inv s'.
Proof.
  intros Hinv Hs. destruct Hs.
  - destruct Hinv as (H1 & H2 & H3). unfold watchLeader_begin, createLeaderClient. destruct clients as [[?|] ?]; (split_and!; simpl; [done|congruence|congruence]).
  - destruct Hinv as (H1 & H2 & H3). split_and!; simpl; [done|congruence|congruence].
  - by apply leader_announce_inv.
  - unfold leader_startJobManager in *. destruct (NewJobManagerImplV2 _ _ _ _ _ _) as [[[]|e|] st]; simplify_eq; [|apply leader_stepDown_inv].
    destruct Hinv as (_ & _ & H3). split_and!; [done| |done]. intros _. split; [by apply H3|by eexists].
  - by eapply leader_select_inv.
  - eapply same_role_inv; [|done]. unfold updateServerMasterMembers. by destruct (GetMembers _ _ _ _).
  - eapply same_role_inv; [|done]. apply serve_role. intros s0. pose proof (on_executors_role (Cluster.HandleHeartbeat now req) s0) as Hr.
    destruct (on_executors _ s0) as [[[?|]|?|] s1]; done.
  - eapply same_role_inv; [|done]. apply serve_role. intros s0. apply answered_role, on_jobManager_role.
  - eapply same_role_inv; [|done]. apply serve_role. intros s0. apply answered_role, on_jobManager_role.
  - eapply same_role_inv; [|done]. apply serve_role. intros s0. apply answered_role, on_jobManager_role.
  - eapply same_role_inv; [|done]. apply serve_role. intros s0. apply answered_role, on_jobManager_role.
  - eapply same_role_inv; [|done]. apply serve_role. intros s0. pose proof (on_executors_role (AllocateNewExec now newID address capability) s0) as Hr.
    destruct (on_executors _ s0) as [[?|?|] s1]; done.
Qed.

End spec.

(** ** Theorems *)


(** In an iteration of the loop a server serves as leader only after it won a campaign
    while its etcd member led, and either no leader was registered or the registered one,
    neither its name nor its address, was watched until it was gone. A key of its own is
    deleted and the iteration ends. *)
Theorem leader_loop_serves_only_elected {DB T X} (env : LoopEnv DB T X) s acts out s' :
  leaderLoop_iter env s = (acts, out, s') →
  (ActServe ∈ acts → lp_isEtcdLeader env = true ∧ lp_campaign env = None ∧ lp_ctxErr env = None ∧
     match lp_getLeader env with
     | Done (_, data) => data = "" ∨ ∃ l, lp_unmarshal env data = Some l ∧ m_Name l ≠ sv_id s ∧ m_AdvertiseAddr l ≠ sv_AdvertiseAddr s ∧ head acts = Some (ActWatch l)
     | Fail err => err_Equal ErrMasterNoLeader (Some err) = true
     | Panic => False
     end) ∧
  (∀ key data l, lp_ctxErr env = None → lp_getLeader env = Done (key, data) → data ≠ "" → lp_unmarshal env data = Some l →
     m_Name l = sv_id s ∨ m_AdvertiseAddr l = sv_AdvertiseAddr s → acts = [ActDelete key] ∧ out = LoopContinue ∧ s' = s).
Proof.
  intros Hrun. assert (∀ leader, leaderLoop_follow env leader s = (acts, out, s') → ActServe ∈ acts →
    lp_isEtcdLeader env = true ∧ lp_campaign env = None ∧ match leader with Some l => head acts = Some (ActWatch l) | None => True end) as Hf.
  { intros leader. unfold leaderLoop_follow. destruct (lp_isEtcdLeader env); simpl.
    - destruct (lp_campaign env); simpl.
      + destruct leader; intros [= <- <- <-]; simpl; intros Hin; exfalso; repeat (apply elem_of_cons in Hin as [?|Hin]; [done|]); by apply elem_of_nil in Hin.
      + intros Hr _. split_and!; [done..|]. destruct leader; [|done]. simpl in Hr. repeat case_match; by simplify_eq.
    - destruct leader; intros [= <- <- <-]; simpl; intros Hin; exfalso; repeat (apply elem_of_cons in Hin as [?|Hin]; [done|]); by apply elem_of_nil in Hin. }
  unfold leaderLoop_iter in Hrun. destruct (lp_ctxErr env) eqn:Hc; [simplify_eq; split; [intros Hin; by apply elem_of_nil in Hin|done]|].
  destruct (lp_getLeader env) as [[key data]|err|] eqn:Hg.
  - case_bool_decide as Hd; [split; [|naive_solver]; intros Hin; destruct (Hf None Hrun Hin) as (? & ? & _); auto|].
    destruct (lp_unmarshal env data) as [l|] eqn:Hu; [|simplify_eq; split; [intros Hin; by apply elem_of_nil in Hin|naive_solver]].
    destruct (bool_decide (m_Name l = sv_id s) || bool_decide (m_AdvertiseAddr l = sv_AdvertiseAddr s)) eqn:Hown.
    + simplify_eq. split; [|naive_solver]. intros Hin. apply elem_of_cons in Hin as [?|Hin]; [done|]. by apply elem_of_nil in Hin.
    + apply orb_false_iff in Hown as [Hn Ha]. apply bool_decide_eq_false in Hn, Ha. split; [|naive_solver].
      intros Hin. destruct (Hf (Some l) Hrun Hin) as (? & ? & ?). split_and!; [done..|]. right. by exists l.
  - split; [|done]. intros Hin. destruct (is_canceled err); [simplify_eq; by apply elem_of_nil in Hin|].
    destruct (err_Equal ErrMasterNoLeader (Some err)); simpl in Hrun; [|simplify_eq; by apply elem_of_nil in Hin]. destruct (Hf None Hrun Hin) as (? & ? & _). auto.
  - simplify_eq. split; [intros Hin; by apply elem_of_nil in Hin|done].
Qed.

Lemma resetExecutor_spec now values e e' :
  forM_ (resetExecHandler now) values e = (Done tt, e') →
  (∀ id, is_Some (em_executors e !! id) → is_Some (em_executors e' !! id)) ∧
  (∀ info, Some info ∈ values → ni_Type info = NodeTypeExecutor → is_Some (em_executors e' !! ni_ID info) ∧ is_Some (em_rescMgr e' !! ni_ID info)) ∧
  (∀ id, is_Some (em_rescMgr e !! id) → is_Some (em_rescMgr e' !! id)) ∧ None ∉ values.
Proof.
  revert e. induction values as [|v values IH]; intros e Hrun; simpl in Hrun; [injection Hrun as <-; split_and!; set_solver|].
  apply bind_inv_Done in Hrun as ([] & e1 & H1 & Hrun). destruct (IH e1 Hrun) as (Hk & Hn & Hr & Hno). unfold resetExecHandler in H1.
  destruct v as [info|]; [|done]. case_bool_decide as Ht.
  - injection H1 as <-. split_and!.
    + intros id [x Hx]. apply Hk. unfold RegisterExec. simpl. destruct (decide (id = ni_ID info)) as [->|]; [rewrite lookup_insert_eq|rewrite lookup_insert_ne by done]; by eexists.
    + intros info' [[= <-]|Hin]%elem_of_cons Ht'; [|by apply Hn]. split; [apply Hk|apply Hr]; unfold RegisterExec, Register; simpl; rewrite lookup_insert_eq; by eexists.
    + intros id [x Hx]. apply Hr. unfold RegisterExec, Register. simpl. destruct (decide (id = ni_ID info)) as [->|]; [rewrite lookup_insert_eq|rewrite lookup_insert_ne by done]; by eexists.
    + apply not_elem_of_cons. by split.
  - injection H1 as <-. split_and!; [done| |done|apply not_elem_of_cons; by split]. intros info' [[= <-]|Hin]%elem_of_cons Ht'; [done|by apply Hn].
Qed.

(** A new leader knows the executors of the cluster before it announces itself: when
    the announcement succeeds, every executor that is registered in etcd is known to the
    executor manager and has a capacity, as have those it knew before. *)
Theorem leader_recovers_executors {DB T X} (env : LeaderEnv) values (s s' : Server DB T X) :
  lv_nodes env = Done values → leader_announce env s = (Done tt, s') →
  sv_leader s' = Some (selfMember s) ∧ sv_phase s' = Starting ∧ (None ∉ values) ∧
  (∀ info, Some info ∈ values → ni_Type info = NodeTypeExecutor →
     is_Some (em_executors (sv_executorManager s') !! ni_ID info) ∧ is_Some (em_rescMgr (sv_executorManager s') !! ni_ID info)) ∧
  (∀ id, is_Some (em_executors (sv_executorManager s) !! id) → is_Some (em_executors (sv_executorManager s') !! id)).
Proof.
  intros Hv Hrun. unfold leader_announce in Hrun. apply bind_inv_Done in Hrun as ([] & s1 & H1 & Hrun). unfold orFail in H1. destruct (lv_backend env); [done|]. injection H1 as <-.
  apply bind_inv_Done in Hrun as ([] & s2 & H2 & Hrun). apply bind_inv_Done in Hrun as ([] & s3 & H3 & Hrun). unfold orFail in H3. destruct (lv_masterClient env); [done|].
  injection H3 as <-. injection Hrun as <-. unfold on_executors, resetExecutor in H2. rewrite Hv in H2.
  destruct (forM_ (resetExecHandler (lv_now env)) values (sv_executorManager s)) as [[[]|e|] e'] eqn:Hf; simplify_eq. apply resetExecutor_spec in Hf as (Hk & Hn & _ & Hno).
  simpl. by split_and!.
Qed.

Module Witness.

Definition enc (c : WorkerConfig Empty_set) : res goerr string := Fail (ErrForeign "unsupported type").
Definition uid (m : MasterMeta) : WorkerID := "u".
Definition node : NodeInfo := mkNodeInfo NodeTypeExecutor "ex1" "addr" 10.
Definition lenv : LeaderEnv := mkLeaderEnv 0 None (Done [Some node]) None (mkInitEnv (mret tt) (Done []) [] (mret tt) (λ _, [])) (mkTickEnv [] [] (λ _, []) (λ _, Done 0%Z)).
Definition s0 : Server RefDB unit unit := NewServer "m1" "addr1" 10 Metastore.Witness.db0.
Definition s1 : Server RefDB unit unit := (leader_announce lenv s0).2.
Definition s2 : Server RefDB unit unit := (leader_startJobManager enc enc uid lenv s1).2.
Definition waits : Waits := mkWaits (λ _, sv_leader s2) (λ _, false).

Lemma leader_recovers_executors_witness : is_Some (em_executors (sv_executorManager s1) !! "ex1").
Proof.
  destruct (leader_recovers_executors lenv [Some node] s0 s1) as (_ & _ & _ & H & _); [reflexivity|reflexivity|].
  exact (proj1 (H node (list_elem_of_here _ _) eq_refl)).
Defined.


Definition other : Member := mkMember true true "m2" "addr2".
Definition loopEnv : LoopEnv RefDB unit unit :=
  mkLoopEnv None (Done ("key", "data")) (λ _, Some other) (None, None) true None (λ s, (Fail (ErrForeign "context canceled"), s)) None.

Lemma leader_loop_serves_only_elected_witness :
  ActServe ∈ (leaderLoop_iter loopEnv s0).1.1 ∧ head (leaderLoop_iter loopEnv s0).1.1 = Some (ActWatch other).
Proof.
  assert (ActServe ∈ (leaderLoop_iter loopEnv s0).1.1) as Hin by (vm_compute; right; right; left).
  split; [exact Hin|]. destruct (leader_loop_serves_only_elected loopEnv s0 _ _ _ eq_refl) as [H _]. destruct (H Hin) as (_ & _ & _ & [Hd|(l & Hl & _ & _ & Hh)]); [discriminate Hd|].
  injection Hl as <-. exact Hh.
Defined.

End Witness.
