(* ===== verification/Discovery.v ===== *)
(** * Service discovery ([pkg/srvdiscovery], [pkg/serverutils])

    Every node registers itself in etcd and watches the others. [EtcdSrvDiscovery]
    compares the nodes in etcd with its snapshot at every tick and sends the difference to
    a channel; [DiscoveryRunnerImpl] owns a snapshot and the discovery of the moment;
    [DiscoveryKeepaliver] feeds the differences to the message router. Discoveries are
    objects with goroutines of their own, so they live in a store. What etcd answers is an
    argument. *)

From S2P Require Import Prelude Errors Model ResourcePath Keys.

(** ** Nodes *)

(** [encoding/json] on [NodeInfo]. *)
Class NodeJSON := { node_Marshal : NodeInfo → string; node_Unmarshal : string → option NodeInfo }.
Class NodeJSONLaws `{!NodeJSON} : Prop := { node_roundtrip info : node_Unmarshal (node_Marshal info) = Some info }.

Definition EtcdKey (info : NodeInfo) : string := Encode NodeInfoKeyAdapter [ni_ID info].

(** ** State *)

Abbreviation Snapshot := (gmap string NodeInfo).

Record WatchResp := mkWatchResp { wr_AddSet : Snapshot; wr_DelSet : Snapshot; wr_Err : option goerr }.

Definition errResp (err : goerr) : WatchResp := mkWatchResp ∅ ∅ (Some err).

Definition defaultWatchChanSize : nat := 8.

(** A discovery with its channel; [sd_running] is the goroutine of [tickedWatch], and
    [sd_cancel] whether [watchCancel] is set. *)
Record EtcdSrvDiscovery := mkDiscovery {
  sd_snapshot : Snapshot;
  sd_watched : bool;
  sd_cancel : bool;
  sd_cancelled : bool;
  sd_running : bool;
  sd_ch : list WatchResp;
}.

Definition NewEtcdSrvDiscovery : EtcdSrvDiscovery := mkDiscovery ∅ false false false false [].

(** The runner with the store of discoveries; the discovery of the moment and the one
    whose channel is read are addresses in it. *)
Record DiscoveryRunnerImpl := mkRunner {
  dr_store : list EtcdSrvDiscovery;
  dr_snapshot : Snapshot;
  dr_discovery : option nat;
  dr_watcher : option nat;
}.

Definition NewDiscoveryRunnerImpl : DiscoveryRunnerImpl := mkRunner [] ∅ None None.

(** ** [etcd_impl.go] *)

Section discovery.
Context `{!NodeJSON}.

Definition unmarshal (k v : string) : res goerr (string * NodeInfo) :=
  match Decode NodeInfoKeyAdapter k with
  | Fail err => Fail (GoWrap ErrDecodeEtcdKeyFail err)
  | Panic => Panic
  | Done keys =>
      match last keys with
      | None => Panic
      | Some uuid =>
          match node_Unmarshal v with
          | None => Fail (GoWrap ErrDecodeEtcdValueFail (ErrForeign v))
          | Some resc => Done (uuid, resc)
          end
      end
  end.

Fixpoint snapshot_of (kvs : list (string * string)) (snapshot : Snapshot) : res goerr Snapshot :=
  match kvs with
  | [] => Done snapshot
  | (k, v) :: rest =>
      match unmarshal k v with
      | Done (uuid, resc) => snapshot_of rest (<[uuid := resc]> snapshot)
      | Fail err => Fail err
      | Panic => Panic
      end
  end.

Definition getSnapshot (answer : res goerr (list (string * string))) : res goerr Snapshot :=
  match answer with
  | Fail err => Fail (GoWrap ErrEtcdAPIError err)
  | Panic => Panic
  | Done kvs => snapshot_of kvs ∅
  end.

Definition set_snapshot (snapshot : Snapshot) (d : EtcdSrvDiscovery) : EtcdSrvDiscovery :=
  mkDiscovery snapshot (sd_watched d) (sd_cancel d) (sd_cancelled d) (sd_running d) (sd_ch d).

(** [CopySnapshot] and [Snapshot]. *)
Definition CopySnapshot (snapshot : Snapshot) (d : EtcdSrvDiscovery) : EtcdSrvDiscovery := set_snapshot snapshot d.

Definition Discovery_Snapshot (answer : res goerr (list (string * string))) : Go EtcdSrvDiscovery Snapshot := λ d,
  match getSnapshot answer with
  | Done snapshot => (Done snapshot, CopySnapshot snapshot d)
  | Fail err => (Fail err, d)
  | Panic => (Panic, d)
  end.

Definition addSet (old new : Snapshot) : Snapshot := filter (λ kv, old !! kv.1 = None) new.
Definition delSet (old new : Snapshot) : Snapshot := filter (λ kv, new !! kv.1 = None) old.

Definition delta (answer : res goerr (list (string * string))) : Go EtcdSrvDiscovery (Snapshot * Snapshot) := λ d,
  match getSnapshot answer with
  | Done snapshot => (Done (addSet (sd_snapshot d) snapshot, delSet (sd_snapshot d) snapshot), set_snapshot snapshot d)
  | Fail err => (Fail err, d)
  | Panic => (Panic, d)
  end.

Definition send_resp (resp : WatchResp) (running : bool) (d : EtcdSrvDiscovery) : EtcdSrvDiscovery :=
  mkDiscovery (sd_snapshot d) (sd_watched d) (sd_cancel d) (sd_cancelled d) running (sd_ch d ++ [resp]).

(** One round of [tickedWatch]: the context, or a tick with the answer of etcd. The send of
    a goroutine that waits for room is the last element of a channel above its size; until
    it went through there is no further round. *)
Definition watch_cancelled : goerr := ErrForeign "context canceled".

Definition tickedWatch (answer : res goerr (list (string * string))) : Go EtcdSrvDiscovery unit := λ d,
  if negb (sd_running d) || bool_decide (defaultWatchChanSize < length (sd_ch d)) then (Done tt, d) else
  match delta answer d with
  | (Panic, d') => (Panic, d')
  | (Fail err, d') => (Done tt, send_resp (errResp err) false d')
  | (Done (add, del), d') =>
      if bool_decide (add = ∅) && bool_decide (del = ∅) then (Done tt, d')
      else (Done tt, send_resp (mkWatchResp add del None) true d')
  end.

Definition tickedWatch_ctxDone (d : EtcdSrvDiscovery) : EtcdSrvDiscovery :=
  if negb (sd_running d && sd_cancelled d) || bool_decide (defaultWatchChanSize < length (sd_ch d)) then d
  else send_resp (errResp watch_cancelled) false d.

(** [Watch]: a second watch gets a channel of its own with an error; it is not modelled
    further, as no caller watches twice. *)
Definition Watch : Go EtcdSrvDiscovery unit := λ d,
  if sd_watched d then (Fail (GoErr ErrDiscoveryDuplicateWatch ""), d)
  else (Done tt, mkDiscovery (sd_snapshot d) true true (sd_cancelled d) true (sd_ch d)).

Definition Discovery_Close (d : EtcdSrvDiscovery) : EtcdSrvDiscovery :=
  if sd_cancel d then mkDiscovery (sd_snapshot d) (sd_watched d) true true (sd_running d) (sd_ch d) else d.

(** ** [runner.go] *)

(** The answers of etcd to a reset: to the session and the registration of the node, and
    to the query of the nodes. *)
Record ResetEnv := mkResetEnv { re_session : option goerr; re_nodes : res goerr (list (string * string)) }.

Definition connectToEtcdDiscovery (env : ResetEnv) (resetSession : bool) : Go DiscoveryRunnerImpl unit := λ dr,
  match (if resetSession then re_session env else None) with
  | Some err => (Fail err, dr)
  | None =>
      let old := dr_snapshot dr in
      let i := length (dr_store dr) in
      if bool_decide (old = ∅) then
        match Discovery_Snapshot (re_nodes env) NewEtcdSrvDiscovery with
        | (Done snapshot, d) => (Done tt, mkRunner (dr_store dr ++ [d]) snapshot (Some i) (dr_watcher dr))
        | (Fail err, d) => (Fail err, mkRunner (dr_store dr ++ [d]) (dr_snapshot dr) (Some i) (dr_watcher dr))
        | (Panic, d) => (Panic, dr)
        end
      else (Done tt, mkRunner (dr_store dr ++ [CopySnapshot old NewEtcdSrvDiscovery]) (dr_snapshot dr) (Some i) (dr_watcher dr))
  end.

Definition with_discovery (i : nat) (f : EtcdSrvDiscovery → EtcdSrvDiscovery) (dr : DiscoveryRunnerImpl) : DiscoveryRunnerImpl :=
  mkRunner (alter f i (dr_store dr)) (dr_snapshot dr) (dr_discovery dr) (dr_watcher dr).

(** The discovery that is closed is the new one. *)
Definition ResetDiscovery (env : ResetEnv) (resetSession : bool) : Go DiscoveryRunnerImpl unit := λ dr,
  match connectToEtcdDiscovery env resetSession dr with
  | (Done _, dr1) =>
      match dr_discovery dr1 with
      | None => (Panic, dr1)
      | Some i =>
          let dr2 := with_discovery i (λ d, (Watch (Discovery_Close d)).2) dr1 in
          (Done tt, mkRunner (dr_store dr2) (dr_snapshot dr2) (dr_discovery dr2) (Some i))
      end
  | out => out
  end.

Definition apply_resp (resp : WatchResp) (snapshot : Snapshot) : Snapshot :=
  filter (λ kv, wr_DelSet resp !! kv.1 = None) (wr_AddSet resp ∪ snapshot).

Definition ApplyWatchResult (resp : WatchResp) (dr : DiscoveryRunnerImpl) : DiscoveryRunnerImpl :=
  mkRunner (dr_store dr) (apply_resp resp (dr_snapshot dr)) (dr_discovery dr) (dr_watcher dr).

(** ** [discovery_keepalive.go] *)

(** The keepaliver with the peers of the message router, if it has one. *)
Record DiscoveryKeepaliver := mkKeepaliver { ka_runner : DiscoveryRunnerImpl; ka_peers : option (gmap string string) }.

Definition NewDiscoveryKeepaliver (router : bool) : DiscoveryKeepaliver :=
  mkKeepaliver NewDiscoveryRunnerImpl (if router then Some ∅ else None).

Definition on_runner {A} (f : Go DiscoveryRunnerImpl A) : Go DiscoveryKeepaliver A := λ k,
  let '(r, dr) := f (ka_runner k) in (r, mkKeepaliver dr (ka_peers k)).

(** [AddPeer] and [RemovePeer] for the nodes of a difference. *)
Definition route_resp (resp : WatchResp) (peers : gmap string string) : gmap string string :=
  filter (λ kv, wr_DelSet resp !! kv.1 = None) ((ni_Addr <$> wr_AddSet resp) ∪ peers).

(** [Keepalive] until its loop. *)
Definition Keepalive_start (env : ResetEnv) : Go DiscoveryKeepaliver unit :=
  _ ← on_runner (λ dr, (Done tt, NewDiscoveryRunnerImpl));
  _ ← on_runner (ResetDiscovery env true);
  modify (λ k, mkKeepaliver (ka_runner k) ((λ p, (ni_Addr <$> dr_snapshot (ka_runner k)) ∪ p) <$> ka_peers k)).

(** The cases of its [select]. *)
Inductive keepalive_event : Type :=
| SessionDone (env : ResetEnv)
| WatcherReady (env : ResetEnv).

Definition Keepalive_select (ev : keepalive_event) : Go DiscoveryKeepaliver unit := λ k,
  match ev with
  | SessionDone env => on_runner (ResetDiscovery env true) k
  | WatcherReady env =>
      let dr := ka_runner k in
      match dr_watcher dr with
      | None => (Done tt, k)
      | Some i =>
          match dr_store dr !! i with
          | Some d =>
              match sd_ch d with
              | [] => (Done tt, k)
              | resp :: ch =>
                  let dr1 := with_discovery i (λ d, mkDiscovery (sd_snapshot d) (sd_watched d) (sd_cancel d) (sd_cancelled d) (sd_running d) ch) dr in
                  match wr_Err resp with
                  | Some _ => on_runner (ResetDiscovery env false) (mkKeepaliver dr1 (ka_peers k))
                  | None => (Done tt, mkKeepaliver (ApplyWatchResult resp dr1) (route_resp resp <$> ka_peers k))
                  end
              end
          | None => (Done tt, k)
          end
      end
  end.

End discovery.

(** ** Specification *)

(** A step of the goroutine of one discovery. *)
Definition tick_at `{!NodeJSON} (i : nat) (answer : res goerr (list (string * string))) (k : DiscoveryKeepaliver) : DiscoveryKeepaliver :=
  mkKeepaliver (with_discovery i (λ d, (tickedWatch answer d).2) (ka_runner k)) (ka_peers k).

Section spec.
Context `{!NodeJSON}.

(** The event resets the discovery: its session ended or its watch failed. *)
Definition resets (ev : keepalive_event) (k : DiscoveryKeepaliver) : bool :=
  match ev with
  | SessionDone _ => true
  | WatcherReady _ =>
      match dr_watcher (ka_runner k) ≫= λ i, dr_store (ka_runner k) !! i with
      | Some d => match sd_ch d with resp :: _ => match wr_Err resp with Some _ => true | None => false end | [] => false end
      | None => false
      end
  end.

(** The steps of a keepaliver that runs; a reset with an empty snapshot is excluded. *)
Inductive keepalive_step (k : DiscoveryKeepaliver) : DiscoveryKeepaliver → Prop :=
| ks_tick i answer : keepalive_step k (tick_at i answer k)
| ks_ctxDone i : keepalive_step k (mkKeepaliver (with_discovery i tickedWatch_ctxDone (ka_runner k)) (ka_peers k))
| ks_select ev k' :
    (resets ev k = true → dr_snapshot (ka_runner k) ≠ ∅) → Keepalive_select ev k = (Done tt, k') → keepalive_step k k'.

(** The snapshot after the differences that wait in a channel. *)
Definition catch_up (ch : list WatchResp) (snapshot : Snapshot) : Snapshot := foldl (λ s resp, apply_resp resp s) snapshot ch.

(** The router knows the nodes of the snapshot, and the snapshot together with the
    differences under way has the nodes that the discovery saw last. *)
Definition tracks (k : DiscoveryKeepaliver) : Prop :=
  let dr := ka_runner k in
  ka_peers k = Some (ni_Addr <$> dr_snapshot dr) ∧
  ∃ i d, dr_discovery dr = Some i ∧ dr_watcher dr = Some i ∧ dr_store dr !! i = Some d ∧ dom (catch_up (sd_ch d) (dr_snapshot dr)) = dom (sd_snapshot d).

(** *** Lemmas *)

Lemma dom_filter_None {A B} (f : gmap string A) (m : gmap string B) : dom (filter (λ kv, f !! kv.1 = None) m) = dom m ∖ dom f.
Proof.
  apply set_eq. intros k. rewrite elem_of_difference, !elem_of_dom. split.
  - intros [v Hv]. apply map_lookup_filter_Some in Hv as [Hv Hn]. simpl in Hn. split; [by eexists|]. by rewrite eq_None_not_Some in Hn.
  - intros [[v Hv] Hn]. exists v. apply map_lookup_filter_Some. split; [done|]. by apply eq_None_not_Some.
Qed.

Lemma dom_apply_resp resp (s : Snapshot) : dom (apply_resp resp s) = (dom (wr_AddSet resp) ∪ dom s) ∖ dom (wr_DelSet resp).
Proof. unfold apply_resp. rewrite dom_filter_None, dom_union_L. done. Qed.

Lemma catch_up_dom ch (s1 s2 : Snapshot) : dom s1 = dom s2 → dom (catch_up ch s1) = dom (catch_up ch s2).
Proof.
  revert s1 s2. induction ch as [|resp ch IH]; intros s1 s2 Hd; [done|]. simpl. apply IH. by rewrite !dom_apply_resp, Hd.
Qed.

Lemma catch_up_app ch1 ch2 s : catch_up (ch1 ++ ch2) s = catch_up ch2 (catch_up ch1 s).
Proof. unfold catch_up. by rewrite foldl_app. Qed.

Lemma dom_delta (old new s : Snapshot) :
  dom s = dom old → dom (apply_resp (mkWatchResp (addSet old new) (delSet old new) None) s) = dom new.
Proof.
  intros Hs. rewrite dom_apply_resp. simpl. unfold addSet, delSet. rewrite !dom_filter_None, Hs.
  apply set_eq. intros x. destruct (decide (x ∈ dom old)), (decide (x ∈ dom new)); set_solver.
Qed.

Lemma apply_err (s : Snapshot) err : apply_resp (errResp err) s = s.
Proof.
  unfold apply_resp. simpl. rewrite (left_id_L ∅ (∪)). apply map_eq. intros k. rewrite map_lookup_filter. destruct (s !! k) as [v|]; [|done]. simpl. rewrite lookup_empty. done.
Qed.

Lemma tickedWatch_tracks answer d (s : Snapshot) :
  dom (catch_up (sd_ch d) s) = dom (sd_snapshot d) →
  dom (catch_up (sd_ch (tickedWatch answer d).2) s) = dom (sd_snapshot (tickedWatch answer d).2).
Proof.
  intros Hd. unfold tickedWatch. destruct (negb (sd_running d) || _); [done|]. unfold delta.
  destruct (getSnapshot answer) as [new|err|]; simpl; [|by rewrite catch_up_app; simpl; rewrite apply_err|done].
  destruct (bool_decide (addSet _ _ = ∅) && bool_decide (delSet _ _ = ∅)) eqn:He; simpl.
  - apply andb_true_iff in He as [Ha%bool_decide_eq_true Hl%bool_decide_eq_true]. rewrite <- (dom_delta (sd_snapshot d) new _ Hd). rewrite Ha, Hl.
    rewrite dom_apply_resp. simpl. set_solver.
  - rewrite catch_up_app. simpl. by apply dom_delta.
Qed.

Lemma ctxDone_tracks d (s : Snapshot) :
  dom (catch_up (sd_ch d) s) = dom (sd_snapshot d) → dom (catch_up (sd_ch (tickedWatch_ctxDone d)) s) = dom (sd_snapshot (tickedWatch_ctxDone d)).
Proof. intros Hd. unfold tickedWatch_ctxDone. destruct (_ || _); [done|]. simpl. rewrite catch_up_app. simpl. by rewrite apply_err. Qed.

(** A step of any discovery that keeps what it saw in step with its channel. *)
Lemma with_discovery_tracks j f k :
  (∀ d s, dom (catch_up (sd_ch d) s) = dom (sd_snapshot d) → dom (catch_up (sd_ch (f d)) s) = dom (sd_snapshot (f d))) →
  tracks k → tracks (mkKeepaliver (with_discovery j f (ka_runner k)) (ka_peers k)).
Proof.
  intros Hf (Hp & i & d & Hdi & Hw & Hst & Hd). split; [done|]. simpl. destruct (decide (j = i)) as [->|Hne].
  - exists i, (f d). rewrite list_lookup_alter_eq, Hst. split_and!; [done..|]. by apply Hf.
  - exists i, d. by rewrite list_lookup_alter_ne.
Qed.

Lemma ResetDiscovery_tracks env b dr dr' :
  dr_snapshot dr ≠ ∅ → ResetDiscovery env b dr = (Done tt, dr') → tracks (mkKeepaliver dr' (Some (ni_Addr <$> dr_snapshot dr))).
Proof.
  intros Hne. unfold ResetDiscovery, connectToEtcdDiscovery. destruct (if b then re_session env else None); [done|].
  rewrite bool_decide_eq_false_2 by done. simpl. intros [= <-]. split; [done|]. simpl. eexists _, _. rewrite list_lookup_alter_eq, lookup_app_r, Nat.sub_diag by lia.
  split_and!; [done..|]. done.
Qed.

Lemma route_resp_fmap resp (s : Snapshot) : route_resp resp (ni_Addr <$> s) = ni_Addr <$> apply_resp resp s.
Proof.
  unfold route_resp, apply_resp. rewrite <- map_fmap_union. apply map_eq. intros k. rewrite lookup_fmap, !map_lookup_filter, lookup_fmap.
  destruct ((wr_AddSet resp ∪ s) !! k) as [v|]; [|done]. simpl. by destruct (decide (wr_DelSet resp !! k = None)) as [Hn|Hn]; [rewrite !option_guard_True by done|rewrite !option_guard_False by done].
Qed.

Lemma keepalive_step_tracks k k' : tracks k → keepalive_step k k' → tracks k'.
Proof.
  intros Ht Hs. destruct Hs as [i answer|i|ev k' Hne Hsel].
  - apply with_discovery_tracks; [|done]. intros d s. apply tickedWatch_tracks.
  - apply with_discovery_tracks; [|done]. intros d s. apply ctxDone_tracks.
  - assert (∀ env b dr peers r k1, dr_snapshot dr ≠ ∅ → peers = Some (ni_Addr <$> dr_snapshot dr) →
      on_runner (ResetDiscovery env b) (mkKeepaliver dr peers) = (r, k1) → r = Done tt → tracks k1) as Hreset.
    { intros env b dr peers r k1 Hn -> Hr ->. unfold on_runner in Hr. simpl in Hr. destruct (ResetDiscovery env b dr) as [r1 dr1] eqn:He. simplify_eq. by eapply ResetDiscovery_tracks. }
    destruct k as [dr peers]. destruct ev as [env|env].
    + eapply Hreset; [by apply Hne| |exact Hsel|done]. apply Ht.
    + destruct Ht as (Hp & i & d & Hdi & Hw & Hst & Hd). simpl in *. rewrite Hw in Hsel, Hne. simpl in Hne. rewrite Hst in Hsel, Hne.
      destruct (sd_ch d) as [|resp ch] eqn:Hch; [injection Hsel as <-; split; [done|]; exists i, d; by rewrite Hch|].
      destruct (wr_Err resp) eqn:Herr; [eapply Hreset; [..|exact Hsel|done]; [exact (Hne eq_refl)|exact Hp]|]. injection Hsel as <-. subst peers. split.
      * simpl. by rewrite route_resp_fmap.
      * simpl. eexists i, _. rewrite list_lookup_alter_eq, Hst. split_and!; [done..|]. simpl. exact Hd.
Qed.

Lemma Keepalive_start_tracks env k :
  Keepalive_start env (NewDiscoveryKeepaliver true) = (Done tt, k) → tracks k.
Proof.
  unfold Keepalive_start, mbind, GoM_bind, on_runner, modify. cbn [NewDiscoveryKeepaliver ka_runner ka_peers]. unfold ResetDiscovery, connectToEtcdDiscovery.
  destruct (re_session env); [done|]. rewrite bool_decide_eq_true_2 by done. unfold Discovery_Snapshot. destruct (getSnapshot (re_nodes env)) as [snap|e|]; [|done..].
  intros [= <-]. split; [simpl; by rewrite (right_id_L ∅ (∪))|]. simpl. eexists 0, _. split_and!; [done..|]. done.
Qed.

(** *** Theorems *)

(** The nodes as they are registered in etcd. *)
Definition registered (infos : list NodeInfo) : list (string * string) := (λ info, (EtcdKey info, node_Marshal info)) <$> infos.

Lemma snapshot_of_registered `{!NodeJSONLaws} infos (snap : Snapshot) :
  Forall (λ info, ni_ID info ≠ "") infos →
  snapshot_of (registered infos) snap = Done (foldl (λ m info, <[ni_ID info := info]> m) snap infos).
Proof.
  intros Hne. revert snap. induction Hne as [|info infos Hi _ IH]; intros snap; [done|]. cbn [registered fmap list_fmap snapshot_of foldl]. unfold unmarshal, EtcdKey.
  rewrite (Decode_Encode NodeInfoKeyAdapter ["data-flow"; "node"; "info"]); [|split_and!; [done|repeat constructor; done|reflexivity]|done|by repeat constructor].
  simpl. rewrite node_roundtrip. apply IH.
Qed.

(** The nodes that registered themselves are the snapshot that is read back: each under
    its identifier, with its address and the rest of its information. *)
Theorem registered_nodes_found `{!NodeJSONLaws} infos info :
  Forall (λ info, ni_ID info ≠ "") infos → NoDup (ni_ID <$> infos) →
  ∃ snap, getSnapshot (Done (registered infos)) = Done snap ∧ (snap !! ni_ID info = Some info ↔ info ∈ infos).
Proof.
  intros Hne Hnd. eexists. split; [by apply snapshot_of_registered|]. clear Hne.
  assert (∀ m : Snapshot, foldl (λ m info, <[ni_ID info := info]> m) m infos !! ni_ID info = Some info ↔ info ∈ infos ∨ ((ni_ID info ∉ ni_ID <$> infos) ∧ m !! ni_ID info = Some info)) as Hf.
  { induction infos as [|x infos IH]; intros m; [set_solver|]. apply NoDup_cons in Hnd as [Hx Hnd]. simpl. rewrite (IH Hnd). rewrite elem_of_cons, not_elem_of_cons.
    destruct (decide (ni_ID info = ni_ID x)) as [He|Hn].
    - rewrite <- He in *. rewrite lookup_insert_eq. split; [intros [?|[_ [= ->]]]; auto|]. intros [[->|?]|[[? _] _]]; [|by left|done]. right. by split.
    - rewrite lookup_insert_ne by done. split; [intros [?|[? ?]]; auto|]. intros [[->|?]|[[_ ?] ?]]; auto. done. }
  rewrite Hf, lookup_empty. split; [by intros [?|[_ ?]]|by left].
Qed.


(** A reset does not stop the old watcher: the discovery that is closed is the one just
    made, so the discoveries of before the reset are untouched, and the goroutine of the old
    one keeps polling etcd. *)
Theorem reset_keeps_old_watcher env b dr dr' i d :
  ResetDiscovery env b dr = (Done tt, dr') → dr_store dr !! i = Some d → dr_store dr' !! i = Some d ∧ dr_watcher dr' ≠ Some i.
Proof.
  intros Hr Hi. pose proof (lookup_lt_Some _ _ _ Hi) as Hlt. unfold ResetDiscovery, connectToEtcdDiscovery in Hr. destruct (if b then re_session env else None); [done|].
  assert (∀ x f, alter f (length (dr_store dr)) (dr_store dr ++ [x]) !! i = Some d) as Hl.
  { intros x f. rewrite list_lookup_alter_ne by lia. by rewrite lookup_app_l. }
  destruct (bool_decide (dr_snapshot dr = ∅)); [unfold Discovery_Snapshot in Hr; destruct (getSnapshot (re_nodes env)); [|done..]|]; injection Hr as <-; simpl.
  all: split; [apply Hl|]; intros [=]; lia.
Qed.

(** A reset with an empty snapshot loses peers: the runner takes the nodes that etcd
    answers into its snapshot, but the router is not told, and as the discovery compares the
    later answers with that snapshot, a tick that sees the same nodes reports nothing. *)
Theorem empty_reset_loses_peers env k k' snap i :
  dr_snapshot (ka_runner k) = ∅ → Keepalive_select (SessionDone env) k = (Done tt, k') → getSnapshot (re_nodes env) = Done snap →
  dr_watcher (ka_runner k') = Some i →
  dr_snapshot (ka_runner k') = snap ∧ ka_peers k' = ka_peers k ∧ Keepalive_select (WatcherReady env) (tick_at i (re_nodes env) k') = (Done tt, k').
Proof.
  intros Hemp Hsel Hsnap. destruct k as [dr peers]. unfold Keepalive_select, on_runner, ResetDiscovery, connectToEtcdDiscovery in Hsel. simpl in *.
  destruct (re_session env); [done|]. rewrite bool_decide_eq_true_2 in Hsel by done. unfold Discovery_Snapshot in Hsel. rewrite Hsnap in Hsel.
  injection Hsel as <-. simpl. intros [= <-]. split; [done|]. split; [done|].
  unfold tick_at, with_discovery. simpl. rewrite list_lookup_alter_eq, list_lookup_alter_eq, lookup_app_r, Nat.sub_diag by lia. simpl.
  assert (addSet snap snap = ∅ ∧ delSet snap snap = ∅) as [Ha Hl].
  { split; apply map_eq; intros x; unfold addSet, delSet; rewrite lookup_empty, map_lookup_filter_None; destruct (snap !! x) eqn:E; auto; right; intros v Hv; simpl; congruence. }
  unfold tickedWatch, delta. rewrite Hsnap. simpl. rewrite Ha, Hl. rewrite !bool_decide_eq_true_2 by done. simpl. f_equal. f_equal. f_equal.
  apply list_eq. intros n. destruct (decide (n = length (dr_store dr))) as [->|Hn]; [|by rewrite list_lookup_alter_ne by done].
  rewrite !list_lookup_alter_eq, lookup_app_r, Nat.sub_diag by lia. simpl. rewrite Ha, Hl, !bool_decide_eq_true_2 by done. done.
Qed.

End spec.

(** ** Concrete runs *)

Module Witness.

(** A codec of nodes. *)
#[local] Instance ref_node_json : NodeJSON := {|
  node_Marshal info := to_digits (ni_Type info, ni_ID info, ni_Addr info, ni_Capability info);
  node_Unmarshal s := (λ '(t, id, addr, cap), mkNodeInfo t id addr cap) <$> of_digits s;
|}.

#[local] Instance ref_node_json_laws : NodeJSONLaws.
Proof. split. intros [t id addr cap]. unfold node_Unmarshal, node_Marshal, ref_node_json. by rewrite of_to_digits. Qed.

Definition node1 : NodeInfo := mkNodeInfo NodeTypeExecutor "n1" "addr1" 10.
Definition node2 : NodeInfo := mkNodeInfo NodeTypeExecutor "n2" "addr2" 10.

(** The nodes that etcd knows, as a reset and as a tick see them. *)
Definition sees (infos : list NodeInfo) : ResetEnv := mkResetEnv None (Done (registered infos)).

Definition started : DiscoveryKeepaliver := (Keepalive_start (sees [node1]) (NewDiscoveryKeepaliver true)).2.
Definition started_empty : DiscoveryKeepaliver := (Keepalive_start (sees []) (NewDiscoveryKeepaliver true)).2.

(** After a new session. *)
Definition again : DiscoveryKeepaliver := (Keepalive_select (SessionDone (sees [])) started).2.

Lemma registered_nodes_found_witness :
  ∃ snap, getSnapshot (Done (registered [node1; node2])) = Done snap ∧ (snap !! "n2" = Some node2 ↔ node2 ∈ [node1; node2]).
Proof. apply (registered_nodes_found [node1; node2] node2); [by repeat constructor|]. repeat constructor; set_solver. Defined.


Lemma reset_keeps_old_watcher_witness :
  (sd_running <$> dr_store (ka_runner started) !! 0) = Some true ∧ dr_store (ka_runner again) !! 0 = dr_store (ka_runner started) !! 0.
Proof.
  split; [by vm_compute|]. destruct (dr_store (ka_runner started) !! 0) as [d|] eqn:Hd; [|by vm_compute in Hd].
  apply (reset_keeps_old_watcher (sees []) true (ka_runner started) (ka_runner again) 0 d); [by vm_compute|done].
Defined.

Lemma empty_reset_loses_peers_witness :
  let k' := (Keepalive_select (SessionDone (sees [node1])) started_empty).2 in
  dr_snapshot (ka_runner k') = {["n1" := node1]} ∧ ka_peers k' = Some ∅.
Proof.
  destruct (empty_reset_loses_peers (sees [node1]) started_empty (Keepalive_select (SessionDone (sees [node1])) started_empty).2 {["n1" := node1]} 1) as (H1 & H2 & _); [by vm_compute..|].
  split; [exact H1|]. rewrite H2. by vm_compute.
Defined.

End Witness.
