(* ===== verification/Configs.v ===== *)
(** * Configuration ([executor/config.go], [servermaster/config.go], [pkg/etcdutils])

    The command line parser of the [flag] package and [time.ParseDuration], as far as the
    two servers use them; the configuration of the executor, read from the command line,
    a file and the command line again; the adjustment of the server master's; and the
    preparation of a member that joins an etcd cluster. Decoding a TOML file, etcd and the
    floating point product of a fractional duration are arguments. *)

From S2P Require Import Prelude Errors Model.
From Stdlib Require Import Ascii.

(** ** Strings *)

(** [strings.Split] with a separator of one character. *)
Fixpoint SplitOn (sep : ascii) (s : string) : list string :=
  match s with
  | EmptyString => [""]
  | String a s =>
      if decide (a = sep) then "" :: SplitOn sep s
      else match SplitOn sep s with
           | [] => [String a ""]
           | x :: l => String a x :: l
           end
  end.

(** [strings.TrimSpace] on ASCII text. *)
Definition is_space (a : ascii) : bool :=
  bool_decide (nat_of_ascii a ∈ [9; 10; 11; 12; 13; 32]).
Fixpoint drop_spaces (l : list ascii) : list ascii :=
  match l with
  | a :: l' => if is_space a then drop_spaces l' else l
  | [] => []
  end.
Definition TrimSpace (s : string) : string :=
  String.string_of_list_ascii (rev (drop_spaces (rev (drop_spaces (String.list_ascii_of_string s))))).

(** ** [flag] *)

(** A flag is bound to a field. *)
Inductive flag_value (C : Type) : Type :=
| StringVar (get : C → string) (set : string → C → C)
| BoolVar (get : C → bool) (set : bool → C → C).
Arguments StringVar {C}.
Arguments BoolVar {C}.

Abbreviation FlagSet C := (gmap string (flag_value C)).

Inductive flag_token : Type :=
| NotAFlag
| Terminator
| BadSyntax
| Flag (name : string) (value : option string).

(** The name and the text after the first "=". *)
Fixpoint split_value (s : string) : string * option string :=
  match s with
  | EmptyString => ("", None)
  | String a s =>
      if decide (a = "="%char) then ("", Some s)
      else let '(name, value) := split_value s in (String a name, value)
  end.

Definition named_flag (s : string) : flag_token :=
  match s with
  | EmptyString => BadSyntax
  | String a _ =>
      if decide (a = "-"%char ∨ a = "="%char) then BadSyntax
      else let '(name, value) := split_value s in Flag name value
  end.

(** The first lines of [parseOne]. *)
Definition flag_syntax (s : string) : flag_token :=
  match s with
  | String a (String b s') =>
      if negb (bool_decide (a = "-"%char)) then NotAFlag
      else if bool_decide (b = "-"%char) then
        match s' with EmptyString => Terminator | _ => named_flag s' end
      else named_flag (String b s')
  | _ => NotAFlag
  end.

(** [strconv.ParseBool] *)
Definition ParseBool (s : string) : option bool :=
  if bool_decide (s ∈ ["1"; "t"; "T"; "TRUE"; "true"; "True"]) then Some true
  else if bool_decide (s ∈ ["0"; "f"; "F"; "FALSE"; "false"; "False"]) then Some false
  else None.

Definition ErrHelp : goerr := ErrForeign "flag: help requested".

(** [FlagSet.Parse]: the arguments that are left. *)
Fixpoint flag_Parse {C} (fs : FlagSet C) (args : list string) : Go C (list string) := λ c,
  match args with
  | [] => (Done [], c)
  | s :: rest =>
      match flag_syntax s with
      | NotAFlag => (Done args, c)
      | Terminator => (Done rest, c)
      | BadSyntax => (Fail (ErrForeign ("bad flag syntax: " +:+ s)), c)
      | Flag name value =>
          match fs !! name with
          | None =>
              if bool_decide (name = "help" ∨ name = "h") then (Fail ErrHelp, c)
              else (Fail (ErrForeign ("flag provided but not defined: -" +:+ name)), c)
          | Some (BoolVar _ set) =>
              match value with
              | None => flag_Parse fs rest (set true c)
              | Some v =>
                  match ParseBool v with
                  | Some b => flag_Parse fs rest (set b c)
                  | None => (Fail (ErrForeign ("invalid boolean value for -" +:+ name)), c)
                  end
              end
          | Some (StringVar _ set) =>
              match value with
              | Some v => flag_Parse fs rest (set v c)
              | None =>
                  match rest with
                  | v :: rest' => flag_Parse fs rest' (set v c)
                  | [] => (Fail (ErrForeign ("flag needs an argument: -" +:+ name)), c)
                  end
              end
          end
      end
  end.

(** ** [time.ParseDuration] *)

Definition digit (a : ascii) : option Z :=
  let n := nat_of_ascii a in
  if bool_decide (48 ≤ n ∧ n ≤ 57) then Some (Z.of_nat n - 48)%Z else None.

(** [leadingInt]: none when the value exceeds 2^63. *)
Fixpoint leadingInt (x : Z) (s : string) : option (Z * string) :=
  match s with
  | EmptyString => Some (x, s)
  | String a s' =>
      match digit a with
      | None => Some (x, s)
      | Some d =>
          if bool_decide (2 ^ 63 / 10 < x)%Z then None
          else let x := (x * 10 + d)%Z in
               if bool_decide (2 ^ 63 < x)%Z then None else leadingInt x s'
      end
  end.

(** [leadingFraction]: the value and the scale; digits after an overflow are skipped. *)
Fixpoint leadingFraction (x scale : Z) (overflow : bool) (s : string) : Z * Z * string :=
  match s with
  | EmptyString => (x, scale, s)
  | String a s' =>
      match digit a with
      | None => (x, scale, s)
      | Some d =>
          if overflow || bool_decide ((2 ^ 63 - 1) / 10 < x)%Z then leadingFraction x scale true s'
          else let y := (x * 10 + d)%Z in
               if bool_decide (2 ^ 63 < y)%Z then leadingFraction x scale true s'
               else leadingFraction y (scale * 10) false s'
      end
  end.

(** The characters up to the next digit or dot. *)
Fixpoint leadingUnit (s : string) : string * string :=
  match s with
  | EmptyString => ("", "")
  | String a s' =>
      if bool_decide (a = "."%char) || bool_decide (is_Some (digit a)) then ("", s)
      else let '(u, rest) := leadingUnit s' in (String a u, rest)
  end.

Definition unitMap : list (string * Z) :=
  [("ns", 1); ("us", 1000); ("µs", 1000); ("μs", 1000); ("ms", Millisecond); ("s", Second);
   ("m", 60 * Second); ("h", 3600 * Second)]%Z.

Definition unit_of (u : string) : option Z := (list_to_map unitMap : gmap string Z) !! u.

Section duration.
(** [uint64(float64(f) * (float64(unit) / scale))] *)
Variable fraction : Z → Z → Z → Z.

(** The fraction after a dot, and whether it has a digit. *)
Definition optionalFraction (s : string) : Z * Z * string * bool :=
  match s with
  | String a s' =>
      if bool_decide (a = "."%char) then
        let '(f, scale, rest) := leadingFraction 0 1 false s' in (f, scale, rest, negb (bool_decide (rest = s')))
      else (0, 1, s, false)%Z
  | EmptyString => (0, 1, s, false)%Z
  end.

(** One number with its unit: the body of the loop. *)
Definition parse_term (s : string) : option (Z * string) :=
  match leadingInt 0 s with
  | None => None
  | Some (v, s1) =>
      let pre := negb (bool_decide (s1 = s)) in
      let '(f, scale, s2, post) := optionalFraction s1 in
      if negb pre && negb post then None else
      let '(u, rest) := leadingUnit s2 in
      if bool_decide (u = "") then None else
      match unit_of u with
      | None => None
      | Some unit =>
          if bool_decide (2 ^ 63 / unit < v)%Z then None else
          let v := (if bool_decide (0 < f) then v * unit + fraction f unit scale else v * unit)%Z in
          if bool_decide (2 ^ 63 < v)%Z then None else Some (v, rest)
      end
  end.

(** The loop; [fuel] bounds the number of terms. *)
Fixpoint parse_terms (fuel : nat) (d : Z) (s : string) : option Z :=
  match s with
  | EmptyString => Some d
  | String _ _ =>
      match fuel with
      | 0 => None
      | S fuel =>
          match parse_term s with
          | None => None
          | Some (v, rest) => if bool_decide (2 ^ 63 < d + v)%Z then None else parse_terms fuel (d + v) rest
          end
      end
  end.

Definition ParseDuration (s : string) : option Duration :=
  let '(neg, s) := match s with
                   | String a s' => if bool_decide (a = "-"%char) then (true, s')
                                    else if bool_decide (a = "+"%char) then (false, s') else (false, s)
                   | EmptyString => (false, s)
                   end in
  if bool_decide (s = "0") then Some 0%Z
  else if bool_decide (s = "") then None
  else match parse_terms (String.length s) 0 s with
       | None => None
       | Some d => if neg then Some (int64 (- d)) else if bool_decide (2 ^ 63 - 1 < d)%Z then None else Some d
       end.

End duration.

(** ** [executor/config.go] *)

Record Config := mkConfig {
  cf_Name : string;
  cf_LogLevel : string;
  cf_LogFile : string;
  cf_LogFormat : string;
  cf_LogRotate : string;
  cf_Join : string;
  cf_WorkerAddr : string;
  cf_AdvertiseAddr : string;
  cf_SessionTTL : Z;
  cf_ConfigFile : string;
  cf_KeepAliveTTLStr : string;
  cf_KeepAliveIntervalStr : string;
  cf_RPCTimeoutStr : string;
  cf_PollConcurrency : Z;
  cf_KeepAliveTTL : Duration;
  cf_KeepAliveInterval : Duration;
  cf_RPCTimeout : Duration;
  cf_printVersion : bool;
  cf_printSampleConfig : bool;
}.

Definition set_Name (v : string) (c : Config) : Config :=
  mkConfig v (cf_LogLevel c) (cf_LogFile c) (cf_LogFormat c) (cf_LogRotate c) (cf_Join c) (cf_WorkerAddr c) (cf_AdvertiseAddr c) (cf_SessionTTL c)
    (cf_ConfigFile c) (cf_KeepAliveTTLStr c) (cf_KeepAliveIntervalStr c) (cf_RPCTimeoutStr c) (cf_PollConcurrency c) (cf_KeepAliveTTL c) (cf_KeepAliveInterval c) (cf_RPCTimeout c) (cf_printVersion c) (cf_printSampleConfig c).
Definition set_LogLevel (v : string) (c : Config) : Config :=
  mkConfig (cf_Name c) v (cf_LogFile c) (cf_LogFormat c) (cf_LogRotate c) (cf_Join c) (cf_WorkerAddr c) (cf_AdvertiseAddr c) (cf_SessionTTL c)
    (cf_ConfigFile c) (cf_KeepAliveTTLStr c) (cf_KeepAliveIntervalStr c) (cf_RPCTimeoutStr c) (cf_PollConcurrency c) (cf_KeepAliveTTL c) (cf_KeepAliveInterval c) (cf_RPCTimeout c) (cf_printVersion c) (cf_printSampleConfig c).
Definition set_LogFile (v : string) (c : Config) : Config :=
  mkConfig (cf_Name c) (cf_LogLevel c) v (cf_LogFormat c) (cf_LogRotate c) (cf_Join c) (cf_WorkerAddr c) (cf_AdvertiseAddr c) (cf_SessionTTL c)
    (cf_ConfigFile c) (cf_KeepAliveTTLStr c) (cf_KeepAliveIntervalStr c) (cf_RPCTimeoutStr c) (cf_PollConcurrency c) (cf_KeepAliveTTL c) (cf_KeepAliveInterval c) (cf_RPCTimeout c) (cf_printVersion c) (cf_printSampleConfig c).
Definition set_LogFormat (v : string) (c : Config) : Config :=
  mkConfig (cf_Name c) (cf_LogLevel c) (cf_LogFile c) v (cf_LogRotate c) (cf_Join c) (cf_WorkerAddr c) (cf_AdvertiseAddr c) (cf_SessionTTL c)
    (cf_ConfigFile c) (cf_KeepAliveTTLStr c) (cf_KeepAliveIntervalStr c) (cf_RPCTimeoutStr c) (cf_PollConcurrency c) (cf_KeepAliveTTL c) (cf_KeepAliveInterval c) (cf_RPCTimeout c) (cf_printVersion c) (cf_printSampleConfig c).
Definition set_Join (v : string) (c : Config) : Config :=
  mkConfig (cf_Name c) (cf_LogLevel c) (cf_LogFile c) (cf_LogFormat c) (cf_LogRotate c) v (cf_WorkerAddr c) (cf_AdvertiseAddr c) (cf_SessionTTL c)
    (cf_ConfigFile c) (cf_KeepAliveTTLStr c) (cf_KeepAliveIntervalStr c) (cf_RPCTimeoutStr c) (cf_PollConcurrency c) (cf_KeepAliveTTL c) (cf_KeepAliveInterval c) (cf_RPCTimeout c) (cf_printVersion c) (cf_printSampleConfig c).
Definition set_WorkerAddr (v : string) (c : Config) : Config :=
  mkConfig (cf_Name c) (cf_LogLevel c) (cf_LogFile c) (cf_LogFormat c) (cf_LogRotate c) (cf_Join c) v (cf_AdvertiseAddr c) (cf_SessionTTL c)
    (cf_ConfigFile c) (cf_KeepAliveTTLStr c) (cf_KeepAliveIntervalStr c) (cf_RPCTimeoutStr c) (cf_PollConcurrency c) (cf_KeepAliveTTL c) (cf_KeepAliveInterval c) (cf_RPCTimeout c) (cf_printVersion c) (cf_printSampleConfig c).
Definition set_AdvertiseAddr (v : string) (c : Config) : Config :=
  mkConfig (cf_Name c) (cf_LogLevel c) (cf_LogFile c) (cf_LogFormat c) (cf_LogRotate c) (cf_Join c) (cf_WorkerAddr c) v (cf_SessionTTL c)
    (cf_ConfigFile c) (cf_KeepAliveTTLStr c) (cf_KeepAliveIntervalStr c) (cf_RPCTimeoutStr c) (cf_PollConcurrency c) (cf_KeepAliveTTL c) (cf_KeepAliveInterval c) (cf_RPCTimeout c) (cf_printVersion c) (cf_printSampleConfig c).
Definition set_ConfigFile (v : string) (c : Config) : Config :=
  mkConfig (cf_Name c) (cf_LogLevel c) (cf_LogFile c) (cf_LogFormat c) (cf_LogRotate c) (cf_Join c) (cf_WorkerAddr c) (cf_AdvertiseAddr c) (cf_SessionTTL c)
    v (cf_KeepAliveTTLStr c) (cf_KeepAliveIntervalStr c) (cf_RPCTimeoutStr c) (cf_PollConcurrency c) (cf_KeepAliveTTL c) (cf_KeepAliveInterval c) (cf_RPCTimeout c) (cf_printVersion c) (cf_printSampleConfig c).
Definition set_KeepAliveTTLStr (v : string) (c : Config) : Config :=
  mkConfig (cf_Name c) (cf_LogLevel c) (cf_LogFile c) (cf_LogFormat c) (cf_LogRotate c) (cf_Join c) (cf_WorkerAddr c) (cf_AdvertiseAddr c) (cf_SessionTTL c)
    (cf_ConfigFile c) v (cf_KeepAliveIntervalStr c) (cf_RPCTimeoutStr c) (cf_PollConcurrency c) (cf_KeepAliveTTL c) (cf_KeepAliveInterval c) (cf_RPCTimeout c) (cf_printVersion c) (cf_printSampleConfig c).
Definition set_KeepAliveIntervalStr (v : string) (c : Config) : Config :=
  mkConfig (cf_Name c) (cf_LogLevel c) (cf_LogFile c) (cf_LogFormat c) (cf_LogRotate c) (cf_Join c) (cf_WorkerAddr c) (cf_AdvertiseAddr c) (cf_SessionTTL c)
    (cf_ConfigFile c) (cf_KeepAliveTTLStr c) v (cf_RPCTimeoutStr c) (cf_PollConcurrency c) (cf_KeepAliveTTL c) (cf_KeepAliveInterval c) (cf_RPCTimeout c) (cf_printVersion c) (cf_printSampleConfig c).
Definition set_RPCTimeoutStr (v : string) (c : Config) : Config :=
  mkConfig (cf_Name c) (cf_LogLevel c) (cf_LogFile c) (cf_LogFormat c) (cf_LogRotate c) (cf_Join c) (cf_WorkerAddr c) (cf_AdvertiseAddr c) (cf_SessionTTL c)
    (cf_ConfigFile c) (cf_KeepAliveTTLStr c) (cf_KeepAliveIntervalStr c) v (cf_PollConcurrency c) (cf_KeepAliveTTL c) (cf_KeepAliveInterval c) (cf_RPCTimeout c) (cf_printVersion c) (cf_printSampleConfig c).
Definition set_PollConcurrency (v : Z) (c : Config) : Config :=
  mkConfig (cf_Name c) (cf_LogLevel c) (cf_LogFile c) (cf_LogFormat c) (cf_LogRotate c) (cf_Join c) (cf_WorkerAddr c) (cf_AdvertiseAddr c) (cf_SessionTTL c)
    (cf_ConfigFile c) (cf_KeepAliveTTLStr c) (cf_KeepAliveIntervalStr c) (cf_RPCTimeoutStr c) v (cf_KeepAliveTTL c) (cf_KeepAliveInterval c) (cf_RPCTimeout c) (cf_printVersion c) (cf_printSampleConfig c).
Definition set_KeepAliveTTL (v : Duration) (c : Config) : Config :=
  mkConfig (cf_Name c) (cf_LogLevel c) (cf_LogFile c) (cf_LogFormat c) (cf_LogRotate c) (cf_Join c) (cf_WorkerAddr c) (cf_AdvertiseAddr c) (cf_SessionTTL c)
    (cf_ConfigFile c) (cf_KeepAliveTTLStr c) (cf_KeepAliveIntervalStr c) (cf_RPCTimeoutStr c) (cf_PollConcurrency c) v (cf_KeepAliveInterval c) (cf_RPCTimeout c) (cf_printVersion c) (cf_printSampleConfig c).
Definition set_KeepAliveInterval (v : Duration) (c : Config) : Config :=
  mkConfig (cf_Name c) (cf_LogLevel c) (cf_LogFile c) (cf_LogFormat c) (cf_LogRotate c) (cf_Join c) (cf_WorkerAddr c) (cf_AdvertiseAddr c) (cf_SessionTTL c)
    (cf_ConfigFile c) (cf_KeepAliveTTLStr c) (cf_KeepAliveIntervalStr c) (cf_RPCTimeoutStr c) (cf_PollConcurrency c) (cf_KeepAliveTTL c) v (cf_RPCTimeout c) (cf_printVersion c) (cf_printSampleConfig c).
Definition set_RPCTimeout (v : Duration) (c : Config) : Config :=
  mkConfig (cf_Name c) (cf_LogLevel c) (cf_LogFile c) (cf_LogFormat c) (cf_LogRotate c) (cf_Join c) (cf_WorkerAddr c) (cf_AdvertiseAddr c) (cf_SessionTTL c)
    (cf_ConfigFile c) (cf_KeepAliveTTLStr c) (cf_KeepAliveIntervalStr c) (cf_RPCTimeoutStr c) (cf_PollConcurrency c) (cf_KeepAliveTTL c) (cf_KeepAliveInterval c) v (cf_printVersion c) (cf_printSampleConfig c).
Definition set_printVersion (v : bool) (c : Config) : Config :=
  mkConfig (cf_Name c) (cf_LogLevel c) (cf_LogFile c) (cf_LogFormat c) (cf_LogRotate c) (cf_Join c) (cf_WorkerAddr c) (cf_AdvertiseAddr c) (cf_SessionTTL c)
    (cf_ConfigFile c) (cf_KeepAliveTTLStr c) (cf_KeepAliveIntervalStr c) (cf_RPCTimeoutStr c) (cf_PollConcurrency c) (cf_KeepAliveTTL c) (cf_KeepAliveInterval c) (cf_RPCTimeout c) v (cf_printSampleConfig c).
Definition set_printSampleConfig (v : bool) (c : Config) : Config :=
  mkConfig (cf_Name c) (cf_LogLevel c) (cf_LogFile c) (cf_LogFormat c) (cf_LogRotate c) (cf_Join c) (cf_WorkerAddr c) (cf_AdvertiseAddr c) (cf_SessionTTL c)
    (cf_ConfigFile c) (cf_KeepAliveTTLStr c) (cf_KeepAliveIntervalStr c) (cf_RPCTimeoutStr c) (cf_PollConcurrency c) (cf_KeepAliveTTL c) (cf_KeepAliveInterval c) (cf_RPCTimeout c) (cf_printVersion c) v.

Definition defaultKeepAliveTTL : string := "20s".
Definition defaultKeepAliveInterval : string := "500ms".
Definition defaultRPCTimeout : string := "3s".
Definition defaultCapability : Z := 100%Z.

Definition executorFlags : FlagSet Config := list_to_map
  [("V", BoolVar cf_printVersion set_printVersion);
   ("print-sample-config", BoolVar cf_printSampleConfig set_printSampleConfig);
   ("config", StringVar cf_ConfigFile set_ConfigFile);
   ("worker-addr", StringVar cf_WorkerAddr set_WorkerAddr);
   ("advertise-addr", StringVar cf_AdvertiseAddr set_AdvertiseAddr);
   ("L", StringVar cf_LogLevel set_LogLevel);
   ("log-file", StringVar cf_LogFile set_LogFile);
   ("log-format", StringVar cf_LogFormat set_LogFormat);
   ("join", StringVar cf_Join set_Join);
   ("name", StringVar cf_Name set_Name);
   ("keepalive-ttl", StringVar cf_KeepAliveTTLStr set_KeepAliveTTLStr)].

(** A flag sets its default when it is defined. *)
Definition NewConfig : Config :=
  mkConfig "" "info" "" "text" "" "" "" "" 0 "" defaultKeepAliveTTL "" "" 0 0 0 0 false false.

Section executor_config.
(** [toml.DecodeFile] into the configuration: the keys that were not decoded. *)
Variable toml_DecodeFile : string → Go Config (list string).
Variable fraction : Z → Z → Z → Z.
Variable NumCPU : Z.

Definition configFromFile (path : string) : Go Config unit := λ c,
  match toml_DecodeFile path c with
  | (Done undecoded, c') =>
      if bool_decide (0 < length undecoded)
      then (Fail (GoErr ErrExecutorConfigUnknownItem (String.concat "," undecoded)), c')
      else (Done tt, c')
  | (Fail err, c') => (Fail (GoWrap ErrExecutorDecodeConfigFile err), c')
  | (Panic, c') => (Panic, c')
  end.

(** A duration with a default for its text; the field is zero after an error. *)
Definition parse_duration_field (str : Config → string) (set_str : string → Config → Config) (set : Duration → Config → Config)
    (default : string) : Go Config unit := λ c,
  let c := if bool_decide (str c = "") then set_str default c else c in
  match ParseDuration fraction (str c) with
  | Some d => (Done tt, set d c)
  | None => (Fail (ErrForeign ("time: invalid duration " +:+ str c)), set 0%Z c)
  end.

Definition parse_flags (arguments : list string) : Go Config (list string) := λ c,
  match flag_Parse executorFlags arguments c with
  | (Done rest, c') => (Done rest, c')
  | (Fail err, c') => (Fail (GoWrap ErrExecutorConfigParseFlagSet err), c')
  | (Panic, c') => (Panic, c')
  end.

(** What follows the second reading of the command line. *)
Definition parse_finish (rest : list string) : Go Config unit :=
  match rest with
  | arg :: _ => throw (GoErr ErrExecutorConfigInvalidFlag arg)
  | [] =>
      _ ← parse_duration_field cf_KeepAliveIntervalStr set_KeepAliveIntervalStr set_KeepAliveInterval defaultKeepAliveInterval;
      _ ← parse_duration_field cf_KeepAliveTTLStr set_KeepAliveTTLStr set_KeepAliveTTL defaultKeepAliveTTL;
      _ ← parse_duration_field cf_RPCTimeoutStr set_RPCTimeoutStr set_RPCTimeout defaultRPCTimeout;
      modify (λ c, let c := if bool_decide (cf_PollConcurrency c = 0%Z) then set_PollConcurrency NumCPU c else c in
                   if bool_decide (cf_AdvertiseAddr c = "") then set_AdvertiseAddr (cf_WorkerAddr c) c else c)
  end.

Definition Config_Parse (arguments : list string) : Go Config unit :=
  _ ← parse_flags arguments;
  c ← get;
  if cf_printSampleConfig c then throw ErrHelp else
  _ ← (if bool_decide (cf_ConfigFile c = "") then mret tt else configFromFile (cf_ConfigFile c));
  rest ← parse_flags arguments;
  parse_finish rest.

End executor_config.

(** ** [pkg/etcdutils/config.go] *)

Record ConfigParams := mkConfigParams {
  cp_Name : string;
  cp_DataDir : string;
  cp_PeerUrls : string;
  cp_AdvertisePeerUrls : string;
  cp_InitialCluster : string;
  cp_InitialClusterState : string;
  cp_Join : string;
}.

Definition orDefault (s default : string) : string := if bool_decide (s = "") then default else s.

Definition ConfigParams_Adjust (defaultPeerUrls defaultInitialClusterState : string) (cp : ConfigParams) : ConfigParams :=
  let peers := orDefault (cp_PeerUrls cp) defaultPeerUrls in
  let advertised := orDefault (cp_AdvertisePeerUrls cp) peers in
  let cluster := orDefault (cp_InitialCluster cp)
                   (String.concat "," ((λ item, cp_Name cp +:+ "=" +:+ item) <$> SplitOn "," advertised)) in
  mkConfigParams (cp_Name cp) (cp_DataDir cp) peers advertised cluster
    (orDefault (cp_InitialClusterState cp) defaultInitialClusterState) (cp_Join cp).

(** [strings.HasPrefix] *)
Definition HasPrefix (p s : string) : bool := String.prefix p s.

(** A URL: its host, and the rest of it. *)
Record URL := mkURL { u_Host : string; u_rest : string }.

Section etcd_config.
(** [url.Parse] *)
Variable url_Parse : string → res goerr URL.

Definition parseURL (item : string) : res goerr URL :=
  let item := if HasPrefix "http://" item || HasPrefix "https://" item then item else "http://" +:+ item in
  match url_Parse item with
  | Done u => Done (if HasPrefix ":" (u_Host u) then mkURL ("0.0.0.0" +:+ u_Host u) (u_rest u) else u)
  | Fail err => Fail (GoWrap ErrMasterParseURLFail err)
  | Panic => Panic
  end.

Fixpoint parse_items (items : list string) : res goerr (list URL) :=
  match items with
  | [] => Done []
  | item :: items =>
      match parseURL item with
      | Done u => match parse_items items with Done us => Done (u :: us) | out => out end
      | Fail err => Fail err
      | Panic => Panic
      end
  end.

Definition parseURLs (s : string) : res goerr (list URL) :=
  if bool_decide (s = "") then Done [] else parse_items (SplitOn "," s).

(** The fields of [embed.Config] that are set. *)
Record EmbedConfig := mkEmbedConfig {
  ec_Name : string;
  ec_Dir : string;
  ec_LCUrls : list URL;
  ec_ACUrls : list URL;
  ec_LPUrls : list URL;
  ec_APUrls : list URL;
  ec_InitialCluster : string;
  ec_ClusterState : string;
}.

(** [Validate] is etcd's own check. *)
Variable Validate : EmbedConfig → option goerr.

Definition GenEmbedEtcdConfig (addrs advertiseAddrs : string) (cp : ConfigParams) : res goerr EmbedConfig :=
  let wrap {A} (r : res goerr A) (k : A → res goerr EmbedConfig) : res goerr EmbedConfig :=
    match r with
    | Done a => k a
    | Fail err => Fail (GoWrap ErrMasterGenEmbedEtcdConfigFail err)
    | Panic => Panic
    end in
  wrap (parseURLs addrs) (λ lc, wrap (parseURLs advertiseAddrs) (λ ac,
  wrap (parseURLs (cp_PeerUrls cp)) (λ lp, wrap (parseURLs (cp_AdvertisePeerUrls cp)) (λ ap,
    let cfg := mkEmbedConfig (cp_Name cp) (cp_DataDir cp) lc ac lp ap (cp_InitialCluster cp) (cp_InitialClusterState cp) in
    match Validate cfg with
    | Some err => Fail (GoWrap ErrMasterGenEmbedEtcdConfigFail err)
    | None => Done cfg
    end)))).

End etcd_config.

(** ** [servermaster/config.go] *)

Definition defaultPeerUrls : string := "http://127.0.0.1:8291".
(** [embed.ClusterStateFlagNew], [embed.ClusterStateFlagExisting] *)
Definition defaultInitialClusterState : string := "new".
Definition ClusterStateFlagExisting : string := "existing".

(** The fields that [adjust] reads and writes. *)
Record MasterConfig := mkMasterConfig {
  mc_MasterAddr : string;
  mc_AdvertiseAddr : string;
  mc_Etcd : ConfigParams;
  mc_KeepAliveTTLStr : string;
  mc_KeepAliveIntervalStr : string;
  mc_RPCTimeoutStr : string;
  mc_KeepAliveTTL : Duration;
  mc_KeepAliveInterval : Duration;
  mc_RPCTimeout : Duration;
}.

(** On an error the configuration is of no use. *)
Definition MasterConfig_adjust (fraction : Z → Z → Z → Z) (c : MasterConfig) : option MasterConfig :=
  let interval := orDefault (mc_KeepAliveIntervalStr c) defaultKeepAliveInterval in
  let ttl := orDefault (mc_KeepAliveTTLStr c) defaultKeepAliveTTL in
  let timeout := orDefault (mc_RPCTimeoutStr c) defaultRPCTimeout in
  match ParseDuration fraction interval, ParseDuration fraction ttl, ParseDuration fraction timeout with
  | Some i, Some t, Some r =>
      Some (mkMasterConfig (mc_MasterAddr c) (orDefault (mc_AdvertiseAddr c) (mc_MasterAddr c))
              (ConfigParams_Adjust defaultPeerUrls defaultInitialClusterState (mc_Etcd c)) ttl interval timeout t i r)
  | _, _, _ => None
  end.

(** ** [pkg/etcdutils/join.go] *)

Record EtcdMember := mkMemberEntry { me_ID : Z; me_Name : string; me_PeerURLs : list string }.

(** The process: its configuration, the two paths it looks at under the data directory,
    and the members of the cluster it joins. *)
Record JoinSt := mkJoinSt {
  jo_cfg : ConfigParams;
  jo_wal : bool;
  jo_joinFile : option string;
  jo_members : list EtcdMember;
}.

Definition set_cluster (cluster : string) (s : JoinSt) : JoinSt :=
  let c := jo_cfg s in
  mkJoinSt (mkConfigParams (cp_Name c) (cp_DataDir c) (cp_PeerUrls c) (cp_AdvertisePeerUrls c) cluster ClusterStateFlagExisting (cp_Join c))
    (jo_wal s) (jo_joinFile s) (jo_members s).
Definition set_members (l : list EtcdMember) (s : JoinSt) : JoinSt := mkJoinSt (jo_cfg s) (jo_wal s) (jo_joinFile s) l.
Definition set_joinFile (data : string) (s : JoinSt) : JoinSt := mkJoinSt (jo_cfg s) (jo_wal s) (Some data) (jo_members s).

(** What may fail: reading the file other than for its absence, the client, the two calls
    of etcd (the list or the id of the new member), the directory and the file. *)
Record JoinEnv := mkJoinEnv {
  je_read : option goerr;
  je_client : option goerr;
  je_list : option goerr;
  je_add : list EtcdMember → list string → res goerr (Z * list EtcdMember);
  je_mkdir : option goerr;
  je_write : option goerr;
}.

Definition joinFail (err : goerr) : goerr := GoWrap ErrMasterJoinEmbedEtcdFail err.
Definition notJoined : goerr := GoErr ErrMasterJoinEmbedEtcdFail "there is a member that has not joined successfully, continue the join or remove it".

(** The check of the members, in the order of the list. *)
Fixpoint check_members (name : string) (ms : list EtcdMember) : option goerr :=
  match ms with
  | [] => None
  | m :: ms =>
      if bool_decide (me_Name m = "") then Some notJoined
      else if bool_decide (me_Name m = name)
      then Some (GoErr ErrMasterJoinEmbedEtcdFail ("missing data or joining a duplicate member " +:+ me_Name m))
      else check_members name ms
  end.

(** The items of [initial-cluster]: [name=url] for every url of every member. *)
Fixpoint cluster_items (name : string) (self : Z) (ms : list EtcdMember) : res goerr (list string) :=
  match ms with
  | [] => Done []
  | m :: ms =>
      let n := if bool_decide (me_ID m = self) then name else me_Name m in
      if bool_decide (n = "") then Fail notJoined
      else match cluster_items name self ms with
           | Done items => Done (((λ url, n +:+ "=" +:+ url) <$> me_PeerURLs m) ++ items)
           | out => out
           end
  end.

Definition orFail {S} (err : option goerr) : Go S unit := match err with Some e => throw (joinFail e) | None => mret tt end.

(** Joining as a new member, when there is no data of an earlier start. *)
Definition join_cluster (env : JoinEnv) : Go JoinSt unit :=
  _ ← orFail (je_client env);
  _ ← orFail (je_list env);
  s ← get;
  match check_members (cp_Name (jo_cfg s)) (jo_members s) with
  | Some err => throw err
  | None =>
      match je_add env (jo_members s) (SplitOn "," (cp_AdvertisePeerUrls (jo_cfg s))) with
      | Fail err => throw (joinFail err)
      | Panic => panic
      | Done (self, members) =>
          _ ← modify (set_members members);
          match cluster_items (cp_Name (jo_cfg s)) self members with
          | Fail err => throw err
          | Panic => panic
          | Done items =>
              let cluster := String.concat "," items in
              _ ← modify (set_cluster cluster);
              _ ← orFail (je_mkdir env);
              _ ← orFail (je_write env);
              modify (set_joinFile cluster)
          end
      end
  end.

Definition PrepareJoinEtcd (env : JoinEnv) (addr : string) : Go JoinSt unit :=
  s ← get;
  if bool_decide (cp_Join (jo_cfg s) = "") then mret tt
  else if bool_decide (cp_Join (jo_cfg s) = addr) then throw (GoErr ErrMasterJoinEmbedEtcdFail "join self is forbidden")
  else if jo_wal s then modify (set_cluster "")
  else
    _ ← orFail (je_read env);
    match jo_joinFile s with
    | Some data => modify (set_cluster (TrimSpace data))
    | None => join_cluster env
    end.

(** ** Specification *)

(** The values a command line gives to the flags of [fs], in order; none when it is
    refused. The names of boolean flags get no value. *)
Fixpoint settings {C} (fs : FlagSet C) (args : list string) : list (string * string) :=
  match args with
  | [] => []
  | s :: rest =>
      match flag_syntax s with
      | Flag name value =>
          match fs !! name, value with
          | Some (StringVar _ _), Some v => (name, v) :: settings fs rest
          | Some (StringVar _ _), None => match rest with v :: rest' => (name, v) :: settings fs rest' | [] => [] end
          | Some (BoolVar _ _), _ => settings fs rest
          | None, _ => []
          end
      | _ => []
      end
  end.

(** The last value given to a flag. *)
Fixpoint last_value (name : string) (l : list (string * string)) : option string :=
  match l with
  | [] => None
  | (n, v) :: l => match last_value name l with Some w => Some w | None => if bool_decide (n = name) then Some v else None end
  end.

(** A well-formed set of flags: a flag reads what it writes and no flag writes another's
    field. *)
Definition independent {C} (fs : FlagSet C) : Prop :=
  ∀ name get set, fs !! name = Some (StringVar get set) →
    (∀ v c, get (set v c) = v) ∧
    (∀ name' get' set', name' ≠ name → fs !! name' = Some (StringVar get' set') → ∀ v c, get (set' v c) = get c) ∧
    (∀ name' get' set', fs !! name' = Some (BoolVar get' set') → ∀ b c, get (set' b c) = get c).

(** What etcd promises of a successful [member add]: the new member, without a name, is
    added to the list, and its id is new. *)
Definition adds_member (env : JoinEnv) : Prop :=
  ∀ ms urls self ms', je_add env ms urls = Done (self, ms') →
    ms' = ms ++ [mkMemberEntry self "" urls] ∧ ∀ m, m ∈ ms → me_ID m ≠ self.

(** The state of the process that joins: a cluster to join, other than itself, and no data
    of an earlier start. *)
Definition joins_fresh (addr : string) (s : JoinSt) : Prop :=
  cp_Join (jo_cfg s) ≠ "" ∧ cp_Join (jo_cfg s) ≠ addr ∧ jo_wal s = false ∧ jo_joinFile s = None.

(** The process started again with its configuration. *)
Definition restarted (s s' : JoinSt) : JoinSt := mkJoinSt (jo_cfg s) (jo_wal s') (jo_joinFile s') (jo_members s').

(** ** Lemmas *)

Section durations.
Context (fraction : Z → Z → Z → Z).

Lemma leadingInt_length x s v rest : leadingInt x s = Some (v, rest) → String.length rest ≤ String.length s.
Proof.
  revert x. induction s as [|a s IH]; intros x; simpl; [naive_solver|]. destruct (digit a); [|naive_solver].
  repeat (case_bool_decide; [done|]). intros Hl%IH. lia.
Qed.

Lemma leadingFraction_length x scale o s : String.length (leadingFraction x scale o s).2 ≤ String.length s.
Proof.
  revert x scale o. induction s as [|a s IH]; intros x scale o; simpl; [done|]. destruct (digit a); [|done].
  destruct (o || _); [etrans; [apply IH|lia]|]. case_bool_decide; (etrans; [apply IH|lia]).
Qed.

Lemma optionalFraction_length s : String.length (optionalFraction s).1.2 ≤ String.length s.
Proof.
  unfold optionalFraction. destruct s as [|a s]; [done|]. case_bool_decide; [|done].
  pose proof (leadingFraction_length 0 1 false s) as Hl. destruct (leadingFraction 0 1 false s) as [[f sc] r]. simpl in *. lia.
Qed.

Lemma leadingUnit_length s : String.length (leadingUnit s).1 + String.length (leadingUnit s).2 = String.length s.
Proof. induction s as [|a s IH]; simpl; [done|]. destruct (_ || _); [done|]. destruct (leadingUnit s). simpl in *. lia. Qed.

Lemma parse_term_shorter s v rest : parse_term fraction s = Some (v, rest) → String.length rest < String.length s.
Proof.
  unfold parse_term. destruct (leadingInt 0 s) as [[n s1]|] eqn:Hi; [|done]. apply leadingInt_length in Hi.
  pose proof (optionalFraction_length s1) as Hf. destruct (optionalFraction s1) as [[[f sc] s2] post]. destruct (_ && _); [done|].
  pose proof (leadingUnit_length s2) as Hu. destruct (leadingUnit s2) as [u r]. case_bool_decide as He; [done|].
  destruct (unit_of u); [|done]. case_bool_decide; [done|]. case_bool_decide; [done|]. intros [= _ <-]. simpl in *.
  destruct u; [done|]. simpl in *. lia.
Qed.

(** The length of the text is enough fuel. *)
Lemma parse_terms_fuel n d s : String.length s ≤ n → parse_terms fraction n d s = parse_terms fraction (String.length s) d s.
Proof.
  revert d s. induction n as [n IH] using lt_wf_ind. intros d [|a s] Hn; [by destruct n|]. destruct n as [|n]; [simpl in Hn; lia|].
  cbn [parse_terms String.length]. destruct (parse_term fraction (String a s)) as [[v rest]|] eqn:Ht; [|done].
  apply parse_term_shorter in Ht. simpl in *. case_bool_decide; [done|].
  rewrite (IH n) by lia. destruct (decide (String.length s = n)) as [->|]; [by rewrite (IH n) by lia|]. by rewrite (IH (String.length s)) by lia.
Qed.

End durations.

Section flags.
Context {C : Type} (fs : FlagSet C).

(** A command line sets a field to the last value it gives to its flag. *)
Lemma flag_Parse_field args c rest c' name get set :
  independent fs → fs !! name = Some (StringVar get set) → flag_Parse fs args c = (Done rest, c') →
  get c' = default (get c) (last_value name (settings fs args)).
Proof.
  intros Hind Hname. revert c. induction args as [args IH] using (induction_ltof1 _ length). unfold ltof in IH. intros c Hp.
  destruct (Hind _ _ _ Hname) as (Hget & Hother & Hbool).
  destruct args as [|s args]; simpl in *; [congruence|].
  destruct (flag_syntax s) as [| | |n value]; [simpl; congruence..|].
  destruct (fs !! n) as [[g st|g st]|] eqn:Hn; [| |by case_bool_decide].
  - assert (∀ v rest', length rest' ≤ length args → flag_Parse fs rest' (st v c) = (Done rest, c') →
      get c' = default (get c) (last_value name ((n, v) :: settings fs rest'))) as Hset.
    { intros v rest' Hl Hv. rewrite (IH rest' ltac:(lia) _ Hv). simpl. destruct (last_value name (settings fs rest')); [done|]. simpl.
      case_bool_decide; simpl; [subst n; rewrite Hn in Hname; injection Hname as -> ->; apply Hget|by apply (Hother n g)]. }
    destruct value as [v|]; [by apply Hset|]. destruct args as [|v args]; [done|]. apply Hset; [simpl; lia|done].
  - destruct value as [v|].
    + destruct (ParseBool v) as [b|]; [|done]. rewrite (IH args ltac:(lia) _ Hp). by rewrite (Hbool n g st Hn).
    + rewrite (IH args ltac:(lia) _ Hp). by rewrite (Hbool n g st Hn).
Qed.

(** A field that no flag writes is kept. *)
Lemma flag_Parse_keeps {A} (p : C → A) args c rest c' :
  (∀ name get set, fs !! name = Some (StringVar get set) → ∀ v c, p (set v c) = p c) →
  (∀ name get set, fs !! name = Some (BoolVar get set) → ∀ b c, p (set b c) = p c) →
  flag_Parse fs args c = (Done rest, c') → p c' = p c.
Proof.
  intros Hs Hb. revert c. induction args as [args IH] using (induction_ltof1 _ length). unfold ltof in IH. intros c Hp.
  destruct args as [|s args]; simpl in *; [congruence|].
  destruct (flag_syntax s) as [| | |n value]; [congruence..|].
  destruct (fs !! n) as [[g st|g st]|] eqn:Hn; [| |by case_bool_decide].
  - destruct value as [v|]; [rewrite (IH args ltac:(lia) _ Hp); by eapply Hs|].
    destruct args as [|v args]; [done|]. rewrite (IH args ltac:(simpl; lia) _ Hp). by eapply Hs.
  - destruct value as [v|]; [destruct (ParseBool v) as [b|]; [|done]|]; rewrite (IH args ltac:(lia) _ Hp); by eapply Hb.
Qed.

End flags.

Lemma executorFlags_cases name get set :
  executorFlags !! name = Some (StringVar get set) →
  (name, get, set) ∈ [("config", cf_ConfigFile, set_ConfigFile); ("worker-addr", cf_WorkerAddr, set_WorkerAddr);
                      ("advertise-addr", cf_AdvertiseAddr, set_AdvertiseAddr); ("L", cf_LogLevel, set_LogLevel);
                      ("log-file", cf_LogFile, set_LogFile); ("log-format", cf_LogFormat, set_LogFormat);
                      ("join", cf_Join, set_Join); ("name", cf_Name, set_Name); ("keepalive-ttl", cf_KeepAliveTTLStr, set_KeepAliveTTLStr)].
Proof.
  intros H. unfold executorFlags in H. apply elem_of_list_to_map_2 in H.
  repeat (apply elem_of_cons in H as [H|H]; [first [discriminate H|injection H as -> -> ->; set_solver]|]). by apply elem_of_nil in H.
Qed.

Ltac each_flag H := repeat (apply elem_of_cons in H as [H|H]; [injection H as -> -> ->|]); [..|by apply elem_of_nil in H].

Lemma executorFlags_bools name get set :
  executorFlags !! name = Some (BoolVar get set) →
  (get, set) ∈ [(cf_printVersion, set_printVersion); (cf_printSampleConfig, set_printSampleConfig)].
Proof.
  intros H. unfold executorFlags in H. apply elem_of_list_to_map_2 in H.
  repeat (apply elem_of_cons in H as [H|H]; [first [discriminate H|injection H as -> -> ->; set_solver]|]). by apply elem_of_nil in H.
Qed.

Lemma executorFlags_independent : independent executorFlags.
Proof.
  intros name g st H. apply executorFlags_cases in H. split_and!.
  - by each_flag H.
  - intros name' g' st' Hne H'. apply executorFlags_cases in H'. each_flag H; each_flag H'; done.
  - intros name' g' st' H'. apply executorFlags_bools in H'.
    repeat (apply elem_of_cons in H' as [H'|H']; [injection H' as -> ->; by each_flag H|]). by apply elem_of_nil in H'.
Qed.

Section executor_lemmas.
Context (toml_DecodeFile : string → Go Config (list string)) (fraction : Z → Z → Z → Z) (NumCPU : Z).

Lemma parse_duration_field_Done (str : Config → string) set_str set def c c' :
  (∀ v c, str (set_str v c) = v) → (∀ c, set_str (str c) c = c) →
  parse_duration_field fraction str set_str set def c = (Done tt, c') →
  ∃ d, ParseDuration fraction (orDefault (str c) def) = Some d ∧ c' = set d (set_str (orDefault (str c) def) c).
Proof.
  intros Hget Hset H. unfold parse_duration_field in H. unfold orDefault.
  case_bool_decide as He; [rewrite Hget in H|]; (destruct (ParseDuration _ _) as [d|]; [|done]); injection H as <-; exists d; [done|].
  by rewrite Hset.
Qed.

Lemma set_str_id c :
  set_KeepAliveIntervalStr (cf_KeepAliveIntervalStr c) c = c ∧ set_KeepAliveTTLStr (cf_KeepAliveTTLStr c) c = c ∧
  set_RPCTimeoutStr (cf_RPCTimeoutStr c) c = c ∧ set_AdvertiseAddr (cf_AdvertiseAddr c) c = c ∧ set_PollConcurrency (cf_PollConcurrency c) c = c.
Proof. by destruct c. Qed.

(** The last part of [Parse], field by field. *)
Lemma parse_finish_Done rest c c' :
  parse_finish fraction NumCPU rest c = (Done tt, c') →
  rest = [] ∧
  cf_KeepAliveIntervalStr c' = orDefault (cf_KeepAliveIntervalStr c) defaultKeepAliveInterval ∧
  cf_KeepAliveTTLStr c' = orDefault (cf_KeepAliveTTLStr c) defaultKeepAliveTTL ∧
  cf_RPCTimeoutStr c' = orDefault (cf_RPCTimeoutStr c) defaultRPCTimeout ∧
  ParseDuration fraction (cf_KeepAliveIntervalStr c') = Some (cf_KeepAliveInterval c') ∧
  ParseDuration fraction (cf_KeepAliveTTLStr c') = Some (cf_KeepAliveTTL c') ∧
  ParseDuration fraction (cf_RPCTimeoutStr c') = Some (cf_RPCTimeout c') ∧
  cf_AdvertiseAddr c' = orDefault (cf_AdvertiseAddr c) (cf_WorkerAddr c) ∧
  (cf_ConfigFile c', cf_WorkerAddr c', cf_LogLevel c', cf_LogFile c', cf_LogFormat c', cf_Join c', cf_Name c') =
  (cf_ConfigFile c, cf_WorkerAddr c, cf_LogLevel c, cf_LogFile c, cf_LogFormat c, cf_Join c, cf_Name c).
Proof.
  destruct rest as [|a rest]; [|done]. unfold parse_finish. intros H. split; [done|].
  apply bind_inv_Done in H as ([] & c1 & H1 & H). apply parse_duration_field_Done in H1 as (i & Hi & E1); [|done|apply set_str_id].
  apply bind_inv_Done in H as ([] & c2 & H2 & H). apply parse_duration_field_Done in H2 as (t & Ht & E2); [|done|apply set_str_id].
  apply bind_inv_Done in H as ([] & c3 & H3 & H). apply parse_duration_field_Done in H3 as (r & Hr & E3); [|done|apply set_str_id].
  assert (c' = set_AdvertiseAddr (orDefault (cf_AdvertiseAddr c3) (cf_WorkerAddr c3))
                 (set_PollConcurrency (if bool_decide (cf_PollConcurrency c3 = 0%Z) then NumCPU else cf_PollConcurrency c3) c3)) as ->.
  { unfold modify in H. injection H as <-. destruct c3. unfold orDefault, set_PollConcurrency, set_AdvertiseAddr. cbn [cf_PollConcurrency cf_AdvertiseAddr cf_WorkerAddr].
    repeat (case_bool_decide; cbn [cf_PollConcurrency cf_AdvertiseAddr cf_WorkerAddr] in * ); done. }
  subst c1 c2 c3. destruct c. cbn in Hi, Ht, Hr |- *. done.
Qed.

Lemma parse_flags_field args c rest c' name get set :
  executorFlags !! name = Some (StringVar get set) → parse_flags args c = (Done rest, c') →
  get c' = default (get c) (last_value name (settings executorFlags args)).
Proof.
  intros Hn H. unfold parse_flags in H. destruct (flag_Parse executorFlags args c) as [[r|e|] c1] eqn:Hp; [|done..].
  injection H as <- <-. eapply flag_Parse_field; eauto using executorFlags_independent.
Qed.

(** The two durations without a flag. *)
Lemma parse_flags_keeps args c rest c' :
  parse_flags args c = (Done rest, c') →
  (cf_KeepAliveIntervalStr c', cf_RPCTimeoutStr c') = (cf_KeepAliveIntervalStr c, cf_RPCTimeoutStr c).
Proof.
  intros H. unfold parse_flags in H. destruct (flag_Parse executorFlags args c) as [[r|e|] c1] eqn:Hp; [|done..]. injection H as <- <-.
  apply (flag_Parse_keeps executorFlags (λ c, (cf_KeepAliveIntervalStr c, cf_RPCTimeoutStr c)) _ _ _ _) in Hp; [done|..].
  - intros name g st Hn. apply executorFlags_cases in Hn. by each_flag Hn.
  - intros name g st Hn. apply executorFlags_bools in Hn. by repeat (apply elem_of_cons in Hn as [Hn|Hn]; [injection Hn as -> ->|]); [..|apply elem_of_nil in Hn].
Qed.

(** [Parse] ends with a reading of the command line into some configuration, and the
    adjustments. *)
Lemma Config_Parse_Done args c c' :
  Config_Parse toml_DecodeFile fraction NumCPU args c = (Done tt, c') →
  ∃ c1 c2 rest, parse_flags args c1 = (Done rest, c2) ∧ parse_finish fraction NumCPU rest c2 = (Done tt, c') ∧
    (last_value "config" (settings executorFlags args) = None → cf_ConfigFile c = "" → ∃ rest0, parse_flags args c = (Done rest0, c1)).
Proof.
  unfold Config_Parse. intros H. apply bind_inv_Done in H as (r0 & c0 & H0 & H). apply bind_inv_Done in H as (? & ? & Hg & H). injection Hg as <- <-.
  destruct (cf_printSampleConfig c0); [done|]. apply bind_inv_Done in H as ([] & c1 & H1 & H). apply bind_inv_Done in H as (rest & c2 & H2 & H).
  exists c1, c2, rest. split_and!; [done..|]. intros Hno Hc. case_bool_decide as He; [injection H1 as <-; by eauto|].
  exfalso. apply He. rewrite (parse_flags_field _ _ _ _ "config" cf_ConfigFile set_ConfigFile eq_refl H0), Hno. done.
Qed.

End executor_lemmas.

Section join_lemmas.

Lemma check_members_nameless name ms m : m ∈ ms → me_Name m = "" → is_Some (check_members name ms).
Proof.
  intros Hm Hn. induction ms as [|x ms IH]; simpl; [by apply elem_of_nil in Hm|].
  repeat (case_bool_decide; [done|]). apply elem_of_cons in Hm as [->|Hm]; [done|by apply IH].
Qed.

Lemma check_members_None name ms : check_members name ms = None → ∀ m, m ∈ ms → me_Name m ≠ "" ∧ me_Name m ≠ name.
Proof.
  induction ms as [|x ms IH]; simpl; [set_solver|]. repeat (case_bool_decide; [done|]). intros Hms m [->|Hm]%elem_of_cons; [done|by apply IH].
Qed.

(** The list of a cluster in which only the new member has no name. *)
Lemma cluster_items_join name self urls ms :
  name ≠ "" → (∀ m, m ∈ ms → me_Name m ≠ "" ∧ me_ID m ≠ self) →
  cluster_items name self (ms ++ [mkMemberEntry self "" urls]) =
    Done ((ms ≫= λ m, (λ url, me_Name m +:+ "=" +:+ url) <$> me_PeerURLs m) ++ ((λ url, name +:+ "=" +:+ url) <$> urls)).
Proof.
  intros Hname Hms. induction ms as [|m ms IH].
  - simpl. rewrite (bool_decide_eq_true_2 (self = self)) by done. rewrite bool_decide_eq_false_2 by done. by rewrite app_nil_r.
  - destruct (Hms m ltac:(left)) as [Hn Hid]. rewrite bind_cons, <- app_assoc. cbn [app cluster_items]. rewrite (bool_decide_eq_false_2 (me_ID m = self)) by done. cbv zeta.
    rewrite bool_decide_eq_false_2 by done. rewrite IH; [done|]. intros x Hx. apply Hms. by right.
Qed.

End join_lemmas.

Lemma PrepareJoinEtcd_fresh env addr s :
  joins_fresh addr s → je_read env = None → PrepareJoinEtcd env addr s = join_cluster env s.
Proof.
  intros (Hj & Ha & Hw & Hf) Hr. unfold PrepareJoinEtcd. erewrite bind_Done by reflexivity. rewrite !bool_decide_eq_false_2 by done.
  rewrite Hw, Hr, Hf. done.
Qed.

(** What [join_cluster] has done when the new member is in the cluster. *)
Lemma join_cluster_added env s r s' :
  adds_member env → cp_Name (jo_cfg s) ≠ "" → join_cluster env s = (r, s') → jo_members s' ≠ jo_members s →
  ∃ self, let urls := SplitOn "," (cp_AdvertisePeerUrls (jo_cfg s)) in
    let cluster := String.concat "," ((jo_members s ≫= λ m, (λ url, me_Name m +:+ "=" +:+ url) <$> me_PeerURLs m) ++
                                      ((λ url, cp_Name (jo_cfg s) +:+ "=" +:+ url) <$> urls)) in
    check_members (cp_Name (jo_cfg s)) (jo_members s) = None ∧
    (∀ m, m ∈ jo_members s → me_ID m ≠ self) ∧
    let added := set_cluster cluster (set_members (jo_members s ++ [mkMemberEntry self "" urls]) s) in
    match r with
    | Done _ => s' = set_joinFile cluster added
    | Fail err => s' = added ∧ (je_mkdir env ≠ None ∨ je_write env ≠ None) ∧ ∃ cause, err = joinFail cause
    | Panic => False
    end.
Proof.
  intros Hadd Hname H Hne. unfold join_cluster in H.
  destruct (je_client env); [injection H as <- <-; done|]. destruct (je_list env); [injection H as <- <-; done|].
  rewrite !(bind_Done (orFail None) _ s tt s), (bind_Done get _ s s s) in H by done.
  destruct (check_members _ _) as [err|] eqn:Hc; [injection H as <- <-; done|].
  destruct (je_add env _ _) as [[self ms]|err|] eqn:Ha; [|injection H as <- <-; done..].
  destruct (Hadd _ _ _ _ Ha) as [-> Hfresh]. rewrite (bind_Done (modify _) _ _ tt (set_members (jo_members s ++ _) s) eq_refl) in H.
  pose proof (check_members_None _ _ Hc) as Hnames. exists self. cbv zeta. split_and!; [done..|].
  rewrite cluster_items_join in H by naive_solver. rewrite (bind_Done (modify _) _ _ tt _ eq_refl) in H.
  destruct (je_mkdir env) as [e|]; [injection H as <- <-; naive_solver|].
  destruct (je_write env) as [e|]; injection H as <- <-; naive_solver.
Qed.

Lemma PrepareJoinEtcd_read env addr s s' : joins_fresh addr s → PrepareJoinEtcd env addr s = (Done tt, s') → je_read env = None.
Proof.
  intros (Hj & Ha & Hw & _) H. unfold PrepareJoinEtcd in H. rewrite (bind_Done get _ _ _ _ eq_refl) in H. rewrite !bool_decide_eq_false_2, Hw in H by done.
  by destruct (je_read env).
Qed.

Lemma PrepareJoinEtcd_read_fails env addr s e : joins_fresh addr s → je_read env = Some e → PrepareJoinEtcd env addr s = (Fail (joinFail e), s).
Proof.
  intros (Hj & Ha & Hw & _) H. unfold PrepareJoinEtcd. rewrite (bind_Done get _ _ _ _ eq_refl). by rewrite !bool_decide_eq_false_2, Hw, H by done.
Qed.

(** A join that succeeds has added the member. *)
Lemma join_cluster_members env s s' : adds_member env → join_cluster env s = (Done tt, s') → jo_members s' ≠ jo_members s.
Proof.
  intros Hadd H. unfold join_cluster in H. destruct (je_client env); [done|]. destruct (je_list env); [done|].
  rewrite !(bind_Done (orFail None) _ s tt s), (bind_Done get _ s s s) in H by done.
  destruct (check_members _ _); [done|]. destruct (je_add env _ _) as [[self ms]|err|] eqn:Ha; [|done..].
  destruct (Hadd _ _ _ _ Ha) as [-> _]. rewrite (bind_Done (modify _) _ _ tt (set_members (jo_members s ++ _) s) eq_refl) in H.
  destruct (cluster_items _ _ _) as [items| |]; [|done..]. rewrite (bind_Done (modify _) _ _ tt _ eq_refl) in H.
  destruct (je_mkdir env); [done|]. destruct (je_write env); [done|]. injection H as <-. simpl. intros Heq%(f_equal length).
  rewrite length_app in Heq. simpl in Heq. lia.
Qed.

(** A member without a name ends every join before it changes anything. *)
Lemma join_cluster_nameless env s m : m ∈ jo_members s → me_Name m = "" → ∃ err, join_cluster env s = (Fail err, s).
Proof.
  intros Hm Hn. unfold join_cluster. destruct (je_client env); [by eexists|]. destruct (je_list env); [by eexists|].
  rewrite !(bind_Done (orFail None) _ s tt s), (bind_Done get _ s s s) by done.
  destruct (check_members_nameless (cp_Name (jo_cfg s)) _ _ Hm Hn) as [e ->]. by exists e.
Qed.

(** ** Theorems *)

(** Reading the configuration of an executor. When it succeeds, a flag of the command
    line overrides what the file says; every duration is the value of its text, which has a
    default when it is empty; and without a file the heartbeat interval is half a second
    and the timeout of a call three seconds. *)
Theorem executor_config_parsed toml_DecodeFile fraction NumCPU args c' :
  Config_Parse toml_DecodeFile fraction NumCPU args NewConfig = (Done tt, c') →
  (∀ name get set v, executorFlags !! name = Some (StringVar get set) →
     last_value name (settings executorFlags args) = Some v → v ≠ "" → get c' = v) ∧
  ParseDuration fraction (cf_KeepAliveTTLStr c') = Some (cf_KeepAliveTTL c') ∧
  ParseDuration fraction (cf_KeepAliveIntervalStr c') = Some (cf_KeepAliveInterval c') ∧
  ParseDuration fraction (cf_RPCTimeoutStr c') = Some (cf_RPCTimeout c') ∧
  (last_value "config" (settings executorFlags args) = None →
     cf_KeepAliveInterval c' = (500 * Millisecond)%Z ∧ cf_RPCTimeout c' = (3 * Second)%Z).
Proof.
  intros (c1 & c2 & rest & Hp & Hf & Hno)%Config_Parse_Done.
  destruct (parse_finish_Done _ _ _ _ _ Hf) as (_ & Hi & Ht & Hr & Hpi & Hpt & Hpr & Hadv & Hsame).
  split_and!; [|done..|].
  - intros name g st v Hn Hv Hne. pose proof (parse_flags_field _ _ _ _ _ _ _ Hn Hp) as Hg. rewrite Hv in Hg. simpl in Hg.
    apply executorFlags_cases in Hn. unfold orDefault in *. each_flag Hn; try congruence;
      (rewrite bool_decide_eq_false_2 in Hadv by congruence) || (rewrite bool_decide_eq_false_2 in Ht by congruence); congruence.
  - intros Hnofile. destruct (Hno Hnofile eq_refl) as [rest0 Hp0].
    assert (cf_KeepAliveIntervalStr c2 = "" ∧ cf_RPCTimeoutStr c2 = "") as [Ei Er].
    { apply parse_flags_keeps in Hp, Hp0. rewrite Hp0 in Hp. by injection Hp as -> ->. }
    rewrite Hi, Ei in Hpi. rewrite Hr, Er in Hpr.
    assert (ParseDuration fraction (orDefault "" defaultKeepAliveInterval) = Some (500 * Millisecond)%Z) as E1 by reflexivity.
    assert (ParseDuration fraction (orDefault "" defaultRPCTimeout) = Some (3 * Second)%Z) as E2 by reflexivity. split; congruence.
Qed.

(** A member that has joined a cluster restarts into it. A successful join without
    earlier data adds the member to the cluster, sets [initial-cluster] to the named peer
    urls of all members and of itself, and saves it; when the process is started again,
    with its original configuration and before etcd has written data, it gets the same
    settings without contacting the cluster. *)
Theorem joined_member_restarts env addr s s' :
  joins_fresh addr s → cp_Name (jo_cfg s) ≠ "" → adds_member env → PrepareJoinEtcd env addr s = (Done tt, s') →
  TrimSpace (cp_InitialCluster (jo_cfg s')) = cp_InitialCluster (jo_cfg s') →
  let urls := SplitOn "," (cp_AdvertisePeerUrls (jo_cfg s)) in
  cp_InitialCluster (jo_cfg s') =
    String.concat "," ((jo_members s ≫= λ m, (λ url, me_Name m +:+ "=" +:+ url) <$> me_PeerURLs m) ++
                       ((λ url, cp_Name (jo_cfg s) +:+ "=" +:+ url) <$> urls)) ∧
  cp_InitialClusterState (jo_cfg s') = ClusterStateFlagExisting ∧
  (∃ self, jo_members s' = jo_members s ++ [mkMemberEntry self "" urls]) ∧
  ∀ env', je_read env' = None → PrepareJoinEtcd env' addr (restarted s s') = (Done tt, s').
Proof.
  intros Hfr Hname Hadd H Htrim. assert (je_read env = None) as Hr by (by eapply PrepareJoinEtcd_read).
  rewrite PrepareJoinEtcd_fresh in H by done. destruct Hfr as (Hj & Ha & Hw & Hf).
  assert (jo_members s' ≠ jo_members s) as Hne by (by eapply join_cluster_members).
  destruct (join_cluster_added _ _ _ _ Hadd Hname H Hne) as (self & _ & _ & ->). cbv zeta in *.
  split_and!; [done..|by exists self|]. intros env' Hr'. unfold PrepareJoinEtcd. rewrite (bind_Done get _ _ _ _ eq_refl).
  cbn [restarted jo_cfg jo_wal jo_joinFile set_joinFile set_cluster set_members]. rewrite !bool_decide_eq_false_2, Hw, Hr' by done.
  rewrite (bind_Done (orFail None) _ _ tt _ eq_refl). unfold modify. cbn [jo_cfg cp_InitialCluster set_joinFile set_cluster set_members] in Htrim.
  by rewrite Htrim, <- Hw.
Qed.

(** A join that fails after the member was added cannot be repeated. Every later
    attempt with the same configuration fails, because the cluster then has a member
    without a name, until that member is removed. *)
Theorem failed_join_blocks_retry env addr s err s' :
  joins_fresh addr s → cp_Name (jo_cfg s) ≠ "" → adds_member env → PrepareJoinEtcd env addr s = (Fail err, s') →
  jo_members s' ≠ jo_members s →
  (je_mkdir env ≠ None ∨ je_write env ≠ None) ∧
  ∀ env', ∃ err', PrepareJoinEtcd env' addr (restarted s s') = (Fail err', restarted s s').
Proof.
  intros Hfr Hname Hadd H Hne. pose proof Hfr as (Hj & Ha & Hw & Hf).
  destruct (je_read env) as [e|] eqn:Hr; [rewrite (PrepareJoinEtcd_read_fails _ _ _ _ Hfr Hr) in H; by injection H as <- <-|].
  rewrite PrepareJoinEtcd_fresh in H by done. destruct (join_cluster_added _ _ _ _ Hadd Hname H Hne) as (self & _ & _ & -> & Hio & _).
  split; [done|]. intros env'. set (s1 := restarted s _).
  assert (joins_fresh addr s1) as Hfr1 by (by split_and!).
  destruct (je_read env') as [e|] eqn:Hr'; [eexists; by apply PrepareJoinEtcd_read_fails|]. rewrite PrepareJoinEtcd_fresh by done.
  apply join_cluster_nameless with (mkMemberEntry self "" (SplitOn "," (cp_AdvertisePeerUrls (jo_cfg s)))); [|done]. simpl. set_solver.
Qed.

(** ** Witnesses *)

Module Witness.

Definition noFraction (f unit scale : Z) : Z := 0%Z.
(** A file that sets the name, the address and the TTL. *)
Definition decode (path : string) : Go Config (list string) := λ c,
  (Done [], set_Name "from-file" (set_WorkerAddr "file:10240" (set_KeepAliveTTLStr "1m" c))).
Definition args : list string := ["-config"; "e.toml"; "--worker-addr=host:1"; "-name"; "e1"; "-V"].
Definition parsed : Config := (Config_Parse decode noFraction 8 args NewConfig).2.

Lemma executor_config_parsed_witness :
  cf_Name parsed = "e1" ∧ cf_WorkerAddr parsed = "host:1" ∧ cf_KeepAliveTTL parsed = (60 * Second)%Z ∧ cf_AdvertiseAddr parsed = "host:1".
Proof.
  assert ((Config_Parse decode noFraction 8 args NewConfig).1 = Done tt) as Hd by (vm_compute; reflexivity).
  destruct (executor_config_parsed decode noFraction 8 args parsed) as (Hflag & Httl & _).
  { rewrite <- Hd. apply surjective_pairing. }
  split_and!.
  - apply (Hflag "name" _ set_Name); [reflexivity|vm_compute; reflexivity|done].
  - apply (Hflag "worker-addr" _ set_WorkerAddr); [reflexivity|vm_compute; reflexivity|done].
  - vm_compute. reflexivity.
  - vm_compute. reflexivity.
Defined.

Definition add (ms : list EtcdMember) (urls : list string) : res goerr (Z * list EtcdMember) :=
  let self := (1 + foldr Z.max 0 (me_ID <$> ms))%Z in Done (self, ms ++ [mkMemberEntry self "" urls]).
Definition env (write : option goerr) : JoinEnv := mkJoinEnv None None None add None write.
Definition start : JoinSt :=
  mkJoinSt (ConfigParams_Adjust defaultPeerUrls defaultInitialClusterState (mkConfigParams "m2" "d" "http://b:1" "" "" "" "a:1"))
    false None [mkMemberEntry 1 "m1" ["http://a:1"]].

Lemma max_above l x : x ∈ l → (x ≤ foldr Z.max 0 l)%Z.
Proof. induction l as [|y l IH]; simpl; [by intros ?%elem_of_nil|]. intros [->|Hx]%elem_of_cons; [lia|]. specialize (IH Hx). lia. Qed.

Lemma adds write : adds_member (env write).
Proof.
  intros ms urls self ms' [= <- <-]. split; [done|]. intros m Hm Heq.
  pose proof (max_above (me_ID <$> ms) (me_ID m) ltac:(by apply list_elem_of_fmap_2)). lia.
Qed.

Lemma joined_member_restarts_witness :
  cp_InitialCluster (jo_cfg (PrepareJoinEtcd (env None) "b:1" start).2) = "m1=http://a:1,m2=http://b:1".
Proof.
  destruct (joined_member_restarts (env None) "b:1" start (PrepareJoinEtcd (env None) "b:1" start).2) as (-> & _);
    [by split_and!|done|apply adds|vm_compute; reflexivity..].
Defined.

Lemma failed_join_blocks_retry_witness :
  ∃ err, (PrepareJoinEtcd (env None) "b:1" (restarted start (PrepareJoinEtcd (env (Some (ErrForeign "disk full"))) "b:1" start).2)).1 = Fail err.
Proof.
  destruct (failed_join_blocks_retry (env (Some (ErrForeign "disk full"))) "b:1" start (joinFail (ErrForeign "disk full"))
    (PrepareJoinEtcd (env (Some (ErrForeign "disk full"))) "b:1" start).2) as [_ H];
    [by split_and!|done|apply adds|vm_compute; reflexivity|vm_compute; discriminate|].
  destruct (H (env None)) as [e He]. exists e. by rewrite He.
Defined.

End Witness.
