(* ===== verification/ExecutorServer.v ===== *)
(** * The executor server ([executor/server.go])

    The heartbeats of an executor to the server master, the background update of its RPC
    clients, its registration, the connection to the metastores, and the order in which
    [Run] starts its parts. The heartbeat loop is composed with the handler and the
    liveness check of the server master ([ServerMaster], [Cluster]) over a common clock.
    Dialing, the RPC transport, etcd and SQL are arguments. *)

From S2P Require Import Prelude Errors Model Cluster Rpc ServerMaster Configs.
From Stdlib Require Import Ascii.

(** ** State *)

Record cliUpdateInfo := mkCliUpdateInfo { cu_leaderURL : string; cu_urls : list string }.

(** The goroutines that [Run] starts, in the order of their first start. *)
Inductive goroutine : Type :=
| GTaskRunner | GMsgServer | GTCPServer | GGrpcServer | GHTTPServer | GDiscovery | GHeartbeat | GReportResc | GUpdateClients | GMetrics.

#[global] Instance goroutine_eq_dec : EqDecision goroutine.
Proof. solve_decision. Defined.

(** The type parameters are the two RPC clients. A metastore client is its configuration;
    [es_updating] is what the goroutine of [bgUpdateServerMasterClients] works on, nothing
    when it waits at the channel. *)
Record ExecServer (T X : Type) := mkExecServer {
  es_cfg : Config;
  es_masterClient : option (FailoverRPCClients T);
  es_resourceClient : option (FailoverRPCClients X);
  es_info : option NodeInfo;
  es_lastHearbeatTime : Time;
  es_grpcSrv : bool;
  es_tcpServer : bool;
  es_etcdCli : option (list string);
  es_frameMetaClient : option string;
  es_userRawKVClient : option string;
  es_goroutines : list goroutine;
  es_updating : option cliUpdateInfo;
}.
Arguments mkExecServer {T X}.
Arguments es_cfg {T X}.
Arguments es_masterClient {T X}.
Arguments es_resourceClient {T X}.
Arguments es_info {T X}.
Arguments es_lastHearbeatTime {T X}.
Arguments es_grpcSrv {T X}.
Arguments es_tcpServer {T X}.
Arguments es_etcdCli {T X}.
Arguments es_frameMetaClient {T X}.
Arguments es_userRawKVClient {T X}.
Arguments es_goroutines {T X}.
Arguments es_updating {T X}.

Section state.
Context {T X : Type}.
Abbreviation St := (ExecServer T X).

Definition NewExecServer (cfg : Config) : St := mkExecServer cfg None None None zeroTime false false None None None [] None.

Definition set_masterClient (c : FailoverRPCClients T) (s : St) : St :=
  mkExecServer (es_cfg s) (Some c) (es_resourceClient s) (es_info s) (es_lastHearbeatTime s) (es_grpcSrv s) (es_tcpServer s)
    (es_etcdCli s) (es_frameMetaClient s) (es_userRawKVClient s) (es_goroutines s) (es_updating s).
Definition set_resourceClient (c : FailoverRPCClients X) (s : St) : St :=
  mkExecServer (es_cfg s) (es_masterClient s) (Some c) (es_info s) (es_lastHearbeatTime s) (es_grpcSrv s) (es_tcpServer s)
    (es_etcdCli s) (es_frameMetaClient s) (es_userRawKVClient s) (es_goroutines s) (es_updating s).
Definition set_info (i : NodeInfo) (s : St) : St :=
  mkExecServer (es_cfg s) (es_masterClient s) (es_resourceClient s) (Some i) (es_lastHearbeatTime s) (es_grpcSrv s) (es_tcpServer s)
    (es_etcdCli s) (es_frameMetaClient s) (es_userRawKVClient s) (es_goroutines s) (es_updating s).
Definition set_last (t : Time) (s : St) : St :=
  mkExecServer (es_cfg s) (es_masterClient s) (es_resourceClient s) (es_info s) t (es_grpcSrv s) (es_tcpServer s)
    (es_etcdCli s) (es_frameMetaClient s) (es_userRawKVClient s) (es_goroutines s) (es_updating s).
Definition set_grpcSrv (s : St) : St :=
  mkExecServer (es_cfg s) (es_masterClient s) (es_resourceClient s) (es_info s) (es_lastHearbeatTime s) true (es_tcpServer s)
    (es_etcdCli s) (es_frameMetaClient s) (es_userRawKVClient s) (es_goroutines s) (es_updating s).
Definition set_tcpServer (s : St) : St :=
  mkExecServer (es_cfg s) (es_masterClient s) (es_resourceClient s) (es_info s) (es_lastHearbeatTime s) (es_grpcSrv s) true
    (es_etcdCli s) (es_frameMetaClient s) (es_userRawKVClient s) (es_goroutines s) (es_updating s).
Definition set_etcdCli (e : list string) (s : St) : St :=
  mkExecServer (es_cfg s) (es_masterClient s) (es_resourceClient s) (es_info s) (es_lastHearbeatTime s) (es_grpcSrv s) (es_tcpServer s)
    (Some e) (es_frameMetaClient s) (es_userRawKVClient s) (es_goroutines s) (es_updating s).
Definition set_frameMetaClient (c : string) (s : St) : St :=
  mkExecServer (es_cfg s) (es_masterClient s) (es_resourceClient s) (es_info s) (es_lastHearbeatTime s) (es_grpcSrv s) (es_tcpServer s)
    (es_etcdCli s) (Some c) (es_userRawKVClient s) (es_goroutines s) (es_updating s).
Definition set_userRawKVClient (c : string) (s : St) : St :=
  mkExecServer (es_cfg s) (es_masterClient s) (es_resourceClient s) (es_info s) (es_lastHearbeatTime s) (es_grpcSrv s) (es_tcpServer s)
    (es_etcdCli s) (es_frameMetaClient s) (Some c) (es_goroutines s) (es_updating s).
Definition wg_Go (g : goroutine) (s : St) : St :=
  mkExecServer (es_cfg s) (es_masterClient s) (es_resourceClient s) (es_info s) (es_lastHearbeatTime s) (es_grpcSrv s) (es_tcpServer s)
    (es_etcdCli s) (es_frameMetaClient s) (es_userRawKVClient s) (es_goroutines s ++ [g]) (es_updating s).
Definition set_updating (u : option cliUpdateInfo) (s : St) : St :=
  mkExecServer (es_cfg s) (es_masterClient s) (es_resourceClient s) (es_info s) (es_lastHearbeatTime s) (es_grpcSrv s) (es_tcpServer s)
    (es_etcdCli s) (es_frameMetaClient s) (es_userRawKVClient s) (es_goroutines s) u.

(** ** Heartbeats *)

(** [Duration.Milliseconds] *)
Definition Milliseconds (d : Duration) : Z := Z.quot d Millisecond.

(** The conversion to [uint64]. *)
Definition uint64 (z : Z) : Z := (z mod 2 ^ 64)%Z.

Definition heartbeat_expired (now : Time) (s : St) : bool :=
  Before (es_lastHearbeatTime s + cf_KeepAliveTTL (es_cfg s)) now.

(** The request; its timestamp is not read by the server master. *)
Definition heartbeatRequest (info : NodeInfo) (cfg : Config) : HeartbeatRequest :=
  mkHeartbeatRequest (ni_ID info) 0 Running
    (uint64 (int64 (Milliseconds (cf_KeepAliveTTL cfg) + Milliseconds (cf_RPCTimeout cfg)))).

(** An iteration of [keepHeartbeat] up to the call, at the time [now]. *)
Definition keepHeartbeat_send (now : Time) : Go St HeartbeatRequest := λ s,
  if heartbeat_expired now s then (Fail (GoErr ErrHeartbeat "heartbeat timeout"), s)
  else match es_info s with
       | None => (Panic, s)
       | Some info => (Done (heartbeatRequest info (es_cfg s)), s)
       end.

(** The send to the unbuffered channel, with a default: the value is taken when the other
    goroutine waits at the channel. *)
Definition offer_update (info : cliUpdateInfo) (s : St) : St :=
  match es_updating s with
  | None => set_updating (Some info) s
  | Some _ => s
  end.

Definition heartbeat_success (t : Time) (resp : HeartbeatResponse) (s : St) : St :=
  offer_update (mkCliUpdateInfo (hbr_Leader resp) (hbr_Addrs resp)) (set_last t s).

(** The rest of the iteration: [t] is the time of the tick, [now] is read after the call,
    and the call has returned a response or an error. *)
Definition keepHeartbeat_recv (now t : Time) (out : option HeartbeatResponse * option goerr) : Go St unit := λ s,
  match out with
  | (_, Some err) =>
      if heartbeat_expired now s then (Fail (GoWrap ErrHeartbeat err), s) else (Done tt, s)
  | (None, None) => (Panic, s)
  | (Some resp, None) =>
      match hbr_Err resp with
      | Some (ErrorCode_UnknownExecutor | ErrorCode_TombstoneExecutor) => (Fail (GoErr ErrHeartbeat "logic error"), s)
      | Some ErrorCode_MasterNotReady => (Done tt, set_last t s)
      | _ => (Done tt, heartbeat_success t resp s)
      end
  end.

(** An iteration of [bgUpdateServerMasterClients] on the value it has received. *)
Definition bgUpdateServerMasterClients (dialM : nat → string → option T) (dialX : nat → string → option X)
    (orderM : gmap string T → list string) (orderX : gmap string X → list string) : Go St unit := λ s,
  match es_updating s with
  | None => (Done tt, s)
  | Some info =>
      match es_masterClient s, es_resourceClient s with
      | Some m, Some r =>
          let m' := (UpdateClients dialM (cu_urls info) (cu_leaderURL info) orderM m).1 in
          let r' := (UpdateClients dialX (cu_urls info) (cu_leaderURL info) orderX r).1 in
          (Done tt, set_updating None (set_resourceClient r' (set_masterClient m' s)))
      | _, _ => (Panic, s)
      end
  end.

End state.

(** ** Registration *)

(** [ErrorCode.String] of the generated protobuf code. *)
Definition ErrorCode_String (c : ErrorCode) : string :=
  match c with
  | ErrorCode_None => "None"
  | ErrorCode_MasterNotLeader => "MasterNotLeader"
  | ErrorCode_UnknownExecutor => "UnknownExecutor"
  | ErrorCode_NotEnoughResource => "NotEnoughResource"
  | ErrorCode_SubJobSubmitFailed => "SubJobSubmitFailed"
  | ErrorCode_TombstoneExecutor => "TombstoneExecutor"
  | ErrorCode_SubJobBuildFailed => "SubJobBuildFailed"
  | ErrorCode_BuildGrpcConnFailed => "BuildGrpcConnFailed"
  | ErrorCode_InvalidMetaStoreType => "InvalidMetaStoreType"
  | ErrorCode_MasterNotReady => "MasterNotReady"
  | ErrorCode_UnKnownJob => "UnKnownJob"
  | ErrorCode_MetaStoreNotExists => "MetaStoreNotExists"
  | ErrorCode_MetaStoreSerializeFail => "MetaStoreSerializeFail"
  | ErrorCode_UnexpectedJobStatus => "UnexpectedJobStatus"
  | ErrorCode_UnknownError => "UnknownError"
  end.

(** What [retry.Do] of tiflow promises of its result: attempts one after another, at most
    [n], each but the last failed with an error that may be retried; it also ends when its
    context does. *)
Inductive attempts {S} (retryable : goerr → bool) (op : Go S unit) : nat → S → res goerr unit → S → Prop :=
| at_done n s s' : op s = (Done tt, s') → attempts retryable op (Datatypes.S n) s (Done tt) s'
| at_panic n s s' : op s = (Panic, s') → attempts retryable op (Datatypes.S n) s Panic s'
| at_refused n s err s' : op s = (Fail err, s') → retryable err = false → attempts retryable op (Datatypes.S n) s (Fail err) s'
| at_again n s err s1 r s2 :
    op s = (Fail err, s1) → retryable err = true → attempts retryable op n s1 r s2 → attempts retryable op (Datatypes.S n) s r s2
| at_given_up n s err : attempts retryable op n s (Fail err) s.

Class Retry := {
  retry_Do : ∀ {S}, nat → (goerr → bool) → Go S unit → Go S unit;
  retry_attempts : ∀ S n retryable (op : Go S unit) s, attempts retryable op n s (retry_Do n retryable op s).1 (retry_Do n retryable op s).2;
}.

Definition registerTries : nat := 15.

(** The error text is compared with the name of the code. *)
Definition register_retryable (err : goerr) : bool := bool_decide (goerr_msg err = ErrorCode_String ErrorCode_MasterNotReady).

Section register.
Context {T X W : Type} `{!Retry}.
(** The RPC [RegisterExecutor] of the master client, on the rest of the world. *)
Variable RegisterExecutor : string → Z → Go W RegisterExecutorResponse.

(** The function that is retried; the response is a variable outside of it. *)
Definition register_once (addr : string) : Go (W * RegisterExecutorResponse) unit := λ '(w, resp0),
  match RegisterExecutor addr defaultCapability w with
  | (Done resp, w') =>
      match rer_Err resp with
      | Some code => (Fail (ErrForeign (ErrorCode_String code)), (w', resp))
      | None => (Done tt, (w', resp))
      end
  | (Fail err, w') => (Fail err, (w', resp0))
  | (Panic, w') => (Panic, (w', resp0))
  end.

Definition selfRegister : Go (ExecServer T X * W) unit := λ '(s, w),
  let addr := cf_AdvertiseAddr (es_cfg s) in
  match retry_Do registerTries register_retryable (register_once addr) (w, mkRegisterResponse None "") with
  | (Done _, (w', resp)) => (Done tt, (set_info (mkNodeInfo NodeTypeExecutor (rer_ExecutorId resp) addr defaultCapability) s, w'))
  | (Fail err, (w', _)) => (Fail err, (s, w'))
  | (Panic, (w', _)) => (Panic, (s, w'))
  end.

End register.

(** ** Start and stop *)

(** What the start meets: the two dialers with the iteration order of the clients, the
    listener, the addresses of the three metastores and the connections to them. *)
Record StartEnv (T X : Type) := mkStartEnv {
  se_dialMaster : nat → string → option T;
  se_dialResource : nat → string → option X;
  se_orderMaster : gmap string T → list string;
  se_orderResource : gmap string X → list string;
  se_msgService : option goerr;
  se_listen : option goerr;
  se_query : StoreType → res goerr string;
  se_etcd : list string → option goerr;
  se_unmarshal : string → option string;
  se_frameMeta : string → option goerr;
  se_userKV : string → option goerr;
}.
Arguments se_dialMaster {T X}.
Arguments se_dialResource {T X}.
Arguments se_orderMaster {T X}.
Arguments se_orderResource {T X}.
Arguments se_msgService {T X}.
Arguments se_listen {T X}.
Arguments se_query {T X}.
Arguments se_etcd {T X}.
Arguments se_unmarshal {T X}.
Arguments se_frameMeta {T X}.
Arguments se_userKV {T X}.

Section start.
Context {T X : Type}.
Abbreviation St := (ExecServer T X).
Implicit Types env : StartEnv T X.

Definition lift {A} (r : res goerr A) : Go St A := λ s, (r, s).
Definition failing (err : option goerr) : Go St unit := match err with Some e => throw e | None => mret tt end.

Definition getJoinURLs (addrs : string) : list string := SplitOn ","%char addrs.

Definition initClients env : Go St unit :=
  s ← get;
  m ← lift (NewFailoverRPCClients (se_dialMaster env) (getJoinURLs (cf_Join (es_cfg s))) (se_orderMaster env));
  _ ← modify (set_masterClient m);
  r ← lift (NewFailoverRPCClients (se_dialResource env) (getJoinURLs (cf_Join (es_cfg s))) (se_orderResource env));
  modify (set_resourceClient r).

Definition startMsgService env : Go St unit :=
  _ ← failing (se_msgService env);
  modify (wg_Go GMsgServer).

Definition startTCPService env : Go St unit :=
  _ ← failing (se_listen env);
  _ ← modify set_tcpServer;
  _ ← modify (wg_Go GTCPServer);
  _ ← modify (wg_Go GGrpcServer);
  modify (wg_Go GHTTPServer).

(** The field of the error in a response is not read. *)
Definition fetchMetaStore env : Go St unit :=
  addr ← lift (se_query env StoreType_ServiceDiscovery);
  let endpoints := SplitOn ","%char addr in
  _ ← failing (GoWrap ErrExecutorEtcdConnFail <$> se_etcd env endpoints);
  _ ← modify (set_etcdCli endpoints);
  addr ← lift (se_query env StoreType_SystemMetaStore);
  conf ← lift (match se_unmarshal env addr with Some c => Done c | None => Fail (ErrForeign "json") end);
  _ ← failing (se_frameMeta env conf);
  _ ← modify (set_frameMetaClient conf);
  addr ← lift (se_query env StoreType_AppMetaStore);
  _ ← failing (se_userKV env addr);
  modify (set_userRawKVClient addr).

(** What [Stop] closes, in order. *)
Inductive stop_action : Type :=
| StopGrpc | CloseTCP | DeleteNodeInfo (key : string) | CloseFrameMeta | CloseUserKV.

Definition Stop (etcdKey : NodeInfo → string) (s : St) : res goerr (list stop_action) :=
  let grpc := if es_grpcSrv s then [StopGrpc] else [] in
  let tcp := if es_tcpServer s then [CloseTCP] else [] in
  let frame := match es_frameMetaClient s with Some _ => [CloseFrameMeta] | None => [] end in
  let user := match es_userRawKVClient s with Some _ => [CloseUserKV] | None => [] end in
  match es_etcdCli s, es_info s with
  | None, _ => Done (grpc ++ tcp ++ frame ++ user)
  | Some _, Some info => Done (grpc ++ tcp ++ [DeleteNodeInfo (etcdKey info)] ++ frame ++ user)
  | Some _, None => Panic
  end.

End start.

Section run.
Context {T X W : Type} `{!Retry}.
Abbreviation St := (ExecServer T X).
Variable RegisterExecutor : string → Z → Go W RegisterExecutorResponse.
Variable env : StartEnv T X.

Definition on_server {A} (f : Go St A) : Go (St * W) A := λ '(s, w), let '(r, s') := f s in (r, (s', w)).

(** [Run] up to the start of its servers. *)
Definition Run_listen : Go (St * W) unit :=
  _ ← on_server (modify (wg_Go GTaskRunner));
  _ ← on_server (initClients env);
  _ ← selfRegister RegisterExecutor;
  _ ← on_server (modify set_grpcSrv);
  _ ← on_server (startMsgService env);
  on_server (startTCPService env).

(** [Run] up to its wait. *)
Definition Run_start : Go (St * W) unit :=
  _ ← Run_listen;
  _ ← on_server (fetchMetaStore env);
  _ ← on_server (modify (wg_Go GDiscovery));
  _ ← on_server (modify (wg_Go GHeartbeat));
  _ ← on_server (modify (wg_Go GReportResc));
  _ ← on_server (modify (wg_Go GUpdateClients));
  on_server (modify (wg_Go GMetrics)).

End run.

(** ** The heartbeat protocol *)

(** The loop of [keepHeartbeat]: waiting for a tick since the tick received at [recv], which
    comes at [until] at the latest; in a call that was started at [start] for the tick
    [t], with the last answer of a server master; or returned. *)
Inductive hb_loop : Type :=
| HbWait (recv until : Time)
| HbCall (t start : Time) (req : HeartbeatRequest) (answer : option (option HeartbeatResponse * option goerr))
| HbReturn (err : option goerr).

Record HbSys (T X DB TM XM : Type) := mkHbSys {
  hs_clock : Time;
  hs_exec : ExecServer T X;
  hs_loop : hb_loop;
  hs_late : list HeartbeatRequest;
  hs_master : Server DB TM XM;
}.
Arguments mkHbSys {T X DB TM XM}.
Arguments hs_clock {T X DB TM XM}.
Arguments hs_exec {T X DB TM XM}.
Arguments hs_loop {T X DB TM XM}.
Arguments hs_late {T X DB TM XM}.
Arguments hs_master {T X DB TM XM}.

(** [hb_pass]: time passes. [hb_tick]: the loop receives the tick [t]. [hb_handle]: a
    server master handles the request of the call. [hb_answer], [hb_error]: the call
    returns. [hb_late]: a request is handled whose call has returned. [hb_check]: a round
    of the liveness check. [hb_cancel]: the context is done. *)
Inductive hb_label : Type :=
| hb_pass (d : Duration)
| hb_tick (t : Time)
| hb_handle
| hb_answer
| hb_error (err : goerr)
| hb_late (i : nat)
| hb_check (order : list ExecutorID)
| hb_cancel.

Section protocol.
Context {T X DB TM XM : Type}.
Abbreviation Sys := (HbSys T X DB TM XM).
(** How long a call takes at most, if that is bounded. *)
Variable callBound : option Duration.
(** The RPC of the server master that this one forwards a request to. *)
Variable forward : TM → option HeartbeatResponse * option goerr.

(** The server master handles a request: it reads its leader at once. *)
Definition master_handle (now : Time) (req : HeartbeatRequest) (m : Server DB TM XM) : (option HeartbeatResponse * option goerr) * Server DB TM XM :=
  match Server_Heartbeat (mkWaits (λ _, sv_leader m) (λ _, true)) forward now req m with
  | (Done out, m') => (out, m')
  | (Fail err, m') => ((None, Some err), m')
  | (Panic, m') => ((None, Some (ErrForeign "transport is closing")), m')
  end.

(** May [d] pass: the ticker and the calls are prompt. *)
Definition may_pass (d : Duration) (s : Sys) : bool :=
  bool_decide (0 ≤ d)%Z &&
  match hs_loop s with
  | HbWait _ until => bool_decide (hs_clock s + d ≤ until)%Z
  | HbCall _ start _ _ => match callBound with Some b => bool_decide (hs_clock s + d ≤ start + b)%Z | None => true end
  | HbReturn _ => true
  end.

(** The ticker of [keepHeartbeat] keeps at most one tick, so after the tick received at
    [start] the next one is ready at [start] and an interval at the latest. *)
Definition wait_from (start now : Time) (e : ExecServer T X) : hb_loop :=
  HbWait start (Z.max now (start + cf_KeepAliveInterval (es_cfg e))).

Definition hb_step (l : hb_label) (s : Sys) : option Sys :=
  match l, hs_loop s with
  | hb_pass d, _ =>
      if may_pass d s then Some (mkHbSys (hs_clock s + d) (hs_exec s) (hs_loop s) (hs_late s) (hs_master s)) else None
  | hb_tick t, HbWait recv _ =>
      if bool_decide (recv ≤ t ≤ hs_clock s)%Z then
        match keepHeartbeat_send (hs_clock s) (hs_exec s) with
        | (Done req, e) => Some (mkHbSys (hs_clock s) e (HbCall t (hs_clock s) req None) (hs_late s) (hs_master s))
        | (Fail err, e) => Some (mkHbSys (hs_clock s) e (HbReturn (Some err)) (hs_late s) (hs_master s))
        | (Panic, _) => None
        end
      else None
  | hb_handle, HbCall t start req _ =>
      let '(out, m) := master_handle (hs_clock s) req (hs_master s) in
      Some (mkHbSys (hs_clock s) (hs_exec s) (HbCall t start req (Some out)) (hs_late s) m)
  | hb_answer, HbCall t start req (Some out) =>
      match keepHeartbeat_recv (hs_clock s) t out (hs_exec s) with
      | (Done _, e) => Some (mkHbSys (hs_clock s) e (wait_from start (hs_clock s) e) (hs_late s) (hs_master s))
      | (Fail err, e) => Some (mkHbSys (hs_clock s) e (HbReturn (Some err)) (hs_late s) (hs_master s))
      | (Panic, _) => None
      end
  | hb_error err, HbCall t start req _ =>
      match keepHeartbeat_recv (hs_clock s) t (None, Some err) (hs_exec s) with
      | (Done _, e) => Some (mkHbSys (hs_clock s) e (wait_from start (hs_clock s) e) (hs_late s ++ [req]) (hs_master s))
      | (Fail err, e) => Some (mkHbSys (hs_clock s) e (HbReturn (Some err)) (hs_late s ++ [req]) (hs_master s))
      | (Panic, _) => None
      end
  | hb_late i, _ =>
      match hs_late s !! i with
      | Some req =>
          let '(_, m) := master_handle (hs_clock s) req (hs_master s) in
          Some (mkHbSys (hs_clock s) (hs_exec s) (hs_loop s) (delete i (hs_late s)) m)
      | None => None
      end
  | hb_check order, _ =>
      let '(_, m) := on_executors (checkAliveImpl (hs_clock s) order) (hs_master s) in
      Some (mkHbSys (hs_clock s) (hs_exec s) (hs_loop s) (hs_late s) m)
  | hb_cancel, HbWait _ _ => Some (mkHbSys (hs_clock s) (hs_exec s) (HbReturn None) (hs_late s) (hs_master s))
  | _, _ => None
  end.

Fixpoint hb_run (ls : list hb_label) (s : Sys) : option Sys :=
  match ls with
  | [] => Some s
  | l :: ls => match hb_step l s with Some s' => hb_run ls s' | None => None end
  end.

(** The loop is entered: [lastHearbeatTime] is the clock. *)
Definition hb_start (now : Time) (e : ExecServer T X) (m : Server DB TM XM) : Sys :=
  mkHbSys now (set_last now e) (wait_from now now e) [] m.

End protocol.

(** ** Specification *)

(** The server master serves requests itself. *)
Definition leads {DB TM XM} (m : Server DB TM XM) : Prop :=
  sv_leaderInitialized m = true ∧ ∃ l, sv_leader m = Some l ∧ m_Name l = sv_id m ∧ m_Name l ≠ "".

(** The times of the configuration: whole milliseconds, a timeout of a call not shorter
    than the interval and not longer than the TTL. *)
Definition timing_ok (cfg : Config) : Prop :=
  (0 ≤ cf_KeepAliveInterval cfg ≤ cf_RPCTimeout cfg ∧ cf_RPCTimeout cfg ≤ cf_KeepAliveTTL cfg ∧
   cf_KeepAliveTTL cfg + cf_RPCTimeout cfg < 2 ^ 63)%Z ∧
  (cf_KeepAliveTTL cfg mod Millisecond = 0 ∧ cf_RPCTimeout cfg mod Millisecond = 0)%Z.

(** The server master keeps the executor until [t]. *)
Definition kept_until (id : ExecutorID) (t : Time) (em : ExecutorManagerImpl) : Prop :=
  ∃ x, em_executors em !! id = Some x ∧ ex_Status x ≠ Tombstone ∧ (t ≤ ex_lastUpdateTime x + ex_heartbeatTTL x)%Z.

Definition hb_running (l : hb_loop) : bool := match l with HbReturn _ => false | _ => true end.

Abbreviation L := cf_KeepAliveTTL.
Abbreviation R := cf_RPCTimeout.

Section invariant.
Context {T X DB TM XM : Type} (info : NodeInfo) (cfg : Config).
Abbreviation Sys := (HbSys T X DB TM XM).

Definition good_answer (out : option HeartbeatResponse * option goerr) : Prop := ∃ leader addrs, out = (Some (mkHeartbeatResponse None leader addrs), None).

(** Where the loop may be at the clock [now], with the last heartbeat at [last]. *)
Definition loop_ok (now last : Time) (em : ExecutorManagerImpl) (l : hb_loop) : Prop :=
  match l with
  | HbWait recv until => (recv ≤ now ≤ until ∧ until ≤ last + L cfg + R cfg ∧ until ≤ recv + R cfg)%Z
  | HbCall t start req ans =>
      (t ≤ start ≤ t + R cfg ∧ start ≤ now ≤ start + R cfg ∧ start ≤ last + L cfg)%Z ∧ req = heartbeatRequest info cfg ∧
      match ans with None => True | Some out => good_answer out ∧ kept_until (ni_ID info) (t + L cfg + R cfg) em end
  | HbReturn (Some _) => (last + L cfg < now)%Z
  | HbReturn None => True
  end.

Definition hb_inv (s : Sys) : Prop :=
  let last := es_lastHearbeatTime (hs_exec s) in
  let em := sv_executorManager (hs_master s) in
  es_cfg (hs_exec s) = cfg ∧ es_info (hs_exec s) = Some info ∧ leads (hs_master s) ∧ em_inv em ∧
  (last ≤ hs_clock s)%Z ∧ (∀ req, req ∈ hs_late s → req = heartbeatRequest info cfg) ∧
  loop_ok (hs_clock s) last em (hs_loop s) ∧
  (hb_running (hs_loop s) = true → kept_until (ni_ID info) (last + L cfg + R cfg) em).

End invariant.

(** One round of the loop against a server master that answers at once. *)
Definition quick_round (interval : Duration) (t : Time) : list hb_label := [hb_pass interval; hb_tick t; hb_handle; hb_answer].
Fixpoint quick_rounds (interval : Duration) (now : Time) (k : nat) : list hb_label :=
  match k with
  | 0 => []
  | S k => quick_round interval (now + interval) ++ quick_rounds interval (now + interval) k
  end.

(** The server master campaigned with success and does not serve yet. *)
Definition starting {DB TM XM} (m : Server DB TM XM) : Prop :=
  sv_leaderInitialized m = false ∧ ∃ l, sv_leader m = Some l ∧ m_Name l = sv_id m ∧ m_Name l ≠ "".

Section register_spec.
Context {DB TM XM : Type}.
Abbreviation Master := (Server DB TM XM).

(** The RPC at a server master: what the hook meets, the time, and the id it allocates
    depend on its state. *)
Definition RegisterRPC (waits : Master → Waits) (forward : TM → RegisterExecutorResponse * option goerr) (now : Master → Time) (newID : Master → ExecutorID)
    (addr : string) (capability : Z) : Go Master RegisterExecutorResponse := λ m,
  match Server_RegisterExecutor (waits m) forward (now m) (newID m) addr capability m with
  | (Done (resp, None), m') => (Done resp, m')
  | (Done (_, Some err), m') => (Fail err, m')
  | (Fail err, m') => (Fail err, m')
  | (Panic, m') => (Fail (ErrForeign "transport is closing"), m')
  end.

(** One new executor. *)
Definition registered_as (id : ExecutorID) (addr : string) (m m' : Master) : Prop :=
  em_executors (sv_executorManager m) !! id = None ∧
  ∃ t, m' = set_executors (RegisterExec t (mkNodeInfo 0 id addr defaultCapability) (sv_executorManager m)) m.

End register_spec.

(** ** Lemmas *)

Lemma wrapS_small z : (0 ≤ z < 2 ^ 63)%Z → int64 z = z.
Proof. intros H. apply int64_id. unfold in_int64. lia. Qed.

(** The TTL that the server master computes from the request. *)
Lemma request_ttl info cfg :
  timing_ok cfg → int64 (hb_Ttl (heartbeatRequest info cfg) * Millisecond) = (cf_KeepAliveTTL cfg + cf_RPCTimeout cfg)%Z.
Proof.
  intros [(HI & HR & HL) [Hl Hr]]. unfold heartbeatRequest, Milliseconds. simpl hb_Ttl.
  apply Z.div_exact in Hl, Hr; [|done..]. rewrite !Z.quot_div_nonneg by (unfold Millisecond; lia).
  set (l := (cf_KeepAliveTTL cfg / Millisecond)%Z) in *. set (r := (cf_RPCTimeout cfg / Millisecond)%Z) in *.
  assert (0 ≤ l ∧ 0 ≤ r ∧ (l + r) * Millisecond < 2 ^ 63)%Z as (H1 & H2 & H3).
  { split_and!; [apply Z.div_pos; unfold Millisecond; lia..|lia]. }
  assert (l + r < 2 ^ 63)%Z by (unfold Millisecond in *; lia).
  rewrite (wrapS_small (l + r)) by lia. unfold uint64. rewrite Z.mod_small by lia. rewrite wrapS_small by (unfold Millisecond in *; lia). lia.
Qed.

Section protocol_lemmas.
Context {T X DB TM XM : Type} (info : NodeInfo) (cfg : Config).
Abbreviation Sys := (HbSys T X DB TM XM).
Context (forward : TM → option HeartbeatResponse * option goerr).
Hypothesis Htiming : timing_ok cfg.
Implicit Types m : Server DB TM XM.

(** A leading server master hands the request to its executor manager. *)
Lemma master_handle_leads now req m :
  leads m →
  master_handle forward now req m =
    match on_executors (HandleHeartbeat now req) m with
    | (Done (Some err), m') => ((Some (mkHeartbeatResponse (ToPBError (Some err)) "" []), None), m')
    | (Done None, m') =>
        let leader := match CheckLeader (sv_leader m') with (Some l, true) => m_AdvertiseAddr l | _ => "" end in
        ((Some (mkHeartbeatResponse None leader (m_AdvertiseAddr <$> sv_members m')), None), m')
    | (Fail err, m') => ((None, Some err), m')
    | (Panic, m') => ((None, Some (ErrForeign "transport is closing")), m')
    end.
Proof.
  intros (Hi & l & Hl & Hn & Hne). unfold master_handle, Server_Heartbeat, ServerMaster.serve.
  assert (∀ (resp0 : option HeartbeatResponse) setErr,
    PreRPC (masterRPCHook (mkWaits (λ _, sv_leader m) (λ _, true)) m) (sv_id m) forward setErr resp0 = Done Proceed) as ->.
  { intros resp0 setErr. unfold PreRPC, forwardToLeader, isLeaderAndNeedForward, masterRPCHook. simpl. rewrite Hl. simpl.
    rewrite (bool_decide_eq_false_2 (m_Name l = "")) by done. simpl. rewrite (bool_decide_eq_true_2 (m_Name l = sv_id m)) by done. unfold checkInitialized. by rewrite Hi. }
  by destruct (on_executors (HandleHeartbeat now req) m) as [[[err|]|err|] m'].
Qed.

(** A heartbeat of a registered executor succeeds and extends its life. *)
Lemma master_handle_kept now t m :
  leads m → em_inv (sv_executorManager m) → kept_until (ni_ID info) t (sv_executorManager m) →
  let '(out, m') := master_handle forward now (heartbeatRequest info cfg) m in
  good_answer out ∧ leads m' ∧ em_inv (sv_executorManager m') ∧
  kept_until (ni_ID info) (now + cf_KeepAliveTTL cfg + cf_RPCTimeout cfg) (sv_executorManager m').
Proof.
  intros Hl Hinv (x & Hx & Hst & _). rewrite master_handle_leads by done.
  destruct (HandleHeartbeat_inv now (heartbeatRequest info cfg) _ Hinv) as [Hinv' [r Hr]]. unfold on_executors.
  unfold HandleHeartbeat in *. cbn [hb_ExecutorId heartbeatRequest] in *. rewrite Hx in *. rewrite (bool_decide_eq_false_2 (ex_Status x = Tombstone)) in * by done.
  destruct (Update _ _ _ _ _) as [[u|e|] resc]; [|done..]. simpl in *. split_and!; [by eexists _, _|done|done|].
  unfold kept_until. cbn [sv_executorManager set_executors em_executors]. rewrite lookup_insert_eq. eexists. split; [reflexivity|]. split; [done|]. cbn [ex_lastUpdateTime ex_heartbeatTTL].
  pose proof (request_ttl info cfg Htiming) as Httl. unfold heartbeatRequest in Httl. simpl hb_Ttl in Httl. rewrite Httl. lia.
Qed.

(** When the executor is gone, the server master still leads. *)
Lemma master_handle_any now req m :
  leads m → em_inv (sv_executorManager m) →
  let '(out, m') := master_handle forward now req m in leads m' ∧ em_inv (sv_executorManager m').
Proof.
  intros Hl Hinv. rewrite master_handle_leads by done. destruct (HandleHeartbeat_inv now req _ Hinv) as [Hinv' [r Hr]].
  unfold on_executors. destruct (HandleHeartbeat now req _) as [out em]. simpl in *. subst out. by destruct r.
Qed.

(** The liveness check spares an executor that is kept. *)
Lemma check_kept now order id t em :
  kept_until id t em → (now ≤ t)%Z → kept_until id t (checkAliveImpl now order em).2.
Proof.
  intros (x & Hx & Hst & Ht) Hnow. destruct (checkAliveImpl_eq now order em) as [[-> _]|(id' & y & _ & Hy & Hd & ->)]; [by exists x|].
  exists x. simpl. rewrite lookup_delete_ne; [done|]. intros <-. rewrite Hx in Hy. injection Hy as <-.
  unfold is_dead, Before in Hd. rewrite bool_decide_eq_false_2 in Hd by done. simpl in Hd. apply bool_decide_eq_true in Hd. lia.
Qed.

Lemma check_inv now order em : em_inv em → em_inv (checkAliveImpl now order em).2.
Proof. intros H. eapply em_step_inv; [done|]. constructor. Qed.

Lemma kept_mono id t t' em : (t' ≤ t)%Z → kept_until id t em → kept_until id t' em.
Proof. intros Hle (x & Hx & Hs & Ht). exists x. split_and!; [done..|lia]. Qed.

Abbreviation inv := (hb_inv (T:=T) (X:=X) (DB:=DB) (TM:=TM) (XM:=XM) info cfg).
Abbreviation step := (hb_step (T:=T) (X:=X) (Some (cf_RPCTimeout cfg)) forward).

Lemma pass_inv d s s' : inv s → step (hb_pass d) s = Some s' → inv s'.
Proof.
  intros (Hc & Hi & Hl & Hem & Hlast & Hlate & Hloop & Hkept) H. simpl in H. destruct (may_pass _ d s) eqn:Hp; [|done]. injection H as <-.
  unfold may_pass in Hp. apply andb_true_iff in Hp as [Hd%bool_decide_eq_true Hp]. unfold hb_inv. simpl. split_and!; [done..|lia|done| |done].
  destruct (hs_loop s) as [recv until|t start req ans|[e|]]; simpl in *; [apply bool_decide_eq_true in Hp; lia|..|lia|done].
  apply bool_decide_eq_true in Hp. destruct Hloop as (? & ? & ?). split_and!; [lia..|done|done].
Qed.

Lemma tick_inv t s s' : inv s → step (hb_tick t) s = Some s' → inv s'.
Proof.
  intros (Hc & Hi & Hl & Hem & Hlast & Hlate & Hloop & Hkept) H. simpl in H. destruct (hs_loop s) as [recv until|? ? ? ?|?]; [|done..].
  case_bool_decide as Ht; [|done]. unfold keepHeartbeat_send, heartbeat_expired, Before in H. rewrite Hc, Hi in H. simpl in Hloop.
  case_bool_decide as He; injection H as <-; unfold hb_inv; simpl.
  - by split_and!.
  - split_and!; first [done|lia|by apply Hkept].
Qed.

(** A request is handled, during its call or later. *)
Lemma handled_inv now last l req m :
  leads m → em_inv (sv_executorManager m) → (last ≤ now)%Z → req = heartbeatRequest info cfg →
  loop_ok info cfg now last (sv_executorManager m) l → (hb_running l = true → kept_until (ni_ID info) (last + L cfg + R cfg) (sv_executorManager m)) →
  let '(out, m') := master_handle forward now req m in
  leads m' ∧ em_inv (sv_executorManager m') ∧ loop_ok info cfg now last (sv_executorManager m') l ∧
  (hb_running l = true → good_answer out ∧ kept_until (ni_ID info) (now + L cfg + R cfg) (sv_executorManager m')).
Proof.
  intros Hl Hem Hlast -> Hloop Hkept. destruct (hb_running l) eqn:Hrun.
  - pose proof (master_handle_kept now _ m Hl Hem (Hkept eq_refl)) as Hk. destruct (master_handle _ _ _ _) as [out m'].
    destruct Hk as (Hg & Hl' & Hem' & Hk). split_and!; [done..| |done]. destruct l as [| t start req [a|]|]; [done| |done..].
    destruct Hloop as (? & ? & ? & _). split_and!; first [done|lia|eapply kept_mono; [|done]; lia].
  - pose proof (master_handle_any now (heartbeatRequest info cfg) m Hl Hem) as Hk. destruct (master_handle _ _ _ _) as [out m'].
    destruct Hk as [Hl' Hem']. split_and!; [done..| |done]. by destruct l.
Qed.

Lemma handle_inv s s' : inv s → step hb_handle s = Some s' → inv s'.
Proof.
  intros (Hc & Hi & Hl & Hem & Hlast & Hlate & Hloop & Hkept) H. simpl in H. destruct (hs_loop s) as [|t start req ans|] eqn:El; [done| |done].
  pose proof Hloop as (Ht & Hreq & _).
  pose proof (handled_inv (hs_clock s) _ _ req (hs_master s) Hl Hem Hlast Hreq Hloop Hkept) as Hh.
  destruct (master_handle _ _ _ _) as [out m']. injection H as <-. destruct Hh as (Hl' & Hem' & _ & Hk). destruct (Hk eq_refl) as [Hg Hk'].
  unfold hb_inv. simpl. split_and!; first [done|lia|intros; eapply kept_mono; [|done]; lia].
Qed.

Lemma late_inv i s s' : inv s → step (hb_late i) s = Some s' → inv s'.
Proof.
  intros (Hc & Hi & Hl & Hem & Hlast & Hlate & Hloop & Hkept) H. simpl in H. destruct (hs_late s !! i) as [req|] eqn:Ei; [|done].
  pose proof (handled_inv (hs_clock s) _ (hs_loop s) req (hs_master s) Hl Hem Hlast (Hlate _ ltac:(by eapply list_elem_of_lookup_2)) Hloop Hkept) as Hh.
  destruct (master_handle _ _ _ _) as [out m']. injection H as <-. destruct Hh as (Hl' & Hem' & Hloop' & Hk).
  unfold hb_inv. simpl. split_and!; [done..| |done|].
  - intros r Hr. apply Hlate. eapply elem_of_submseteq; [done|apply sublist_submseteq, sublist_delete].
  - intros Hr. destruct (Hk Hr) as [_ Hk']. eapply kept_mono; [|done]. lia.
Qed.

Lemma check_step_inv order s s' : inv s → step (hb_check order) s = Some s' → inv s'.
Proof.
  intros (Hc & Hi & Hl & Hem & Hlast & Hlate & Hloop & Hkept) H. simpl in H. unfold on_executors in H.
  destruct (checkAliveImpl _ _ _) as [r em] eqn:Hch. injection H as <-.
  assert (em = (checkAliveImpl (hs_clock s) order (sv_executorManager (hs_master s))).2) as -> by (by rewrite Hch).
  assert (hb_running (hs_loop s) = true → hs_clock s ≤ es_lastHearbeatTime (hs_exec s) + L cfg + R cfg)%Z as Hin.
  { destruct (hs_loop s) as [| |[|]]; simpl in *; intros; [lia..|done|done]. }
  unfold hb_inv. simpl. split_and!; [done..|by apply check_inv|done|done| |].
  - destruct (hs_loop s) as [|t start req [out|]|]; [done| |done..]. destruct Hloop as (Ht & Hreq & Hg & Hk). pose proof Htiming as [? _].
    split_and!; first [done|lia|apply check_kept; [done|lia]].
  - intros Hr. apply check_kept; [by apply Hkept|by apply Hin].
Qed.

Lemma cancel_inv s s' : inv s → step hb_cancel s = Some s' → inv s'.
Proof.
  intros (Hc & Hi & Hl & Hem & Hlast & Hlate & Hloop & Hkept) H. simpl in H. destruct (hs_loop s); [|done..]. injection H as <-.
  unfold hb_inv. simpl. by split_and!.
Qed.

(** The call returns. *)
Lemma answer_inv s s' : inv s → step hb_answer s = Some s' → inv s'.
Proof.
  intros (Hc & Hi & Hl & Hem & Hlast & Hlate & Hloop & Hkept) H. simpl in H. destruct (hs_loop s) as [|t start req [out|]|] eqn:El; [done| |done..].
  destruct Hloop as (Ht & Hreq & (leader & addrs & ->) & Hk). simpl in H. injection H as <-.
  pose proof Htiming as [? _]. unfold hb_inv, heartbeat_success, offer_update, wait_from. cbn [hs_exec hs_master hs_clock hs_loop hs_late].
  destruct (es_updating _); cbn [es_cfg es_info es_lastHearbeatTime set_last set_updating loop_ok]; rewrite Hc; split_and!; first [done|lia].
Qed.

Lemma error_inv err s s' : inv s → step (hb_error err) s = Some s' → inv s'.
Proof.
  intros (Hc & Hi & Hl & Hem & Hlast & Hlate & Hloop & Hkept) H. simpl in H. destruct (hs_loop s) as [|t start req ans|] eqn:El; [done| |done].
  destruct Hloop as (Ht & Hreq & _). unfold heartbeat_expired, Before in H. rewrite Hc in H. pose proof Htiming as [? _].
  assert (∀ r, r ∈ hs_late s ++ [req] → r = heartbeatRequest info cfg) as Hlate' by set_solver.
  case_bool_decide; injection H as <-; unfold hb_inv, wait_from; cbn [hs_exec hs_master hs_clock hs_loop hs_late loop_ok hb_running]; rewrite ?Hc; split_and!;
    first [done|lia|by apply Hkept].
Qed.

Lemma hb_run_inv ls s s' : inv s → hb_run (Some (cf_RPCTimeout cfg)) forward ls s = Some s' → inv s'.
Proof.
  revert s. induction ls as [|l ls IH]; intros s Hs Hr; [by injection Hr as <-|]. cbn [hb_run] in Hr.
  destruct (step l s) as [s1|] eqn:E; [|done]. apply (IH s1); [|done].
  destruct l; [by eapply pass_inv|by eapply tick_inv|by eapply handle_inv|by eapply answer_inv|by eapply error_inv|by eapply late_inv
    |by eapply check_step_inv|by eapply cancel_inv].
Qed.

End protocol_lemmas.

Section gaps.
Context {T X DB TM XM : Type} (bound : option Duration) (forward : TM → option HeartbeatResponse * option goerr).
Implicit Types m : Server DB TM XM.
Implicit Types e : ExecServer T X.

Lemma master_handle_starting now req m :
  starting m → master_handle forward now req m = ((Some (mkHeartbeatResponse (Some ErrorCode_MasterNotReady) "" []), None), m).
Proof.
  intros (Hi & l & Hl & Hn & Hne). unfold master_handle, Server_Heartbeat, ServerMaster.serve, PreRPC, forwardToLeader, isLeaderAndNeedForward, masterRPCHook.
  cbn [await_leader he_leader wt_leader]. rewrite Hl. cbn [CheckLeader]. rewrite (bool_decide_eq_false_2 (m_Name l = "")) by done. cbn [negb].
  rewrite (bool_decide_eq_true_2 (m_Name l = sv_id m)) by done. unfold checkInitialized. cbn [he_initialized]. by rewrite Hi.
Qed.

Lemma hb_run_app ls ls' (s : HbSys T X DB TM XM) :
  hb_run bound forward (ls ++ ls') s = match hb_run bound forward ls s with Some s' => hb_run bound forward ls' s' | None => None end.
Proof. revert s. induction ls as [|l ls IH]; intros s; [done|]. simpl. destruct (hb_step _ _ l s); [apply IH|done]. Qed.

(** Against a starting leader every round succeeds and changes nothing there. *)
Lemma quick_rounds_starting k now e m info :
  (0 ≤ cf_KeepAliveInterval (es_cfg e) ≤ cf_KeepAliveTTL (es_cfg e))%Z → match bound with Some b => (0 ≤ b)%Z | None => True end →
  es_info e = Some info → starting m →
  let I := cf_KeepAliveInterval (es_cfg e) in
  hb_run bound forward (quick_rounds I now k) (hb_start now e m) = Some (hb_start (now + Z.of_nat k * I) e m).
Proof.
  intros HI Hb Hinfo Hst I. revert now. induction k as [|k IH]; intros now; [by rewrite Z.add_0_r|].
  cbn [quick_rounds]. rewrite hb_run_app.
  assert (hb_run bound forward (quick_round I (now + I)) (hb_start now e m) = Some (hb_start (now + I) e m)) as ->; [|rewrite IH; do 2 f_equal; lia].
  unfold quick_round. cbn [hb_run hb_step]. unfold may_pass, hb_start, wait_from. cbn [hs_clock hs_loop hs_exec hs_late hs_master es_cfg set_last]. fold I.
  rewrite !bool_decide_eq_true_2 by lia. cbn [andb hs_clock hs_loop hs_exec hs_late hs_master]. rewrite bool_decide_eq_true_2 by lia.
  unfold keepHeartbeat_send, heartbeat_expired, Before. cbn [es_lastHearbeatTime es_cfg es_info set_last]. rewrite bool_decide_eq_false_2, Hinfo by lia.
  cbn [hs_clock hs_loop hs_exec hs_late hs_master]. rewrite master_handle_starting by done. cbn. done.
Qed.

End gaps.

Section register_lemmas.
Context {DB TM XM : Type}.
Abbreviation Master := (Server DB TM XM).
Context (waits : Master → Waits) (forward : TM → RegisterExecutorResponse * option goerr) (now : Master → Time) (newID : Master → ExecutorID).
Abbreviation rpc := (RegisterRPC waits forward now newID).

(** A server master that does not forward either registers the executor or changes
    nothing. *)
Lemma RegisterRPC_out addr (m : Master) r m' :
  sv_masterCli m = None → rpc addr defaultCapability m = (r, m') →
  match r with
  | Done resp => match rer_Err resp with None => registered_as (rer_ExecutorId resp) addr m m' | Some _ => m' = m end
  | _ => m' = m
  end.
Proof.
  intros Hf. unfold RegisterRPC, Server_RegisterExecutor, ServerMaster.serve, PreRPC, forwardToLeader, isLeaderAndNeedForward, masterRPCHook. simpl he_leaderCli. rewrite Hf.
  destruct (await_leader _ _ _) as [[l|]|]; simpl; [|intros [= <- <-]; done..].
  case_bool_decide; [|intros [= <- <-]; done]. unfold checkInitialized.
  destruct (sv_leaderInitialized m); simpl; [|intros [= <- <-]; done].
  unfold on_executors, AllocateNewExec. destruct (em_executors (sv_executorManager m) !! newID m) eqn:Hid; simpl.
  - intros [= <- <-]. by destruct m.
  - intros [= <- <-]. split; [done|]. by eexists.
Qed.

Lemma register_once_out addr (m : Master) resp0 r m' resp :
  sv_masterCli m = None → register_once rpc addr (m, resp0) = (r, (m', resp)) →
  match r with Done _ => registered_as (rer_ExecutorId resp) addr m m' | _ => m' = m end.
Proof.
  intros Hf. unfold register_once. destruct (rpc addr defaultCapability m) as [out m1] eqn:Ho. pose proof (RegisterRPC_out _ _ _ _ Hf Ho) as Hout.
  destruct out as [rs|e|]; simpl in Hout; [destruct (rer_Err rs)|..]; intros [= <- <- <-]; done.
Qed.

(** However often it is tried, one executor is registered or none. *)
Lemma attempts_register addr n st r st' :
  sv_masterCli st.1 = None → attempts register_retryable (register_once rpc addr) n st r st' →
  match r with Done _ => registered_as (rer_ExecutorId st'.2) addr st.1 st'.1 | _ => st'.1 = st.1 end.
Proof.
  intros Hf Ha. induction Ha as [n [m r0] [m' r1] H|n [m r0] [m' r1] H|n [m r0] err [m' r1] H Hr|n [m r0] err [m1 r1] r [m2 r2] H Hr Ha IH|n [m r0] err]; simpl in *;
    [by apply register_once_out in H..| |done].
  apply register_once_out in H; [|done]. subst m1. by apply IH.
Qed.

End register_lemmas.

Lemma on_server_Done {T X W A} (f : Go (ExecServer T X) A) (st : ExecServer T X * W) a st' :
  on_server f st = (Done a, st') → f st.1 = (Done a, st'.1) ∧ st'.2 = st.2.
Proof. destruct st as [s w]. unfold on_server. simpl. destruct (f s) as [r s']. intros [= -> <-]. done. Qed.

Lemma on_server_modify {T X W A} f (k : unit → Go (ExecServer T X * W) A) s w : (on_server (modify f) ≫= k) (s, w) = k tt (f s, w).
Proof. done. Qed.

Lemma failing_bind {T X A} err (k : unit → Go (ExecServer T X) A) s a s' :
  (failing err ≫= k) s = (Done a, s') → err = None ∧ k tt s = (Done a, s').
Proof. by destruct err. Qed.

Section start_lemmas.
Context {T X W : Type} `{HRetry : !Retry}.
Context (RegisterExecutor : string → Z → Go W RegisterExecutorResponse) (env : StartEnv T X).
Abbreviation St := (ExecServer T X).

Lemma initClients_Done (s s' : St) :
  initClients env s = (Done tt, s') → ∃ m r, s' = set_resourceClient r (set_masterClient m s).
Proof.
  unfold initClients. rewrite (bind_Done get _ s s s eq_refl). intros (m & s1 & H1 & H)%bind_inv_Done. injection H1 as Hm <-.
  rewrite (bind_Done (modify _) _ s tt _ eq_refl) in H. apply bind_inv_Done in H as (r & s2 & H2 & H). injection H2 as Hr <-. injection H as <-. by exists m, r.
Qed.

Lemma selfRegister_Done (s : St) (w : W) st' :
  selfRegister RegisterExecutor (s, w) = (Done tt, st') →
  ∃ id, st'.1 = set_info (mkNodeInfo NodeTypeExecutor id (cf_AdvertiseAddr (es_cfg s)) defaultCapability) s.
Proof. unfold selfRegister. destruct (retry_Do _ _ _ _) as [[[]|e|] [w' resp]]; [|done..]. intros [= <-]. by eexists. Qed.

(** What the first part of [Run] has set up. *)
Lemma Run_listen_Done cfg (w : W) st' :
  Run_listen RegisterExecutor env (NewExecServer cfg, w) = (Done tt, st') →
  ∃ m r id, st'.1 = mkExecServer cfg (Some m) (Some r) (Some (mkNodeInfo NodeTypeExecutor id (cf_AdvertiseAddr cfg) defaultCapability)) zeroTime true true None None None
    [GTaskRunner; GMsgServer; GTCPServer; GGrpcServer; GHTTPServer] None.
Proof.
  unfold Run_listen. rewrite on_server_modify. intros ([] & [s1 w1] & H1 & H)%bind_inv_Done.
  apply on_server_Done in H1 as [H1 _]. apply initClients_Done in H1 as (m & r & E1). simpl in E1. subst s1.
  apply bind_inv_Done in H as ([] & [s2 w2] & H2 & H). apply selfRegister_Done in H2 as [id E2]. simpl in E2. subst s2.
  rewrite on_server_modify in H. apply bind_inv_Done in H as ([] & [s3 w3] & H3 & H).
  apply on_server_Done in H3 as [H3 _]. unfold startMsgService in H3. destruct (se_msgService env); [done|]. injection H3 as E3. simpl in E3.
  apply on_server_Done in H as [H _]. unfold startTCPService in H. destruct (se_listen env); [done|]. injection H as <-. exists m, r, id. simpl. by rewrite <- E3.
Qed.

Lemma fetchMetaStore_Done (s s' : St) :
  fetchMetaStore env s = (Done tt, s') →
  ∃ sd frame conf user, se_query env StoreType_ServiceDiscovery = Done sd ∧ se_query env StoreType_SystemMetaStore = Done frame ∧
    se_unmarshal env frame = Some conf ∧ se_query env StoreType_AppMetaStore = Done user ∧
    s' = set_userRawKVClient user (set_frameMetaClient conf (set_etcdCli (SplitOn ","%char sd) s)).
Proof.
  unfold fetchMetaStore. intros (sd & s1 & H1 & H)%bind_inv_Done. injection H1 as Hsd <-.
  apply failing_bind in H as [_ H]. rewrite (bind_Done (modify _) _ s tt _ eq_refl) in H.
  apply bind_inv_Done in H as (frame & s2 & H2 & H). injection H2 as Hf <-. apply bind_inv_Done in H as (conf & s3 & H3 & H). injection H3 as Hc <-.
  destruct (se_unmarshal env frame) as [c|] eqn:Hu; [|done]. injection Hc as ->.
  apply failing_bind in H as [_ H]. rewrite (bind_Done (modify _) _ _ tt _ eq_refl) in H.
  apply bind_inv_Done in H as (user & s4 & H4 & H). injection H4 as Hus <-. apply failing_bind in H as [_ H]. injection H as <-.
  by exists sd, frame, conf, user.
Qed.

End start_lemmas.

(** ** Theorems *)


(** The timeout that the loop passes to the heartbeat call is not used by the client, so
    a call may take any time. Then the server master removes the executor while the loop
    still waits in the call, and the loop does not return. *)
Theorem heartbeat_call_unbounded {T X DB TM XM} info forward now d (e : ExecServer T X) (m : Server DB TM XM) x :
  timing_ok (es_cfg e) → es_info e = Some info → em_executors (sv_executorManager m) !! ni_ID info = Some x →
  (0 ≤ d ∧ ex_lastUpdateTime x + ex_heartbeatTTL x < now + cf_KeepAliveInterval (es_cfg e) + d)%Z →
  ∃ s, hb_run None forward [hb_pass (cf_KeepAliveInterval (es_cfg e)); hb_tick (now + cf_KeepAliveInterval (es_cfg e)); hb_pass d; hb_check [ni_ID info]]
         (hb_start now e m) = Some s ∧
    hb_running (hs_loop s) = true ∧ HasExecutor (sv_executorManager (hs_master s)) (ni_ID info) = false ∧
    (es_lastHearbeatTime (hs_exec s) + d ≤ hs_clock s)%Z.
Proof.
  intros [? _] Hinfo Hx Hd. cbn [hb_run hb_step]. unfold may_pass, hb_start, wait_from. cbn [hs_clock hs_loop hs_exec hs_late hs_master es_cfg set_last].
  rewrite !bool_decide_eq_true_2 by lia. cbn [andb hs_clock hs_loop hs_exec hs_late hs_master]. rewrite bool_decide_eq_true_2 by lia.
  unfold keepHeartbeat_send, heartbeat_expired, Before. cbn [es_lastHearbeatTime es_cfg es_info set_last]. rewrite bool_decide_eq_false_2, Hinfo by lia.
  cbn [hs_clock hs_loop hs_exec hs_late hs_master]. cbn [andb hs_clock hs_loop hs_exec hs_late hs_master].
  unfold on_executors. cbn [checkAliveImpl]. rewrite Hx. unfold Executor_checkAlive, is_dead, Before. rewrite (bool_decide_eq_true_2 (_ + _ < _)%Z) by lia. rewrite orb_true_r.
  unfold removeExecutorImpl. cbn [em_executors]. rewrite lookup_insert_eq. eexists. split; [reflexivity|]. cbn. split; [done|]. split; [|lia].
  unfold HasExecutor. apply bool_decide_eq_false_2. cbn [em_executors]. rewrite lookup_delete_eq. by apply is_Some_None.
Qed.

(** A leader that is not initialised answers a heartbeat with success and does not
    record it. The executor takes every answer for a success, and when the leader needs
    longer than the executor's time at the server master, its liveness check removes the
    executor nevertheless. *)
Theorem starting_leader_drops_executors {T X DB TM XM} info forward now k (e : ExecServer T X) (m : Server DB TM XM) x :
  timing_ok (es_cfg e) → es_info e = Some info → starting m → em_executors (sv_executorManager m) !! ni_ID info = Some x →
  (ex_lastUpdateTime x + ex_heartbeatTTL x < now + Z.of_nat k * cf_KeepAliveInterval (es_cfg e))%Z →
  ∃ s, hb_run (Some (cf_RPCTimeout (es_cfg e))) forward (quick_rounds (cf_KeepAliveInterval (es_cfg e)) now k ++ [hb_check [ni_ID info]]) (hb_start now e m) = Some s ∧
    hb_running (hs_loop s) = true ∧ es_lastHearbeatTime (hs_exec s) = hs_clock s ∧ HasExecutor (sv_executorManager (hs_master s)) (ni_ID info) = false.
Proof.
  intros [? _] Hinfo Hst Hx Hd. rewrite hb_run_app, (quick_rounds_starting _ _ _ _ _ _ info) by (done || lia). cbn [hb_run hb_step].
  unfold hb_start, on_executors. cbn [hs_clock hs_loop hs_exec hs_late hs_master checkAliveImpl]. rewrite Hx.
  unfold Executor_checkAlive, is_dead, Before. rewrite (bool_decide_eq_true_2 (_ + _ < _)%Z) by lia. rewrite orb_true_r.
  unfold removeExecutorImpl. cbn [em_executors]. rewrite lookup_insert_eq. eexists. split; [reflexivity|]. cbn. split_and!; [done..|].
  unfold HasExecutor. apply bool_decide_eq_false_2. cbn [em_executors]. rewrite lookup_delete_eq. by apply is_Some_None.
Qed.

(** The registration of an executor at a server master that does not forward requests.
    However often it is tried, it registers exactly one new executor, with the advertised
    address and under the id the executor takes, when it succeeds; and none otherwise. *)
Theorem self_register_exactly_once {T X DB TM XM} `{!Retry} waits forward now newID (s : ExecServer T X) (m : Server DB TM XM) r s' m' :
  sv_masterCli m = None → selfRegister (RegisterRPC waits forward now newID) (s, m) = (r, (s', m')) →
  match r with
  | Done _ => ∃ info, es_info s' = Some info ∧ ni_Addr info = cf_AdvertiseAddr (es_cfg s) ∧ registered_as (ni_ID info) (ni_Addr info) m m'
  | _ => s' = s ∧ m' = m
  end.
Proof.
  intros Hf. unfold selfRegister.
  pose proof (retry_attempts _ registerTries register_retryable (register_once (RegisterRPC waits forward now newID) (cf_AdvertiseAddr (es_cfg s)))
    (m, mkRegisterResponse None "")) as Ha.
  destruct (retry_Do _ _ _ _) as [out [m1 resp]]. apply attempts_register in Ha; [|done]. simpl in Ha.
  destruct out as [[]|err|]; intros [= <- <- <-]; [|done..]. by eexists.
Qed.

(** A successful heartbeat brings the RPC clients up to date. When the goroutine that
    updates them waits, it takes the members of the answer, and then both clients are
    connected to those members that they were connected to or that can be dialled. When it
    is busy, its update goes on with what it has. An answer without members leaves both
    without a connection, and every later call fails. *)
Theorem heartbeat_updates_clients {T X} dialM dialX orderM orderX now t resp (s : ExecServer T X) cm cx :
  es_masterClient s = Some cm → es_resourceClient s = Some cx → hbr_Err resp = None → es_updating s = None →
  ∃ s1 s2 cm' cx', keepHeartbeat_recv now t (Some resp, None) s = (Done tt, s1) ∧ es_lastHearbeatTime s1 = t ∧
    (∀ resp', es_updating (heartbeat_success t resp' s1) = es_updating s1) ∧
    bgUpdateServerMasterClients dialM dialX orderM orderX s1 = (Done tt, s2) ∧
    es_masterClient s2 = Some cm' ∧ es_resourceClient s2 = Some cx' ∧ es_updating s2 = None ∧
    (∀ addr, is_Some (fc_clients cm' !! addr) ↔ addr ∈ trimURL <$> hbr_Addrs resp ∧ (is_Some (fc_clients cm !! addr) ∨ dialed_at dialM 0 (hbr_Addrs resp) addr)) ∧
    (∀ addr, is_Some (fc_clients cx' !! addr) ↔ addr ∈ trimURL <$> hbr_Addrs resp ∧ (is_Some (fc_clients cx !! addr) ∨ dialed_at dialX 0 (hbr_Addrs resp) addr)) ∧
    (hbr_Addrs resp = [] → ∀ S Resp (order : gmap string T → list string) (rpc : T → Go S Resp) w,
       DoFailoverRPC order cm' rpc w = (Fail (GoErr ErrNoRPCClient ""), w)).
Proof.
  intros Hm Hx He Hu. unfold keepHeartbeat_recv. rewrite He. unfold heartbeat_success, offer_update. cbn [es_updating set_last]. rewrite Hu.
  eexists _, _, _, _. split; [reflexivity|]. split; [done|]. split; [done|]. unfold bgUpdateServerMasterClients.
  cbn [es_updating set_updating set_last es_masterClient es_resourceClient]. rewrite Hm, Hx. split; [reflexivity|].
  cbn [cu_urls cu_leaderURL es_masterClient es_resourceClient es_updating set_updating set_resourceClient set_masterClient].
  split; [reflexivity|]. split; [reflexivity|]. split; [done|]. split; [apply UpdateClients_clients|]. split; [apply UpdateClients_clients|].
  intros Hnil S0 Resp order rpc w. rewrite Hnil. unfold DoFailoverRPC. set (c' := (UpdateClients _ _ _ _ _).1).
  assert (∀ a, fc_clients c' !! a = None) as Hnone.
  { intros a. apply eq_None_not_Some. intros [Hs _]%UpdateClients_clients. by apply elem_of_nil in Hs. }
  clearbody c'. assert (omap (λ addr, fc_clients c' !! addr) (order (fc_clients c')) = []) as ->; [|done].
  induction (order (fc_clients c')) as [|a l IH]; [done|]. cbn. by rewrite Hnone.
Qed.

(** The order of the start. [Run] starts the heartbeat and discovery loops only when the
    executor is registered, both RPC clients exist and all three metastores are
    connected; but the server that accepts tasks is started before, while the executor is
    already registered and has no metastore client. *)
Theorem executor_start_order {T X W} `{!Retry} RegisterExecutor (env : StartEnv T X) cfg (w : W) st :
  Run_start RegisterExecutor env (NewExecServer cfg, w) = (Done tt, st) →
  (∃ s1 w1, Run_listen RegisterExecutor env (NewExecServer cfg, w) = (Done tt, (s1, w1)) ∧
     GGrpcServer ∈ es_goroutines s1 ∧ is_Some (es_info s1) ∧ es_frameMetaClient s1 = None ∧ es_userRawKVClient s1 = None ∧
     (GHeartbeat ∉ es_goroutines s1) ∧ (GDiscovery ∉ es_goroutines s1)) ∧
  GHeartbeat ∈ es_goroutines st.1 ∧ GDiscovery ∈ es_goroutines st.1 ∧ is_Some (es_info st.1) ∧
  is_Some (es_masterClient st.1) ∧ is_Some (es_resourceClient st.1) ∧ is_Some (es_etcdCli st.1) ∧ is_Some (es_frameMetaClient st.1) ∧ is_Some (es_userRawKVClient st.1) ∧
  ∃ key, Stop (λ _, key) st.1 = Done [StopGrpc; CloseTCP; DeleteNodeInfo key; CloseFrameMeta; CloseUserKV].
Proof.
  unfold Run_start. intros ([] & [s1 w1] & H1 & Hr)%bind_inv_Done. pose proof (Run_listen_Done _ _ _ _ _ H1) as (m & r & id & E). simpl in E.
  apply bind_inv_Done in Hr as ([] & [s2 w2] & H2 & Hr). apply on_server_Done in H2 as [H2 _]. apply fetchMetaStore_Done in H2 as (sd & frame & conf & user & _ & _ & _ & _ & E2).
  simpl in E2. rewrite !on_server_modify in Hr. injection Hr as <-. subst s2 s1. split.
  - eexists _, _. split; [exact H1|]. simpl. split_and!; [set_solver|by eexists|done|done|set_solver|set_solver].
  - simpl. split_and!; [set_solver|set_solver|by eexists..|]. by exists "".
Qed.

(** ** Witnesses *)

Module Witness.

(** [retry.Do] without waits and cancellation. *)
Fixpoint do_retry {S} (n : nat) (retryable : goerr → bool) (op : Go S unit) : Go S unit := λ s,
  match n with
  | 0 => (Fail (ErrForeign "reach maximum try"), s)
  | Datatypes.S n =>
      match op s with
      | (Fail err, s1) => if retryable err then do_retry n retryable op s1 else (Fail err, s1)
      | out => out
      end
  end.

#[local] Program Instance simple_retry : Retry := {| retry_Do := @do_retry |}.
Next Obligation.
  intros S n retryable op. induction n as [|n IH]; intros s; [apply at_given_up|]. simpl.
  destruct (op s) as [[[]|err|] s1] eqn:Ho; [by apply at_done| |by apply at_panic].
  destruct (retryable err) eqn:Hr; [by eapply at_again|by apply at_refused].
Qed.

Definition cfg : Config := set_KeepAliveTTL (20 * Second) (set_KeepAliveInterval (500 * Millisecond) (set_RPCTimeout (3 * Second)
  (set_AdvertiseAddr "host:1" (set_Join "m1:1,m2:1" NewConfig)))).
Definition info : NodeInfo := mkNodeInfo NodeTypeExecutor "ex1" "host:1" defaultCapability.
Definition exec : ExecServer unit unit := set_info info (NewExecServer cfg).
Definition em : ExecutorManagerImpl := RegisterExec 0 info (NewExecutorManagerImpl (30 * Second)).
Definition master (initialized : bool) (e : ExecutorManagerImpl) : Server unit unit unit :=
  mkServer "m1" "addr1" (Some (mkMember true true "m1" "addr1")) [mkMember true true "m1" "addr1"] None None e None initialized (if initialized then Leading else Starting) tt.
Definition forward (u : unit) : option HeartbeatResponse * option goerr := (None, Some (ErrForeign "unavailable")).

Lemma em_ok : em_inv em.
Proof. apply RegisterExec_inv. split; [done|]. intros id x H. simpl in H. by rewrite lookup_empty in H. Qed.

Lemma timing : timing_ok cfg.
Proof. by vm_compute. Qed.

Lemma leading : leads (master true em).
Proof. split; [reflexivity|]. exists (mkMember true true "m1" "addr1"). split_and!; [reflexivity..|discriminate]. Qed.

Lemma not_ready : starting (master false em).
Proof. split; [reflexivity|]. exists (mkMember true true "m1" "addr1"). split_and!; [reflexivity..|discriminate]. Qed.

Lemma kept : kept_until (ni_ID info) (0 + cf_KeepAliveTTL (es_cfg exec) + cf_RPCTimeout (es_cfg exec)) (sv_executorManager (master true em)).
Proof. exists (mkExecutor info Initing 0 (30 * Second)). split_and!; [vm_compute; reflexivity|discriminate|vm_compute; discriminate]. Qed.

(** A heartbeat is answered, the answer of the next one is lost and its request is handled
    again later. *)
Definition silent : list hb_label :=
  [hb_pass (500 * Millisecond); hb_tick (500 * Millisecond); hb_handle; hb_answer; hb_check ["ex1"];
   hb_pass (500 * Millisecond); hb_tick Second; hb_handle; hb_pass Second; hb_error (ErrForeign "deadline exceeded"); hb_tick (1500 * Millisecond); hb_late 0; hb_check ["ex1"]]%Z.

Definition after_silent : option (HbSys unit unit unit unit unit) := hb_run (Some (cf_RPCTimeout (es_cfg exec))) forward silent (hb_start 0 exec (master true em)).


Lemma heartbeat_call_unbounded_witness :
  ∃ s, hb_run None forward [hb_pass (500 * Millisecond); hb_tick (500 * Millisecond); hb_pass (60 * Second); hb_check ["ex1"]]%Z (hb_start 0 exec (master true em)) = Some s ∧
    hb_running (hs_loop s) = true ∧ HasExecutor (sv_executorManager (hs_master s)) "ex1" = false.
Proof.
  destruct (heartbeat_call_unbounded info forward 0 (60 * Second) exec (master true em) (mkExecutor info Initing 0 (30 * Second))) as (s & Hs & Hr & Hh & _);
    [apply timing|done|done|by vm_compute|]. by exists s.
Defined.

Lemma starting_leader_drops_executors_witness :
  ∃ s, hb_run (Some (cf_RPCTimeout (es_cfg exec))) forward (quick_rounds (cf_KeepAliveInterval (es_cfg exec)) 0 61 ++ [hb_check [ni_ID info]]) (hb_start 0 exec (master false em)) = Some s ∧
    hb_running (hs_loop s) = true ∧ HasExecutor (sv_executorManager (hs_master s)) (ni_ID info) = false.
Proof.
  destruct (starting_leader_drops_executors info forward 0 61 exec (master false em) (mkExecutor info Initing 0 (30 * Second))) as (s & Hs & Hr & _ & Hh);
    [exact timing|reflexivity|exact not_ready|vm_compute; reflexivity|vm_compute; reflexivity|]. exists s. split; [exact Hs|]. split; [exact Hr|exact Hh].
Defined.

Definition waits (m : Server unit unit unit) : Waits := mkWaits (λ _, sv_leader m) (λ _, true).
Definition rpc : string → Z → Go (Server unit unit unit) RegisterExecutorResponse :=
  RegisterRPC waits (λ _, (mkRegisterResponse None "", None)) (λ _, 0%Z) (λ _, "ex1").
Definition fresh : Server unit unit unit := master true (NewExecutorManagerImpl (20 * Second)).
Definition reg := selfRegister (T:=unit) (X:=unit) rpc (NewExecServer cfg, fresh).

Lemma self_register_exactly_once_witness : ∃ i, es_info reg.2.1 = Some i ∧ is_Some (em_executors (sv_executorManager reg.2.2) !! ni_ID i).
Proof.
  assert (reg.1 = Done tt) as Hd by (vm_compute; reflexivity).
  destruct (self_register_exactly_once waits (λ _, (mkRegisterResponse None "", None)) (λ _, 0%Z) (λ _, "ex1") (NewExecServer (T:=unit) (X:=unit) cfg) fresh
    (Done tt) reg.2.1 reg.2.2) as (i & Hi & Ha & Hn & t & Ht); [done| |].
  - rewrite <- Hd. unfold reg. destruct (selfRegister _ _) as [? [? ?]]. done.
  - exists i. split; [done|]. rewrite Ht. cbn. rewrite lookup_insert_eq. by eexists.
Defined.

Definition clients : FailoverRPCClients unit := mkFailoverClients "m1:1" {[ "m1:1" := tt ]}.
Definition connected : ExecServer unit unit := set_resourceClient clients (set_masterClient clients exec).
Definition keys (m : gmap string unit) : list string := (map_to_list m).*1.

Lemma heartbeat_updates_clients_witness :
  ∃ s1 s2 c, keepHeartbeat_recv 5 4 (Some (mkHeartbeatResponse None "http://m2:1" ["http://m2:1"]), None) connected = (Done tt, s1) ∧
    bgUpdateServerMasterClients (λ _ _, Some tt) (λ _ _, Some tt) keys keys s1 = (Done tt, s2) ∧ es_masterClient s2 = Some c ∧ is_Some (fc_clients c !! "m2:1").
Proof.
  destruct (heartbeat_updates_clients (λ _ _, Some tt) (λ _ _, Some tt) keys keys 5 4 (mkHeartbeatResponse None "http://m2:1" ["http://m2:1"]) connected clients clients)
    as (s1 & s2 & c & cx & H1 & _ & _ & H2 & Hc & _ & _ & Hin & _); [done..|].
  exists s1, s2, c. split_and!; [done..|]. apply Hin. split; [vm_compute; left|]. right. exists 0, "http://m2:1". split_and!; [done|by vm_compute|by eexists].
Defined.

Definition env : StartEnv unit unit :=
  {| se_dialMaster := λ _ _, Some tt; se_dialResource := λ _ _, Some tt; se_orderMaster := keys; se_orderResource := keys; se_msgService := None; se_listen := None;
     se_query := λ _, Done "a:1"; se_etcd := λ _, None; se_unmarshal := Some; se_frameMeta := λ _, None; se_userKV := λ _, None |}.

Definition started := Run_start rpc env (NewExecServer cfg, fresh).

Lemma executor_start_order_witness : GHeartbeat ∈ es_goroutines started.2.1 ∧ is_Some (es_frameMetaClient started.2.1).
Proof.
  assert (started.1 = Done tt) as Hd by (vm_compute; reflexivity).
  destruct (executor_start_order rpc env cfg fresh started.2) as (_ & Hh & _ & _ & _ & _ & _ & Hf & _).
  - rewrite <- Hd. apply surjective_pairing.
  - split; [exact Hh|exact Hf].
Defined.

End Witness.
