(* ===== verification/Registry.v ===== *)
(** * The worker registry and the making of tasks ([lib/registry], [pkg/deps], [executor/init.go], [executor/server.go])

    [CreateWorker] finds the factory of a worker type, decodes the configuration, builds the
    implementation and gives it its base object, which takes its dependencies from the
    container of the context. The executor builds that container for every task. The
    container ([dig]) is an interface with laws; a value of Go is what reflection sees of
    it. *)

From S2P Require Import Prelude Errors Model TaskRunner Master JobManager.

(** ** [pkg/deps/deps.go] *)

(** The types that are provided. *)
Inductive Dep : Type :=
| DepMessageHandlerManager | DepMessageSender | DepOrmClient | DepKVClientEx | DepClientsManager | DepMasterClient | DepBroker.

#[global] Instance Dep_eq_dec : EqDecision Dep.
Proof. solve_decision. Defined.

Definition Dep_code (d : Dep) : nat :=
  match d with
  | DepMessageHandlerManager => 0 | DepMessageSender => 1 | DepOrmClient => 2 | DepKVClientEx => 3
  | DepClientsManager => 4 | DepMasterClient => 5 | DepBroker => 6
  end.
Definition Dep_decode (n : nat) : option Dep :=
  [DepMessageHandlerManager; DepMessageSender; DepOrmClient; DepKVClientEx; DepClientsManager; DepMasterClient; DepBroker] !! n.
#[global] Program Instance Dep_countable : Countable Dep := inj_countable Dep_code Dep_decode _.
Next Obligation. by intros []. Qed.

(** The container of [dig]: a type is provided at most once, and a function is invoked
    exactly when all types of its arguments are provided. *)
Class Dig (C : Type) := {
  dig_New : C;
  dig_Provide : Dep → Go C unit;
  dig_Invoke : list Dep → C → option goerr;
  dig_types : C → gset Dep;
  dig_New_types : dig_types dig_New = ∅;
  dig_Provide_new : ∀ d c, d ∉ dig_types c → ∃ c', dig_Provide d c = (Done tt, c') ∧ dig_types c' = {[d]} ∪ dig_types c;
  dig_Provide_dup : ∀ d c, d ∈ dig_types c → ∃ err c', dig_Provide d c = (Fail err, c') ∧ dig_types c' = dig_types c;
  dig_Invoke_None : ∀ ds c, dig_Invoke ds c = None ↔ ∀ d, d ∈ ds → d ∈ dig_types c;
}.

Section registry.
Context {C : Type} `{!Dig C}.

Abbreviation Deps := C.
Definition NewDeps : Deps := dig_New.
Definition Provide (d : Dep) : Go Deps unit := dig_Provide d.

(** [Construct]: a function of the arguments [ins] that may fail; its value on success. *)
Definition Construct {A} (ins : list Dep) (fn : res goerr A) (d : Deps) : res goerr A :=
  match dig_Invoke ins d with
  | Some err => Fail err
  | None => fn
  end.

(** [Fill]: the fields of a parameter struct. *)
Definition Fill (fields : list Dep) (d : Deps) : option goerr := dig_Invoke fields d.

(** ** [pkg/context/context.go] *)

Record Context := mkContext {
  cx_NodeID : NodeID;
  cx_Addr : string;
  cx_MasterMetaBytes : string;
  cx_deps : option Deps;
}.

Definition NewContext : Context := mkContext "" "" "" None.
Definition WithDeps (d : Deps) (c : Context) : Context := mkContext (cx_NodeID c) (cx_Addr c) (cx_MasterMetaBytes c) (Some d).

(** ** Base objects ([lib/worker.go], [lib/master.go], [lib/base_jobmaster.go]) *)

Definition workerParams : list Dep := [DepMessageHandlerManager; DepMessageSender; DepOrmClient; DepKVClientEx; DepBroker].
Definition masterParams : list Dep :=
  [DepMessageHandlerManager; DepMessageSender; DepOrmClient; DepKVClientEx; DepClientsManager; DepMasterClient].

Inductive BaseObj : Type :=
| ABaseWorker (id : WorkerID) (masterID : MasterID)
| ABaseMaster (id : MasterID) (nodeID : NodeID) (addr : string) (metaBytes : string)
| ABaseJobMaster (master worker : BaseObj).

(** What the constructors take from the container; [BaseWorker], [Master] and [BaseJobMaster]
    model the objects they build. A missing dependency is a panic, as is a context without a container. *)
Definition fill_params {A} (params : list Dep) (ctx : Context) (a : A) : res goerr A :=
  match cx_deps ctx with
  | None => Panic
  | Some d => match Fill params d with Some _ => Panic | None => Done a end
  end.

Definition deps_NewBaseWorker (ctx : Context) (workerID : WorkerID) (masterID : MasterID) : res goerr BaseObj :=
  fill_params workerParams ctx (ABaseWorker workerID masterID).

Definition deps_NewBaseMaster (ctx : Context) (id : MasterID) : res goerr BaseObj :=
  fill_params masterParams ctx (ABaseMaster id (cx_NodeID ctx) (cx_Addr ctx) (cx_MasterMetaBytes ctx)).

Definition deps_NewBaseJobMaster (ctx : Context) (masterID : MasterID) (workerID : WorkerID) : res goerr BaseObj :=
  match deps_NewBaseMaster ctx workerID with
  | Done m => match deps_NewBaseWorker ctx workerID masterID with Done w => Done (ABaseJobMaster m w) | out => out end
  | out => out
  end.

(** [ID] of the object that is returned as the worker. *)
Definition Base_ID (b : BaseObj) : WorkerID :=
  match b with
  | ABaseWorker id _ => id
  | ABaseMaster id _ _ _ => id
  | ABaseJobMaster _ (ABaseWorker id _) => id
  | ABaseJobMaster _ _ => ""
  end.

(** ** [lib/registry/factory.go] *)

(** An implementation as reflection sees it: the fields when it is a pointer to a struct, and
    whether it has the methods of a job master; with the members that were set. *)
Record Impl := mkImpl {
  im_fields : option (gset string);
  im_isJobMaster : bool;
  im_members : gmap string BaseObj;
}.

(** A configuration is what its factory decodes; the type is that of all configurations. *)
Context {Cfg : Type}.

Record WorkerFactory := mkFactory {
  wf_NewWorkerImpl : Context → WorkerID → MasterID → Cfg → res goerr Impl;
  wf_DeserializeConfig : string → res goerr Cfg;
}.

(** The constructor of the two generic factories cannot fail; [decode] is [json.Unmarshal] or
    [toml.Decode] into the type of the configuration. *)
Definition NewSimpleWorkerFactory (constructor : Context → WorkerID → MasterID → Cfg → Impl) (decode : string → option Cfg) : WorkerFactory :=
  mkFactory (λ ctx w m cfg, Done (constructor ctx w m cfg))
    (λ bytes, match decode bytes with Some cfg => Done cfg | None => Fail (ErrForeign "decode") end).

(** ** [lib/registry/registry.go] *)

Abbreviation Registry := (gmap WorkerType WorkerFactory).

Definition NewRegistry : Registry := ∅.

Definition RegisterWorkerType (tp : WorkerType) (factory : WorkerFactory) (r : Registry) : bool * Registry :=
  match r !! tp with
  | Some _ => (false, r)
  | None => (true, <[tp := factory]> r)
  end.

Definition MustRegisterWorkerType (tp : WorkerType) (factory : WorkerFactory) : Go Registry unit := λ r,
  match RegisterWorkerType tp factory r with
  | (true, r') => (Done tt, r')
  | (false, r') => (Panic, r')
  end.

Definition nameOfBaseWorker : string := "BaseWorker".
Definition nameOfBaseJobMaster : string := "BaseJobMaster".

Definition implHasMember (impl : Impl) (memberName : string) : res goerr bool :=
  match im_fields impl with
  | None => Panic
  | Some fields => Done (bool_decide (memberName ∈ fields))
  end.

Definition setImplMember (impl : Impl) (memberName : string) (value : BaseObj) : res goerr Impl :=
  match im_fields impl with
  | None => Panic
  | Some fields =>
      if bool_decide (memberName ∈ fields)
      then Done (mkImpl (im_fields impl) (im_isJobMaster impl) (<[memberName := value]> (im_members impl)))
      else Panic
  end.

(** The base object made by [new] is set as the member [name] and returned. *)
Definition attach (new : res goerr BaseObj) (impl : Impl) (name : string) : res goerr (BaseObj * Impl) :=
  match new with
  | Done base => match setImplMember impl name base with Done impl' => Done (base, impl') | Fail e => Fail e | Panic => Panic end
  | Fail e => Fail e
  | Panic => Panic
  end.

(** The worker and its implementation. *)
Definition Registry_CreateWorker (r : Registry) (ctx : Context) (tp : WorkerType) (workerID : WorkerID) (masterID : MasterID) (configBytes : string) :
    res goerr (BaseObj * Impl) :=
  match r !! tp with
  | None => Fail (GoErr ErrWorkerTypeNotFound "")
  | Some factory =>
      match wf_DeserializeConfig factory configBytes with
      | Fail err => Fail err
      | Panic => Panic
      | Done config =>
          match wf_NewWorkerImpl factory ctx workerID masterID config with
          | Fail err => Fail err
          | Panic => Panic
          | Done impl =>
              match implHasMember impl nameOfBaseWorker with
              | Done true => attach (deps_NewBaseWorker ctx workerID masterID) impl nameOfBaseWorker
              | Done false =>
                  match implHasMember impl nameOfBaseJobMaster with
                  | Done true =>
                      if im_isJobMaster impl then attach (deps_NewBaseJobMaster ctx masterID workerID) impl nameOfBaseJobMaster
                      else Panic
                  | Done false | Panic => Panic
                  | Fail e => Fail e
                  end
              | Fail e => Fail e
              | Panic => Panic
              end
          end
      end
  end.

(** ** Registration at start-up ([executor/init.go], [dm/registry.go], [lib/registry/register_fake.go]) *)

(** The constructors and decoders of the packages that register. *)
Record Packages := mkPackages {
  pk_newDumpWorker : Cfg → Impl;
  pk_newLoadWorker : Cfg → Impl;
  pk_newSyncWorker : Cfg → Impl;
  pk_SubTaskConfig_Decode : string → res goerr Cfg;
  pk_newCvsTask : Context → WorkerID → MasterID → Cfg → Impl;
  pk_cvsTask_Config : string → option Cfg;
  pk_NewCVSJobMaster : Context → WorkerID → MasterID → Cfg → Impl;
  pk_cvsJob_Config : string → option Cfg;
  pk_newDMJobMaster : WorkerID → Cfg → Impl;
  pk_JobCfg_Decode : string → res goerr Cfg;
  pk_NewFakeMaster : Context → WorkerID → MasterID → Cfg → Impl;
  pk_fake_Config : string → option Cfg;
  pk_NewDummyWorker : Context → WorkerID → MasterID → Cfg → Impl;
  pk_fake_WorkerConfig : string → option Cfg;
}.

Definition unitWorkerFactory (p : Packages) (constructor : Cfg → Impl) : WorkerFactory :=
  mkFactory (λ _ _ _ config, Done (constructor config)) (pk_SubTaskConfig_Decode p).

(** [dmJobMasterFactory]; an error of its [Construct] is ignored. *)
Definition dmJobMasterFactory (p : Packages) : WorkerFactory :=
  mkFactory (λ _ workerID _ conf, Done (pk_newDMJobMaster p workerID conf)) (pk_JobCfg_Decode p).

Definition dm_init (p : Packages) : Go Registry unit :=
  _ ← MustRegisterWorkerType WorkerDMDump (unitWorkerFactory p (pk_newDumpWorker p));
  _ ← MustRegisterWorkerType WorkerDMLoad (unitWorkerFactory p (pk_newLoadWorker p));
  MustRegisterWorkerType WorkerDMSync (unitWorkerFactory p (pk_newSyncWorker p)).

Definition RegisterFake (p : Packages) : Go Registry unit :=
  _ ← MustRegisterWorkerType FakeJobMaster (NewSimpleWorkerFactory (pk_NewFakeMaster p) (pk_fake_Config p));
  MustRegisterWorkerType FakeTask (NewSimpleWorkerFactory (pk_NewDummyWorker p) (pk_fake_WorkerConfig p)).

(** The packages are initialised before the executor's own [init]. *)
Definition executor_init (p : Packages) : Go Registry unit :=
  _ ← dm_init p;
  _ ← MustRegisterWorkerType CvsTask (NewSimpleWorkerFactory (pk_newCvsTask p) (pk_cvsTask_Config p));
  _ ← MustRegisterWorkerType CvsJobMaster (NewSimpleWorkerFactory (pk_NewCVSJobMaster p) (pk_cvsJob_Config p));
  _ ← MustRegisterWorkerType DMJobMaster (dmJobMasterFactory p);
  RegisterFake p.

(** ** The making of a task ([executor/server.go]) *)

Definition provide_all (ds : list Dep) : Go Deps unit := forM_ Provide ds.

(** [buildDeps] of the executor, and the container of the job manager
    ([servermaster/server.go], [runLeaderService]). *)
Definition buildDeps : Go Deps unit :=
  provide_all [DepMessageHandlerManager; DepMessageSender; DepOrmClient; DepKVClientEx; DepClientsManager; DepMasterClient; DepBroker].
Definition leader_buildDeps : Go Deps unit :=
  provide_all [DepOrmClient; DepKVClientEx; DepClientsManager; DepMasterClient; DepMessageSender; DepMessageHandlerManager].

Section make_task.
Variable registry : Registry.
Variable info : NodeInfo.
(** [masterMeta.Marshal], and what a worker reports as its workload. *)
Variable marshalMeta : MasterMeta → res goerr string.
Variable workload : Impl → option RescUnit.

Definition makeTask (workerID : WorkerID) (masterID : MasterID) (workerType : WorkerType) (workerConfig : string) : res goerr Runnable :=
  match buildDeps NewDeps with
  | (Fail err, _) => Fail err
  | (Panic, _) => Panic
  | (Done _, dp) =>
      match marshalMeta (mkMasterMeta "" workerID workerType 0 "" "" 0 workerConfig) with
      | Fail err => Fail err
      | Panic => Panic
      | Done metaBytes =>
          let dctx := WithDeps dp NewContext in
          let dctx := mkContext (ni_ID info) (ni_Addr info) metaBytes (cx_deps dctx) in
          match Registry_CreateWorker registry dctx workerType workerID masterID workerConfig with
          | Done (w, impl) => Done (mkRunnable (Base_ID w) (workload impl))
          | Fail err => Fail err
          | Panic => Panic
          end
      end
  end.

End make_task.

(** ** Specification *)

(** An implementation that the framework can use: it embeds one of the two base objects. *)
Definition impl_ok (i : Impl) : Prop :=
  ∃ fields, im_fields i = Some fields ∧ (nameOfBaseWorker ∈ fields ∨ nameOfBaseJobMaster ∈ fields ∧ im_isJobMaster i = true).

Definition factory_ok (f : WorkerFactory) : Prop :=
  (∀ bytes, wf_DeserializeConfig f bytes ≠ Panic) ∧
  ∀ ctx w m cfg, wf_NewWorkerImpl f ctx w m cfg ≠ Panic ∧ ∀ i, wf_NewWorkerImpl f ctx w m cfg = Done i → impl_ok i.

Definition registry_ok (r : Registry) : Prop := ∀ tp f, r !! tp = Some f → factory_ok f.

(** The types of the workers that job masters create. *)
Definition task_types : list WorkerType := [CvsTask; FakeTask; WorkerDMDump; WorkerDMLoad; WorkerDMSync].

(** ** Lemmas *)

Lemma provide_all_Done ds (c : C) :
  NoDup ds → (∀ d, d ∈ ds → d ∉ dig_types c) → ∃ c', provide_all ds c = (Done tt, c') ∧ dig_types c' = list_to_set ds ∪ dig_types c.
Proof.
  intros Hnd. revert c. induction Hnd as [|d ds Hd Hnd IH]; intros c Hc; [exists c; split; [done|set_solver]|].
  destruct (dig_Provide_new d c) as (c1 & H1 & E1); [apply Hc; left|]. unfold provide_all. cbn [forM_]. unfold Provide at 1.
  rewrite (bind_Done _ _ _ _ _ H1). destruct (IH c1) as (c2 & H2 & E2); [intros x Hx; rewrite E1; set_solver|].
  exists c2. split; [exact H2|]. rewrite E2, E1. simpl. set_solver.
Qed.

(** The container of a task has every dependency of the base objects. *)
Lemma buildDeps_Done : ∃ c, buildDeps NewDeps = (Done tt, c) ∧ (∀ d, d ∈ dig_types c).
Proof.
  destruct (provide_all_Done [DepMessageHandlerManager; DepMessageSender; DepOrmClient; DepKVClientEx; DepClientsManager; DepMasterClient; DepBroker] NewDeps) as (c & H & E).
  - apply (bool_decide_unpack _). by vm_compute.
  - intros d _. unfold NewDeps. rewrite dig_New_types. set_solver.
  - exists c. split; [exact H|]. intros d. rewrite E. apply elem_of_union_l. destruct d; set_solver.
Qed.

Lemma fill_params_Done {A} params ctx c (a : A) :
  cx_deps ctx = Some c → (∀ d, d ∈ params → d ∈ dig_types c) → fill_params params ctx a = Done a.
Proof. intros Hc Hd. unfold fill_params, Fill. rewrite Hc. destruct (dig_Invoke params c) eqn:E; [|done]. apply dig_Invoke_None in Hd. congruence. Qed.

Lemma attach_Done base impl name fields :
  im_fields impl = Some fields → name ∈ fields →
  attach (Done base) impl name = Done (base, mkImpl (im_fields impl) (im_isJobMaster impl) (<[name := base]> (im_members impl))).
Proof. intros Hf Hn. unfold attach, setImplMember. rewrite Hf. by rewrite bool_decide_eq_true_2. Qed.

(** A usable implementation gets its base object, with the worker's id. *)
Lemma CreateWorker_spec r ctx c tp w m bytes :
  registry_ok r → cx_deps ctx = Some c → (∀ d, d ∈ dig_types c) →
  match Registry_CreateWorker r ctx tp w m bytes with
  | Panic => False
  | Fail _ => True
  | Done (base, impl) => Base_ID base = w ∧ is_Some (r !! tp) ∧ ∃ name, im_members impl !! name = Some base
  end.
Proof.
  intros Hr Hc Hd. unfold Registry_CreateWorker. destruct (r !! tp) as [f|] eqn:Hf; [|done]. destruct (Hr _ _ Hf) as [Hdec Hnew].
  specialize (Hdec bytes). destruct (wf_DeserializeConfig f bytes) as [cfg|e|]; [|done..]. destruct (Hnew ctx w m cfg) as [Hnp Hok].
  destruct (wf_NewWorkerImpl f ctx w m cfg) as [impl|e|]; [|done..]. destruct (Hok impl eq_refl) as (fields & Hfi & Hor).
  unfold implHasMember. rewrite Hfi. destruct (bool_decide_reflect (nameOfBaseWorker ∈ fields)) as [Hin|Hin].
  - unfold deps_NewBaseWorker. rewrite (fill_params_Done _ _ c) by done. rewrite (attach_Done _ _ _ fields) by done.
    split_and!; [done|done|]. exists nameOfBaseWorker. apply lookup_insert_eq.
  - destruct Hor as [?|[Hj Him]]; [done|]. rewrite bool_decide_eq_true_2 by done. rewrite Him. unfold deps_NewBaseJobMaster, deps_NewBaseMaster, deps_NewBaseWorker.
    rewrite !(fill_params_Done _ _ c) by done. rewrite (attach_Done _ _ _ fields) by done.
    split_and!; [done|done|]. exists nameOfBaseJobMaster. apply lookup_insert_eq.
Qed.

End registry.
Arguments WorkerFactory : clear implicits.
Arguments Packages : clear implicits.
Arguments Context : clear implicits.

Lemma executor_init_eq {C Cfg} (p : Packages C Cfg) :
  executor_init p NewRegistry =
    (Done tt, <[FakeTask := NewSimpleWorkerFactory (pk_NewDummyWorker p) (pk_fake_WorkerConfig p)]>
             (<[FakeJobMaster := NewSimpleWorkerFactory (pk_NewFakeMaster p) (pk_fake_Config p)]>
             (<[DMJobMaster := dmJobMasterFactory p]>
             (<[CvsJobMaster := NewSimpleWorkerFactory (pk_NewCVSJobMaster p) (pk_cvsJob_Config p)]>
             (<[CvsTask := NewSimpleWorkerFactory (pk_newCvsTask p) (pk_cvsTask_Config p)]>
             (<[WorkerDMSync := unitWorkerFactory p (pk_newSyncWorker p)]>
             (<[WorkerDMLoad := unitWorkerFactory p (pk_newLoadWorker p)]>
             (<[WorkerDMDump := unitWorkerFactory p (pk_newDumpWorker p)]> ∅)))))))).
Proof.
  assert (∀ tp f (r : gmap WorkerType (WorkerFactory C Cfg)), r !! tp = None → MustRegisterWorkerType tp f r = (Done tt, <[tp := f]> r)) as Hreg.
  { intros tp f r Hn. unfold MustRegisterWorkerType, RegisterWorkerType. by rewrite Hn. }
  assert (∀ tp tp' (f : WorkerFactory C Cfg) (r : gmap WorkerType (WorkerFactory C Cfg)), tp' ≠ tp → r !! tp = None → <[tp' := f]> r !! tp = None) as Hins.
  { intros tp tp' f r Hne Hn. by rewrite lookup_insert_ne. }
  assert (∀ tp, (∅ : gmap WorkerType (WorkerFactory C Cfg)) !! tp = None) as H0 by (intros; apply lookup_empty).
  unfold executor_init, dm_init, RegisterFake, NewRegistry.
  erewrite bind_Done; [|erewrite bind_Done by (apply Hreg, H0); erewrite bind_Done; [apply Hreg|apply Hreg]; repeat (apply Hins; [done|]); apply H0].
  do 3 (erewrite bind_Done; [|apply Hreg; repeat (apply Hins; [done|]); apply lookup_empty]).
  erewrite bind_Done; [|apply Hreg; repeat (apply Hins; [done|]); apply H0]. apply Hreg. repeat (apply Hins; [done|]). apply H0.
Qed.

(** The encoder of a worker's configuration, by its type. *)
Lemma prepare_task_config {Cfg} tomlEncode jsonMarshal uuid tp (u : Cfg) raw id :
  tp ∈ task_types → prepareWorkerConfig tomlEncode jsonMarshal uuid tp (UserConfig u) = Done (raw, id) →
  id = uuid ∧ (if bool_decide (tp ∈ [WorkerDMDump; WorkerDMLoad; WorkerDMSync]) then tomlEncode (UserConfig u) else jsonMarshal (UserConfig u)) = Done raw.
Proof.
  intros Htp. unfold prepareWorkerConfig. rewrite (bool_decide_eq_false_2 (tp ∈ [CvsJobMaster; FakeJobMaster; DMJobMaster])).
  - case_bool_decide; [destruct (tomlEncode _)|destruct (jsonMarshal _)]; intros [= <- <-]; done.
  - unfold task_types in Htp. repeat (apply elem_of_cons in Htp as [->|Htp]; [apply (bool_decide_unpack _); by vm_compute|]). by apply elem_of_nil in Htp.
Qed.

(** ** Theorems *)


(** Every job that can be submitted has its workers. The registration at start-up does
    not panic, and afterwards the executor has a factory for the type of every job master
    that the job manager starts and of every worker that the job masters create. *)
Theorem job_types_registered {C Cfg} (p : Packages C Cfg) :
  ∃ r, executor_init p NewRegistry = (Done tt, r) ∧
    (∀ decodes req tp, jobMasterType decodes req = Done tp → is_Some (r !! tp)) ∧ (∀ tp, tp ∈ task_types → is_Some (r !! tp)).
Proof.
  eexists. split; [apply executor_init_eq|]. split.
  - intros decodes req tp H. unfold jobMasterType in H. destruct (sr_Tp req); try done; [destruct (decodes _); [|done]|..]; injection H as <-;
      rewrite ?lookup_insert_ne by done; rewrite lookup_insert_eq; by eexists.
  - intros tp Htp. unfold task_types in Htp. repeat (apply elem_of_cons in Htp as [->|Htp]; [rewrite ?lookup_insert_ne by done; rewrite lookup_insert_eq; by eexists|]).
    by apply elem_of_nil in Htp.
Qed.


(** ** Witnesses *)

Module Witness.

(** A container is the set of its types. *)
#[local] Program Instance set_dig : Dig (gset Dep) := {|
  dig_New := ∅;
  dig_Provide := λ d c, if decide (d ∈ c) then (Fail (ErrForeign "already provided"), c) else (Done tt, {[d]} ∪ c);
  dig_Invoke := λ ds c, if decide (Forall (λ d, d ∈ c) ds) then None else Some (ErrForeign "missing dependencies");
  dig_types := λ c, c |}.
Next Obligation. done. Qed.
Next Obligation. intros d c Hd. simpl. rewrite decide_False by done. by eexists. Qed.
Next Obligation. intros d c Hd. simpl. rewrite decide_True by done. by eexists _, _. Qed.
Next Obligation. intros ds c. simpl. case_decide as H; rewrite Forall_forall in H; [done|]. split; [done|]. intros Hall. by exfalso. Qed.

Definition worker : Impl := mkImpl (Some {[ "BaseWorker"; "cfg" ]}) false ∅.
Definition jobMaster : Impl := mkImpl (Some {[ "BaseJobMaster"; "jobCfg" ]}) true ∅.

(** Configurations are texts, and every codec is the identity. *)
Definition pkgs : Packages (gset Dep) string :=
  mkPackages (λ _, worker) (λ _, worker) (λ _, worker) Done (λ _ _ _ _, worker) Some (λ _ _ _ _, jobMaster) Some (λ _ _, jobMaster) Done
    (λ _ _ _ _, jobMaster) Some (λ _ _ _ _, worker) Some.
Definition reg : gmap WorkerType (WorkerFactory (gset Dep) string) := (executor_init pkgs NewRegistry).2.

Lemma reg_ok : registry_ok reg.
Proof.
  assert (∀ f : WorkerFactory (gset Dep) string, (∀ b, wf_DeserializeConfig f b = Done b) →
    (∀ ctx w m cfg, wf_NewWorkerImpl f ctx w m cfg = Done worker) ∨ (∀ ctx w m cfg, wf_NewWorkerImpl f ctx w m cfg = Done jobMaster) → factory_ok f) as Hok.
  { intros f Hd Hn. split; [intros b; by rewrite Hd|]. intros ctx w m cfg. destruct Hn as [Hn|Hn]; rewrite Hn; (split; [done|]); intros i [= <-]; eexists; (split; [done|]); [left|right]; set_solver. }
  intros tp f. unfold reg. rewrite executor_init_eq. simpl. intros Hf.
  repeat (apply lookup_insert_Some in Hf as [[_ <-]|[_ Hf]]; [apply Hok; [done|first [by left|by right]]|]). by rewrite lookup_empty in Hf.
Qed.

Definition marshal (m : MasterMeta) : res goerr string := Done (mm_ID m).
Definition node : NodeInfo := mkNodeInfo NodeTypeExecutor "ex1" "host:1" 100.


Definition encode (c : WorkerConfig string) : res goerr string := match c with UserConfig u => Done u | MetaConfig _ => Fail (ErrForeign "type") end.


End Witness.
