(* ===== verification/CvsTask.v ===== *)
(** * The task of the CVS example ([executor/cvsTask])

    A task copies the lines of a file from one server to another: a goroutine reads the
    lines into a buffered channel and another one writes them, while the main goroutine
    reports the progress and reacts to the master. The goroutines are steps on one state;
    what the two servers answer is an argument of a step. *)

From S2P Require Import Prelude Errors Model Worker P2P BaseWorker.

(** ** Data *)

Definition bufferSize : nat := 1024.

Record strPair := mkStrPair { firstStr : string; secondStr : string }.

Record Config := mkConfig {
  cfg_Idx : Z;
  cfg_SrcHost : string;
  cfg_DstHost : string;
  cfg_DstDir : string;
  cfg_StartLoc : string;
}.

Record Status := mkStatus { st_TaskConfig : Config; st_CurrentLoc : string; st_Count : Z }.

(** [encoding/json] on the status. *)
Class CvsTaskJSON := { task_Marshal : Status → string; task_Unmarshal : string → option Status }.
Class CvsTaskJSONLaws `{!CvsTaskJSON} : Prop := { task_json_roundtrip st : task_Unmarshal (task_Marshal st) = Some st }.

(** Where the goroutine that reads is: not started, in its set-up, waiting for a line,
    waiting for room in the buffer, returned with an error or nil, and done. *)
Inductive recv_pc : Type :=
| RecvNone
| RecvStart
| RecvReading
| RecvPushing (kv : strPair)
| RecvReturned (err : option goerr)
| RecvDone.

(** The goroutine that writes: also between the write, the counter and the location. *)
Inductive send_pc : Type :=
| SendNone
| SendStart
| SendLoop
| SendSending (kv : strPair)
| SendCounting (kv : strPair)
| SendLocating (kv : strPair)
| SendReturned (err : option goerr)
| SendDone.

(** [ct_cancelFn]: it is set; [ct_ctx]: the context of the goroutines is done. *)
Record cvsTask := mkTask {
  ct_Config : Config;
  ct_counter : Z;
  ct_curLoc : string;
  ct_cancelFn : bool;
  ct_ctx : bool;
  ct_buffer : list strPair;
  ct_closed : bool;
  ct_statusCode : Z;
  ct_runError : option goerr;
  ct_recv : recv_pc;
  ct_send : send_pc;
}.

Definition newCvsTask (cfg : Config) : cvsTask :=
  mkTask cfg 0 (cfg_StartLoc cfg) false false [] false 0 None RecvNone SendNone.

(** ** Assignments *)

Definition set_recv (pc : recv_pc) (t : cvsTask) : cvsTask :=
  mkTask (ct_Config t) (ct_counter t) (ct_curLoc t) (ct_cancelFn t) (ct_ctx t) (ct_buffer t) (ct_closed t) (ct_statusCode t) (ct_runError t) pc (ct_send t).
Definition set_send (pc : send_pc) (t : cvsTask) : cvsTask :=
  mkTask (ct_Config t) (ct_counter t) (ct_curLoc t) (ct_cancelFn t) (ct_ctx t) (ct_buffer t) (ct_closed t) (ct_statusCode t) (ct_runError t) (ct_recv t) pc.
Definition set_buffer (buffer : list strPair) (closed : bool) (t : cvsTask) : cvsTask :=
  mkTask (ct_Config t) (ct_counter t) (ct_curLoc t) (ct_cancelFn t) (ct_ctx t) buffer closed (ct_statusCode t) (ct_runError t) (ct_recv t) (ct_send t).
Definition set_progress (counter : Z) (curLoc : string) (t : cvsTask) : cvsTask :=
  mkTask (ct_Config t) counter curLoc (ct_cancelFn t) (ct_ctx t) (ct_buffer t) (ct_closed t) (ct_statusCode t) (ct_runError t) (ct_recv t) (ct_send t).
Definition setStatusCode (code : Z) (t : cvsTask) : cvsTask :=
  mkTask (ct_Config t) (ct_counter t) (ct_curLoc t) (ct_cancelFn t) (ct_ctx t) (ct_buffer t) (ct_closed t) code (ct_runError t) (ct_recv t) (ct_send t).
Definition setRunError (err : option goerr) (t : cvsTask) : cvsTask :=
  mkTask (ct_Config t) (ct_counter t) (ct_curLoc t) (ct_cancelFn t) (ct_ctx t) (ct_buffer t) (ct_closed t) (ct_statusCode t) err (ct_recv t) (ct_send t).

(** The context is done: through [cancelFn], or with the context it derives from. *)
Definition cancel (t : cvsTask) : cvsTask :=
  mkTask (ct_Config t) (ct_counter t) (ct_curLoc t) (ct_cancelFn t) true (ct_buffer t) (ct_closed t) (ct_statusCode t) (ct_runError t) (ct_recv t) (ct_send t).

Definition ctx_Err : goerr := ErrForeign "context canceled".

(** ** The pool of connections *)

Section pool.
Context {conn : Type}.

(** Five dials; the first that fails ends the loop. *)
Fixpoint dial_all (dials : list (res goerr conn)) (arr : list conn) : res goerr (list conn) :=
  match dials with
  | [] => Done arr
  | Done c :: rest => dial_all rest (arr ++ [c])
  | Fail err :: _ => Fail err
  | Panic :: _ => Panic
  end.

(** [dial] answers the dials, [i] is what [rand.Intn(5)] gives. *)
Definition getConn (dial : nat → res goerr conn) (i : nat) (addr : string) : Go (gmap string (list conn)) conn := λ pool,
  match pool !! addr with
  | Some arr => (match arr !! i with Some c => Done c | None => Panic end, pool)
  | None =>
      match dial_all (dial <$> seq 0 5) [] with
      | Fail err => (Fail err, pool)
      | Panic => (Panic, pool)
      | Done arr => (match arr !! i with Some c => Done c | None => Panic end, <[addr := arr]> pool)
      end
  end.

End pool.

(** ** The goroutine that reads: [Receive]

    A step is [None] when the goroutine is not at its point or is blocked. *)

Definition Receive_start (conn readLines : option goerr) (t : cvsTask) : option cvsTask :=
  match ct_recv t with
  | RecvStart =>
      Some (match conn with
            | Some err => set_recv (RecvReturned (Some err)) t
            | None => match readLines with
                      | Some err => set_recv (RecvReturned (Some err)) t
                      | None => set_recv RecvReading t
                      end
            end)
  | _ => None
  end.

(** [Recv] answers an error, the end of the file ([Done None]) or a line; [isEOF] is never
    set, so an error always cancels. *)
Definition Receive_reply (reply : goerr + option strPair) (t : cvsTask) : option cvsTask :=
  match ct_recv t with
  | RecvReading =>
      Some (match reply with
            | inl err => set_recv (RecvReturned (Some err)) (cancel t)
            | inr None => set_recv (RecvReturned None) (set_buffer (ct_buffer t) true t)
            | inr (Some kv) => set_recv (RecvPushing kv) t
            end)
  | _ => None
  end.

Definition Receive_push (t : cvsTask) : option cvsTask :=
  match ct_recv t with
  | RecvPushing kv =>
      if bool_decide (length (ct_buffer t) < bufferSize)
      then Some (set_recv RecvReading (set_buffer (ct_buffer t ++ [kv]) (ct_closed t) t)) else None
  | _ => None
  end.

Definition Receive_ctxDone (t : cvsTask) : option cvsTask :=
  match ct_recv t with
  | RecvPushing _ => if ct_ctx t then Some (set_recv (RecvReturned None) t) else None
  | _ => None
  end.

(** What [InitImpl]'s goroutine does with the result. *)
Definition Receive_report (t : cvsTask) : option cvsTask :=
  match ct_recv t with
  | RecvReturned (Some err) => Some (set_recv RecvDone (setStatusCode WorkerStatusError (setRunError (Some err) t)))
  | RecvReturned None => Some (set_recv RecvDone t)
  | _ => None
  end.

(** ** The goroutine that writes: [send] *)

Definition send_start (conn writeLines : option goerr) (t : cvsTask) : option cvsTask :=
  match ct_send t with
  | SendStart =>
      Some (match conn with
            | Some err => set_send (SendReturned (Some err)) t
            | None => match writeLines with
                      | Some err => set_send (SendReturned (Some err)) (cancel t)
                      | None => set_send SendLoop t
                      end
            end)
  | _ => None
  end.

Definition send_take (t : cvsTask) : option cvsTask :=
  match ct_send t, ct_buffer t with
  | SendLoop, kv :: rest => Some (set_send (SendSending kv) (set_buffer rest (ct_closed t) t))
  | _, _ => None
  end.

(** The buffer is closed and empty: [CloseAndRecv]; a message in its answer is logged. *)
Definition send_eof (closeAndRecv : option goerr) (t : cvsTask) : option cvsTask :=
  match ct_send t, ct_buffer t with
  | SendLoop, [] => if ct_closed t then Some (set_send (SendReturned closeAndRecv) t) else None
  | _, _ => None
  end.

Definition send_write (sent : option goerr) (t : cvsTask) : option cvsTask :=
  match ct_send t with
  | SendSending kv =>
      Some (match sent with
            | Some err => set_send (SendReturned (Some err)) (cancel t)
            | None => set_send (SendCounting kv) t
            end)
  | _ => None
  end.

Definition send_count (t : cvsTask) : option cvsTask :=
  match ct_send t with
  | SendCounting kv => Some (set_send (SendLocating kv) (set_progress (int64 (ct_counter t + 1)) (ct_curLoc t) t))
  | _ => None
  end.

Definition send_locate (t : cvsTask) : option cvsTask :=
  match ct_send t with
  | SendLocating kv => Some (set_send SendLoop (set_progress (ct_counter t) (firstStr kv) t))
  | _ => None
  end.

Definition send_ctxDone (t : cvsTask) : option cvsTask :=
  match ct_send t with
  | SendLoop => if ct_ctx t then Some (set_send (SendReturned (Some ctx_Err)) t) else None
  | _ => None
  end.

Definition send_report (t : cvsTask) : option cvsTask :=
  match ct_send t with
  | SendReturned (Some err) => Some (set_send SendDone (setStatusCode WorkerStatusError (setRunError (Some err) t)))
  | SendReturned None => Some (set_send SendDone (setStatusCode WorkerStatusFinished t))
  | _ => None
  end.

(** ** The main goroutine *)

(** [InitImpl] starts the two goroutines. *)
Definition Task_InitImpl (t : cvsTask) : cvsTask :=
  mkTask (ct_Config t) (ct_counter t) (ct_curLoc t) true (ct_ctx t) (ct_buffer t) (ct_closed t) WorkerStatusNormal (ct_runError t) RecvStart SendStart.

Definition Task_OnMasterMessage (msg : StatusChangeRequest) (t : cvsTask) : cvsTask :=
  if bool_decide (scr_ExpectState msg = WorkerStatusStopped) then setStatusCode WorkerStatusStopped t else t.

Definition Task_CloseImpl (t : cvsTask) : cvsTask := if ct_cancelFn t then cancel t else t.

Section tick.
Context {DB Srv : Type} `{!CvsTaskJSON}.
Abbreviation St := (WorkerSt DB Srv cvsTask).

(** The extended bytes of [Status]; its code is [statusCode] and its message empty. *)
Definition Task_Status (t : cvsTask) : string := task_Marshal (mkStatus (ct_Config t) (ct_curLoc t) (ct_counter t)).

(** [allow] is the answer of the rate limiter and [io] what the status writer meets. *)
Definition Task_Tick (allow : bool) (io : io_result) : Go St unit := λ s,
  let t := wk_impl s in
  if allow then
    match Base_UpdateStatus io (ct_statusCode t) "" (Task_Status t) s with
    | (Fail err, s') => if err_Equal ErrWorkerUpdateStatusTryAgain (Some err) then (Done tt, s') else (Fail err, s')
    | out => out
    end
  else if bool_decide (ct_statusCode t ∈ [WorkerStatusFinished; WorkerStatusError; WorkerStatusStopped])
  then Base_Exit io (ct_statusCode t) "" (Task_Status t) (ct_runError t) s
  else (Done tt, s).

Definition on_task (f : cvsTask → cvsTask) : Go St unit := λ s,
  (Done tt, mkWorkerSt (wk_err s) (wk_base s) (wk_db s) (f (wk_impl s))).

(** The task as the business logic of a worker. *)
Definition cvs_WorkerImpl (allow : bool) (io : io_result) : WorkerImpl St := {|
  WorkerImpl_InitImpl := on_task Task_InitImpl;
  WorkerImpl_Tick := Task_Tick allow io;
  OnMasterFailover := mret tt;
  OnMasterMessage _ msg := on_task (Task_OnMasterMessage msg);
  WorkerImpl_CloseImpl := on_task Task_CloseImpl;
|}.

End tick.

(** ** Specification *)

(** A step of one of the goroutines. *)
Inductive task_event : Type :=
| te_recv_start (conn readLines : option goerr)
| te_recv_reply (reply : goerr + option strPair)
| te_recv_push
| te_recv_ctxDone
| te_recv_report
| te_send_start (conn writeLines : option goerr)
| te_send_take
| te_send_eof (closeAndRecv : option goerr)
| te_send_write (sent : option goerr)
| te_send_count
| te_send_locate
| te_send_ctxDone
| te_send_report
| te_message (msg : StatusChangeRequest)
| te_close
| te_cancelled.

Definition task_step (ev : task_event) (t : cvsTask) : option cvsTask :=
  match ev with
  | te_recv_start conn readLines => Receive_start conn readLines t
  | te_recv_reply reply => Receive_reply reply t
  | te_recv_push => Receive_push t
  | te_recv_ctxDone => Receive_ctxDone t
  | te_recv_report => Receive_report t
  | te_send_start conn writeLines => send_start conn writeLines t
  | te_send_take => send_take t
  | te_send_eof closeAndRecv => send_eof closeAndRecv t
  | te_send_write sent => send_write sent t
  | te_send_count => send_count t
  | te_send_locate => send_locate t
  | te_send_ctxDone => send_ctxDone t
  | te_send_report => send_report t
  | te_message msg => Some (Task_OnMasterMessage msg t)
  | te_close => Some (Task_CloseImpl t)
  | te_cancelled => Some (cancel t)
  end.

(** The lines that a step takes from the source, and that it hands to the destination. *)
Definition delivered (ev : task_event) : list strPair := match ev with te_recv_reply (inr (Some kv)) => [kv] | _ => [] end.
Definition accepted (ev : task_event) (t : cvsTask) : list strPair :=
  match ev, ct_send t with te_send_write None, SendSending kv => [kv] | _, _ => [] end.

(** The lines delivered and accepted so far, and whether the source reported its end. *)
Record Lines := mkLines { ln_src : list strPair; ln_dst : list strPair; ln_eof : bool }.

Inductive task_run (cfg : Config) : Lines → cvsTask → Prop :=
| run_init : task_run cfg (mkLines [] [] false) (Task_InitImpl (newCvsTask cfg))
| run_step ln t ev t' :
    task_run cfg ln t → task_step ev t = Some t' →
    task_run cfg (mkLines (ln_src ln ++ delivered ev) (ln_dst ln ++ accepted ev t)
                    (ln_eof ln || match ev with te_recv_reply (inr None) => true | _ => false end)) t'.

(** The line in the hands of a goroutine. *)
Definition in_recv (pc : recv_pc) : list strPair := match pc with RecvPushing kv => [kv] | _ => [] end.
Definition in_send (pc : send_pc) : list strPair := match pc with SendSending kv => [kv] | _ => [] end.

Definition last_key (start : string) (lines : list strPair) : string := match last lines with Some kv => firstStr kv | None => start end.

(** The lines accepted and not counted yet, and those not located yet. *)
Definition uncounted (pc : send_pc) : list strPair := match pc with SendCounting kv => [kv] | _ => [] end.
Definition unlocated (pc : send_pc) : list strPair := match pc with SendCounting kv | SendLocating kv => [kv] | _ => [] end.

(** The goroutine has returned, so that the line it held is dropped. *)
Definition recv_over (pc : recv_pc) : bool := match pc with RecvReturned _ | RecvDone => true | _ => false end.
Definition send_over (pc : send_pc) : bool := match pc with SendReturned (Some _) | SendDone => true | _ => false end.

Record task_inv (cfg : Config) (ln : Lines) (t : cvsTask) : Prop := mkTaskInv {
  ti_lines : ∃ s r, ln_src ln = ln_dst ln ++ s ++ ct_buffer t ++ r ∧
    (s = in_send (ct_send t) ∨ send_over (ct_send t) = true) ∧
    (r = in_recv (ct_recv t) ∨ recv_over (ct_recv t) = true ∧ ct_closed t = false);
  ti_counted : ∃ counted, ln_dst ln = counted ++ uncounted (ct_send t) ∧ ct_counter t = int64 (Z.of_nat (length counted));
  ti_located : ∃ located, ln_dst ln = located ++ unlocated (ct_send t) ∧ ct_curLoc t = last_key (cfg_StartLoc cfg) located;
  ti_eof : ln_eof ln = ct_closed t;
  ti_closed : ct_closed t = true → recv_over (ct_recv t) = true;
  ti_returned : ct_send t = SendReturned None → ct_closed t = true ∧ ln_dst ln = ln_src ln;
  ti_finished : ct_statusCode t = WorkerStatusFinished → ct_send t = SendDone ∧ ct_closed t = true ∧ ln_dst ln = ln_src ln;
  ti_buffer : length (ct_buffer t) ≤ bufferSize;
}.

(** ** Lemmas *)

Lemma int64_succ n : int64 (int64 (Z.of_nat n) + 1) = int64 (Z.of_nat (S n)).
Proof.
  unfold int64, wrapS. f_equal. rewrite Nat2Z.inj_succ. set (x := (Z.of_nat n + 2 ^ (64 - 1))%Z).
  replace (x mod 2 ^ 64 - 2 ^ (64 - 1) + 1 + 2 ^ (64 - 1))%Z with (x mod 2 ^ 64 + 1)%Z by lia.
  rewrite Zplus_mod_idemp_l. f_equal. unfold x. lia.
Qed.

Lemma task_inv_init cfg : task_inv cfg (mkLines [] [] false) (Task_InitImpl (newCvsTask cfg)).
Proof. split; simpl; try done; [by exists [], []; auto|by exists []|by exists []|lia]. Qed.

(** Opens the invariant of a task and of its lines, and runs a step of it. *)
Ltac open_task t ln :=
  destruct t as [c n loc cf ctx buf closed code rerr rpc spc]; destruct ln as [src dst eof];
  intros [(s & r & Hsrc & Hs & Hr) (cs & Hcs & Hn) (ls & Hls & Hloc) Heof Hcl Hret Hfin Hbuf] Hstep; simpl in *; subst eof;
  unfold Receive_start, Receive_reply, Receive_push, Receive_ctxDone, Receive_report, send_start, send_take, send_eof, send_write, send_count, send_locate, send_ctxDone, send_report, Task_OnMasterMessage, Task_CloseImpl in Hstep; simpl in Hstep.
Ltac task_case := split; simpl; rewrite ?app_nil_r, ?orb_false_r, ?orb_true_r; try done; try (by eauto 3); try (by intuition congruence).
(** The lines are where they were. *)
Ltac same_lines s r := exists s, r; simpl in *; (split; [done|]); intuition (done || congruence).

Definition next_lines (ev : task_event) (t : cvsTask) (ln : Lines) : Lines :=
  mkLines (ln_src ln ++ delivered ev) (ln_dst ln ++ accepted ev t) (ln_eof ln || match ev with te_recv_reply (inr None) => true | _ => false end).

Lemma Receive_start_inv cfg conn rl ln t t' : task_inv cfg ln t → Receive_start conn rl t = Some t' → task_inv cfg ln t'.
Proof. open_task t ln. destruct rpc; try done. destruct conn, rl; injection Hstep as <-; task_case; same_lines s r. Qed.

Lemma Receive_reply_inv cfg reply ln t t' :
  task_inv cfg ln t → Receive_reply reply t = Some t' → task_inv cfg (next_lines (te_recv_reply reply) t ln) t'.
Proof.
  open_task t ln. destruct rpc; try done. destruct closed; [by specialize (Hcl eq_refl)|].
  destruct reply as [err|[kv|]]; injection Hstep as <-; task_case; [same_lines s r| |same_lines s r].
  exists s, [kv]. destruct Hr as [->|[? _]]; [|done]. rewrite Hsrc, app_nil_r, <- !app_assoc. auto.
Qed.

Lemma Receive_push_inv cfg ln t t' : task_inv cfg ln t → Receive_push t = Some t' → task_inv cfg ln t'.
Proof.
  open_task t ln. destruct rpc; try done. case_bool_decide; [|done]. injection Hstep as <-. destruct closed; [by specialize (Hcl eq_refl)|]. task_case.
  - exists s, []. destruct Hr as [->|[? _]]; [|done]. rewrite Hsrc, app_nil_r. auto.
  - rewrite length_app. simpl. lia.
Qed.

Lemma Receive_end_inv cfg ln t t' : task_inv cfg ln t → (Receive_ctxDone t = Some t' ∨ Receive_report t = Some t') → task_inv cfg ln t'.
Proof.
  open_task t ln. destruct Hstep as [Hstep|Hstep]; destruct rpc as [| | | |[err|]|]; try done; [destruct ctx; [|done]|..]; injection Hstep as <-; task_case.
  - destruct closed; [by specialize (Hcl eq_refl)|]. same_lines s r.
  - same_lines s r.
  - same_lines s r.
Qed.

Lemma send_start_inv cfg conn wl ln t t' : task_inv cfg ln t → send_start conn wl t = Some t' → task_inv cfg ln t'.
Proof. open_task t ln. destruct spc; try done. destruct conn, wl; injection Hstep as <-; task_case; same_lines s r. Qed.

Lemma send_take_inv cfg ln t t' : task_inv cfg ln t → send_take t = Some t' → task_inv cfg ln t'.
Proof.
  open_task t ln. destruct spc; try done. destruct buf as [|kv buf]; [done|]. injection Hstep as <-. task_case.
  - exists [kv], r. destruct Hs as [->|?]; [|done]. auto.
  - simpl in Hbuf. lia.
Qed.

Lemma send_write_inv cfg sent ln t t' : task_inv cfg ln t → send_write sent t = Some t' → task_inv cfg (next_lines (te_send_write sent) t ln) t'.
Proof.
  open_task t ln. destruct spc; try done. destruct sent; injection Hstep as <-; task_case; [same_lines s r|..].
  - exists [], r. destruct Hs as [->|?]; [|done]. by rewrite <- app_assoc; auto.
  - exists cs. simpl in Hcs. by rewrite Hcs, app_nil_r.
  - exists ls. simpl in Hls. by rewrite Hls, app_nil_r.
Qed.

Lemma send_progress_inv cfg ln t t' : task_inv cfg ln t → (send_count t = Some t' ∨ send_locate t = Some t') → task_inv cfg ln t'.
Proof.
  open_task t ln. destruct Hstep as [Hstep|Hstep]; destruct spc as [| | | |kv|kv| |]; try done; injection Hstep as <-; task_case; try same_lines s r.
  - exists dst. rewrite app_nil_r. split; [done|]. simpl in Hcs. rewrite Hn, int64_succ, Hcs, length_app. simpl. by rewrite Nat.add_1_r.
  - exists dst. rewrite app_nil_r. split; [done|]. simpl in Hls. unfold last_key. by rewrite Hls, last_snoc.
Qed.

Lemma send_eof_inv cfg car ln t t' : task_inv cfg ln t → send_eof car t = Some t' → task_inv cfg ln t'.
Proof.
  open_task t ln. destruct spc; try done. destruct buf; [|done]. destruct closed; [|done]. injection Hstep as <-.
  destruct Hs as [->|?]; [|done]. destruct Hr as [->|[_ ?]]; [|done]. assert (in_recv rpc = []) as Hr by (by specialize (Hcl eq_refl); destruct rpc).
  rewrite Hr in Hsrc. simpl in Hsrc. rewrite app_nil_r in Hsrc. task_case. exists [], []. rewrite Hr, app_nil_r. auto.
Qed.

Lemma send_end_inv cfg ln t t' : task_inv cfg ln t → (send_ctxDone t = Some t' ∨ send_report t = Some t') → task_inv cfg ln t'.
Proof.
  open_task t ln. destruct Hstep as [Hstep|Hstep]; destruct spc as [| | | | | |[err|]|]; try done; [destruct ctx; [|done]|..]; injection Hstep as <-; task_case; same_lines s r.
Qed.

Lemma main_inv cfg ln t t' : task_inv cfg ln t → (∃ msg, t' = Task_OnMasterMessage msg t) ∨ t' = Task_CloseImpl t ∨ t' = cancel t → task_inv cfg ln t'.
Proof.
  open_task t ln. destruct Hstep as [[msg ->]|[->| ->]]; [case_bool_decide|destruct cf|]; task_case; same_lines s r.
Qed.

Lemma next_lines_same ev t ln :
  delivered ev = [] → accepted ev t = [] → match ev with te_recv_reply (inr None) => False | _ => True end → next_lines ev t ln = ln.
Proof.
  intros Hd Ha He. destruct ln as [src dst eof]. unfold next_lines. rewrite Hd, Ha, !app_nil_r. simpl. f_equal.
  destruct ev as [| [|[]] | | | | | | | | | | | | | |]; simpl in *; try done; by rewrite orb_false_r.
Qed.

Lemma task_step_inv cfg ln t ev t' : task_inv cfg ln t → task_step ev t = Some t' → task_inv cfg (next_lines ev t ln) t'.
Proof.
  intros Hi Hstep. destruct ev; try (rewrite next_lines_same by done); simpl in Hstep.
  - by eapply Receive_start_inv.
  - by eapply Receive_reply_inv.
  - by eapply Receive_push_inv.
  - eapply Receive_end_inv; [done|]. by left.
  - eapply Receive_end_inv; [done|]. by right.
  - by eapply send_start_inv.
  - by eapply send_take_inv.
  - by eapply send_eof_inv.
  - by eapply send_write_inv.
  - eapply send_progress_inv; [done|]. by left.
  - eapply send_progress_inv; [done|]. by right.
  - eapply send_end_inv; [done|]. by left.
  - eapply send_end_inv; [done|]. by right.
  - injection Hstep as <-. eapply main_inv; [done|]. left. by eexists.
  - injection Hstep as <-. eapply main_inv; [done|]. by right; left.
  - injection Hstep as <-. eapply main_inv; [done|]. by right; right.
Qed.

Lemma task_run_inv cfg ln t : task_run cfg ln t → task_inv cfg ln t.
Proof. induction 1 as [|ln t ev t' _ IH Hstep]; [apply task_inv_init|]. exact (task_step_inv _ _ _ _ _ IH Hstep). Qed.

(** ** Theorems *)

(** C11: a task copies the lines in order and never reports a line it has not written: at
    every point of every interleaving of the reading goroutine, the writing goroutine and
    the main one, the lines accepted by the destination are a prefix of the lines the
    source delivered, the reported location is that of an accepted line, or the start,
    before which every line was accepted, at most the last accepted line is not covered by
    it, and the counter is the number of accepted lines or one less. *)
Theorem cvs_copies_in_order cfg ln t :
  task_run cfg ln t →
  ln_dst ln `prefix_of` ln_src ln ∧
  (∃ reported rest, ln_dst ln = reported ++ rest ∧ length rest ≤ 1 ∧ ct_curLoc t = last_key (cfg_StartLoc cfg) reported) ∧
  (∃ n, ct_counter t = int64 (Z.of_nat n) ∧ n ≤ length (ln_dst ln) ≤ S n).
Proof.
  intros [(s & r & Hsrc & _) (cs & Hcs & Hn) (ls & Hls & Hloc) _ _ _ _ _]%task_run_inv. split_and!.
  - rewrite Hsrc. by apply prefix_app_r.
  - exists ls, (unlocated (ct_send t)). split_and!; [done| |done]. by destruct (ct_send t); simpl; lia.
  - exists (length cs). split; [done|]. rewrite Hcs, length_app. destruct (ct_send t); simpl; lia.
Qed.

(** A task that reports itself finished has copied the whole file: the source has
    reported its end and every line it delivered was accepted, and the reported count and
    location are those of all lines. *)
Theorem cvs_finished_is_complete cfg ln t :
  task_run cfg ln t → ct_statusCode t = WorkerStatusFinished →
  ln_eof ln = true ∧ ln_dst ln = ln_src ln ∧
  ct_counter t = int64 (Z.of_nat (length (ln_src ln))) ∧ ct_curLoc t = last_key (cfg_StartLoc cfg) (ln_src ln).
Proof.
  intros [_ (cs & Hcs & Hn) (ls & Hls & Hloc) Heof _ _ Hfin _]%task_run_inv Hcode. destruct (Hfin Hcode) as (Hs & Hcl & Hd).
  rewrite Hs in Hcs, Hls. simpl in Hcs, Hls. rewrite app_nil_r in Hcs, Hls. rewrite <- Hd.
  split_and!; [congruence|done|by rewrite Hn, Hcs|by rewrite Hloc, Hls].
Qed.

(** The steps of the two goroutines. *)
Definition of_goroutine (ev : task_event) : bool := match ev with te_message _ | te_close | te_cancelled => false | _ => true end.

Definition terminal (code : Z) : Prop := code ∈ [WorkerStatusFinished; WorkerStatusError; WorkerStatusStopped].

Record ends_inv (t : cvsTask) : Prop := mkEndsInv {
  ei_started : ct_recv t ≠ RecvNone ∧ ct_send t ≠ SendNone;
  ei_send : ct_send t = SendDone → terminal (ct_statusCode t);
  ei_recv : ct_recv t = RecvReturned None ∨ ct_recv t = RecvDone → ct_closed t = true ∨ ct_ctx t = true ∨ terminal (ct_statusCode t);
}.

Lemma task_step_ends t ev t' : ends_inv t → task_step ev t = Some t' → ends_inv t'.
Proof.
  assert (∀ x, x = WorkerStatusFinished ∨ x = WorkerStatusError ∨ x = WorkerStatusStopped → terminal x) as Ht by (unfold terminal; set_solver).
  destruct t as [c n loc cf ctx buf closed code rerr rpc spc]. intros [[Hr0 Hs0] Hs Hr] Hstep. simpl in *.
  destruct ev; simpl in Hstep;
    unfold Receive_start, Receive_reply, Receive_push, Receive_ctxDone, Receive_report, send_start, send_take, send_eof, send_write, send_count, send_locate, send_ctxDone, send_report, Task_OnMasterMessage, Task_CloseImpl in Hstep;
    simpl in Hstep; repeat case_match; simplify_eq; split; simpl; auto; try done; try (by intros [?|?]); try (by intros [?|?]; auto); naive_solver.
Qed.

Lemma task_run_ends cfg ln t : task_run cfg ln t → ends_inv t.
Proof.
  induction 1 as [|ln t ev t' _ IH Hstep]; [|by eapply task_step_ends].
  split; simpl; [done|done|by intros [?|?]].
Qed.

(** A task never hangs silently: in a reachable state in which neither goroutine can take
    a step, whatever the servers answer, the status is finished, error or stopped, so that
    the next tick that is not taken by the rate limiter ends the worker. *)
Theorem cvs_stuck_is_terminal cfg ln t :
  task_run cfg ln t → (∀ ev, of_goroutine ev = true → task_step ev t = None) → terminal (ct_statusCode t).
Proof.
  intros [[Hr0 Hs0] Hs Hr]%task_run_ends Hstuck.
  destruct t as [c n loc cf ctx buf closed code rerr rpc spc]. simpl in *.
  pose proof (Hstuck (te_recv_start None None) eq_refl) as H1. pose proof (Hstuck (te_recv_reply (inr None)) eq_refl) as H2.
  pose proof (Hstuck te_recv_push eq_refl) as H3. pose proof (Hstuck te_recv_report eq_refl) as H4.
  pose proof (Hstuck (te_send_start None None) eq_refl) as H5. pose proof (Hstuck te_send_take eq_refl) as H6.
  pose proof (Hstuck (te_send_eof None) eq_refl) as H7. pose proof (Hstuck (te_send_write None) eq_refl) as H8.
  pose proof (Hstuck te_send_count eq_refl) as H9. pose proof (Hstuck te_send_locate eq_refl) as H10.
  pose proof (Hstuck te_send_ctxDone eq_refl) as H11. pose proof (Hstuck te_send_report eq_refl) as H12. clear Hstuck.
  destruct spc as [| | | | | |[]|]; try done; [|by apply Hs].
  destruct buf; [|done]. cbn in H7, H11. destruct closed, ctx; try done.
  destruct rpc as [| | | |[]|]; try done. by destruct (Hr (or_intror eq_refl)) as [|[|]].
Qed.

(** ** Concrete runs *)

Module Witness.

Definition cfg0 : Config := mkConfig 0 "src" "dst" "/tmp" "0".
Definition line1 : strPair := mkStrPair "1" "one".
Definition line2 : strPair := mkStrPair "2" "two".

(** Runs a list of events. *)
Fixpoint steps (evs : list task_event) (ln : Lines) (t : cvsTask) : option (Lines * cvsTask) :=
  match evs with
  | [] => Some (ln, t)
  | ev :: evs' => match task_step ev t with Some t' => steps evs' (next_lines ev t ln) t' | None => None end
  end.

Lemma steps_run cfg evs ln t ln' t' : task_run cfg ln t → steps evs ln t = Some (ln', t') → task_run cfg ln' t'.
Proof.
  revert ln t. induction evs as [|ev evs IH]; intros ln t Hr; simpl; [by intros [= <- <-]|]. destruct (task_step ev t) as [t1|] eqn:Hs; [|done].
  apply IH. exact (run_step _ _ _ _ _ Hr Hs).
Qed.

(** The two goroutines copy two lines; the second line is read before the first one is written. *)
Definition copying : list task_event :=
  [te_send_start None None; te_recv_start None None; te_recv_reply (inr (Some line1)); te_recv_push; te_recv_reply (inr (Some line2)); te_send_take; te_send_write None].
Definition finishing : list task_event :=
  [te_send_count; te_recv_push; te_recv_reply (inr None); te_send_locate; te_recv_report; te_send_take; te_send_write None; te_send_count; te_send_locate; te_send_eof None; te_send_report].

Definition after (evs : list task_event) : Lines * cvsTask :=
  default (mkLines [] [] false, newCvsTask cfg0) (steps evs (mkLines [] [] false) (Task_InitImpl (newCvsTask cfg0))).

Lemma cvs_copies_in_order_witness :
  ln_dst (after copying).1 = [line1] ∧ ct_counter (after copying).2 = 0%Z ∧ ln_dst (after copying).1 `prefix_of` ln_src (after copying).1.
Proof.
  split_and!; [by vm_compute..|]. apply (cvs_copies_in_order cfg0 (after copying).1 (after copying).2).
  apply (steps_run cfg0 copying (mkLines [] [] false) (Task_InitImpl (newCvsTask cfg0))); [constructor|by vm_compute].
Defined.

Lemma cvs_finished_is_complete_witness :
  ln_dst (after (copying ++ finishing)).1 = ln_src (after (copying ++ finishing)).1 ∧ ct_curLoc (after (copying ++ finishing)).2 = "2".
Proof.
  destruct (cvs_finished_is_complete cfg0 (after (copying ++ finishing)).1 (after (copying ++ finishing)).2) as (_ & Hd & _ & Hl); [|by vm_compute|].
  - apply (steps_run cfg0 (copying ++ finishing) (mkLines [] [] false) (Task_InitImpl (newCvsTask cfg0))); [constructor|by vm_compute].
  - split; [exact Hd|]. rewrite Hl. by vm_compute.
Defined.

(** The source cannot be reached: the reading goroutine reports it and the other one waits. *)
Definition unreachable : list task_event := [te_recv_start (Some (ErrForeign "no route")) None; te_recv_report; te_send_start None None].

Lemma cvs_stuck_is_terminal_witness : terminal (ct_statusCode (after unreachable).2).
Proof.
  apply (cvs_stuck_is_terminal cfg0 (after unreachable).1 (after unreachable).2).
  - apply (steps_run cfg0 unreachable (mkLines [] [] false) (Task_InitImpl (newCvsTask cfg0))); [constructor|by vm_compute].
  - by intros [].
Defined.

End Witness.
