(* ===== verification/CvsJob.v ===== *)
(** * The job master of the CVS example ([jobmaster/cvsJob])

    The job master runs one task of [CvsTask] per file: it creates the workers, follows
    their progress, replaces the ones that are gone, and ends when every file is copied.
    It is a [JobMasterImpl], the business logic of a job master. The rate limiter, random
    identifiers, the order of a map, the status writer and the message client answer the
    n-th time they are asked as a function of n. *)

From S2P Require Import Prelude Errors Model Metastore JobFsm WorkerManager Worker Master P2P BaseWorker BaseJobMaster Keys MetaKV CvsTask.

(** ** Data *)

Record Config := mkJobConfig {
  jc_SrcHost : string;
  jc_SrcDir : string;
  jc_DstHost : string;
  jc_DstDir : string;
  jc_FileNum : Z;
}.

Record SyncFileInfo := mkSyncFileInfo { sf_Idx : Z; sf_Location : string }.

Record Status := mkJobStatus { js_Config : Config; js_FileInfos : gmap Z SyncFileInfo }.

Record WorkerInfo := mkWorkerInfo { wi_handle : option WorkerHandle; wi_needCreate : bool }.

(** [encoding/json] on the status; decoding is into an object that exists. *)
Class CvsJobJSON := { job_Marshal : Status → res goerr string; job_Unmarshal : string → Status → option goerr * Status }.
Class CvsJobJSONLaws `{!CvsJobJSON} : Prop := {
  job_json_roundtrip st b target :
    job_Marshal st = Done b → job_Unmarshal b target = (None, mkJobStatus (js_Config st) (js_FileInfos st ∪ js_FileInfos target));
}.

(** The job master with the key-value store of its tenant, the messages it sent, and the
    number of answers it was given. *)
Record JobMaster (K : Type) := mkCvsJobMaster {
  cj_jobStatus : Status;
  cj_syncFilesInfo : gmap Z WorkerInfo;
  cj_counter : Z;
  cj_workerID : WorkerID;
  cj_launchedWorkers : gmap WorkerID Z;
  cj_statusCode : Z;
  cj_kv : K;
  cj_sent : list (ExecutorID * string * StatusChangeRequest);
  cj_asked : nat;
}.
Arguments mkCvsJobMaster {K}.
Arguments cj_jobStatus {K}.
Arguments cj_syncFilesInfo {K}.
Arguments cj_counter {K}.
Arguments cj_workerID {K}.
Arguments cj_launchedWorkers {K}.
Arguments cj_statusCode {K}.
Arguments cj_kv {K}.
Arguments cj_sent {K}.
Arguments cj_asked {K}.

Definition NewCVSJobMaster {K} (workerID : WorkerID) (conf : Config) (kv : K) : JobMaster K :=
  mkCvsJobMaster (mkJobStatus conf ∅) ∅ 0 workerID ∅ 0 kv [] 0.

(** ** Assignments *)

Section assign.
Context {K : Type}.
Implicit Types j : JobMaster K.

Definition set_jobStatus (st : Status) j : JobMaster K :=
  mkCvsJobMaster st (cj_syncFilesInfo j) (cj_counter j) (cj_workerID j) (cj_launchedWorkers j) (cj_statusCode j) (cj_kv j) (cj_sent j) (cj_asked j).
Definition set_files (f : gmap Z SyncFileInfo → gmap Z SyncFileInfo) j : JobMaster K :=
  set_jobStatus (mkJobStatus (js_Config (cj_jobStatus j)) (f (js_FileInfos (cj_jobStatus j)))) j.
Definition set_sync (f : gmap Z WorkerInfo → gmap Z WorkerInfo) j : JobMaster K :=
  mkCvsJobMaster (cj_jobStatus j) (f (cj_syncFilesInfo j)) (cj_counter j) (cj_workerID j) (cj_launchedWorkers j) (cj_statusCode j) (cj_kv j) (cj_sent j) (cj_asked j).
Definition set_counter (counter : Z) j : JobMaster K :=
  mkCvsJobMaster (cj_jobStatus j) (cj_syncFilesInfo j) counter (cj_workerID j) (cj_launchedWorkers j) (cj_statusCode j) (cj_kv j) (cj_sent j) (cj_asked j).
Definition set_launched (f : gmap WorkerID Z → gmap WorkerID Z) j : JobMaster K :=
  mkCvsJobMaster (cj_jobStatus j) (cj_syncFilesInfo j) (cj_counter j) (cj_workerID j) (f (cj_launchedWorkers j)) (cj_statusCode j) (cj_kv j) (cj_sent j) (cj_asked j).
Definition setStatusCode (code : Z) j : JobMaster K :=
  mkCvsJobMaster (cj_jobStatus j) (cj_syncFilesInfo j) (cj_counter j) (cj_workerID j) (cj_launchedWorkers j) code (cj_kv j) (cj_sent j) (cj_asked j).
Definition set_kv (kv : K) j : JobMaster K :=
  mkCvsJobMaster (cj_jobStatus j) (cj_syncFilesInfo j) (cj_counter j) (cj_workerID j) (cj_launchedWorkers j) (cj_statusCode j) kv (cj_sent j) (cj_asked j).
Definition add_sent (m : ExecutorID * string * StatusChangeRequest) j : JobMaster K :=
  mkCvsJobMaster (cj_jobStatus j) (cj_syncFilesInfo j) (cj_counter j) (cj_workerID j) (cj_launchedWorkers j) (cj_statusCode j) (cj_kv j) (cj_sent j ++ [m]) (cj_asked j).
Definition set_asked (n : nat) j : JobMaster K :=
  mkCvsJobMaster (cj_jobStatus j) (cj_syncFilesInfo j) (cj_counter j) (cj_workerID j) (cj_launchedWorkers j) (cj_statusCode j) (cj_kv j) (cj_sent j) n.

End assign.

(** What the job master meets, the n-th time it asks. *)
Record CvsEnv := mkCvsEnv {
  ce_allow : nat → bool;
  ce_uuid : nat → WorkerID;
  ce_order : nat → gmap Z WorkerInfo → list Z;
  ce_io : nat → io_result;
  ce_send : nat → option goerr;
  ce_mono : nat → Z;
}.

(** ** Operations *)

Section cvs_job.
Context {DB Srv K : Type} `{!Gorm DB} `{!HandlerRegistrar Srv} {kv : KV K} `{!CvsJobJSON, !CvsTaskJSON}.
Abbreviation St := (JobMasterSt DB Srv (JobMaster K)).
Variable env : CvsEnv.
(** The encoders of the base master for the configuration of a task. *)
Variable tomlEncode jsonMarshal : WorkerConfig CvsTask.Config → res goerr string.

Definition cvs (s : St) : JobMaster K := (ms_impl s).2.
Definition set_cvs (j : JobMaster K) (s : St) : St := mkMasterSt (ms_base s) (ms_db s) ((ms_impl s).1, j).
Definition upd (f : JobMaster K → JobMaster K) : Go St unit := λ s, (Done tt, set_cvs (f (cvs s)) s).
Definition gets {A} (f : JobMaster K → A) : Go St A := λ s, (Done (f (cvs s)), s).

(** A question to the surroundings. *)
Definition ask {A} (f : nat → A) : Go St A := λ s, (Done (f (cj_asked (cvs s))), set_cvs (set_asked (S (cj_asked (cvs s))) (cvs s)) s).

Definition on_kv {A} (f : Go K A) : Go St A := λ s, let '(r, kv) := f (cj_kv (cvs s)) in (r, set_cvs (set_kv kv (cvs s)) s).

Definition init_file (idx : Z) : Go St unit :=
  upd (λ j, set_sync (<[idx := mkWorkerInfo None true]>) (set_files (<[idx := mkSyncFileInfo idx ""]>) j)).

Definition Cvs_InitImpl : Go St unit :=
  _ ← upd (setStatusCode WorkerStatusInit);
  filesNum ← gets (λ j, jc_FileNum (js_Config (cj_jobStatus j)));
  if bool_decide (filesNum = 0%Z) then throw (ErrForeign "no file found under the folder") else
  _ ← forM_ init_file (seqZ 0 filesNum);
  st ← gets cj_jobStatus;
  statusBytes ← lift_res (job_Marshal st);
  workerID ← gets cj_workerID;
  _ ← on_kv (kvc_Put workerID statusBytes);
  upd (setStatusCode WorkerStatusNormal).

(** [Status]: the code and the bytes; a failure to encode panics. *)
Definition Cvs_Status : Go St (Z * string) :=
  j ← gets id;
  match job_Marshal (cj_jobStatus j) with Done b => mret (cj_statusCode j, b) | _ => panic end.

Definition Cvs_Exit : Go St unit :=
  '(code, ext) ← Cvs_Status;
  io ← ask (ce_io env);
  JobMaster_Exit io code "" ext None.

(** A file without its information is a nil dereference. *)
Definition getTaskConfig (st : Status) (id : Z) : option CvsTask.Config :=
  match js_FileInfos st !! id with
  | Some info => Some (mkConfig id (jc_SrcHost (js_Config st)) (jc_DstHost (js_Config st)) (jc_DstDir (js_Config st)) (sf_Location info))
  | None => None
  end.

(** A worker is created; an error is logged. *)
Definition create_task (idx : Z) : Go St unit :=
  st ← gets cj_jobStatus;
  cfg ← or_panic (getTaskConfig st idx);
  newUUID ← ask (ce_uuid env);
  or_log (workerID ← on_base (CreateWorker tomlEncode jsonMarshal newUUID CvsTask (UserConfig cfg) 10 []);
          upd (λ j, set_sync (alter (λ wi, mkWorkerInfo (wi_handle wi) false) idx) (set_launched (<[workerID := idx]>) j))).

Definition unmarshal_task (ext : string) : Go St CvsTask.Status :=
  match task_Unmarshal ext with Some st => mret st | None => throw (ErrForeign "invalid task status") end.

(** The progress of a task. *)
Definition follow_task (idx : Z) (h : WorkerHandle) : Go St unit :=
  status ← status_of h;
  if bool_decide (ws_Code status ∈ [WorkerStatusNormal; WorkerStatusFinished; WorkerStatusStopped]) then
    taskStatus ← unmarshal_task (ws_ExtBytes status);
    st ← gets cj_jobStatus;
    _ ← or_panic (js_FileInfos st !! idx);
    _ ← upd (set_files (alter (λ info, mkSyncFileInfo (sf_Idx info) (st_CurrentLoc taskStatus)) idx));
    upd (λ j, set_counter (int64 (cj_counter j + st_Count taskStatus)) j)
  else mret tt.

(** One round of the loop of [Tick]. *)
Definition tick_file (idx : Z) : Go St unit :=
  sync ← gets cj_syncFilesInfo;
  match sync !! idx with
  | None => mret tt
  | Some wi =>
      if wi_needCreate wi then create_task idx
      else match wi_handle wi with None => mret tt | Some h => follow_task idx h end
  end.

(** The persistence of the status; only a failure to encode is returned. *)
Definition save_status : Go St unit :=
  st ← gets cj_jobStatus;
  statsBytes ← lift_res (job_Marshal st);
  workerID ← gets cj_workerID;
  or_log (on_kv (kvc_Put workerID statsBytes)).

Definition Cvs_Tick : Go St unit :=
  _ ← upd (set_counter 0);
  s ← get;
  ready ← lift_res (IsMasterReady (ms_base s));
  if negb ready then (_ ← ask (ce_allow env); mret tt) else
  files ← gets (λ j, js_FileInfos (cj_jobStatus j));
  if bool_decide (files = ∅) then (_ ← upd (setStatusCode WorkerStatusFinished); Cvs_Exit) else
  sync ← gets cj_syncFilesInfo;
  order ← ask (ce_order env);
  _ ← forM_ tick_file (order sync);
  allow ← ask (ce_allow env);
  _ ← (if allow : bool then save_status else mret tt);
  code ← gets cj_statusCode;
  if bool_decide (code = WorkerStatusStopped) then Cvs_Exit else mret tt.

(** No key: the length is only logged, and the index is out of range. *)
Definition Cvs_OnMasterRecovered : Go St unit :=
  workerID ← gets cj_workerID;
  kvs ← on_kv (kvc_Get workerID []);
  match kvs with
  | [] => panic
  | kv0 :: _ =>
      st ← gets cj_jobStatus;
      let '(err, st') := job_Unmarshal (kv_Value kv0) st in
      _ ← upd (set_jobStatus st');
      match err with
      | Some e => throw e
      | None => upd (λ j, set_sync (λ sync, ((λ _, mkWorkerInfo None true) <$> js_FileInfos st') ∪ sync) j)
      end
  end.

(** [syncFilesInfo[id]] is a nil pointer when the file is not there. *)
Definition on_file (id : Z) (f : WorkerInfo → WorkerInfo) : Go St unit :=
  sync ← gets cj_syncFilesInfo;
  _ ← or_panic (sync !! id);
  upd (set_sync (alter f id)).

Definition reset_file (id : Z) : Go St unit := on_file id (λ _, mkWorkerInfo None true).

Definition Cvs_OnWorkerDispatched (worker : WorkerHandle) (err : option goerr) : Go St unit :=
  match err with
  | None => mret tt
  | Some _ =>
      launched ← gets cj_launchedWorkers;
      id ← or_panic (launched !! handle_ID worker);
      _ ← upd (set_launched (delete (handle_ID worker)));
      reset_file id
  end.

Definition Cvs_OnWorkerOnline (worker : WorkerHandle) : Go St unit :=
  launched ← gets cj_launchedWorkers;
  id ← match launched !! handle_ID worker with
       | Some id => mret id
       | None =>
           s ← get;
           ready ← lift_res (IsMasterReady (ms_base s));
           if ready : bool then panic else
           status ← status_of worker;
           taskStatus ← unmarshal_task (ws_ExtBytes status);
           mret (cfg_Idx (st_TaskConfig taskStatus))
       end;
  _ ← on_file id (λ _, mkWorkerInfo (Some worker) false);
  upd (set_launched (<[handle_ID worker := id]>)).

Definition Cvs_OnWorkerOffline (worker : WorkerHandle) (reason : option goerr) : Go St unit :=
  launched ← gets cj_launchedWorkers;
  id ← or_panic (launched !! handle_ID worker);
  _ ← upd (set_launched (delete (handle_ID worker)));
  if err_Equal ErrWorkerFinish reason then upd (λ j, set_files (delete id) (set_sync (delete id) j))
  else reset_file id.

(** One round of the loop over the workers that are told to stop. *)
Definition stop_task (idx : Z) : Go St unit :=
  sync ← gets cj_syncFilesInfo;
  match sync !! idx ≫= wi_handle with
  | None | Some (tombstoneHandle _) => mret tt
  | Some (runningHandle w executor) =>
      mono ← ask (ce_mono env);
      s ← get;
      let id := JobMasterID s in
      let msg := mkStatusChangeRequest mono id (CurrentEpoch s) WorkerStatusStopped in
      sent ← ask (ce_send env);
      match sent with
      | Some err => throw err
      | None => upd (add_sent (executor, WorkerStatusChangeRequestTopic id w, msg))
      end
  end.

Definition Cvs_OnJobManagerMessage (topic : string) (msg : StatusChangeRequest) : Go St unit :=
  if bool_decide (scr_ExpectState msg = WorkerStatusStopped) then
    _ ← upd (setStatusCode WorkerStatusStopped);
    sync ← gets cj_syncFilesInfo;
    order ← ask (ce_order env);
    forM_ stop_task (order sync)
  else mret tt.

Definition cvs_JobMasterImpl : JobMasterImpl DB Srv (JobMaster K) := {|
  jmi_MasterImpl := {|
    InitImpl := Cvs_InitImpl; Impl_Tick := Cvs_Tick; OnMasterRecovered := Cvs_OnMasterRecovered; OnWorkerDispatched := Cvs_OnWorkerDispatched;
    OnWorkerOnline := Cvs_OnWorkerOnline; OnWorkerOffline := Cvs_OnWorkerOffline; OnWorkerStatusUpdated _ _ := mret tt; CloseImpl := mret tt |};
  OnJobManagerFailover := mret tt;
  OnJobManagerMessage := Cvs_OnJobManagerMessage;
|}.

End cvs_job.

(** ** Specification *)

(** The surroundings: identifiers are not repeated, ranging over a map visits its keys,
    encoding and the store do not panic. *)
Class CvsEnvLaws {K} {kv : KV K} `{!CvsJobJSON} (env : CvsEnv) (jsonMarshal : WorkerConfig CvsTask.Config → res goerr string) : Prop := {
  ce_uuid_inj : Inj (=) (=) (ce_uuid env);
  ce_order_keys n (m : gmap Z WorkerInfo) : iter_order m (ce_order env n m);
  ce_marshal st : ∃ b, job_Marshal st = Done b;
  ce_put key val (k : K) : (kvc_Put key val k).1 ≠ Panic;
  ce_encode c : jsonMarshal c ≠ Panic;
}.

(** The files that are left are those with a state; a file waits for its worker to be
    created, or exactly one launched worker works on it. *)
Record cvs_inv {K} (env : CvsEnv) (left_ : gset Z) (j : JobMaster K) : Prop := mkCvsInv {
  ci_files : dom (js_FileInfos (cj_jobStatus j)) = left_;
  ci_sync : dom (cj_syncFilesInfo j) = left_;
  ci_waiting idx wi : cj_syncFilesInfo j !! idx = Some wi → wi_needCreate wi = true → wi_handle wi = None;
  ci_worker idx wi : cj_syncFilesInfo j !! idx = Some wi → wi_needCreate wi = false → ∃ w, cj_launchedWorkers j !! w = Some idx;
  ci_launched w idx : cj_launchedWorkers j !! w = Some idx →
    ∃ wi, cj_syncFilesInfo j !! idx = Some wi ∧ wi_needCreate wi = false ∧ ∀ h, wi_handle wi = Some h → handle_ID h = w;
  ci_inj w w' idx : cj_launchedWorkers j !! w = Some idx → cj_launchedWorkers j !! w' = Some idx → w = w';
  ci_ids w idx : cj_launchedWorkers j !! w = Some idx → ∃ n, n < cj_asked j ∧ w = ce_uuid env n;
}.

(** *** Lemmas on the state *)

Section inv.
Context {K : Type} (env : CvsEnv).
Implicit Types j : JobMaster K.

(** The parts the invariant reads. *)
Lemma cvs_inv_ext left_ j j' :
  cvs_inv env left_ j → dom (js_FileInfos (cj_jobStatus j')) = dom (js_FileInfos (cj_jobStatus j)) → cj_syncFilesInfo j' = cj_syncFilesInfo j →
  cj_launchedWorkers j' = cj_launchedWorkers j → cj_asked j ≤ cj_asked j' → cvs_inv env left_ j'.
Proof.
  intros [H1 H2 H3 H4 H5 H6 H7] Ef Es El Ha. split; rewrite ?Ef, ?Es, ?El; try done.
  intros w idx Hw. destruct (H7 w idx Hw) as (n & Hn & ->). exists n. split; [lia|done].
Qed.

(** A worker is launched for a file that waits. *)
Lemma cvs_inv_create left_ j idx wi w :
  cvs_inv env left_ j → cj_syncFilesInfo j !! idx = Some wi → wi_needCreate wi = true → cj_launchedWorkers j !! w = None → (∃ n, n < cj_asked j ∧ w = ce_uuid env n) →
  cvs_inv env left_ (set_sync (alter (λ wi, mkWorkerInfo (wi_handle wi) false) idx) (set_launched (<[w := idx]>) j)).
Proof.
  intros [H1 H2 H3 H4 H5 H6 H7] Hi Hc Hw Hn. assert (∀ w', cj_launchedWorkers j !! w' ≠ Some idx) as Hno.
  { intros w' Hw'. destruct (H5 _ _ Hw') as (wi' & Hs & Hf & _). congruence. }
  split; simpl; [done|by rewrite dom_alter_L| | | | |].
  - intros i wi'. destruct (decide (i = idx)) as [->|Hne]; [|rewrite lookup_alter_ne by done; apply H3]. rewrite lookup_alter_eq, Hi. by intros [= <-].
  - intros i wi'. destruct (decide (i = idx)) as [->|Hne]; [intros _ _; exists w; apply lookup_insert_eq|]. rewrite lookup_alter_ne by done. intros Hs Hf.
    destruct (H4 _ _ Hs Hf) as [w' Hw']. exists w'. rewrite lookup_insert_ne; [done|]. congruence.
  - intros w' i. destruct (decide (w' = w)) as [->|Hne].
    + rewrite lookup_insert_eq. intros [= <-]. rewrite lookup_alter_eq, Hi. eexists. split; [done|]. split; [done|]. simpl. intros h Hh. by rewrite (H3 _ _ Hi Hc) in Hh.
    + rewrite lookup_insert_ne by done. intros Hw'. rewrite lookup_alter_ne; [by apply H5|]. intros ->. by eapply Hno.
  - intros w1 w2 i. rewrite !lookup_insert_Some. intros [[<- <-]|[? Hw1]] [[<- Hi2]|[? Hw2]]; subst; try done; [by apply Hno in Hw2|by apply Hno in Hw1|by eapply H6].
  - intros w' i. rewrite lookup_insert_Some. intros [[<- <-]|[_ Hw']]; [done|by eapply H7].
Qed.

(** A worker is gone and its file waits again. *)
Lemma cvs_inv_reset left_ j w idx :
  cvs_inv env left_ j → cj_launchedWorkers j !! w = Some idx →
  cvs_inv env left_ (set_sync (alter (λ _, mkWorkerInfo None true) idx) (set_launched (delete w) j)).
Proof.
  intros [H1 H2 H3 H4 H5 H6 H7] Hw. split; simpl; [done|by rewrite dom_alter_L| | | | |].
  - intros i wi'. destruct (decide (i = idx)) as [->|Hne]; [|rewrite lookup_alter_ne by done; apply H3]. rewrite lookup_alter_eq, fmap_Some. by intros (? & _ & ->).
  - intros i wi'. destruct (decide (i = idx)) as [->|Hne]; [rewrite lookup_alter_eq, fmap_Some; by intros (? & _ & ->)|]. rewrite lookup_alter_ne by done. intros Hs Hf.
    destruct (H4 _ _ Hs Hf) as [w' Hw']. exists w'. rewrite lookup_delete_ne; [done|]. congruence.
  - intros w' i. rewrite lookup_delete_Some. intros [Hne Hw']. rewrite lookup_alter_ne; [by apply H5|]. intros ->. by eapply Hne, H6.
  - intros w1 w2 i. rewrite !lookup_delete_Some. intros [_ ?] [_ ?]. by eapply H6.
  - intros w' i. rewrite lookup_delete_Some. intros [_ ?]. by eapply H7.
Qed.

(** The worker of a file came online. *)
Lemma cvs_inv_online left_ j h idx :
  cvs_inv env left_ j → cj_launchedWorkers j !! handle_ID h = Some idx →
  cvs_inv env left_ (set_launched (<[handle_ID h := idx]>) (set_sync (alter (λ _, mkWorkerInfo (Some h) false) idx) j)).
Proof.
  intros [H1 H2 H3 H4 H5 H6 H7] Hw. split; simpl; rewrite ?insert_id by done; try done; [by rewrite dom_alter_L| | |].
  - intros i wi'. destruct (decide (i = idx)) as [->|Hne]; [|rewrite lookup_alter_ne by done; apply H3]. rewrite lookup_alter_eq, fmap_Some. by intros (? & _ & ->).
  - intros i wi'. destruct (decide (i = idx)) as [->|Hne]; [by eexists|]. rewrite lookup_alter_ne by done. apply H4.
  - intros w' i Hw'. destruct (decide (i = idx)) as [->|Hne]; [|rewrite lookup_alter_ne by done; by apply H5]. assert (w' = handle_ID h) as -> by by eapply H6.
    destruct (H5 _ _ Hw') as (wi & Hs & _). rewrite lookup_alter_eq, Hs. eexists. split; [done|]. split; [done|]. by intros ? [= <-].
Qed.

(** The worker of a file finished. *)
Lemma cvs_inv_finish left_ j w idx :
  cvs_inv env left_ j → cj_launchedWorkers j !! w = Some idx →
  cvs_inv env (left_ ∖ {[idx]}) (set_files (delete idx) (set_sync (delete idx) (set_launched (delete w) j))).
Proof.
  intros [H1 H2 H3 H4 H5 H6 H7] Hw. split; simpl; [by rewrite dom_delete_L, H1|by rewrite dom_delete_L, H2| | | | |].
  - intros i wi. rewrite lookup_delete_Some. intros [_ ?]. by eapply H3.
  - intros i wi. rewrite lookup_delete_Some. intros [Hne Hs] Hf. destruct (H4 _ _ Hs Hf) as [w' Hw']. exists w'. rewrite lookup_delete_ne; [done|]. congruence.
  - intros w' i. rewrite lookup_delete_Some. intros [Hne Hw']. rewrite lookup_delete_ne; [by apply H5|]. intros ->. by eapply Hne, H6.
  - intros w1 w2 i. rewrite !lookup_delete_Some. intros [_ ?] [_ ?]. by eapply H6.
  - intros w' i. rewrite lookup_delete_Some. intros [_ ?]. by eapply H7.
Qed.

End inv.

(** *** Lemmas on the operations *)

Section steps.
Context {DB Srv K : Type} `{!Gorm DB} `{!HandlerRegistrar Srv} {kv : KV K} `{!CvsJobJSON, !CvsTaskJSON}.
Abbreviation St := (JobMasterSt DB Srv (JobMaster K)).
Context (env : CvsEnv) (tomlEncode jsonMarshal : WorkerConfig CvsTask.Config → res goerr string) `{!CvsEnvLaws env jsonMarshal}.

(** The manager has a status for every worker the job master holds. *)
Definition known (m : WorkerManager) (j : JobMaster K) : Prop :=
  ∀ idx wi h, cj_syncFilesInfo j !! idx = Some wi → wi_handle wi = Some h → ∃ st, handle_Status m h = Done (Some st).

(** Holds throughout a tick. *)
Definition ticking (left_ : gset Z) (m : WorkerManager) (code : Z) (s : St) : Prop :=
  cvs_inv env left_ (cvs s) ∧ bm_workerManager (ms_base s) = Some m ∧ known m (cvs s) ∧ cj_statusCode (cvs s) = code.

Definition calm {A} (P : St → Prop) (r : res goerr A) (s : St) : Prop := r ≠ Panic ∧ P s.

Lemma CreateWorker_task newUUID cfg b :
  match CreateWorker tomlEncode jsonMarshal newUUID CvsTask (UserConfig cfg) 10 [] b with
  | (Done w, b') => w = newUUID ∧ bm_workerManager b' = bm_workerManager b
  | (Fail _, b') => bm_workerManager b' = bm_workerManager b
  | (Panic, _) => False
  end.
Proof.
  unfold CreateWorker. rewrite Consume_eq. destruct (bool_decide _); [|done]. unfold prepareWorkerConfig. cbn. pose proof (ce_encode (UserConfig cfg)) as He.
  by destruct (jsonMarshal (UserConfig cfg)).
Qed.

Lemma uuid_unused left_ (j : JobMaster K) : cvs_inv env left_ j → cj_launchedWorkers j !! ce_uuid env (cj_asked j) = None.
Proof.
  intros Hi. apply eq_None_ne_Some. intros idx Hw. destruct (ci_ids _ _ _ Hi _ _ Hw) as (n & Hn & He). pose proof (ce_uuid_inj (env := env) (jsonMarshal := jsonMarshal) _ _ He). lia.
Qed.

Lemma create_task_ticking left_ m code idx wi s :
  ticking left_ m code s → cj_syncFilesInfo (cvs s) !! idx = Some wi → wi_needCreate wi = true →
  let out := create_task env tomlEncode jsonMarshal idx s in calm (ticking left_ m code) out.1 out.2.
Proof.
  intros (Hi & Hm & Hk & Hcode) Hs Hc out. unfold out, create_task, getTaskConfig, mbind, GoM_bind, gets, or_panic. cbn [fst snd].
  assert (is_Some (js_FileInfos (cj_jobStatus (cvs s)) !! idx)) as [info Hf].
  { apply elem_of_dom. rewrite (ci_files _ _ _ Hi), <- (ci_sync _ _ _ Hi). by apply elem_of_dom_2 in Hs. }
  rewrite Hf. unfold mret, GoM_ret, ask, or_log, on_base. cbn [set_cvs ms_base]. set (cfg := mkConfig _ _ _ _ _).
  pose proof (CreateWorker_task (ce_uuid env (cj_asked (cvs s))) cfg (ms_base s)) as Hw.
  destruct (CreateWorker _ _ _ _ _ _ _ _) as [[w|e|] b']; [destruct Hw as [-> Hb]| |done]; simpl; (split; [done|]).
  - split_and!; [|simpl; congruence| |done].
    + assert (cvs_inv env left_ (set_asked (S (cj_asked (cvs s))) (cvs s))) as Hi' by (apply (cvs_inv_ext env left_ (cvs s)); simpl; try done; lia).
      apply (cvs_inv_create env left_ (set_asked (S (cj_asked (cvs s))) (cvs s)) idx wi); try done; [exact (uuid_unused _ _ Hi)|].
      exists (cj_asked (cvs s)). simpl. split; [lia|done].
    + intros i wi' h. simpl. destruct (decide (i = idx)) as [->|Hne]; [|rewrite lookup_alter_ne by done; apply Hk].
      rewrite lookup_alter_eq, Hs. intros [= <-]. exact (Hk _ _ _ Hs).
  - split_and!; [|simpl; congruence|done|done]. apply (cvs_inv_ext env left_ (cvs s)); simpl; try done; lia.
Qed.

Lemma follow_task_ticking left_ m code idx wi h s :
  ticking left_ m code s → cj_syncFilesInfo (cvs s) !! idx = Some wi → wi_handle wi = Some h →
  let out := follow_task idx h s in calm (ticking left_ m code) out.1 out.2.
Proof.
  intros (Hi & Hm & Hk & Hcode) Hs Hh out. destruct (Hk _ _ _ Hs Hh) as [st Hst]. unfold out, follow_task, status_of, mbind, GoM_bind. rewrite Hm, Hst.
  case_bool_decide; [|by split]. unfold unmarshal_task. destruct (task_Unmarshal _) as [ts|]; [|by split].
  assert (is_Some (js_FileInfos (cj_jobStatus (cvs s)) !! idx)) as [info Hf].
  { apply elem_of_dom. rewrite (ci_files _ _ _ Hi), <- (ci_sync _ _ _ Hi). by apply elem_of_dom_2 in Hs. }
  unfold gets, or_panic, mret, GoM_ret. rewrite Hf. simpl. split; [done|]. split_and!; [|done..].
  apply (cvs_inv_ext env left_ (cvs s)); simpl; try done. by rewrite dom_alter_L.
Qed.

Lemma tick_file_ticking left_ m code idx : triple (ticking left_ m code) (tick_file env tomlEncode jsonMarshal idx) (calm (ticking left_ m code)).
Proof.
  intros s Ht. unfold tick_file, mbind, GoM_bind, gets. destruct (cj_syncFilesInfo (cvs s) !! idx) as [wi|] eqn:Hs; [|by split].
  destruct (wi_needCreate wi) eqn:Hc; [by eapply create_task_ticking|]. destruct (wi_handle wi) as [h|] eqn:Hh; [by eapply follow_task_ticking|by split].
Qed.

Lemma JobMaster_Exit_cvs io code msg ext err (s : St) : cvs (JobMaster_Exit io code msg ext err s).2 = cvs s.
Proof. apply JobMaster_Exit_impl. Qed.

Lemma set_asked_inv left_ (j : JobMaster K) n : cvs_inv env left_ j → cj_asked j ≤ n → cvs_inv env left_ (set_asked n j).
Proof. intros Hi Hn. by apply (cvs_inv_ext env left_ j). Qed.

Lemma Cvs_Exit_inv left_ (s : St) :
  cvs_inv env left_ (cvs s) → cvs_inv env left_ (cvs (Cvs_Exit env s).2) ∧ cj_statusCode (cvs (Cvs_Exit env s).2) = cj_statusCode (cvs s).
Proof.
  intros Hi. unfold Cvs_Exit, Cvs_Status, mbind, GoM_bind, gets. destruct (job_Marshal _); [|done|done]. unfold mret, GoM_ret, ask.
  rewrite JobMaster_Exit_cvs. split; [|done]. apply set_asked_inv; [done|lia].
Qed.

Lemma save_status_keeps left_ m code (s : St) : ticking left_ m code s → let out := save_status s in calm (ticking left_ m code) out.1 out.2.
Proof.
  intros (Hi & Hm & Hk & Hcode) out. unfold out, save_status, mbind, GoM_bind, gets, lift_res, or_log, on_kv. destruct (ce_marshal (env := env) (jsonMarshal := jsonMarshal) (cj_jobStatus (cvs s))) as [b ->].
  pose proof (ce_put (env := env) (jsonMarshal := jsonMarshal) (cj_workerID (cvs s)) b (cj_kv (cvs s))) as Hp. destruct (kvc_Put _ _ _) as [[[]|e|] k]; [| |done].
  all: simpl; (split; [done|]); (split_and!; [|done..]); by apply (cvs_inv_ext env left_ (cvs s)).
Qed.

(** A tick keeps the invariant and panics at most in the exit of the base job master. *)
Lemma Cvs_Tick_inv left_ m code (s : St) :
  ticking left_ m code s →
  let out := Cvs_Tick env tomlEncode jsonMarshal s in
  cvs_inv env left_ (cvs out.2) ∧ (left_ = ∅ ∨ cj_statusCode (cvs out.2) = code) ∧ (out.1 = Panic → left_ = ∅ ∨ code = WorkerStatusStopped).
Proof.
  intros (Hi & Hm & Hk & Hcode) out. unfold out, Cvs_Tick. set (s1 := set_cvs (set_counter 0 (cvs s)) s).
  assert (ticking left_ m code s1) as Ht1 by (split_and!; [by apply (cvs_inv_ext env left_ (cvs s))|done..]).
  assert (∀ (s : St) n, ticking left_ m code s → cj_asked (cvs s) ≤ n → ticking left_ m code (set_cvs (set_asked n (cvs s)) s)) as Hask.
  { intros s2 n (H1 & H2 & H3 & H4) Hn. split_and!; [by apply set_asked_inv|done..]. }
  assert (∀ (s : St) (r : res goerr unit), ticking left_ m code s → r ≠ Panic → cvs_inv env left_ (cvs (r, s).2) ∧ (left_ = ∅ ∨ cj_statusCode (cvs (r, s).2) = code) ∧ ((r, s).1 = Panic → left_ = ∅ ∨ code = WorkerStatusStopped)) as Hend.
  { intros s2 r (H1 & _ & _ & H4) Hn. split_and!; [done|by right|done]. }
  assert (∀ s : St, ticking left_ m code s → let out := (if bool_decide (cj_statusCode (cvs s) = WorkerStatusStopped) then Cvs_Exit env else mret tt) s in
    cvs_inv env left_ (cvs out.2) ∧ (left_ = ∅ ∨ cj_statusCode (cvs out.2) = code) ∧ (out.1 = Panic → left_ = ∅ ∨ code = WorkerStatusStopped)) as Hstop.
  { intros s2 (H1 & H2 & H3 & H4). case_bool_decide as Hst; [|by apply (Hend s2 (Done tt))]. destruct (Cvs_Exit_inv left_ s2 H1) as [H5 H6]. simpl. split_and!; [done|right; congruence|right; congruence]. }
  unfold mbind, GoM_bind, upd, get, lift_res, gets, ask. cbn -[Cvs_Exit]. fold s1. unfold IsMasterReady. rewrite Hm.
  destruct (IsInitialized m); simpl; [|refine (Hend (set_cvs (set_asked (S (cj_asked (cvs s1))) (cvs s1)) s1) (Done tt) _ _); [apply Hask; [done|lia]|done]].
  case_bool_decide as He.
  { assert (left_ = ∅) as Hl by (rewrite <- (ci_files _ _ _ Hi), He; apply dom_empty_L). split_and!; [|by left|by left].
    apply Cvs_Exit_inv. by apply (cvs_inv_ext env left_ (cvs s)). }
  destruct (triple_forM (ticking left_ m code) (calm (ticking left_ m code)) (tick_file env tomlEncode jsonMarshal) (ce_order env (cj_asked (cvs s)) (cj_syncFilesInfo (cvs s)))
    ltac:(intros x _ s2 H2; destruct (tick_file_ticking left_ m code x s2 H2) as [Hn Hc]; by destruct (tick_file env tomlEncode jsonMarshal x s2) as [[]]) ltac:(done)
    (set_cvs (set_asked (S (cj_asked (cvs s1))) (cvs s1)) s1) ltac:(apply Hask; [done|lia])) as [Hnp Ht2].
  destruct (forM_ _ _ _) as [[[]|e|] s2]; simpl in Hnp, Ht2; [|by apply (Hend _ (Fail e))|done].
  assert (ticking left_ m code (set_cvs (set_asked (S (cj_asked (cvs s2))) (cvs s2)) s2)) as Ht3 by (apply Hask; [done|lia]).
  set (s3 := set_cvs _ s2) in *. destruct (ce_allow env (cj_asked (cvs s2))); [|by apply Hstop].
  destruct (save_status_keeps left_ m code s3 Ht3) as [Hn4 Ht4]. destruct (save_status s3) as [[[]|e|] s4]; simpl in *; [by apply Hstop|by apply (Hend _ (Fail e))|done].
Qed.

(** The worker of a file is gone without having finished it. *)
Lemma gone_inv left_ (s : St) w idx :
  cvs_inv env left_ (cvs s) → cj_launchedWorkers (cvs s) !! w = Some idx →
  ∃ s', (_ ← upd (set_launched (delete w)); reset_file idx) s = (Done tt, s') ∧ cvs_inv env left_ (cvs s') ∧ cj_statusCode (cvs s') = cj_statusCode (cvs s).
Proof.
  intros Hi Hw. destruct (ci_launched _ _ _ Hi _ _ Hw) as (wi & Hs & _). eexists. split_and!.
  - unfold reset_file, on_file, mbind, GoM_bind, upd, gets, or_panic. simpl. by rewrite Hs.
  - by apply cvs_inv_reset.
  - done.
Qed.

Lemma Cvs_OnWorkerDispatched_inv left_ (s : St) h err idx :
  cvs_inv env left_ (cvs s) → cj_launchedWorkers (cvs s) !! handle_ID h = Some idx →
  ∃ s', Cvs_OnWorkerDispatched h err s = (Done tt, s') ∧ cvs_inv env left_ (cvs s') ∧ cj_statusCode (cvs s') = cj_statusCode (cvs s).
Proof.
  intros Hi Hw. destruct err as [e|]; [|by eexists]. destruct (gone_inv left_ s _ _ Hi Hw) as (s' & Hs & Hi'). exists s'. split; [|done].
  unfold Cvs_OnWorkerDispatched. erewrite bind_Done by reflexivity. rewrite Hw. exact Hs.
Qed.

Lemma Cvs_OnWorkerOnline_inv left_ (s : St) h idx :
  cvs_inv env left_ (cvs s) → cj_launchedWorkers (cvs s) !! handle_ID h = Some idx →
  ∃ s', Cvs_OnWorkerOnline h s = (Done tt, s') ∧ cvs_inv env left_ (cvs s') ∧ cj_statusCode (cvs s') = cj_statusCode (cvs s).
Proof.
  intros Hi Hw. destruct (ci_launched _ _ _ Hi _ _ Hw) as (wi & Hs & _). eexists. split_and!.
  - unfold Cvs_OnWorkerOnline, on_file, mbind, GoM_bind, upd, gets, or_panic. rewrite Hw. unfold mret, GoM_ret. by rewrite Hs.
  - simpl. by apply cvs_inv_online.
  - done.
Qed.

Lemma Cvs_OnWorkerOffline_inv left_ (s : St) h reason idx :
  cvs_inv env left_ (cvs s) → cj_launchedWorkers (cvs s) !! handle_ID h = Some idx →
  ∃ s', Cvs_OnWorkerOffline h reason s = (Done tt, s') ∧
        cvs_inv env (if err_Equal ErrWorkerFinish reason then left_ ∖ {[idx]} else left_) (cvs s') ∧ cj_statusCode (cvs s') = cj_statusCode (cvs s).
Proof.
  intros Hi Hw. unfold Cvs_OnWorkerOffline. destruct (err_Equal ErrWorkerFinish reason).
  - eexists. unfold mbind, GoM_bind, gets, or_panic, upd. rewrite Hw. split_and!; [done| |done]. by apply (cvs_inv_finish env left_ (cvs s) (handle_ID h)).
  - destruct (gone_inv left_ s _ _ Hi Hw) as (s' & Hs & Hi'). exists s'. split; [|done]. erewrite bind_Done by reflexivity. rewrite Hw. exact Hs.
Qed.

Lemma stop_task_inv left_ code idx :
  triple (λ s : St, cvs_inv env left_ (cvs s) ∧ cj_statusCode (cvs s) = code) (stop_task env idx) (calm (λ s, cvs_inv env left_ (cvs s) ∧ cj_statusCode (cvs s) = code)).
Proof.
  intros s [Hi Hc]. unfold stop_task. erewrite bind_Done by reflexivity. destruct (cj_syncFilesInfo (cvs s) !! idx ≫= wi_handle) as [[w ex|w]|]; [|by split..].
  unfold mbind, GoM_bind, ask, get. destruct (ce_send env _); (split; [done|]); (split; [|done]); simpl.
  all: apply (cvs_inv_ext env left_ (cvs s)); simpl; try done; lia.
Qed.

Lemma Cvs_OnJobManagerMessage_inv left_ topic msg (s : St) :
  cvs_inv env left_ (cvs s) → let out := Cvs_OnJobManagerMessage env topic msg s in
  out.1 ≠ Panic ∧ cvs_inv env left_ (cvs out.2) ∧ (cj_statusCode (cvs out.2) = WorkerStatusStopped ∨ cj_statusCode (cvs out.2) = cj_statusCode (cvs s)).
Proof.
  intros Hi out. unfold out, Cvs_OnJobManagerMessage. case_bool_decide; [|by split_and!; [|done|right]]. unfold mbind, GoM_bind, upd, gets, ask. simpl.
  set (P := λ s : St, cvs_inv env left_ (cvs s) ∧ cj_statusCode (cvs s) = WorkerStatusStopped). set (s1 := set_cvs (set_asked _ _) _).
  destruct (triple_forM P (calm P) (stop_task env) (ce_order env (cj_asked (cvs s)) (cj_syncFilesInfo (cvs s)))
    ltac:(intros x _ s2 H2; destruct (stop_task_inv left_ _ x s2 H2) as [Hn Hc]; by destruct (stop_task env x s2) as [[]]) ltac:(done) s1) as [Hn [Hi' Hc]].
  - split; [|done]. apply (cvs_inv_ext env left_ (cvs s)); simpl; try done; lia.
  - split_and!; [done|done|by left].
Qed.

Lemma Cvs_InitImpl_inv (s s' : St) conf workerID k :
  cvs s = NewCVSJobMaster workerID conf k → Cvs_InitImpl s = (Done tt, s') →
  cvs_inv env (list_to_set (seqZ 0 (jc_FileNum conf))) (cvs s') ∧ cj_statusCode (cvs s') = WorkerStatusNormal.
Proof.
  intros Hs. unfold Cvs_InitImpl. erewrite bind_Done by reflexivity. erewrite bind_Done by reflexivity. rewrite Hs. simpl. case_bool_decide; [done|].
  set (s1 := set_cvs _ s).
  assert (∀ l done (s1 : St), NoDup (done ++ l) → dom (js_FileInfos (cj_jobStatus (cvs s1))) = list_to_set done → dom (cj_syncFilesInfo (cvs s1)) = list_to_set done →
    (∀ i wi, cj_syncFilesInfo (cvs s1) !! i = Some wi → wi = mkWorkerInfo None true) → cj_launchedWorkers (cvs s1) = ∅ →
    ∃ s2, forM_ init_file l s1 = (Done tt, s2) ∧ cvs_inv env (list_to_set (done ++ l)) (cvs s2)) as Hloop.
  { induction l as [|x l IH]; intros done_ s2 Hnd Hf Hy Hw Hl.
    - exists s2. split; [done|]. rewrite app_nil_r. split; rewrite ?Hl; try done; [by intros i wi Hi _; rewrite (Hw _ _ Hi)|by intros i wi Hi; rewrite (Hw _ _ Hi)].
    - simpl. unfold mbind, GoM_bind, init_file at 1, upd. replace (done_ ++ x :: l) with ((done_ ++ [x]) ++ l) in * by (by rewrite <- app_assoc).
      apply IH; [done|..]; simpl; [rewrite dom_insert_L, Hf; set_solver|rewrite dom_insert_L, Hy; set_solver| |done].
      intros i wi. rewrite lookup_insert_Some. intros [[_ <-]|[_ ?]]; [done|by eapply Hw]. }
  destruct (Hloop (seqZ 0 (jc_FileNum conf)) [] s1) as (s2 & Hrun & Hi); [apply NoDup_seqZ|done..|].
  unfold mbind, GoM_bind, gets, lift_res, on_kv, upd. rewrite Hrun. cbn. destruct (job_Marshal (cj_jobStatus (cvs s2))) as [b|e|]; [|done..].
  destruct (kvc_Put _ _ _) as [[[]|e|] k']; [|done..]. intros [= <-]. split; [|done]. simpl. by apply (cvs_inv_ext env _ (cvs s2)).
Qed.

(** A job that was started, with the files whose workers finished: ticks while the manager
    knows the workers, events of the workers that were launched, messages of the job
    manager, and whatever happens to the base master and to the base worker. A step that
    panics ends the run. *)
Inductive cvs_run (conf : Config) : gset Z → St → Prop :=
| run_start workerID k s s' : cvs s = NewCVSJobMaster workerID conf k → Cvs_InitImpl s = (Done tt, s') → cvs_run conf ∅ s'
| run_base fin s b db w : cvs_run conf fin s → cvs_run conf fin (mkMasterSt b db (w, cvs s))
| run_tick fin s m s' r :
    cvs_run conf fin s → bm_workerManager (ms_base s) = Some m → known m (cvs s) →
    Cvs_Tick env tomlEncode jsonMarshal s = (r, s') → r ≠ Panic → cvs_run conf fin s'
| run_dispatched fin s h err idx s' :
    cvs_run conf fin s → cj_launchedWorkers (cvs s) !! handle_ID h = Some idx → Cvs_OnWorkerDispatched h err s = (Done tt, s') → cvs_run conf fin s'
| run_online fin s h idx s' :
    cvs_run conf fin s → cj_launchedWorkers (cvs s) !! handle_ID h = Some idx → Cvs_OnWorkerOnline h s = (Done tt, s') → cvs_run conf fin s'
| run_offline fin s h reason idx s' :
    cvs_run conf fin s → cj_launchedWorkers (cvs s) !! handle_ID h = Some idx → Cvs_OnWorkerOffline h reason s = (Done tt, s') →
    cvs_run conf (if err_Equal ErrWorkerFinish reason then fin ∪ {[idx]} else fin) s'
| run_message fin s topic msg r s' : cvs_run conf fin s → Cvs_OnJobManagerMessage env topic msg s = (r, s') → cvs_run conf fin s'.

(** The files of a job that are not finished. *)
Definition unfinished (conf : Config) (fin : gset Z) : gset Z := list_to_set (seqZ 0 (jc_FileNum conf)) ∖ fin.

Lemma cvs_run_inv conf fin s :
  cvs_run conf fin s → cvs_inv env (unfinished conf fin) (cvs s) ∧ (cj_statusCode (cvs s) = WorkerStatusFinished → unfinished conf fin = ∅).
Proof.
  unfold unfinished. induction 1 as [workerID k s s' Hs Hrun|fin s b db w _ [IH1 IH2]|fin s m s' r _ [IH1 IH2] Hm Hk Hrun Hr|fin s h err idx s' _ [IH1 IH2] Hw Hrun
    |fin s h idx s' _ [IH1 IH2] Hw Hrun|fin s h reason idx s' _ [IH1 IH2] Hw Hrun|fin s topic msg r s' _ [IH1 IH2] Hrun].
  - rewrite difference_empty_L. destruct (Cvs_InitImpl_inv s s' conf workerID k Hs Hrun) as [H1 ->]. by split.
  - done.
  - destruct (Cvs_Tick_inv _ m (cj_statusCode (cvs s)) s ltac:(done)) as (H1 & H2 & _). rewrite Hrun in H1, H2. simpl in H1, H2. split; [done|].
    intros Hc. destruct H2 as [?|H2]; [done|]. apply IH2. congruence.
  - destruct (Cvs_OnWorkerDispatched_inv _ s h err idx IH1 Hw) as (s1 & H1 & H2 & H3). rewrite Hrun in H1. injection H1 as <-. rewrite H3. by split.
  - destruct (Cvs_OnWorkerOnline_inv _ s h idx IH1 Hw) as (s1 & H1 & H2 & H3). rewrite Hrun in H1. injection H1 as <-. rewrite H3. by split.
  - destruct (Cvs_OnWorkerOffline_inv _ s h reason idx IH1 Hw) as (s1 & H1 & H2 & H3). rewrite Hrun in H1. injection H1 as <-. rewrite H3.
    destruct (err_Equal ErrWorkerFinish reason); [|by split]. rewrite <- difference_difference_l_L. split; [done|]. intros Hc. rewrite (IH2 Hc). set_solver.
  - destruct (Cvs_OnJobManagerMessage_inv _ topic msg s IH1) as (_ & H1 & H2). rewrite Hrun in H1, H2. simpl in H1, H2. split; [done|]. intros Hc. apply IH2. destruct H2 as [H2|H2]; [by rewrite H2 in Hc|congruence].
Qed.

(** After a recovery every file waits, whatever ran before: the launched workers are those
    created since. *)
Definition since_recovery (s : St) : Prop :=
  ∀ w idx, cj_launchedWorkers (cvs s) !! w = Some idx → ∃ n, w = ce_uuid env n.

Lemma tick_file_since idx : triple since_recovery (tick_file env tomlEncode jsonMarshal idx) (λ r s, since_recovery s).
Proof.
  intros s Hs. unfold tick_file, mbind, GoM_bind, gets. destruct (cj_syncFilesInfo (cvs s) !! idx) as [wi|]; [|done]. destruct (wi_needCreate wi).
  - unfold create_task, mbind, GoM_bind, gets, or_panic, ask, or_log, on_base. destruct (getTaskConfig _ _) as [cfg|]; [|done]. simpl.
    pose proof (CreateWorker_task (ce_uuid env (cj_asked (cvs s))) cfg (ms_base s)) as Hw. destruct (CreateWorker _ _ _ _ _ _ _ _) as [[w|e|] b']; [|done|done].
    destruct Hw as [-> _]. intros w' i. simpl. rewrite lookup_insert_Some. intros [[<- _]|[_ Hw']]; [by eexists|by eapply Hs].
  - destruct (wi_handle wi) as [h|]; [|done]. unfold follow_task, status_of, mbind, GoM_bind. destruct (bm_workerManager _) as [m|]; [|done].
    destruct (handle_Status m h) as [[st|]|e|]; [|done..]. case_bool_decide; [|done]. unfold unmarshal_task. destruct (task_Unmarshal _); [|done].
    unfold gets, or_panic, mret, GoM_ret. simpl. by destruct (js_FileInfos _ !! idx).
Qed.

Lemma Cvs_Exit_launched (s : St) : cj_launchedWorkers (cvs (Cvs_Exit env s).2) = cj_launchedWorkers (cvs s).
Proof.
  unfold Cvs_Exit, Cvs_Status, mbind, GoM_bind, gets. destruct (job_Marshal _); [|done|done]. unfold mret, GoM_ret, ask. by rewrite JobMaster_Exit_cvs.
Qed.

Lemma Cvs_Tick_since (s : St) : since_recovery s → since_recovery (Cvs_Tick env tomlEncode jsonMarshal s).2.
Proof.
  intros Hs. unfold Cvs_Tick, mbind, GoM_bind, upd, get, lift_res, gets, ask. cbn -[Cvs_Exit].
  destruct (IsMasterReady _) as [[]|e|]; simpl; [|done..]. case_bool_decide; [intros w idx; rewrite Cvs_Exit_launched; apply Hs|].
  set (s1 := set_cvs (set_asked _ _) _).
  assert (since_recovery (forM_ (tick_file env tomlEncode jsonMarshal) (ce_order env (cj_asked (cvs s)) (cj_syncFilesInfo (cvs s))) s1).2) as Hl.
  { apply (triple_forM since_recovery (λ _, since_recovery)); [|done|done]. intros x _ s2 H2. pose proof (tick_file_since x s2 H2). by destruct (tick_file _ _ _ x s2) as [[]]. }
  destruct (forM_ _ _ s1) as [[[]|e|] s2]; [|done..]. simpl in Hl. set (s3 := set_cvs _ s2).
  assert (∀ s4 : St, since_recovery s4 → since_recovery ((if bool_decide (cj_statusCode (cvs s4) = WorkerStatusStopped) then Cvs_Exit env else mret tt) s4).2) as Hend.
  { intros s4 H4. case_bool_decide; [|done]. intros w idx. rewrite Cvs_Exit_launched. apply H4. }
  destruct (ce_allow env (cj_asked (cvs s2))); [|by apply (Hend s3)].
  assert (since_recovery (save_status s3).2) as Hsave.
  { unfold save_status, mbind, GoM_bind, gets, lift_res, or_log, on_kv. destruct (job_Marshal _); [|done..]. by destruct (kvc_Put _ _ _) as [[]]. }
  destruct (save_status s3) as [[[]|e|] s4]; [by apply Hend|done..].
Qed.


(** A recovered CVS job forgets its workers: after [OnMasterRecovered] every file waits for
    a new worker, also those whose worker survived the failover, and however many ticks
    follow, whatever happens to the base master, the end of a worker of before, finished
    or not, panics. *)
Theorem cvs_recovery_forgets_workers conf workerID k (s0 s1 s : St) h :
  cvs s0 = NewCVSJobMaster workerID conf k → Cvs_OnMasterRecovered s0 = (Done tt, s1) →
  rtc (λ s s', cvs s' = cvs (Cvs_Tick env tomlEncode jsonMarshal s).2 ∨ cvs s' = cvs s) s1 s → (∀ n, ce_uuid env n ≠ handle_ID h) →
  (∀ idx, idx ∈ dom (js_FileInfos (cj_jobStatus (cvs s1))) → cj_syncFilesInfo (cvs s1) !! idx = Some (mkWorkerInfo None true)) ∧
  (∀ reason, (Cvs_OnWorkerOffline h reason s).1 = Panic).
Proof.
  intros Hs0 Hrec Hticks Hh. assert (since_recovery s1 ∧ ∀ idx, idx ∈ dom (js_FileInfos (cj_jobStatus (cvs s1))) → cj_syncFilesInfo (cvs s1) !! idx = Some (mkWorkerInfo None true)) as [H1 H2].
  { unfold Cvs_OnMasterRecovered, mbind, GoM_bind, gets, on_kv in Hrec. rewrite Hs0 in Hrec. destruct (kvc_Get _ _ _) as [[[|kv0 kvs]|e|] k']; [done| |done..].
    simpl in Hrec. destruct (job_Unmarshal _ _) as [[e|] st']; [done|]. injection Hrec as <-. split; [by intros w idx|].
    intros idx [info Hin]%elem_of_dom. simpl in *. apply lookup_union_Some_l. by rewrite lookup_fmap, Hin. }
  split; [done|]. assert (since_recovery s) as Hs by (clear -Hticks H1 CvsEnvLaws0; induction Hticks as [|x y z Hxy _ IH]; [done|]; apply IH; intros w idx; destruct Hxy as [->| ->]; [by apply Cvs_Tick_since|apply H1]).
  intros reason. unfold Cvs_OnWorkerOffline, mbind, GoM_bind, gets, or_panic. destruct (cj_launchedWorkers (cvs s) !! handle_ID h) as [idx|] eqn:Hw; [|done].
  destruct (Hs _ _ Hw) as [n Hn]. by destruct (Hh n).
Qed.

End steps.

Section resume.
Context {DB Srv K : Type} `{!CvsTaskJSON, !CvsTaskJSONLaws}.
Abbreviation St := (JobMasterSt DB Srv (JobMaster K)).

(** The replacement of a worker resumes where its predecessor was: when a tick has read the
    status that a task reported, the start location in the configuration of the next
    worker of the file is that of a line before which the task had had every line
    accepted, and at most one accepted line is copied again. *)
Theorem cvs_replacement_resumes cfg ln t (s : St) m h idx info st :
  task_run cfg ln t → bm_workerManager (ms_base s) = Some m → handle_Status m h = Done (Some st) →
  ws_Code st = WorkerStatusNormal → ws_ExtBytes st = Task_Status t → js_FileInfos (cj_jobStatus (cvs s)) !! idx = Some info →
  ∃ s' cfg' reported rest, follow_task idx h s = (Done tt, s') ∧ getTaskConfig (cj_jobStatus (cvs s')) idx = Some cfg' ∧
    cfg_StartLoc cfg' = last_key (cfg_StartLoc cfg) reported ∧ ln_dst ln = reported ++ rest ∧ length rest ≤ 1.
Proof.
  intros Hrun Hm Hst Hcode Hext Hf. apply task_run_inv in Hrun. destruct (ti_located _ _ _ Hrun) as (ls & Hls & Hloc).
  eexists _, _, ls, (unlocated (ct_send t)). unfold follow_task, status_of, mbind, GoM_bind. rewrite Hm, Hst, Hcode, bool_decide_eq_true_2 by set_solver.
  unfold unmarshal_task, Task_Status in *. rewrite Hext, task_json_roundtrip. unfold gets, or_panic, mret, GoM_ret. rewrite Hf. split; [reflexivity|]. split_and!.
  - unfold getTaskConfig. simpl. by rewrite lookup_alter_eq, Hf.
  - simpl. done.
  - done.
  - destruct (ct_send t); simpl; lia.
Qed.

(** What a job master persisted is what its successor starts from: the same configuration and
    the same files at the same locations, each waiting for a worker. *)
Theorem cvs_checkpoint_restored {kv : KV K} `{!CvsJobJSON, !CvsJobJSONLaws} conf workerID k k' st b (s0 : St) :
  cvs s0 = NewCVSJobMaster workerID conf k → job_Marshal st = Done b → kvc_Get workerID [] k = (Done [mkKeyValue workerID b], k') →
  ∃ s1, Cvs_OnMasterRecovered s0 = (Done tt, s1) ∧ cj_jobStatus (cvs s1) = st ∧
    cj_syncFilesInfo (cvs s1) = (λ _, mkWorkerInfo None true) <$> js_FileInfos st.
Proof.
  intros Hs Hb Hg. eexists. unfold Cvs_OnMasterRecovered, mbind, GoM_bind, gets, on_kv. rewrite Hs. simpl. rewrite Hg. simpl.
  rewrite (job_json_roundtrip _ _ _ Hb). simpl. split; [reflexivity|]. simpl. rewrite !(right_id_L ∅ (∪)). by destruct st.
Qed.

End resume.

(** ** Concrete runs *)

Module Witness.
Import P2P.Witness.

(** A store, and codecs. *)
#[local] Instance mem_kv : KV (gmap string string) := {|
  kvc_Put key val db := (Done tt, <[key := val]> db);
  kvc_Get key _ db := (Done (match db !! key with Some v => [mkKeyValue key v] | None => [] end), db);
  kvc_Delete key _ db := (Done tt, delete key db);
  kvc_Txn _ db := (Done [], db);
|}.

#[local] Instance ref_task_json : CvsTaskJSON := {|
  task_Marshal st := let c := st_TaskConfig st in to_digits (cfg_Idx c, (cfg_SrcHost c, cfg_DstHost c, cfg_DstDir c, cfg_StartLoc c), st_CurrentLoc st, st_Count st);
  task_Unmarshal s := (λ '(i, (a, b, c, d), l, n), CvsTask.mkStatus (mkConfig i a b c d) l n) <$> of_digits s;
|}.

#[local] Instance ref_task_json_laws : CvsTaskJSONLaws.
Proof. split. intros [[i a b c d] l n]. unfold task_Unmarshal, task_Marshal, ref_task_json. by rewrite of_to_digits. Qed.

#[local] Instance ref_job_json : CvsJobJSON := {|
  job_Marshal st := let c := js_Config st in
    Done (to_digits (jc_SrcHost c, jc_SrcDir c, jc_DstHost c, jc_DstDir c, jc_FileNum c, map_to_list ((λ f, (sf_Idx f, sf_Location f)) <$> js_FileInfos st)));
  job_Unmarshal s target :=
    match of_digits s with
    | Some (a, b, c, d, n, l) => (None, mkJobStatus (mkJobConfig a b c d n) (((λ f : Z * string, mkSyncFileInfo f.1 f.2) <$> (list_to_map l : gmap Z (Z * string))) ∪ js_FileInfos target))
    | None => (Some (ErrForeign "invalid character"), target)
    end;
|}.

Lemma ref_job_json_laws : CvsJobJSONLaws.
Proof.
  split. intros [[a b c d n] files] bytes target. cbn [job_Marshal ref_job_json]. intros [= <-]. unfold job_Unmarshal, ref_job_json. rewrite of_to_digits. simpl.
  rewrite list_to_map_to_list, <- map_fmap_compose. do 2 f_equal. f_equal. rewrite (map_fmap_ext _ id), map_fmap_id; [done|]. by intros i [].
Qed.

Definition ids (n : nat) : WorkerID := "new-" +:+ to_digits n.
Definition encode_cfg (c : WorkerConfig CvsTask.Config) : res goerr string := Done "config".
Definition cenv : CvsEnv := mkCvsEnv (λ _, true) ids (λ _ m, (map_to_list m).*1) (λ _, mkIo (Done tt) (Done tt) 0) (λ _, None) (λ _, 0%Z).

#[local] Instance cenv_laws : CvsEnvLaws cenv encode_cfg.
Proof.
  split; [|intros n m; unfold iter_order; reflexivity|by eexists|done|done]. intros n1 n2 He. change (ids n1 = ids n2) in He. apply (inj (String.append "new-")) in He.
  apply (f_equal (of_digits (A := nat))) in He. rewrite !of_to_digits in He. by injection He.
Qed.

Abbreviation CS := (JobMasterSt RefDB (gset string) (JobMaster (gmap string string))).
Definition impl : JobMasterImpl RefDB (gset string) (JobMaster (gmap string string)) := cvs_JobMasterImpl cenv encode_cfg encode_cfg.
Definition conf0 : Config := mkJobConfig "src" "/a" "dst" "/b" 2.
Definition ord0 (m : gmap string (list (option goerr))) : list string := (map_to_list m).*1.
Definition io0 : io_result := mkIo (Done tt) (Done tt) 0.
Definition penv0 : PollEnv := mkPollEnv 0 (λ _, None) None (Done tt).

(** The job is started and ticks once: two workers are created. *)
Definition started (db : RefDB) (kvs : gmap string string) (i : InitEnv (DefaultBaseWorker (gset string) * JobMaster (gmap string string))) : CS :=
  (JobMaster_Init impl ord0 (mkJobInitEnv 0 None (Done tt) io0 i)
     (NewBaseJobMaster (newMessageHandlerManager ∅) "manager" "job" "node" "addr" (Metastore.Witness.job "job") ∅ db (NewCVSJobMaster "job" conf0 kvs))).2.
Definition first : CS := started BaseJobMaster.Witness.db0 ∅ (mkInitEnv (mret tt) (Done []) [] (mret tt) (λ _, [])).
Definition ticked : CS := (JobMaster_Poll impl ord0 penv0 (λ _, None) 10 first).2.

(** The first worker comes online and finishes. *)
Definition h1 : WorkerHandle := runningHandle (ids 1) "ex".
Definition finished1 : CS := (Cvs_OnWorkerOffline h1 (Some (GoErr ErrWorkerFinish "")) ticked).2.

Lemma ticked_run : cvs_run cenv encode_cfg encode_cfg conf0 ∅ ticked.
Proof.
  pose (s0 := NewBaseJobMaster (newMessageHandlerManager (∅ : gset string)) "manager" "job" "node" "addr" (Metastore.Witness.job "job") ∅ BaseJobMaster.Witness.db0 (NewCVSJobMaster "job" conf0 (∅ : gmap string string))).
  pose (s1 := mkMasterSt (ms_base first) (ms_db first) ((ms_impl first).1, cvs (Cvs_InitImpl s0).2)).
  replace ticked with (mkMasterSt (ms_base ticked) (ms_db ticked) ((ms_impl ticked).1, cvs (Cvs_Tick cenv encode_cfg encode_cfg s1).2)) by (vm_compute; reflexivity).
  apply run_base. apply (run_tick _ _ _ _ ∅ s1 (default BaseWorker.Witness.manager0 (bm_workerManager (ms_base first))) _ (Cvs_Tick cenv encode_cfg encode_cfg s1).1); [|vm_compute; reflexivity| |apply surjective_pairing|by vm_compute].
  - apply (run_base _ _ _ _ ∅ (Cvs_InitImpl s0).2), (run_start _ _ _ _ "job" ∅ s0); [reflexivity|].
    assert ((Cvs_InitImpl s0).1 = Done tt) as Hd by (vm_compute; reflexivity). rewrite <- Hd. apply surjective_pairing.
  - assert (cj_syncFilesInfo (cvs s1) = (λ _, mkWorkerInfo None true) <$> cj_syncFilesInfo (cvs s1)) as He by (vm_compute; reflexivity).
    intros idx wi h. rewrite He, lookup_fmap, fmap_Some. by intros (? & _ & ->).
Qed.

Lemma finished1_run : cvs_run cenv encode_cfg encode_cfg conf0 {[1%Z]} finished1.
Proof.
  assert (cj_launchedWorkers (cvs ticked) !! ids 1 = Some 1%Z) as H1 by (vm_compute; reflexivity).
  assert ((Cvs_OnWorkerOffline h1 (Some (GoErr ErrWorkerFinish "")) ticked).1 = Done tt) as H2 by (vm_compute; reflexivity).
  assert (Cvs_OnWorkerOffline h1 (Some (GoErr ErrWorkerFinish "")) ticked = (Done tt, finished1)) as H3 by (rewrite <- H2; apply surjective_pairing).
  pose proof (run_offline cenv encode_cfg encode_cfg conf0 ∅ ticked h1 (Some (GoErr ErrWorkerFinish "")) 1%Z finished1 ticked_run H1 H3) as Hr.
  assert (err_Equal ErrWorkerFinish (Some (GoErr ErrWorkerFinish "")) = true) as He by (vm_compute; reflexivity). rewrite He in Hr. by rewrite (left_id_L ∅ (∪)) in Hr.
Qed.


(** A failover: the new job master reads what the first one persisted, the old worker of the
    first file sends its heartbeat in time, and goes offline later. *)
Definition w0 : WorkerStatus := mkWorkerStatus "" "job" "old" 0 WorkerStatusNormal "" "".
Definition recovered : CS :=
  started (ms_db first) (cj_kv (cvs first))
    (mkInitEnv (mret tt) (Done [w0]) ["old"] (HandleHeartbeat 5 (mkPing 5 "old" 3 false) "ex") (λ _, ["old"])).
Definition again : CS := (JobMaster_Poll impl ord0 penv0 (λ _, None) 10 recovered).2.
Definition lost : CS := (on_base (on_wm (backgroundCheck (100 * Second) ["old"])) again).2.

Definition s0 : CS :=
  NewBaseJobMaster (newMessageHandlerManager ∅) "manager" "job" "node" "addr" (Metastore.Witness.job "job") ∅ (ms_db first) (NewCVSJobMaster "job" conf0 (cj_kv (cvs first))).

Lemma cvs_recovery_forgets_workers_witness :
  (∀ reason, (Cvs_OnWorkerOffline (tombstoneHandle "old") reason lost).1 = Panic) ∧ (JobMaster_Poll impl ord0 penv0 (λ _, None) 10 lost).1 = Panic.
Proof.
  split; [|vm_compute; reflexivity].
  assert ((Cvs_OnMasterRecovered s0).1 = Done tt) as Hd by (vm_compute; reflexivity).
  assert (cvs recovered = cvs (Cvs_OnMasterRecovered s0).2) as H1 by (vm_compute; reflexivity).
  assert (cvs lost = cvs (Cvs_Tick cenv encode_cfg encode_cfg recovered).2) as H2 by (vm_compute; reflexivity).
  apply (cvs_recovery_forgets_workers cenv encode_cfg encode_cfg conf0 "job" (cj_kv (cvs first)) s0 (Cvs_OnMasterRecovered s0).2 lost (tombstoneHandle "old")).
  - reflexivity.
  - rewrite <- Hd. apply surjective_pairing.
  - eapply rtc_l; [right; exact H1|]. eapply rtc_l; [left; exact H2|]. apply rtc_refl.
  - done.
Defined.

(** A task that wrote a line and reported it, and its worker. *)
Definition task1 : Lines * cvsTask := CvsTask.Witness.after (CvsTask.Witness.copying ++ [te_send_count; te_send_locate]).
Definition reported1 : WorkerStatus := mkWorkerStatus "" "job" (ids 2) 0 WorkerStatusNormal "" (Task_Status task1.2).
Definition manager1 : WorkerManager :=
  mkWorkerManager [newWorkerEntry (ids 2) "ex" 0 workerEntryNormal (Some reported1)] {[ids 2 := 0]} workerManagerReady "job" 2 [] None true DefaultTimeoutConfig.
Definition following : CS := mkMasterSt (set_wm manager1 (ms_base ticked)) (ms_db ticked) (ms_impl ticked).

Lemma cvs_replacement_resumes_witness :
  ∃ s' cfg' reported rest, follow_task 0 (runningHandle (ids 2) "ex") following = (Done tt, s') ∧ getTaskConfig (cj_jobStatus (cvs s')) 0 = Some cfg' ∧
    cfg_StartLoc cfg' = last_key "0" reported ∧ ln_dst task1.1 = reported ++ rest ∧ length rest ≤ 1.
Proof.
  apply (cvs_replacement_resumes CvsTask.Witness.cfg0 task1.1 task1.2 following manager1 (runningHandle (ids 2) "ex") 0%Z (mkSyncFileInfo 0 "") reported1).
  - apply (CvsTask.Witness.steps_run CvsTask.Witness.cfg0 (CvsTask.Witness.copying ++ [te_send_count; te_send_locate]) (mkLines [] [] false) (Task_InitImpl (newCvsTask CvsTask.Witness.cfg0))); [constructor|vm_compute; reflexivity].
  - reflexivity.
  - vm_compute. reflexivity.
  - reflexivity.
  - reflexivity.
  - vm_compute. reflexivity.
Defined.

End Witness.
