(* ===== verification/DMWorkers.v ===== *)
(** * The data migration workers ([dm])

    The dump, load and sync workers: each opens the storage of its task, wraps a unit of
    the migration library in a [unitHolder], starts it at the first tick and turns what
    it returns into status reports, retries or the end of the worker. They are the
    business logic of [BaseWorker] and use the broker of [Resource]. The units and the
    automatic resumption belong to the migration library: they are the class [DMUnits].
    The last part composes the workers with the worker manager and the job master they
    report to. *)

From S2P Require Import Prelude Errors Model Dispatch Metastore JobFsm WorkerManager Worker Master ResourcePath Resource P2P BaseWorker.
From S2P Require Import MetaKV DMConfig DMStore DMManagers DMJobMaster.

(** ** The migration library *)

(** [pb.ProcessResult]. *)
Record ProcessResult (E : Type) := mkProcessResult { pr_IsCanceled : bool; pr_Errors : list E }.
Arguments mkProcessResult {E}.
Arguments pr_IsCanceled {E}.
Arguments pr_Errors {E}.

(** [unit.Unit] with its three constructors, the errors of a unit and
    [worker.AutoResumeInfo]; a [ResumeStrategy] is an integer. *)
Class DMUnits `{!dmconfig} (U E A : Type) := {
  NewDumpling : SubTaskConfig → option Handle → U;
  NewLightning : SubTaskConfig → option Handle → U;
  NewSyncer : SubTaskConfig → option Handle → U;
  unit_Init : Go U unit;
  unit_Process : U → U;
  unit_Pause : U → U;
  unit_Resume : U → U;
  unit_Close : U → U;
  JoinProcessErrors : list E → string;
  NewAutoResumeInfo : Time → A;
  ResumeSkip : Z;
  ResumeDispatch : Z;
  CheckResumeSubtask : Time → ProcessResult E → A → Z * A;
}.

(** The strategies are numbered from one. *)
Class DMUnitsLaws `{!dmconfig} (U E A : Type) `{!DMUnits U E A} : Prop := {
  ResumeSkip_positive : (0 < ResumeSkip (U := U) (E := E) (A := A))%Z;
  ResumeDispatch_positive : (0 < ResumeDispatch (U := U) (E := E) (A := A))%Z;
}.

(** ** [unit.go] *)

(** [resultCh] has room for one result. [uh_running] counts the goroutines of the unit,
    [uh_cancelled] is the state of the context they run under. *)
Record unitHolder (U E A : Type) := mkUnitHolder {
  uh_cancelled : bool;
  uh_autoResume : A;
  uh_storageWriteHandle : option Handle;
  uh_workerType : WorkerType;
  uh_task : string;
  uh_unit : U;
  uh_resultCh : list (ProcessResult E);
  uh_lastResult : option (ProcessResult E);
  uh_lastStage : Z;
  uh_processOnce : bool;
  uh_running : nat;
}.
Arguments mkUnitHolder {U E A}.
Arguments uh_cancelled {U E A}.
Arguments uh_autoResume {U E A}.
Arguments uh_storageWriteHandle {U E A}.
Arguments uh_workerType {U E A}.
Arguments uh_task {U E A}.
Arguments uh_unit {U E A}.
Arguments uh_resultCh {U E A}.
Arguments uh_lastResult {U E A}.
Arguments uh_lastStage {U E A}.
Arguments uh_processOnce {U E A}.
Arguments uh_running {U E A}.

Section holder.
Context `{!dmconfig} {U E A : Type} `{!DMUnits U E A}.
Abbreviation Holder := (unitHolder U E A).

Definition set_unit (x : U) (u : Holder) : Holder :=
  mkUnitHolder (uh_cancelled u) (uh_autoResume u) (uh_storageWriteHandle u) (uh_workerType u) (uh_task u) x (uh_resultCh u)
    (uh_lastResult u) (uh_lastStage u) (uh_processOnce u) (uh_running u).
Definition set_lastStage (stage : Z) (u : Holder) : Holder :=
  mkUnitHolder (uh_cancelled u) (uh_autoResume u) (uh_storageWriteHandle u) (uh_workerType u) (uh_task u) (uh_unit u) (uh_resultCh u)
    (uh_lastResult u) stage (uh_processOnce u) (uh_running u).
Definition set_auto (a : A) (u : Holder) : Holder :=
  mkUnitHolder (uh_cancelled u) a (uh_storageWriteHandle u) (uh_workerType u) (uh_task u) (uh_unit u) (uh_resultCh u)
    (uh_lastResult u) (uh_lastStage u) (uh_processOnce u) (uh_running u).
Definition set_results (ch : list (ProcessResult E)) (last : option (ProcessResult E)) (running : nat) (u : Holder) : Holder :=
  mkUnitHolder (uh_cancelled u) (uh_autoResume u) (uh_storageWriteHandle u) (uh_workerType u) (uh_task u) (uh_unit u) ch
    last (uh_lastStage u) (uh_processOnce u) running.

Definition newUnitHolder (now : Time) (workerType : WorkerType) (task : string) (u : U) : Holder :=
  {| uh_cancelled := false; uh_autoResume := NewAutoResumeInfo now; uh_storageWriteHandle := None; uh_workerType := workerType;
     uh_task := task; uh_unit := u; uh_resultCh := []; uh_lastResult := None; uh_lastStage := -1; uh_processOnce := false;
     uh_running := 0 |}.

Definition unitHolder_init : Go Holder unit := λ u,
  let '(r, x) := unit_Init (uh_unit u) in (r, set_unit x u).

(** The unit is started once. *)
Definition lazyProcess (u : Holder) : Holder :=
  if uh_processOnce u then u
  else mkUnitHolder (uh_cancelled u) (uh_autoResume u) (uh_storageWriteHandle u) (uh_workerType u) (uh_task u) (unit_Process (uh_unit u))
         (uh_resultCh u) (uh_lastResult u) (uh_lastStage u) true (S (uh_running u)).

Definition getResult (u : Holder) : option (ProcessResult E) * Holder :=
  match uh_lastResult u with
  | Some r => (Some r, u)
  | None =>
      match uh_resultCh u with
      | r :: ch => (Some r, set_results ch (Some r) (uh_running u) u)
      | [] => (None, u)
      end
  end.

Definition unitHolder_close (u : Holder) : Holder :=
  mkUnitHolder true (uh_autoResume u) (uh_storageWriteHandle u) (uh_workerType u) (uh_task u) (unit_Close (uh_unit u)) (uh_resultCh u)
    (uh_lastResult u) (uh_lastStage u) (uh_processOnce u) (uh_running u).

(** A goroutine of the unit sends its result and returns; it waits while the channel is
    full. *)
Definition unit_returns (r : ProcessResult E) (u : Holder) : option Holder :=
  match uh_running u, uh_resultCh u with
  | S n, [] => Some (set_results [r] (uh_lastResult u) n u)
  | _, _ => None
  end.

End holder.

(** ** Errors with a gRPC status

    What [OpenStorage] returns: the error, the status code of its cause, and whether
    [errors.Trace] has wrapped the cause. *)

Definition Canceled : codes := OtherCode 1.
Definition Unknown : codes := OtherCode 2.
Definition Unavailable : codes := OtherCode 14.

Record openErr := mkOpenErr { oe_err : goerr; oe_status : option codes; oe_traced : bool }.

(** [status.Code] looks at the outermost error only. *)
Definition status_Code (e : openErr) : codes := if oe_traced e then Unknown else default Unknown (oe_status e).
Definition errors_Cause (e : openErr) : openErr := mkOpenErr (oe_err e) (oe_status e) false.

Definition is_Unavailable (c : codes) : bool := match c with OtherCode n => bool_decide (n = 14%Z) | _ => false end.

(** What a call of [OpenStorage] meets. *)
Record OpenEnv := mkOpenEnv { oe_answer : res rpcErr QueryResourceResponse; oe_storage : option goerr }.

(** A call under a cancelled context. *)
Definition cancelledOpen : OpenEnv := mkOpenEnv (Fail (RpcStatus Canceled "context canceled")) None.

(** The error of [OpenStorage]: a status other than [NotFound] is traced by
    [checkForExistingResource]. *)
Definition open_error (rid : ResourceID) (env : OpenEnv) (err : goerr) : openErr :=
  match ParseResourcePath rid, oe_answer env with
  | Done _, Fail (RpcStatus NotFound _) => mkOpenErr err None false
  | Done _, Fail (RpcStatus c _) => mkOpenErr err (Some c) true
  | _, _ => mkOpenErr err None false
  end.

(** ** The workers *)

Inductive dmKind : Type := dumpWorker | loadWorker | syncWorker.

(** The three structs are the same; [mw_ExtStorage] is the field of [cfg] that the
    worker sets, [mw_disk] what the broker of the executor has. [unitHolder] is nil until
    [InitImpl] has opened the storage. *)
Record dmWorker `{!dmconfig} (U E A : Type) := mkDMWorker {
  mw_kind : dmKind;
  mw_cfg : SubTaskConfig;
  mw_ExtStorage : option Handle;
  mw_unitHolder : option (unitHolder U E A);
  mw_disk : LocalFileManager * FS;
}.
Arguments mkDMWorker {_ U E A}.
Arguments mw_kind {_ U E A}.
Arguments mw_cfg {_ U E A}.
Arguments mw_ExtStorage {_ U E A}.
Arguments mw_unitHolder {_ U E A}.
Arguments mw_disk {_ U E A}.

(** What the start meets: the answers to the calls of [OpenStorage], after which the
    context is cancelled, and the time. *)
Record InitEnv := mkInitEnv { ie_opens : list OpenEnv; ie_now : Time }.

(** What a tick meets: the status writer, the answer to the call of [Persist], and the
    time. *)
Record TickEnv := mkTickEnv { te_io : io_result; te_persist : res rpcErr unit; te_now : Time }.

Section workers.
Context `{!dmconfig, !TaskJSON} {DB Srv U E A : Type} `{!DMUnits U E A}.
(** The operating system and the executor of the broker. *)
Variables (os : OSEnv) (executorID : ExecutorID).
Abbreviation Holder := (unitHolder U E A).
Abbreviation DMW := (dmWorker U E A).
Abbreviation St := (WorkerSt DB Srv DMW).

Definition newDumpWorker (disk : LocalFileManager * FS) (cfg : SubTaskConfig) : DMW := mkDMWorker dumpWorker cfg None None disk.
Definition newLoadWorker (disk : LocalFileManager * FS) (cfg : SubTaskConfig) : DMW := mkDMWorker loadWorker cfg None None disk.
Definition newSyncWorker (disk : LocalFileManager * FS) (cfg : SubTaskConfig) : DMW := mkDMWorker syncWorker cfg None None disk.

Definition set_impl (w : DMW) (s : St) : St := mkWorkerSt (wk_err s) (wk_base s) (wk_db s) w.
Definition with_holder (u : Holder) (w : DMW) : DMW := mkDMWorker (mw_kind w) (mw_cfg w) (mw_ExtStorage w) (Some u) (mw_disk w).
Definition with_disk (disk : LocalFileManager * FS) (w : DMW) : DMW :=
  mkDMWorker (mw_kind w) (mw_cfg w) (mw_ExtStorage w) (mw_unitHolder w) disk.
Definition with_storage (h : Handle) (w : DMW) : DMW := mkDMWorker (mw_kind w) (mw_cfg w) (Some h) (mw_unitHolder w) (mw_disk w).
Definition set_holder (u : Holder) (s : St) : St := set_impl (with_holder u (wk_impl s)) s.

(** *** [InitImpl] *)

(** [OpenStorage] of the base worker. *)
Definition Worker_OpenStorage (rid : ResourceID) (env : OpenEnv) : GoM openErr St Handle := λ s,
  let '(r, disk) := Resource.OpenStorage os executorID (oe_answer env) (oe_storage env) (bw_id (wk_base s)) (bw_masterID (wk_base s)) rid
                      (mw_disk (wk_impl s)) in
  (match r with Done h => Done h | Fail err => Fail (open_error rid env err) | Panic => Panic end,
   set_impl (with_disk disk (wk_impl s)) s).

(** The loop that opens the storage again after a second. [view] is what the code
    applies to the error before it asks for its status. *)
Fixpoint openRetry (view : openErr → openErr) (rid : ResourceID) (envs : list OpenEnv) : GoM openErr St Handle := λ s,
  match envs with
  | [] => Worker_OpenStorage rid cancelledOpen s
  | env :: envs' =>
      match Worker_OpenStorage rid env s with
      | (Fail err, s') => if is_Unavailable (status_Code (view err)) then openRetry view rid envs' s' else (Fail err, s')
      | out => out
      end
  end.

(** The storage of the task is opened and kept in the configuration. *)
Definition openExtStorage (view : openErr → openErr) (envs : list OpenEnv) : Go St Handle := λ s,
  let rid := NewDMResourceID (st_Name (mw_cfg (wk_impl s))) (st_SourceID (mw_cfg (wk_impl s))) in
  match openRetry view rid envs s with
  | (Done h, s') => (Done h, set_impl (with_storage h (wk_impl s')) s')
  | (Fail err, s') => (Fail (oe_err err), s')
  | (Panic, s') => (Panic, s')
  end.

(** The unit is made, wrapped and initialised; [writes] is the storage it persists. *)
Definition initHolder (now : Time) (workerType : WorkerType) (new : SubTaskConfig → option Handle → U) (writes : option Handle) : Go St unit := λ s,
  let w := wk_impl s in
  let u := newUnitHolder now workerType (st_SourceID (mw_cfg w)) (new (mw_cfg w) (mw_ExtStorage w)) in
  let u := mkUnitHolder (uh_cancelled u) (uh_autoResume u) writes (uh_workerType u) (uh_task u) (uh_unit u) (uh_resultCh u)
             (uh_lastResult u) (uh_lastStage u) (uh_processOnce u) (uh_running u) in
  let '(r, u') := unitHolder_init u in
  (r, set_holder u' s).

Definition dump_InitImpl (env : InitEnv) : Go St unit :=
  h ← openExtStorage errors_Cause (ie_opens env);
  initHolder (ie_now env) WorkerDMDump NewDumpling (Some h).

Definition load_InitImpl (env : InitEnv) : Go St unit :=
  _ ← openExtStorage id (ie_opens env);
  initHolder (ie_now env) WorkerDMLoad NewLightning None.

Definition sync_InitImpl (env : InitEnv) : Go St unit :=
  s ← get;
  _ ← (if bool_decide (st_Mode (mw_cfg (wk_impl s)) = ModeAll) then _ ← openExtStorage id (ie_opens env); mret tt else mret tt);
  initHolder (ie_now env) WorkerDMSync NewSyncer None.

(** *** [tryUpdateStatus] *)

(** [json.Marshal] of the status with the given stage. *)
Definition statusBytes (u : Holder) (stage : Z) : string + string :=
  json_Marshal (TSDefault (mkDefaultTaskStatus (uh_workerType u) (uh_task u) stage)).

(** No result yet: the status is reported when the task first runs. *)
Definition reportRunning (env : TickEnv) (u : Holder) : Go St unit := λ s,
  if bool_decide (uh_lastStage u = 0%Z) then (Done tt, s) else
  match statusBytes u StageRunning with
  | inl err => (Fail (ErrForeign err), s)
  | inr b =>
      match Base_UpdateStatus (te_io env) WorkerStatusNormal "" b s with
      | (Done _, s') => (Done tt, set_holder (set_lastStage 0 u) s')
      | (Fail _, s') => (Done tt, s')
      | (Panic, s') => (Panic, s')
      end
  end.

(** The task is finished: its storage is persisted, at the next tick when that fails. *)
Definition finishTask (env : TickEnv) (u : Holder) : Go St unit := λ s,
  match statusBytes u StageFinished with
  | inl err => (Fail (ErrForeign err), s)
  | inr b =>
      let exit := Base_Exit (te_io env) WorkerStatusFinished "" b None in
      match uh_storageWriteHandle u with
      | None => exit s
      | Some h =>
          match Persist h (te_persist env) (mw_disk (wk_impl s)) with
          | (Done _, disk) => exit (set_impl (with_disk disk (wk_impl s)) s)
          | (Fail _, disk) => (Done tt, set_impl (with_disk disk (wk_impl s)) s)
          | (Panic, disk) => (Panic, set_impl (with_disk disk (wk_impl s)) s)
          end
      end
  end.

(** The task failed: wait, resume or give up, as the library decides. *)
Definition resumeTask (env : TickEnv) (u : Holder) (result : ProcessResult E) : Go St unit := λ s,
  let '(strategy, auto) := CheckResumeSubtask (te_now env) result (uh_autoResume u) in
  let u1 := set_auto auto u in
  let s1 := set_holder u1 s in
  let msg := JoinProcessErrors (pr_Errors result) in
  if bool_decide (strategy = ResumeSkip) then
    if bool_decide (uh_lastStage u1 = ResumeSkip) then (Done tt, s1) else
    let s2 := set_holder (set_lastStage ResumeSkip (set_unit (unit_Pause (uh_unit u1)) u1)) s1 in
    match statusBytes u1 StagePaused with
    | inl err => (Fail (ErrForeign err), s2)
    | inr b => logged_only (Base_UpdateStatus (te_io env) WorkerStatusError msg b) s2
    end
  else if bool_decide (strategy = ResumeDispatch) then
    let u2 := set_results (uh_resultCh u1) None (S (uh_running u1)) (set_lastStage ResumeDispatch (set_unit (unit_Resume (unit_Pause (uh_unit u1))) u1)) in
    (Done tt, set_holder u2 s1)
  else
    match statusBytes u1 StagePaused with
    | inl err => (Fail (ErrForeign err), s1)
    | inr b => Base_Exit (te_io env) WorkerStatusError msg b None s1
    end.

Definition tryUpdateStatus (env : TickEnv) : Go St unit := λ s,
  match mw_unitHolder (wk_impl s) with
  | None => (Panic, s)
  | Some u =>
      let '(result, u1) := getResult u in
      let s1 := set_holder u1 s in
      match result with
      | None => reportRunning env u1 s1
      | Some r => match pr_Errors r with [] => finishTask env u1 s1 | _ => resumeTask env u1 r s1 end
      end
  end.

(** *** The other methods *)

Definition Worker_lazyProcess : Go St unit := λ s,
  match mw_unitHolder (wk_impl s) with
  | None => (Panic, s)
  | Some u => (Done tt, set_holder (lazyProcess u) s)
  end.

Definition dm_Tick (env : TickEnv) : Go St unit := _ ← Worker_lazyProcess; tryUpdateStatus env.

Definition dm_CloseImpl : Go St unit := λ s,
  match mw_unitHolder (wk_impl s) with
  | None => (Panic, s)
  | Some u => (Done tt, set_holder (unitHolder_close u) s)
  end.

Definition dm_InitImpl (env : InitEnv) : Go St unit := λ s,
  match mw_kind (wk_impl s) with
  | dumpWorker => dump_InitImpl env s
  | loadWorker => load_InitImpl env s
  | syncWorker => sync_InitImpl env s
  end.

(** The worker as the business logic of a base worker. Messages of the master and its
    failover are only logged. *)
Definition dm_WorkerImpl (ienv : InitEnv) (tenv : TickEnv) : WorkerImpl St := {|
  WorkerImpl_InitImpl := dm_InitImpl ienv;
  WorkerImpl_Tick := dm_Tick tenv;
  OnMasterFailover := mret tt;
  OnMasterMessage _ _ := mret tt;
  WorkerImpl_CloseImpl := dm_CloseImpl;
|}.

End workers.

(** ** Specification *)

Definition kind_type (k : dmKind) : WorkerType :=
  match k with dumpWorker => WorkerDMDump | loadWorker => WorkerDMLoad | syncWorker => WorkerDMSync end.

(** What [encoding/json] does with the structs of a task: fields that are missing keep
    their zero value, and there is no value in an empty text. *)
Class TaskJSONDefaults `{!TaskJSON} : Prop := {
  json_default_dump s b : json_Marshal (TSDefault s) = inr b → json_dump b = inr (mkDumpStatus s 0 0 0 0 0);
  json_default_load s b : json_Marshal (TSDefault s) = inr b → json_load b = inr (mkLoadStatus s 0 0 "" "" "");
  json_default_sync s b : json_Marshal (TSDefault s) = inr b → json_sync b = inr (mkSyncStatus s 0 0 0 "" "" "" "" [] false "" 0 "" "");
  json_no_value : ∃ err, json_unit "" = inl err;
}.

Section spec.
Context `{!dmconfig, !TaskJSON} {DB Srv U E A : Type} `{!DMUnits U E A, !Gorm DB, !HandlerRegistrar Srv}.
Variables (os : OSEnv) (executorID : ExecutorID) (ord : gmap string (list (option goerr)) → list string).
(** The ids of the worker's master and of the worker. *)
Variable key : MasterID * WorkerID.
Abbreviation Holder := (unitHolder U E A).
Abbreviation DMW := (dmWorker U E A).
Abbreviation St := (WorkerSt DB Srv DMW).
Abbreviation impl := (dm_WorkerImpl os executorID).

(** The steps of a worker that runs: those of its base worker, which may tick it, and
    the return of a goroutine of its unit. *)
Inductive dm_step (s : St) : St → Prop :=
| dm_poll ienv tenv penv : dm_step s (Worker_Poll (impl ienv tenv) ord penv s).2
| dm_heartbeat mono sent : dm_step s (heartbeatTick mono sent s).2
| dm_watchdog ienv tenv mono : dm_step s (watchdogTick (impl ienv tenv) mono s).2
| dm_pong sender msg : dm_step s (pongHandler sender msg s).2
| dm_statusChange value : dm_step s (statusChangeHandler value s).2
| dm_returns r u u' : mw_unitHolder (wk_impl s) = Some u → unit_returns r u = Some u' → dm_step s (set_holder u' s).

(** The stage that goes with a status code. *)
Definition stage_of_code (code : Z) : option Z :=
  if bool_decide (code = WorkerStatusNormal) then Some StageRunning
  else if bool_decide (code = WorkerStatusFinished) then Some StageFinished
  else if bool_decide (code = WorkerStatusError) then Some StagePaused
  else None.

(** A status of the worker: the initial one, without task, or a report on its task. *)
Definition report_ok (k : dmKind) (task : string) (code : Z) (ext : string) : Prop :=
  (code = WorkerStatusInit ∧ ext = "") ∨
  ∃ stage, stage_of_code code = Some stage ∧ json_Marshal (TSDefault (mkDefaultTaskStatus (kind_type k) task stage)) = inr ext.

(** A status that says [Finished] says so when [fin]. *)
Definition reported (k : dmKind) (task : string) (fin : Prop) (ws : WorkerStatus) : Prop :=
  report_ok k task (ws_Code ws) (ws_ExtBytes ws) ∧ (ws_Code ws = WorkerStatusFinished → fin).

(** The storage the holder writes to is persisted. *)
Definition persisted (u : Holder) (disk : LocalFileManager * FS) : Prop :=
  ∀ h, uh_storageWriteHandle u = Some h → isPersisted (h_workerID h) (h_name h) disk.1 = true.

(** One run of the unit: it runs, its result waits, or its result is being handled. *)
Record holder_ok (k : dmKind) (cfg : SubTaskConfig) (u : Holder) : Prop := mkHolderOk {
  ho_type : uh_workerType u = kind_type k;
  ho_task : uh_task u = st_SourceID cfg;
  ho_writes : k = dumpWorker → is_Some (uh_storageWriteHandle u);
  ho_once : uh_running u + length (uh_resultCh u) + (if uh_lastResult u is Some _ then 1 else 0) = (if uh_processOnce u then 1 else 0);
}.

(** The worker's row keeps the initial status, whatever it reports. *)
Record status_ok (k : dmKind) (task : string) (fin : Prop) (st : StatusState) : Prop := mkStatusOk {
  so_aliased : aliased st;
  so_row : ss_rows st !! key = Some (mkWorkerStatus "" key.1 key.2 0 WorkerStatusInit "" "");
  so_current ws : ss_store st !! ss_workerStatus st = Some ws → reported k task fin ws;
  so_sent msg ws : msg ∈ ss_sent st → wsm_Status msg = Some ws → reported k task fin ws;
}.

Record dm_inv (k : dmKind) (cfg : SubTaskConfig) (s : St) : Prop := mkDMInv {
  di_kind : mw_kind (wk_impl s) = k;
  di_cfg : mw_cfg (wk_impl s) = cfg;
  di_rest : ∃ u, mw_unitHolder (wk_impl s) = Some u ∧ holder_ok k cfg u ∧
    status_ok k (st_SourceID cfg) (persisted u (mw_disk (wk_impl s))) (bw_status (wk_base s));
}.

(** A call that concerns neither the task nor the status. *)
Definition quiet {X} (f : Go St X) : Prop := ∀ s, wk_impl (f s).2 = wk_impl s ∧ bw_status (wk_base (f s).2) = bw_status (wk_base s).

(** *** Lemmas *)

Lemma quiet_inv {X} (f : Go St X) k cfg s : quiet f → dm_inv k cfg s → dm_inv k cfg (f s).2.
Proof. intros Hq [? ? ?]. destruct (Hq s) as [Hi Hb]. split; by rewrite ?Hi, ?Hb. Qed.

Lemma quiet_bind {X Y} (f : Go St X) (g : X → Go St Y) : quiet f → (∀ x, quiet (g x)) → quiet (f ≫= g).
Proof.
  intros Hf Hg s. unfold mbind, GoM_bind. destruct (Hf s) as [Q1 Q2]. destruct (f s) as [[x|e|] s1]; [|done..]. simpl in *.
  destruct (Hg x s1) as [Q3 Q4]. by rewrite Q3, Q4.
Qed.

Lemma quiet_onError err : quiet (Worker_onError err).
Proof. intros s. unfold Worker_onError. by destruct (ErrCenter_OnError _ _). Qed.

Lemma quiet_on_exit {X} (f : Go workerExitController X) : quiet (on_exit f).
Proof. intros s. unfold on_exit. destruct (exit_view s); [|done]. by destruct (f _). Qed.

Lemma quiet_on_handlers {X} (f : Go (messageHandlerManagerImpl Srv) X) : quiet (on_handlers f).
Proof. intros s. unfold on_handlers. by destruct (f _). Qed.

Lemma quiet_RouterTick ienv tenv penv : quiet (RouterTick (impl ienv tenv) penv).
Proof.
  intros s. unfold RouterTick. destruct (pe_tickErr penv); [done|]. destruct (bw_messageRouter _) as [r|]; [|done].
  destruct (mr_buffer r) as [|[topic msg] b]; [done|]. unfold routeMessage. by destruct (pe_pool penv).
Qed.

Lemma quiet_doPoll ienv tenv penv : quiet (Worker_doPoll (impl ienv tenv) ord penv).
Proof.
  unfold Worker_doPoll. apply quiet_bind; [apply quiet_on_exit|]. intros _. apply quiet_bind; [apply quiet_on_handlers|]. intros _.
  apply quiet_RouterTick.
Qed.

Lemma quiet_heartbeat mono sent : quiet (heartbeatTick mono sent).
Proof.
  intros s. unfold heartbeatTick. destruct (negb _); [done|]. destruct (exit_view s); [|done].
  destruct (SendHeartBeat _ _ _ _) as [[?|e|] ping]; [done| |done].
  set (s1 := set_base _ s). pose proof (quiet_onError e s1) as [Q1 Q2].
  destruct (Worker_onError e s1) as [[?|?|] s2]; simpl in *; by rewrite Q1, Q2.
Qed.

Lemma quiet_watchdog ienv tenv mono : quiet (watchdogTick (impl ienv tenv) mono).
Proof.
  assert (quiet (refreshMaster (impl ienv tenv))) as Hr.
  { intros s. unfold refreshMaster. destruct (bw_masterClient _); [|done]. unfold on_worker_db. destruct (Load _ _) as [[meta|e|] db]; [|done..].
    set (s1 := mkWorkerSt _ _ _ _). set (f := λ c : workerExitController, _). destruct (quiet_on_exit f s1) as [Q1 Q2].
    destruct (on_exit f s1) as [[?|?|] s2]; [|done..]. case_bool_decide; simpl in *; by rewrite Q1, Q2. }
  intros s. unfold watchdogTick. destruct (negb _); [done|]. destruct (bw_masterClient _) as [m|]; [|done].
  case_bool_decide; [done|]. destruct (_ && _).
  - destruct (Hr s) as [Q1 Q2]. destruct (refreshMaster _ s) as [[?|e|] s1]; [done| |done]. simpl in *.
    set (s2 := set_base _ s1). pose proof (quiet_onError e s2) as [Q3 Q4]. by rewrite Q3, Q4.
  - set (f := λ c : workerExitController, _). destruct (quiet_on_exit f s) as [Q1 Q2].
    destruct (on_exit f s) as [[?|?|] s1]; [|done..]. simpl in *. set (s2 := set_base _ s1).
    pose proof (quiet_onError (GoErr ErrWorkerSuicide (mc_masterID m)) s2) as [Q3 Q4]. by rewrite Q3, Q4.
Qed.

Lemma quiet_pong sender msg : quiet (pongHandler sender msg).
Proof. apply quiet_on_exit. Qed.

Lemma quiet_statusChange value : quiet (statusChangeHandler value).
Proof. intros s. unfold statusChangeHandler. destruct value; [|done]. by destruct (bw_messageRouter _). Qed.

Lemma Writer_ok k task (fin fin' : Prop) io code msg ext st :
  status_ok k task fin st → (fin → fin') → report_ok k task code ext → (code = WorkerStatusFinished → fin') →
  status_ok k task fin' (Writer_UpdateStatus io (ss_workerStatus st) (mutate_status (with_report code msg ext) st)).2.
Proof.
  intros [Ha Hr Hc Hs] Himp Hok Hfin. destruct (Writer_aliased io (with_report code msg ext) st Ha) as (Ha' & Hrows & _ & Hp & Hst & ws & Hws & Hsent).
  assert (∀ ws', reported k task fin ws' → reported k task fin' ws') as Hmono by (intros ws' [? ?]; split; auto).
  split; [done|by rewrite Hrows| |].
  - intros ws'. rewrite Hp, Hst, list_lookup_alter_eq, Hws. intros [= <-]. by split.
  - intros m ws' Hin Hm. rewrite Hsent in Hin. destruct (io_send io) as [[]|e|]; [|by eapply Hmono, Hs..].
    apply elem_of_app in Hin as [Hin| ->%list_elem_of_singleton]; [by eapply Hmono, Hs|]. simpl in Hm. injection Hm as <-. by split.
Qed.

Lemma UpdateStatus_ok k task (fin fin' : Prop) io code msg ext (s : St) :
  status_ok k task fin (bw_status (wk_base s)) → (fin → fin') → report_ok k task code ext → (code = WorkerStatusFinished → fin') →
  let s' := (Base_UpdateStatus io code msg ext s).2 in wk_impl s' = wk_impl s ∧ status_ok k task fin' (bw_status (wk_base s')).
Proof.
  intros Hs Himp Hok Hfin. pose proof (Writer_ok k task fin fin' io code msg ext _ Hs Himp Hok Hfin) as Hw.
  unfold Base_UpdateStatus, on_status, Worker_UpdateStatus. destruct (bw_masterClient _).
  - by destruct (Writer_UpdateStatus _ _ _).
  - split; [done|]. destruct Hs as [? ? Hc Hs]. split; [done|done|..]; intros; [edestruct Hc|edestruct Hs]; try done; split; auto.
Qed.

Lemma Exit_ok k task (fin fin' : Prop) io code msg ext (s : St) :
  status_ok k task fin (bw_status (wk_base s)) → (fin → fin') → report_ok k task code ext → (code = WorkerStatusFinished → fin') →
  let s' := (Base_Exit io code msg ext None s).2 in wk_impl s' = wk_impl s ∧ status_ok k task fin' (bw_status (wk_base s')).
Proof.
  intros Hs Himp Hok Hfin. pose proof (Writer_ok k task fin fin' io code msg ext _ Hs Himp Hok Hfin) as Hw.
  unfold Base_Exit, on_status, Exit. destruct (bw_masterClient _).
  - by destruct (Writer_UpdateStatus _ _ _) as [[?|?|] ?].
  - split; [done|]. destruct Hs as [? ? Hc Hs]. split; [done|done|..]; intros; [edestruct Hc|edestruct Hs]; try done; split; auto.
Qed.

Lemma dm_inv_holder k cfg s : dm_inv k cfg s → ∃ u, mw_unitHolder (wk_impl s) = Some u ∧ holder_ok k cfg u.
Proof. intros [_ _ (u & ? & ? & _)]. by exists u. Qed.

Lemma set_holder_inv k cfg s u u' :
  dm_inv k cfg s → mw_unitHolder (wk_impl s) = Some u → holder_ok k cfg u' → uh_storageWriteHandle u' = uh_storageWriteHandle u →
  dm_inv k cfg (set_holder u' s).
Proof.
  intros [? ? (u0 & Hu & _ & Hs)] Hu' Hok Hw. split; [done..|]. exists u'. split_and!; [done..|]. simpl.
  rewrite Hu in Hu'. injection Hu' as ->. unfold persisted. by rewrite Hw.
Qed.

Lemma statusBytes_ok k cfg (u : Holder) code stage b :
  holder_ok k cfg u → statusBytes u stage = inr b → stage_of_code code = Some stage → report_ok k (st_SourceID cfg) code b.
Proof. intros [Ht Hk _ _] Hb Hc. right. exists stage. split; [done|]. unfold statusBytes in Hb. by rewrite Ht, Hk in Hb. Qed.

(** A report that does not say [Finished]. *)
Lemma UpdateStatus_inv k cfg s u io code msg stage b :
  dm_inv k cfg s → mw_unitHolder (wk_impl s) = Some u → statusBytes u stage = inr b → stage_of_code code = Some stage →
  code ≠ WorkerStatusFinished →
  wk_impl (Base_UpdateStatus io code msg b s).2 = wk_impl s ∧ dm_inv k cfg (Base_UpdateStatus io code msg b s).2.
Proof.
  intros [? ? (u0 & Hu & Hok & Hs)] Hu' Hb Hc Hne. rewrite Hu in Hu'. injection Hu' as ->.
  destruct (UpdateStatus_ok k (st_SourceID cfg) _ _ io code msg b s Hs (λ x, x)) as [Hi Hs']; [by eapply statusBytes_ok|done|].
  split; [done|]. split; rewrite Hi; [done..|]. by exists u.
Qed.

Lemma Exit_inv k cfg s u io code msg stage b :
  dm_inv k cfg s → mw_unitHolder (wk_impl s) = Some u → statusBytes u stage = inr b → stage_of_code code = Some stage →
  (code = WorkerStatusFinished → persisted u (mw_disk (wk_impl s))) →
  dm_inv k cfg (Base_Exit io code msg b None s).2.
Proof.
  intros [? ? (u0 & Hu & Hok & Hs)] Hu' Hb Hc Hfin. rewrite Hu in Hu'. injection Hu' as ->.
  destruct (Exit_ok k (st_SourceID cfg) _ (persisted u (mw_disk (wk_impl s))) io code msg b s Hs (λ x, x)) as [Hi Hs']; [by eapply statusBytes_ok|done|].
  split; rewrite Hi; [done..|]. by exists u.
Qed.

Lemma reportRunning_inv k cfg env u s :
  dm_inv k cfg s → mw_unitHolder (wk_impl s) = Some u → holder_ok k cfg u → dm_inv k cfg (reportRunning env u s).2.
Proof.
  intros Hi Hu Hok. unfold reportRunning. case_bool_decide; [done|]. destruct (statusBytes u StageRunning) as [e|b] eqn:Hb; [done|].
  destruct (UpdateStatus_inv k cfg s u (te_io env) WorkerStatusNormal "" StageRunning b) as [Hk Hi']; [done..|].
  destruct (Base_UpdateStatus _ _ _ _ s) as [[?|?|] s'] eqn:Hs; [|done..]. cbn [snd] in *.
  apply (set_holder_inv k cfg s' u); [done|by rewrite Hk| |done]. by destruct Hok.
Qed.

Lemma persist_inv k cfg s u h disk created :
  dm_inv k cfg s → mw_unitHolder (wk_impl s) = Some u → uh_storageWriteHandle u = Some h →
  (Persist h created (mw_disk (wk_impl s))).2 = disk →
  dm_inv k cfg (set_impl (with_disk disk (wk_impl s)) s) ∧ (created = Done tt → persisted u disk).
Proof.
  intros [? ? (u0 & Hu & Hok & Hs)] Hu' Hh <-. rewrite Hu in Hu'. injection Hu' as ->.
  destruct (mw_disk (wk_impl s)) as [m fs] eqn:Hd. split.
  - split; [done..|]. exists u. split_and!; [done..|]. simpl. destruct Hs as [Ha Hr Hc Hse].
    assert (persisted u (m, fs) → persisted u (Persist h created (m, fs)).2) as Hmono.
    { intros Hp h' Hh'. specialize (Hp h' Hh'). destruct created as [[]|e|]; simpl in *; [|done..]. rewrite isPersisted_SetPersisted, Hp. apply orb_true_r. }
    split; [done|done|..]; intros; [edestruct Hc|edestruct Hse]; try done; split; auto.
  - intros ->. intros h' Hh'. rewrite Hh in Hh'. injection Hh' as <-. simpl. rewrite isPersisted_SetPersisted, bool_decide_eq_true_2; done.
Qed.

Lemma finishTask_inv k cfg env u s :
  dm_inv k cfg s → mw_unitHolder (wk_impl s) = Some u → dm_inv k cfg (finishTask env u s).2.
Proof.
  intros Hi Hu. unfold finishTask. destruct (statusBytes u StageFinished) as [e|b] eqn:Hb; [done|].
  destruct (uh_storageWriteHandle u) as [h|] eqn:Hh.
  2:{ eapply Exit_inv; [done..|]. intros _ h. by rewrite Hh. }
  destruct (Persist h (te_persist env) (mw_disk (wk_impl s))) as [r disk] eqn:Hp.
  destruct (persist_inv k cfg s u h disk (te_persist env)) as [Hi' Hf]; [done..|by rewrite Hp|].
  assert (r = te_persist env) as -> by (destruct (mw_disk _), (te_persist env) as [[]|?|]; simpl in Hp; by simplify_eq).
  destruct (te_persist env) as [[]|?|]; [|done..]. eapply Exit_inv; [done..|]. intros _. by apply Hf.
Qed.

Lemma resumeTask_inv k cfg env u r s :
  dm_inv k cfg s → mw_unitHolder (wk_impl s) = Some u → holder_ok k cfg u → uh_lastResult u = Some r → dm_inv k cfg (resumeTask env u r s).2.
Proof.
  intros Hi Hu Hok Hlast. unfold resumeTask. destruct (CheckResumeSubtask _ _ _) as [strategy auto].
  set (u1 := set_auto auto u). set (s1 := set_holder u1 s).
  assert (holder_ok k cfg u1) as Hok1 by (by destruct Hok).
  assert (dm_inv k cfg s1) as Hi1 by (by apply (set_holder_inv k cfg s u)).
  case_bool_decide; [case_bool_decide; [done|]|case_bool_decide].
  - set (u2 := set_lastStage _ _). assert (dm_inv k cfg (set_holder u2 s1)) as Hi2 by (apply (set_holder_inv k cfg s1 u1); [done..| |done]; by destruct Hok).
    destruct (statusBytes u1 StagePaused) as [e|b] eqn:Hb; [done|]. unfold logged_only.
    destruct (UpdateStatus_inv k cfg (set_holder u2 s1) u2 (te_io env) WorkerStatusError (JoinProcessErrors (pr_Errors r)) StagePaused b) as [_ Hi3];
      [done|done|exact Hb|done|done|]. by destruct (Base_UpdateStatus _ _ _ _ _) as [[?|?|] ?].
  - apply (set_holder_inv k cfg s1 u1); [done..| |done]. destruct Hok as [? ? ? Ho]. split; [done..|]. simpl. rewrite Hlast in Ho. simpl in Ho. lia.
  - destruct (statusBytes u1 StagePaused) as [e|b] eqn:Hb; [done|]. by eapply (Exit_inv k cfg s1 u1).
Qed.

Lemma tryUpdateStatus_inv k cfg env s : dm_inv k cfg s → dm_inv k cfg (tryUpdateStatus env s).2.
Proof.
  intros Hi. destruct (dm_inv_holder k cfg s Hi) as (u & Hu & Hok). unfold tryUpdateStatus. rewrite Hu.
  destruct (getResult u) as [result u1] eqn:Hg.
  assert (holder_ok k cfg u1 ∧ uh_storageWriteHandle u1 = uh_storageWriteHandle u ∧ uh_lastResult u1 = result) as (Hok1 & Hw & Hl).
  { unfold getResult in Hg. destruct (uh_lastResult u) as [r|] eqn:Hl; [by simplify_eq|]. destruct (uh_resultCh u) as [|r ch] eqn:Hch; simplify_eq; [done|].
    destruct Hok as [? ? ? Ho]. split_and!; [|done|done]. split; [done..|]. simpl. rewrite Hl, Hch in Ho. simpl in Ho. lia. }
  set (s1 := set_holder u1 s). assert (dm_inv k cfg s1) as Hi1 by (by apply (set_holder_inv k cfg s u)).
  destruct result as [r|]; [|by apply reportRunning_inv]. destruct (pr_Errors r); [by apply finishTask_inv|by apply resumeTask_inv].
Qed.

Lemma dm_Tick_inv k cfg env s : dm_inv k cfg s → dm_inv k cfg (dm_Tick env s).2.
Proof.
  intros Hi. destruct (dm_inv_holder k cfg s Hi) as (u & Hu & Hok). unfold dm_Tick, Worker_lazyProcess, mbind, GoM_bind. rewrite Hu.
  apply tryUpdateStatus_inv, (set_holder_inv k cfg s u); [done..| |]; unfold lazyProcess.
  - destruct (uh_processOnce u) eqn:Ho; [done|]. destruct Hok as [? ? ? Hn]. split; [done..|]. simpl. rewrite Ho in Hn. lia.
  - by destruct (uh_processOnce u).
Qed.

Lemma dm_step_inv k cfg s s' : dm_step s s' → dm_inv k cfg s → dm_inv k cfg s'.
Proof.
  intros [ienv tenv penv|mono sent|ienv tenv mono|sender msg|value|r u u' Hu Hr] Hi.
  - unfold Worker_Poll. pose proof (quiet_inv _ k cfg s (quiet_doPoll ienv tenv penv) Hi) as Hp.
    destruct (Worker_doPoll _ _ _ s) as [[[]|e|] s1]; cbn [snd] in Hp; [|by destruct (err_Equal _ _)|done].
    cbn [WorkerImpl_Tick dm_WorkerImpl]. pose proof (dm_Tick_inv k cfg tenv s1 Hp) as Ht.
    destruct (dm_Tick tenv s1) as [[[]|e|] s2]; [done|by apply quiet_inv, Ht; apply quiet_onError|done].
  - by apply quiet_inv; [apply quiet_heartbeat|].
  - by apply quiet_inv; [apply quiet_watchdog|].
  - by apply quiet_inv; [apply quiet_pong|].
  - by apply quiet_inv; [apply quiet_statusChange|].
  - destruct (dm_inv_holder k cfg s Hi) as (u0 & Hu0 & Hok). rewrite Hu in Hu0. injection Hu0 as <-.
    unfold unit_returns in Hr. destruct (uh_running u) as [|n] eqn:Hn; [done|]. destruct (uh_resultCh u) eqn:Hch; simplify_eq.
    apply (set_holder_inv k cfg s u); [done..| |done]. destruct Hok as [? ? ? Ho]. split; [done..|]. simpl. rewrite Hn, Hch in Ho. simpl in Ho. lia.
Qed.

(** *** Start-up *)

(** Opening a storage changes the disk and the configuration's storage only. *)
Definition only_storage (s s' : St) : Prop :=
  wk_base s' = wk_base s ∧ wk_err s' = wk_err s ∧ mw_kind (wk_impl s') = mw_kind (wk_impl s) ∧ mw_cfg (wk_impl s') = mw_cfg (wk_impl s) ∧
  mw_unitHolder (wk_impl s') = mw_unitHolder (wk_impl s).

Lemma openRetry_storage view rid envs s : only_storage s (openRetry os executorID view rid envs s).2.
Proof.
  assert (∀ env s, only_storage s (Worker_OpenStorage os executorID rid env s).2) as Hone.
  { intros env s0. unfold Worker_OpenStorage. by destruct (Resource.OpenStorage _ _ _ _ _ _ _ _) as [? ?]. }
  revert s. induction envs as [|env envs IH]; intros s; [apply Hone|]. cbn [openRetry]. specialize (Hone env s).
  destruct (Worker_OpenStorage _ _ _ env s) as [[h|e|] s1]; [done| |done]. destruct (is_Unavailable _); [|done].
  specialize (IH s1). unfold only_storage in *. cbn [snd] in *. intuition congruence.
Qed.

Lemma openExtStorage_storage view envs s : only_storage s (openExtStorage os executorID view envs s).2.
Proof.
  unfold openExtStorage. set (rid := NewDMResourceID _ _). pose proof (openRetry_storage view rid envs s) as Hr.
  by destruct (openRetry _ _ _ _ _ s) as [[h|e|] s1].
Qed.

Lemma initHolder_ok k cfg now tp new writes (s s' : St) :
  mw_kind (wk_impl s) = k → mw_cfg (wk_impl s) = cfg → tp = kind_type k → (k = dumpWorker → is_Some writes) →
  initHolder now tp new writes s = (Done tt, s') →
  wk_base s' = wk_base s ∧ mw_kind (wk_impl s') = k ∧ mw_cfg (wk_impl s') = cfg ∧ ∃ u, mw_unitHolder (wk_impl s') = Some u ∧ holder_ok k cfg u.
Proof.
  intros Hk Hc -> Hw. unfold initHolder, unitHolder_init. simpl. destruct (unit_Init _) as [r x]. intros [= -> <-]. simpl.
  split_and!; [done..|]. eexists. split; [done|]. split; simpl; [done|by rewrite Hc|done|done].
Qed.

Lemma InitImpl_ok k cfg env (s s' : St) :
  mw_kind (wk_impl s) = k → mw_cfg (wk_impl s) = cfg → dm_InitImpl os executorID env s = (Done tt, s') →
  wk_base s' = wk_base s ∧ mw_kind (wk_impl s') = k ∧ mw_cfg (wk_impl s') = cfg ∧ ∃ u, mw_unitHolder (wk_impl s') = Some u ∧ holder_ok k cfg u.
Proof.
  intros Hk Hc. unfold dm_InitImpl. rewrite Hk.
  assert (∀ view now tp new f (s1 : St), mw_kind (wk_impl s1) = k → mw_cfg (wk_impl s1) = cfg → wk_base s1 = wk_base s → tp = kind_type k →
    (k = dumpWorker → ∀ h, is_Some (f h)) →
    (openExtStorage os executorID view (ie_opens env) ≫= (λ h, initHolder now tp new (f h))) s1 = (Done tt, s') →
    wk_base s' = wk_base s ∧ mw_kind (wk_impl s') = k ∧ mw_cfg (wk_impl s') = cfg ∧ ∃ u, mw_unitHolder (wk_impl s') = Some u ∧ holder_ok k cfg u) as Hopen.
  { intros view now tp new f s1 Hk1 Hc1 Hb1 Ht Hf Hrun. apply bind_inv_Done in Hrun as (h & s2 & Q1 & Hrun).
    pose proof (openExtStorage_storage view (ie_opens env) s1) as (Q2 & _ & Q3 & Q4 & _). rewrite Q1 in Q2, Q3, Q4. cbn [snd] in *.
    apply (initHolder_ok k cfg) in Hrun as (Q5 & ?); [|congruence|congruence|done|auto]. split; [congruence|done]. }
  destruct k; intros Hrun.
  - by apply (Hopen _ _ _ _ Some) in Hrun.
  - by apply (Hopen _ _ _ _ (λ _, None)) in Hrun.
  - unfold sync_InitImpl in Hrun. apply bind_inv_Done in Hrun as (s0 & s1 & [= <- <-] & Hrun). case_bool_decide.
    + apply bind_inv_Done in Hrun as ([] & s2 & Q1 & Hrun). apply bind_inv_Done in Q1 as (h & s3 & Q1 & Q2). injection Q2 as <-.
      apply (Hopen id (ie_now env) WorkerDMSync NewSyncer (λ _, None) s); [done..|]. unfold mbind, GoM_bind. by rewrite Q1.
    + apply bind_inv_Done in Hrun as ([] & s2 & [= <-] & Hrun). by apply (initHolder_ok syncWorker cfg) in Hrun.
Qed.

Lemma doPreInit_still mono submitTime (s s' : St) :
  doPreInit ord mono submitTime s = (Done tt, s') →
  wk_impl s' = wk_impl s ∧ (ss_lastStatus (bw_status (wk_base s)) = None → bw_status (wk_base s') = bw_status (wk_base s)) ∧
  bw_masterClient (wk_base s') ≠ None.
Proof.
  intros Hrun. unfold doPreInit in Hrun. apply bind_inv_Done in Hrun as ([] & s1 & [= <-] & Hrun).
  apply bind_inv_Done in Hrun as ([] & s2 & Q2 & Hrun). apply initMessageHandlers_spec in Q2 as (h & -> & _).
  unfold mbind, GoM_bind, get, on_worker_db in Hrun. simpl in Hrun. destruct (Load _ _) as [[meta|e|] db] eqn:Hl; [|done|done].
  simpl in Hrun. injection Hrun as <-. simpl. split_and!; [done| |done]. intros <-. by destruct (bw_status _).
Qed.

(** The state a worker is made with. *)
Definition made (k : dmKind) (cfg : SubTaskConfig) (s : St) : Prop :=
  mw_kind (wk_impl s) = k ∧ mw_cfg (wk_impl s) = cfg ∧
  ∃ rows, bw_status (wk_base s) = NewBaseWorker_status key.1 key.2 rows.

Lemma doPostInit_ok k task fin rows upsert io st :
  doPostInit upsert io (NewBaseWorker_status key.1 key.2 rows) = (Done tt, st) → status_ok k task fin st.
Proof.
  intros Hrun. destruct upsert as [[]|?|]; [|done..]. destruct (doPostInit_eq _ _ _ _ _ Hrun) as [Ha Hr].
  unfold doPostInit, NewBaseWorker_status, Writer_UpdateStatus, mutate_status in Hrun; simpl in Hrun.
  destruct (io_persist io) as [[]|e|]; simpl in Hrun; [|done|done]. destruct (io_send io) as [[]|e|]; [|done|done].
  injection Hrun as <-. split; [done|by destruct key|..]; simpl.
  - intros ws [= <-]. split; [by left|done].
  - intros msg ws ->%list_elem_of_singleton. intros [= <-]. split; [by left|done].
Qed.

Lemma Init_inv k cfg ienv tenv mono submitTime upsert io s0 s1 :
  made k cfg s0 → Worker_Init (impl ienv tenv) ord mono submitTime upsert io s0 = (Done tt, s1) → dm_inv k cfg s1.
Proof.
  intros (Hk & Hc & rows & Hst) Hrun. unfold Worker_Init in Hrun.
  apply bind_inv_Done in Hrun as ([] & s2 & Q1 & Hrun). apply bind_inv_Done in Hrun as ([] & s3 & Q2 & Hrun).
  apply doPreInit_still in Q1 as (Hi & Hs & Hm). rewrite Hst in Hs. specialize (Hs eq_refl).
  cbn [WorkerImpl_InitImpl dm_WorkerImpl] in Q2. apply (InitImpl_ok k cfg) in Q2 as (Hb & Hk3 & Hc3 & u & Hu & Hok); [|by rewrite Hi..].
  unfold Worker_doPostInit, on_status in Hrun. rewrite Hb, Hs in Hrun. destruct (bw_masterClient _); [|done].
  destruct (doPostInit _ _ _) as [[[]|?|] st] eqn:Hp; [|done..]. injection Hrun as <-. split; [done..|]. exists u.
  split_and!; [done..|]. simpl. by eapply doPostInit_ok.
Qed.

(** A worker that was made, initialised and has run for a while. *)
Definition dm_runs (k : dmKind) (cfg : SubTaskConfig) (s : St) : Prop :=
  ∃ ienv tenv mono submitTime upsert io s0 s1,
    made k cfg s0 ∧ Worker_Init (impl ienv tenv) ord mono submitTime upsert io s0 = (Done tt, s1) ∧ rtc dm_step s1 s.

Lemma dm_runs_inv k cfg s : dm_runs k cfg s → dm_inv k cfg s.
Proof.
  intros (ienv & tenv & mono & sub & up & io & s0 & s1 & Hm & Hi & Hs). apply Init_inv with (k := k) (cfg := cfg) in Hi; [|done].
  induction Hs as [|x y z Hxy _ IH]; [done|]. by eapply IH, dm_step_inv.
Qed.

End spec.

(** *** Opening the storage *)

Section opening.
Context `{!dmconfig} {DB Srv U E A : Type} `{!DMUnits U E A}.
Variables (os : OSEnv) (executorID : ExecutorID).
Abbreviation St := (WorkerSt DB Srv (dmWorker U E A)).

Definition unavailable (msg : string) : OpenEnv := mkOpenEnv (Fail (RpcStatus Unavailable msg)) None.

(** A status of the resource manager other than [NotFound] leaves the disk as it is. *)
Lemma OpenStorage_refused rid name c msg storage (s : St) :
  ParseResourcePath rid = Done (ResourceTypeLocalFile, name) → c ≠ NotFound →
  Worker_OpenStorage os executorID rid (mkOpenEnv (Fail (RpcStatus c msg)) storage) s = (Fail (mkOpenErr (ErrForeign msg) (Some c) true), s).
Proof.
  intros Hp Hc. unfold Worker_OpenStorage, Resource.OpenStorage, open_error. simpl. rewrite Hp. unfold openLocal, checkForExistingResource.
  assert (set_impl (with_disk (mw_disk (wk_impl s)) (wk_impl s)) s = s) as Hs by (by destruct s as [? ? ? []]).
  by destruct c; simpl; rewrite ?Hs.
Qed.

Lemma openRetry_unavailable view rid name msg envs (s : St) :
  ParseResourcePath rid = Done (ResourceTypeLocalFile, name) →
  openRetry os executorID view rid (unavailable msg :: envs) s =
  (if is_Unavailable (status_Code (view (mkOpenErr (ErrForeign msg) (Some Unavailable) true))) then openRetry os executorID view rid envs s
   else (Fail (mkOpenErr (ErrForeign msg) (Some Unavailable) true), s)).
Proof. intros Hp. cbn [openRetry]. unfold unavailable. by rewrite (OpenStorage_refused rid name). Qed.

End opening.

(** *** A master that recovers *)

(** Other goroutines change the manager through messages only. *)
Definition is_message (op : wm_op) : bool := match op with op_heartbeat _ _ _ | op_status _ => true | _ => false end.
Definition messages (ops : list wm_op) : Go WorkerManager unit := λ m, (Done tt, foldl (λ acc op, (run_op op acc).2) m ops).

(** The entries stay, with their ids and statuses. *)
Definition keeps_status (m m' : WorkerManager) : Prop :=
  workerEntries m' = workerEntries m ∧
  ∀ p e, wm_heap m !! p = Some e → ∃ e', wm_heap m' !! p = Some e' ∧ we_id e' = we_id e ∧ we_status e' = we_status e.

(** The workers of the map have the statuses of a table. *)
Definition statuses_of (table : gmap WorkerID WorkerStatus) (m : WorkerManager) : Prop :=
  ∀ id p, workerEntries m !! id = Some p → ∃ e, wm_heap m !! p = Some e ∧ we_id e = id ∧ we_status e = table !! id.

(** The handles as the job master of a migration reads them. *)
Definition reads_handles (m : WorkerManager) (hs : gmap WorkerID DMHandle) : Prop :=
  ∀ id, match WorkerManager.GetWorkers m !! id with
        | None => hs !! id = None
        | Some h => ∃ ws, handle_Status m h = Done (Some ws) ∧
            hs !! id = Some (mkDMHandle (handle_ID h) (match h with tombstoneHandle _ => true | _ => false end) (ws_ExtBytes ws))
        end.

Lemma keeps_status_refl m : keeps_status m m.
Proof. split; [done|]. intros p e He. by exists e. Qed.

Lemma keeps_status_trans m1 m2 m3 : keeps_status m1 m2 → keeps_status m2 m3 → keeps_status m1 m3.
Proof.
  intros [Ha Hb] [Hc Hd]. split; [congruence|]. intros p e He. destruct (Hb p e He) as (e2 & He2 & ? & ?).
  destruct (Hd p e2 He2) as (e3 & ? & ? & ?). exists e3. split_and!; [done|congruence..].
Qed.

Lemma keeps_status_insert m m' p e e' :
  workerEntries m' = workerEntries m → wm_heap m' = <[p := e']> (wm_heap m) → wm_heap m !! p = Some e → we_id e' = we_id e →
  we_status e' = we_status e → keeps_status m m'.
Proof.
  intros Hen Hh He Hid Hst. split; [done|]. intros q f Hf. rewrite Hh. destruct (decide (q = p)) as [->|Hne].
  - exists e'. rewrite list_lookup_insert_eq by (by eapply lookup_lt_Some). split; [done|]. split; congruence.
  - rewrite list_lookup_insert_ne by done. by exists f.
Qed.

Lemma message_keeps_status op m : is_message op = true → keeps_status m (run_op op m).2.
Proof.
  assert (∀ ev m, keeps_status m (reporting (enqueueEvent ev) m).2) as Henq.
  { intros ev m0. unfold reporting, enqueueEvent. case_bool_decide; (split; [done|]); intros p e He; by exists e. }
  destruct op as [now msg node|msg| | | | | | |]; try done; intros _; simpl.
  - unfold HandleHeartbeat. wm_unfold. case_bool_decide; [apply keeps_status_refl|]. unfold checkMasterEpochMatch.
    case_bool_decide; [apply keeps_status_refl|]. destruct (negb _); [apply keeps_status_refl|].
    destruct (workerEntries m !! _) as [p|]; [|apply keeps_status_refl]. destruct (wm_heap m !! p) as [e0|] eqn:He; [|apply keeps_status_refl].
    set (e := SetExpireTime _ _). assert (we_id e = we_id e0 ∧ we_status e = we_status e0) as [Hid Hst] by (unfold e; by destruct (ping_IsFinished msg)).
    set (m1 := set_heap _ m). assert (keeps_status m m1) as H1 by (by eapply (keeps_status_insert m m1 p e0 e)).
    assert (wm_heap m1 !! p = Some e) as He1 by (unfold m1; simpl; rewrite list_lookup_insert_eq; [done|by eapply lookup_lt_Some]).
    assert (∀ e2 node ex, MarkAsOnline e node ex = Some e2 → keeps_status m1 (set_heap (<[p := e2]> (wm_heap m1)) m1)) as Hon.
    { intros e2 node' ex Hm. eapply (keeps_status_insert m1 _ p e e2); [done|done|done|..]; unfold MarkAsOnline in Hm; case_match; by simplify_eq. }
    case_bool_decide; (destruct (negb _); [done|]); (destruct (MarkAsOnline _ _ _) as [e2|] eqn:Hm; [|done]); eapply keeps_status_trans;
      try exact H1; eapply keeps_status_trans; try (by eapply Hon); [|apply Henq].
    destruct (allReady _); [|apply keeps_status_refl]. unfold close_allWorkersReady. destruct (allWorkersReady _); [apply keeps_status_refl|].
    split; [done|]. intros q f Hf. by exists f.
  - unfold OnWorkerStatusUpdateMessage. wm_unfold. unfold checkMasterEpochMatch. case_bool_decide; [apply keeps_status_refl|].
    destruct (negb _); [apply keeps_status_refl|]. destruct (workerEntries m !! _) as [p|]; [|apply keeps_status_refl].
    destruct (wm_heap m !! p); [apply Henq|apply keeps_status_refl].
Qed.

Lemma statuses_keep table m m' : keeps_status m m' → statuses_of table m → statuses_of table m'.
Proof.
  intros [He Hk] Hs id p Hp. rewrite He in Hp. destruct (Hs id p Hp) as (e & Hh & <- & Hst). destruct (Hk p e Hh) as (e' & ? & ? & ?).
  exists e'. split_and!; [done|congruence..].
Qed.

Lemma messages_keep ops m : Forall is_message ops → keeps_status m (messages ops m).2.
Proof.
  intros Hops. revert m. induction Hops as [|op ops Hop _ IH]; intros m; [apply keeps_status_refl|].
  eapply keeps_status_trans; [|apply (IH (run_op op m).2)]. apply message_keeps_status. by destruct (is_message op).
Qed.

Lemma load_status table order m :
  statuses_of table m → statuses_of table (foldl (λ acc id, loadPersisted table id acc) m order).
Proof.
  revert m. induction order as [|id order IH]; intros m Hs; [done|]. simpl. apply IH. unfold loadPersisted.
  destruct (table !! id) as [ws|] eqn:Ht; [|done]. case_bool_decide; [done|]. intros id' p Hp. simpl in *.
  destruct (decide (id' = id)) as [->|Hne].
  - rewrite lookup_insert_eq in Hp. injection Hp as <-. exists (newWaitingWorkerEntry id (Some ws)).
    rewrite list_lookup_middle by done. by rewrite Ht.
  - rewrite lookup_insert_ne in Hp by done. destruct (Hs id' p Hp) as (e & He & ?). exists e. split; [|done].
    by apply lookup_app_l_Some.
Qed.

(** A recovered manager has the statuses of the table, whatever messages came in while
    it waited: the statuses they carry are applied by the first tick. *)
Lemma recovered_status resp order ops order2 masterID epoch timeouts m id h :
  Forall is_message ops →
  InitAfterRecover (Done resp) order (messages ops) order2 (NewWorkerManager masterID epoch false timeouts) = (Done tt, m) →
  WorkerManager.GetWorkers m !! id = Some h → handle_Status m h = Done (LoadAllWorkers resp !! id).
Proof.
  intros Hops Hrun Hg. assert (statuses_of (LoadAllWorkers resp) m) as Hs.
  { set (m1 := foldl (λ acc id, loadPersisted (LoadAllWorkers resp) id acc) (NewWorkerManager masterID epoch false timeouts) order).
    assert (statuses_of (LoadAllWorkers resp) m1) as Q1 by (apply load_status; intros id' p Hp; simpl in Hp; by rewrite lookup_empty in Hp).
    unfold InitAfterRecover, InitAfterRecover_load in Hrun. wm_unfold. simpl in Hrun. fold m1 in Hrun.
    destruct (bool_decide (size (workerEntries m1) = 0)); [by injection Hrun as <-|]. simpl in Hrun.
    set (m2 := foldl _ _ ops) in Hrun. assert (statuses_of (LoadAllWorkers resp) m2) as Q2 by (by eapply statuses_keep; [apply (messages_keep ops)|]).
    destruct (InitAfterRecover_finish_run (order2 m2) m2) as (h' & Hf & Hh).
    { intros id' p Hp. destruct (Q2 id' p Hp) as (e & ? & ? & _). by exists e. }
    rewrite Hf in Hrun. injection Hrun as <-. intros id' p Hp. simpl in Hp |- *. destruct (Q2 id' p Hp) as (e & He & Hid & Hst).
    rewrite (Hh p), He. simpl. eexists. split; [done|]. unfold after_recover. by repeat case_match. }
  unfold WorkerManager.GetWorkers in Hg. rewrite map_lookup_imap in Hg. destruct (workerEntries m !! id) as [p|] eqn:Hp; [|done]. simpl in Hg.
  destruct (Hs id p Hp) as (e & He & _ & Hst). rewrite He in Hg. injection Hg as <-. unfold handle_Status.
  assert (handle_ID (if IsTombstone e then tombstoneHandle id else runningHandle id (we_executorID e)) = id) as -> by (by destruct (IsTombstone e)).
  by rewrite Hp, He, Hst.
Qed.

(** *** The job master on a status it cannot read *)

(** Messages add events at the end of the queue. *)
Lemma message_queue op m : is_message op = true → ∃ l, eventQueue (run_op op m).2 = eventQueue m ++ l.
Proof.
  assert (∀ ev m, ∃ l, eventQueue (reporting (enqueueEvent ev) m).2 = eventQueue m ++ l) as Henq.
  { intros ev m0. unfold reporting, enqueueEvent. case_bool_decide; simpl; [by eexists|]. exists []. by rewrite app_nil_r. }
  assert (∀ m m', eventQueue m' = eventQueue m → ∃ l, eventQueue m' = eventQueue m ++ l) as Hsame.
  { intros m0 m' ->. exists []. by rewrite app_nil_r. }
  destruct op as [now msg node|msg| | | | | | |]; try done; intros _; simpl.
  - unfold HandleHeartbeat. wm_unfold. case_bool_decide; [by apply Hsame|]. unfold checkMasterEpochMatch.
    case_bool_decide; [by apply Hsame|]. destruct (negb _); [by apply Hsame|].
    destruct (workerEntries m !! _) as [p|]; [|by apply Hsame]. destruct (wm_heap m !! p) as [e0|]; [|by apply Hsame].
    case_bool_decide; (destruct (negb _); [by apply Hsame|]); (destruct (MarkAsOnline _ _ _) as [e2|]; [|by apply Hsame]).
    + destruct (allReady _); [|by apply Hsame]. unfold close_allWorkersReady. destruct (allWorkersReady _); by apply Hsame.
    + match goal with |- context [reporting (enqueueEvent ?ev) ?m'] => destruct (Henq ev m') as [l Hl] end. by exists l.
  - unfold OnWorkerStatusUpdateMessage. wm_unfold. unfold checkMasterEpochMatch. case_bool_decide; [by apply Hsame|].
    destruct (negb _); [by apply Hsame|]. destruct (workerEntries m !! _) as [p|]; [|by apply Hsame].
    destruct (wm_heap m !! p); [apply Henq|by apply Hsame].
Qed.

Lemma messages_queue ops m : Forall is_message ops → ∃ l, eventQueue (messages ops m).2 = eventQueue m ++ l.
Proof.
  intros Hops. revert m. induction Hops as [|op ops Hop _ IH]; intros m; [exists []; by rewrite app_nil_r|]. simpl.
  destruct (message_queue op m) as [l1 Q1]; [by destruct (is_message op)|]. destruct (IH (run_op op m).2) as [l2 Q2]. exists (l1 ++ l2).
  unfold messages in Q2. simpl in Q2. by rewrite Q2, Q1, <- app_assoc.
Qed.

Section unreadable.
Context `{!dmconfig} {DB C M : Type} {kv : KV DB} `{!Toml Job, !CheckpointDB C, !DMEnv M, !TaskJSON}.
Context (clk : nat → Time) (order : ∀ V : Type, nat → gmap string V → list string).

Definition unreadable (h : DMHandle) : Prop := wh_Tombstone h = false ∧ ∃ e, UnmarshalTaskStatus (wh_ExtBytes h) = Fail e.

Lemma Unmarshal_no_panic b : UnmarshalTaskStatus b ≠ Panic.
Proof. unfold UnmarshalTaskStatus, of_json. by repeat case_match. Qed.

Lemma init_statuses_unreadable hs acc h : h ∈ hs → unreadable h → ∃ e, init_statuses hs acc = Fail e.
Proof.
  intros Hin [Ht [e He]]. revert acc. induction hs as [|h' hs IH]; intros acc; [by inversion Hin|]. simpl.
  apply elem_of_cons in Hin as [<-|Hin].
  - destruct acc as [[ts ws] m]. simpl. rewrite Ht, He. by exists e.
  - destruct (init_status h' acc) as [acc'|e'|] eqn:Hi; [by apply IH|by exists e'|]. exfalso. destruct acc as [[ts ws] m]. simpl in Hi.
    destruct (wh_Tombstone h'); [done|]. destruct (UnmarshalTaskStatus (wh_ExtBytes h')) eqn:Hx; [done..|]. by apply Unmarshal_no_panic in Hx.
Qed.

Lemma recovery_unreadable GW (j : JobMaster DB C M) id h :
  (∀ V n (m : gmap string V), iter_order m (order V n m)) → GW (dm_env (jm_dm j)) !! id = Some h → unreadable h →
  ∃ e j', JM_OnMasterRecovered clk order GW j = (Fail e, j').
Proof.
  intros Hord Hg Hu. unfold JM_OnMasterRecovered, createComponents, getInitStatus, mbind, GoM_bind, get, range, lift.
  set (ks := order _ _ _). destruct (init_statuses_unreadable (omap (λ k, GW (dm_env (jm_dm j)) !! k) ks) ([], [], ∅) h) as [e ->]; [|done|by eexists _, _].
  apply list_elem_of_omap. exists id. split; [|done]. apply (iter_order_elem _ _ _ (Hord _ _ _)). by exists h.
Qed.

(** The callback of the worker manager for a worker that comes online. *)
Definition online (h : WorkerHandle) : Go (WorkerManager * JobMaster DB C M) unit := λ '(m, j),
  match handle_Status m h with
  | Done (Some ws) =>
      let '(r, j') := JM_OnWorkerOnline (mkDMHandle (handle_ID h) (match h with tombstoneHandle _ => true | _ => false end) (ws_ExtBytes ws)) j in
      (r, (m, j'))
  | _ => (Panic, (m, j))
  end.

End unreadable.

(** ** Theorems *)

(** A unit runs once at a time. Before its first tick a worker has no run; from then on
    exactly one of these holds: a goroutine of the unit runs, its result waits in the
    channel, or its result is being handled. So a unit is resumed only after its last
    run has returned, its result is never lost, and the goroutine never blocks on the
    channel. *)
Theorem unit_runs_one_at_a_time `{!dmconfig, !TaskJSON} {DB Srv U E A} `{!DMUnits U E A, !Gorm DB, !HandlerRegistrar Srv}
    os executorID ord key k cfg (s : WorkerSt DB Srv (dmWorker U E A)) :
  dm_runs os executorID ord key k cfg s →
  ∃ u, mw_unitHolder (wk_impl s) = Some u ∧
    uh_running u + length (uh_resultCh u) + (if uh_lastResult u is Some _ then 1 else 0) = (if uh_processOnce u then 1 else 0) ∧
    (0 < uh_running u → ∀ r, is_Some (unit_returns r u)).
Proof.
  intros [_ _ (u & Hu & [_ _ _ Ho] & _)]%dm_runs_inv. exists u. split_and!; [done..|]. intros Hr r. unfold unit_returns.
  destruct (uh_running u) as [|n], (uh_resultCh u); simpl in *; [lia|lia|by eexists|]. destruct (uh_processOnce u), (uh_lastResult u); lia.
Qed.

(** C18: a dump is announced when it can be read. Whenever a dump worker has told its
    master that it finished, the storage it wrote to is marked as persisted on its
    executor, whatever reports and calls failed on the way, so the load worker that is
    created next finds it there. *)
Theorem dump_finished_is_persisted `{!dmconfig, !TaskJSON} {DB Srv U E A} `{!DMUnits U E A, !Gorm DB, !HandlerRegistrar Srv}
    os executorID ord key cfg (s : WorkerSt DB Srv (dmWorker U E A)) msg ws :
  dm_runs os executorID ord key dumpWorker cfg s →
  msg ∈ ss_sent (bw_status (wk_base s)) → wsm_Status msg = Some ws → ws_Code ws = WorkerStatusFinished →
  ∃ u h, mw_unitHolder (wk_impl s) = Some u ∧ uh_storageWriteHandle u = Some h ∧
    isPersisted (h_workerID h) (h_name h) (mw_disk (wk_impl s)).1 = true.
Proof.
  intros [_ _ (u & Hu & [_ _ Hw _] & [_ _ _ Hs])]%dm_runs_inv Hin Hm Hf. destruct (Hw eq_refl) as [h Hh]. exists u, h. split_and!; [done..|].
  destruct (Hs msg ws Hin Hm) as [_ Hp]. by apply Hp.
Qed.

(** The job master reads what the workers report. Every status a worker has sent is
    the initial one, which names no task and which [UnmarshalTaskStatus] refuses, or is
    decoded by the job master to the unit of the worker, its task and the stage that
    goes with the status code. *)
Theorem reports_are_read `{!dmconfig, !TaskJSON, !TaskJSONLaws, !TaskJSONDefaults} {DB Srv U E A} `{!DMUnits U E A, !Gorm DB, !HandlerRegistrar Srv}
    os executorID ord key k cfg (s : WorkerSt DB Srv (dmWorker U E A)) msg ws :
  dm_runs os executorID ord key k cfg s → msg ∈ ss_sent (bw_status (wk_base s)) → wsm_Status msg = Some ws →
  (ws_Code ws = WorkerStatusInit ∧ ∃ e, UnmarshalTaskStatus (ws_ExtBytes ws) = Fail e) ∨
  ∃ st, UnmarshalTaskStatus (ws_ExtBytes ws) = Done st ∧ GetUnit st = kind_type k ∧ GetTask st = st_SourceID cfg ∧
    stage_of_code (ws_Code ws) = Some (GetStage st).
Proof.
  intros [_ _ (u & _ & _ & [_ _ _ Hs])]%dm_runs_inv Hin Hm. destruct (Hs msg ws Hin Hm) as [[[Hc He]|(stage & Hc & Hb)] _].
  - left. split; [done|]. rewrite He. unfold UnmarshalTaskStatus. destruct json_no_value as [e ->]. by eexists.
  - right. unfold UnmarshalTaskStatus. rewrite (json_unit_law _ _ Hb). unfold GetUnit. simpl.
    destruct k; simpl; eexists; (split; [cbn; rewrite ?(json_default_dump _ _ Hb), ?(json_default_load _ _ Hb), ?(json_default_sync _ _ Hb); reflexivity|]); done.
Qed.

(** Only the dump worker waits for the resource manager. Its start tries again as long
    as the manager is unavailable; the load and the sync worker look for the status on
    the error that [errors.Trace] has wrapped, do not find it, and fail at the first such
    answer. *)
Theorem only_dump_waits_for_manager `{!dmconfig} {DB Srv U E A} `{!DMUnits U E A} os executorID rid name msgs msg envs
    (s : WorkerSt DB Srv (dmWorker U E A)) :
  ParseResourcePath rid = Done (ResourceTypeLocalFile, name) →
  openRetry os executorID errors_Cause rid ((unavailable <$> msgs) ++ envs) s = openRetry os executorID errors_Cause rid envs s ∧
  ∃ e, openRetry os executorID id rid (unavailable msg :: envs) s = (Fail e, s) ∧ oe_status e = Some Unavailable.
Proof.
  intros Hp. split.
  - induction msgs as [|m msgs IH]; [done|].
    change ((unavailable <$> m :: msgs) ++ envs) with (unavailable m :: (unavailable <$> msgs) ++ envs).
    by rewrite (openRetry_unavailable _ _ _ _ name).
  - rewrite (openRetry_unavailable _ _ _ _ name) by done. by eexists.
Qed.

(** A worker whose storage cannot be opened takes its executor down. Its start
    returns an error before the unit is wrapped, and closing the worker, which the task
    runner does outside of its recovery from panics, dereferences the missing wrapper. An
    unavailable resource manager is enough for a load worker. *)
Theorem failed_start_panics_on_close `{!dmconfig, !TaskJSON} {DB Srv U E A} `{!DMUnits U E A, !Gorm DB, !HandlerRegistrar Srv}
    os executorID ord ienv tenv mono submitTime upsert io (s0 s1 : WorkerSt DB Srv (dmWorker U E A)) name c msg storage envs :
  let cfg := mw_cfg (wk_impl s0) in
  ParseResourcePath (NewDMResourceID (st_Name cfg) (st_SourceID cfg)) = Done (ResourceTypeLocalFile, name) →
  mw_unitHolder (wk_impl s0) = None → (mw_kind (wk_impl s0) = syncWorker → st_Mode cfg = ModeAll) →
  ie_opens ienv = mkOpenEnv (Fail (RpcStatus c msg)) storage :: envs → c ≠ NotFound →
  (mw_kind (wk_impl s0) = dumpWorker → is_Unavailable c = false) → doPreInit ord mono submitTime s0 = (Done tt, s1) →
  Worker_Init (dm_WorkerImpl os executorID ienv tenv) ord mono submitTime upsert io s0 = (Fail (ErrForeign msg), s1) ∧
  (Worker_Close (dm_WorkerImpl os executorID ienv tenv) ord s1).1 = Panic.
Proof.
  intros cfg Hp Hh Hm He Hc Hd Hpre. pose proof (doPreInit_still ord _ _ _ _ Hpre) as (Hi & _ & _). split.
  2:{ unfold Worker_Close, mbind, GoM_bind. cbn [WorkerImpl_CloseImpl dm_WorkerImpl]. unfold dm_CloseImpl. by rewrite Hi, Hh. }
  assert (∀ view, (view = errors_Cause → is_Unavailable c = false) → view = errors_Cause ∨ view = id →
    openExtStorage os executorID view (ie_opens ienv) s1 = (Fail (ErrForeign msg), s1)) as Hopen.
  { intros view Hv Hor. unfold openExtStorage. rewrite Hi, He. cbn [openRetry]. rewrite (OpenStorage_refused _ _ _ name) by done.
    destruct Hor as [->| ->]; [|done]. cbn [errors_Cause status_Code oe_traced oe_status default]. unfold id. by rewrite (Hv eq_refl). }
  unfold Worker_Init. rewrite (bind_Done _ _ _ _ _ Hpre). unfold mbind, GoM_bind. cbn [WorkerImpl_InitImpl dm_WorkerImpl]. unfold dm_InitImpl.
  rewrite Hi. destruct (mw_kind (wk_impl s0)) eqn:Hk.
  - unfold dump_InitImpl, mbind, GoM_bind. by rewrite Hopen by auto.
  - unfold load_InitImpl, mbind, GoM_bind. rewrite Hopen; [done| |by right]. intros Heq. exfalso. by apply (f_equal (λ f, oe_traced (f (mkOpenErr (ErrForeign "") None true)))) in Heq.
  - unfold sync_InitImpl, mbind, GoM_bind, get. rewrite Hi, bool_decide_eq_true_2 by auto. rewrite Hopen; [done| |by right].
    intros Heq. exfalso. by apply (f_equal (λ f, oe_traced (f (mkOpenErr (ErrForeign "") None true)))) in Heq.
Qed.

(** C17: a migration does not survive its job master. Whatever a worker has reported, its
    row in the metastore still has the initial status, which names no task; a master
    that recovers loads that row and applies no report before its first tick. So while a
    worker of the job lives, [OnMasterRecovered] returns an error. *)
Theorem recovery_fails_with_live_workers `{!dmconfig, !TaskJSON, !TaskJSONDefaults} {WDB Srv U E A} `{!DMUnits U E A, !Gorm WDB, !HandlerRegistrar Srv}
    {DB C M} {kv : KV DB} `{!Toml Job, !CheckpointDB C, !DMEnv M}
    os executorID ord key k cfg (s : WorkerSt WDB Srv (dmWorker U E A)) resp order ops order2 epoch timeouts m ex clk iter GW (j : JobMaster DB C M) :
  dm_runs os executorID ord key k cfg s → LoadAllWorkers resp !! key.2 = ss_rows (bw_status (wk_base s)) !! key →
  Forall is_message ops →
  InitAfterRecover (Done resp) order (messages ops) order2 (NewWorkerManager key.1 epoch false timeouts) = (Done tt, m) →
  WorkerManager.GetWorkers m !! key.2 = Some (runningHandle key.2 ex) → reads_handles m (GW (dm_env (jm_dm j))) →
  (∀ V n (m : gmap string V), iter_order m (iter V n m)) →
  ∃ e j', JM_OnMasterRecovered clk iter GW j = (Fail e, j').
Proof.
  intros Hrun Hrow Hops Hrec Hg Hread Hord. apply dm_runs_inv in Hrun as [_ _ (u & _ & _ & [_ Hst _ _])].
  pose proof (recovered_status _ _ _ _ _ _ _ _ _ _ Hops Hrec Hg) as Hstatus. rewrite Hrow, Hst in Hstatus.
  specialize (Hread key.2). rewrite Hg in Hread. destruct Hread as (ws & Hws & Hgw). rewrite Hstatus in Hws. injection Hws as <-.
  eapply recovery_unreadable; [done|exact Hgw|]. split; [done|]. simpl. unfold UnmarshalTaskStatus. destruct json_no_value as [e ->]. by eexists.
Qed.

(** A worker that is slow to start fails its job. When the first heartbeat of a
    worker, which is sent from before its [InitImpl] on, is handled before its first
    report, the tick of the master that tells the job master about the worker returns an
    error, whatever messages have come in meanwhile: the worker's status names no task. *)
Theorem online_before_report_fails `{!dmconfig, !TaskJSON, !TaskJSONDefaults} {DB C M} {kv : KV DB} `{!Toml Job, !CheckpointDB C, !DMEnv M}
    m0 now w ex now' msg node ops (cb : Callbacks (JobMaster DB C M)) fuel (j : JobMaster DB C M) :
  wm_state m0 = workerManagerReady → workerEntries m0 !! w = None → eventQueue m0 = [] → jm_created j = true →
  ping_FromWorkerID msg = w → ping_Epoch msg = wm_epoch m0 → ping_IsFinished msg = false → Forall is_message ops → onWorkerOnlined cb = online →
  let m1 := (BeforeStartingWorker now w ex m0).2 in
  let m2 := (HandleHeartbeat now' msg node m1).2 in
  ∃ e, (WorkerManager.Tick cb (S fuel) ((messages ops m2).2, j)).1 = Fail e.
Proof.
  intros Hready Hnone Hq Hj Hw Hep Hfin Hops Hcb m1 m2.
  set (p := length (wm_heap m0)).
  assert (workerEntries m2 = <[w := p]> (workerEntries m0) ∧ (∃ e, wm_heap m2 !! p = Some e ∧ we_status e = Some createdStatus) ∧
    eventQueue m2 = [mkMasterEvent workerOnlineEvent (runningHandle w node) w None hook_nil]) as (Hen & (e & He & Hst) & Hq2).
  { unfold m2, HandleHeartbeat. wm_unfold. unfold m1, BeforeStartingWorker. rewrite Hnone. simpl. rewrite Hready. simpl.
    unfold checkMasterEpochMatch. simpl. rewrite Hep, !bool_decide_eq_false_2 by lia. simpl. rewrite Hw, lookup_insert_eq. fold p.
    cbn [wm_heap set_entries set_heap]. rewrite (list_lookup_middle (wm_heap m0) []) by done. rewrite Hfin. simpl. unfold reporting, enqueueEvent. simpl. rewrite Hq. simpl.
    split_and!; [done| |done]. eexists. split; [rewrite list_insert_insert_eq, list_lookup_insert_eq; [done|]|done]. rewrite length_app. simpl. lia. }
  destruct (messages_keep ops m2 Hops) as [Hen3 Hk]. destruct (Hk p e He) as (e' & He' & _ & Hst'). destruct (messages_queue ops m2 Hops) as [l Hl].
  set (m3 := (messages ops m2).2) in *. clearbody m3. rewrite Hq2 in Hl. unfold WorkerManager.Tick. destruct (wm_err m3) as [err|]; [by exists err|].
  set (ev := mkMasterEvent _ _ _ _ _) in Hl.
  assert (nextEvent m3 = (Done (Some ev), set_queue l m3)) as Hnext by (unfold nextEvent; by rewrite Hl).
  assert (handle_Status (set_queue l m3) (runningHandle w node) = Done (Some createdStatus)) as Hhs.
  { unfold handle_Status. cbn [handle_ID workerEntries set_queue wm_heap]. by rewrite Hen3, Hen, lookup_insert_eq, He', Hst', Hst. }
  cbn [Tick_loop]. rewrite Hl. cbn [app]. rewrite Hnext. unfold callback. cbn [ev_Tp ev_Handle ev]. rewrite Hcb. unfold online. rewrite Hhs.
  unfold JM_OnWorkerOnline, on_dm. rewrite Hj. unfold mbind, GoM_bind, lift, UnmarshalTaskStatus. cbn [wh_ExtBytes ws_ExtBytes createdStatus].
  destruct json_no_value as [err ->]. by eexists.
Qed.

(** A task that is finished ends its worker. When the unit returned without an error, the
    storage can be persisted and the report can be sent, the tick reports [Finished] and
    returns the error that ends the worker. *)
Theorem finished_task_ends_worker `{!dmconfig, !TaskJSON} {DB Srv U E A} `{!DMUnits U E A, !Gorm DB, !HandlerRegistrar Srv}
    os executorID ord key k cfg (s : WorkerSt DB Srv (dmWorker U E A)) tenv u r u1 b :
  dm_runs os executorID ord key k cfg s → mw_unitHolder (wk_impl s) = Some u → getResult (lazyProcess u) = (Some r, u1) → pr_Errors r = [] →
  statusBytes u1 StageFinished = inr b → te_persist tenv = Done tt → io_send (te_io tenv) = Done tt → is_Some (bw_masterClient (wk_base s)) →
  ∃ s' ws, dm_Tick tenv s = (Fail (GoErr ErrWorkerFinish ""), s') ∧
    ss_sent (bw_status (wk_base s')) =
      ss_sent (bw_status (wk_base s)) ++ [mkWorkerStatusMessage (ws_ID ws) (io_epoch (te_io tenv)) (Some ws)] ∧
    ws_Code ws = WorkerStatusFinished ∧ ws_ExtBytes ws = b.
Proof.
  intros [_ _ (u0 & Hu0 & _ & [Ha _ _ _])]%dm_runs_inv Hu Hg Herr Hb Hper Hsend [mc Hmc].
  destruct (Writer_aliased (te_io tenv) (with_report WorkerStatusFinished "" b) _ Ha) as (_ & _ & Hout & _ & _ & ws & Hws & Hsent).
  rewrite Hsend in Hout, Hsent.
  assert (∀ s1 : WorkerSt DB Srv (dmWorker U E A), wk_base s1 = wk_base s → ∃ s', Base_Exit (te_io tenv) WorkerStatusFinished "" b None s1 = (Fail (GoErr ErrWorkerFinish ""), s') ∧
    ss_sent (bw_status (wk_base s')) = ss_sent (bw_status (wk_base s)) ++
      [mkWorkerStatusMessage (ws_ID (with_report WorkerStatusFinished "" b ws)) (io_epoch (te_io tenv)) (Some (with_report WorkerStatusFinished "" b ws))]) as Hexit.
  { intros s1 Hs1. unfold Base_Exit, on_status, Exit. rewrite Hs1, Hmc. destruct (Writer_UpdateStatus _ _ _) as [r0 st0]. cbn [fst snd] in *. subst r0.
    eexists. split; [done|]. exact Hsent. }
  unfold dm_Tick, Worker_lazyProcess, mbind, GoM_bind. rewrite Hu. unfold tryUpdateStatus. cbn [mw_unitHolder wk_impl set_holder set_impl with_holder].
  rewrite Hg, Herr. unfold finishTask. rewrite Hb.
  assert (∀ s1 : WorkerSt DB Srv (dmWorker U E A), wk_base s1 = wk_base s → ∃ s' ws', Base_Exit (te_io tenv) WorkerStatusFinished "" b None s1 = (Fail (GoErr ErrWorkerFinish ""), s') ∧
    ss_sent (bw_status (wk_base s')) = ss_sent (bw_status (wk_base s)) ++ [mkWorkerStatusMessage (ws_ID ws') (io_epoch (te_io tenv)) (Some ws')] ∧
    ws_Code ws' = WorkerStatusFinished ∧ ws_ExtBytes ws' = b) as Hend.
  { intros s1 Hs1. destruct (Hexit s1 Hs1) as (s' & ? & ?). eexists s', _. split_and!; [done|done|done|done]. }
  destruct (uh_storageWriteHandle u1) as [h|]; [|by apply Hend]. rewrite Hper. destruct (mw_disk _) as [m fs]. cbn [Persist]. by apply Hend.
Qed.

Module Witness.
Import DMConfig.Ref DMStore.Witness DMManagers.Witness DMJobMaster.Witness P2P.Witness.
#[local] Existing Instance ref_dmconfig.
#[local] Existing Instance ref_DMCodec.

(** Units that do nothing, resumed at once. *)
#[local] Instance ref_units : DMUnits nat string unit := {|
  NewDumpling _ _ := 0; NewLightning _ _ := 0; NewSyncer _ _ := 0; unit_Init := mret tt; unit_Process := S; unit_Pause x := x; unit_Resume := S;
  unit_Close x := x; JoinProcessErrors := String.concat ";"; NewAutoResumeInfo _ := tt; ResumeSkip := 2; ResumeDispatch := 4;
  CheckResumeSubtask _ _ _ := (4%Z, tt) |}.

(** The texts of the statuses of the dump of one source. *)
Definition stage_text (stage : Z) : option string :=
  if bool_decide (stage = StageRunning) then Some "r" else if bool_decide (stage = StagePaused) then Some "p"
  else if bool_decide (stage = StageFinished) then Some "f" else None.
Definition text_stage (b : string) : option Z :=
  if bool_decide (b = "r") then Some StageRunning else if bool_decide (b = "p") then Some StagePaused
  else if bool_decide (b = "f") then Some StageFinished else None.

#[local] Instance dump_json : TaskJSON := {|
  json_Marshal s :=
    match s with
    | TSDefault (mkDefaultTaskStatus unit task stage) =>
        if bool_decide (unit = WorkerDMDump ∧ task = "s1") then match stage_text stage with Some b => inr b | None => inl "unsupported" end
        else inl "unsupported"
    | _ => inl "unsupported"
    end;
  json_unit b := match text_stage b with Some _ => inr WorkerDMDump | None => inl "unexpected end of JSON input" end;
  json_dump b := match text_stage b with
                 | Some stage => inr (mkDumpStatus (mkDefaultTaskStatus WorkerDMDump "s1" stage) 0 0 0 0 0)
                 | None => inl "unexpected end of JSON input"
                 end;
  json_load b := match text_stage b with
                 | Some stage => inr (mkLoadStatus (mkDefaultTaskStatus WorkerDMDump "s1" stage) 0 0 "" "" "")
                 | None => inl "unexpected end of JSON input"
                 end;
  json_sync b := match text_stage b with
                 | Some stage => inr (mkSyncStatus (mkDefaultTaskStatus WorkerDMDump "s1" stage) 0 0 0 "" "" "" "" [] false "" 0 "" "")
                 | None => inl "unexpected end of JSON input"
                 end;
|}.

Lemma text_roundtrip unit task stage b :
  json_Marshal (TSDefault (mkDefaultTaskStatus unit task stage)) = inr b → unit = WorkerDMDump ∧ task = "s1" ∧ text_stage b = Some stage.
Proof.
  simpl. case_bool_decide as Hc; [|done]. destruct Hc as [-> ->]. unfold stage_text. repeat case_bool_decide; intros; simplify_eq; done.
Qed.

#[local] Instance dump_json_laws : TaskJSONLaws.
Proof.
  split; intros [[unit task stage]| | |] b || intros s b; intros Hb; try done.
  apply text_roundtrip in Hb as (-> & -> & Hs). simpl. by rewrite Hs.
Qed.

#[local] Instance dump_json_defaults : TaskJSONDefaults.
Proof.
  split; [intros [unit task stage] b (-> & -> & Hs)%text_roundtrip; simpl; by rewrite Hs..|]. by eexists.
Qed.

Definition cfg0 : SubTaskConfig := mkSubTaskConfig "" false [] [] false "" "job" "all" [] "meta" "" None "from" "to" false "s1" None [] [] [] [] () () ().
Definition disk0 : LocalFileManager * FS := (Resource.Witness.m0, Resource.Witness.fs0).
Abbreviation St := (WorkerSt RefDB (gset string) (dmWorker nat string unit)).
Definition st_of (w : dmWorker nat string unit) : St :=
  mkWorkerSt NewErrCenter (NewBaseWorker (newMessageHandlerManager ∅) "w1" "m" ∅) (StoreMasterMeta (Metastore.Witness.job "m") Metastore.Witness.db0).2 w.
Definition io0 : io_result := mkIo (Done tt) (Done tt) 1.
Definition ienv0 : InitEnv := mkInitEnv [mkOpenEnv (Fail (RpcStatus NotFound "")) None] 0.
Definition tenv0 : TickEnv := mkTickEnv io0 (Done tt) 0.
Abbreviation impl0 := (dm_WorkerImpl no_errors "e1" ienv0 tenv0).
Definition ord0 (m : gmap string (list (option goerr))) : list string := (map_to_list m).*1.
Definition dump0 : St := st_of (newDumpWorker disk0 cfg0).
Definition dump1 : St := (Worker_Init impl0 ord0 0 None (Done tt) io0 dump0).2.
Definition penv0 : PollEnv := mkPollEnv 0 (λ _, None) None (Done tt).
Definition dump2 : St := (Worker_Poll impl0 ord0 penv0 dump1).2.
Definition done0 : ProcessResult string := mkProcessResult false [].
Definition no_unit : unitHolder nat string unit := newUnitHolder 0 WorkerDMDump "s1" 0.
Definition holder (s : St) : unitHolder nat string unit := default no_unit (mw_unitHolder (wk_impl s)).
Definition dump3 : St := set_holder (default no_unit (unit_returns done0 (holder dump2))) dump2.
Definition dump4 : St := (Worker_Poll impl0 ord0 penv0 dump3).2.

Lemma dump3_runs : dm_runs no_errors "e1" ord0 ("m", "w1") dumpWorker cfg0 dump3.
Proof.
  exists ienv0, tenv0, 0%Z, None, (Done tt), io0, dump0, dump1. split_and!.
  - split_and!; [done..|]. by exists ∅.
  - vm_compute. reflexivity.
  - eapply rtc_l; [apply (dm_poll _ _ _ _ ienv0 tenv0 penv0)|]. eapply rtc_l; [|apply rtc_refl].
    apply (dm_returns _ _ _ dump2 done0 (holder dump2)); vm_compute; reflexivity.
Qed.

Lemma dump4_runs : dm_runs no_errors "e1" ord0 ("m", "w1") dumpWorker cfg0 dump4.
Proof.
  destruct dump3_runs as (a & b & c & d & e & f & g & h & Ha & Hb & Hc). exists a, b, c, d, e, f, g, h. split_and!; [done..|].
  eapply rtc_r; [exact Hc|]. apply (dm_poll _ _ _ _ ienv0 tenv0 penv0).
Qed.

Lemma unit_runs_one_at_a_time_witness :
  ∃ u, mw_unitHolder (wk_impl dump3) = Some u ∧
    uh_running u + length (uh_resultCh u) + (if uh_lastResult u is Some _ then 1 else 0) = (if uh_processOnce u then 1 else 0) ∧
    (0 < uh_running u → ∀ r, is_Some (unit_returns r u)).
Proof. exact (unit_runs_one_at_a_time no_errors "e1" ord0 ("m", "w1") dumpWorker cfg0 dump3 dump3_runs). Defined.

Definition report0 : WorkerStatus := mkWorkerStatus "" "m" "w1" 0 WorkerStatusFinished "" "f".
Definition message0 : WorkerStatusMessage := mkWorkerStatusMessage "w1" 1 (Some report0).

Lemma message0_sent : message0 ∈ ss_sent (bw_status (wk_base dump4)).
Proof. apply (list_elem_of_lookup_2 _ 2). vm_compute. reflexivity. Qed.

Lemma dump_finished_is_persisted_witness :
  ∃ u h, mw_unitHolder (wk_impl dump4) = Some u ∧ uh_storageWriteHandle u = Some h ∧
    isPersisted (h_workerID h) (h_name h) (mw_disk (wk_impl dump4)).1 = true.
Proof.
  exact (dump_finished_is_persisted no_errors "e1" ord0 ("m", "w1") cfg0 dump4 message0 report0 dump4_runs message0_sent eq_refl eq_refl).
Defined.

Lemma reports_are_read_witness :
  (ws_Code report0 = WorkerStatusInit ∧ ∃ e, UnmarshalTaskStatus (ws_ExtBytes report0) = Fail e) ∨
  ∃ st, UnmarshalTaskStatus (ws_ExtBytes report0) = Done st ∧ GetUnit st = kind_type dumpWorker ∧ GetTask st = st_SourceID cfg0 ∧
    stage_of_code (ws_Code report0) = Some (GetStage st).
Proof. exact (reports_are_read no_errors "e1" ord0 ("m", "w1") dumpWorker cfg0 dump4 message0 report0 dump4_runs message0_sent eq_refl). Defined.

Definition load0 : St := st_of (newLoadWorker disk0 cfg0).

Lemma only_dump_waits_for_manager_witness :
  ∃ e, openRetry no_errors "e1" id "/local/job/s1" [unavailable "down"] load0 = (Fail e, load0) ∧ oe_status e = Some Unavailable.
Proof. apply (only_dump_waits_for_manager no_errors "e1" "/local/job/s1" "job/s1" ["down"] "down" [] load0). vm_compute. reflexivity. Defined.

Definition ienv1 : InitEnv := mkInitEnv [unavailable "down"] 0.
Definition load1 : St := (doPreInit ord0 0 None load0).2.

Lemma failed_start_panics_on_close_witness :
  Worker_Init (dm_WorkerImpl no_errors "e1" ienv1 tenv0) ord0 0 None (Done tt) io0 load0 = (Fail (ErrForeign "down"), load1) ∧
  (Worker_Close (dm_WorkerImpl no_errors "e1" ienv1 tenv0) ord0 load1).1 = Panic.
Proof.
  apply (failed_start_panics_on_close no_errors "e1" ord0 ienv1 tenv0 0 None (Done tt) io0 load0 load1 "job/s1" Unavailable "down" None []);
    [vm_compute; reflexivity|reflexivity|discriminate|reflexivity|discriminate|discriminate|vm_compute; reflexivity].
Defined.

(** A master that recovers while the dump worker lives. *)
Definition row0 : WorkerStatus := mkWorkerStatus "" "m" "w1" 0 WorkerStatusInit "" "".
Definition ops0 : list wm_op := [op_heartbeat 5 (mkPing 5 "w1" 2 false) "e1"; op_status (mkWorkerStatusMessage "w1" 2 (Some report0))].
Definition recovered0 : WorkerManager :=
  (InitAfterRecover (Done [row0]) ["w1"] (messages ops0) (λ _, ["w1"]) (NewWorkerManager "m" 2 false DefaultTimeoutConfig)).2.
Definition handles0 (_ : nat) : gmap WorkerID DMHandle := {["w1" := mkDMHandle "w1" false ""]}.

Lemma handles0_read : reads_handles recovered0 (handles0 (dm_env (jm_dm j0))).
Proof.
  intros id. destruct (decide (id = "w1")) as [->|Hne].
  - assert (WorkerManager.GetWorkers recovered0 !! "w1" = Some (runningHandle "w1" "e1")) as -> by (vm_compute; reflexivity).
    exists row0. split; [vm_compute; reflexivity|reflexivity].
  - assert (WorkerManager.GetWorkers recovered0 !! id = None) as ->.
    { unfold WorkerManager.GetWorkers. rewrite map_lookup_imap. assert (workerEntries recovered0 = {["w1" := 0]}) as -> by (vm_compute; reflexivity).
      by rewrite lookup_singleton_ne. }
    by apply lookup_singleton_ne.
Qed.

Lemma recovery_fails_with_live_workers_witness : ∃ e j', JM_OnMasterRecovered clk0 order0 handles0 j0 = (Fail e, j').
Proof.
  apply (recovery_fails_with_live_workers no_errors "e1" ord0 ("m", "w1") dumpWorker cfg0 dump4 [row0] ["w1"] ops0 (λ _, ["w1"]) 2 DefaultTimeoutConfig
           recovered0 "e1" clk0 order0 handles0 j0 dump4_runs);
    [vm_compute; reflexivity|repeat constructor|vm_compute; reflexivity|vm_compute; reflexivity|exact handles0_read|intros V n m; apply order0_ok].
Defined.

Definition cb0 : Callbacks (JobMaster RefEtcd (gset string) nat) := mkCallbacks _ online (λ _ _, mret tt) (λ _, mret tt) (λ _ _, mret tt).
Definition manager0 : WorkerManager := NewWorkerManager "m" 1 true DefaultTimeoutConfig.
Definition created0 : JobMaster RefEtcd (gset string) nat := mkJobMaster s0 true false.

Lemma online_before_report_fails_witness :
  ∃ e, (WorkerManager.Tick cb0 8
          ((messages [] (HandleHeartbeat 3 (mkPing 3 "w1" 1 false) "e1" (BeforeStartingWorker 0 "w1" "e1" manager0).2).2).2, created0)).1 = Fail e.
Proof.
  apply (online_before_report_fails manager0 0 "w1" "e1" 3 (mkPing 3 "w1" 1 false) "e1" [] cb0 7 created0); reflexivity || constructor.
Defined.

Definition finished0 : unitHolder nat string unit := (getResult (lazyProcess (holder dump3))).2.

Lemma finished_task_ends_worker_witness :
  ∃ s' ws, dm_Tick tenv0 dump3 = (Fail (GoErr ErrWorkerFinish ""), s') ∧ ws_Code ws = WorkerStatusFinished ∧ ws_ExtBytes ws = "f".
Proof.
  destruct (finished_task_ends_worker no_errors "e1" ord0 ("m", "w1") dumpWorker cfg0 dump3 tenv0 (holder dump3) done0 finished0 "f" dump3_runs)
    as (s' & ws & Ht & _ & Hc & He);
    [vm_compute; reflexivity|vm_compute; reflexivity|reflexivity|vm_compute; reflexivity|reflexivity|reflexivity|vm_compute; by eexists|].
  exists s', ws. split_and!; assumption.
Defined.

End Witness.
