(* ===== verification/OrmClient.v ===== *)
(** * The metastore client beyond jobs ([pkg/orm/client.go], [lib/metadata], [resourcemeta])

    The tables of workers, resources and projects, the client that opens the database,
    the metadata client that a master has for its workers, and the accessor of the
    resource table. A table is a class of statements with the laws of their
    documentation, as in [Metastore]; a statement that answers with an error may have
    been executed or not. [MemTable] is an in-memory instance. *)

From S2P Require Import Prelude Errors Model Metastore ResourcePath Resource WorkerManager Worker.

(** ** Tables *)

(** Rows with the key of their unique index, and the assignment of columns from another
    row. *)
Class Row (K R : Type) := {
  row_key : R → K;
  row_assign : list string → R → R → R;
}.

Class Table (DB K R : Type) `{Countable K} `{!Row K R} := {
  rows : DB → gmap K R;
  (** [db.Create(row)] *)
  tbl_create : R → GoM string DB unit;
  (** [db.Clauses(OnConflict{DoUpdates: cols}).Create(row)] *)
  tbl_upsert : list string → R → GoM string DB unit;
  (** [db.Model(...).Where(cond).Updates(cols of row)] *)
  tbl_updates : (R → bool) → list string → R → GoM string DB unit;
  (** [db.Where(cond).Delete(...)], with the number of rows affected *)
  tbl_delete : (R → bool) → GoM string DB Z;
  (** [db.Where(cond).First(...)]; [None] is [gorm.ErrRecordNotFound] *)
  tbl_first : (R → bool) → GoM string DB (option R);
  (** [db.Where(cond).Find(...)] *)
  tbl_find : (R → bool) → GoM string DB (list R);
}.

Section effects.
Context {K R : Type} `{Countable K} `{!Row K R}.

Definition created (r : R) (m : gmap K R) : gmap K R := <[row_key r := r]> m.
Definition upserted (cols : list string) (r : R) (m : gmap K R) : gmap K R :=
  <[row_key r := match m !! row_key r with None => r | Some old => row_assign cols r old end]> m.
Definition updated (cond : R → bool) (cols : list string) (r : R) (m : gmap K R) : gmap K R :=
  (λ old, if cond old then row_assign cols r old else old) <$> m.
Definition kept (cond : R → bool) (m : gmap K R) : gmap K R := filter (λ kv, cond kv.2 = false) m.
Definition matching (cond : R → bool) (m : gmap K R) : gmap K R := filter (λ kv, cond kv.2 = true) m.

(** The outcome of a statement that turns the table into [m]. *)
Definition writes {DB A} `{!Table DB K R} (out : res string A * DB) (db : DB) (m : gmap K R) : Prop :=
  match out with
  | (Done _, db') => rows db' = m
  | (Fail _, db') => rows db' = rows db ∨ rows db' = m
  | (Panic, _) => False
  end.

(** The outcome of a statement that reads. *)
Definition reads {DB A} `{!Table DB K R} (out : res string A * DB) (db : DB) (P : A → Prop) : Prop :=
  rows out.2 = rows db ∧ match out.1 with Done a => P a | Fail _ => True | Panic => False end.

End effects.

(** The key of every row is that of the index. *)
Definition keyed {DB K R} `{Table DB K R} (db : DB) : Prop := ∀ k r, rows db !! k = Some r → row_key r = k.

Class TableLaws (DB K R : Type) `{Table DB K R} : Prop := {
  table_keyed db : keyed db;
  (** the unique index refuses a second row *)
  tbl_create_law r db :
    writes (tbl_create r db) db (created r (rows db)) ∧ ((tbl_create r db).1 = Done tt → rows db !! row_key r = None);
  tbl_upsert_law cols r db :
    (∀ old, row_key old = row_key r → row_key (row_assign cols r old) = row_key r) →
    writes (tbl_upsert cols r db) db (upserted cols r (rows db));
  (** an update that does not change the key *)
  tbl_updates_law cond cols r db :
    (∀ old, cond old = true → row_key (row_assign cols r old) = row_key old) →
    writes (tbl_updates cond cols r db) db (updated cond cols r (rows db));
  tbl_delete_law cond db :
    writes (tbl_delete cond db) db (kept cond (rows db)) ∧
    ∀ n, (tbl_delete cond db).1 = Done n → n = Z.of_nat (size (matching cond (rows db)));
  tbl_first_law cond db :
    reads (tbl_first cond db) db
      (λ o, match o with
            | Some r => cond r = true ∧ rows db !! row_key r = Some r
            | None => ∀ k r, rows db !! k = Some r → cond r = false
            end);
  tbl_find_law cond db :
    reads (tbl_find cond db) db (λ l, l ≡ₚ (map_to_list (matching cond (rows db))).*2);
}.

(** ** The worker table *)

Definition WorkerUpdateColumns : list string := ["updated_at"; "project_id"; "job_id"; "id"; "type"; "status"; "errmsg"; "ext_bytes"].

(** The keys of [WorkerStatus.Map()]. *)
Definition WorkerStatus_Map : list string := ["project_id"; "job_id"; "id"; "type"; "status"; "errmsg"; "ext_bytes"].

Definition worker_assign (cols : list string) (new old : WorkerStatus) : WorkerStatus :=
  let pick {A} (c : string) (f : WorkerStatus → A) : A := if bool_decide (c ∈ cols) then f new else f old in
  mkWorkerStatus (pick "project_id" ws_ProjectID) (pick "job_id" ws_JobID) (pick "id" ws_ID) (pick "type" ws_Type) (pick "status" ws_Code)
    (pick "errmsg" ws_ErrorMessage) (pick "ext_bytes" ws_ExtBytes).

(** The unique index [uidx_wid]. *)
#[global] Instance worker_row : Row (MasterID * WorkerID) WorkerStatus := {|
  row_key s := (ws_JobID s, ws_ID s);
  row_assign := worker_assign;
|}.

Section workers.
Context {DB : Type} `{!Table DB (MasterID * WorkerID) WorkerStatus}.

Definition of_worker (masterID : MasterID) (workerID : WorkerID) (s : WorkerStatus) : bool :=
  bool_decide (ws_JobID s = masterID) && bool_decide (ws_ID s = workerID).

Definition Orm_UpsertWorker (worker : option WorkerStatus) : Go DB unit :=
  match worker with
  | None => throw (GoErr ErrMetaParamsInvalid "input worker meta is nil")
  | Some worker => wrapOp ErrMetaOpFail (tbl_upsert WorkerUpdateColumns worker)
  end.

Definition Orm_UpdateWorker (worker : option WorkerStatus) : Go DB unit :=
  match worker with
  | None => throw (GoErr ErrMetaParamsInvalid "input worker meta is nil")
  | Some worker => wrapOp ErrMetaOpFail (tbl_updates (of_worker (ws_JobID worker) (ws_ID worker)) WorkerStatus_Map worker)
  end.

Definition DeleteWorker (masterID : MasterID) (workerID : WorkerID) : Go DB Z :=
  wrapOp ErrMetaOpFail (tbl_delete (of_worker masterID workerID)).

Definition GetWorkerByID (masterID : MasterID) (workerID : WorkerID) : Go DB WorkerStatus :=
  r ← wrapOp ErrMetaOpFail (tbl_first (of_worker masterID workerID));
  match r with
  | Some worker => mret worker
  | None => throw (GoWrap ErrMetaEntryNotFound (ErrForeign "record not found"))
  end.

Definition QueryWorkersByMasterID (masterID : MasterID) : Go DB (list WorkerStatus) :=
  wrapOp ErrMetaOpFail (tbl_find (λ s, bool_decide (ws_JobID s = masterID))).

Definition QueryWorkersByStatus (masterID : MasterID) (status : Z) : Go DB (list WorkerStatus) :=
  wrapOp ErrMetaOpFail (tbl_find (λ s, bool_decide (ws_JobID s = masterID) && bool_decide (ws_Code s = status))).

(** *** [lib/metadata/metadata.go]: the metadata client of a master's workers *)

Definition WorkerMeta_LoadAllWorkers (masterID : MasterID) : Go DB (gmap WorkerID WorkerStatus) :=
  resp ← QueryWorkersByMasterID masterID;
  mret (LoadAllWorkers resp).

Definition WorkerMeta_Load (masterID : MasterID) (workerID : WorkerID) : Go DB WorkerStatus := GetWorkerByID masterID workerID.

(** The number of rows is not looked at. *)
Definition WorkerMeta_Remove (masterID : MasterID) (id : WorkerID) : Go DB bool := _ ← DeleteWorker masterID id; mret true.

Definition WorkerMeta_Store (data : WorkerStatus) : Go DB unit := Orm_UpsertWorker (Some data).
Definition WorkerMeta_Update (data : WorkerStatus) : Go DB unit := Orm_UpdateWorker (Some data).

End workers.

(** ** The project tables *)

Record ProjectInfo := mkProjectInfo { pi_ID : string; pi_Name : string }.

Definition project_assign (cols : list string) (new old : ProjectInfo) : ProjectInfo :=
  let pick {A} (c : string) (f : ProjectInfo → A) : A := if bool_decide (c ∈ cols) then f new else f old in
  mkProjectInfo (pick "id" pi_ID) (pick "name" pi_Name).

#[global] Instance project_row : Row string ProjectInfo := {| row_key := pi_ID; row_assign := project_assign |}.

(** The only key of an operation is its sequence number. *)
Record ProjectOperation := mkProjectOperation {
  po_SeqID : Z;
  po_ProjectID : string;
  po_Operation : string;
  po_JobID : string;
  po_CreatedAt : Time;
}.

#[global] Instance operation_row : Row Z ProjectOperation := {| row_key := po_SeqID; row_assign _ _ old := old |}.

Record TimeRange := mkTimeRange { tr_start : Time; tr_end : Time }.

Section projects.
Context {DB : Type} `{!Table DB string ProjectInfo, !Table DB Z ProjectOperation}.

Definition CreateProject (project : option ProjectInfo) : Go DB unit :=
  match project with
  | None => throw (GoErr ErrMetaParamsInvalid "input project info is nil")
  | Some project => wrapOp ErrMetaOpFail (tbl_create project)
  end.

Definition DeleteProject (projectID : string) : Go DB unit :=
  _ ← wrapOp ErrMetaOpFail (tbl_delete (λ p, bool_decide (pi_ID p = projectID)));
  mret tt.

Definition QueryProjects : Go DB (list ProjectInfo) := wrapOp ErrMetaOpFail (tbl_find (λ _, true)).

Definition GetProjectByID (projectID : string) : Go DB ProjectInfo :=
  r ← wrapOp ErrMetaOpFail (tbl_first (λ p, bool_decide (pi_ID p = projectID)));
  match r with
  | Some project => mret project
  | None => throw (GoWrap ErrMetaEntryNotFound (ErrForeign "record not found"))
  end.

Definition CreateProjectOperation (op : option ProjectOperation) : Go DB unit :=
  match op with
  | None => throw (GoErr ErrMetaParamsInvalid "input project operation is nil")
  | Some op => wrapOp ErrMetaOpFail (tbl_create op)
  end.

Definition QueryProjectOperations (projectID : string) : Go DB (list ProjectOperation) :=
  wrapOp ErrMetaOpFail (tbl_find (λ op, bool_decide (po_ProjectID op = projectID))).

Definition in_range (projectID : string) (tr : TimeRange) (op : ProjectOperation) : bool :=
  bool_decide (po_ProjectID op = projectID) && bool_decide (tr_start tr ≤ po_CreatedAt op)%Z && bool_decide (po_CreatedAt op ≤ tr_end tr)%Z.

Definition QueryProjectOperationsByTimeRange (projectID : string) (tr : TimeRange) : Go DB (list ProjectOperation) :=
  wrapOp ErrMetaOpFail (tbl_find (in_range projectID tr)).

End projects.

(** ** The rest of the resource table, and its accessor *)

Definition ResourceUpdateColumns : list string := ["updated_at"; "project_id"; "id"; "job_id"; "worker_id"; "executor_id"; "deleted"].

(** The keys of [ResourceMeta.Map()]. *)
Definition ResourceMeta_Map : list string := ["project_id"; "id"; "job_id"; "worker_id"; "executor_id"; "deleted"].

Definition resource_assign (cols : list string) (new old : ResourceMeta) : ResourceMeta :=
  let pick {A} (c : string) (f : ResourceMeta → A) : A := if bool_decide (c ∈ cols) then f new else f old in
  mkResourceMeta (pick "id" rm_ID) (pick "job_id" rm_Job) (pick "worker_id" rm_Worker) (pick "executor_id" rm_Executor) (pick "deleted" rm_Deleted).

#[global] Instance resource_row : Row ResourceID ResourceMeta := {| row_key := rm_ID; row_assign := resource_assign |}.

Section resources.
Context {DB : Type} `{!Table DB ResourceID ResourceMeta}.

Definition UpsertResource (resource : option ResourceMeta) : Go DB unit :=
  match resource with
  | None => throw (GoErr ErrMetaParamsInvalid "input resource meta is nil")
  | Some resource => wrapOp ErrMetaOpFail (tbl_upsert ResourceUpdateColumns resource)
  end.

Definition UpdateResource (resource : option ResourceMeta) : Go DB unit :=
  match resource with
  | None => throw (GoErr ErrMetaParamsInvalid "input resource meta is nil")
  | Some resource => wrapOp ErrMetaOpFail (tbl_updates (λ r, bool_decide (rm_ID r = rm_ID resource)) ResourceMeta_Map resource)
  end.

Definition Table_DeleteResource (resourceID : ResourceID) : Go DB Z :=
  wrapOp ErrMetaOpFail (tbl_delete (λ r, bool_decide (rm_ID r = resourceID))).

Definition Table_GetResourceByID (resourceID : ResourceID) : Go DB ResourceMeta :=
  r ← wrapOp ErrMetaOpFail (tbl_first (λ r, bool_decide (rm_ID r = resourceID)));
  match r with
  | Some resource => mret resource
  | None => throw (GoWrap ErrMetaEntryNotFound (ErrForeign "record not found"))
  end.

Definition QueryResources : Go DB (list ResourceMeta) := wrapOp ErrMetaOpFail (tbl_find (λ _, true)).
Definition QueryResourcesByJobID (jobID : MasterID) : Go DB (list ResourceMeta) :=
  wrapOp ErrMetaOpFail (tbl_find (λ r, bool_decide (rm_Job r = jobID))).
Definition QueryResourcesByExecutorID (executorID : ExecutorID) : Go DB (list ResourceMeta) :=
  wrapOp ErrMetaOpFail (tbl_find (λ r, bool_decide (rm_Executor r = executorID))).

(** *** [resourcemeta/accessor.go]

    Taking a token of the rate limiter only waits. *)

Definition Accessor_GetResource (resourceID : ResourceID) : Go DB (option ResourceMeta) := λ db,
  match Table_GetResourceByID resourceID db with
  | (Done rec, db') => (Done (Some rec), db')
  | (Fail err, db') => if IsNotFoundError (Some err) then (Done None, db') else (Fail err, db')
  | (Panic, db') => (Panic, db')
  end.

(** [CreateResource] after its first read, and the whole of it. *)
Definition create_after (resource : ResourceMeta) (found : option ResourceMeta) : Go DB bool :=
  match found with
  | Some _ => mret false
  | None => _ ← UpsertResource (Some resource); mret true
  end.

Definition Accessor_CreateResource (resource : ResourceMeta) : Go DB bool :=
  found ← Accessor_GetResource (rm_ID resource);
  create_after resource found.

Definition Accessor_UpdateResource (resource : ResourceMeta) : Go DB bool :=
  found ← Accessor_GetResource (rm_ID resource);
  match found with
  | None => mret false
  | Some _ => _ ← UpdateResource (Some resource); mret true
  end.

Definition Accessor_DeleteResource (resourceID : ResourceID) : Go DB bool :=
  n ← Table_DeleteResource resourceID;
  mret (negb (bool_decide (n = 0)%Z)).

Definition GetAllResources : Go DB (list ResourceMeta) := QueryResources.
Definition GetResourcesForExecutor (executorID : ExecutorID) : Go DB (list ResourceMeta) := QueryResourcesByExecutorID executorID.

End resources.

(** ** Opening the client *)

(** [metaclient.StoreConfigParams]. *)
Record StoreConfigParams := mkStoreConfig { sc_StoreID : string; sc_Endpoints : list string; sc_User : string; sc_Passwd : string }.

Record DBConfig := mkDBConfig {
  dc_ReadTimeout : string;
  dc_WriteTimeout : string;
  dc_DialTimeout : string;
  dc_ConnMaxIdleTime : Duration;
  dc_ConnMaxLifeTime : Duration;
  dc_MaxIdleConns : Z;
  dc_MaxOpenConns : Z;
}.

Definition NewDefaultDBConfig : DBConfig := mkDBConfig "3s" "3s" "3s" (30 * Second) (12 * 3600 * Second) 3 10.

Definition FrameTenantID : string := "dfe_root".

(** What the code sets of the driver's [Config]. *)
Record DSNConfig := mkDSNConfig {
  dsn_User : string;
  dsn_Passwd : string;
  dsn_Net : string;
  dsn_Addr : string;
  dsn_DBName : string;
  dsn_InterpolateParams : bool;
  dsn_Params : gmap string string;
}.

(** [database/sql] with the MySQL driver, and [gorm.Open] on a connection pool. *)
Class SqlDriver (W Conn : Type) `{Countable Conn} := {
  FormatDSN : DSNConfig → string;
  open_pools : W → gset Conn;
  databases : W → gset string;
  sql_Open : string → GoM string W Conn;
  sql_Exec : Conn → string → GoM string W unit;
  sql_Close : Conn → GoM string W unit;
  sql_SetPool : Conn → DBConfig → W → W;
  gorm_Open : Conn → GoM string W unit;
}.

Definition create_database (projectID : string) : string := "CREATE DATABASE if not exists " +:+ projectID.

Class SqlDriverLaws (W Conn : Type) `{SqlDriver W Conn} : Prop := {
  sql_Open_law dsn w :
    databases (sql_Open dsn w).2 = databases w ∧
    match (sql_Open dsn w).1 with
    | Done c => (c ∉ open_pools w) ∧ open_pools (sql_Open dsn w).2 = {[c]} ∪ open_pools w
    | Fail _ => open_pools (sql_Open dsn w).2 = open_pools w
    | Panic => False
    end;
  sql_Exec_law c q w :
    open_pools (sql_Exec c q w).2 = open_pools w ∧ databases w ⊆ databases (sql_Exec c q w).2 ∧
    (sql_Exec c q w).1 ≠ Panic ∧ ∀ db, q = create_database db → (sql_Exec c q w).1 = Done tt → db ∈ databases (sql_Exec c q w).2;
  sql_Close_law c w :
    (sql_Close c w).1 ≠ Panic ∧ open_pools (sql_Close c w).2 = open_pools w ∖ {[c]} ∧ databases (sql_Close c w).2 = databases w;
  sql_SetPool_law c conf w : open_pools (sql_SetPool c conf w) = open_pools w ∧ databases (sql_SetPool c conf w) = databases w;
  gorm_Open_law c w :
    (gorm_Open c w).1 ≠ Panic ∧ open_pools (gorm_Open c w).2 = open_pools w ∧ databases (gorm_Open c w).2 = databases w;
}.

Section opening.
Context {W Conn : Type} `{SqlDriver W Conn}.

(** A configuration without endpoint panics. *)
Definition dsn_config (mc : StoreConfigParams) (projectID : string) (conf : DBConfig) (withDB : bool) : option DSNConfig :=
  match sc_Endpoints mc with
  | [] => None
  | addr :: _ =>
      Some {| dsn_User := sc_User mc; dsn_Passwd := sc_Passwd mc; dsn_Net := "tcp"; dsn_Addr := addr;
              dsn_DBName := if withDB then projectID else ""; dsn_InterpolateParams := true;
              dsn_Params := <["loc" := "Local"]> (<["parseTime" := "true"]> (<["timeout" := dc_DialTimeout conf]>
                (<["writeTimeout" := dc_WriteTimeout conf]> {["readTimeout" := dc_ReadTimeout conf]}))) |}
  end.

Definition generateDSNByParams (mc : StoreConfigParams) (projectID : string) (conf : DBConfig) (withDB : bool) : option string :=
  FormatDSN <$> dsn_config mc projectID conf withDB.

Definition createDatabaseForProject (mc : StoreConfigParams) (projectID : string) (conf : DBConfig) : Go W unit := λ w,
  match generateDSNByParams mc projectID conf false with
  | None => (Panic, w)
  | Some dsn =>
      match wrapOp ErrMetaOpFail (sql_Open dsn) w with
      | (Done db, w1) =>
          let '(r, w2) := wrapOp ErrMetaOpFail (sql_Exec db (create_database projectID)) w1 in
          (r, (sql_Close db w2).2)
      | (Fail err, w1) => (Fail err, w1)
      | (Panic, w1) => (Panic, w1)
      end
  end.

Definition newSQLDB (dsn : string) (conf : DBConfig) : Go W Conn :=
  db ← wrapOp ErrMetaOpFail (sql_Open dsn);
  _ ← modify (sql_SetPool db conf);
  mret db.

Definition newClient (sqlDB : Conn) : Go W Conn := _ ← wrapOp ErrMetaNewClientFail (gorm_Open sqlDB); mret sqlDB.

Definition NewClient (mc : StoreConfigParams) (conf : DBConfig) : Go W Conn :=
  _ ← createDatabaseForProject mc FrameTenantID conf;
  match generateDSNByParams mc FrameTenantID conf true with
  | None => panic
  | Some dsn =>
      sqlDB ← newSQLDB dsn conf;
      λ w, match newClient sqlDB w with
           | (Fail err, w') => (Fail err, (sql_Close sqlDB w').2)
           | out => out
           end
  end.

End opening.

(** ** Specification *)

(** A client of a master's workers, as a map of its own. *)
Inductive workerCall : Type :=
| call_LoadAll
| call_Load (id : WorkerID)
| call_Remove (id : WorkerID)
| call_Store (data : WorkerStatus)
| call_Update (data : WorkerStatus).

Inductive workerAnswer : Type :=
| ans_workers (m : gmap WorkerID WorkerStatus)
| ans_worker (s : WorkerStatus)
| ans_removed (b : bool)
| ans_unit.

Definition run_workerCall {DB} `{!Table DB (MasterID * WorkerID) WorkerStatus} (masterID : MasterID) (c : workerCall) : Go DB workerAnswer :=
  match c with
  | call_LoadAll => m ← WorkerMeta_LoadAllWorkers masterID; mret (ans_workers m)
  | call_Load id => s ← WorkerMeta_Load masterID id; mret (ans_worker s)
  | call_Remove id => b ← WorkerMeta_Remove masterID id; mret (ans_removed b)
  | call_Store data => _ ← WorkerMeta_Store data; mret ans_unit
  | call_Update data => _ ← WorkerMeta_Update data; mret ans_unit
  end.

(** What the call does to the map and answers; [None] is an entry that is not found. *)
Definition spec_workerCall (c : workerCall) (m : gmap WorkerID WorkerStatus) : option workerAnswer * gmap WorkerID WorkerStatus :=
  match c with
  | call_LoadAll => (Some (ans_workers m), m)
  | call_Load id => (ans_worker <$> m !! id, m)
  | call_Remove id => (Some (ans_removed true), delete id m)
  | call_Store data => (Some ans_unit, <[ws_ID data := data]> m)
  | call_Update data => (Some ans_unit, if decide (is_Some (m !! ws_ID data)) then <[ws_ID data := data]> m else m)
  end.

(** The data a client is given belongs to its master. *)
Definition call_of_master (masterID : MasterID) (c : workerCall) : Prop :=
  match c with call_Store data | call_Update data => ws_JobID data = masterID | _ => True end.

(** The workers of a master in the table. *)
Definition workers_of (masterID : MasterID) (m : gmap (MasterID * WorkerID) WorkerStatus) : gmap WorkerID WorkerStatus :=
  default ∅ (map_curry (M1 := gmap MasterID) (M2 := gmap WorkerID) m !! masterID).

(** The accessor of the resource table, as a map. *)
Inductive accessorCall : Type :=
| acc_Get (id : ResourceID)
| acc_Create (r : ResourceMeta)
| acc_Update (r : ResourceMeta)
| acc_Delete (id : ResourceID).

Inductive accessorAnswer : Type := acc_found (r : option ResourceMeta) | acc_did (b : bool).

Definition run_accessorCall {DB} `{!Table DB ResourceID ResourceMeta} (c : accessorCall) : Go DB accessorAnswer :=
  match c with
  | acc_Get id => r ← Accessor_GetResource id; mret (acc_found r)
  | acc_Create r => b ← Accessor_CreateResource r; mret (acc_did b)
  | acc_Update r => b ← Accessor_UpdateResource r; mret (acc_did b)
  | acc_Delete id => b ← Accessor_DeleteResource id; mret (acc_did b)
  end.

Definition spec_accessorCall (c : accessorCall) (m : gmap ResourceID ResourceMeta) : accessorAnswer * gmap ResourceID ResourceMeta :=
  match c with
  | acc_Get id => (acc_found (m !! id), m)
  | acc_Create r => if m !! rm_ID r is Some _ then (acc_did false, m) else (acc_did true, <[rm_ID r := r]> m)
  | acc_Update r => if m !! rm_ID r is Some _ then (acc_did true, <[rm_ID r := r]> m) else (acc_did false, m)
  | acc_Delete id => (acc_did (if m !! id is Some _ then true else false), delete id m)
  end.

(** *** Lemmas *)

Section tables_spec.
Context {K R : Type} `{Countable K} `{!Row K R} {DB : Type} `{!Table DB K R}.

Lemma wrapOp_writes {A} code (f : GoM string DB A) db m :
  writes (f db) db m →
  match wrapOp code f db with
  | (Done _, db') => rows db' = m
  | (Fail _, db') => rows db' = rows db ∨ rows db' = m
  | (Panic, _) => False
  end.
Proof. unfold wrapOp, writes. by destruct (f db) as [[a|e|] db']. Qed.

Lemma wrapOp_reads {A} code (f : GoM string DB A) db P :
  reads (f db) db P →
  match wrapOp code f db with
  | (Done a, db') => rows db' = rows db ∧ P a
  | (Fail _, db') => rows db' = rows db
  | (Panic, _) => False
  end.
Proof. unfold wrapOp, reads. by destruct (f db) as [[a|e|] db']; intros [? ?]. Qed.

End tables_spec.

Section workers_spec.
Context {DB : Type} `{!Table DB (MasterID * WorkerID) WorkerStatus, !TableLaws DB (MasterID * WorkerID) WorkerStatus}.

Lemma workers_of_lookup (masterID : MasterID) (m : gmap (MasterID * WorkerID) WorkerStatus) (id : WorkerID) : workers_of masterID m !! id = m !! (masterID, id).
Proof. unfold workers_of. rewrite <- (lookup_map_curry (M1 := gmap MasterID) (M2 := gmap WorkerID)). by destruct (map_curry m !! masterID). Qed.

Lemma worker_assign_update new old : worker_assign WorkerUpdateColumns new old = new.
Proof. by destruct new. Qed.

Lemma worker_assign_map new old : worker_assign WorkerStatus_Map new old = new.
Proof. by destruct new. Qed.

Lemma of_worker_key masterID id s : of_worker masterID id s = true ↔ row_key s = (masterID, id).
Proof.
  unfold of_worker. rewrite andb_true_iff, !bool_decide_eq_true. simpl. split; [by intros [-> ->]|by intros [= -> ->]].
Qed.

(** A change of the table that concerns one worker. *)
Lemma workers_of_insert masterID s m : ws_JobID s = masterID → workers_of masterID (<[row_key s := s]> m) = <[ws_ID s := s]> (workers_of masterID m).
Proof.
  intros Hj. apply map_eq. intros id. rewrite workers_of_lookup. simpl. rewrite Hj. destruct (decide (id = ws_ID s)) as [->|Hne].
  - by rewrite !lookup_insert_eq.
  - rewrite !lookup_insert_ne by congruence. by rewrite workers_of_lookup.
Qed.

Lemma updated_one (m : gmap (MasterID * WorkerID) WorkerStatus) s :
  (∀ k r, m !! k = Some r → row_key r = k) →
  updated (of_worker (ws_JobID s) (ws_ID s)) WorkerStatus_Map s m = UpdateWorker s m.
Proof.
  intros Hk. apply map_eq. intros k. unfold updated, UpdateWorker. rewrite lookup_fmap.
  destruct (m !! (ws_JobID s, ws_ID s)) as [old|] eqn:Ho.
  - destruct (decide (k = (ws_JobID s, ws_ID s))) as [->|Hne].
    + rewrite lookup_insert_eq, Ho. simpl. assert (of_worker (ws_JobID s) (ws_ID s) old = true) as ->.
      { apply of_worker_key. by apply Hk. }
      by rewrite worker_assign_map.
    + rewrite lookup_insert_ne by done. destruct (m !! k) as [r|] eqn:Hr; [|done]. simpl. destruct (of_worker _ _ r) eqn:Hc; [|done].
      apply of_worker_key in Hc. rewrite (Hk _ _ Hr) in Hc. done.
  - destruct (m !! k) as [r|] eqn:Hr; [|done]. simpl. destruct (of_worker _ _ r) eqn:Hc; [|done].
    apply of_worker_key in Hc. rewrite (Hk _ _ Hr) in Hc. subst k. congruence.
Qed.

Lemma upserted_one (m : gmap (MasterID * WorkerID) WorkerStatus) s : upserted WorkerUpdateColumns s m = UpsertWorker s m.
Proof. unfold upserted, UpsertWorker. simpl. destruct (m !! _); [|done]. by rewrite worker_assign_update. Qed.

Lemma kept_one (masterID : MasterID) (id : WorkerID) (m : gmap (MasterID * WorkerID) WorkerStatus) :
  (∀ k r, m !! k = Some r → row_key r = k) → kept (of_worker masterID id) m = delete (masterID, id) m.
Proof.
  intros Hk. apply map_eq. intros k. unfold kept. rewrite map_lookup_filter. destruct (decide (k = (masterID, id))) as [->|Hne].
  - rewrite lookup_delete_eq. destruct (m !! _) as [r|] eqn:Hr; [|done]. simpl. case_guard as Hg; [|done]. simpl in Hg.
    assert (of_worker masterID id r = true) by (apply of_worker_key; by apply Hk). congruence.
  - rewrite lookup_delete_ne by done. destruct (m !! k) as [r|] eqn:Hr; [|done]. simpl. case_guard as Hg; [done|]. exfalso. simpl in Hg.
    destruct (of_worker masterID id r) eqn:Hc; [|done]. apply of_worker_key in Hc. rewrite (Hk _ _ Hr) in Hc. done.
Qed.

Lemma LoadAllWorkers_lookup resp (id : WorkerID) :
  NoDup (ws_ID <$> resp) → ∀ s, LoadAllWorkers resp !! id = Some s ↔ s ∈ resp ∧ ws_ID s = id.
Proof.
  unfold LoadAllWorkers. induction resp as [|x resp IH] using rev_ind; intros Hnd s.
  { simpl. rewrite lookup_empty. split; [done|]. intros [Hin _]. by inversion Hin. }
  rewrite fmap_app in Hnd. apply NoDup_app in Hnd as (Hnd & Hx & _). rewrite foldl_app. simpl. rewrite elem_of_app, list_elem_of_singleton.
  destruct (decide (id = ws_ID x)) as [->|Hne].
  - rewrite lookup_insert_eq. split; [by intros [= ->]; split; [right|]|]. intros [[Hin| ->] Hs]; [|done].
    exfalso. apply (Hx (ws_ID s)); [by apply list_elem_of_fmap_2|]. rewrite Hs. by left.
  - rewrite lookup_insert_ne by done. rewrite (IH Hnd s). split; [naive_solver|]. intros [[?| ->] ?]; [done|congruence].
Qed.

(** The rows of a master, indexed by their ids. *)
Lemma LoadAll_workers_of (masterID : MasterID) (m : gmap (MasterID * WorkerID) WorkerStatus) resp :
  (∀ k r, m !! k = Some r → row_key r = k) →
  resp ≡ₚ (map_to_list (matching (λ s, bool_decide (ws_JobID s = masterID)) m)).*2 → LoadAllWorkers resp = workers_of masterID m.
Proof.
  intros Hk Hp. assert (∀ s, s ∈ resp ↔ m !! (masterID, ws_ID s) = Some s) as Hin.
  { intros s. rewrite Hp, list_elem_of_fmap. split.
    - intros ([k r] & -> & Hr%elem_of_map_to_list). unfold matching in Hr. apply map_lookup_filter_Some in Hr as [Hr Hj]. simpl in *.
      apply bool_decide_eq_true in Hj. pose proof (Hk _ _ Hr) as <-. simpl in Hr. by rewrite <- Hj.
    - intros Hs. exists ((masterID, ws_ID s), s). split; [done|]. apply elem_of_map_to_list, map_lookup_filter_Some. split; [done|]. simpl.
      apply bool_decide_eq_true. by injection (Hk _ _ Hs) as ->. }
  assert (NoDup (ws_ID <$> resp)) as Hnd.
  { apply NoDup_fmap_2_strong.
    - intros x y Hx%Hin Hy%Hin Heq. rewrite Heq in Hx. congruence.
    - rewrite Hp. apply NoDup_fmap_2_strong; [|apply NoDup_map_to_list]. intros [k1 r1] [k2 r2] Q1%elem_of_map_to_list Q2%elem_of_map_to_list [= ->].
      apply map_lookup_filter_Some in Q1 as [Q1 _], Q2 as [Q2 _]. by rewrite <- (Hk _ _ Q1), <- (Hk _ _ Q2). }
  apply map_eq. intros id. apply option_eq. intros s. rewrite (LoadAllWorkers_lookup _ _ Hnd), workers_of_lookup, Hin. split.
  - by intros [? <-].
  - intros Hs. injection (Hk _ _ Hs) as _ ->. done.
Qed.

(** A call that writes and answers [ans], for a write [M] of the table. *)
Lemma write_call {A} (masterID : MasterID) (f : Go DB A) (ans : workerAnswer) (db : DB) M m' :
  match f db with
  | (Done _, db') => rows db' = M
  | (Fail _, db') => rows db' = rows db ∨ rows db' = M
  | (Panic, _) => False
  end →
  (∀ other id, other ≠ masterID → M !! (other, id) = rows db !! (other, id)) → workers_of masterID M = m' →
  let out := (_ ← f; mret ans) db in
  (∀ other id, other ≠ masterID → rows out.2 !! (other, id) = rows db !! (other, id)) ∧
  match out.1 with
  | Done a => Some ans = Some a ∧ workers_of masterID (rows out.2) = m'
  | Fail _ => workers_of masterID (rows out.2) = workers_of masterID (rows db) ∨ workers_of masterID (rows out.2) = m'
  | Panic => False
  end.
Proof.
  intros Hf Ho Hm. unfold mbind, GoM_bind. destruct (f db) as [[a|e|] db']; simpl; [by rewrite Hf| |done].
  destruct Hf as [->| ->]; auto.
Qed.

Lemma row_insert_other (masterID : MasterID) (m : gmap (MasterID * WorkerID) WorkerStatus) (id : WorkerID) s :
  ∀ other id', other ≠ masterID → <[(masterID, id) := s]> m !! (other, id') = m !! (other, id').
Proof. intros other id' Hne. by rewrite lookup_insert_ne by congruence. Qed.

End workers_spec.

(** *** Resources *)

Section resources_spec.
Context {DB : Type} `{!Table DB ResourceID ResourceMeta, !TableLaws DB ResourceID ResourceMeta}.

Lemma resource_assign_update new old : resource_assign ResourceUpdateColumns new old = new.
Proof. by destruct new. Qed.

Lemma resource_assign_map new old : resource_assign ResourceMeta_Map new old = new.
Proof. by destruct new. Qed.

Abbreviation has_id id := (λ r : ResourceMeta, bool_decide (rm_ID r = id)).

Lemma has_id_lookup (m : gmap ResourceID ResourceMeta) id k r :
  (∀ k r, m !! k = Some r → row_key r = k) → m !! k = Some r → has_id id r = bool_decide (k = id).
Proof. intros Hk Hr. by rewrite <- (Hk _ _ Hr). Qed.

Lemma updated_resource (m : gmap ResourceID ResourceMeta) r :
  (∀ k r, m !! k = Some r → row_key r = k) → is_Some (m !! rm_ID r) → updated (has_id (rm_ID r)) ResourceMeta_Map r m = <[rm_ID r := r]> m.
Proof.
  intros Hk [old Ho]. apply map_eq. intros k. unfold updated. rewrite lookup_fmap. destruct (decide (k = rm_ID r)) as [->|Hne].
  - rewrite lookup_insert_eq, Ho. simpl. rewrite (has_id_lookup m _ (rm_ID r)), bool_decide_eq_true_2 by done. by rewrite resource_assign_map.
  - rewrite lookup_insert_ne by done. destruct (m !! k) as [x|] eqn:Hx; [|done]. simpl.
    by rewrite (has_id_lookup m _ k), bool_decide_eq_false_2 by done.
Qed.

Lemma kept_resource (m : gmap ResourceID ResourceMeta) id :
  (∀ k r, m !! k = Some r → row_key r = k) → kept (has_id id) m = delete id m.
Proof.
  intros Hk. apply map_eq. intros k. unfold kept. rewrite map_lookup_filter. destruct (m !! k) as [r|] eqn:Hr; simpl.
  - rewrite (has_id_lookup m id k r) by done. destruct (decide (k = id)) as [->|Hne].
    + by rewrite lookup_delete_eq, bool_decide_eq_true_2.
    + by rewrite lookup_delete_ne, Hr, bool_decide_eq_false_2 by done.
  - destruct (decide (k = id)) as [->|Hne]; [by rewrite lookup_delete_eq|by rewrite lookup_delete_ne].
Qed.

Lemma matching_resource (m : gmap ResourceID ResourceMeta) id :
  (∀ k r, m !! k = Some r → row_key r = k) → size (matching (has_id id) m) = (if m !! id is Some _ then 1 else 0).
Proof.
  intros Hk. assert (matching (has_id id) m = match m !! id with Some r => {[id := r]} | None => ∅ end) as ->.
  { apply map_eq. intros k. unfold matching. rewrite map_lookup_filter. destruct (m !! k) as [r|] eqn:Hr; simpl.
    - rewrite (has_id_lookup m id k r) by done. destruct (decide (k = id)) as [->|Hne].
      + by rewrite Hr, lookup_singleton_eq, bool_decide_eq_true_2.
      + rewrite bool_decide_eq_false_2 by done. simpl. destruct (m !! id); [by rewrite lookup_singleton_ne|by rewrite lookup_empty].
    - destruct (decide (k = id)) as [->|Hne]; [by rewrite Hr, lookup_empty|]. destruct (m !! id); [by rewrite lookup_singleton_ne|by rewrite lookup_empty]. }
  destruct (m !! id); [apply map_size_singleton|apply map_size_empty].
Qed.

(** Errors of the driver that do not quote the name of the error that is looked for. *)
Definition unquoted : Prop :=
  ∀ cond (db : DB) msg, (tbl_first cond db).1 = Fail msg → IsNotFoundError (Some (GoWrap ErrMetaOpFail (ErrForeign msg))) = false.

(** What a read of one resource answers. *)
Lemma Accessor_GetResource_spec id db :
  unquoted →
  let '(r, db') := Accessor_GetResource id db in
  rows db' = rows db ∧ match r with Done o => o = rows db !! id | Fail _ => True | Panic => False end.
Proof.
  intros Hq. unfold Accessor_GetResource, Table_GetResourceByID, mbind, GoM_bind, wrapOp. destruct (tbl_first_law (has_id id) db) as [Hr Hp].
  specialize (Hq (has_id id) db). destruct (tbl_first _ db) as [[[r|]|e|] db']; simpl in *; [| | |done].
  - destruct Hp as [Ho%bool_decide_eq_true Hs]. split; [done|]. rewrite <- Ho. by rewrite Hs.
  - split; [done|]. destruct (rows db !! id) as [r|] eqn:Hl; [|done]. specialize (Hp _ _ Hl). rewrite (has_id_lookup (rows db) id id r) in Hp; [|apply table_keyed|done].
    by rewrite bool_decide_eq_true_2 in Hp.
  - by rewrite (Hq e eq_refl).
Qed.

(** The writes of one resource. *)
Lemma UpsertResource_spec r db :
  match UpsertResource (Some r) db with
  | (Done _, db') => rows db' = <[rm_ID r := r]> (rows db)
  | (Fail _, db') => rows db' = rows db ∨ rows db' = <[rm_ID r := r]> (rows db)
  | (Panic, _) => False
  end.
Proof.
  assert (<[rm_ID r := r]> (rows db) = upserted ResourceUpdateColumns r (rows db)) as ->.
  { unfold upserted. simpl. destruct (rows db !! rm_ID r); [|done]. by rewrite resource_assign_update. }
  apply wrapOp_writes, tbl_upsert_law. intros old _. cbn [row_assign resource_row]. by rewrite resource_assign_update.
Qed.

Lemma UpdateResource_spec r db :
  is_Some (rows db !! rm_ID r) →
  match UpdateResource (Some r) db with
  | (Done _, db') => rows db' = <[rm_ID r := r]> (rows db)
  | (Fail _, db') => rows db' = rows db ∨ rows db' = <[rm_ID r := r]> (rows db)
  | (Panic, _) => False
  end.
Proof.
  intros Hs. rewrite <- (updated_resource (rows db)) by (try apply table_keyed; done).
  apply wrapOp_writes, tbl_updates_law. intros old Ho%bool_decide_eq_true. cbn [row_assign resource_row row_key]. by rewrite resource_assign_map.
Qed.

Lemma CreateResource_spec r db :
  unquoted →
  let '(out, db') := Accessor_CreateResource r db in
  let '(b, m') := if rows db !! rm_ID r is Some _ then (false, rows db) else (true, <[rm_ID r := r]> (rows db)) in
  match out with Done a => a = b ∧ rows db' = m' | Fail _ => rows db' = rows db ∨ rows db' = m' | Panic => False end.
Proof.
  intros Hq. pose proof (Accessor_GetResource_spec (rm_ID r) db Hq) as Hg. unfold Accessor_CreateResource, mbind, GoM_bind.
  destruct (Accessor_GetResource (rm_ID r) db) as [[o|e|] db1]; destruct Hg as [Hr Hg]; [subst o| |done].
  2:{ simpl. destruct (rows db !! rm_ID r); auto. }
  unfold create_after, mbind, GoM_bind. destruct (rows db !! rm_ID r) as [old|]; [done|].
  pose proof (UpsertResource_spec r db1) as Hu. rewrite Hr in Hu. by destruct (UpsertResource _ db1) as [[?|?|] db2].
Qed.

End resources_spec.

(** *** Opening *)

Section opening_spec.
Context {W Conn : Type} `{HC : Countable Conn, !SqlDriver W Conn, !SqlDriverLaws W Conn}.

Lemma createDatabase_spec mc projectID conf (w : W) :
  sc_Endpoints mc ≠ [] →
  let '(r, w') := createDatabaseForProject mc projectID conf w in
  open_pools w' = open_pools w ∧ databases w ⊆ databases w' ∧
  match r with Done _ => projectID ∈ databases w' | Fail _ => True | Panic => False end.
Proof.
  intros He. unfold createDatabaseForProject, generateDSNByParams, dsn_config. destruct (sc_Endpoints mc) as [|addr es]; [done|]. simpl.
  set (dsn := FormatDSN _). destruct (sql_Open_law dsn w) as [Hdb Ho]. unfold wrapOp. destruct (sql_Open dsn w) as [[c|e|] w1]; simpl in *; [|by rewrite Hdb|done].
  destruct Ho as [Hnew Ho]. destruct (sql_Exec_law c (create_database projectID) w1) as (Hp & Hsub & Hnp & Hcr).
  destruct (sql_Exec c _ w1) as [[[]|e|] w2]; simpl in *; [..|done].
  all: destruct (sql_Close_law c w2) as (_ & Hcl & Hcd); rewrite Hcl, Hcd, Hp, Ho, <- Hdb; split_and!; [set_solver|done|by auto].
Qed.

Lemma newSQLDB_spec dsn conf (w : W) :
  let '(r, w') := newSQLDB dsn conf w in
  databases w' = databases w ∧
  match r with
  | Done c => (c ∉ open_pools w) ∧ open_pools w' = {[c]} ∪ open_pools w
  | Fail _ => open_pools w' = open_pools w
  | Panic => False
  end.
Proof.
  unfold newSQLDB, mbind, GoM_bind, wrapOp, modify. destruct (sql_Open_law dsn w) as [Hdb Ho].
  destruct (sql_Open dsn w) as [[c|e|] w1]; simpl in *; [|done..]. destruct (sql_SetPool_law c conf w1) as [-> ->]. by rewrite Hdb.
Qed.

End opening_spec.

(** ** Theorems *)


(** The writes of the worker table are those of the status writer's model: an upsert
    replaces or adds the row, an update replaces it when it is there. *)
Theorem worker_writes_exact {DB} `{!Table DB (MasterID * WorkerID) WorkerStatus, !TableLaws DB (MasterID * WorkerID) WorkerStatus}
    (s : WorkerStatus) (db : DB) :
  match Orm_UpsertWorker (Some s) db with
  | (Done _, db') => rows db' = UpsertWorker s (rows db)
  | (Fail _, db') => rows db' = rows db ∨ rows db' = UpsertWorker s (rows db)
  | (Panic, _) => False
  end ∧
  match Orm_UpdateWorker (Some s) db with
  | (Done _, db') => rows db' = UpdateWorker s (rows db)
  | (Fail _, db') => rows db' = rows db ∨ rows db' = UpdateWorker s (rows db)
  | (Panic, _) => False
  end.
Proof.
  rewrite <- upserted_one, <- (updated_one (rows db)) by apply table_keyed. split; apply wrapOp_writes.
  - apply tbl_upsert_law. intros old _. by rewrite <- (worker_assign_update s old) at 2.
  - apply tbl_updates_law. intros old Ho%of_worker_key. rewrite Ho. cbn [row_assign worker_row]. by rewrite worker_assign_map.
Qed.

(** The accessor of the resource table is a map. Reading, creating, updating and
    deleting a resource answer as the documentation says: creation reports whether the
    resource was new, an update or a deletion whether it was there; a call that fails
    has left the table alone or has taken its effect. *)
Theorem accessor_is_map {DB} `{!Table DB ResourceID ResourceMeta, !TableLaws DB ResourceID ResourceMeta} (c : accessorCall) (db : DB) :
  unquoted (DB := DB) →
  let out := run_accessorCall c db in
  let '(ans, m') := spec_accessorCall c (rows db) in
  match out.1 with
  | Done a => a = ans ∧ rows out.2 = m'
  | Fail _ => rows out.2 = rows db ∨ rows out.2 = m'
  | Panic => False
  end.
Proof.
  intros Hq. destruct c as [id|r|r|id]; cbn [run_accessorCall spec_accessorCall].
  - pose proof (Accessor_GetResource_spec id db Hq) as Hg. unfold mbind, GoM_bind.
    destruct (Accessor_GetResource id db) as [[o|e|] db1]; simpl; destruct Hg as [? Hg]; [by subst|auto|done].
  - pose proof (CreateResource_spec r db Hq) as Hc. unfold mbind, GoM_bind.
    destruct (Accessor_CreateResource r db) as [[?|?|] db1], (rows db !! rm_ID r); simpl; naive_solver.
  - pose proof (Accessor_GetResource_spec (rm_ID r) db Hq) as Hg. unfold Accessor_UpdateResource, mbind, GoM_bind.
    destruct (Accessor_GetResource (rm_ID r) db) as [[o|e|] db1]; destruct Hg as [Hr Hg]; [subst o| |done].
    2:{ simpl. destruct (rows db !! rm_ID r); auto. }
    destruct (rows db !! rm_ID r) as [old|] eqn:Hl; [|done]. pose proof (UpdateResource_spec r db1) as Hu. rewrite Hr, Hl in Hu. specialize (Hu ltac:(by eexists)).
    by destruct (UpdateResource _ db1) as [[?|?|] db2].
  - destruct (tbl_delete_law (λ r, bool_decide (rm_ID r = id)) db) as [Hw%(wrapOp_writes ErrMetaOpFail) Hn]. rewrite kept_resource in Hw by apply table_keyed.
    rewrite matching_resource in Hn by apply table_keyed. unfold Accessor_DeleteResource, Table_DeleteResource, mbind, GoM_bind.
    assert (∀ n db', wrapOp ErrMetaOpFail (tbl_delete (λ r, bool_decide (rm_ID r = id))) db = (Done n, db') → (tbl_delete (λ r, bool_decide (rm_ID r = id)) db).1 = Done n) as Hd.
    { intros n db'. unfold wrapOp. destruct (tbl_delete _ db) as [[?|?|] ?]; naive_solver. }
    destruct (wrapOp _ _ db) as [[n|e|] db'] eqn:He; [|done|done]. cbn. rewrite (Hn n (Hd n db' eq_refl)). split; [|done].
    by destruct (rows db !! id).
Qed.

(** Creation through the accessor is not atomic: between its read and its write another
    creator can come in. Both are told that they created the resource, and the row is
    that of the one who wrote last. The client's own [CreateResource] uses a transaction. *)
Theorem accessor_create_race {DB} `{!Table DB ResourceID ResourceMeta, !TableLaws DB ResourceID ResourceMeta} (r1 r2 : ResourceMeta) (db db1 db2 db3 : DB) found :
  unquoted (DB := DB) → rm_ID r1 = rm_ID r2 → rows db !! rm_ID r1 = None →
  Accessor_GetResource (rm_ID r1) db = (Done found, db1) → Accessor_CreateResource r2 db1 = (Done true, db2) →
  (UpsertResource (Some r1) db2).1 = Done tt → (UpsertResource (Some r1) db2).2 = db3 →
  create_after r1 found db2 = (Done true, db3) ∧ rows db2 !! rm_ID r1 = Some r2 ∧ rows db3 !! rm_ID r1 = Some r1.
Proof.
  intros Hq Hid Hnone Hg Hc Hu <-. pose proof (Accessor_GetResource_spec (rm_ID r1) db Hq) as Q1. rewrite Hg in Q1. destruct Q1 as [Hr ->].
  pose proof (CreateResource_spec r2 db1 Hq) as Q2. rewrite Hc, Hr, <- Hid, Hnone in Q2. destruct Q2 as [_ Q2].
  pose proof (UpsertResource_spec r1 db2) as Q3. rewrite Hnone. unfold create_after, mbind, GoM_bind.
  destruct (UpsertResource (Some r1) db2) as [out db4]. simpl in Hu. subst out. split_and!; [done|..].
  - by rewrite Q2, lookup_insert_eq.
  - simpl. by rewrite Q3, lookup_insert_eq.
Qed.

(** Opening the metastore leaks no connection. With an endpoint, [NewClient] does not
    panic; when it succeeds, the database of the framework exists and the client's pool is
    the only one that was opened and not closed; when any of its steps fails, no pool is
    left open. Without an endpoint it panics. *)
Theorem new_client_leaks_nothing {W Conn} `{HC : Countable Conn, !SqlDriver W Conn, !SqlDriverLaws W Conn} mc conf (w : W) :
  let out := NewClient mc conf w in
  match out.1 with
  | Done c => (c ∉ open_pools w) ∧ open_pools out.2 = {[c]} ∪ open_pools w ∧ FrameTenantID ∈ databases out.2
  | Fail _ => open_pools out.2 = open_pools w
  | Panic => sc_Endpoints mc = []
  end ∧ (sc_Endpoints mc = [] → out.1 = Panic).
Proof.
  destruct (decide (sc_Endpoints mc = [])) as [He|He].
  { unfold NewClient, mbind, GoM_bind, createDatabaseForProject, generateDSNByParams, dsn_config. by rewrite He. }
  split; [|done]. unfold NewClient. pose proof (createDatabase_spec mc FrameTenantID conf w He) as Hc. unfold mbind, GoM_bind.
  destruct (createDatabaseForProject _ _ _ w) as [[[]|e|] w1]; destruct Hc as (Ho1 & _ & Hc); [|exact Ho1|done].
  unfold generateDSNByParams, dsn_config. destruct (sc_Endpoints mc) as [|addr es]; [done|]. cbn [fmap option_fmap option_map].
  set (dsn := FormatDSN _). pose proof (newSQLDB_spec dsn conf w1) as Hn.
  destruct (newSQLDB dsn conf w1) as [[c|e|] w2]; destruct Hn as [Hd2 Hn]; [|by etrans|done]. destruct Hn as [Hnew Ho2].
  destruct (gorm_Open_law c w2) as (Hnp & Ho3 & Hd3). unfold newClient, mbind, GoM_bind, wrapOp.
  destruct (gorm_Open c w2) as [[[]|e|] w3]; cbn in Hnp, Ho3, Hd3 |- *; [| |done].
  - rewrite Ho3, Ho2, Ho1, Hd3, Hd2. by rewrite Ho1 in Hnew.
  - destruct (sql_Close_law c w3) as (_ & Hcl & _). rewrite Hcl, Ho3, Ho2, <- Ho1. set_solver.
Qed.

(** A project exists from its creation to its deletion: it is then found under its id,
    a second creation of it fails, and after its deletion it is not found. *)
Theorem project_lifecycle {DB} `{!Table DB string ProjectInfo, !TableLaws DB string ProjectInfo} (p : ProjectInfo) (db db1 db2 : DB) :
  CreateProject (Some p) db = (Done tt, db1) → DeleteProject (pi_ID p) db1 = (Done tt, db2) →
  (∀ q, (GetProjectByID (pi_ID p) db1).1 = Done q → q = p) ∧ (CreateProject (Some p) db1).1 ≠ Done tt ∧
  (∀ q, (GetProjectByID (pi_ID p) db2).1 ≠ Done q).
Proof.
  intros Hc Hd. assert (rows db1 = created p (rows db)) as H1.
  { destruct (tbl_create_law p db) as [Hw%(wrapOp_writes ErrMetaOpFail) _]. unfold CreateProject in Hc. by rewrite Hc in Hw. }
  assert (∀ d q, (GetProjectByID (pi_ID p) d).1 = Done q → rows d !! pi_ID p = Some q) as Hget.
  { intros d q. unfold GetProjectByID, mbind, GoM_bind, wrapOp. destruct (tbl_first_law (λ x, bool_decide (pi_ID x = pi_ID p)) d) as [_ Hf].
    destruct (tbl_first _ d) as [[[x|]|e|] d']; simpl in *; intros Hq; try done. injection Hq as <-. destruct Hf as [Hid%bool_decide_eq_true Hx].
    by rewrite <- Hid. }
  split_and!.
  - intros q Hq%Hget. rewrite H1 in Hq. unfold created in Hq. simpl in Hq. rewrite lookup_insert_eq in Hq. by injection Hq.
  - intros He. unfold CreateProject, wrapOp in He. destruct (tbl_create_law p db1) as [_ Hn]. rewrite H1 in Hn. unfold created in Hn.
    simpl in Hn. rewrite lookup_insert_eq in Hn. destruct (tbl_create p db1) as [[[]|?|] ?]; [|done..]. by specialize (Hn eq_refl).
  - intros q Hq%Hget. destruct (tbl_delete_law (λ x, bool_decide (pi_ID x = pi_ID p)) db1) as [Hw%(wrapOp_writes ErrMetaOpFail) _].
    unfold DeleteProject, mbind, GoM_bind in Hd. destruct (wrapOp _ _ db1) as [[n|e|] d']; [|done..]. injection Hd as ->. rewrite Hw in Hq.
    unfold kept in Hq. apply map_lookup_filter_Some in Hq as [Hl Hn]. simpl in Hn. apply bool_decide_eq_false in Hn. apply Hn.
    exact (table_keyed db1 _ _ Hl).
Qed.

(** The operations of a project in a range of time are those whose time of creation is
    between the two ends, which belong to the range. *)
Theorem operations_in_range {DB} `{!Table DB Z ProjectOperation, !TableLaws DB Z ProjectOperation} projectID tr (db db' : DB) l :
  QueryProjectOperationsByTimeRange projectID tr db = (Done l, db') →
  rows db' = rows db ∧
  ∀ op, op ∈ l ↔ rows db !! po_SeqID op = Some op ∧ po_ProjectID op = projectID ∧ (tr_start tr ≤ po_CreatedAt op ≤ tr_end tr)%Z.
Proof.
  intros Hq. pose proof (wrapOp_reads ErrMetaOpFail _ db _ (tbl_find_law (in_range projectID tr) db)) as Hr.
  unfold QueryProjectOperationsByTimeRange in Hq. rewrite Hq in Hr. destruct Hr as [-> Hp]. split; [done|]. intros op. rewrite Hp, list_elem_of_fmap.
  assert (∀ o, in_range projectID tr o = true ↔ po_ProjectID o = projectID ∧ (tr_start tr ≤ po_CreatedAt o ≤ tr_end tr)%Z) as Hin.
  { intros o. unfold in_range. rewrite !andb_true_iff, !bool_decide_eq_true. lia || tauto. }
  split.
  - intros ([k o] & -> & Ho%elem_of_map_to_list). unfold matching in Ho. apply map_lookup_filter_Some in Ho as [Ho Hc]. simpl in *. apply Hin in Hc.
    split; [|done]. pose proof (table_keyed db _ _ Ho) as Hk. simpl in Hk. by rewrite Hk.
  - intros [Ho Hc]. exists (po_SeqID op, op). split; [done|]. apply elem_of_map_to_list, map_lookup_filter_Some. split; [done|]. by apply Hin.
Qed.

(** ** An in-memory table *)

Section mem.
Context {K R : Type} `{Countable K} `{!Row K R}.

(** The rows that are stored under their key. *)
Definition mem_rows (db : gmap K R) : gmap K R := filter (λ kv, row_key kv.2 = kv.1) db.

#[export] Instance MemTable : Table (gmap K R) K R := {|
  rows := mem_rows;
  tbl_create r db :=
    match mem_rows db !! row_key r with Some _ => (Fail "Duplicate entry", db) | None => (Done tt, created r (mem_rows db)) end;
  tbl_upsert cols r db := (Done tt, upserted cols r (mem_rows db));
  tbl_updates cond cols r db := (Done tt, updated cond cols r (mem_rows db));
  tbl_delete cond db := (Done (Z.of_nat (size (matching cond (mem_rows db)))), kept cond (mem_rows db));
  tbl_first cond db := (Done (list_find (λ kv, cond kv.2 = true) (map_to_list (mem_rows db)) ≫= λ x, Some x.2.2), db);
  tbl_find cond db := (Done (map_to_list (matching cond (mem_rows db))).*2, db);
|}.

Lemma mem_rows_keyed db k r : mem_rows db !! k = Some r → row_key r = k.
Proof. unfold mem_rows. by intros [_ ?]%map_lookup_filter_Some. Qed.

Lemma mem_rows_id m : (∀ k r, m !! k = Some r → row_key r = k) → mem_rows m = m.
Proof. intros Hm. apply map_filter_id. intros k r Hr. by apply Hm. Qed.

#[export] Instance MemTable_laws : TableLaws (gmap K R) K R.
Proof.
  split.
  - intros db k r. apply mem_rows_keyed.
  - intros r db. unfold writes, tbl_create, rows; simpl. destruct (mem_rows db !! row_key r) eqn:Hr; simpl; [by split; [left|]|]. split; [|done].
    apply mem_rows_id. intros k x. unfold created. rewrite lookup_insert_Some. intros [[<- <-]|[_ ?%mem_rows_keyed]]; done.
  - intros cols r db Hk. unfold writes, tbl_upsert, rows; simpl. apply mem_rows_id. intros k x. unfold upserted. rewrite lookup_insert_Some.
    intros [[<- <-]|[_ ?%mem_rows_keyed]]; [|done]. destruct (mem_rows db !! row_key r) eqn:Hr; [|done]. by apply Hk, (mem_rows_keyed db).
  - intros cond cols r db Hk. unfold writes, tbl_updates, rows; simpl. apply mem_rows_id. intros k x. unfold updated. rewrite lookup_fmap_Some.
    intros (old & <- & Ho%mem_rows_keyed). destruct (cond old) eqn:Hc; [by rewrite Hk|done].
  - intros cond db. unfold writes, tbl_delete, rows; simpl. split; [|by intros n [= <-]]. apply mem_rows_id. intros k x. unfold kept.
    by intros [?%mem_rows_keyed _]%map_lookup_filter_Some.
  - intros cond db. split; [done|]. simpl. destruct (list_find _ _) as [[i [k r]]|] eqn:Hf; simpl.
    + apply list_find_Some in Hf as (Hl & Hc & _). split; [done|]. apply list_elem_of_lookup_2, elem_of_map_to_list in Hl.
      by rewrite (mem_rows_keyed db k r).
    + intros k r Hr. apply list_find_None in Hf. destruct (cond r) eqn:Hc; [|done]. exfalso.
      apply elem_of_map_to_list in Hr. eapply Forall_forall in Hf; [|exact Hr]. by apply Hf.
  - intros cond db. split; [done|]. simpl. reflexivity.
Qed.

End mem.

(** A driver whose pools are numbered and whose calls succeed. *)
Record MemSql := mkMemSql { ms_pools : gset nat; ms_databases : gset string }.

Fixpoint strip_prefix (p q : string) : option string :=
  match p, q with
  | EmptyString, _ => Some q
  | String a p', String b q' => if Ascii.eqb a b then strip_prefix p' q' else None
  | _, _ => None
  end.

Lemma strip_prefix_app p q : strip_prefix p (p +:+ q) = Some q.
Proof. induction p as [|a p IH]; [done|]. simpl. by rewrite Ascii.eqb_refl. Qed.

(** The database a statement creates, when it is one that creates a database. *)
Definition created_database (q : string) : gset string :=
  match strip_prefix "CREATE DATABASE if not exists " q with Some db => {[db]} | None => ∅ end.

#[export] Instance MemSql_driver : SqlDriver MemSql nat := {|
  FormatDSN c := dsn_User c +:+ ":" +:+ dsn_Passwd c +:+ "@" +:+ dsn_Net c +:+ "(" +:+ dsn_Addr c +:+ ")/" +:+ dsn_DBName c;
  open_pools := ms_pools;
  databases := ms_databases;
  sql_Open _ w := let c := fresh (ms_pools w) in (Done c, mkMemSql ({[c]} ∪ ms_pools w) (ms_databases w));
  sql_Exec _ q w := (Done tt, mkMemSql (ms_pools w) (created_database q ∪ ms_databases w));
  sql_Close c w := (Done tt, mkMemSql (ms_pools w ∖ {[c]}) (ms_databases w));
  sql_SetPool _ _ w := w;
  gorm_Open c w := if decide (c ∈ ms_pools w) then (Done tt, w) else (Fail "closed", w);
|}.

#[export] Instance MemSql_laws : SqlDriverLaws MemSql nat.
Proof.
  split; simpl.
  - intros dsn w. split_and!; [done|apply is_fresh|done].
  - intros c q w. split_and!; [done|set_solver|done|]. intros db -> _. unfold created_database, create_database. rewrite strip_prefix_app. set_solver.
  - done.
  - done.
  - intros c w. by case_decide.
Qed.

Module Witness.

Abbreviation WDB := (gmap (MasterID * WorkerID) WorkerStatus).
Definition worker0 (master : MasterID) (id : WorkerID) : WorkerStatus := mkWorkerStatus "p" master id 0 WorkerStatusNormal "" "".
Definition wdb0 : WDB := {[("m", "w1") := worker0 "m" "w1"; ("n", "w1") := worker0 "n" "w1"]}.


Lemma worker_writes_exact_witness : rows (Orm_UpsertWorker (DB := WDB) (Some (worker0 "m" "w2")) wdb0).2 = UpsertWorker (worker0 "m" "w2") (rows wdb0).
Proof. exact (proj1 (worker_writes_exact (DB := WDB) (worker0 "m" "w2") wdb0)). Defined.

Abbreviation RDB := (gmap ResourceID ResourceMeta).
Definition res0 (worker : WorkerID) : ResourceMeta := mkResourceMeta "/local/r" "job" worker "e1" false.

Lemma mem_unquoted : unquoted (DB := RDB).
Proof. intros cond db msg Hm. discriminate. Qed.

Lemma accessor_is_map_witness :
  (run_accessorCall (DB := RDB) (acc_Create (res0 "w1")) ∅).1 = Done (acc_did true) ∧
  rows (run_accessorCall (DB := RDB) (acc_Create (res0 "w1")) ∅).2 = <["/local/r" := res0 "w1"]> ∅.
Proof. split; [vm_compute; reflexivity|]. exact (proj2 (accessor_is_map (DB := RDB) (acc_Create (res0 "w1")) ∅ mem_unquoted)). Defined.

Definition rdb1 : RDB := (Accessor_GetResource (DB := RDB) "/local/r" ∅).2.
Definition rdb2 : RDB := (Accessor_CreateResource (DB := RDB) (res0 "w2") rdb1).2.
Definition rdb3 : RDB := (UpsertResource (DB := RDB) (Some (res0 "w1")) rdb2).2.

Lemma accessor_create_race_witness :
  create_after (DB := RDB) (res0 "w1") None rdb2 = (Done true, rdb3) ∧ rows rdb2 !! "/local/r" = Some (res0 "w2") ∧ rows rdb3 !! "/local/r" = Some (res0 "w1").
Proof.
  apply (accessor_create_race (DB := RDB) (res0 "w1") (res0 "w2") ∅ rdb1 rdb2 rdb3 None mem_unquoted);
    [reflexivity|reflexivity|vm_compute; reflexivity|vm_compute; reflexivity|reflexivity|reflexivity].
Defined.

Definition store0 : StoreConfigParams := mkStoreConfig "root" ["127.0.0.1:3336"] "root" "123456".
Definition sql0 : MemSql := mkMemSql ∅ ∅.

Lemma new_client_leaks_nothing_witness :
  match (NewClient store0 NewDefaultDBConfig sql0).1 with
  | Done c => open_pools (NewClient store0 NewDefaultDBConfig sql0).2 = {[c]} ∪ ∅
  | _ => False
  end.
Proof.
  destruct (new_client_leaks_nothing (W := MemSql) (Conn := nat) store0 NewDefaultDBConfig sql0) as [Hc _].
  assert ((NewClient store0 NewDefaultDBConfig sql0).1 = Done (fresh (∅ : gset nat))) as He by (vm_compute; reflexivity).
  rewrite He in Hc |- *. exact (proj1 (proj2 Hc)).
Defined.

Abbreviation PDB := (gmap string ProjectInfo).
Definition project0 : ProjectInfo := mkProjectInfo "p1" "first".
Definition pdb1 : PDB := (CreateProject (DB := PDB) (Some project0) ∅).2.
Definition pdb2 : PDB := (DeleteProject (DB := PDB) "p1" pdb1).2.

Lemma project_lifecycle_witness : (CreateProject (DB := PDB) (Some project0) pdb1).1 ≠ Done tt ∧ ∀ q, (GetProjectByID (DB := PDB) "p1" pdb2).1 ≠ Done q.
Proof. apply (project_lifecycle (DB := PDB) project0 ∅ pdb1 pdb2); vm_compute; reflexivity. Defined.

Abbreviation ODB := (gmap Z ProjectOperation).
Definition op0 (n : Z) (t : Time) : ProjectOperation := mkProjectOperation n "p1" "create" "job" t.
Definition odb0 : ODB := {[1%Z := op0 1 10; 2%Z := op0 2 20]}.

Lemma operations_in_range_witness :
  op0 2 20 ∈ match (QueryProjectOperationsByTimeRange (DB := ODB) "p1" (mkTimeRange 15 20) odb0).1 with Done l => l | _ => [] end.
Proof.
  apply (operations_in_range (DB := ODB) "p1" (mkTimeRange 15 20) odb0 odb0
           (match (QueryProjectOperationsByTimeRange (DB := ODB) "p1" (mkTimeRange 15 20) odb0).1 with Done l => l | _ => [] end));
    [vm_compute; reflexivity|]. split_and!; [vm_compute; reflexivity|reflexivity|simpl; lia|simpl; lia].
Defined.

End Witness.
