(* ===== verification/FakeWorker.v ===== *)
(** * The worker of the fake job ([lib/fake/fake_worker.go])

    A fake worker counts its ticks up to a target and, when asked to, counts the changes of
    a key of etcd from a goroutine that watches the key. It is a [WorkerImpl]. The goroutine
    is a position with one step per blocking call; the answer of the call is an argument
    of the step. The store that is watched is the history of the key. *)

From S2P Require Import Prelude Errors Model Worker P2P BaseWorker.

(** ** Data *)

Record workerCheckpoint := mkWorkerCheckpoint { wc_Tick : Z; wc_Revision : Z; wc_MvccCount : Z; wc_Value : string }.

Definition zeroWorkerCheckpoint : workerCheckpoint := mkWorkerCheckpoint 0 0 0 "".

(** The configuration of a worker, [WorkerConfig] of the package. *)
Record FakeWorkerConfig := mkFakeWorkerConfig {
  fwc_ID : Z;
  fwc_TargetTick : Z;
  fwc_EtcdWatchEnable : bool;
  fwc_EtcdEndpoints : list string;
  fwc_EtcdWatchPrefix : string;
  fwc_InjectErrorInterval : Z;
  fwc_Checkpoint : workerCheckpoint;
}.

(** [dws_Checkpoint] is a pointer. *)
Record dummyWorkerStatus := mkDummyStatus { dws_BusinessID : Z; dws_Tick : Z; dws_Checkpoint : option workerCheckpoint }.

(** [encoding/json] on the status. A string that is not valid UTF-8 is not read back as it
    was; nil bytes are not a value. *)
Class FakeStatusJSON := { dws_Marshal : dummyWorkerStatus → res goerr string; dws_Unmarshal : string → option dummyWorkerStatus }.
Definition with_value (v : string) (c : workerCheckpoint) : workerCheckpoint := mkWorkerCheckpoint (wc_Tick c) (wc_Revision c) (wc_MvccCount c) v.
Class FakeStatusJSONLaws `{!FakeStatusJSON} : Prop := {
  dws_total st : ∃ b, dws_Marshal st = Done b ∧ b ≠ "";
  dws_roundtrip st b : dws_Marshal st = Done b →
    ∃ v, dws_Unmarshal b = Some (mkDummyStatus (dws_BusinessID st) (dws_Tick st) (with_value v <$> dws_Checkpoint st));
  dws_nil : dws_Unmarshal "" = None;
}.

(** An event of a watch, and a response on its channel: [resp.Err()], the events, or the
    end of the channel. *)
Inductive EventType := PUT | DELETE.
Record Event := mkEvent { ev_Type : EventType; ev_Value : string; ev_ModRevision : Z }.
Inductive watchResponse := RespErr (err : goerr) | RespEvents (events : list Event) | RespClosed.

(** Where the goroutine that watches is: not started, in its set-up, at the head of the
    loop, in the range over the channel of a watch, returned with an error, and done. *)
Inductive watch_pc := WatchNone | WatchStart | WatchLoop | WatchRange | WatchReturned (err : goerr) | WatchDone.

Record dummyWorker := mkDummyWorker {
  fw_init : bool;
  fw_closed : bool;
  fw_status : dummyWorkerStatus;
  fw_config : FakeWorkerConfig;
  fw_errCh : option goerr;
  fw_statusCode : Z;
  fw_startTime : Z;
  fw_watch : watch_pc;
}.

(** ** Assignments *)

Definition fw_set_init (d : dummyWorker) : dummyWorker :=
  mkDummyWorker true (fw_closed d) (fw_status d) (fw_config d) (fw_errCh d) (fw_statusCode d) (fw_startTime d) (fw_watch d).
Definition fw_set_closed (d : dummyWorker) : dummyWorker :=
  mkDummyWorker (fw_init d) true (fw_status d) (fw_config d) (fw_errCh d) (fw_statusCode d) (fw_startTime d) (fw_watch d).
Definition fw_set_status (st : dummyWorkerStatus) (d : dummyWorker) : dummyWorker :=
  mkDummyWorker (fw_init d) (fw_closed d) st (fw_config d) (fw_errCh d) (fw_statusCode d) (fw_startTime d) (fw_watch d).
Definition fw_set_errCh (err : option goerr) (d : dummyWorker) : dummyWorker :=
  mkDummyWorker (fw_init d) (fw_closed d) (fw_status d) (fw_config d) err (fw_statusCode d) (fw_startTime d) (fw_watch d).
Definition fw_setStatusCode (code : Z) (d : dummyWorker) : dummyWorker :=
  mkDummyWorker (fw_init d) (fw_closed d) (fw_status d) (fw_config d) (fw_errCh d) code (fw_startTime d) (fw_watch d).
Definition fw_set_startTime (now : Z) (d : dummyWorker) : dummyWorker :=
  mkDummyWorker (fw_init d) (fw_closed d) (fw_status d) (fw_config d) (fw_errCh d) (fw_statusCode d) now (fw_watch d).
Definition fw_set_watch (pc : watch_pc) (d : dummyWorker) : dummyWorker :=
  mkDummyWorker (fw_init d) (fw_closed d) (fw_status d) (fw_config d) (fw_errCh d) (fw_statusCode d) (fw_startTime d) pc.

(** ** The status *)

Definition status_tick (st : dummyWorkerStatus) : dummyWorkerStatus :=
  mkDummyStatus (dws_BusinessID st) (int64 (dws_Tick st + 1)) (dws_Checkpoint st).

(** The pointer is dereferenced. *)
Definition getEtcdCheckpoint (st : dummyWorkerStatus) : option workerCheckpoint := dws_Checkpoint st.

Definition setEtcdCheckpoint (ckpt : workerCheckpoint) (st : dummyWorkerStatus) : dummyWorkerStatus :=
  mkDummyStatus (dws_BusinessID st) (dws_Tick st) (Some ckpt).

(** Of the checkpoint, the value is not taken over. *)
Definition NewDummyWorker (wcfg : FakeWorkerConfig) : dummyWorker :=
  let c := fwc_Checkpoint wcfg in
  mkDummyWorker false false (mkDummyStatus (fwc_ID wcfg) (wc_Tick c) (Some (mkWorkerCheckpoint 0 (wc_Revision c) (wc_MvccCount c) "")))
    wcfg None 0 0 WatchNone.

(** ** The goroutine that watches *)

(** One event of a response. *)
Definition watch_event (event : Event) (d : dummyWorker) : option dummyWorker :=
  match getEtcdCheckpoint (fw_status d) with
  | None => None
  | Some ckpt =>
      let value := match ev_Type event with PUT => ev_Value event | DELETE => "" end in
      Some (fw_set_status (setEtcdCheckpoint (mkWorkerCheckpoint (wc_Tick ckpt) (ev_ModRevision event) (int64 (wc_MvccCount ckpt + 1)) value) (fw_status d)) d)
  end.

Fixpoint watch_events (events : list Event) (d : dummyWorker) : option dummyWorker :=
  match events with
  | [] => Some d
  | event :: rest => match watch_event event d with Some d' => watch_events rest d' | None => None end
  end.

(** [clientv3.New]. *)
Definition watch_start (conn : option goerr) (d : dummyWorker) : option dummyWorker :=
  match fw_watch d with
  | WatchStart => Some (fw_set_watch (match conn with Some err => WatchReturned err | None => WatchLoop end) d)
  | _ => None
  end.

(** The key, and the revision of [WithRev] when there is one. *)
Definition watch_key (format_int : Z → string) (d : dummyWorker) : string := fwc_EtcdWatchPrefix (fw_config d) +:+ format_int (fwc_ID (fw_config d)).
Definition watch_rev (d : dummyWorker) : option Z :=
  match getEtcdCheckpoint (fw_status d) with
  | Some ckpt => if bool_decide (0 < wc_Revision ckpt)%Z then Some (int64 (wc_Revision ckpt + 1)) else None
  | None => None
  end.

(** The head of the loop: [ctxErr] when the context is done, a watch otherwise. *)
Definition watch_open (ctxErr : option goerr) (d : dummyWorker) : option dummyWorker :=
  match fw_watch d with
  | WatchLoop => Some (fw_set_watch (match ctxErr with Some err => WatchReturned err | None => WatchRange end) d)
  | _ => None
  end.

(** A response; [None] is also the panic on a checkpoint that is nil. *)
Definition watch_response (resp : watchResponse) (d : dummyWorker) : option dummyWorker :=
  match fw_watch d with
  | WatchRange =>
      match resp with
      | RespErr _ | RespClosed => Some (fw_set_watch WatchLoop d)
      | RespEvents events => watch_events events d
      end
  | _ => None
  end.

(** The error goes to [errCh] when it has room. *)
Definition watch_report (d : dummyWorker) : option dummyWorker :=
  match fw_watch d with
  | WatchReturned err => Some (fw_set_watch WatchDone (fw_set_errCh (Some (default err (fw_errCh d))) d))
  | _ => None
  end.

Definition bgRunEtcdWatcher (d : dummyWorker) : dummyWorker := fw_set_watch WatchStart d.

(** ** The methods of the worker *)

(** A report that is to be repeated is not an error. *)
Definition or_again {S} (f : Go S unit) : Go S unit := λ s,
  match f s with
  | (Fail err, s') => if err_Equal ErrWorkerUpdateStatusTryAgain (Some err) then (Done tt, s') else (Fail err, s')
  | out => out
  end.

Section worker.
Context {DB Srv : Type} `{!FakeStatusJSON}.
Abbreviation St := (WorkerSt DB Srv dummyWorker).

Definition set_dummy (d : dummyWorker) (s : St) : St := mkWorkerSt (wk_err s) (wk_base s) (wk_db s) d.
Definition on_dummy (f : dummyWorker → dummyWorker) : Go St unit := λ s, (Done tt, set_dummy (f (wk_impl s)) s).

Definition FakeWorker_InitImpl (now : Z) : Go St unit :=
  s ← get;
  let d := wk_impl s in
  if fw_init d then throw (ErrForeign "repeated init") else
  on_dummy (λ d, fw_set_startTime now (fw_setStatusCode WorkerStatusNormal (fw_set_init
    (if fwc_EtcdWatchEnable (fw_config d) then bgRunEtcdWatcher d else d)))).

(** The code and the bytes; a failure to encode panics. *)
Definition FakeWorker_Status : Go St (Z * string) :=
  s ← get;
  let d := wk_impl s in
  if fw_init d then match dws_Marshal (fw_status d) with Done b => mret (fw_statusCode d, b) | _ => panic end
  else mret (WorkerStatusCreated, "").

Definition FakeWorker_Exit (io : io_result) : Go St unit :=
  '(code, ext) ← FakeWorker_Status;
  Base_Exit io code "" ext None.

Definition FakeWorker_report (io : io_result) : Go St unit :=
  '(code, ext) ← FakeWorker_Status;
  or_again (Base_UpdateStatus io code "" ext).

(** [allow] is the answer of the rate limiter, [io] what the status writer meets. *)
Definition FakeWorker_Tick (allow : bool) (io : io_result) (now : Z) : Go St unit :=
  s ← get;
  let d := wk_impl s in
  if negb (fw_init d) then throw (ErrForeign "not yet init") else
  match fw_errCh d with
  | Some err => _ ← on_dummy (fw_set_errCh None); throw err
  | None =>
      _ ← on_dummy (λ d, fw_set_status (status_tick (fw_status d)) d);
      if allow then FakeWorker_report io else
      s ← get;
      let d := wk_impl s in
      if fw_closed d then mret tt else
      if bool_decide (fw_statusCode d = WorkerStatusStopped) then
        (_ ← on_dummy (fw_setStatusCode WorkerStatusStopped); FakeWorker_Exit io)
      else if bool_decide (fwc_TargetTick (fw_config d) ≤ dws_Tick (fw_status d))%Z then
        (_ ← on_dummy (fw_setStatusCode WorkerStatusFinished); FakeWorker_Exit io)
      else if bool_decide (fwc_InjectErrorInterval (fw_config d) ≠ 0%Z ∧ (fwc_InjectErrorInterval (fw_config d) < now - fw_startTime d)%Z) then
        throw (ErrForeign "injected error by worker")
      else mret tt
  end.

Definition FakeWorker_OnMasterMessage (msg : StatusChangeRequest) (d : dummyWorker) : dummyWorker :=
  if bool_decide (scr_ExpectState msg = WorkerStatusStopped) then fw_setStatusCode WorkerStatusStopped d else d.

Definition FakeWorker_Workload : Z := 10.

Definition fake_WorkerImpl (allow : bool) (io : io_result) (now : Z) : WorkerImpl St := {|
  WorkerImpl_InitImpl := FakeWorker_InitImpl now;
  WorkerImpl_Tick := FakeWorker_Tick allow io now;
  OnMasterFailover := mret tt;
  OnMasterMessage _ msg := on_dummy (FakeWorker_OnMasterMessage msg);
  WorkerImpl_CloseImpl := on_dummy fw_set_closed;
|}.

End worker.

(** ** Specification *)

(** The history of the key, and the position in it of the next event of the open watch. *)
Record Watched := mkWatched { wd_hist : list Event; wd_next : nat }.

Definition event_value (e : Event) : string := match ev_Type e with PUT => ev_Value e | DELETE => "" end.

(** Revisions are positive and grow. *)
Definition increasing (hist : list Event) : Prop :=
  (∀ i j e e', hist !! i = Some e → hist !! j = Some e' → i < j → (ev_ModRevision e < ev_ModRevision e')%Z) ∧
  (∀ i e, hist !! i = Some e → (0 < ev_ModRevision e < 2 ^ 63 - 1)%Z).

(** The documented behaviour of [Watch]: with a revision, it delivers the events from that
    revision on; without one, those that come after it is opened. *)
Definition watch_position (hist : list Event) (rev : option Z) : nat :=
  match rev with Some r => length (filter (λ e, ev_ModRevision e < r)%Z hist) | None => length hist end.

(** A checkpoint counts the events of the history from the [first]-th one to the one of its
    revision. *)
Definition counts (first : nat) (hist : list Event) (ck : workerCheckpoint) : Prop :=
  ∃ k e, first ≤ k ∧ hist !! k = Some e ∧ wc_Revision ck = ev_ModRevision e ∧ wc_MvccCount ck = int64 (Z.of_nat (S k - first)).

Definition counts_nothing (ck : workerCheckpoint) : Prop := wc_Revision ck = 0%Z ∧ wc_MvccCount ck = 0%Z.

(** What a configuration starts from: [None] when nothing was counted. *)
Definition starts_from (start : option nat) (hist : list Event) (ck : workerCheckpoint) : Prop :=
  match start with Some first => counts first hist ck | None => counts_nothing ck end.

(** A run of a worker created with a configuration, with the number of ticks it counted:
    the methods of the worker, the steps of the goroutine, changes of the key, and
    whatever happens to the base worker. *)
Section runs.
Context {DB Srv : Type} `{!FakeStatusJSON}.
Abbreviation St := (WorkerSt DB Srv dummyWorker).

Definition counted (d : dummyWorker) : nat := if fw_init d then match fw_errCh d with None => 1 | Some _ => 0 end else 0.

Inductive fake_run (cfg : FakeWorkerConfig) (start : option nat) : nat → Watched → St → Prop :=
| fr_start w s :
    wk_impl s = NewDummyWorker cfg → in_int64 (wc_Tick (fwc_Checkpoint cfg)) → increasing (wd_hist w) → starts_from start (wd_hist w) (fwc_Checkpoint cfg) →
    fake_run cfg start 0 w s
| fr_base n w s err b db : fake_run cfg start n w s → fake_run cfg start n w (mkWorkerSt err b db (wk_impl s))
| fr_init n w s now r s' : fake_run cfg start n w s → FakeWorker_InitImpl now s = (r, s') → fake_run cfg start n w s'
| fr_tick n w s allow io now r s' :
    fake_run cfg start n w s → FakeWorker_Tick allow io now s = (r, s') → fake_run cfg start (counted (wk_impl s) + n) w s'
| fr_message n w s msg : fake_run cfg start n w s → fake_run cfg start n w (set_dummy (FakeWorker_OnMasterMessage msg (wk_impl s)) s)
| fr_close n w s : fake_run cfg start n w s → fake_run cfg start n w (set_dummy (fw_set_closed (wk_impl s)) s)
| fr_change n w s e :
    fake_run cfg start n w s → increasing (wd_hist w ++ [e]) → fake_run cfg start n (mkWatched (wd_hist w ++ [e]) (wd_next w)) s
| fr_watch_start n w s conn d : fake_run cfg start n w s → watch_start conn (wk_impl s) = Some d → fake_run cfg start n w (set_dummy d s)
| fr_watch_open n w s ctxErr d :
    fake_run cfg start n w s → watch_open ctxErr (wk_impl s) = Some d →
    fake_run cfg start n (mkWatched (wd_hist w) (watch_position (wd_hist w) (watch_rev (wk_impl s)))) (set_dummy d s)
| fr_watch_events n w s events d :
    fake_run cfg start n w s → events = take (length events) (drop (wd_next w) (wd_hist w)) → watch_response (RespEvents events) (wk_impl s) = Some d →
    fake_run cfg start n (mkWatched (wd_hist w) (wd_next w + length events)) (set_dummy d s)
| fr_watch_broken n w s resp d :
    fake_run cfg start n w s → (∀ events, resp ≠ RespEvents events) → watch_response resp (wk_impl s) = Some d → fake_run cfg start n w (set_dummy d s)
| fr_watch_report n w s d : fake_run cfg start n w s → watch_report (wk_impl s) = Some d → fake_run cfg start n w (set_dummy d s).

End runs.

(** The invariant of these runs. *)
Definition reads_on (w : Watched) (d : dummyWorker) (ck : workerCheckpoint) : Prop :=
  fw_watch d = WatchRange → wd_next w ≤ length (wd_hist w) ∧ ∀ k e, wd_hist w !! k = Some e → wc_Revision ck = ev_ModRevision e → wd_next w = S k.

Definition counted_so_far (cfg : FakeWorkerConfig) (start : option nat) (hist : list Event) (ck : workerCheckpoint) : Prop :=
  (starts_from start hist ck ∧ wc_Revision ck = wc_Revision (fwc_Checkpoint cfg) ∧ wc_Value ck = "") ∨
  (∃ first k e, first ≤ k ∧ hist !! k = Some e ∧ wc_Revision ck = ev_ModRevision e ∧ wc_MvccCount ck = int64 (Z.of_nat (S k - first)) ∧
     wc_Value ck = event_value e ∧ match start with Some f => first = f | None => True end).

Record fake_inv (cfg : FakeWorkerConfig) (start : option nat) (n : nat) (w : Watched) (d : dummyWorker) : Prop := mkFakeInv {
  fi_config : fw_config d = cfg;
  fi_id : dws_BusinessID (fw_status d) = fwc_ID cfg;
  fi_tick : dws_Tick (fw_status d) = int64 (wc_Tick (fwc_Checkpoint cfg) + Z.of_nat n);
  fi_code : fw_statusCode d = WorkerStatusFinished → ∃ k, k ≤ n ∧ (fwc_TargetTick cfg ≤ int64 (wc_Tick (fwc_Checkpoint cfg) + Z.of_nat k))%Z;
  fi_hist : increasing (wd_hist w);
  fi_ckpt : ∃ ck, dws_Checkpoint (fw_status d) = Some ck ∧ counted_so_far cfg start (wd_hist w) ck ∧ reads_on w d ck;
}.

(** *** Lemmas on the history *)

Lemma increasing_inj hist i j e e' : increasing hist → hist !! i = Some e → hist !! j = Some e' → ev_ModRevision e = ev_ModRevision e' → i = j.
Proof.
  intros [Hs _] Hi Hj He. destruct (Nat.lt_trichotomy i j) as [Hl|[?|Hl]]; [|done|]; [specialize (Hs _ _ _ _ Hi Hj Hl)|specialize (Hs _ _ _ _ Hj Hi Hl)]; lia.
Qed.

(** A watch from the revision after that of an event starts with the next event. *)
Lemma watch_position_next hist k e : increasing hist → hist !! k = Some e → watch_position hist (Some (ev_ModRevision e + 1)%Z) = S k.
Proof.
  intros [Hs _] Hk. unfold watch_position. rewrite <- (take_drop (S k) hist) at 1. rewrite filter_app, length_app. apply lookup_lt_Some in Hk as Hl.
  rewrite filter_Forall, filter_Forall_not; [rewrite length_take, Nat.min_l by lia; simpl; lia| |].
  - apply Forall_lookup. intros i e' Hi. rewrite lookup_drop in Hi. specialize (Hs _ _ _ _ Hk Hi ltac:(lia)). simpl. lia.
  - apply Forall_lookup. intros i e' Hi. apply lookup_take_Some in Hi as [Hi Hl']. destruct (decide (i = k)) as [->|Hne]; [assert (e' = e) as -> by congruence; simpl; lia|].
    specialize (Hs _ _ _ _ Hi Hk ltac:(lia)). simpl. lia.
Qed.

Lemma counted_grows cfg start hist e ck : counted_so_far cfg start hist ck → counted_so_far cfg start (hist ++ [e]) ck.
Proof.
  assert (∀ k e', hist !! k = Some e' → (hist ++ [e]) !! k = Some e') as Hl by (intros k e' Hk; by apply lookup_app_l_Some).
  intros [(Hs & Hr)|(first & k & e' & H1 & H2 & H3)]; [left|right; exists first, k, e'; naive_solver]. split; [|done].
  destruct start as [f|]; [|done]. destruct Hs as (k & e' & H1 & H2 & H3). exists k, e'. naive_solver.
Qed.

(** The revision of a checkpoint is that of an event, or zero. *)
Lemma counted_event cfg start hist ck :
  counted_so_far cfg start hist ck → counts_nothing ck ∨ ∃ first k e, first ≤ k ∧ hist !! k = Some e ∧ wc_Revision ck = ev_ModRevision e ∧
    wc_MvccCount ck = int64 (Z.of_nat (S k - first)) ∧ match start with Some f => first = f | None => True end.
Proof.
  intros [(Hs & _)|(first & k & e & ? & ? & ? & ? & _ & ?)]; [|right; by exists first, k, e].
  destruct start as [f|]; [|by left]. destruct Hs as (k & e & ?). right. exists f, k, e. naive_solver.
Qed.

(** *** Lemmas on the goroutine *)

Lemma watch_event_inv cfg start n hist next d e :
  fake_inv cfg start n (mkWatched hist next) d → fw_watch d = WatchRange → hist !! next = Some e →
  ∃ d', watch_event e d = Some d' ∧ fake_inv cfg start n (mkWatched hist (S next)) d' ∧ fw_watch d' = WatchRange.
Proof.
  intros [H1 H2 H3 H4 H5 (ck & Hc & Hs & Hr)] Hw He. unfold watch_event, getEtcdCheckpoint. rewrite Hc. eexists. split; [done|]. split; [|done].
  destruct (Hr Hw) as [_ Hn]. simpl in *. assert (ev_ModRevision e ≠ 0)%Z as Hz by (destruct H5 as [_ Hp]; specialize (Hp _ _ He); lia).
  split; simpl; [done..|]. eexists. split; [done|]. split.
  - right. destruct (counted_event _ _ _ _ Hs) as [[Hr0 Hm0]|(first & k & e' & Hk & He' & Hr0 & Hm0 & Hf)].
    + assert (start = None) as ->.
      { destruct start as [f|]; [|done]. exfalso. destruct H5 as [_ Hp]. destruct Hs as [((k & e' & ? & Hk & Hk' & _) & _)|(f' & k & e' & ? & Hk & Hk' & _)]; specialize (Hp _ _ Hk); lia. }
      exists next, next, e. simpl. split_and!; try done. rewrite Hm0. f_equal. lia.
    + specialize (Hn _ _ He' Hr0). subst next. exists first, (S k), e. simpl. split_and!; [lia|done|done| |done|done].
      rewrite Hm0, int64_add. f_equal. lia.
  - intros _. simpl. split; [by apply lookup_lt_Some in He|]. intros k e' Hk Hrev. f_equal. by eapply increasing_inj.
Qed.

Lemma watch_events_inv cfg start n hist events : ∀ next d,
  fake_inv cfg start n (mkWatched hist next) d → fw_watch d = WatchRange → events = take (length events) (drop next hist) →
  ∃ d', watch_events events d = Some d' ∧ fake_inv cfg start n (mkWatched hist (next + length events)) d'.
Proof.
  induction events as [|e events IH]; intros next d Hi Hw He; simpl; [rewrite Nat.add_0_r; by eexists|].
  assert (hist !! next = Some e) as Hl.
  { pose proof (f_equal (lookup 0) He) as H0. simpl in H0. rewrite lookup_take_lt, lookup_drop, Nat.add_0_r in H0 by lia. done. }
  destruct (watch_event_inv _ _ _ _ _ _ _ Hi Hw Hl) as (d' & -> & Hi' & Hw'). rewrite <- Nat.add_succ_comm. apply IH; [done|done|].
  simpl in He. rewrite (drop_S _ _ _ Hl) in He. by injection He.
Qed.

Lemma watch_open_inv cfg start n w d d' ctxErr :
  fake_inv cfg start n w d → watch_open ctxErr d = Some d' → fake_inv cfg start n (mkWatched (wd_hist w) (watch_position (wd_hist w) (watch_rev d))) d'.
Proof.
  intros [H1 H2 H3 H4 H5 (ck & Hc & Hs & Hr)]. unfold watch_open. destruct (fw_watch d) eqn:Hw; try done. intros [= <-]. split; simpl; try done.
  exists ck. split; [done|]. split; [done|]. intros _. simpl. unfold watch_rev, getEtcdCheckpoint. rewrite Hc.
  destruct (counted_event _ _ _ _ Hs) as [[Hr0 _]|(first & k & e & _ & He & Hr0 & _)].
  - rewrite bool_decide_eq_false_2 by lia. simpl. split; [lia|]. intros k e He Hr1. destruct H5 as [_ Hp]. specialize (Hp _ _ He). lia.
  - destruct (H5) as [_ Hp]. specialize (Hp _ _ He). rewrite Hr0, bool_decide_eq_true_2, int64_id by (unfold in_int64; lia).
    rewrite (watch_position_next _ k) by done. split; [by apply lookup_lt_Some in He|]. intros k' e' He' Hr1. f_equal. eapply increasing_inj; [done..|]. lia.
Qed.

(** A step that leaves the status, the configuration and the watch alone. *)
Lemma fake_inv_ext cfg start n w d d' :
  fake_inv cfg start n w d → fw_config d' = fw_config d → fw_status d' = fw_status d → (fw_watch d' = WatchRange → fw_watch d = WatchRange) →
  (fw_statusCode d' = fw_statusCode d ∨ fw_statusCode d' ≠ WorkerStatusFinished) → fake_inv cfg start n w d'.
Proof.
  intros [H1 H2 H3 H4 H5 (ck & Hc & Hs & Hr)] Ec Es Ew Eco. split; rewrite ?Ec, ?Es; try done; [destruct Eco as [->|?]; [done|by intros]|].
  exists ck. split; [done|]. split; [done|]. intros Hw. by apply Hr, Ew.
Qed.

(** *** Lemmas on the methods *)

Section methods.
Context {DB Srv : Type} `{!FakeStatusJSON}.
Abbreviation St := (WorkerSt DB Srv dummyWorker).
Implicit Types s : St.

Lemma FakeWorker_Status_st s : (FakeWorker_Status s).2 = s.
Proof. unfold FakeWorker_Status, mbind, GoM_bind, get. destruct (fw_init _); [|done]. by destruct (dws_Marshal _). Qed.

Lemma FakeWorker_report_impl io s : wk_impl (FakeWorker_report io s).2 = wk_impl s.
Proof.
  unfold FakeWorker_report, mbind, GoM_bind. pose proof (FakeWorker_Status_st s) as Hs. destruct (FakeWorker_Status s) as [[[code ext]|e|] s1]; simpl in Hs; subst s1; [|done..].
  unfold or_again, Base_UpdateStatus, on_status. destruct (bw_masterClient _); [|done]. destruct (Worker_UpdateStatus _ _ _ _ _) as [[]]; simpl; try done. by case_match.
Qed.

Lemma FakeWorker_Exit_spec io s : wk_impl (FakeWorker_Exit io s).2 = wk_impl s ∧ (FakeWorker_Exit io s).1 ≠ Done tt.
Proof.
  unfold FakeWorker_Exit, mbind, GoM_bind. pose proof (FakeWorker_Status_st s) as Hs. destruct (FakeWorker_Status s) as [[[code ext]|e|] s1]; simpl in Hs; subst s1; [|done..].
  unfold Base_Exit, on_status. destruct (bw_masterClient _); [|done]. unfold Exit. by destruct (Writer_UpdateStatus _ _ _) as [[]].
Qed.

(** A tick that was counted: the tick, and the exit when the target is reached. *)
Lemma FakeWorker_Tick_counted allow io now s :
  fw_init (wk_impl s) = true → fw_errCh (wk_impl s) = None →
  let out := FakeWorker_Tick allow io now s in let d := fw_set_status (status_tick (fw_status (wk_impl s))) (wk_impl s) in
  (wk_impl out.2 = d ∧ (allow = true ∨ fw_closed d = true ∨ fw_statusCode d = WorkerStatusStopped ∨ (dws_Tick (fw_status d) < fwc_TargetTick (fw_config d))%Z)) ∨
  (wk_impl out.2 = fw_setStatusCode WorkerStatusFinished d ∧ (fwc_TargetTick (fw_config d) ≤ dws_Tick (fw_status d))%Z ∧ out.1 ≠ Done tt).
Proof.
  intros Hi He out d. unfold out, FakeWorker_Tick. erewrite bind_Done by reflexivity. rewrite Hi, He. simpl. erewrite bind_Done by reflexivity. fold d.
  set (s1 := set_dummy d s). destruct allow; [left; split; [by rewrite FakeWorker_report_impl|by left]|].
  erewrite bind_Done by reflexivity. cbv beta zeta. fold d. fold s1. change (wk_impl s1) with d. destruct (fw_closed d) eqn:Hcl; [left; split; [done|by right; left]|].
  case_bool_decide as Hst.
  { left. erewrite bind_Done by reflexivity. rewrite (proj1 (FakeWorker_Exit_spec _ _)). split; [|by right; right; left]. simpl. rewrite <- Hst. by destruct d. }
  case_bool_decide as Htt.
  { right. erewrite bind_Done by reflexivity. destruct (FakeWorker_Exit_spec io (set_dummy (fw_setStatusCode WorkerStatusFinished (wk_impl s1)) s1)) as [-> Hd]. done. }
  left. split; [by case_bool_decide|]. right; right; right. simpl in *. lia.
Qed.

Lemma FakeWorker_Tick_inv cfg start n w allow io now s :
  fake_inv cfg start n w (wk_impl s) → fake_inv cfg start (counted (wk_impl s) + n) w (wk_impl (FakeWorker_Tick allow io now s).2).
Proof.
  intros Hi. unfold counted. destruct (fw_init (wk_impl s)) eqn:Hin; [|unfold FakeWorker_Tick, mbind, GoM_bind, get; by rewrite Hin].
  destruct (fw_errCh (wk_impl s)) as [e|] eqn:He.
  { unfold FakeWorker_Tick, mbind, GoM_bind, get. rewrite Hin, He. simpl. eapply fake_inv_ext; [done..|]. by left. }
  assert (fake_inv cfg start (S n) w (fw_set_status (status_tick (fw_status (wk_impl s))) (wk_impl s))) as Hi'.
  { destruct Hi as [H1 H2 H3 H4 H5 H6]. split; simpl; try done.
    - rewrite H3, int64_add. f_equal. lia.
    - intros Hc. destruct (H4 Hc) as (k & Hk & Ht). exists k. split; [lia|done]. }
  destruct (FakeWorker_Tick_counted allow io now s Hin He) as [[-> _]|(-> & Ht & _)]; [done|].
  destruct Hi' as [H1 H2 H3 H4 H5 H6]. split; simpl; try done. intros _. exists (S n). split; [lia|]. rewrite <- H3. by rewrite <- H1.
Qed.

Lemma fake_run_inv cfg start n w s : fake_run cfg start n w s → fake_inv cfg start n w (wk_impl s).
Proof.
  induction 1 as [w s Hd Ht Hh Hs|n w s err b db _ IH|n w s now r s' _ IH Hr|n w s allow io now r s' _ IH Hr|n w s msg _ IH|n w s _ IH|n w s e _ IH Hh
    |n w s conn d _ IH Hd|n w s ctxErr d _ IH Hd|n w s events d _ IH He Hd|n w s resp d _ IH Hn Hd|n w s d _ IH Hd].
  - rewrite Hd. split; simpl; try done; [by rewrite Z.add_0_r, int64_id|]. eexists. split; [done|]. split; [|done]. left. split; [|done]. by destruct start.
  - done.
  - unfold FakeWorker_InitImpl, mbind, GoM_bind, get in Hr. destruct (fw_init (wk_impl s)); [by injection Hr as _ <-|]. injection Hr as _ <-. simpl.
    destruct (fwc_EtcdWatchEnable _); (eapply fake_inv_ext; [done..|by right]).
  - pose proof (FakeWorker_Tick_inv cfg start n w allow io now s IH) as Hi. by rewrite Hr in Hi.
  - unfold FakeWorker_OnMasterMessage. simpl. case_bool_decide; [|done]. eapply fake_inv_ext; [done..|by right].
  - eapply fake_inv_ext; [done..|by left].
  - destruct IH as [H1 H2 H3 H4 H5 (ck & Hc & Hs & Hr)]. split; simpl; try done. exists ck. split; [done|]. split; [by apply counted_grows|].
    intros Hw. destruct (Hr Hw) as [Hl Hk]. simpl. rewrite length_app. split; [lia|]. intros k e' [Hk'|[Hlk He']]%lookup_app_Some; [by eapply Hk|].
    intros Hrev. exfalso. apply list_lookup_singleton_Some in He' as [He0 <-]. destruct (counted_event _ _ _ _ Hs) as [[Hr0 _]|(first & k0 & e0 & _ & He0' & Hr0 & _)].
    + destruct Hh as [_ Hp]. specialize (Hp (length (wd_hist w)) e). rewrite lookup_app_r, Nat.sub_diag in Hp by done. specialize (Hp eq_refl). lia.
    + destruct Hh as [Hp _]. apply lookup_lt_Some in He0' as Hl0. specialize (Hp k0 (length (wd_hist w)) e0 e). rewrite lookup_app_l, lookup_app_r, Nat.sub_diag in Hp by done.
      specialize (Hp He0' eq_refl Hl0). lia.
  - unfold watch_start in Hd. destruct (fw_watch (wk_impl s)); try done. injection Hd as <-. eapply fake_inv_ext; [done..| |by left]. by destruct conn.
  - by eapply watch_open_inv.
  - unfold watch_response in Hd. destruct (fw_watch (wk_impl s)) eqn:Hw; try done. destruct w as [hist next].
    destruct (watch_events_inv _ _ _ _ _ _ _ IH Hw He) as (d' & Hd' & Hi). simpl. assert (d' = d) as -> by congruence. done.
  - unfold watch_response in Hd. destruct (fw_watch (wk_impl s)); try done. destruct resp; [|by edestruct Hn|]; injection Hd as <-; (eapply fake_inv_ext; [done..|by left]).
  - unfold watch_report in Hd. destruct (fw_watch (wk_impl s)); try done. injection Hd as <-. eapply fake_inv_ext; [done..|by left].
Qed.

(** C36: a fake worker counts its ticks from its checkpoint to its target: while the counter stays
    in its 64 bits it is the one of the checkpoint plus the ticks of the run, the worker
    has finished only when the counter reached the target, and a tick that reaches it and
    is not used for a report ends the worker as finished, unless it is closed, was told
    to stop or has an error to return. *)
Theorem worker_counts_ticks cfg start n w s :
  fake_run cfg start n w s → (wc_Tick (fwc_Checkpoint cfg) + Z.of_nat n < 2 ^ 63 - 1)%Z →
  let d := wk_impl s in
  dws_Tick (fw_status d) = (wc_Tick (fwc_Checkpoint cfg) + Z.of_nat n)%Z ∧
  (fw_statusCode d = WorkerStatusFinished → (fwc_TargetTick cfg ≤ dws_Tick (fw_status d))%Z) ∧
  (∀ io now, counted d = 1 → fw_closed d = false → fw_statusCode d ≠ WorkerStatusStopped → (fwc_TargetTick cfg ≤ dws_Tick (fw_status d) + 1)%Z →
     let out := FakeWorker_Tick false io now s in
     fw_statusCode (wk_impl out.2) = WorkerStatusFinished ∧ dws_Tick (fw_status (wk_impl out.2)) = (dws_Tick (fw_status d) + 1)%Z ∧ out.1 ≠ Done tt).
Proof.
  intros Hrun Hb d. assert (in_int64 (wc_Tick (fwc_Checkpoint cfg))) as Hr by (clear -Hrun; by induction Hrun).
  pose proof (fake_run_inv _ _ _ _ _ Hrun) as Hi. fold d in Hi. unfold in_int64 in Hr.
  assert (∀ k, k ≤ n → int64 (wc_Tick (fwc_Checkpoint cfg) + Z.of_nat k) = (wc_Tick (fwc_Checkpoint cfg) + Z.of_nat k)%Z) as Hid by (intros k Hk; apply int64_id; unfold in_int64; lia).
  pose proof (fi_tick _ _ _ _ _ Hi) as Ht. rewrite Hid in Ht by lia. split_and!; [done| |].
  - intros Hc. destruct (fi_code _ _ _ _ _ Hi Hc) as (k & Hk & Htt). rewrite Hid in Htt by lia. lia.
  - intros io now Hc Hcl Hst Htt. unfold counted in Hc. destruct (fw_init d) eqn:Hin; [|done]. destruct (fw_errCh d) eqn:He; [done|].
    assert (int64 (dws_Tick (fw_status d) + 1) = dws_Tick (fw_status d) + 1)%Z as Hid' by (apply int64_id; unfold in_int64; lia).
    destruct (FakeWorker_Tick_counted false io now s Hin He) as [[_ Hno]|(Hd & _ & Hne)].
    + exfalso. simpl in Hno. fold d in Hno. rewrite Hid', (fi_config _ _ _ _ _ Hi) in Hno. destruct Hno as [?|[?|[?|?]]]; [done|congruence|congruence|lia].
    + simpl. rewrite Hd. simpl. fold d. by rewrite Hid'.
Qed.

(** A fake worker that watches its key counts every change once, across broken watches and
    across its replacements: from a checkpoint that counts the changes of the key from
    the [first]-th one to that of its revision, the checkpoint of its status counts them
    from the same one on, so that it is again a checkpoint to start from; from the empty
    checkpoint it counts nothing, or from some change on; and the value is that of the
    last change it counted, as soon as it counted one itself. *)
Theorem worker_counts_changes cfg start n w s :
  fake_run cfg start n w s →
  ∃ ck, dws_Checkpoint (fw_status (wk_impl s)) = Some ck ∧
    (starts_from start (wd_hist w) ck ∨ start = None ∧ ∃ first, counts first (wd_hist w) ck) ∧
    (wc_Revision ck ≠ wc_Revision (fwc_Checkpoint cfg) → ∃ k e, wd_hist w !! k = Some e ∧ wc_Revision ck = ev_ModRevision e ∧ wc_Value ck = event_value e).
Proof.
  intros Hrun. destruct (fi_ckpt _ _ _ _ _ (fake_run_inv _ _ _ _ _ Hrun)) as (ck & Hc & Hs & _). exists ck. split; [done|].
  destruct Hs as [(Hs & Hr & _)|(first & k & e & H1 & H2 & H3 & H4 & H5 & Hf)]; [split; [by left|by intros]|]. split; [|intros _; by exists k, e].
  destruct start as [f|]; [left; subst f|right; split; [done|exists first]]; by exists k, e.
Qed.

End methods.

(** ** Concrete runs *)

Module Witness.

(** A codec whose words are not empty. *)
Definition tagged {A} `{Countable A} (x : A) : string := "{" +:+ to_digits x.
Definition untag {A} `{Countable A} (s : string) : option A := match s with String _ r => of_digits r | EmptyString => None end.

Lemma untag_tagged {A} `{Countable A} (x : A) : untag (tagged x) = Some x.
Proof. exact (of_to_digits x). Qed.

#[export] Instance ref_status_json : FakeStatusJSON := {|
  dws_Marshal st := Done (tagged (dws_BusinessID st, dws_Tick st, (λ c, (wc_Tick c, wc_Revision c, wc_MvccCount c, wc_Value c)) <$> dws_Checkpoint st));
  dws_Unmarshal s := (λ '(i, t, c), mkDummyStatus i t ((λ '(a, b, n, v), mkWorkerCheckpoint a b n v) <$> c)) <$> untag s;
|}.

#[export] Instance ref_status_json_laws : FakeStatusJSONLaws.
Proof.
  split; [by eexists| |done]. intros [i t c] b Hb. exists (default "" (wc_Value <$> c)). cbn [dws_Marshal ref_status_json dws_BusinessID dws_Tick dws_Checkpoint] in Hb.
  cbn [dws_Unmarshal ref_status_json]. replace b with (tagged (i, t, (λ c, (wc_Tick c, wc_Revision c, wc_MvccCount c, wc_Value c)) <$> c)) by congruence.
  rewrite untag_tagged. simpl. by destruct c as [[]|].
Qed.

Definition ev1 : Event := mkEvent PUT "a" 3.
Definition ev2 : Event := mkEvent PUT "b" 5.
Definition ev3 : Event := mkEvent DELETE "" 7.

Lemma increasing_3 : increasing [ev1; ev2; ev3].
Proof.
  split.
  - intros i j e e' Hi Hj Hl. do 3 (destruct i as [|i]; [simpl in Hi; injection Hi as <-; do 3 (destruct j as [|j]; [first [lia|injection Hj as <-; done]|]); done|]). done.
  - intros i e Hi. do 3 (destruct i as [|i]; [injection Hi as <-; done|]). done.
Qed.

Lemma increasing_prefix h1 h2 : increasing (h1 ++ h2) → increasing h1.
Proof. intros [H1 H2]. split; [intros i j e e' Hi Hj; apply H1; by apply lookup_app_l_Some|intros i e Hi; apply (H2 i); by apply lookup_app_l_Some]. Qed.

(** The worker has counted the first change; its watch delivers the second one, breaks,
    and the next watch delivers the third one. *)
Definition cfg0 : FakeWorkerConfig := mkFakeWorkerConfig 0 2 true [] "key-" 0 (mkWorkerCheckpoint 1 3 1 "").
Abbreviation WS := (WorkerSt unit unit dummyWorker).
Definition start0 : WS := mkWorkerSt NewErrCenter (NewBaseWorker (newMessageHandlerManager tt) "w" "job" ∅) tt (NewDummyWorker cfg0).
Definition io0 : io_result := mkIo (Done tt) (Done tt) 0.
Definition inited : WS := (FakeWorker_InitImpl 0 start0).2.
Definition step_ (f : dummyWorker → option dummyWorker) (s : WS) : WS := set_dummy (default (wk_impl s) (f (wk_impl s))) s.
Definition watching : WS := step_ (watch_open None) (step_ (watch_start None) inited).
Definition resumed : WS :=
  step_ (watch_response (RespEvents [ev3])) (step_ (watch_open None) (step_ (watch_response (RespErr (ErrForeign "lost"))) (step_ (watch_response (RespEvents [ev2])) watching))).

Lemma step_run f n w s (P : Watched) :
  (∀ d, f (wk_impl s) = Some d → fake_run cfg0 (Some 0) n P (set_dummy d s)) → is_Some (f (wk_impl s)) → P = w → fake_run cfg0 (Some 0) n w (step_ f s).
Proof. intros Hf [d' Hd] <-. unfold step_. rewrite Hd. by apply Hf. Qed.

Ltac by_step lem := eapply step_run; [intros ? ?; eapply lem; [|..|eassumption]|eapply mk_is_Some; vm_compute; reflexivity|vm_compute; reflexivity].

Lemma watching_run : fake_run cfg0 (Some 0) 0 (mkWatched [ev1] 1) watching.
Proof.
  assert (increasing [ev1]) as I1 by exact (increasing_prefix [ev1] [ev2; ev3] increasing_3).
  by_step (fr_watch_open (DB := unit) (Srv := unit) cfg0 (Some 0) 0 (mkWatched [ev1] 0)). by_step (fr_watch_start (DB := unit) (Srv := unit) cfg0 (Some 0) 0 (mkWatched [ev1] 0)).
  apply (fr_init _ _ 0 _ start0 0 (Done tt)); [|reflexivity]. apply fr_start; [reflexivity|done|exact I1|]. exists 0, ev1. split_and!; [lia|reflexivity..].
Qed.

Lemma resumed_run : fake_run cfg0 (Some 0) 0 (mkWatched [ev1; ev2; ev3] 3) resumed.
Proof.
  assert (increasing [ev1; ev2]) as I2 by exact (increasing_prefix [ev1; ev2] [ev3] increasing_3).
  by_step (fr_watch_events (DB := unit) (Srv := unit) cfg0 (Some 0) 0 (mkWatched [ev1; ev2; ev3] 2)); [|reflexivity].
  by_step (fr_watch_open (DB := unit) (Srv := unit) cfg0 (Some 0) 0 (mkWatched [ev1; ev2; ev3] 2)). apply (fr_change _ _ 0 (mkWatched [ev1; ev2] 2) _ ev3); [|exact increasing_3].
  by_step (fr_watch_broken (DB := unit) (Srv := unit) cfg0 (Some 0) 0 (mkWatched [ev1; ev2] 2)); [|done].
  by_step (fr_watch_events (DB := unit) (Srv := unit) cfg0 (Some 0) 0 (mkWatched [ev1; ev2] 1)); [|reflexivity].
  apply (fr_change _ _ 0 (mkWatched [ev1] 1) _ ev2); [exact watching_run|exact I2].
Qed.

Lemma worker_counts_changes_witness :
  ∃ ck, dws_Checkpoint (fw_status (wk_impl resumed)) = Some ck ∧ wc_MvccCount ck = 3%Z ∧ counts 0 [ev1; ev2; ev3] ck.
Proof.
  destruct (worker_counts_changes cfg0 (Some 0) 0 (mkWatched [ev1; ev2; ev3] 3) resumed resumed_run) as (ck & Hc & [Hs|[? _]] & _); [|done].
  exists ck. split; [done|]. split; [|done]. assert (wc_MvccCount <$> dws_Checkpoint (fw_status (wk_impl resumed)) = Some 3%Z) as Hm by (vm_compute; reflexivity).
  rewrite Hc in Hm. by injection Hm.
Defined.

Lemma worker_counts_ticks_witness :
  dws_Tick (fw_status (wk_impl resumed)) = 1%Z ∧ fw_statusCode (wk_impl (FakeWorker_Tick false io0 0 resumed).2) = WorkerStatusFinished.
Proof.
  destruct (worker_counts_ticks cfg0 (Some 0) 0 (mkWatched [ev1; ev2; ev3] 3) resumed resumed_run) as (Ht & _ & Hf); [done|]. split; [exact Ht|].
  apply (Hf io0 0%Z); [reflexivity|reflexivity|by vm_compute|rewrite Ht; by vm_compute].
Defined.

End Witness.
