(* ===== verification/FakeMaster.v ===== *)
(** * The job master of the fake job ([lib/fake/fake_master.go])

    The job master runs a number of fake workers ([FakeWorker]): it creates them, replaces
    the ones that are gone, saves their progress, and ends when all of them have finished.
    It is a [JobMasterImpl]. The rate limiter, random identifiers, the orders of maps, the
    status writer, the clock and the message client answer the n-th time they are asked as
    a function of n. *)

From S2P Require Import Prelude Errors Model Metastore JobFsm WorkerManager Worker Master P2P BaseWorker BaseJobMaster Keys MetaKV FakeWorker.

(** ** Data *)

Record Config := mkFakeConfig {
  fc_JobName : string;
  fc_WorkerCount : Z;
  fc_TargetTick : Z;
  fc_EtcdWatchEnable : bool;
  fc_EtcdEndpoints : list string;
  fc_EtcdWatchPrefix : string;
  fc_InjectErrorInterval : Z;
}.

Record Checkpoint := mkCheckpoint { cp_Ticks : gmap Z Z; cp_Checkpoints : gmap Z workerCheckpoint }.

(** [encoding/json] on the checkpoint and on the statuses of the workers. A string of a
    checkpoint may be read back changed, as for [FakeStatusJSON]. *)
Class FakeJobJSON := {
  ckpt_Marshal : Checkpoint → res goerr string;
  ckpt_Unmarshal : string → option Checkpoint;
  bstatus_Marshal : gmap WorkerID dummyWorkerStatus → res goerr string;
}.
Class FakeJobJSONLaws `{!FakeJobJSON} : Prop := {
  ckpt_total cp : ∃ b, ckpt_Marshal cp = Done b;
  ckpt_roundtrip cp b : ckpt_Marshal cp = Done b →
    ∃ cp', ckpt_Unmarshal b = Some cp' ∧ cp_Ticks cp' = cp_Ticks cp ∧ with_value "" <$> cp_Checkpoints cp' = with_value "" <$> cp_Checkpoints cp;
  bstatus_total st : ∃ b, bstatus_Marshal st = Done b;
}.

(** The job master with the key-value store of its tenant, the messages it sent, and the
    number of answers it was given. *)
Record Master (K : Type) := mkFakeMaster {
  fm_config : Config;
  fm_bStatus : gmap WorkerID dummyWorkerStatus;
  fm_workerID : WorkerID;
  fm_workerList : list (option WorkerHandle);
  fm_workerID2BusinessID : gmap WorkerID Z;
  fm_pendingWorkerSet : gmap WorkerID Z;
  fm_finishedSet : gmap WorkerID Z;
  fm_statusCode : Z;
  fm_initialized : bool;
  fm_kv : K;
  fm_sent : list (ExecutorID * string * StatusChangeRequest);
  fm_asked : nat;
}.
Arguments mkFakeMaster {K}.
Arguments fm_config {K}.
Arguments fm_bStatus {K}.
Arguments fm_workerID {K}.
Arguments fm_workerList {K}.
Arguments fm_workerID2BusinessID {K}.
Arguments fm_pendingWorkerSet {K}.
Arguments fm_finishedSet {K}.
Arguments fm_statusCode {K}.
Arguments fm_initialized {K}.
Arguments fm_kv {K}.
Arguments fm_sent {K}.
Arguments fm_asked {K}.

(** [make] panics on a negative length: [None]. *)
Definition NewFakeMaster {K} (workerID : WorkerID) (conf : Config) (kv : K) : option (Master K) :=
  if bool_decide (fc_WorkerCount conf < 0)%Z then None else
  Some (mkFakeMaster conf ∅ workerID (replicate (Z.to_nat (fc_WorkerCount conf)) None) ∅ ∅ ∅ WorkerStatusNormal false kv [] 0).

(** [strings.Join]. *)
Definition CheckpointKey (id : MasterID) : string := "fake-master/checkpoint/" +:+ id.

(** ** Assignments *)

Section assign.
Context {K : Type}.
Implicit Types m : Master K.

Definition set_bStatus (f : gmap WorkerID dummyWorkerStatus → gmap WorkerID dummyWorkerStatus) m : Master K :=
  mkFakeMaster (fm_config m) (f (fm_bStatus m)) (fm_workerID m) (fm_workerList m) (fm_workerID2BusinessID m) (fm_pendingWorkerSet m) (fm_finishedSet m) (fm_statusCode m) (fm_initialized m) (fm_kv m) (fm_sent m) (fm_asked m).
Definition set_list (f : list (option WorkerHandle) → list (option WorkerHandle)) m : Master K :=
  mkFakeMaster (fm_config m) (fm_bStatus m) (fm_workerID m) (f (fm_workerList m)) (fm_workerID2BusinessID m) (fm_pendingWorkerSet m) (fm_finishedSet m) (fm_statusCode m) (fm_initialized m) (fm_kv m) (fm_sent m) (fm_asked m).
Definition set_business (f : gmap WorkerID Z → gmap WorkerID Z) m : Master K :=
  mkFakeMaster (fm_config m) (fm_bStatus m) (fm_workerID m) (fm_workerList m) (f (fm_workerID2BusinessID m)) (fm_pendingWorkerSet m) (fm_finishedSet m) (fm_statusCode m) (fm_initialized m) (fm_kv m) (fm_sent m) (fm_asked m).
Definition set_pending (f : gmap WorkerID Z → gmap WorkerID Z) m : Master K :=
  mkFakeMaster (fm_config m) (fm_bStatus m) (fm_workerID m) (fm_workerList m) (fm_workerID2BusinessID m) (f (fm_pendingWorkerSet m)) (fm_finishedSet m) (fm_statusCode m) (fm_initialized m) (fm_kv m) (fm_sent m) (fm_asked m).
Definition set_finished (f : gmap WorkerID Z → gmap WorkerID Z) m : Master K :=
  mkFakeMaster (fm_config m) (fm_bStatus m) (fm_workerID m) (fm_workerList m) (fm_workerID2BusinessID m) (fm_pendingWorkerSet m) (f (fm_finishedSet m)) (fm_statusCode m) (fm_initialized m) (fm_kv m) (fm_sent m) (fm_asked m).
Definition fm_setStatusCode (code : Z) m : Master K :=
  mkFakeMaster (fm_config m) (fm_bStatus m) (fm_workerID m) (fm_workerList m) (fm_workerID2BusinessID m) (fm_pendingWorkerSet m) (fm_finishedSet m) code (fm_initialized m) (fm_kv m) (fm_sent m) (fm_asked m).
Definition set_initialized m : Master K :=
  mkFakeMaster (fm_config m) (fm_bStatus m) (fm_workerID m) (fm_workerList m) (fm_workerID2BusinessID m) (fm_pendingWorkerSet m) (fm_finishedSet m) (fm_statusCode m) true (fm_kv m) (fm_sent m) (fm_asked m).
Definition fm_set_kv (kv : K) m : Master K :=
  mkFakeMaster (fm_config m) (fm_bStatus m) (fm_workerID m) (fm_workerList m) (fm_workerID2BusinessID m) (fm_pendingWorkerSet m) (fm_finishedSet m) (fm_statusCode m) (fm_initialized m) kv (fm_sent m) (fm_asked m).
Definition fm_add_sent (x : ExecutorID * string * StatusChangeRequest) m : Master K :=
  mkFakeMaster (fm_config m) (fm_bStatus m) (fm_workerID m) (fm_workerList m) (fm_workerID2BusinessID m) (fm_pendingWorkerSet m) (fm_finishedSet m) (fm_statusCode m) (fm_initialized m) (fm_kv m) (fm_sent m ++ [x]) (fm_asked m).
Definition fm_set_asked (n : nat) m : Master K :=
  mkFakeMaster (fm_config m) (fm_bStatus m) (fm_workerID m) (fm_workerList m) (fm_workerID2BusinessID m) (fm_pendingWorkerSet m) (fm_finishedSet m) (fm_statusCode m) (fm_initialized m) (fm_kv m) (fm_sent m) n.

End assign.

(** What the job master meets, the n-th time it asks. *)
Record FakeEnv := mkFakeEnv {
  fe_allow : nat → bool;
  fe_uuid : nat → WorkerID;
  fe_workers : nat → gmap WorkerID WorkerHandle → list WorkerID;
  fe_statuses : nat → gmap WorkerID dummyWorkerStatus → list WorkerID;
  fe_io : nat → io_result;
  fe_send : nat → option goerr;
  fe_mono : nat → Z;
}.

(** ** Operations *)

Section fake_job.
Context {DB Srv K : Type} `{!Gorm DB} `{!HandlerRegistrar Srv} {kv : KV K} `{!FakeStatusJSON, !FakeJobJSON}.
Abbreviation St := (JobMasterSt DB Srv (Master K)).
Variable env : FakeEnv.
(** The encoders of the base master for the configuration of a worker. *)
Variable tomlEncode jsonMarshal : WorkerConfig FakeWorkerConfig → res goerr string.

Definition fake (s : St) : Master K := (ms_impl s).2.
Definition set_fake (m : Master K) (s : St) : St := mkMasterSt (ms_base s) (ms_db s) ((ms_impl s).1, m).
Definition fupd (f : Master K → Master K) : Go St unit := λ s, (Done tt, set_fake (f (fake s)) s).
Definition fgets {A} (f : Master K → A) : Go St A := λ s, (Done (f (fake s)), s).

(** A question to the surroundings. *)
Definition fask {A} (f : nat → A) : Go St A := λ s, (Done (f (fm_asked (fake s))), set_fake (fm_set_asked (S (fm_asked (fake s))) (fake s)) s).

Definition on_fkv {A} (f : Go K A) : Go St A := λ s, let '(r, kv) := f (fm_kv (fake s)) in (r, set_fake (fm_set_kv kv (fake s)) s).

(** [workerList[i]]; out of range it panics. *)
Definition worker_at (i : Z) : Go St (option WorkerHandle) :=
  l ← fgets fm_workerList;
  if bool_decide (i < 0)%Z then panic else or_panic (l !! Z.to_nat i).
Definition set_worker_at (i : Z) (h : option WorkerHandle) : Go St unit :=
  _ ← worker_at i;
  fupd (set_list (<[Z.to_nat i := h]>)).

(** The indices of a range over [workerList]. *)
Definition indices (m : Master K) : list Z := seqZ 0 (Z.of_nat (length (fm_workerList m))).

Definition genWorkerConfig (m : Master K) (index : Z) (checkpoint : workerCheckpoint) : FakeWorkerConfig :=
  let c := fm_config m in
  mkFakeWorkerConfig index (fc_TargetTick c) (fc_EtcdWatchEnable c) (fc_EtcdEndpoints c) (fc_EtcdWatchPrefix c) (fc_InjectErrorInterval c) checkpoint.

Definition createWorker (wcfg : FakeWorkerConfig) : Go St unit :=
  newUUID ← fask (fe_uuid env);
  workerID ← on_base (CreateWorker tomlEncode jsonMarshal newUUID FakeTask (UserConfig wcfg) 1 []);
  _ ← fupd (set_pending (<[workerID := fwc_ID wcfg]>));
  fupd (set_business (<[workerID := fwc_ID wcfg]>)).

(** One round of the loop of [initWorkers]. *)
Definition init_worker (i : Z) : Go St unit :=
  handle ← worker_at i;
  match handle with
  | Some _ => mret tt
  | None =>
      pending ← fgets fm_pendingWorkerSet;
      if bool_decide (Exists (λ p, p.2 = i) (map_to_list pending)) then mret tt else
      m ← fgets id;
      createWorker (genWorkerConfig m i zeroWorkerCheckpoint)
  end.

Definition initWorkers : Go St unit :=
  m ← fgets id;
  forM_ init_worker (indices m).

Definition FakeMaster_InitImpl : Go St unit := initWorkers.

Definition parseExtBytes (data : string) : Go St dummyWorkerStatus :=
  match dws_Unmarshal data with Some dws => mret dws | None => throw (ErrForeign "unexpected end of JSON input") end.

(** One round of the loop over the workers of the framework: the worker takes its place,
    when that is empty. Nil bytes are skipped. *)
Definition place_worker (worker : WorkerHandle) (businessID : Z) : Go St unit :=
  handle ← worker_at businessID;
  match handle with
  | Some _ => mret tt
  | None => set_worker_at businessID (Some worker)
  end.

Definition adopt_worker (workers : gmap WorkerID WorkerHandle) (id : WorkerID) : Go St unit :=
  match workers !! id with
  | None => mret tt
  | Some worker =>
      match GetTombstone worker with
      | Some _ => mret tt
      | None =>
          business ← fgets fm_workerID2BusinessID;
          match business !! handle_ID worker with
          | Some businessID => place_worker worker businessID
          | None =>
              status ← status_of worker;
              if bool_decide (ws_ExtBytes status = "") then mret tt else
              ws ← parseExtBytes (ws_ExtBytes status);
              place_worker worker (dws_BusinessID ws)
          end
      end
  end.

(** A failure to read the checkpoint is logged, one to decode it is returned. *)
Definition load_checkpoint : Go St Checkpoint := λ s,
  match on_fkv (kvc_Get (CheckpointKey (fm_workerID (fake s))) []) s with
  | (Done (kv0 :: _), s') =>
      match ckpt_Unmarshal (kv_Value kv0) with
      | Some ckpt => (Done ckpt, s')
      | None => (Fail (ErrForeign "invalid checkpoint"), s')
      end
  | (Done [], s') | (Fail _, s') => (Done (mkCheckpoint ∅ ∅), s')
  | (Panic, s') => (Panic, s')
  end.

(** What a new worker of an index starts from. *)
Definition resume_from (ckpt : Checkpoint) (i : Z) : workerCheckpoint :=
  let tick := default 0%Z (cp_Ticks ckpt !! i) in
  match cp_Checkpoints ckpt !! i with
  | Some etcdCkpt => mkWorkerCheckpoint tick (wc_Revision etcdCkpt) (wc_MvccCount etcdCkpt) ""
  | None => mkWorkerCheckpoint tick 0 0 ""
  end.

Definition restore_worker (ckpt : Checkpoint) (i : Z) : Go St unit :=
  worker ← worker_at i;
  match worker with
  | Some _ => mret tt
  | None =>
      m ← fgets id;
      createWorker (genWorkerConfig m i (resume_from ckpt i))
  end.

(** The first time that the master is ready. *)
Definition failover : Go St unit :=
  _ ← fupd set_initialized;
  s ← get;
  workers ← lift_res (Master_GetWorkers (ms_base s));
  order ← fask (fe_workers env);
  _ ← forM_ (adopt_worker workers) (order workers);
  ckpt ← load_checkpoint;
  m ← fgets id;
  forM_ (restore_worker ckpt) (indices m).

(** One round of the loop over the statuses. *)
Definition load_status (i : Z) : Go St unit :=
  handle ← worker_at i;
  match handle with
  | None => mret tt
  | Some worker =>
      status ← status_of worker;
      dws ← (if bool_decide (ws_ExtBytes status = "") then mret (mkDummyStatus 0 0 None) else parseExtBytes (ws_ExtBytes status));
      fupd (set_bStatus (<[handle_ID worker := dws]>))
  end.

Definition load_statuses : Go St unit :=
  m ← fgets id;
  forM_ load_status (indices m).

Definition tickedCheckWorkers : Go St unit :=
  initialized ← fgets fm_initialized;
  if initialized : bool then load_statuses else
  s ← get;
  ready ← lift_res (IsMasterReady (ms_base s));
  if negb ready then (_ ← fask (fe_allow env); mret tt) else
  _ ← failover;
  load_statuses.

(** One round of the loop of [genCheckpoint]. *)
Definition gen_one (m : Master K) (cp : Checkpoint) (wid : WorkerID) : Checkpoint :=
  match fm_bStatus m !! wid, fm_workerID2BusinessID m !! wid with
  | Some status, Some businessID =>
      mkCheckpoint (<[businessID := dws_Tick status]> (cp_Ticks cp))
        (<[businessID := default zeroWorkerCheckpoint (dws_Checkpoint status)]> (cp_Checkpoints cp))
  | _, _ => cp
  end.

Definition genCheckpoint (order : list WorkerID) (m : Master K) : Checkpoint := foldl (gen_one m) (mkCheckpoint ∅ ∅) order.

(** [String] of the checkpoint; a failure to encode is logged. *)
Definition Checkpoint_String (cp : Checkpoint) : string := match ckpt_Marshal cp with Done b => b | _ => "" end.

(** The code and the bytes; a failure to encode panics. *)
Definition FakeMaster_Status : Go St (Z * string) :=
  m ← fgets id;
  match bstatus_Marshal (fm_bStatus m) with Done b => mret (fm_statusCode m, b) | _ => panic end.

Definition FakeMaster_Exit : Go St unit :=
  '(code, ext) ← FakeMaster_Status;
  io ← fask (fe_io env);
  JobMaster_Exit io code "" ext None.

Definition save_checkpoint : Go St unit :=
  m ← fgets id;
  order ← fask (fe_statuses env);
  or_log (on_fkv (kvc_Put (CheckpointKey (fm_workerID m)) (Checkpoint_String (genCheckpoint (order (fm_bStatus m)) m)))).

Definition report_status : Go St unit :=
  '(code, ext) ← FakeMaster_Status;
  io ← fask (fe_io env);
  or_again (UpdateJobStatus io code "" ext).

Definition tickedCheckStatus : Go St unit :=
  allow ← fask (fe_allow env);
  if allow : bool then (_ ← save_checkpoint; report_status) else
  m ← fgets id;
  if bool_decide (fm_statusCode m = WorkerStatusStopped) then (_ ← fupd (fm_setStatusCode WorkerStatusStopped); FakeMaster_Exit)
  else if bool_decide (Z.of_nat (size (fm_finishedSet m)) = fc_WorkerCount (fm_config m)) then (_ ← fupd (fm_setStatusCode WorkerStatusFinished); FakeMaster_Exit)
  else mret tt.

Definition FakeMaster_Tick : Go St unit := _ ← tickedCheckWorkers; tickedCheckStatus.

Definition FakeMaster_OnWorkerDispatched (worker : WorkerHandle) (result : option goerr) : Go St unit :=
  match result with Some err => throw err | None => mret tt end.

Definition FakeMaster_OnWorkerOnline (worker : WorkerHandle) : Go St unit :=
  pending ← fgets fm_pendingWorkerSet;
  idx ← or_panic (pending !! handle_ID worker);
  _ ← fupd (set_pending (delete (handle_ID worker)));
  set_worker_at idx (Some worker).

(** The place of a worker. *)
Definition place_of (id : WorkerID) (l : list (option WorkerHandle)) : option nat :=
  fst <$> list_find (λ h, (handle_ID <$> h) = Some id) l.

(** The progress in the last status; an error is logged. *)
Definition last_progress (ext : string) : workerCheckpoint :=
  match dws_Unmarshal ext with
  | None => zeroWorkerCheckpoint
  | Some ws =>
      match dws_Checkpoint ws with
      | Some c => mkWorkerCheckpoint (dws_Tick ws) (wc_Revision c) (wc_MvccCount c) ""
      | None => mkWorkerCheckpoint (dws_Tick ws) 0 0 ""
      end
  end.

Definition FakeMaster_OnWorkerOffline (worker : WorkerHandle) (reason : option goerr) : Go St unit :=
  l ← fgets fm_workerList;
  match place_of (handle_ID worker) l with
  | None => throw (ErrForeign "worker is not found in worker list")
  | Some index =>
      _ ← fupd (set_list (<[index := None]>));
      _ ← fupd (set_bStatus (delete (handle_ID worker)));
      if err_Equal ErrWorkerFinish reason then fupd (set_finished (<[handle_ID worker := Z.of_nat index]>))
      else
        status ← status_of worker;
        m ← fgets id;
        createWorker (genWorkerConfig m (Z.of_nat index) (last_progress (ws_ExtBytes status)))
  end.

(** One round of the loop over the workers that are told to stop. *)
Definition stop_worker (i : Z) : Go St unit :=
  handle ← worker_at i;
  match handle with
  | None => mret tt
  | Some worker =>
      mono ← fask (fe_mono env);
      match worker with
      | tombstoneHandle _ => mret tt
      | runningHandle w executor =>
          s ← get;
          let id := JobMasterID s in
          let msg := mkStatusChangeRequest mono id (CurrentEpoch s) WorkerStatusStopped in
          sent ← fask (fe_send env);
          match sent with
          | Some err => throw err
          | None => fupd (fm_add_sent (executor, WorkerStatusChangeRequestTopic id w, msg))
          end
      end
  end.

Definition FakeMaster_OnJobManagerMessage (topic : string) (msg : StatusChangeRequest) : Go St unit :=
  if bool_decide (scr_ExpectState msg = WorkerStatusStopped) then
    _ ← fupd (fm_setStatusCode WorkerStatusStopped);
    m ← fgets id;
    forM_ stop_worker (indices m)
  else mret tt.

Definition FakeMaster_Workload : Z := 0.

Definition fake_JobMasterImpl : JobMasterImpl DB Srv (Master K) := {|
  jmi_MasterImpl := {|
    InitImpl := FakeMaster_InitImpl; Impl_Tick := FakeMaster_Tick; OnMasterRecovered := mret tt; OnWorkerDispatched := FakeMaster_OnWorkerDispatched;
    OnWorkerOnline := FakeMaster_OnWorkerOnline; OnWorkerOffline := FakeMaster_OnWorkerOffline; OnWorkerStatusUpdated _ _ := mret tt; CloseImpl := mret tt |};
  OnJobManagerFailover := mret tt;
  OnJobManagerMessage := FakeMaster_OnJobManagerMessage;
|}.

End fake_job.

(** ** Specification *)

(** The surroundings: identifiers are not repeated, ranging over a map visits its keys, and
    encoding a configuration does not panic. *)
Class FakeEnvLaws (env : FakeEnv) (jsonMarshal : WorkerConfig FakeWorkerConfig → res goerr string) : Prop := {
  fe_uuid_inj : Inj (=) (=) (fe_uuid env);
  fe_workers_keys n (m : gmap WorkerID WorkerHandle) : iter_order m (fe_workers env n m);
  fe_statuses_keys n (m : gmap WorkerID dummyWorkerStatus) : iter_order m (fe_statuses env n m);
  fe_encode c : jsonMarshal c ≠ Panic;
}.

Section spec.
Context {K : Type} (env : FakeEnv).
Implicit Types m : Master K.

(** The index of a place of the list. *)
Definition in_list m (w : WorkerID) (i : Z) : Prop := (0 ≤ i)%Z ∧ ∃ h, fm_workerList m !! Z.to_nat i = Some (Some h) ∧ handle_ID h = w.
Definition in_range m (i : Z) : Prop := (0 ≤ i < fc_WorkerCount (fm_config m))%Z.

(** A worker works on an index: it is expected or in the list, and not one of those that
    went offline; or it finished the index. *)
Definition active (off : gset WorkerID) m (w : WorkerID) (i : Z) : Prop :=
  ((w ∉ off) ∧ (fm_pendingWorkerSet m !! w = Some i ∨ in_list m w i)) ∨ fm_finishedSet m !! w = Some i.

Record fm_inv (off : gset WorkerID) m : Prop := mkFmInv {
  fj_length : Z.of_nat (length (fm_workerList m)) = fc_WorkerCount (fm_config m);
  fj_business w i : active off m w i → fm_workerID2BusinessID m !! w = Some i;
  fj_range w i : active off m w i → in_range m i;
  fj_uniq w w' i : active off m w i → active off m w' i → w = w';
  fj_ids w i : fm_workerID2BusinessID m !! w = Some i → ∃ n, n < fm_asked m ∧ w = fe_uuid env n;
  fj_list w i : in_list m w i → w ∉ off;
  fj_finished w i : fm_finishedSet m !! w = Some i → w ∈ off;
  fj_pending w i : fm_pendingWorkerSet m !! w = Some i → fm_workerID2BusinessID m !! w = Some i ∧ in_range m i;
}.

(** *** Lemmas on the state *)

(** Fewer workers are active. *)
Lemma fm_inv_shrink off off' m m' :
  fm_inv off m → (∀ w i, active off' m' w i → active off m w i) → fm_config m' = fm_config m → length (fm_workerList m') = length (fm_workerList m) →
  fm_workerID2BusinessID m' = fm_workerID2BusinessID m → fm_asked m ≤ fm_asked m' → (∀ w i, in_list m' w i → w ∉ off') →
  (∀ w i, fm_finishedSet m' !! w = Some i → w ∈ off') → (∀ w i, fm_pendingWorkerSet m' !! w = Some i → fm_pendingWorkerSet m !! w = Some i) → fm_inv off' m'.
Proof.
  intros [H1 H2 H3 H4 H5 H6 H7 H8] Ha Hc Hl Hb Hn Hli Hf Hp. split; unfold in_range in *; rewrite ?Hc, ?Hl, ?Hb; try done.
  - intros w i Hw. by apply H2, Ha.
  - intros w i Hw. by apply (H3 w), Ha.
  - intros w w' i Hw Hw'. by apply (H4 w w' i); apply Ha.
  - intros w i Hw. destruct (H5 w i Hw) as (n & Hlt & ->). exists n. split; [lia|done].
  - intros w i Hw. by apply H8, Hp.
Qed.

(** The parts the invariant reads. *)
Lemma fm_inv_ext off m m' :
  fm_inv off m → fm_config m' = fm_config m → fm_workerList m' = fm_workerList m → fm_workerID2BusinessID m' = fm_workerID2BusinessID m →
  fm_pendingWorkerSet m' = fm_pendingWorkerSet m → fm_finishedSet m' = fm_finishedSet m → fm_asked m ≤ fm_asked m' → fm_inv off m'.
Proof.
  intros Hi Hc Hl Hb Hp Hf Hn. apply (fm_inv_shrink off off m m' Hi); unfold active, in_list; rewrite ?Hl, ?Hp, ?Hf; try done; [apply (fj_list _ _ Hi)|apply (fj_finished _ _ Hi)].
Qed.

(** A new worker of an index on which none works. *)
Lemma fm_inv_create off m i w :
  fm_inv off m → in_range m i → (∀ w', ¬ active off m w' i) → fm_workerID2BusinessID m !! w = None → (∃ n, n < fm_asked m ∧ w = fe_uuid env n) →
  fm_inv off (set_business (<[w := i]>) (set_pending (<[w := i]>) m)).
Proof.
  intros Hi Hr Hno Hw Hn. set (m' := set_business _ _).
  assert (∀ w' i', active off m' w' i' → active off m w' i' ∨ w' = w ∧ i' = i) as Ha.
  { intros w' i' [[Ho [Hp|Hl]]|Hf]; [|left; left; split; [done|by right]|left; by right]. simpl in Hp. apply lookup_insert_Some in Hp as [[<- <-]|[_ Hp]]; [by right|].
    left. left. split; [done|by left]. }
  assert (∀ i', ¬ active off m w i') as Hnw by (intros i' Hact; pose proof (fj_business _ _ Hi _ _ Hact); congruence).
  split; simpl; [apply (fj_length _ _ Hi)| | | | |apply (fj_list _ _ Hi)|apply (fj_finished _ _ Hi)|].
  - intros w' i' [Hact|[-> ->]]%Ha; [|apply lookup_insert_eq]. rewrite lookup_insert_ne; [by apply (fj_business _ _ Hi)|]. intros ->. by eapply Hnw.
  - intros w' i' [Hact|[-> ->]]%Ha; [by eapply (fj_range _ _ Hi)|done].
  - intros w1 w2 i' [H1|[-> ->]]%Ha [H2|[-> Hi2]]%Ha; subst; [by eapply (fj_uniq _ _ Hi)|by apply Hno in H1|by apply Hno in H2|done].
  - intros w' i'. rewrite lookup_insert_Some. intros [[<- _]|[_ Hb]]; [done|by eapply (fj_ids _ _ Hi)].
  - intros w' i'. rewrite !lookup_insert_Some. intros [[<- <-]|[Hne Hp]]; [by split; [left|]|]. destruct (fj_pending _ _ Hi _ _ Hp) as [Hb Hr']. split; [by right|done].
Qed.

Lemma in_list_insert m w i h w' i' : in_list (set_list (<[Z.to_nat i := Some h]>) m) w' i' → (0 ≤ i)%Z → handle_ID h = w → in_list m w' i' ∨ w' = w ∧ i' = i.
Proof.
  intros (Hp & h' & Hl & <-) Hi <-. simpl in Hl. apply list_lookup_insert_Some in Hl as [(Heq & [= <-] & _)|[_ Hl]]; [right; split; [done|lia]|left; split; [done|by exists h']].
Qed.

(** A worker takes the place of the index it works on. *)
Lemma fm_inv_place off m h i (clear_ : bool) :
  fm_inv off m → handle_ID h ∉ off → active off m (handle_ID h) i →
  fm_inv off (set_list (<[Z.to_nat i := Some h]>) (if clear_ then set_pending (delete (handle_ID h)) m else m)).
Proof.
  intros Hi Ho Ha. pose proof (fj_range _ _ Hi _ _ Ha) as Hr. set (m1 := if clear_ then _ else m).
  assert (∀ w j, in_list m1 w j → in_list m w j) as Hl1 by (by destruct clear_). assert (fm_finishedSet m1 = fm_finishedSet m) as Hf1 by (by destruct clear_).
  assert (∀ w j, fm_pendingWorkerSet m1 !! w = Some j → fm_pendingWorkerSet m !! w = Some j) as Hp1 by (intros w j; destruct clear_; simpl; [rewrite lookup_delete_Some|]; naive_solver).
  assert (∀ w' i', in_list (set_list (<[Z.to_nat i := Some h]>) m1) w' i' → in_list m w' i' ∨ w' = handle_ID h ∧ i' = i) as Hl.
  { intros w' i' Hin. destruct (in_list_insert m1 (handle_ID h) i h w' i' Hin) as [?|?]; [apply Hr|done|left; by apply Hl1|by right]. }
  apply (fm_inv_shrink off off m); [done| | | | | | | |]; try (by destruct clear_).
  - intros w' i' [[Ho' [Hp|Hin]]|Hf]; simpl in *; [left; split; [done|left; by apply Hp1]| |right; by rewrite <- Hf1].
    destruct (Hl _ _ Hin) as [?|[-> ->]]; [left; split; [done|by right]|done].
  - simpl. rewrite length_insert. by destruct clear_.
  - intros w' i' Hin. destruct (Hl _ _ Hin) as [Hin'|[-> _]]; [by eapply (fj_list _ _ Hi)|done].
  - intros w' i'. simpl. rewrite Hf1. apply (fj_finished _ _ Hi).
Qed.

(** A worker leaves the list. *)
Lemma place_of_Some w (l : list (option WorkerHandle)) n :
  place_of w l = Some n → ∃ h, l !! n = Some (Some h) ∧ handle_ID h = w.
Proof.
  unfold place_of. rewrite fmap_Some. intros ([n' [h|]] & Hf & ->); apply list_find_Some in Hf as (Hl & Hw & _); [|done]. exists h. split; [done|]. by injection Hw.
Qed.

Lemma place_of_None w (l : list (option WorkerHandle)) n h : place_of w l = None → l !! n = Some (Some h) → handle_ID h ≠ w.
Proof.
  unfold place_of. rewrite fmap_None, list_find_None, Forall_lookup. intros Hn Hl Hw. apply (Hn _ _ Hl). simpl. by rewrite Hw.
Qed.

Lemma fm_inv_leave off m w n :
  fm_inv off m → place_of w (fm_workerList m) = Some n → w ∉ off →
  let m' := set_list (<[n := None]>) m in
  fm_inv (off ∪ {[w]}) m' ∧ in_range m' (Z.of_nat n) ∧ (∀ w', ¬ active (off ∪ {[w]}) m' w' (Z.of_nat n)) ∧
  fm_inv (off ∪ {[w]}) (set_finished (<[w := Z.of_nat n]>) m').
Proof.
  intros Hi (h & Hl & Hh)%place_of_Some Ho m'. assert (active off m w (Z.of_nat n)) as Hact by (left; split; [done|right; split; [lia|exists h; by rewrite Nat2Z.id]]).
  assert (∀ w' i', in_list m' w' i' → in_list m w' i' ∧ i' ≠ Z.of_nat n) as Hin.
  { intros w' i' (Hp & h' & Hl' & Hw'). simpl in Hl'. apply list_lookup_insert_Some in Hl' as [(_ & [=] & _)|[Hne Hl']]. split; [split; [done|by exists h']|lia]. }
  assert (∀ w' i', active (off ∪ {[w]}) m' w' i' → active off m w' i' ∧ w' ≠ w) as Ha.
  { intros w' i' [[Ho' [Hp|Hin']]|Hf]; [split; [left; split; [set_solver|by left]|set_solver]|split; [left; split; [set_solver|right; by apply Hin]|set_solver]|].
    split; [by right|]. intros ->. by apply Ho, (fj_finished _ _ Hi w i'). }
  assert (∀ w' i', in_list m' w' i' → w' ∉ off ∪ {[w]}) as Hoff.
  { intros w' i' [Hin' Hne]%Hin. apply not_elem_of_union. split; [by eapply (fj_list _ _ Hi)|]. rewrite elem_of_singleton. intros ->. apply Hne.
    assert (active off m w i') as Hact' by (left; split; [done|by right]). pose proof (fj_business _ _ Hi _ _ Hact). pose proof (fj_business _ _ Hi _ _ Hact'). congruence. }
  assert (length (fm_workerList m') = length (fm_workerList m)) as Hlen by apply length_insert. split; [|split; [|split]].
  - apply (fm_inv_shrink off (off ∪ {[w]}) m m' Hi); try done. + intros w' i' Hw'. by apply Ha. + intros w' i' Hf. apply elem_of_union_l. by apply (fj_finished _ _ Hi w' i').
  - apply (fj_range _ _ Hi _ _ Hact).
  - intros w' [Hw' Hne]%Ha. apply Hne. by eapply (fj_uniq _ _ Hi).
  - apply (fm_inv_shrink off (off ∪ {[w]}) m _ Hi); try done.
    + intros w' i' [[Ho' Hl']|Hf]; [by apply Ha; left|]. simpl in Hf. apply lookup_insert_Some in Hf as [[<- <-]|[_ Hf]]; [done|by right].
    + intros w' i'. simpl. rewrite lookup_insert_Some. intros [[<- _]|[_ Hf]]; [set_solver|]. apply elem_of_union_l. by apply (fj_finished _ _ Hi w' i').
Qed.

(** Every index is finished when as many workers as there are indices are. *)
Lemma all_finished off m i : fm_inv off m → Z.of_nat (size (fm_finishedSet m)) = fc_WorkerCount (fm_config m) → in_range m i → ∃ w, fm_finishedSet m !! w = Some i.
Proof.
  intros Hi Hs Hr. set (l := (map_to_list (fm_finishedSet m)).*2).
  assert (∀ j, j ∈ l ↔ ∃ w, fm_finishedSet m !! w = Some j) as Hl.
  { intros j. unfold l. rewrite list_elem_of_fmap. split; [intros ([w j'] & -> & Hw%elem_of_map_to_list); by exists w|intros [w Hw]; exists (w, j); by rewrite elem_of_map_to_list]. }
  assert (NoDup l) as Hnd.
  { unfold l. apply NoDup_fmap_2_strong; [|apply NoDup_map_to_list]. intros [w j] [w' j'] Hw%elem_of_map_to_list Hw'%elem_of_map_to_list ?. simpl in *. subst.
    f_equal. eapply (fj_uniq _ _ Hi); by right. }
  assert (l ⊆+ seqZ 0 (fc_WorkerCount (fm_config m))) as Hsub.
  { apply NoDup_submseteq; [done|]. intros j [w Hw]%Hl. apply elem_of_seqZ. assert (active off m w j) as Hact by by right. destruct (fj_range _ _ Hi _ _ Hact). lia. }
  apply Hl. apply submseteq_length_Permutation in Hsub; [|].
  - rewrite Hsub. apply elem_of_seqZ. destruct Hr. lia.
  - unfold l. rewrite length_fmap, length_map_to_list, length_seqZ. lia.
Qed.

End spec.

(** *** Lemmas on the operations *)

Section steps.
Context {DB Srv K : Type} `{!Gorm DB} `{!HandlerRegistrar Srv} {kv : KV K} `{!FakeStatusJSON, !FakeJobJSON}.
Abbreviation St := (JobMasterSt DB Srv (Master K)).
Context (env : FakeEnv) (tomlEncode jsonMarshal : WorkerConfig FakeWorkerConfig → res goerr string) `{!FakeEnvLaws env jsonMarshal}.
Implicit Types s : St.

Lemma CreateWorker_fake newUUID cfg b :
  match CreateWorker tomlEncode jsonMarshal newUUID FakeTask (UserConfig cfg) 1 [] b with
  | (Done w, b') => w = newUUID ∧ bm_workerManager b' = bm_workerManager b ∧
      ∃ bytes, jsonMarshal (UserConfig cfg) = Done bytes ∧ bm_creating b' = bm_creating b ++ [mkCreateTask newUUID FakeTask bytes 1 []]
  | (Fail _, b') => bm_workerManager b' = bm_workerManager b
  | (Panic, _) => False
  end.
Proof.
  unfold CreateWorker. rewrite Consume_eq. destruct (bool_decide _); [|done]. unfold prepareWorkerConfig. cbn. pose proof (fe_encode (env := env) (UserConfig cfg)) as He.
  destruct (jsonMarshal (UserConfig cfg)) as [bytes|e|]; [|done..]. split; [done|]. split; [done|]. by exists bytes.
Qed.

Lemma createWorker_spec cfg s :
  let w := fe_uuid env (fm_asked (fake s)) in let m1 := fm_set_asked (S (fm_asked (fake s))) (fake s) in
  match createWorker env tomlEncode jsonMarshal cfg s with
  | (Done _, s') => fake s' = set_business (<[w := fwc_ID cfg]>) (set_pending (<[w := fwc_ID cfg]>) m1) ∧ bm_workerManager (ms_base s') = bm_workerManager (ms_base s) ∧
      ∃ bytes, jsonMarshal (UserConfig cfg) = Done bytes ∧ bm_creating (ms_base s') = bm_creating (ms_base s) ++ [mkCreateTask w FakeTask bytes 1 []]
  | (Fail _, s') => fake s' = m1 ∧ bm_workerManager (ms_base s') = bm_workerManager (ms_base s)
  | (Panic, _) => False
  end.
Proof.
  intros w m1. unfold createWorker, mbind, GoM_bind, fask, on_base, fupd. cbn [set_fake ms_base]. pose proof (CreateWorker_fake w cfg (ms_base s)) as Hw. fold w.
  destruct (CreateWorker _ _ _ _ _ _ _ _) as [[w'|e|] b']; [destruct Hw as (-> & Hm & Hb)| |done]; [|done]. done.
Qed.

Lemma uuid_fresh off (m : Master K) : fm_inv env off m → fm_workerID2BusinessID m !! fe_uuid env (fm_asked m) = None.
Proof.
  intros Hi. apply eq_None_ne_Some. intros i Hw. destruct (fj_ids _ _ _ Hi _ _ Hw) as (n & Hn & He). pose proof (fe_uuid_inj (env := env) (jsonMarshal := jsonMarshal) _ _ He). lia.
Qed.

(** A worker is created, or not, for an index on which none works. *)
Lemma createWorker_inv off cfg s :
  fm_inv env off (fake s) → in_range (fake s) (fwc_ID cfg) → (∀ w, ¬ active off (fake s) w (fwc_ID cfg)) →
  let out := createWorker env tomlEncode jsonMarshal cfg s in
  fm_inv env off (fake out.2) ∧ fm_statusCode (fake out.2) = fm_statusCode (fake s) ∧ fm_finishedSet (fake out.2) = fm_finishedSet (fake s) ∧
  fm_config (fake out.2) = fm_config (fake s).
Proof.
  intros Hi Hr Hno. pose proof (createWorker_spec cfg s) as Hs. cbv zeta. assert (fm_inv env off (fm_set_asked (S (fm_asked (fake s))) (fake s))) as Hi1.
  { apply (fm_inv_ext env off (fake s)); simpl; try done. lia. }
  destruct (createWorker _ _ _ cfg s) as [[[]|e|] s']; cbn [snd]; [|destruct Hs as [-> _]; done|done]. destruct Hs as [-> _]. split; [|done].
  apply fm_inv_create; [done|done|done|exact (uuid_fresh _ _ Hi)|]. eexists. split; [|done]. simpl. lia.
Qed.

Lemma set_fake_id s : set_fake (fake s) s = s.
Proof. by destruct s as [b db [w m]]. Qed.

Lemma worker_at_range off i s : fm_inv env off (fake s) → in_range (fake s) i → ∃ o, fm_workerList (fake s) !! Z.to_nat i = Some o ∧ worker_at i s = (Done o, s).
Proof.
  intros Hi [H1 H2]. rewrite <- (fj_length _ _ _ Hi) in H2. destruct (lookup_lt_is_Some_2 (fm_workerList (fake s)) (Z.to_nat i)) as [o Ho]; [lia|]. exists o. split; [done|].
  unfold worker_at. erewrite bind_Done by reflexivity. rewrite bool_decide_eq_false_2 by lia. unfold or_panic. by rewrite Ho.
Qed.

Lemma set_worker_at_range off i h s :
  fm_inv env off (fake s) → in_range (fake s) i → set_worker_at i h s = (Done tt, set_fake (set_list (<[Z.to_nat i := h]>) (fake s)) s).
Proof. intros Hi Hr. unfold set_worker_at. destruct (worker_at_range _ _ _ Hi Hr) as (o & _ & Ho). by erewrite bind_Done by exact Ho. Qed.

(** The list grows by workers that take an empty place. *)
Definition extends (l l' : list (option WorkerHandle)) : Prop := ∀ j h, l !! j = Some (Some h) → l' !! j = Some (Some h).
Definition with_list (l : list (option WorkerHandle)) s : St := set_fake (set_list (λ _, l) (fake s)) s.
Definition occupied (m : Master K) (i : Z) : Prop := ∃ h, fm_workerList m !! Z.to_nat i = Some (Some h).

(** The workers of the framework that are not gone are those the job master expects or has
    in its list. *)
Definition known_workers (off : gset WorkerID) (workers : gmap WorkerID WorkerHandle) (m : Master K) : Prop :=
  ∀ id h, workers !! id = Some h → GetTombstone h = None → handle_ID h = id ∧ (id ∉ off) ∧ ∃ i, fm_pendingWorkerSet m !! id = Some i ∨ in_list m id i.

Lemma place_worker_spec off h i s :
  fm_inv env off (fake s) → handle_ID h ∉ off → active off (fake s) (handle_ID h) i →
  ∃ l, place_worker h i s = (Done tt, with_list l s) ∧ fm_inv env off (fake (with_list l s)) ∧ extends (fm_workerList (fake s)) l ∧ occupied (fake (with_list l s)) i.
Proof.
  intros Hi Ho Ha. pose proof (fj_range _ _ _ Hi _ _ Ha) as Hr. destruct (worker_at_range _ _ _ Hi Hr) as (o & Hl & Hw). unfold place_worker. erewrite bind_Done by exact Hw.
  destruct o as [h'|].
  - exists (fm_workerList (fake s)). assert (with_list (fm_workerList (fake s)) s = s) as -> by (unfold with_list; by destruct s as [b db [w []]]). split; [done|]. split; [done|].
    split; [by intros j h''|by exists h'].
  - exists (<[Z.to_nat i := Some h]> (fm_workerList (fake s))). split; [by erewrite set_worker_at_range|]. split; [exact (fm_inv_place env off (fake s) h i false Hi Ho Ha)|]. split.
    + intros j h' Hj. rewrite list_lookup_insert_ne; [done|]. intros <-. congruence.
    + exists h. simpl. apply list_lookup_insert_eq. by apply lookup_lt_Some in Hl.
Qed.

Lemma adopt_worker_spec off workers id s :
  fm_inv env off (fake s) → known_workers off workers (fake s) →
  ∃ l, adopt_worker workers id s = (Done tt, with_list l s) ∧ fm_inv env off (fake (with_list l s)) ∧ extends (fm_workerList (fake s)) l ∧
    ∀ h i, workers !! id = Some h → GetTombstone h = None → fm_pendingWorkerSet (fake s) !! id = Some i → occupied (fake (with_list l s)) i.
Proof.
  intros Hi Hk. assert (with_list (fm_workerList (fake s)) s = s) as Hs by (unfold with_list; by destruct s as [b db [w []]]).
  unfold adopt_worker. destruct (workers !! id) as [h|] eqn:Hw; [|exists (fm_workerList (fake s)); rewrite Hs; split_and!; try done; by intros ? ?].
  destruct (GetTombstone h) eqn:Ht; [exists (fm_workerList (fake s)); rewrite Hs; split_and!; try done; [by intros ? ?|intros ? ? [= <-]; congruence]|].
  destruct (Hk _ _ Hw Ht) as (Hid & Ho & i & Hp). assert (active off (fake s) (handle_ID h) i) as Ha by (rewrite Hid; left; by split).
  erewrite bind_Done by reflexivity. rewrite (fj_business _ _ _ Hi _ _ Ha). rewrite <- Hid in Ho. destruct (place_worker_spec off h i s Hi Ho Ha) as (l & Hpl & Hi' & He & Hoc).
  exists l. split_and!; [done..|]. intros h' i' [= <-] _ Hp'. assert (active off (fake s) (handle_ID h) i') as Ha' by (rewrite Hid; left; split; [congruence|by left]).
  pose proof (fj_business _ _ _ Hi _ _ Ha). pose proof (fj_business _ _ _ Hi _ _ Ha'). assert (i' = i) as -> by congruence. done.
Qed.

Lemma adopt_workers_spec off workers order : ∀ s,
  fm_inv env off (fake s) → known_workers off workers (fake s) →
  ∃ l, forM_ (adopt_worker workers) order s = (Done tt, with_list l s) ∧ fm_inv env off (fake (with_list l s)) ∧ extends (fm_workerList (fake s)) l ∧
    ∀ id h i, id ∈ order → workers !! id = Some h → GetTombstone h = None → fm_pendingWorkerSet (fake s) !! id = Some i → occupied (fake (with_list l s)) i.
Proof.
  induction order as [|id order IH]; intros s Hi Hk.
  - exists (fm_workerList (fake s)). assert (with_list (fm_workerList (fake s)) s = s) as -> by (unfold with_list; by destruct s as [b db [w []]]). split_and!; try done; [by intros ? ?|]. intros id h i Hin. by apply not_elem_of_nil in Hin.
  - simpl. destruct (adopt_worker_spec off workers id s Hi Hk) as (l & Hl & Hi1 & He & Ho). erewrite bind_Done by exact Hl. destruct (IH (with_list l s) Hi1) as (l' & Hl' & Hi2 & He' & Ho').
    { intros id' h Hw Ht. destruct (Hk _ _ Hw Ht) as (? & ? & i & Hp). split; [done|]. split; [done|]. exists i. destruct Hp as [?|(? & h' & Hh & ?)]; [by left|right]. split; [done|]. exists h'. split; [by apply He|done]. }
    exists l'. split; [done|]. split; [done|]. split; [intros j h Hj; by apply He', He|].
    intros id' h i [->|Hin]%elem_of_cons Hw Ht Hp; [|by eapply Ho']. destruct (Ho h i Hw Ht Hp) as [h' Hh']. exists h'. by apply He'.
Qed.

(** *** The invariant of the runs *)

(** When the job has finished, so has every index. *)
Definition complete (m : Master K) : Prop := fm_statusCode m = WorkerStatusFinished → ∀ i, in_range m i → ∃ w, fm_finishedSet m !! w = Some i.
Definition job_inv (off : gset WorkerID) s : Prop := fm_inv env off (fake s) ∧ complete (fake s).

Lemma job_inv_ext off s s' :
  job_inv off s → fm_config (fake s') = fm_config (fake s) → fm_workerList (fake s') = fm_workerList (fake s) → fm_workerID2BusinessID (fake s') = fm_workerID2BusinessID (fake s) →
  fm_pendingWorkerSet (fake s') = fm_pendingWorkerSet (fake s) → fm_finishedSet (fake s') = fm_finishedSet (fake s) → fm_asked (fake s) ≤ fm_asked (fake s') →
  (fm_statusCode (fake s') = fm_statusCode (fake s) ∨ fm_statusCode (fake s') ≠ WorkerStatusFinished) → job_inv off s'.
Proof.
  intros [Hi Hc] E1 E2 E3 E4 E5 Hn Ec. split; [by apply (fm_inv_ext env off (fake s))|]. unfold complete, in_range. rewrite E1, E5. intros Hf. destruct Ec as [Ec|Ec]; [|done].
  apply Hc. congruence.
Qed.

(** Nothing but the questions, the store and the statuses. *)
Ltac job_ext s := apply (job_inv_ext _ s); simpl; try done; try lia; try (by left).

Lemma loop_job_inv {A} off (f : A → Go St unit) l : (∀ x s, job_inv off s → job_inv off (f x s).2) → ∀ s, job_inv off s → job_inv off (forM_ f l s).2.
Proof. intros Hf s Hs. apply (triple_forM (job_inv off) (λ _, job_inv off)); [|done|done]. intros x _ s1 H1. specialize (Hf x s1 H1). by destruct (f x s1) as [[]]. Qed.

Lemma status_of_st h s : (status_of h s).2 = s.
Proof. unfold status_of. destruct (bm_workerManager _); [|done]. by destruct (handle_Status _ _) as [[]| |]. Qed.

Lemma worker_at_st i s : (worker_at i s).2 = s.
Proof. unfold worker_at, mbind, GoM_bind, fgets. case_bool_decide; [done|]. unfold or_panic. by destruct (_ !! _). Qed.

Lemma load_status_inv off i s : job_inv off s → job_inv off (load_status i s).2.
Proof.
  intros Hj. unfold load_status, mbind, GoM_bind. pose proof (worker_at_st i s) as Hw. destruct (worker_at i s) as [[[h|]|e|] s1]; simpl in Hw; subst s1; try done.
  pose proof (status_of_st h s) as Hs. destruct (status_of h s) as [[st|e|] s1]; simpl in Hs; subst s1; try done.
  case_bool_decide; [job_ext s|]. unfold parseExtBytes. destruct (dws_Unmarshal _); [job_ext s|done].
Qed.

Lemma load_statuses_inv off s : job_inv off s → job_inv off (load_statuses s).2.
Proof. intros Hj. unfold load_statuses, mbind, GoM_bind, fgets. apply loop_job_inv; [|done]. intros i s1. apply load_status_inv. Qed.

Lemma load_checkpoint_inv off s : job_inv off s → job_inv off (load_checkpoint s).2 ∧ fm_workerList (fake (load_checkpoint s).2) = fm_workerList (fake s).
Proof.
  intros Hj. unfold load_checkpoint, on_fkv. destruct (kvc_Get _ _ _) as [[[|kv0 kvs]|e|] k]; [|destruct (ckpt_Unmarshal _)|..]; (split; [job_ext s|done]).
Qed.

(** The first time the master is ready, every index has its worker in the framework: it is
    known there and not gone. *)
Definition first_tick_ok (off : gset WorkerID) s : Prop :=
  fm_initialized (fake s) = true ∨
  ∀ m, bm_workerManager (ms_base s) = Some m → IsInitialized m = true →
    known_workers off (GetWorkers m) (fake s) ∧
    ∀ i, in_range (fake s) i → occupied (fake s) i ∨ ∃ w h, fm_pendingWorkerSet (fake s) !! w = Some i ∧ GetWorkers m !! w = Some h ∧ GetTombstone h = None.

Lemma restore_nothing ckpt l s : (∀ i, i ∈ l → (0 ≤ i)%Z ∧ occupied (fake s) i) → forM_ (restore_worker env tomlEncode jsonMarshal ckpt) l s = (Done tt, s).
Proof.
  induction l as [|i l IH]; intros Ho; [done|]. simpl. destruct (Ho i) as [Hp [h Hh]]; [left|]. erewrite bind_Done; [apply IH; intros j Hj; apply Ho; by right|].
  unfold restore_worker. erewrite bind_Done; [|unfold worker_at; erewrite bind_Done by reflexivity; rewrite bool_decide_eq_false_2 by lia; unfold or_panic; by rewrite Hh]. done.
Qed.

Lemma failover_inv off m s :
  job_inv off s → bm_workerManager (ms_base s) = Some m → known_workers off (GetWorkers m) (fake s) →
  (∀ i, in_range (fake s) i → occupied (fake s) i ∨ ∃ w h, fm_pendingWorkerSet (fake s) !! w = Some i ∧ GetWorkers m !! w = Some h ∧ GetTombstone h = None) →
  job_inv off (failover env tomlEncode jsonMarshal s).2.
Proof.
  intros Hj Hm Hk Ho. unfold failover. erewrite bind_Done by reflexivity. erewrite bind_Done by reflexivity. unfold Master_GetWorkers. cbn [set_fake ms_base]. rewrite Hm.
  erewrite bind_Done by reflexivity. set (s0 := set_fake (set_initialized (fake s)) s). erewrite bind_Done by reflexivity.
  set (s1 := set_fake (fm_set_asked _ _) s0). assert (job_inv off s1) as [Hi1 Hc1] by (job_ext s).
  destruct (adopt_workers_spec off (GetWorkers m) (fe_workers env (fm_asked (fake s0)) (GetWorkers m)) s1 Hi1 Hk) as (l & Hl & Hi2 & He & Hoc).
  erewrite bind_Done by exact Hl. assert (job_inv off (with_list l s1)) as Hj2 by (split; [done|exact Hc1]).
  destruct (load_checkpoint_inv off _ Hj2) as [Hj3 Hl3]. unfold mbind at 1, GoM_bind at 1. destruct (load_checkpoint (with_list l s1)) as [[ckpt|e|] s3]; [|done..]. simpl in Hj3, Hl3.
  erewrite bind_Done by reflexivity. rewrite restore_nothing; [done|]. intros i Hin. unfold indices in Hin. apply elem_of_seqZ in Hin. split; [lia|].
  unfold id in Hin. rewrite Hl3 in Hin. assert (in_range (fake s) i) as Hr.
  { split; [lia|]. pose proof (fj_length _ _ _ Hi2) as Hlen. simpl in Hlen. lia. }
  unfold occupied. rewrite Hl3. destruct (Ho i Hr) as [[h Hh]|(w & h & Hp & Hw & Ht)]; [exists h; by apply He|]. apply (Hoc w h i); [|done..].
  apply (iter_order_elem (GetWorkers m)); [apply fe_workers_keys|by eexists].
Qed.

Lemma FakeMaster_Exit_inv off s : job_inv off s → job_inv off (FakeMaster_Exit env s).2.
Proof.
  intros Hj. unfold FakeMaster_Exit, FakeMaster_Status, mbind, GoM_bind, fgets. destruct (bstatus_Marshal _); [|done|done]. unfold mret, GoM_ret, fask. set (s1 := set_fake _ s).
  assert (job_inv off s1) as Hj1 by (job_ext s). unfold job_inv, fake. by rewrite JobMaster_Exit_impl.
Qed.

Lemma report_status_inv off s : job_inv off s → job_inv off (report_status env s).2.
Proof.
  intros Hj. unfold report_status, FakeMaster_Status, mbind, GoM_bind, fgets. destruct (bstatus_Marshal _) as [b|e|]; [|done|done]. unfold mret, GoM_ret, fask. set (s1 := set_fake _ s).
  assert (job_inv off s1) as Hj1 by (job_ext s). unfold or_again. pose proof (UpdateJobStatus_impl (fe_io env (fm_asked (fake s))) (fm_statusCode (id (fake s))) "" b s1) as Hu.
  destruct (UpdateJobStatus _ _ _ _ s1) as [[[]|e|] s2]; cbn [snd] in *; [|case_match|]; unfold job_inv, fake; simpl; by rewrite Hu.
Qed.

Lemma tickedCheckStatus_inv off s : job_inv off s → job_inv off (tickedCheckStatus env s).2.
Proof.
  intros Hj. unfold tickedCheckStatus, mbind, GoM_bind, fask, fgets, fupd. set (s1 := set_fake _ s). assert (job_inv off s1) as Hj1 by (job_ext s).
  destruct (fe_allow env _).
  - assert (job_inv off (save_checkpoint env s1).2) as Hs.
    { unfold save_checkpoint, mbind, GoM_bind, fgets, fask, or_log, on_fkv. destruct (kvc_Put _ _ _) as [[]]; job_ext s1. }
    destruct (save_checkpoint env s1) as [[[]|e|] s2]; [by apply report_status_inv|done|done].
  - case_bool_decide as H1; [apply FakeMaster_Exit_inv; apply (job_inv_ext _ s1); try done; by right|]. case_bool_decide as H2; [|done].
    apply FakeMaster_Exit_inv. destruct Hj1 as [Hi1 _]. split; [by apply (fm_inv_ext env off (fake s1))|]. intros _ i Hr. by apply (all_finished env off (fake s1)).
Qed.

Lemma FakeMaster_Tick_inv off s : job_inv off s → first_tick_ok off s → job_inv off (FakeMaster_Tick env tomlEncode jsonMarshal s).2.
Proof.
  intros Hj Hok. unfold FakeMaster_Tick. assert (job_inv off (tickedCheckWorkers env tomlEncode jsonMarshal s).2) as Ht.
  { unfold tickedCheckWorkers, mbind, GoM_bind, fgets, get, lift_res. destruct (fm_initialized (fake s)) eqn:Hin; [by apply load_statuses_inv|].
    destruct Hok as [?|Hok]; [congruence|]. unfold IsMasterReady. destruct (bm_workerManager (ms_base s)) as [m|] eqn:Hm; [|done].
    destruct (IsInitialized m) eqn:Hr; [|job_ext s]. simpl. destruct (Hok m eq_refl Hr) as [Hk Ho]. pose proof (failover_inv off m s Hj Hm Hk Ho) as Hf.
    destruct (failover _ _ _ s) as [[[]|e|] s1]; [by apply load_statuses_inv|done|done]. }
  unfold mbind, GoM_bind. destruct (tickedCheckWorkers _ _ _ s) as [[[]|e|] s1]; [by apply tickedCheckStatus_inv|done|done].
Qed.

(** *** The start *)

(** Workers are expected and none is in the list. *)
Definition starting (conf : Config) s : Prop :=
  fm_inv env ∅ (fake s) ∧ (∀ j h, fm_workerList (fake s) !! j ≠ Some (Some h)) ∧ fm_finishedSet (fake s) = ∅ ∧ fm_statusCode (fake s) = WorkerStatusNormal ∧
  fm_config (fake s) = conf ∧ fm_initialized (fake s) = false.

Lemma starting_active conf s w i : starting conf s → active ∅ (fake s) w i → fm_pendingWorkerSet (fake s) !! w = Some i.
Proof. intros (_ & Hl & Hf & _) [[_ [?|(_ & h & Hh & _)]]|Hw]; [done|by apply Hl in Hh|by rewrite Hf in Hw]. Qed.

Lemma init_worker_spec conf i s :
  starting conf s → in_range (fake s) i →
  match init_worker env tomlEncode jsonMarshal i s with
  | (Done _, s') => starting conf s' ∧ fm_pendingWorkerSet (fake s) ⊆ fm_pendingWorkerSet (fake s') ∧ ∃ w, fm_pendingWorkerSet (fake s') !! w = Some i
  | (Fail _, s') => starting conf s'
  | (Panic, _) => False
  end.
Proof.
  intros Hs Hr. pose proof Hs as (Hi & Hl & Hf & Hc & Hcf & Hin). unfold init_worker. destruct (worker_at_range _ _ _ Hi Hr) as (o & Ho & Hw). erewrite bind_Done by exact Hw.
  destruct o as [h|]; [by apply Hl in Ho|]. erewrite bind_Done by reflexivity. case_bool_decide as Hex.
  { simpl. split; [done|]. split; [done|]. apply Exists_exists in Hex as ([w i'] & Hwi & Heq). simpl in Heq. subst i'. exists w. by apply elem_of_map_to_list. }
  erewrite bind_Done by reflexivity. set (cfg := genWorkerConfig _ _ _).
  assert (∀ w, ¬ active ∅ (fake s) w i) as Hno.
  { intros w Ha%(starting_active conf); [|done]. apply Hex, Exists_exists. exists (w, i). split; [by apply elem_of_map_to_list|done]. }
  pose proof (createWorker_spec cfg s) as Hsp. pose proof (createWorker_inv ∅ cfg s Hi Hr Hno) as (Hi' & Hc' & Hf' & Hcf').
  destruct (createWorker _ _ _ cfg s) as [[[]|e|] s']; cbn [snd] in *; [| |done]; destruct Hsp as [Hfk _].
  - split; [|split].
    + split; [done|]. rewrite Hf', Hc', Hcf'. split; [|split_and!; try done]; rewrite Hfk; simpl; done.
    + rewrite Hfk. simpl. apply insert_subseteq. apply eq_None_ne_Some. intros j Hj. destruct (fj_pending _ _ _ Hi _ _ Hj) as [Hb _]. rewrite (uuid_fresh _ _ Hi) in Hb. done.
    + rewrite Hfk. simpl. eexists. apply lookup_insert_eq.
  - split; [done|]. rewrite Hf', Hc', Hcf'. split; [|split_and!; try done]; rewrite Hfk; simpl; done.
Qed.

Lemma init_workers_spec conf l : ∀ s, starting conf s → (∀ i, i ∈ l → in_range (fake s) i) →
  match forM_ (init_worker env tomlEncode jsonMarshal) l s with
  | (Done _, s') => starting conf s' ∧ fm_pendingWorkerSet (fake s) ⊆ fm_pendingWorkerSet (fake s') ∧ ∀ i, i ∈ l → ∃ w, fm_pendingWorkerSet (fake s') !! w = Some i
  | (Fail _, s') => starting conf s'
  | (Panic, _) => False
  end.
Proof.
  induction l as [|i l IH]; intros s Hs Hr; simpl; [split_and!; try done; intros i Hi; by apply not_elem_of_nil in Hi|]. unfold mbind, GoM_bind.
  pose proof (init_worker_spec conf i s Hs (Hr i ltac:(left))) as Hw. destruct (init_worker _ _ _ i s) as [[[]|e|] s1]; [|done|done]. destruct Hw as (Hs1 & Hp1 & w & Hw).
  assert (∀ j, j ∈ l → in_range (fake s1) j) as Hr1.
  { intros j Hj. specialize (Hr j ltac:(by right)). unfold in_range in *. destruct Hs as (_ & _ & _ & _ & -> & _) in Hr. by destruct Hs1 as (_ & _ & _ & _ & -> & _). }
  specialize (IH s1 Hs1 Hr1). destruct (forM_ _ l s1) as [[[]|e|] s2]; [|done|done]. destruct IH as (Hs2 & Hp2 & Hall). split; [done|]. split; [by etrans|].
  intros j [->|Hj]%elem_of_cons; [exists w; by eapply lookup_weaken|by apply Hall].
Qed.

Lemma starting_new conf workerID k m0 s : NewFakeMaster workerID conf k = Some m0 → fake s = m0 → starting conf s.
Proof.
  unfold NewFakeMaster. case_bool_decide as Hneg; [done|]. intros [= <-] Hs.
  assert (∀ j h, replicate (Z.to_nat (fc_WorkerCount conf)) (@None WorkerHandle) !! j ≠ Some (Some h)) as Hnone by (intros j h Hj; by apply lookup_replicate in Hj as [? _]).
  unfold starting. rewrite Hs. simpl. split_and!; try done. split; simpl; try done; [rewrite length_replicate; lia|..].
  - intros w i [[_ [Hp|(_ & h & Hh & _)]]|Hf]; [done|by apply Hnone in Hh|done].
  - intros w i [[_ [Hp|(_ & h & Hh & _)]]|Hf]; [done|by apply Hnone in Hh|done].
  - intros w w' i [[_ [Hp|(_ & h & Hh & _)]]|Hf]; [done|by apply Hnone in Hh|done].
Qed.

Lemma InitImpl_spec conf workerID k m0 s :
  NewFakeMaster workerID conf k = Some m0 → fake s = m0 →
  match FakeMaster_InitImpl env tomlEncode jsonMarshal s with
  | (Done _, s') => starting conf s' ∧ ∀ i, in_range (fake s') i → ∃ w, fm_pendingWorkerSet (fake s') !! w = Some i
  | (Fail _, s') => starting conf s'
  | (Panic, _) => False
  end.
Proof.
  intros Hm0 Hs. pose proof (starting_new conf workerID k m0 s Hm0 Hs) as Hst. unfold FakeMaster_InitImpl, initWorkers. erewrite bind_Done by reflexivity.
  assert (∀ i, in_range (fake s) i ↔ i ∈ indices (fake s)) as Hrange.
  { intros i. unfold indices, in_range. rewrite elem_of_seqZ, (fj_length _ _ _ (proj1 Hst)). lia. }
  pose proof (init_workers_spec conf (indices (fake s)) s Hst (λ i, proj2 (Hrange i))) as Hl. unfold id. destruct (forM_ _ _ s) as [[[]|e|] s']; [|done|done].
  destruct Hl as (Hs' & _ & Hall). split; [done|]. intros i Hi. apply Hall, Hrange. unfold in_range in *. destruct Hst as (_ & _ & _ & _ & -> & _). by destruct Hs' as (_ & _ & _ & _ & <- & _).
Qed.

(** *** The events *)

Lemma OnWorkerOnline_inv off h s i :
  job_inv off s → handle_ID h ∉ off → fm_pendingWorkerSet (fake s) !! handle_ID h = Some i → ∃ s', FakeMaster_OnWorkerOnline h s = (Done tt, s') ∧ job_inv off s'.
Proof.
  intros [Hi Hc] Ho Hp. assert (active off (fake s) (handle_ID h) i) as Ha by (left; split; [done|by left]). pose proof (fj_range _ _ _ Hi _ _ Ha) as Hr.
  unfold FakeMaster_OnWorkerOnline. erewrite bind_Done by reflexivity. rewrite Hp. erewrite bind_Done by reflexivity. erewrite bind_Done by reflexivity. set (s1 := set_fake _ s).
  assert (fm_inv env off (fake s1)) as Hi1.
  { apply (fm_inv_shrink env off off (fake s)); simpl; try done; [|apply (fj_list _ _ _ Hi)|apply (fj_finished _ _ _ Hi)|intros w j; rewrite lookup_delete_Some; naive_solver].
    intros w j [[Hw [Hp'|Hl]]|Hf]; [left; split; [done|]|left; split; [done|by right]|by right]. simpl in Hp'. apply lookup_delete_Some in Hp' as [_ Hp']. by left. }
  rewrite (set_worker_at_range off i (Some h) s1 Hi1 Hr). eexists. split; [done|]. split; [exact (fm_inv_place env off (fake s) h i true Hi Ho Ha)|exact Hc].
Qed.

Lemma OnWorkerOffline_inv off h reason s :
  job_inv off s → handle_ID h ∉ off → job_inv (off ∪ {[handle_ID h]}) (FakeMaster_OnWorkerOffline env tomlEncode jsonMarshal h reason s).2.
Proof.
  intros [Hi Hc] Ho. unfold FakeMaster_OnWorkerOffline. erewrite bind_Done by reflexivity. destruct (place_of (handle_ID h) (fm_workerList (fake s))) as [n|] eqn:Hp.
  - destruct (fm_inv_leave env off (fake s) (handle_ID h) n Hi Hp Ho) as (Hi1 & Hr & Hno & Hfin). erewrite bind_Done by reflexivity. erewrite bind_Done by reflexivity.
    set (s1 := set_fake (set_bStatus _ _) _). assert (fm_inv env (off ∪ {[handle_ID h]}) (fake s1)) as Hi2 by (apply (fm_inv_ext env _ _ _ Hi1); simpl; done).
    destruct (err_Equal ErrWorkerFinish reason).
    + split; [apply (fm_inv_ext env _ _ _ Hfin); simpl; done|]. intros Hf j Hj. destruct (Hc Hf j Hj) as [w Hw]. exists w. simpl. rewrite lookup_insert_ne; [done|].
      intros <-. by apply Ho, (fj_finished _ _ _ Hi _ _ Hw).
    + unfold mbind, GoM_bind. pose proof (status_of_st h s1) as Hs. destruct (status_of h s1) as [[st|e|] s2]; simpl in Hs; subst s2; [|split; [done|exact Hc]..].
      cbn [fgets]. set (cfg := genWorkerConfig _ _ _). destruct (createWorker_inv _ cfg s1 Hi2 Hr) as (Hi3 & Hco & Hfi & Hcf); [intros w Ha; by eapply Hno|].
      split; [done|]. unfold complete, in_range. rewrite Hco, Hfi, Hcf. exact Hc.
  - split; [|exact Hc]. apply (fm_inv_shrink env off _ (fake s)); simpl; try done.
    + intros w j [[Hw Hl]|Hf]; [left; split; [set_solver|done]|by right].
    + intros w j Hl. pose proof (fj_list _ _ _ Hi _ _ Hl). destruct Hl as (_ & h' & Hh & <-). pose proof (place_of_None _ _ _ _ Hp Hh). set_solver.
    + intros w j Hf. apply elem_of_union_l. by apply (fj_finished _ _ _ Hi w j).
Qed.

Lemma OnJobManagerMessage_inv off topic msg s : job_inv off s → job_inv off (FakeMaster_OnJobManagerMessage env topic msg s).2.
Proof.
  intros Hj. unfold FakeMaster_OnJobManagerMessage. case_bool_decide; [|done]. unfold mbind, GoM_bind, fupd, fgets. apply loop_job_inv; [|apply (job_inv_ext _ s); simpl; try done; by right].
  intros i s1 Hs1. unfold stop_worker, mbind, GoM_bind. pose proof (worker_at_st i s1) as Hw. destruct (worker_at i s1) as [[[h|]|e|] s2]; simpl in Hw; subst s2; try done.
  unfold fask. destruct h as [w ex|w]; [|job_ext s1]. unfold get. simpl. destruct (fe_send env _); job_ext s1.
Qed.

(** A job that was started, with the workers whose end was told: ticks, the first of which
    finds the workers, the events of workers, one end for each, messages of the job
    manager, and whatever happens to the base. *)
Inductive fake_job_run (conf : Config) : gset WorkerID → St → Prop :=
| jr_start workerID k m0 s r s' :
    NewFakeMaster workerID conf k = Some m0 → fake s = m0 → FakeMaster_InitImpl env tomlEncode jsonMarshal s = (r, s') → fake_job_run conf ∅ s'
| jr_base off s b db w : fake_job_run conf off s → fake_job_run conf off (mkMasterSt b db (w, fake s))
| jr_tick off s r s' : fake_job_run conf off s → first_tick_ok off s → FakeMaster_Tick env tomlEncode jsonMarshal s = (r, s') → fake_job_run conf off s'
| jr_online off s h i r s' :
    fake_job_run conf off s → handle_ID h ∉ off → fm_pendingWorkerSet (fake s) !! handle_ID h = Some i → FakeMaster_OnWorkerOnline h s = (r, s') → fake_job_run conf off s'
| jr_offline off s h reason r s' :
    fake_job_run conf off s → handle_ID h ∉ off → FakeMaster_OnWorkerOffline env tomlEncode jsonMarshal h reason s = (r, s') → fake_job_run conf (off ∪ {[handle_ID h]}) s'
| jr_message off s topic msg r s' : fake_job_run conf off s → FakeMaster_OnJobManagerMessage env topic msg s = (r, s') → fake_job_run conf off s'.

Lemma fake_job_run_inv conf off s : fake_job_run conf off s → job_inv off s.
Proof.
  induction 1 as [workerID k m0 s r s' Hm Hs Hrun|off s b db w _ IH|off s r s' _ IH Hok Hrun|off s h i r s' _ IH Ho Hp Hrun|off s h reason r s' _ IH Ho Hrun|off s topic msg r s' _ IH Hrun].
  - pose proof (InitImpl_spec conf workerID k m0 s Hm Hs) as Hsp. rewrite Hrun in Hsp. assert (starting conf s') as (Hi & _ & _ & Hc & _) by (destruct r; naive_solver).
    split; [done|]. intros Hf. by rewrite Hc in Hf.
  - exact IH.
  - pose proof (FakeMaster_Tick_inv off s IH Hok) as Ht. by rewrite Hrun in Ht.
  - destruct (OnWorkerOnline_inv off h s i IH Ho Hp) as (s1 & Hs1 & Hj). assert (s1 = s') as -> by congruence. done.
  - pose proof (OnWorkerOffline_inv off h reason s IH Ho) as Ht. by rewrite Hrun in Ht.
  - pose proof (OnJobManagerMessage_inv off topic msg s IH) as Ht. by rewrite Hrun in Ht.
Qed.

(** C15: a fake job whose first tick finds its workers in the framework ends when every index has
    its work done: at every point of a run at most one worker works on an index or has
    finished it, a worker that comes online takes its place, and when the job reports
    itself finished there is for every index exactly one worker that finished it. *)
Theorem fake_job_finishes_complete conf off s :
  fake_job_run conf off s →
  (∀ w w' i, active off (fake s) w i → active off (fake s) w' i → w = w') ∧
  (∀ h i, handle_ID h ∉ off → fm_pendingWorkerSet (fake s) !! handle_ID h = Some i → (FakeMaster_OnWorkerOnline h s).1 = Done tt) ∧
  (fm_statusCode (fake s) = WorkerStatusFinished → ∀ i, in_range (fake s) i → exists! w, fm_finishedSet (fake s) !! w = Some i).
Proof.
  intros Hrun%fake_job_run_inv. pose proof Hrun as [Hi Hc]. split; [apply (fj_uniq _ _ _ Hi)|]. split.
  - intros h i Ho Hp. by destruct (OnWorkerOnline_inv off h s i Hrun Ho Hp) as (s' & -> & _).
  - intros Hf i Hr. destruct (Hc Hf i Hr) as [w Hw]. exists w. split; [done|]. intros w' Hw'. apply (fj_uniq _ _ _ Hi w w' i); by right.
Qed.

(** *** A first tick that does not find the workers *)

Lemma load_statuses_same s :
  let s' := (load_statuses s).2 in
  fm_pendingWorkerSet (fake s') = fm_pendingWorkerSet (fake s) ∧ fm_workerList (fake s') = fm_workerList (fake s) ∧ ms_base s' = ms_base s.
Proof.
  unfold load_statuses, mbind, GoM_bind, fgets.
  apply (triple_forM (λ s1, fm_pendingWorkerSet (fake s1) = fm_pendingWorkerSet (fake s) ∧ fm_workerList (fake s1) = fm_workerList (fake s) ∧ ms_base s1 = ms_base s)
    (λ _ s1, fm_pendingWorkerSet (fake s1) = fm_pendingWorkerSet (fake s) ∧ fm_workerList (fake s1) = fm_workerList (fake s) ∧ ms_base s1 = ms_base s)); [|done|done].
  intros i _ s1 Hs1. unfold load_status, mbind, GoM_bind. pose proof (worker_at_st i s1) as Hw. destruct (worker_at i s1) as [[[h|]|e|] s2]; simpl in Hw; subst s2; try done.
  pose proof (status_of_st h s1) as Hs. destruct (status_of h s1) as [[st|e|] s2]; simpl in Hs; subst s2; try done.
  case_bool_decide; [done|]. unfold parseExtBytes. by destruct (dws_Unmarshal _).
Qed.

(** Every place is empty: a worker is created for each. *)
Lemma restore_workers_spec ckpt l : ∀ s s',
  (∀ i, i ∈ l → (0 ≤ i)%Z ∧ fm_workerList (fake s) !! Z.to_nat i = Some None) → forM_ (restore_worker env tomlEncode jsonMarshal ckpt) l s = (Done tt, s') →
  fm_workerList (fake s') = fm_workerList (fake s) ∧ fm_config (fake s') = fm_config (fake s) ∧ fm_asked (fake s) ≤ fm_asked (fake s') ∧
  (∀ w i, (∀ n, fm_asked (fake s) ≤ n → w ≠ fe_uuid env n) → fm_pendingWorkerSet (fake s) !! w = Some i → fm_pendingWorkerSet (fake s') !! w = Some i) ∧
  bm_creating (ms_base s) `prefix_of` bm_creating (ms_base s') ∧
  ∀ i, i ∈ l → ∃ n bytes, fm_asked (fake s) ≤ n ∧ fm_pendingWorkerSet (fake s') !! fe_uuid env n = Some i ∧
    jsonMarshal (UserConfig (genWorkerConfig (fake s) i (resume_from ckpt i))) = Done bytes ∧ mkCreateTask (fe_uuid env n) FakeTask bytes 1 [] ∈ bm_creating (ms_base s').
Proof.
  induction l as [|i l IH]; intros s s' Hl Hrun.
  { injection Hrun as <-. split_and!; try done. intros i Hi. by apply not_elem_of_nil in Hi. }
  simpl in Hrun. apply bind_inv_Done in Hrun as ([] & s1 & H1 & Hrun). destruct (Hl i) as [Hp Hi]; [left|]. unfold restore_worker in H1. erewrite bind_Done in H1.
  2: { unfold worker_at. erewrite bind_Done by reflexivity. rewrite bool_decide_eq_false_2 by lia. unfold or_panic. by rewrite Hi. }
  cbv beta iota in H1. erewrite bind_Done in H1 by reflexivity. set (cfg := genWorkerConfig _ _ _) in H1. pose proof (createWorker_spec cfg s) as Hc. rewrite H1 in Hc.
  destruct Hc as (Hf & _ & bytes & Hb & Hcr). destruct (IH s1 s') as (E1 & E2 & E3 & E4 & E5 & E6); [intros j Hj; rewrite Hf; apply Hl; by right|done|].
  rewrite Hf in E1, E2, E3, E4, E6. simpl in E1, E2, E3, E4, E6. split_and!; [done|done|lia| |by etrans; [|exact E5]; rewrite Hcr; apply prefix_app_r|].
  - intros w j Hw Hj. apply E4; [intros n Hn; apply Hw; lia|]. rewrite lookup_insert_ne; [done|]. intros <-. by eapply Hw.
  - intros j [->|Hj]%elem_of_cons.
    + exists (fm_asked (fake s)), bytes. split; [lia|]. split.
      * apply E4; [intros n Hn Heq; pose proof (fe_uuid_inj (env := env) (jsonMarshal := jsonMarshal) _ _ Heq); lia|]. apply lookup_insert_eq.
      * split; [done|]. eapply elem_of_prefix; [|exact E5]. rewrite Hcr. apply elem_of_app. right. by apply list_elem_of_singleton.
    + destruct (E6 j Hj) as (n & b' & Hn & ?). exists n, b'. split; [lia|done].
Qed.

(** A tick of a job master that is ready for the first time, without workers in the
    framework. *)
Lemma first_tick_creates conf m s s' :
  starting conf s → bm_workerManager (ms_base s) = Some m → IsInitialized m = true → GetWorkers m = ∅ → tickedCheckWorkers env tomlEncode jsonMarshal s = (Done tt, s') →
  ∃ ckpt s2, load_checkpoint (set_fake (fm_set_asked (S (fm_asked (fake s))) (set_initialized (fake s))) s) = (Done ckpt, s2) ∧
    (∀ w i, fm_pendingWorkerSet (fake s) !! w = Some i → fm_pendingWorkerSet (fake s') !! w = Some i) ∧ fm_workerList (fake s') = fm_workerList (fake s) ∧
    ∀ i, in_range (fake s) i → ∃ w bytes, fm_pendingWorkerSet (fake s) !! w = None ∧ fm_pendingWorkerSet (fake s') !! w = Some i ∧
      jsonMarshal (UserConfig (genWorkerConfig (fake s) i (resume_from ckpt i))) = Done bytes ∧ mkCreateTask w FakeTask bytes 1 [] ∈ bm_creating (ms_base s').
Proof.
  intros (Hi & Hl & Hf & Hc & Hcf & Hin) Hm Hr Hg Hrun. unfold tickedCheckWorkers in Hrun. erewrite bind_Done in Hrun by reflexivity. rewrite Hin in Hrun.
  erewrite bind_Done in Hrun by reflexivity. unfold IsMasterReady in Hrun. rewrite Hm, Hr in Hrun. erewrite bind_Done in Hrun by reflexivity. simpl in Hrun.
  apply bind_inv_Done in Hrun as ([] & s3 & Hfail & Hload). unfold failover in Hfail. erewrite bind_Done in Hfail by reflexivity. erewrite bind_Done in Hfail by reflexivity.
  unfold Master_GetWorkers in Hfail. cbn [set_fake ms_base] in Hfail. rewrite Hm, Hg in Hfail. erewrite bind_Done in Hfail by reflexivity. erewrite bind_Done in Hfail by reflexivity.
  pose proof (fe_workers_keys (env := env) (jsonMarshal := jsonMarshal) (fm_asked (fake s)) ∅) as Hord. unfold iter_order in Hord. rewrite map_to_list_empty in Hord. simpl in Hord.
  apply Permutation_nil_r in Hord. simpl in Hfail. rewrite Hord in Hfail. simpl in Hfail. erewrite bind_Done in Hfail by reflexivity.
  apply bind_inv_Done in Hfail as (ckpt & s2 & Hck & Hfail). exists ckpt, s2. split; [done|]. erewrite bind_Done in Hfail by reflexivity. unfold id in Hfail.
  assert (∃ k, fake s2 = fm_set_kv k (fm_set_asked (S (fm_asked (fake s))) (set_initialized (fake s))) ∧ ms_base s2 = ms_base s) as (k & Hs2 & Hb2).
  { unfold load_checkpoint, on_fkv in Hck. destruct (kvc_Get _ _ _) as [[[|kv0 kvs]|e|] k]; [|destruct (ckpt_Unmarshal _)|..]; try done; injection Hck as _ <-; by exists k. }
  destruct (λ Hl, restore_workers_spec ckpt (indices (fake s2)) s2 s3 Hl Hfail) as (E1 & E2 & E3 & E4 & E5 & E6).
  { intros i Hii. unfold indices in Hii. apply elem_of_seqZ in Hii. split; [lia|]. rewrite Hs2 in *. simpl in *. destruct (lookup_lt_is_Some_2 (fm_workerList (fake s)) (Z.to_nat i)) as [[h|] Ho]; [lia|by apply Hl in Ho|done]. }
  pose proof (load_statuses_same s3) as Hsame. rewrite Hload in Hsame. simpl in Hsame. destruct Hsame as (F1 & F2 & F3). rewrite Hs2 in *. simpl in *.
  assert (∀ w i n, fm_pendingWorkerSet (fake s) !! w = Some i → fm_asked (fake s) ≤ n → w ≠ fe_uuid env n) as Hold.
  { intros w i n Hw Hn ->. destruct (fj_pending _ _ _ Hi _ _ Hw) as [Hb _]. destruct (fj_ids _ _ _ Hi _ _ Hb) as (n' & Hn' & He). pose proof (fe_uuid_inj (env := env) (jsonMarshal := jsonMarshal) _ _ He). lia. }
  rewrite F1, F2, F3. split_and!; [|congruence|].
  - intros w i Hw. apply E4; [|done]. intros n Hn. apply (Hold w i n Hw). lia.
  - intros i [Hi1 Hi2]. destruct (E6 i) as (n & bytes & Hn & Hp & Hby & Hcr); [unfold indices; simpl; rewrite elem_of_seqZ, (fj_length _ _ _ Hi); lia|].
    exists (fe_uuid env n), bytes. split; [|done]. apply eq_None_ne_Some. intros j Hj. apply (Hold _ j n Hj); [lia|done].
Qed.

Lemma online_list h s s' : FakeMaster_OnWorkerOnline h s = (Done tt, s') → ∃ i, fm_pendingWorkerSet (fake s) !! handle_ID h = Some i ∧
  fake s' = set_list (<[Z.to_nat i := Some h]>) (set_pending (delete (handle_ID h)) (fake s)) ∧ (0 ≤ i)%Z ∧ Z.to_nat i < length (fm_workerList (fake s)).
Proof.
  unfold FakeMaster_OnWorkerOnline. intros Hrun. erewrite bind_Done in Hrun by reflexivity. destruct (fm_pendingWorkerSet (fake s) !! handle_ID h) as [i|] eqn:Hp; [|done].
  exists i. split; [done|]. erewrite bind_Done in Hrun by reflexivity. erewrite bind_Done in Hrun by reflexivity. unfold set_worker_at in Hrun. apply bind_inv_Done in Hrun as (o & s1 & Ho & Hrun).
  unfold worker_at in Ho. erewrite bind_Done in Ho by reflexivity. case_bool_decide; [done|]. unfold or_panic in Ho. cbn [set_fake set_pending fake ms_impl snd fm_workerList] in Ho. destruct (fm_workerList (fake s) !! Z.to_nat i) as [o'|] eqn:Hl; [|done]. unfold mret, GoM_ret in Ho. injection Ho as _ <-.
  injection Hrun as <-. split; [done|]. split; [lia|]. by apply lookup_lt_Some in Hl.
Qed.

Lemma list_absent w (l : list (option WorkerHandle)) : (∀ j h, l !! j = Some (Some h) → handle_ID h ≠ w) → place_of w l = None.
Proof. intros Hl. apply eq_None_ne_Some. intros n (h & Hh & Hw)%place_of_Some. by eapply Hl. Qed.

(** A worker that has its place finishes. *)
Lemma offline_finished w h n s :
  place_of w (fm_workerList (fake s)) = Some n → handle_ID h = w →
  ∃ s', FakeMaster_OnWorkerOffline env tomlEncode jsonMarshal h (Some (GoErr ErrWorkerFinish "")) s = (Done tt, s') ∧
    fm_finishedSet (fake s') = <[w := Z.of_nat n]> (fm_finishedSet (fake s)) ∧ fm_workerList (fake s') = <[n := None]> (fm_workerList (fake s)) ∧ fm_pendingWorkerSet (fake s') = fm_pendingWorkerSet (fake s).
Proof.
  intros Hp <-. eexists. unfold FakeMaster_OnWorkerOffline. erewrite bind_Done by reflexivity. rewrite Hp. erewrite bind_Done by reflexivity. erewrite bind_Done by reflexivity.
  assert (err_Equal ErrWorkerFinish (Some (GoErr ErrWorkerFinish "")) = true) as -> by (vm_compute; reflexivity). done.
Qed.

(** C40: a fake job whose first tick comes before its workers are known to the framework, which
    creates them in the background, creates a second worker for every index. When both
    came online, the end of the first one is an error of the job master, whatever the
    reason; and when the first one comes online and finishes before the second one, the
    index counts twice towards the end of the job. *)
Theorem first_tick_duplicates conf workerID k m0 s0 s1 b db wk m s i :
  NewFakeMaster workerID conf k = Some m0 → fake s0 = m0 → FakeMaster_InitImpl env tomlEncode jsonMarshal s0 = (Done tt, s1) →
  bm_workerManager b = Some m → IsInitialized m = true → GetWorkers m = ∅ →
  tickedCheckWorkers env tomlEncode jsonMarshal (mkMasterSt b db (wk, fake s1)) = (Done tt, s) → (0 ≤ i < fc_WorkerCount conf)%Z →
  ∃ w w', w ≠ w' ∧ fm_pendingWorkerSet (fake s) !! w = Some i ∧ fm_pendingWorkerSet (fake s) !! w' = Some i ∧
    (∀ h h' s2 s3 reason, handle_ID h = w → handle_ID h' = w' → FakeMaster_OnWorkerOnline h s = (Done tt, s2) → FakeMaster_OnWorkerOnline h' s2 = (Done tt, s3) →
       ∃ e, (FakeMaster_OnWorkerOffline env tomlEncode jsonMarshal h reason s3).1 = Fail e) ∧
    (∀ h h' s2 s3 s4, let finish := Some (GoErr ErrWorkerFinish "") in handle_ID h = w → handle_ID h' = w' →
       FakeMaster_OnWorkerOnline h s = (Done tt, s2) → FakeMaster_OnWorkerOffline env tomlEncode jsonMarshal h finish s2 = (Done tt, s3) → FakeMaster_OnWorkerOnline h' s3 = (Done tt, s4) →
       ∃ s5, FakeMaster_OnWorkerOffline env tomlEncode jsonMarshal h' finish s4 = (Done tt, s5) ∧ fm_finishedSet (fake s5) !! w = Some i ∧ fm_finishedSet (fake s5) !! w' = Some i).
Proof.
  intros Hm0 Hs0 Hinit Hm Hr Hg Htick Hi. pose proof (InitImpl_spec conf workerID k m0 s0 Hm0 Hs0) as Hst. rewrite Hinit in Hst. destruct Hst as [Hst Hall].
  pose proof Hst as (_ & Hl & _ & _ & Hcf & _). assert (in_range (fake s1) i) as Hri by (unfold in_range; by rewrite Hcf). destruct (Hall i Hri) as [w Hw].
  destruct (first_tick_creates conf m (mkMasterSt b db (wk, fake s1)) s Hst Hm Hr Hg Htick) as (ckpt & s' & _ & Hkeep & Hlist & Hnew).
  destruct (Hnew i Hri) as (w' & bytes & Hw' & Hp' & _). change (fake (mkMasterSt b db (wk, fake s1))) with (fake s1) in *. exists w, w'.
  assert (w ≠ w') as Hne by congruence. pose proof (Hkeep w i Hw) as Hp. split; [done|]. split; [done|]. split; [done|]. rewrite <- Hlist in Hl. clear -Hl Hne Hp Hp'. split.
  - intros h h' s2 s3 reason Hh Hh' H2 H3. apply online_list in H2 as (i2 & Hi2 & F2 & Hz & Hlt). apply online_list in H3 as (i3 & Hi3 & F3 & _). rewrite F2 in Hi3. simpl in Hi3.
    rewrite Hh in Hi2, Hi3. rewrite Hh', lookup_delete_ne in Hi3 by done. assert (i2 = i) as -> by congruence. assert (i3 = i) as -> by congruence.
    unfold FakeMaster_OnWorkerOffline. erewrite bind_Done by reflexivity. rewrite list_absent; [by eexists|]. intros j h1. rewrite F3, F2. simpl. rewrite list_insert_insert_eq.
    intros [(_ & [= <-] & _)|[_ Hj]]%list_lookup_insert_Some; [congruence|by apply Hl in Hj].
  - intros h h' s2 s3 s4 finish Hh Hh' H2 H3 H4. apply online_list in H2 as (i2 & Hi2 & F2 & Hz & Hlt). rewrite Hh in Hi2. assert (i2 = i) as -> by congruence.
    assert (∀ w1 h1 (l : list (option WorkerHandle)), (∀ j h, l !! j ≠ Some (Some h)) → Z.to_nat i < length l → handle_ID h1 = w1 → place_of w1 (<[Z.to_nat i := Some h1]> l) = Some (Z.to_nat i)) as Hplace.
    { intros w1 h1 l Hnone Hlen Hid. destruct (place_of w1 (<[Z.to_nat i := Some h1]> l)) as [n|] eqn:Hpl.
      - apply place_of_Some in Hpl as (h2 & [(-> & _)|[_ Hj]]%list_lookup_insert_Some & _); [done|by apply Hnone in Hj].
      - by destruct (place_of_None _ _ (Z.to_nat i) h1 Hpl); [apply list_lookup_insert_eq|]. }
    destruct (offline_finished w h (Z.to_nat i) s2) as (s3' & H3' & F3 & L3 & P3); [rewrite F2; by apply Hplace|done|]. unfold finish in H3. assert (s3' = s3) as -> by congruence.
    rewrite F2 in F3, L3, P3. simpl in F3, L3, P3. rewrite list_insert_insert_eq in L3. apply online_list in H4 as (i4 & Hi4 & F4 & _ & Hlt4). rewrite P3, Hh', Hh, lookup_delete_ne in Hi4 by done.
    assert (i4 = i) as -> by congruence. destruct (offline_finished w' h' (Z.to_nat i) s4) as (s5 & H5 & F5 & _); [rewrite F4; apply Hplace; [|done|done]|done|].
    + intros j h1. simpl. rewrite L3. intros [(_ & [=] & _)|[_ Hj]]%list_lookup_insert_Some. by apply Hl in Hj.
    + exists s5. split; [done|]. rewrite F5, F4. simpl. rewrite F3, Z2Nat.id by done. split; [rewrite lookup_insert_ne by done|]; apply lookup_insert_eq.
Qed.

(** *** Progress *)

(** The replacement of a fake worker that is gone resumes where its predecessor was: the
    configuration that is sent to the new worker has the index of the old one, the ticks
    of the last status that the old one reported, and a checkpoint that counts the
    changes of the key from the same change on up to the one of its revision. *)
Theorem fake_replacement_resumes {DBw Srvw} `{!FakeStatusJSONLaws} cfg start n wd (sw sw' : WorkerSt DBw Srvw dummyWorker) code ext s m h reason st s' :
  fake_run cfg start n wd sw → fw_init (wk_impl sw) = true → FakeWorker_Status sw = (Done (code, ext), sw') →
  bm_workerManager (ms_base s) = Some m → handle_Status m h = Done (Some st) → ws_ExtBytes st = ext → err_Equal ErrWorkerFinish reason = false →
  FakeMaster_OnWorkerOffline env tomlEncode jsonMarshal h reason s = (Done tt, s') →
  ∃ index cfg' bytes start', place_of (handle_ID h) (fm_workerList (fake s)) = Some index ∧ fwc_ID cfg' = Z.of_nat index ∧ jsonMarshal (UserConfig cfg') = Done bytes ∧
    last (bm_creating (ms_base s')) = Some (mkCreateTask (fe_uuid env (fm_asked (fake s))) FakeTask bytes 1 []) ∧
    wc_Tick (fwc_Checkpoint cfg') = int64 (wc_Tick (fwc_Checkpoint cfg) + Z.of_nat n) ∧
    starts_from start' (wd_hist wd) (fwc_Checkpoint cfg') ∧ (start' = start ∨ start = None).
Proof.
  intros Hrun Hini Hstat Hm Hst Hext Hre Hoff. pose proof (fake_run_inv _ _ _ _ _ Hrun) as Hi. destruct (fi_ckpt _ _ _ _ _ Hi) as (ck & Hck & Hso & _).
  assert (dws_Marshal (fw_status (wk_impl sw)) = Done ext) as Hmar.
  { unfold FakeWorker_Status, mbind, GoM_bind, get in Hstat. rewrite Hini in Hstat. destruct (dws_Marshal _); [|done..]. by injection Hstat as _ ->. }
  unfold FakeMaster_OnWorkerOffline in Hoff. erewrite bind_Done in Hoff by reflexivity. destruct (place_of _ _) as [index|]; [|done].
  erewrite bind_Done in Hoff by reflexivity. erewrite bind_Done in Hoff by reflexivity. rewrite Hre in Hoff. apply bind_inv_Done in Hoff as (st' & s1 & Hs1 & Hoff).
  unfold status_of in Hs1. cbn [set_fake ms_base] in Hs1. rewrite Hm, Hst in Hs1. injection Hs1 as <- <-. erewrite bind_Done in Hoff by reflexivity.
  set (cfg' := genWorkerConfig _ _ _) in Hoff. match type of Hoff with createWorker _ _ _ _ ?x = _ => pose proof (createWorker_spec cfg' x) as Hc end. rewrite Hoff in Hc.
  destruct Hc as (_ & _ & bytes & Hb & Hcr). destruct (dws_roundtrip _ _ Hmar) as [v Hv]. rewrite Hck in Hv. simpl in Hv.
  assert (fwc_Checkpoint cfg' = mkWorkerCheckpoint (dws_Tick (fw_status (wk_impl sw))) (wc_Revision ck) (wc_MvccCount ck) "") as Hck'.
  { simpl. unfold last_progress. by rewrite Hext, Hv. }
  assert (∃ start', starts_from start' (wd_hist wd) ck ∧ (start' = start ∨ start = None)) as (start' & Hs' & Hor).
  { destruct (counted_event _ _ _ _ Hso) as [Hn|(first & k & e & Q1 & Q2 & Q3 & Q4 & Q5)].
    - exists start. split; [|by left]. destruct Hso as [[? _]|(f & k & e & ? & Hk & Hr & _)]; [done|]. exfalso. destruct Hn as [Hn _]. destruct (fi_hist _ _ _ _ _ Hi) as [_ Hp]. specialize (Hp _ _ Hk). lia.
    - exists (Some first). split; [by exists k, e|]. destruct start as [f|]; [left; by rewrite Q5|by right]. }
  exists index, cfg', bytes, start'. split; [done|]. split; [done|]. split; [done|]. split; [by rewrite Hcr, last_snoc|]. rewrite Hck'. split; [apply (fi_tick _ _ _ _ _ Hi)|]. split; [|done].
  destruct start'; exact Hs'.
Qed.

(** The entries of a checkpoint. *)
Lemma gen_other (m : Master K) i order : ∀ cp,
  (∀ w st, w ∈ order → fm_bStatus m !! w = Some st → fm_workerID2BusinessID m !! w ≠ Some i) →
  cp_Ticks (foldl (gen_one m) cp order) !! i = cp_Ticks cp !! i ∧ cp_Checkpoints (foldl (gen_one m) cp order) !! i = cp_Checkpoints cp !! i.
Proof.
  induction order as [|w order IH]; intros cp Hno; [done|]. simpl. destruct (IH (gen_one m cp w)) as [-> ->]; [intros w' st Hw'; apply Hno; by right|].
  unfold gen_one. destruct (fm_bStatus m !! w) as [st|] eqn:Hs; [|done]. destruct (fm_workerID2BusinessID m !! w) as [j|] eqn:Hb; [|done]. simpl.
  rewrite !lookup_insert_ne; [done|..]; intros ->; apply (Hno w st); try done; left.
Qed.

Lemma gen_entry (m : Master K) i order w st :
  iter_order (fm_bStatus m) order → (∀ w', is_Some (fm_bStatus m !! w') → fm_workerID2BusinessID m !! w' = Some i → w' = w) →
  fm_bStatus m !! w = Some st → fm_workerID2BusinessID m !! w = Some i →
  cp_Ticks (genCheckpoint order m) !! i = Some (dws_Tick st) ∧ cp_Checkpoints (genCheckpoint order m) !! i = Some (default zeroWorkerCheckpoint (dws_Checkpoint st)).
Proof.
  intros Hord Huniq Hs Hb. assert (w ∈ order) as Hin by (apply (iter_order_elem _ _ _ Hord); by eexists). pose proof (iter_order_NoDup _ _ Hord) as Hnd.
  apply list_elem_of_split in Hin as (l1 & l2 & ->). apply NoDup_app in Hnd as (_ & _ & [Hw _]%NoDup_cons). unfold genCheckpoint. rewrite foldl_app. simpl.
  destruct (gen_other m i l2 (gen_one m (foldl (gen_one m) (mkCheckpoint ∅ ∅) l1) w)) as [-> ->].
  - intros w' st' Hw' Hs' Hb'. apply Hw. rewrite <- (Huniq w'); [done|by eexists|done].
  - unfold gen_one. rewrite Hs, Hb. simpl. by rewrite !lookup_insert_eq.
Qed.

(** A fake job master that takes over from the checkpoint of another one, with no worker left,
    creates for every index a worker that starts where the one of the other master was
    when the checkpoint was saved: the same ticks, revision and count of changes. An
    index that had no worker with a status that the other master had created itself, as
    one that is finished or one whose worker had survived an earlier failover, starts
    again from nothing. *)
Theorem fake_failover_resumes `{!FakeJobJSONLaws} conf workerID k k' (m1 : Master K) m0 order b db wk m s' :
  iter_order (fm_bStatus m1) order →
  (∀ w w' i, is_Some (fm_bStatus m1 !! w) → is_Some (fm_bStatus m1 !! w') → fm_workerID2BusinessID m1 !! w = Some i → fm_workerID2BusinessID m1 !! w' = Some i → w = w') →
  NewFakeMaster workerID conf k = Some m0 →
  kvc_Get (CheckpointKey workerID) [] k = (Done [mkKeyValue (CheckpointKey workerID) (Checkpoint_String (genCheckpoint order m1))], k') →
  bm_workerManager b = Some m → IsInitialized m = true → GetWorkers m = ∅ →
  tickedCheckWorkers env tomlEncode jsonMarshal (mkMasterSt b db (wk, m0)) = (Done tt, s') →
  ∀ i, (0 ≤ i < fc_WorkerCount conf)%Z →
    ∃ w bytes ck, mkCreateTask w FakeTask bytes 1 [] ∈ bm_creating (ms_base s') ∧ jsonMarshal (UserConfig (genWorkerConfig m0 i ck)) = Done bytes ∧
      (∀ w1 st, fm_bStatus m1 !! w1 = Some st → fm_workerID2BusinessID m1 !! w1 = Some i →
         let c := default zeroWorkerCheckpoint (dws_Checkpoint st) in ck = mkWorkerCheckpoint (dws_Tick st) (wc_Revision c) (wc_MvccCount c) "") ∧
      ((∀ w1, is_Some (fm_bStatus m1 !! w1) → fm_workerID2BusinessID m1 !! w1 ≠ Some i) → ck = zeroWorkerCheckpoint).
Proof.
  intros Hord Huniq Hm0 Hget Hm Hr Hg Htick i Hi. set (s := mkMasterSt b db (wk, m0)). assert (starting conf s) as Hst.
  { by apply (starting_new conf workerID k m0). }
  pose proof Hst as (_ & _ & _ & _ & Hcf & _).
  destruct (first_tick_creates conf m s s' Hst Hm Hr Hg Htick) as (ckpt & s2 & Hck & _ & _ & Hnew). destruct (Hnew i) as (w & bytes & _ & _ & Hby & Hcr); [unfold in_range; by rewrite Hcf|].
  exists w, bytes, (resume_from ckpt i). split; [done|]. split; [exact Hby|].
  destruct (ckpt_total (genCheckpoint order m1)) as [bs Hbs]. destruct (ckpt_roundtrip _ _ Hbs) as (cp' & Hcp & Ht & Hcs).
  assert (ckpt = cp') as ->.
  { unfold NewFakeMaster in Hm0. case_bool_decide; [done|]. injection Hm0 as <-. unfold load_checkpoint, on_fkv in Hck. simpl in Hck. rewrite Hget in Hck. unfold Checkpoint_String in Hck. rewrite Hbs in Hck.
    cbn [kv_Value] in Hck. rewrite Hcp in Hck. by injection Hck. }
  apply (f_equal (lookup i)) in Hcs. rewrite !lookup_fmap in Hcs. unfold resume_from. rewrite Ht. split.
  - intros w1 st Hs1 Hb1. destruct (gen_entry m1 i order w1 st Hord) as [Et Ec]; [intros w' Hw' Hb'; eapply Huniq; [done|by eexists|done..]|done..|]. rewrite Et. rewrite Ec in Hcs.
    destruct (cp_Checkpoints cp' !! i) as [c'|]; [|done]. injection Hcs as _ Hrev Hcount. simpl. by rewrite Hrev, Hcount.
  - intros Hno. destruct (gen_other m1 i order (mkCheckpoint ∅ ∅)) as [Et Ec]; [intros w1 st _ Hs1; apply Hno; by eexists|]. change (foldl _ _ order) with (genCheckpoint order m1) in Et, Ec.
    rewrite Et. rewrite Ec in Hcs. simpl in *. destruct (cp_Checkpoints cp' !! i); [done|]. done.
Qed.

End steps.

(** ** Concrete runs *)

Module Witness.
Import P2P.Witness FakeWorker.Witness.

(** A store, and codecs. *)
#[local] Instance mem_kv : KV (gmap string string) := {|
  kvc_Put key val db := (Done tt, <[key := val]> db);
  kvc_Get key _ db := (Done (match db !! key with Some v => [mkKeyValue key v] | None => [] end), db);
  kvc_Delete key _ db := (Done tt, delete key db);
  kvc_Txn _ db := (Done [], db);
|}.

Definition flat (c : workerCheckpoint) : Z * Z * Z * string := (wc_Tick c, wc_Revision c, wc_MvccCount c, wc_Value c).
Definition unflat (x : Z * Z * Z * string) : workerCheckpoint := let '(a, b, n, v) := x in mkWorkerCheckpoint a b n v.

#[local] Instance ref_job_json : FakeJobJSON := {|
  ckpt_Marshal cp := Done (tagged (map_to_list (cp_Ticks cp), map_to_list (flat <$> cp_Checkpoints cp)));
  ckpt_Unmarshal s := (λ '(t, c), mkCheckpoint (list_to_map t) (unflat <$> (list_to_map c : gmap Z _))) <$> untag s;
  bstatus_Marshal st := Done "statuses";
|}.

#[local] Instance ref_job_json_laws : FakeJobJSONLaws.
Proof.
  split; [by eexists| |by eexists]. intros [t c] b Hb. cbn [ckpt_Marshal ref_job_json cp_Ticks cp_Checkpoints] in Hb. cbn [ckpt_Unmarshal ref_job_json].
  replace b with (tagged (map_to_list t, map_to_list (flat <$> c))) by congruence. rewrite untag_tagged. eexists. split; [reflexivity|]. simpl.
  rewrite !list_to_map_to_list. split; [done|]. assert (unflat <$> (flat <$> c) = c) as ->; [|done]. rewrite <- map_fmap_compose, (map_fmap_ext _ id), map_fmap_id; [done|]. by intros i [].
Qed.

Definition ids (n : nat) : WorkerID := "new-" +:+ to_digits n.
Definition encode_cfg (c : WorkerConfig FakeWorkerConfig) : res goerr string := Done "config".
Definition fenv : FakeEnv := mkFakeEnv (λ _, false) ids (λ _ m, (map_to_list m).*1) (λ _ m, (map_to_list m).*1) (λ _, io0) (λ _, None) (λ _, 0%Z).

#[local] Instance fenv_laws : FakeEnvLaws fenv encode_cfg.
Proof.
  split; [|intros n m; unfold iter_order; reflexivity|intros n m; unfold iter_order; reflexivity|done]. intros n1 n2 He. change (ids n1 = ids n2) in He. apply (inj (String.append "new-")) in He.
  apply (f_equal (of_digits (A := nat))) in He. rewrite !of_to_digits in He. by injection He.
Qed.

Abbreviation FS := (JobMasterSt RefDB (gset string) (Master (gmap string string))).
Definition conf0 : Config := mkFakeConfig "job" 1 2 true [] "key-" 0.
Definition m0 : Master (gmap string string) := default (mkFakeMaster conf0 ∅ "" [] ∅ ∅ ∅ 0 false ∅ [] 0) (NewFakeMaster "job" conf0 ∅).
Definition new0 : FS := NewBaseJobMaster (newMessageHandlerManager ∅) "manager" "job" "node" "addr" (Metastore.Witness.job "job") ∅ BaseJobMaster.Witness.db0 m0.
Definition inited : FS := (FakeMaster_InitImpl fenv encode_cfg encode_cfg new0).2.

(** The framework with the given workers. *)
Definition entry (ext : string) (w : WorkerID) : workerEntry := newWorkerEntry w "ex" 0 workerEntryNormal (Some (mkWorkerStatus "" "job" w 0 WorkerStatusNormal "" ext)).
Definition manager (es : list workerEntry) : WorkerManager :=
  mkWorkerManager es (list_to_map (zip (we_id <$> es) (seq 0 (length es)))) workerManagerReady "job" 2 [] None true DefaultTimeoutConfig.
Definition with_manager (es : list workerEntry) (s : FS) : FS := mkMasterSt (set_wm (manager es) (ms_base s)) (ms_db s) ((ms_impl s).1, fake s).

Definition tick (s : FS) : FS := (FakeMaster_Tick fenv encode_cfg encode_cfg s).2.
Definition online (h : WorkerHandle) (s : FS) : FS := (FakeMaster_OnWorkerOnline h s).2.
Definition offline (h : WorkerHandle) (reason : option goerr) (s : FS) : FS := (FakeMaster_OnWorkerOffline fenv encode_cfg encode_cfg h reason s).2.
Definition h0 : WorkerHandle := runningHandle (ids 0) "ex".
Definition finish : option goerr := Some (GoErr ErrWorkerFinish "").

(** The worker is known when the first tick comes; it comes online and finishes. *)
Definition found : FS := with_manager [entry "" (ids 0)] inited.
Definition ended : FS := tick (offline h0 finish (online h0 (tick found))).

Lemma ended_run : fake_job_run fenv encode_cfg encode_cfg conf0 (∅ ∪ {[handle_ID h0]}) ended.
Proof.
  assert (fm_pendingWorkerSet (fake (tick found)) !! handle_ID h0 = Some 0%Z) as Hp by (vm_compute; reflexivity).
  assert (fm_initialized (fake (offline h0 finish (online h0 (tick found)))) = true) as Hin by (vm_compute; reflexivity).
  assert (GetWorkers (manager [entry "" (ids 0)]) = {[ids 0 := h0]}) as Hg by (vm_compute; reflexivity).
  assert (fm_pendingWorkerSet (fake found) !! ids 0 = Some 0%Z) as Hpf by (vm_compute; reflexivity).
  assert (fc_WorkerCount (fm_config (fake found)) = 1%Z) as Hc by (vm_compute; reflexivity).
  eapply jr_tick; [|left; exact Hin|apply surjective_pairing]. apply (jr_offline _ _ _ conf0 ∅ (online h0 (tick found)) h0 finish (FakeMaster_OnWorkerOffline fenv encode_cfg encode_cfg h0 finish (online h0 (tick found))).1); [|apply not_elem_of_empty|apply surjective_pairing].
  eapply (jr_online _ _ _ conf0 ∅ (tick found) h0 0%Z); [|apply not_elem_of_empty|exact Hp|apply surjective_pairing]. eapply jr_tick; [| |apply surjective_pairing].
  - apply (jr_base _ _ _ conf0 ∅ inited). eapply (jr_start _ _ _ conf0 "job" ∅ m0 new0); [reflexivity|reflexivity|apply surjective_pairing].
  - right. intros m Hm _. assert (m = manager [entry "" (ids 0)]) as -> by (injection Hm as <-; reflexivity). rewrite Hg. split.
    + intros id h [<- <-]%lookup_singleton_Some _. split; [reflexivity|]. split; [apply not_elem_of_empty|]. exists 0%Z. left. exact Hpf.
    + intros i [Hi1 Hi2]. rewrite Hc in Hi2. assert (i = 0%Z) as -> by lia. right. exists (ids 0), h0. split; [exact Hpf|]. split; [apply lookup_singleton_eq|reflexivity].
Qed.

Lemma fake_job_finishes_complete_witness : fm_statusCode (fake ended) = WorkerStatusFinished ∧ exists! w, fm_finishedSet (fake ended) !! w = Some 0%Z.
Proof.
  assert (fm_statusCode (fake ended) = WorkerStatusFinished) as Hc by (vm_compute; reflexivity). assert (fm_config (fake ended) = conf0) as Hcf by (vm_compute; reflexivity).
  split; [exact Hc|]. apply (fake_job_finishes_complete fenv encode_cfg encode_cfg conf0 (∅ ∪ {[handle_ID h0]}) ended ended_run); [exact Hc|]. unfold in_range. rewrite Hcf. simpl. lia.
Defined.

(** The first tick comes when the framework does not know the worker yet. *)
Definition early : FS := with_manager [] inited.
Definition doubled : FS := (tickedCheckWorkers fenv encode_cfg encode_cfg early).2.

Lemma first_tick_duplicates_witness :
  ∃ w w', w ≠ w' ∧ fm_pendingWorkerSet (fake doubled) !! w = Some 0%Z ∧ fm_pendingWorkerSet (fake doubled) !! w' = Some 0%Z.
Proof.
  assert (FakeMaster_InitImpl fenv encode_cfg encode_cfg new0 = (Done tt, inited)) as H1 by (vm_compute; reflexivity).
  assert (tickedCheckWorkers fenv encode_cfg encode_cfg early = (Done tt, doubled)) as H2 by (vm_compute; reflexivity).
  destruct (first_tick_duplicates fenv encode_cfg encode_cfg conf0 "job" ∅ m0 new0 inited (ms_base early) (ms_db early) (ms_impl early).1 (manager []) doubled 0) as (w & w' & Hne & Hw & Hw' & _).
  - reflexivity.
  - reflexivity.
  - exact H1.
  - reflexivity.
  - vm_compute. reflexivity.
  - vm_compute. reflexivity.
  - exact H2.
  - simpl. lia.
  - exact (ex_intro _ w (ex_intro _ w' (conj Hne (conj Hw Hw')))).
Defined.

(** The worker of [FakeWorker.Witness] has reported its status. *)
Definition reported : string := match dws_Marshal (fw_status (wk_impl resumed)) with Done b => b | _ => "" end.
Definition running : FS := with_manager [entry reported (ids 0)] (online h0 (tick found)).
Definition lost_ : option goerr := Some (GoErr ErrWorkerOffline "").

Lemma fake_replacement_resumes_witness :
  ∃ cfg' bytes start', encode_cfg (UserConfig cfg') = Done bytes ∧ fwc_ID cfg' = 0%Z ∧ wc_Tick (fwc_Checkpoint cfg') = 1%Z ∧ starts_from start' [ev1; ev2; ev3] (fwc_Checkpoint cfg').
Proof.
  assert (FakeMaster_OnWorkerOffline fenv encode_cfg encode_cfg h0 lost_ running = (Done tt, offline h0 lost_ running)) as H1 by (vm_compute; reflexivity).
  assert (handle_Status (manager [entry reported (ids 0)]) h0 = Done (Some (mkWorkerStatus "" "job" (ids 0) 0 WorkerStatusNormal "" reported))) as H2 by (vm_compute; reflexivity).
  assert (FakeWorker_Status resumed = (Done (WorkerStatusNormal, reported), resumed)) as H3 by (vm_compute; reflexivity).
  assert (place_of (handle_ID h0) (fm_workerList (fake running)) = Some 0) as H4 by (vm_compute; reflexivity).
  assert (int64 (wc_Tick (fwc_Checkpoint cfg0) + Z.of_nat 0) = 1%Z) as H5 by (vm_compute; reflexivity).
  destruct (fake_replacement_resumes fenv encode_cfg encode_cfg cfg0 (Some 0) 0 (mkWatched [ev1; ev2; ev3] 3) resumed resumed WorkerStatusNormal reported running (manager [entry reported (ids 0)]) h0 lost_
    (mkWorkerStatus "" "job" (ids 0) 0 WorkerStatusNormal "" reported) (offline h0 lost_ running)) as (index & cfg' & bytes & start' & Hp & Hid & Hb & _ & Ht & Hs & _).
  - exact resumed_run.
  - vm_compute. reflexivity.
  - exact H3.
  - reflexivity.
  - exact H2.
  - reflexivity.
  - vm_compute. reflexivity.
  - exact H1.
  - exists cfg', bytes, start'. split; [exact Hb|]. rewrite H4 in Hp. injection Hp as <-. split; [exact Hid|]. split; [rewrite Ht; exact H5|exact Hs].
Defined.

(** The job master follows the worker and saves a checkpoint; its successor has no worker. *)
Definition saved : Master (gmap string string) := fake (tick running).
Definition order0 : list WorkerID := (map_to_list (fm_bStatus saved)).*1.
Definition kvs1 : gmap string string := {[CheckpointKey "job" := Checkpoint_String (genCheckpoint order0 saved)]}.
Definition m1 : Master (gmap string string) := default m0 (NewFakeMaster "job" conf0 kvs1).
Definition successor : FS := mkMasterSt (set_wm (manager []) (ms_base new0)) (ms_db new0) ((ms_impl new0).1, m1).

Lemma fake_failover_resumes_witness :
  ∃ w bytes ck, mkCreateTask w FakeTask bytes 1 [] ∈ bm_creating (ms_base (tickedCheckWorkers fenv encode_cfg encode_cfg successor).2) ∧
    encode_cfg (UserConfig (genWorkerConfig m1 0 ck)) = Done bytes ∧ ck = mkWorkerCheckpoint 1 7 3 "".
Proof.
  assert (tickedCheckWorkers fenv encode_cfg encode_cfg successor = (Done tt, (tickedCheckWorkers fenv encode_cfg encode_cfg successor).2)) as H1 by (vm_compute; reflexivity).
  assert (fm_bStatus saved = {[ids 0 := mkDummyStatus 0 1 (Some (mkWorkerCheckpoint 0 7 3 ""))]}) as H2 by (vm_compute; reflexivity).
  assert (fm_workerID2BusinessID saved !! ids 0 = Some 0%Z) as H3 by (vm_compute; reflexivity).
  destruct (fake_failover_resumes fenv encode_cfg encode_cfg conf0 "job" kvs1 kvs1 saved m1 order0 (ms_base successor) (ms_db successor) (ms_impl successor).1 (manager [])
    (tickedCheckWorkers fenv encode_cfg encode_cfg successor).2) with (i := 0%Z) as (w & bytes & ck & Hc & Hb & Hck & _).
  - apply iter_order_keys.
  - intros w w' i [st Hw] [st' Hw'] _ _. rewrite H2 in Hw, Hw'. apply lookup_singleton_Some in Hw as [<- _]. by apply lookup_singleton_Some in Hw' as [<- _].
  - vm_compute. reflexivity.
  - vm_compute. reflexivity.
  - reflexivity.
  - vm_compute. reflexivity.
  - vm_compute. reflexivity.
  - exact H1.
  - simpl. lia.
  - exists w, bytes, ck. split; [exact Hc|]. split; [exact Hb|]. apply (Hck (ids 0) (mkDummyStatus 0 1 (Some (mkWorkerCheckpoint 0 7 3 "")))); [rewrite H2; apply lookup_singleton_eq|exact H3].
Defined.

End Witness.
