(* ===== verification/DemoServer.v ===== *)
(** * The server of the CVS example ([cmd/demoserver])

    The server makes the files that a CVS job copies, streams their lines, takes the lines
    of the copies, and compares the two. [DataRWServer] keeps a file in a database of
    Pebble; [dataRWServiceMock] keeps the first and last number of its lines. A handler
    ends, panics, or waits for the mutex of the server for ever. *)

From stdpp Require Import pretty sorting.
From S2P Require Import Prelude Errors Model CvsTask.

(** ** Messages *)

Record ReadLinesResponse := mkReadLinesResponse { rl_ErrMsg : string; rl_Key : string; rl_Val : string; rl_IsEof : bool }.
Record WriteLinesRequest := mkWriteLinesRequest { wl_Dir : string; wl_FileIdx : Z; wl_Key : string; wl_Value : string }.
Record CheckDirResponse := mkCheckDirResponse { cd_ErrMsg : string; cd_ErrFileIdx : Z }.

Definition line_response (kv : string * string) : ReadLinesResponse := mkReadLinesResponse "" kv.1 kv.2 false.
Definition error_response (msg : string) (eof : bool) : ReadLinesResponse := mkReadLinesResponse msg "" "" eof.
Definition eof_response : ReadLinesResponse := mkReadLinesResponse "" "" "" true.

(** A handler that waits for a mutex that nobody will release. *)
Inductive halt : Type := MutexHeld.

(** ** Keys in the order of their bytes *)

Fixpoint key_leb (a b : string) : bool :=
  match a, b with
  | EmptyString, _ => true
  | String _ _, EmptyString => false
  | String c a', String d b' =>
      if bool_decide (Ascii.nat_of_ascii c < Ascii.nat_of_ascii d) then true
      else if bool_decide (Ascii.nat_of_ascii c = Ascii.nat_of_ascii d) then key_leb a' b' else false
  end.
Definition entry_le (a b : string * string) : Prop := key_leb a.1 b.1 = true.
#[global] Instance entry_le_dec a b : Decision (entry_le a b).
Proof. unfold entry_le. apply _. Defined.

(** The range of an iterator that ends before the byte [0xff]. *)
Definition in_bounds (kv : string * string) : Prop :=
  match kv.1 with String c _ => Ascii.nat_of_ascii c ≠ 255 | EmptyString => True end.
#[global] Instance in_bounds_dec kv : Decision (in_bounds kv).
Proof. unfold in_bounds. destruct kv.1; apply _. Defined.

(** What an iterator over a database visits, and what it visits from a key on. *)
Definition iterate (m : gmap string string) : list (string * string) := merge_sort entry_le (filter in_bounds (map_to_list m)).
Definition seek (key : string) (l : list (string * string)) : list (string * string) := filter (λ kv, key_leb key kv.1 = true) l.

(** The text of an error. *)
Definition Error_text (e : goerr) : string := match e with ErrForeign s => s | _ => "error" end.

(** ** Pebble

    [W] are the databases, [H] the handles of the open ones. A batch is committed at once. *)

Class Pebble (W H : Type) := {
  pb_open : Z → string → Go W H;
  pb_commit : H → list (string * string) → Go W unit;
  pb_close : H → Go W unit;
  pb_contents : H → W → gmap string string;
}.

Definition put_all (kvs : list (string * string)) (m : gmap string string) : gmap string string := foldl (λ m kv, <[kv.1 := kv.2]> m) m kvs.

Class PebbleLaws (W H : Type) `{!Pebble W H} : Prop := {
  pb_commit_puts h kvs w w' : pb_commit h kvs w = (Done tt, w') → pb_contents h w' = put_all kvs (pb_contents h w);
  pb_commit_others h h' kvs w r w' : pb_commit h kvs w = (r, w') → h' ≠ h → pb_contents h' w' = pb_contents h' w;
  pb_commit_text h kvs w e w' : pb_commit h kvs w = (Fail e, w') → Error_text e ≠ "";
  pb_open_text i dir w e w' : pb_open i dir w = (Fail e, w') → Error_text e ≠ "";
  pb_open_others i dir h h' w w' : pb_open i dir w = (Done h, w') → h' ≠ h → pb_contents h' w' = pb_contents h' w;
}.

(** ** The server *)

Record DataRWServer (H : Type) := mkServer { ds_mu : bool; ds_dbMap : gmap string (gmap Z H); ds_ready : bool }.
Arguments mkServer {H}.
Arguments ds_mu {H}.
Arguments ds_dbMap {H}.
Arguments ds_ready {H}.

Definition NewDataRWServer {H} : DataRWServer H := mkServer false ∅ false.

(** What a stream meets at its n-th round: the context of the server is done, the iterator
    failed, and the answer to the n-th send. *)
Record StreamEnv := mkStreamEnv { se_done : nat → bool; se_iterErr : nat → option goerr; se_send : nat → option goerr }.

(** A round of the loop of [WriteLines]: the context of the server is done, a message, the
    end of the messages, or another error. *)
Inductive write_event := WriteCtxDone | WriteMsg (req : WriteLinesRequest) | WriteEOF | WriteErr (err : goerr).

(** The call goes on, has answered with a message and ended, or has ended. *)
Inductive write_result (X : Type) := WriteOpen (st : X) | WriteClosed (msg : string) | WriteReturned (err : option goerr).
Arguments WriteOpen {X}.
Arguments WriteClosed {X}.
Arguments WriteReturned {X}.

Fixpoint write_loop {S X} (one : X → WriteLinesRequest → GoM halt S (string + X)) (st : X) (events : list write_event) : GoM halt S (write_result X) :=
  match events with
  | [] => mret (WriteOpen st)
  | WriteCtxDone :: _ => mret (WriteReturned None)
  | WriteEOF :: _ => mret (WriteClosed "")
  | WriteErr err :: _ => mret (WriteReturned (Some err))
  | WriteMsg req :: rest =>
      r ← one st req;
      match r with
      | inl err => mret (WriteClosed err)
      | inr st' => write_loop one st' rest
      end
  end.

Section server.
Context {W H : Type} `{!Pebble W H}.
Abbreviation St := (DataRWServer H * W)%type.
Variable demoDir demoAddress : string.

Definition lock : GoM halt St unit := λ '(s, w),
  if ds_mu s then (Fail MutexHeld, (s, w)) else (Done tt, (mkServer true (ds_dbMap s) (ds_ready s), w)).
Definition unlock : GoM halt St unit := modify (λ '(s, w), (mkServer false (ds_dbMap s) (ds_ready s), w)).
Definition set_dbMap (f : gmap string (gmap Z H) → gmap string (gmap Z H)) : GoM halt St unit := modify (λ '(s, w), (mkServer (ds_mu s) (f (ds_dbMap s)) (ds_ready s), w)).
Definition set_ready (b : bool) : GoM halt St unit := modify (λ '(s, w), (mkServer (ds_mu s) (ds_dbMap s) b, w)).
Definition dbMap : GoM halt St (gmap string (gmap Z H)) := λ s, (Done (ds_dbMap s.1), s).

(** A call of the database; its error is a value. *)
Definition pebble {A} (f : Go W A) : GoM halt St (res goerr A) := λ '(s, w), let '(r, w') := f w in (match r with Panic => Panic | _ => Done r end, (s, w')).

Definition bucket_of (dir : string) (m : gmap string (gmap Z H)) : gmap Z H := default ∅ (m !! dir).

Definition ListFiles : GoM halt St Z :=
  _ ← lock;
  m ← dbMap;
  _ ← unlock;
  mret (int32 (Z.of_nat (size (bucket_of demoDir m)))).

Definition IsReady : GoM halt St bool := λ s, (Done (ds_ready s.1), s).

(** The databases of the files; the error of the first one that cannot be opened. *)
Fixpoint open_files (l : list Z) (bucket : gmap Z H) : GoM halt St (string + gmap Z H) :=
  match l with
  | [] => mret (inr bucket)
  | i :: rest =>
      r ← pebble (pb_open i demoDir);
      match r with
      | Done fileDB => open_files rest (<[i := fileDB]> bucket)
      | Fail err => mret (inl (Error_text err))
      | Panic => panic
      end
  end.

(** The records of a file, with random values. *)
Definition records (rand : Z → Z) (fileNum recordNum index : Z) : list (string * string) :=
  (λ k, (pretty k, pretty (rand k))) <$> filter (λ k, (k mod fileNum)%Z = index) (seqZ 0 recordNum).

Fixpoint commit_files (rand : Z → Z) (fileNum recordNum : Z) (l : list Z) (bucket : gmap Z H) : GoM halt St (option string) :=
  match l with
  | [] => mret None
  | i :: rest =>
      match bucket !! i with
      | None => panic
      | Some fileDB =>
          r ← pebble (pb_commit fileDB (records rand fileNum recordNum i));
          match r with
          | Done _ => commit_files rand fileNum recordNum rest bucket
          | Fail err => mret (Some (Error_text err))
          | Panic => panic
          end
      end
  end.

(** [handles] is the order in which the databases of before are closed; errors are logged. *)
Definition GenerateData (handles : gmap string (gmap Z H) → list H) (rand : Z → Z) (fileNum recordNum : Z) : GoM halt St string :=
  _ ← set_ready false;
  _ ← lock;
  m ← dbMap;
  _ ← forM_ (λ h, _ ← pebble (pb_close h); mret tt) (handles m);
  _ ← set_dbMap (λ _, ∅);
  _ ← unlock;
  if bool_decide (fileNum < 0)%Z then panic else
  opened ← open_files (seqZ 0 fileNum) ∅;
  match opened with
  | inl err => mret err
  | inr bucket =>
      if bool_decide (fileNum = 0 ∧ 0 < recordNum)%Z then panic else
      err ← commit_files rand fileNum recordNum (seqZ 0 fileNum) bucket;
      match err with
      | Some e => mret e
      | None =>
          _ ← lock;
          _ ← set_dbMap (<[demoDir := bucket]>);
          _ ← unlock;
          _ ← set_ready true;
          mret ""
      end
  end.

(** The two iterators side by side; [errs] are their errors at each round. *)
Fixpoint compare_iters (errs : nat → option goerr) (n : nat) (lastBytes : string) (l1 l2 : list (string * string)) : option string :=
  match errs n with
  | Some err => Some (Error_text err)
  | None =>
      match l1, l2 with
      | [], [] => None
      | _ :: _, [] => Some ("db2 is shorter than db1, lastChar is " +:+ lastBytes)
      | [], _ :: _ => Some ("db1 is shorter than db2, lastChar is" +:+ lastBytes)
      | (k1, v1) :: r1, (k2, v2) :: r2 =>
          if negb (bool_decide (k1 = k2)) then Some ("keys are different, k1 " +:+ k1 +:+ ", k2 " +:+ k2)
          else if negb (bool_decide (v1 = v2)) then Some ("keys are different, key " +:+ k1 +:+ ", v1 " +:+ v1 +:+ ", v2 " +:+ v2)
          else compare_iters errs (S n) k1 r1 r2
      end
  end.

Definition compareDBs (errs : nat → option goerr) (db1 db2 : H) (w : W) : option string :=
  compare_iters errs 0 "" (iterate (pb_contents db1 w)) (iterate (pb_contents db2 w)).

(** The loop over the files of the origin. *)
Fixpoint check_files (errs : Z → nat → option goerr) (dir : string) (origin target : gmap Z H) (order : list Z) (w : W) : CheckDirResponse :=
  match order with
  | [] => mkCheckDirResponse "" 0
  | originID :: rest =>
      match origin !! originID with
      | None => check_files errs dir origin target rest w
      | Some originDB =>
          match target !! originID with
          | None => mkCheckDirResponse (pretty originID +:+ " id cannot find in " +:+ dir +:+ " db") (int32 originID)
          | Some targetDB =>
              match compareDBs (errs originID) originDB targetDB w with
              | Some err => mkCheckDirResponse err (int32 originID)
              | None => check_files errs dir origin target rest w
              end
          end
      end
  end.

(** A directory that is not there is reported with the mutex locked. *)
Definition CheckDir (errs : Z → nat → option goerr) (order : gmap Z H → list Z) (dir : string) : GoM halt St CheckDirResponse :=
  _ ← lock;
  m ← dbMap;
  match m !! dir with
  | None => mret (mkCheckDirResponse ("cannot find " +:+ dir +:+ " db") 0)
  | Some targetBucket =>
      _ ← unlock;
      s ← get;
      let originBucket := bucket_of demoDir m in
      mret (check_files errs dir originBucket targetBucket (order originBucket) s.2)
  end.

(** One response; the loop over the lines. The responses whose [Send] returned nil, and the
    error of the call. *)
Definition send_one (env : StreamEnv) (n : nat) (r : ReadLinesResponse) : list ReadLinesResponse * option goerr :=
  match se_send env n with Some err => ([], Some err) | None => ([r], None) end.

Fixpoint read_loop (env : StreamEnv) (n : nat) (l : list (string * string)) : list ReadLinesResponse * option goerr :=
  if se_done env n then ([], None) else
  match se_iterErr env n with
  | Some err => send_one env n (error_response (Error_text err) false)
  | None =>
      match l with
      | [] => send_one env n eof_response
      | kv :: rest =>
          match send_one env n (line_response kv) with
          | (sent, Some err) => (sent, Some err)
          | (sent, None) => let '(more, err) := read_loop env (S n) rest in (sent ++ more, err)
          end
      end
  end.

Definition ReadLines (env : StreamEnv) (fileIdx : Z) (lineNo : string) : GoM halt St (list ReadLinesResponse * option goerr) :=
  _ ← lock;
  m ← dbMap;
  _ ← unlock;
  s ← get;
  match bucket_of demoDir m !! fileIdx with
  | None => mret (send_one env 0 (error_response ("file idx " +:+ pretty fileIdx +:+ " is out of range " +:+ pretty (size (bucket_of demoAddress m))) true))
  | Some db =>
      match seek lineNo (iterate (pb_contents db s.2)) with
      | [] => mret (send_one env 0 (error_response ("Cannot find key " +:+ lineNo) false))
      | l => mret (read_loop env 0 l)
      end
  end.

(** The variables of a call of [WriteLines]. *)
Record WriteStream := mkWriteStream { wst_dir : string; wst_idx : Z; wst_db : option H }.

(** The database of the first message. *)
Definition first_write (req : WriteLinesRequest) : GoM halt St (string + WriteStream) :=
  let dir := wl_Dir req in let idx := wl_FileIdx req in
  _ ← lock;
  m ← dbMap;
  let bucket := bucket_of dir m in
  match bucket !! idx with
  | Some db =>
      _ ← set_dbMap (<[dir := bucket]>);
      _ ← unlock;
      mret (inr (mkWriteStream dir idx (Some db)))
  | None =>
      r ← pebble (pb_open idx dir);
      match r with
      | Done db =>
          _ ← set_dbMap (<[dir := <[idx := db]> bucket]>);
          _ ← unlock;
          mret (inr (mkWriteStream dir idx (Some db)))
      | Fail err => _ ← unlock; mret (inl (Error_text err))
      | Panic => panic
      end
  end.

Definition check_write (st : WriteStream) (req : WriteLinesRequest) : string + WriteStream :=
  if negb (bool_decide (wst_dir st = wl_Dir req)) then inl "wrong dir names"
  else if negb (bool_decide (wst_idx st = wl_FileIdx req)) then inl "wrong idx"
  else inr st.

(** A message: [inl] is the answer that ends the call. *)
Definition write_one (st : WriteStream) (req : WriteLinesRequest) : GoM halt St (string + WriteStream) :=
  r ← (if bool_decide (wst_dir st = "") then first_write req else mret (check_write st req));
  match r with
  | inl err => mret (inl err)
  | inr st' =>
      match wst_db st' with
      | None => panic
      | Some db =>
          c ← pebble (pb_commit db [(wl_Key req, wl_Value req)]);
          match c with
          | Done _ => mret (inr st')
          | Fail err => mret (inl (Error_text err))
          | Panic => panic
          end
      end
  end.

Definition WriteLines (events : list write_event) : GoM halt St (write_result WriteStream) := write_loop write_one (mkWriteStream "" 0 None) events.

End server.

(** ** The mock *)

Record memFile := mkMemFile { mf_start : Z; mf_end : Z; mf_step : Z; mf_iter : Z }.

Definition setIter (iter : Z) (m : memFile) : option memFile :=
  if bool_decide (iter < mf_start m)%Z then Some (mkMemFile (mf_start m) (mf_end m) (mf_step m) (mf_start m))
  else if bool_decide (iter ≤ mf_end m)%Z then Some (mkMemFile (mf_start m) (mf_end m) (mf_step m) iter)
  else None.

Definition memFile_get (m : memFile) : option Z * memFile :=
  (if bool_decide (mf_end m < mf_iter m)%Z then None else Some (mf_iter m), mkMemFile (mf_start m) (mf_end m) (mf_step m) (int64 (mf_iter m + mf_step m))).

Definition memFile_insert (v : Z) (m : memFile) : bool * memFile :=
  if bool_decide (v < mf_step m)%Z then (true, mkMemFile v v (mf_step m) (mf_iter m))
  else if bool_decide (mf_end m < v)%Z then
    if bool_decide (int64 (mf_end m + mf_step m) ≠ v) then (false, m) else (true, mkMemFile (mf_start m) v (mf_step m) (mf_iter m))
  else (true, m).

(** [strconv.Atoi]: an optional sign and decimal digits, in the range of an [int]. *)
Fixpoint digits_value (s : string) (acc : Z) : option Z :=
  match s with
  | EmptyString => Some acc
  | String c r =>
      let d := (Z.of_nat (Ascii.nat_of_ascii c) - 48)%Z in
      if bool_decide (0 ≤ d ≤ 9)%Z then digits_value r (10 * acc + d)%Z else None
  end.
Definition Atoi (s : string) : option Z :=
  let '(neg, body) :=
    match s with
    | String c r => if bool_decide (Ascii.nat_of_ascii c = 45) then (true, r) else if bool_decide (Ascii.nat_of_ascii c = 43) then (false, r) else (false, s)
    | EmptyString => (false, s)
    end in
  if bool_decide (body = "") then None else
  match digits_value body 0 with
  | Some v => let z := if neg : bool then (- v)%Z else v in if bool_decide (in_int64 z) then Some z else None
  | None => None
  end.

(** The files are shared by pointer. *)
Record dataRWServiceMock := mkMock { mk_mu : bool; mk_files : list memFile; mk_dbMap : gmap string (gmap Z nat); mk_ready : bool }.

Section mock.
Variable demoDir demoAddress : string.
Abbreviation MSt := dataRWServiceMock.

Definition mock_lock : GoM halt MSt unit := λ s, if mk_mu s then (Fail MutexHeld, s) else (Done tt, mkMock true (mk_files s) (mk_dbMap s) (mk_ready s)).
Definition mock_unlock : GoM halt MSt unit := modify (λ s, mkMock false (mk_files s) (mk_dbMap s) (mk_ready s)).
Definition mock_bucket (dir : string) (s : MSt) : gmap Z nat := default ∅ (mk_dbMap s !! dir).

Definition mock_ListFiles : GoM halt MSt Z :=
  _ ← mock_lock;
  s ← get;
  _ ← mock_unlock;
  mret (int32 (Z.of_nat (size (mock_bucket demoDir s)))).

Definition mock_IsReady : GoM halt MSt bool := λ s, (Done (mk_ready s), s).

(** The numbers are inserted in turn. *)
Definition generated (fileNum recordNum index : Z) : memFile :=
  foldl (λ m k, (memFile_insert k m).2) (mkMemFile 0 0 fileNum 0) (filter (λ k, (k mod fileNum)%Z = index) (seqZ 0 recordNum)).

Definition mock_GenerateData (fileNum recordNum : Z) : GoM halt MSt string :=
  _ ← modify (λ s, mkMock (mk_mu s) (mk_files s) (mk_dbMap s) false);
  _ ← mock_lock;
  if bool_decide (fileNum ≤ 0 ∧ 0 < recordNum)%Z then panic else
  _ ← modify (λ s, let n := length (mk_files s) in
        mkMock (mk_mu s) (mk_files s ++ (generated fileNum recordNum <$> seqZ 0 fileNum))
          (<[demoDir := list_to_map (zip (seqZ 0 fileNum) (seq n (Z.to_nat fileNum)))]> (mk_dbMap s)) true);
  _ ← mock_unlock;
  mret "".

(** The loop of [ReadLines], which may not end: [None] when the fuel is used up. *)
Fixpoint mock_read_loop (env : StreamEnv) (fuel n : nat) (m : memFile) : option (list ReadLinesResponse * option goerr) :=
  match fuel with
  | O => None
  | S fuel' =>
      match memFile_get m with
      | (None, _) => Some (send_one env n eof_response)
      | (Some v, m') =>
          match send_one env n (mkReadLinesResponse "" (pretty v) "" false) with
          | (sent, Some err) => Some (sent, Some err)
          | (sent, None) => (λ '(more, err), (sent ++ more, err)) <$> mock_read_loop env fuel' (S n) m'
          end
      end
  end.

Definition mock_ReadLines (env : StreamEnv) (fuel : nat) (fileIdx : Z) (lineNo : string) : GoM halt MSt (option (list ReadLinesResponse * option goerr)) :=
  _ ← mock_lock;
  s ← get;
  _ ← mock_unlock;
  match mock_bucket demoDir s !! fileIdx ≫= λ p, mk_files s !! p with
  | None => mret (Some (send_one env 0 (error_response ("file idx " +:+ pretty fileIdx +:+ " is out of range " +:+ pretty (size (mock_bucket demoAddress s))) true)))
  | Some db =>
      let cannot := Some (send_one env 0 (error_response ("Cannot find key " +:+ lineNo) false)) in
      match (if bool_decide (lineNo = "") then Some 0%Z else Atoi lineNo) with
      | None => mret cannot
      | Some key =>
          match setIter key db with
          | None => mret cannot
          | Some iter => mret (mock_read_loop env fuel 0 iter)
          end
      end
  end.

(** The variables of a call of [WriteLines]: the directory, the index and the file. *)
Record MockStream := mkMockStream { mst_dir : string; mst_idx : Z; mst_file : option nat }.

Definition mock_first_write (req : WriteLinesRequest) : GoM halt MSt (string + MockStream) :=
  let dir := wl_Dir req in let idx := wl_FileIdx req in
  _ ← mock_lock;
  s ← get;
  let bucket := mock_bucket dir s in
  match bucket !! idx with
  | Some p =>
      _ ← modify (λ s, mkMock (mk_mu s) (mk_files s) (<[dir := bucket]> (mk_dbMap s)) (mk_ready s));
      _ ← mock_unlock;
      mret (inr (mkMockStream dir idx (Some p)))
  | None =>
      let p := length (mk_files s) in
      let file := mkMemFile 0 0 (Z.of_nat (size (mock_bucket demoDir s))) 0 in
      _ ← modify (λ s, mkMock (mk_mu s) (mk_files s ++ [file]) (<[dir := <[idx := p]> bucket]> (mk_dbMap s)) (mk_ready s));
      _ ← mock_unlock;
      mret (inr (mkMockStream dir idx (Some p)))
  end.

(** A number that does not follow is only logged. *)
Definition mock_write_one (st : MockStream) (req : WriteLinesRequest) : GoM halt MSt (string + MockStream) :=
  r ← (if bool_decide (mst_dir st = "") then mock_first_write req
       else mret (if negb (bool_decide (mst_dir st = wl_Dir req)) then inl "wrong dir names"
                  else if negb (bool_decide (mst_idx st = wl_FileIdx req)) then inl "wrong idx" else inr st));
  match r with
  | inl err => mret (inl err)
  | inr st' =>
      match Atoi (wl_Key req) with
      | None => mret (inl "invalid syntax")
      | Some v =>
          _ ← modify (λ s, mkMock (mk_mu s) (match mst_file st' with Some p => alter (λ m, (memFile_insert v m).2) p (mk_files s) | None => mk_files s end)
                             (mk_dbMap s) (mk_ready s));
          mret (inr st')
      end
  end.

Definition mock_WriteLines (events : list write_event) : GoM halt MSt (write_result MockStream) := write_loop mock_write_one (mkMockStream "" 0 None) events.

Fixpoint mock_check_files (dir : string) (files : list memFile) (origin target : gmap Z nat) (order : list Z) : CheckDirResponse :=
  match order with
  | [] => mkCheckDirResponse "" 0
  | originID :: rest =>
      match origin !! originID ≫= λ p, files !! p with
      | None => mock_check_files dir files origin target rest
      | Some originDB =>
          match target !! originID ≫= λ p, files !! p with
          | None => mkCheckDirResponse (pretty originID +:+ " id cannot find in " +:+ dir +:+ " db") (int32 originID)
          | Some targetDB =>
              if bool_decide (mf_end originDB = mf_end targetDB) then mock_check_files dir files origin target rest
              else mkCheckDirResponse ("origin end is " +:+ pretty (mf_end originDB) +:+ " but target end is " +:+ pretty (mf_end targetDB)) (int32 originID)
          end
      end
  end.

Definition mock_CheckDir (order : gmap Z nat → list Z) (dir : string) : GoM halt MSt CheckDirResponse :=
  _ ← mock_lock;
  s ← get;
  match mk_dbMap s !! dir with
  | None => mret (mkCheckDirResponse ("cannot find " +:+ dir +:+ " db") 0)
  | Some targetBucket =>
      _ ← mock_unlock;
      let originBucket := mock_bucket demoDir s in
      mret (mock_check_files dir (mk_files s) originBucket targetBucket (order originBucket))
  end.

End mock.

(** ** Specification *)

(** Nothing goes wrong on a stream. *)
Definition quiet : StreamEnv := mkStreamEnv (λ _, false) (λ _, None) (λ _, None).

(** What a CVS task makes of a response, and the message it sends for a line. Of a
    response, the error message is not looked at. *)
Definition reply_of (r : ReadLinesResponse) : option strPair := if rl_IsEof r then None else Some (mkStrPair (rl_Key r) (rl_Val r)).
Definition request_of (cfg : Config) (kv : strPair) : WriteLinesRequest := mkWriteLinesRequest (cfg_DstDir cfg) (int32 (cfg_Idx cfg)) (firstStr kv) (secondStr kv).

(** The task has read the first of the responses. *)
Definition has_read (ln : Lines) (resps : list ReadLinesResponse) : Prop :=
  ((Some <$> ln_src ln) ++ (if ln_eof ln then [None] else [])) `prefix_of` (reply_of <$> resps).

(** *** Lemmas on keys *)

Lemma key_leb_refl a : key_leb a a = true.
Proof. induction a as [|c a IH]; simpl; [done|]. case_bool_decide; [done|]. by rewrite bool_decide_eq_true_2. Qed.

Lemma key_leb_total a b : key_leb a b = true ∨ key_leb b a = true.
Proof.
  revert b. induction a as [|c a IH]; intros [|d b]; simpl; [auto..|]. repeat case_bool_decide; auto; lia.
Qed.

Lemma key_leb_antisym a b : key_leb a b = true → key_leb b a = true → a = b.
Proof.
  revert b. induction a as [|c a IH]; intros [|d b]; simpl; [done..|]. destruct (decide (Ascii.nat_of_ascii c = Ascii.nat_of_ascii d)) as [He|Hne].
  - rewrite He, !bool_decide_eq_false_2, !bool_decide_eq_true_2 by lia. intros Ha Hb. f_equal; [|by apply IH].
    by rewrite <- (Ascii.ascii_nat_embedding c), <- (Ascii.ascii_nat_embedding d), He.
  - rewrite !(bool_decide_eq_false_2 (_ = _)) by lia. repeat case_bool_decide; try done; lia.
Qed.

Lemma key_leb_trans a b c : key_leb a b = true → key_leb b c = true → key_leb a c = true.
Proof.
  revert b c. induction a as [|x a IH]; intros [|y b] [|z c]; simpl; try done. repeat case_bool_decide; try done; try lia. apply IH.
Qed.

#[global] Instance entry_le_total : Total entry_le.
Proof. intros a b. apply key_leb_total. Qed.
#[global] Instance entry_le_trans : Transitive entry_le.
Proof. intros a b c. apply key_leb_trans. Qed.

Lemma iterate_elem m k v : (k, v) ∈ iterate m ↔ m !! k = Some v ∧ in_bounds (k, v).
Proof. unfold iterate. rewrite merge_sort_Permutation, list_elem_of_filter, elem_of_map_to_list. tauto. Qed.

(** Iterators over databases with the same entries visit the same. *)
Lemma iterate_ext m1 m2 : (∀ k v, in_bounds (k, v) → m1 !! k = Some v ↔ m2 !! k = Some v) → iterate m1 = iterate m2.
Proof.
  intros He. assert (∀ m, StronglySorted entry_le (iterate m)) as Hs by (intros m; apply (StronglySorted_merge_sort entry_le)).
  assert (∀ m, NoDup (iterate m)) as Hn by (intros m; unfold iterate; rewrite merge_sort_Permutation; apply NoDup_filter, NoDup_map_to_list).
  apply (StronglySorted_unique_strong entry_le); [|apply Hs|apply Hs|].
  - intros [k1 v1] [k2 v2] [H1 _]%iterate_elem [H2 Hb]%iterate_elem Ha Hb'. pose proof (key_leb_antisym _ _ Ha Hb') as Hk. simpl in Hk. subst k2. apply He in H2; [|done]. congruence.
  - apply NoDup_Permutation; [apply Hn..|]. intros [k v]. rewrite !iterate_elem. split; intros [H1 Hb]; (split; [by apply He|done]).
Qed.

Lemma put_all_lookup (f : gmap string string) kvs : ∀ m k,
  (∀ kv, kv ∈ kvs → f !! kv.1 = Some kv.2) → put_all kvs m !! k = if decide (k ∈ kvs.*1) then f !! k else m !! k.
Proof.
  unfold put_all. induction kvs as [|[k' v'] kvs IH]; intros m k Hf; [done|]. simpl. rewrite IH by (intros kv Hkv; apply Hf; by right).
  destruct (decide (k ∈ kvs.*1)) as [Hin|Hin]; [by rewrite decide_True by (by right)|]. destruct (decide (k = k')) as [->|Hne].
  - rewrite lookup_insert_eq, decide_True by left. symmetry. exact (Hf (k', v') ltac:(left)).
  - rewrite lookup_insert_ne, decide_False; [done| |done]. by intros [?|?]%elem_of_cons.
Qed.

(** The lines from a key on complete a copy that has those before it. *)
Lemma copy_complete m c0 start :
  (∀ k v, c0 !! k = Some v → m !! k = Some v) → (∀ k v, m !! k = Some v → in_bounds (k, v) → key_leb start k = false → c0 !! k = Some v) →
  iterate (put_all (seek start (iterate m)) c0) = iterate m.
Proof.
  intros Hsub Hbefore. assert (∀ k v, (k, v) ∈ seek start (iterate m) ↔ m !! k = Some v ∧ in_bounds (k, v) ∧ key_leb start k = true) as Hel.
  { intros k v. unfold seek. rewrite list_elem_of_filter, iterate_elem. simpl. tauto. }
  apply iterate_ext. intros k v Hb. rewrite (put_all_lookup m) by (intros [k' v'] [? _]%Hel; done). destruct (decide _) as [Hin|Hin]; [done|]. split; [apply Hsub|].
  intros Hm. apply Hbefore; [done|done|]. destruct (key_leb start k) eqn:Hk; [|done]. exfalso. apply Hin, list_elem_of_fmap. exists (k, v). split; [done|]. by apply Hel.
Qed.

(** *** Lemmas on the handlers *)

Section handlers.
Context {W H : Type} `{!EqDecision H} `{!Pebble W H, !PebbleLaws W H}.
Abbreviation St := (DataRWServer H * W)%type.
Variable demoDir demoAddress : string.

Lemma unlocked (s : DataRWServer H) : ds_mu s = false → mkServer false (ds_dbMap s) (ds_ready s) = s.
Proof. by destruct s as [[] m r]. Qed.

Lemma read_loop_quiet n l : read_loop quiet n l = ((line_response <$> l) ++ [eof_response], None).
Proof. revert n. induction l as [|kv l IH]; intros n; [done|]. simpl. by rewrite IH. Qed.

Lemma ReadLines_quiet idx start (s : DataRWServer H) w db :
  ds_mu s = false → bucket_of demoDir (ds_dbMap s) !! idx = Some db → seek start (iterate (pb_contents db w)) ≠ [] →
  ReadLines demoDir demoAddress quiet idx start (s, w) = (Done ((line_response <$> seek start (iterate (pb_contents db w))) ++ [eof_response], None), (s, w)).
Proof.
  intros Hmu Hdb Hne. unfold ReadLines, mbind, GoM_bind, lock, dbMap, unlock, modify, get. rewrite Hmu. cbn [fst snd ds_dbMap ds_ready]. rewrite Hdb, (unlocked s Hmu).
  destruct (seek _ _) as [|kv l]; [done|]. by rewrite <- (read_loop_quiet 0).
Qed.

(** The lines of a task that read to the end. *)
Lemma has_read_all ln l : has_read ln ((line_response <$> l) ++ [eof_response]) → ln_eof ln = true → ln_src ln = (λ kv, mkStrPair kv.1 kv.2) <$> l.
Proof.
  unfold has_read. intros Hp He. rewrite He, fmap_app, <- list_fmap_compose in Hp. simpl in Hp. revert Hp. generalize (ln_src ln). intros src. revert src.
  induction l as [|kv l IH]; intros [|x src] [r Hr]; simpl in Hr.
  - done.
  - injection Hr as Hx Hr. done.
  - discriminate.
  - injection Hr as <- Hr. simpl. f_equal. apply IH. by exists r.
Qed.

(** A message for a file that is open. *)
Lemma write_one_open st req (s : DataRWServer H) w h :
  wst_dir st = wl_Dir req → wst_idx st = wl_FileIdx req → wst_dir st ≠ "" → wst_db st = Some h →
  write_one st req (s, w) =
    match pb_commit h [(wl_Key req, wl_Value req)] w with
    | (Done _, w') => (Done (inr st), (s, w'))
    | (Fail e, w') => (Done (inl (Error_text e)), (s, w'))
    | (Panic, w') => (Panic, (s, w'))
    end.
Proof.
  intros Hd Hi Hne Hh. unfold write_one. rewrite bool_decide_eq_false_2 by done. erewrite bind_Done by reflexivity. unfold check_write.
  rewrite !bool_decide_eq_true_2 by done. simpl. rewrite Hh. unfold mbind, GoM_bind, pebble. by destruct (pb_commit _ _ _) as [[]].
Qed.

Definition pair_of (kv : strPair) : string * string := (firstStr kv, secondStr kv).
Definition messages (cfg : Config) (lines : list strPair) : list write_event := ((WriteMsg ∘ request_of cfg) <$> lines) ++ [WriteEOF].

Lemma write_lines_open cfg lines st (s : DataRWServer H) h : ∀ w s' w',
  wst_dir st = cfg_DstDir cfg → wst_idx st = int32 (cfg_Idx cfg) → cfg_DstDir cfg ≠ "" → wst_db st = Some h →
  write_loop write_one st (messages cfg lines) (s, w) = (Done (WriteClosed ""), (s', w')) →
  s' = s ∧ pb_contents h w' = put_all (pair_of <$> lines) (pb_contents h w) ∧ ∀ h', h' ≠ h → pb_contents h' w' = pb_contents h' w.
Proof.
  induction lines as [|kv lines IH]; intros w s' w' Hd Hi Hne Hh; [by intros [= <- <-]|]. simpl. unfold mbind, GoM_bind.
  rewrite (write_one_open _ _ _ _ h) by (simpl; congruence). cbn [request_of wl_Key wl_Value]. destruct (pb_commit h _ w) as [[[]|e|] w1] eqn:Hc; [| |done].
  - intros Hrun. destruct (IH w1 s' w' Hd Hi Hne Hh Hrun) as (-> & Hw & Ho). split; [done|]. split.
    + rewrite Hw, (pb_commit_puts _ _ _ _ Hc). done.
    + intros h' Hne'. rewrite Ho by done. by eapply pb_commit_others.
  - intros [= He _ _]. by apply pb_commit_text in Hc.
Qed.

(** The file that a first message finds or opens. *)
Definition dest_file (dir : string) (idx : Z) (s : DataRWServer H) (w : W) (h : H) (w1 : W) : Prop :=
  (bucket_of dir (ds_dbMap s) !! idx = Some h ∧ w1 = w) ∨ (bucket_of dir (ds_dbMap s) !! idx = None ∧ pb_open idx dir w = (Done h, w1)).

Lemma first_write_spec req (s : DataRWServer H) w h w1 :
  ds_mu s = false → dest_file (wl_Dir req) (wl_FileIdx req) s w h w1 →
  ∃ s1, first_write req (s, w) = (Done (inr (mkWriteStream (wl_Dir req) (wl_FileIdx req) (Some h))), (s1, w1)) ∧
    ds_mu s1 = false ∧ bucket_of (wl_Dir req) (ds_dbMap s1) !! wl_FileIdx req = Some h ∧ ∀ dir, dir ≠ wl_Dir req → ds_dbMap s1 !! dir = ds_dbMap s !! dir.
Proof.
  intros Hmu Hd. unfold first_write, mbind, GoM_bind, lock, dbMap, set_dbMap, unlock, modify, pebble. rewrite Hmu. cbn [fst snd ds_dbMap ds_ready].
  destruct Hd as [[Hb ->]|[Hb Ho]]; rewrite Hb; [|rewrite Ho]; (eexists; split; [reflexivity|]); (split; [done|]); simpl; unfold bucket_of; rewrite lookup_insert_eq; simpl.
  - split; [exact Hb|]. intros dir Hne. by apply lookup_insert_ne.
  - split; [apply lookup_insert_eq|]. intros dir Hne. by apply lookup_insert_ne.
Qed.

(** The lines of a task into a file. *)
Lemma WriteLines_spec cfg lines (s s' : DataRWServer H) w w' h w1 :
  ds_mu s = false → cfg_DstDir cfg ≠ "" → lines ≠ [] → dest_file (cfg_DstDir cfg) (int32 (cfg_Idx cfg)) s w h w1 →
  WriteLines (messages cfg lines) (s, w) = (Done (WriteClosed ""), (s', w')) →
  ds_mu s' = false ∧ bucket_of (cfg_DstDir cfg) (ds_dbMap s') !! int32 (cfg_Idx cfg) = Some h ∧ (∀ dir, dir ≠ cfg_DstDir cfg → ds_dbMap s' !! dir = ds_dbMap s !! dir) ∧
  pb_contents h w' = put_all (pair_of <$> lines) (pb_contents h w1) ∧ ∀ h', h' ≠ h → pb_contents h' w' = pb_contents h' w1.
Proof.
  intros Hmu Hdir Hne Hd. destruct lines as [|kv lines]; [done|]. destruct (first_write_spec (request_of cfg kv) s w h w1 Hmu Hd) as (s1 & Hf & Hmu1 & Hb1 & Hm1).
  set (st := mkWriteStream (cfg_DstDir cfg) (int32 (cfg_Idx cfg)) (Some h)). intros Hrun.
  assert (write_loop write_one st (messages cfg (kv :: lines)) (s1, w1) = (Done (WriteClosed ""), (s', w'))) as Hrun'.
  { rewrite <- Hrun. unfold WriteLines. simpl. unfold mbind, GoM_bind. rewrite (write_one_open st _ s1 w1 h) by done. unfold write_one at 2. simpl. unfold mbind, GoM_bind. rewrite Hf. simpl.
    unfold pebble. by destruct (pb_commit h _ w1) as [[]]. }
  destruct (write_lines_open cfg (kv :: lines) st s1 h w1 s' w') as (-> & Hw & Ho); [done..|]. split_and!; done.
Qed.

Lemma compare_iters_eq l1 : ∀ n lastb l2, compare_iters (λ _, None) n lastb l1 l2 = None ↔ l1 = l2.
Proof.
  induction l1 as [|[k1 v1] l1 IH]; intros n lastb [|[k2 v2] l2]; simpl; [done..|]. destruct (decide (k1 = k2)) as [->|Hk].
  - rewrite bool_decide_eq_true_2 by done. simpl. destruct (decide (v1 = v2)) as [->|Hv]; [rewrite bool_decide_eq_true_2 by done; simpl; rewrite IH; naive_solver|].
    rewrite bool_decide_eq_false_2 by done. simpl. naive_solver.
  - rewrite bool_decide_eq_false_2 by done. simpl. naive_solver.
Qed.


Lemma app_not_empty a c b : a +:+ String c b ≠ "".
Proof. by destruct a. Qed.

Lemma check_files_ok dir (origin target : gmap Z H) order w :
  cd_ErrMsg (check_files (λ _ _, None) dir origin target order w) = "" ↔
  ∀ id db, id ∈ order → origin !! id = Some db → ∃ db', target !! id = Some db' ∧ iterate (pb_contents db w) = iterate (pb_contents db' w).
Proof.
  assert (∀ l1 l2 n lastb, compare_iters (λ _, None) n lastb l1 l2 ≠ Some "") as Hne.
  { induction l1 as [|[k1 v1] l1 IH]; intros [|[k2 v2] l2] n lastb; simpl; try done. repeat case_bool_decide; simpl; [apply IH|done|done|done]. }
  induction order as [|i order IH]; simpl; [split; [by intros _ id db Hid%not_elem_of_nil|done]|]. setoid_rewrite elem_of_cons.
  destruct (origin !! i) as [db|] eqn:Ho; [|rewrite IH; naive_solver]. destruct (target !! i) as [db'|] eqn:Ht.
  - destruct (compareDBs (λ _, None) db db' w) as [e|] eqn:Hc; simpl.
    + split; [intros ->; by apply Hne in Hc|]. intros Hall. destruct (Hall i db (or_introl eq_refl) Ho) as (db2 & Ht2 & Heq). assert (db2 = db') as -> by congruence.
      unfold compareDBs in Hc. rewrite (proj2 (compare_iters_eq _ _ _ _) Heq) in Hc. done.
    + apply compare_iters_eq in Hc. rewrite IH. split; [|naive_solver]. intros Hall id db2 [->|Hin] Hid; [|by eapply Hall]. exists db'. split; [done|]. congruence.
  - simpl. split; [intros Hm; by apply app_not_empty in Hm|]. intros Hall. destruct (Hall i db (or_introl eq_refl) Ho) as (db2 & Ht2 & _). congruence.
Qed.

(** The check of a directory that is there is exact: without errors of the iterators it
    answers no error if and only if every file of the origin has a copy with the same
    entries in the range of the iterators, and it leaves the server as it was. *)
Theorem check_dir_exact order dir (s : DataRWServer H) w target r out :
  ds_mu s = false → ds_dbMap s !! dir = Some target → iter_order (bucket_of demoDir (ds_dbMap s)) (order (bucket_of demoDir (ds_dbMap s))) →
  CheckDir demoDir (λ _ _, None) order dir (s, w) = (Done r, out) →
  out = (s, w) ∧
  (cd_ErrMsg r = "" ↔ ∀ id db, bucket_of demoDir (ds_dbMap s) !! id = Some db → ∃ db', target !! id = Some db' ∧ iterate (pb_contents db w) = iterate (pb_contents db' w)).
Proof.
  intros Hmu Ht Hord. unfold CheckDir, mbind, GoM_bind, lock, dbMap, unlock, modify, get. rewrite Hmu. cbn [fst snd ds_dbMap ds_ready]. rewrite Ht. cbn [fst snd ds_dbMap ds_ready]. rewrite (unlocked s Hmu).
  intros [= <- <-]. split; [done|]. rewrite check_files_ok. split; intros Hall id db; [|by intros _; apply Hall]. intros Hid. apply Hall; [|done]. apply (iter_order_elem _ _ _ Hord). by eexists.
Qed.

(** The check of a directory that is not there takes the server down: it answers the error
    but keeps the mutex, so that every later call that needs it, whatever its arguments,
    waits for ever: the list of files, another check, new data, reading a file, and the
    first message of a copy. *)
Theorem missing_dir_blocks errs order dir (s : DataRWServer H) w :
  ds_mu s = false → ds_dbMap s !! dir = None →
  ∃ r s', CheckDir demoDir errs order dir (s, w) = (Done r, (s', w)) ∧ cd_ErrMsg r ≠ "" ∧
    (ListFiles demoDir (s', w)).1 = Fail MutexHeld ∧ (∀ errs' order' dir', (CheckDir demoDir errs' order' dir' (s', w)).1 = Fail MutexHeld) ∧
    (∀ handles rand fileNum recordNum, (GenerateData demoDir handles rand fileNum recordNum (s', w)).1 = Fail MutexHeld) ∧
    (∀ env idx lineNo, (ReadLines demoDir demoAddress env idx lineNo (s', w)).1 = Fail MutexHeld) ∧
    (∀ req rest, (WriteLines (WriteMsg req :: rest) (s', w)).1 = Fail MutexHeld).
Proof.
  intros Hmu Hd. eexists _, (mkServer true (ds_dbMap s) (ds_ready s)). unfold CheckDir at 1, mbind at 1, GoM_bind at 1, lock at 1. rewrite Hmu. unfold mbind, GoM_bind, dbMap. cbn [fst snd ds_dbMap].
  rewrite Hd. split; [reflexivity|]. split_and!; done.
Qed.

(** A CVS task that finished may have lost lines on the server of the example: when the file
    it is to copy is not there, the answer of the server reads like an empty file, and
    the task finishes without a line; and when the server cannot store a line and answers
    so at the end of the stream, the task finishes although its line was accepted and is
    not in the copy. *)
Theorem finished_task_may_lose_lines cfg :
  (∀ (s : DataRWServer H) w, ds_mu s = false → bucket_of demoDir (ds_dbMap s) !! int32 (cfg_Idx cfg) = None →
     ∃ r ln t, ReadLines demoDir demoAddress quiet (int32 (cfg_Idx cfg)) (cfg_StartLoc cfg) (s, w) = (Done ([r], None), (s, w)) ∧ rl_ErrMsg r ≠ "" ∧
       task_run cfg ln t ∧ has_read ln [r] ∧ ln_dst ln = [] ∧ ct_statusCode t = WorkerStatusFinished) ∧
  (∀ (s : DataRWServer H) w w' h kv e, ds_mu s = false → cfg_DstDir cfg ≠ "" → bucket_of (cfg_DstDir cfg) (ds_dbMap s) !! int32 (cfg_Idx cfg) = Some h →
     pb_commit h [pair_of kv] w = (Fail e, w') → pb_contents h w' = pb_contents h w →
     ∃ ln t s' w1, task_run cfg ln t ∧ has_read ln [line_response (pair_of kv); eof_response] ∧ ln_dst ln = [kv] ∧ ct_statusCode t = WorkerStatusFinished ∧
       WriteLines (messages cfg (ln_dst ln)) (s, w) = (Done (WriteClosed (Error_text e)), (s', w1)) ∧ Error_text e ≠ "" ∧ pb_contents h w1 = pb_contents h w).
Proof.
  split.
  - intros s w Hmu Hb.
    assert (∃ t, CvsTask.Witness.steps [te_send_start None None; te_recv_start None None; te_recv_reply (inr None); te_send_eof None; te_send_report] (mkLines [] [] false) (Task_InitImpl (newCvsTask cfg)) =
      Some (mkLines [] [] true, t) ∧ ct_statusCode t = WorkerStatusFinished) as (t & Hst & Hf) by (eexists; split; vm_compute; reflexivity).
    eexists _, (mkLines [] [] true), t. split; [unfold ReadLines, mbind, GoM_bind, lock, dbMap, unlock, modify, get; rewrite Hmu; cbn [fst snd ds_dbMap ds_ready]; rewrite Hb, (unlocked s Hmu); reflexivity|].
    split; [done|]. split; [by eapply CvsTask.Witness.steps_run; [constructor|exact Hst]|]. split; [by exists []|done].
  - intros s w w' h kv e Hmu Hd Hb Hc Hw.
    assert (∃ t, CvsTask.Witness.steps [te_send_start None None; te_recv_start None None; te_recv_reply (inr (Some kv)); te_recv_push; te_send_take; te_send_write None; te_send_count; te_send_locate;
      te_recv_reply (inr None); te_send_eof None; te_send_report] (mkLines [] [] false) (Task_InitImpl (newCvsTask cfg)) = Some (mkLines [kv] [kv] true, t) ∧ ct_statusCode t = WorkerStatusFinished)
      as (t & Hst & Hf) by (eexists; split; vm_compute; reflexivity).
    destruct (first_write_spec (request_of cfg kv) s w h w Hmu) as (s1 & Hw1 & _); [by left|]. exists (mkLines [kv] [kv] true), t, s1, w'.
    split; [by eapply CvsTask.Witness.steps_run; [constructor|exact Hst]|]. split; [destruct kv; by exists []|]. split; [done|]. split; [done|]. split; [|split; [by eapply pb_commit_text|done]].
    unfold WriteLines. simpl. unfold mbind, GoM_bind. unfold write_one. simpl. unfold mbind, GoM_bind. rewrite Hw1. simpl. unfold pebble. change (firstStr kv, secondStr kv) with (pair_of kv). by rewrite Hc.
Qed.

End handlers.

(** *** The files of the mock *)

Section mock_files.
Context (n i : Z) (Hn : (0 < n)%Z) (Hi : (0 ≤ i < n)%Z).

Lemma mod_gap x y : (x mod n = y mod n)%Z → (- n < x - y < n)%Z → x = y.
Proof. intros He Hd. pose proof (Z.div_mod x n ltac:(lia)). pose proof (Z.div_mod y n ltac:(lia)). assert (x / n = y / n)%Z by nia. nia. Qed.

Lemma filter_gap x len : (∀ k, (x ≤ k < x + len)%Z → (k mod n ≠ i)%Z) → filter (λ k, (k mod n)%Z = i) (seqZ x len) = [].
Proof. intros Hno. apply elem_of_nil_inv. intros k [Hk Hin]%list_elem_of_filter. apply elem_of_seqZ in Hin. by apply (Hno k). Qed.

(** The numbers of the file from one of them on. *)
Lemma filter_step x e : (x mod n = i)%Z → (e mod n = i)%Z → (x ≤ e)%Z →
  filter (λ k, (k mod n)%Z = i) (seqZ x (e + 1 - x)) = x :: filter (λ k, (k mod n)%Z = i) (seqZ (x + n) (e + 1 - (x + n))).
Proof.
  intros Hx He Hle. rewrite seqZ_cons by lia. rewrite filter_cons_True by done. f_equal. destruct (decide (e < x + n)%Z) as [Hs|Hs].
  - assert (e = x) as -> by (apply mod_gap; [congruence|lia]). rewrite !filter_gap; [done|intros k; lia..].
  - replace (Z.pred (e + 1 - x)) with ((n - 1) + (e + 1 - (x + n)))%Z by lia. rewrite seqZ_app by lia. rewrite filter_app, (filter_gap (Z.succ x)).
    + simpl. do 2 f_equal. lia.
    + intros k Hk Hm. assert (k = x) by (apply mod_gap; [congruence|lia]). lia.
Qed.

(** After the records up to [r]: no number, or the progression up to the last one. *)
Definition file_shape (r : Z) (m : memFile) : Prop :=
  mf_step m = n ∧ mf_iter m = 0%Z ∧
  if bool_decide (r ≤ i)%Z then mf_start m = 0%Z ∧ mf_end m = 0%Z
  else mf_start m = i ∧ (mf_end m mod n = i)%Z ∧ (r - n ≤ mf_end m < r)%Z ∧ (i ≤ mf_end m)%Z.

Lemma generated_shape (r : nat) : (Z.of_nat r < 2 ^ 62)%Z → (n < 2 ^ 62)%Z → file_shape (Z.of_nat r) (generated n (Z.of_nat r) i).
Proof.
  intros Hr Hn2. induction r as [|r IH]; [unfold file_shape, generated; simpl; rewrite bool_decide_eq_true_2 by lia; done|]. specialize (IH ltac:(lia)).
  unfold generated in *. rewrite Nat2Z.inj_succ, <- Z.add_1_r, seqZ_app, filter_app, foldl_app by lia. set (m := foldl _ _ _) in *. destruct IH as (H1 & H2 & H3).
  rewrite Z.add_0_l. rewrite (seqZ_cons (Z.of_nat r) 1), (seqZ_nil _ (Z.pred 1)) by lia.
  destruct (decide (Z.of_nat r mod n = i)%Z) as [Hm|Hm].
  - rewrite filter_cons_True by done. simpl. unfold memFile_insert. rewrite H1. destruct (decide (Z.of_nat r < n)%Z) as [Hlt|Hlt].
    + assert (Z.of_nat r = i) as Hri by (rewrite <- Hm; symmetry; apply Z.mod_small; lia). rewrite bool_decide_eq_true_2 by done. unfold file_shape. simpl. rewrite H2, bool_decide_eq_false_2 by lia.
      rewrite Hri. split_and!; try done; try lia. apply Z.mod_small. lia.
    + rewrite bool_decide_eq_false_2 in H3 by lia. destruct H3 as (H3 & H4 & H5 & H6). assert (mf_end m = Z.of_nat r - n)%Z as He.
      { apply mod_gap; [|lia]. rewrite H4, <- Hm. symmetry. replace (Z.of_nat r - n)%Z with (Z.of_nat r + (-1) * n)%Z by lia. apply Z.mod_add. lia. }
      rewrite (bool_decide_eq_false_2 (_ < n)%Z), (bool_decide_eq_true_2 (_ < _)%Z), bool_decide_eq_false_2 by (rewrite ?He, ?int64_id by (unfold in_int64; lia); lia).
      unfold file_shape. simpl. rewrite H2, H3, bool_decide_eq_false_2 by lia. split_and!; try done; lia.
  - rewrite filter_cons_False by done. simpl. unfold file_shape. rewrite H1, H2. split_and!; try done. destruct (decide (Z.of_nat r < i)%Z) as [Hlt|Hlt].
    + rewrite bool_decide_eq_true_2 in * by lia. done.
    + assert (Z.of_nat r ≠ i) by (intros Heq; apply Hm; rewrite Heq; apply Z.mod_small; lia). rewrite bool_decide_eq_false_2 in * by lia. destruct H3 as (H3 & H4 & H5 & H6). split_and!; try done; try lia.
      assert (mf_end m ≠ Z.of_nat r - n)%Z; [|lia]. intros He. apply Hm. rewrite <- H4, He. symmetry. replace (Z.of_nat r - n)%Z with (Z.of_nat r + (-1) * n)%Z by lia. apply Z.mod_add. lia.
Qed.

Definition number_response (v : Z) : ReadLinesResponse := mkReadLinesResponse "" (pretty v) "" false.

(** The loop of [ReadLines] ends and sends the progression. *)
Lemma mock_read_spec fuel : ∀ k m,
  mf_step m = n → (mf_iter m mod n = i)%Z → (mf_end m mod n = i)%Z → (mf_end m < 2 ^ 62)%Z → (0 ≤ mf_iter m)%Z → (n < 2 ^ 62)%Z → (mf_end m - mf_iter m + 1 < Z.of_nat fuel)%Z → 0 < fuel →
  mock_read_loop quiet fuel k m =
    Some ((number_response <$> filter (λ v, (v mod n)%Z = i) (seqZ (mf_iter m) (mf_end m + 1 - mf_iter m))) ++ [eof_response], None).
Proof.
  induction fuel as [|fuel IH]; intros k m Hs Hi1 He Hb Hp Hn2 Hf Hf0; [lia|]. simpl. destruct (decide (mf_end m < mf_iter m)%Z) as [Hlt|Hle].
  - rewrite bool_decide_eq_true_2 by done. rewrite filter_gap; [done|intros v; lia].
  - rewrite bool_decide_eq_false_2 by done. simpl. assert (int64 (mf_iter m + mf_step m) = mf_iter m + n)%Z as Hw by (rewrite Hs; apply int64_id; unfold in_int64; lia).
    rewrite IH; simpl; rewrite ?Hw; try done; try lia.
    + rewrite (filter_step (mf_iter m)) by (done || lia). done.
    + rewrite <- Hi1. replace (mf_iter m + n)%Z with (mf_iter m + 1 * n)%Z by lia. apply Z.mod_add. lia.
Qed.

End mock_files.

Section mock_server.
Variable demoDir demoAddress : string.

Lemma mock_generated_file n r s s' i :
  mk_mu s = false → (0 ≤ i < n)%Z → mock_GenerateData demoDir n r s = (Done "", s') →
  mk_mu s' = false ∧ mock_bucket demoDir s' !! i = Some (length (mk_files s) + Z.to_nat i) ∧ mk_files s' !! (length (mk_files s) + Z.to_nat i) = Some (generated n r i).
Proof.
  intros Hmu Hi. unfold mock_GenerateData, mbind, GoM_bind, modify, mock_lock. cbn [mk_mu mk_files mk_dbMap mk_ready]. rewrite Hmu, bool_decide_eq_false_2 by lia. intros [= <-].
  cbn [mk_mu mk_files mk_dbMap]. split; [done|]. split.
  - unfold mock_bucket. cbn [mk_dbMap]. rewrite lookup_insert_eq. cbn [default]. apply elem_of_list_to_map_1.
    + rewrite fst_zip; [apply NoDup_seqZ|]. rewrite length_seqZ, length_seq. done.
    + apply (list_elem_of_lookup_2 _ (Z.to_nat i)). apply lookup_zip_with_Some. exists i, (length (mk_files s) + Z.to_nat i). split; [done|].
      rewrite lookup_seqZ, lookup_seq. split; (split; [|lia]); lia.
  - rewrite lookup_app_r by lia. replace (length (mk_files s) + Z.to_nat i - length (mk_files s)) with (Z.to_nat i) by lia. rewrite list_lookup_fmap.
    replace (seqZ 0 n !! Z.to_nat i) with (Some i); [done|]. symmetry. apply lookup_seqZ. lia.
Qed.

(** The files that the mock generates are read to their end: a file sends, in order, the
    numbers below the number of records that belong to it, and then the end of the file;
    with fewer records than files, a file without a record sends the number zero, which
    is not one of its records. *)
Theorem mock_reads_generated n r s s' i fuel :
  mk_mu s = false → (n < 2 ^ 31)%Z → (0 ≤ r < 2 ^ 31)%Z → mock_GenerateData demoDir n r s = (Done "", s') → (0 ≤ i < n)%Z → (r + 1 < Z.of_nat fuel)%Z →
  let numbers := if bool_decide (i < r)%Z then filter (λ k, (k mod n)%Z = i) (seqZ 0 r) else [0%Z] in
  mock_ReadLines demoDir demoAddress quiet fuel i "" s' = (Done (Some ((number_response <$> numbers) ++ [eof_response], None)), s').
Proof.
  intros Hmu Hn Hr Hgen Hi Hf. destruct (mock_generated_file n r s s' i Hmu Hi Hgen) as (Hmu' & Hb & Hfile).
  pose proof (generated_shape n i ltac:(lia) Hi (Z.to_nat r) ltac:(lia) ltac:(lia)) as Hsh. rewrite Z2Nat.id in Hsh by lia. set (m := generated n r i) in *. destruct Hsh as (H1 & H2 & H3).
  assert (mock_ReadLines demoDir demoAddress quiet fuel i "" s' = (Done (mock_read_loop quiet fuel 0 (mkMemFile (mf_start m) (mf_end m) (mf_step m) (mf_start m))), s')) as ->.
  { unfold mock_ReadLines, mbind at 1, GoM_bind at 1, mock_lock. rewrite Hmu'. unfold mbind, GoM_bind, get, mock_unlock, modify. cbn [mk_mu mk_files mk_dbMap mk_ready].
    replace (mkMock false (mk_files s') (mk_dbMap s') (mk_ready s')) with s' by (by destruct s' as [[]]). unfold mock_bucket in *. cbn [mk_dbMap]. rewrite Hb. cbn [option_bind].
    unfold option_bind. rewrite Hfile. simpl. unfold setIter. destruct (decide (0 < mf_start m)%Z) as [Hs|Hs]; [by rewrite bool_decide_eq_true_2|].
    rewrite bool_decide_eq_false_2 by done. assert (mf_start m = 0 ∧ 0 ≤ mf_end m)%Z as [Hz Hle] by (destruct (decide (r ≤ i)%Z); [rewrite bool_decide_eq_true_2 in H3 by done|rewrite bool_decide_eq_false_2 in H3 by done]; lia).
    rewrite bool_decide_eq_true_2 by done. by rewrite Hz. }
  destruct (decide (i < r)%Z) as [Hlt|Hge].
  - rewrite bool_decide_eq_false_2 in H3 by lia. destruct H3 as (H3 & H4 & H5 & H6). rewrite bool_decide_eq_true_2 by done. cbv zeta. rewrite (mock_read_spec n i ltac:(lia)); simpl; rewrite ?H3; try done; try lia.
    + do 4 f_equal. f_equal. replace r with (i + ((mf_end m + 1 - i) + (r - 1 - mf_end m)))%Z at 1 by lia. rewrite !seqZ_app, !filter_app by lia. rewrite Z.add_0_l, (filter_gap n i 0), (filter_gap n i _ (r - 1 - mf_end m)).
      * by rewrite app_nil_r.
      * intros k Hk Hm. assert (k = mf_end m) by (apply (mod_gap n ltac:(lia)); [congruence|lia]). lia.
      * intros k Hk Hm. rewrite Z.mod_small in Hm; lia.
    + apply Z.mod_small. lia.
  - rewrite bool_decide_eq_true_2 in H3 by lia. destruct H3 as [H3 H4]. rewrite bool_decide_eq_false_2 by done. rewrite H3, H4, H1. destruct fuel as [|[|fuel]]; [lia..|]. cbn [mock_read_loop memFile_get mf_end mf_iter mf_step mf_start].
    rewrite (bool_decide_eq_false_2 (0 < 0)%Z) by lia. rewrite Z.add_0_l, int64_id by (unfold in_int64; lia). simpl. rewrite bool_decide_eq_true_2 by lia. done.
Qed.

End mock_server.

(** ** Concrete runs *)

Module Witness.
Import CvsTask.Witness.

(** Databases in memory; a batch with the value ["!"] is not stored. *)
Abbreviation Disk := (list (gmap string string)).

#[local] Instance mem_pebble : Pebble Disk nat := {|
  pb_open i dir w := (Done (length w), w ++ [∅]);
  pb_commit h kvs w := if bool_decide ("!" ∈ kvs.*2 ∨ length w ≤ h) then (Fail (ErrForeign "disk full"), w) else (Done tt, <[h := put_all kvs (default ∅ (w !! h))]> w);
  pb_close h w := (Done tt, w);
  pb_contents h w := default ∅ (w !! h);
|}.

#[local] Instance mem_pebble_laws : PebbleLaws Disk nat.
Proof.
  split; cbn [pb_open pb_commit pb_close pb_contents mem_pebble].
  - intros h kvs w w'. case_bool_decide as Hb; [done|]. intros [= <-]. rewrite list_lookup_insert_eq; [done|]. destruct (decide (length w ≤ h)) as [Hl|Hl]; [by destruct Hb; right|lia].
  - intros h h' kvs w r w'. case_bool_decide; intros [= _ <-] Hne; [done|]. by rewrite list_lookup_insert_ne.
  - intros h kvs w e w'. case_bool_decide; [|done]. by intros [= <- _].
  - done.
  - intros i dir h h' w w' [= <- <-] Hne. destruct (decide (h' < length w)) as [Hl|Hl]; [by rewrite lookup_app_l|].
    rewrite (lookup_ge_None_2 (w ++ [∅])), (lookup_ge_None_2 w) by (rewrite ?length_app; simpl; lia). done.
Qed.

Definition file0 : gmap string string := {["1" := "one"; "2" := "two"]}.
Definition disk0 : Disk := [file0].
Definition server0 : DataRWServer nat := mkServer false {["/data" := {[0%Z := 0]}]} true.
Definition finished : Lines * cvsTask := after (copying ++ finishing).
Definition copied : DataRWServer nat * Disk := (WriteLines (messages cfg0 (ln_dst finished.1)) (server0, disk0)).2.
Definition resps0 : list ReadLinesResponse := [line_response ("1", "one"); line_response ("2", "two"); eof_response].


Lemma check_dir_exact_witness :
  cd_ErrMsg (mkCheckDirResponse "" 0) = "" ↔ ∀ id db, bucket_of "/data" (ds_dbMap copied.1) !! id = Some db → ∃ db', ({[0%Z := 1]} : gmap Z nat) !! id = Some db' ∧
    iterate (pb_contents db copied.2) = iterate (pb_contents db' copied.2).
Proof.
  assert (CheckDir "/data" (λ _ _, None) (λ m, (map_to_list m).*1) "/tmp" (copied.1, copied.2) = (Done (mkCheckDirResponse "" 0), (copied.1, copied.2))) as H1 by (vm_compute; reflexivity).
  apply (check_dir_exact "/data" (λ m, (map_to_list m).*1) "/tmp" copied.1 copied.2 {[0%Z := 1]} (mkCheckDirResponse "" 0) (copied.1, copied.2)).
  - vm_compute. reflexivity.
  - vm_compute. reflexivity.
  - apply iter_order_keys.
  - exact H1.
Defined.

Lemma missing_dir_blocks_witness : ∃ r s', CheckDir "/data" (λ _ _, None) (λ m, (map_to_list m).*1) "/tmp" (server0, disk0) = (Done r, (s', disk0)) ∧ (ListFiles "/data" (s', disk0)).1 = Fail MutexHeld.
Proof.
  destruct (missing_dir_blocks "/data" "addr" (λ _ _, None) (λ m, (map_to_list m).*1) "/tmp" server0 disk0) as (r & s' & Hc & _ & Hl & _).
  - reflexivity.
  - vm_compute. reflexivity.
  - exact (ex_intro _ r (ex_intro _ s' (conj Hc Hl))).
Defined.

Lemma finished_task_may_lose_lines_witness :
  (∃ r ln t, ReadLines "/data" "addr" quiet 7 "" (server0, disk0) = (Done ([r], None), (server0, disk0)) ∧ ln_dst ln = [] ∧ task_run (mkConfig 7 "src" "dst" "/tmp" "") ln t ∧
     ct_statusCode t = WorkerStatusFinished) ∧
  (∃ ln t, task_run (mkConfig 0 "src" "dst" "/data" "") ln t ∧ ct_statusCode t = WorkerStatusFinished ∧ ln_dst ln = [mkStrPair "3" "!"] ∧
     (WriteLines (messages (mkConfig 0 "src" "dst" "/data" "") (ln_dst ln)) (server0, disk0)).1 = Done (WriteClosed "disk full")).
Proof.
  split.
  - destruct (proj1 (finished_task_may_lose_lines (W := Disk) "/data" "addr" (mkConfig 7 "src" "dst" "/tmp" "")) server0 disk0) as (r & ln & t & H1 & _ & H2 & _ & H3 & H4).
    + reflexivity.
    + vm_compute. reflexivity.
    + exact (ex_intro _ r (ex_intro _ ln (ex_intro _ t (conj H1 (conj H3 (conj H2 H4)))))).
  - destruct (proj2 (finished_task_may_lose_lines (W := Disk) "/data" "addr" (mkConfig 0 "src" "dst" "/data" "")) server0 disk0 disk0 0 (mkStrPair "3" "!") (ErrForeign "disk full")) as (ln & t & s' & w1 & H1 & _ & H3 & H4 & H5 & _).
    + reflexivity.
    + discriminate.
    + vm_compute. reflexivity.
    + vm_compute. reflexivity.
    + reflexivity.
    + exists ln, t. split; [exact H1|]. split; [exact H4|]. split; [exact H3|]. rewrite H5. reflexivity.
Defined.

Definition mock0 : dataRWServiceMock := mkMock false [] ∅ false.
Definition mock1 : dataRWServiceMock := (mock_GenerateData "/data" 2 5 mock0).2.

Lemma mock_reads_generated_witness :
  mock_ReadLines "/data" "addr" quiet 10 1 "" mock1 = (Done (Some ((number_response <$> [1%Z; 3%Z]) ++ [eof_response], None)), mock1).
Proof.
  assert (mock_GenerateData "/data" 2 5 mock0 = (Done "", mock1)) as H1 by (vm_compute; reflexivity).
  pose proof (mock_reads_generated "/data" "addr" 2 5 mock0 mock1 1 10 eq_refl ltac:(lia) ltac:(lia) H1 ltac:(lia) ltac:(lia)) as H2.
  assert ((if bool_decide (1 < 5)%Z then filter (λ k, (k mod 2)%Z = 1%Z) (seqZ 0 5) else [0%Z]) = [1%Z; 3%Z]) as H3 by (vm_compute; reflexivity).
  cbv zeta in H2. rewrite H3 in H2. exact H2.
Defined.

End Witness.
